(* ===== verification/_CoqProject ===== *)
-Q . S2P
Prelude.v
Effects.v
Bytes.v
Text.v
EvpnCodec.v
EvpnL2.v
EvpnSpeaker.v
Pce.v
Traffic.v
Packets.v
Channel.v
ShortestPath.v
Fabric.v
LiveModel.v
WorkloadModel.v
ContactPlan.v
Ephemeris.v
Feeder.v
Constellation.v
Handover.v
Performance.v
Capacity.v
Workloads.v
WorkloadSetup.v
Regex.v
PhysicsJobs.v
Replay.v
Namespace.v
Provision.v
Launch.v
Service.v
Http.v
Lease.v
Suite.v
Closure.v
Bridge.v
Dashboard.v
Library.v
NtnChannel.v
ReplayRun.v
Host.v
Runtime.v
