(* ===== verification/Prelude.v ===== *)
(** * StarFabric: verification of the Python system-in-the-loop platform

    StarFabric runs a LEO constellation as a real packet network: orbits and contact models give
    the links of every instant, FRR routers in network namespaces carry the traffic, workload
    flows are steered over them by several carriers, and reports say whether it all worked.  This
    library models the Python code that decides something: codecs, protocol state, path and contact
    computation, steering, the guards of the privileged helpers, verdicts and the life of a session.

    ** The parts and their files

    - [Prelude], [Bytes], [Text], [Regex], [Effects], [Http]: Python exceptions and dictionaries, [struct],
      [ipaddress] and string formatting, [re.fullmatch], computations with a state and exceptions, requests
      as the handlers of the standard library get them; notation, tactics and the hint databases
      [starfabric] and [keeps].
    - Control plane of the services.  [EvpnCodec] (lab/live/evpn_codec.py), [EvpnL2] (evpn_l2.py) and
      [EvpnSpeaker] (evpn_speaker.py): BGP EVPN messages, MAC learning and ingress replication, and the
      speaker as a step function over its sessions.  [Pce] (lab/platform/pce.py and
      lab/containerlab/advanced-protocols/pcep_server.py): the two PCEP servers.
    - The network.  [ShortestPath] specifies distances and the queue algorithm; [Fabric]
      (lab/platform/fabric.py) is the constellation graph with its addresses, labels, configuration and
      wiring; [LiveModel] (lab/live/model.py) the clock that predicts frames and the fabric that grows
      with contacts; [Provision] (lab/live/runtime.py, provision and retire) the manifests for new and
      expired contacts.
    - Orbits and contacts.  [ContactPlan] and [Ephemeris] (tools/contactplan.py, ephemeris_contacts.py),
      [Feeder] and [Constellation] (tools/physical_constellation.py), [Handover]
      (lab/orbit-closed-loop/compile_replay.py).
    - Impairments.  [Channel] (lab/platform/channel.py) with the JSON values of the validators;
      [PhysicsJobs] (physics_jobs.py) the fleet-wide barriers; [Replay] (physics_runtime.py) the frames
      applied to the kernel with their readback, [ReplayRun] the 1:1 replay of a horizon; [NtnChannel] (ntn/channel_emulator.py)
      the delay queue of the sample channel.
    - Workloads.  [WorkloadModel] (lab/live/workload_model.py) the catalog, [Workloads] and
      [WorkloadSetup] (workloads.py) steering and setup, [Traffic] (workload_traffic.py) the paced echo
      workers, [Packets] (lab/platform/packets.py, workload_capture.py) the decoded evidence.
    - Verdicts.  [Performance] (performance.py, storage.py, summarize_performance.py) schedule, ping
      counters and percentiles; [Capacity] (capacity.py, workload_snapshot.py) the capacity trial; [Suite]
      (tools/single_pc.py) the acceptance suite with its archive of evidence, and [Closure]
      (tools/verify_single_pc_closure.py) the audit of the roadmap against it.
    - Guards and lifecycle.  [Namespace] (frr_agent.py, frr_executor.py, namespace_jobs.py) what the
      privileged helpers accept and [Bridge] their handlers and clients, from an HTTP request to the command
      in a router; [Launch] (launch.py) the configurations that may be started; [Service] (service.py,
      progress.py) the owned session with its lock, files and signals; [Dashboard] (frontend/server.py) the
      requests of the page that start, stop and scale it, and [Library] the files it may show; [Lease]
      (lab/reliability/ha_closed_loop.py) the lease controllers compete for; [Host] (resources.py) the limits
      a run changes;
      [Runtime] (lab/live/runtime.py) the runtime of a session, which composes the parts above: one
      frame ([tick]), the schedule ([loop]), the stages of a start and the verdict of [main].

    Interfaces between parts are classes or records of operations: [PathService] for the PCE,
    [ContactModel] for the clock, [Math], [Calendar] and [Propagator] for the irrational functions, dates and orbits, [evidence] for the
    files a worker reads.  A theorem over such an interface has a witness with a concrete instance.

    ** How code becomes definitions

    A call that may raise returns [res]; a handler that changes state takes the state and returns the
    new one, together with the exception where the code catches it further up.  Dictionaries are
    association lists in insertion order ([dget], [dset], [dpop]), integers are [Z] with the widths of
    [struct] checked where the code packs, and bytes are [list byte].  Times are integers in the unit
    the code resolves, or exact rationals; floating-point rounding is not modelled, and where a float is
    printed or compared the file says why exact arithmetic agrees.  Threads and processes are
    interleavings: an inductive relation for thread pools ([PhysicsJobs.merge]), a step relation for the
    session ([Service.step]), an event function for asyncio ([EvpnSpeaker.step]); the runtime and the request
    handlers are computations of the state and error monad [Effects.M].  What the operating
    system, routers, containers and the controller answer is an argument, including how a write of a reply or of a
    status file ends.  Where a loop is paced ([Runtime.loop], [Traffic.send]) its clock is part of the state and
    the waits are modelled: a wait lasts for its timeout and some time more, or a stop request ends it.  A read past the
    end of a buffer raises what [struct] or indexing raises.

    ** What the theorems show

    - Routing information: a speaker keeps its peers' tables equal to its exports, installs only what its
      import policy allows, reads what it writes, and rejects malformed messages with [ValueError] only.
    - Paths: [shortest_hops] is exact; addresses of a live fabric never change or collide;
      PCE replies are backed by committed paths and do not depend on how bytes arrive.
    - Contacts: selection respects every terminal budget and is max-min for feeders; contact plans become
      the right windows; the handover found is the least one.
    - No unshaped forwarding: in any interleaving and after any failure a contact is up only with the
      queue of its frame; withdrawals come first, readbacks last.
    - Confinement: whatever JSON the helpers are sent, they start only permitted commands in processes of
      the run, and what the runtime itself generates is accepted; every command of the bridge has its record in
      the log, every request its answer as far as it can be written, and a job that is reported done was done.
    - Steering is fail-closed after ticks that end normally, whatever contacts each tick sees, with a proved exception for
      partial writes.
    - Verdicts: no outage between polls is missed, a passed trial has its evidence, sequence numbers are
      extended exactly, a sender keeps its configured rate, tailing neither loses nor repeats a record; stages run in the order of their
      dependencies, and a system is reported closed only on the evidence its own stages produced.
    - Lifecycle: a validated launch can be run, at most one supervisor owns the session, clients are told
      the truth about it, teardown is signalled once, and a session that ends leaves nothing running; pages of
      other origins change nothing, a new rate reaches the workers of its run only, and the limits a run raised
      are given back unless an operator has changed them since, or the containers had none of their own; only files of the project that are named or
      belong to a run are served; the writes of the lease form one chain of versions.
    - The runtime: the controller hears of a frame only after every interface realises it, also when a
      manifest had to be applied twice; a frame recorded as verified has every service on the route and the
      active contacts it publishes, unless an exception without text has hidden a failure; no frame starts before its slot
      of the clock; the checkpoints of a start and the verdict at its end are those of what happened, and every cleanup
      runs once the first status of the end is written.

    ** Fuel and bounds

    Loops that are not structural take fuel from the data: the length of a command list, the bytes left,
    the nodes and links of a graph.  Theorems are about the wrapper that supplies it and state the result,
    so that running out of fuel ([OutOfFuel]) is excluded by proof; [serve] and the connection loops are
    given one unit per chunk of input.

    ** Not modelled

    Sockets, subprocesses, containers, HTTP and log files beyond what they deliver; report layout; SGP4 and
    calendar arithmetic; floating-point rounding; the other scripts under lab/, learning/, ntn/ and tools/, which
    drive these components and assert on their output; [limit_containers] of resources.py, which pins the containers of the
    cluster; other events between the drains of one publication of the speaker; the snapshots the dashboard assembles; the Go controller
    and the Rust onboard runtime. *)

From stdpp Require Export base strings list sorting gmap pretty fin_maps.
From Stdlib Require Export ZArith Lia Sorted.
#[global] Open Scope string_scope.
#[global] Open Scope Z_scope.
#[global] Open Scope list_scope.

(** ** Python exceptions and fallible computations *)

(** The exception classes the modelled code raises or catches. *)
Inductive exn :=
| ValueError (msg : string)
| KeyError
| IndexError
| TypeError
| AttributeError
| ZeroDivisionError
| StopIteration
| StructError
| OSError (msg : string)
| RuntimeError (msg : string)
| AssertionError (msg : string)
| InterruptedError (msg : string)
| ConnectionError (msg : string)
| TimeoutError
| TimeoutExpired
| OverflowError
| IncompleteReadError (msg : string)
| OutOfFuel.

#[global] Instance exn_eq_dec : EqDecision exn.
Proof. solve_decision. Defined.

(** [str(e)] *)
Definition exn_str (e : exn) : string :=
  match e with
  | ValueError m | OSError m | RuntimeError m | AssertionError m | InterruptedError m
  | ConnectionError m | IncompleteReadError m => m
  | _ => ""
  end.

(** A call either returns a value or raises. *)
Inductive res (A : Type) :=
| Ok (a : A)
| Err (e : exn).
Arguments Ok {A} a.
Arguments Err {A} e.

#[global] Instance res_eq_dec {A} `{EqDecision A} : EqDecision (res A).
Proof. solve_decision. Defined.

#[global] Instance res_ret : MRet res := @Ok.
#[global] Instance res_bind : MBind res := fun A B f m =>
  match m with Ok a => f a | Err e => Err e end.
#[global] Instance res_fmap : FMap res := fun A B f m =>
  match m with Ok a => Ok (f a) | Err e => Err e end.

Declare Scope py_scope.
Delimit Scope py_scope with py.
Open Scope py_scope.

Notation "'let*' x ':=' m 'in' k" := (mbind (fun x => k) m)
  (at level 10, x pattern, m at level 100, k at level 200) : py_scope.

(** Python's [if c: raise e] followed by the rest of the block. *)
Notation "'raise' e 'when' c ';;' k" := (if c then Err e else k)
  (at level 10, e at level 9, c at level 99, k at level 200) : py_scope.

(** The value of an [option], or the exception raised where it is missing. *)
Definition or_raise {A} (e : exn) (o : option A) : res A :=
  match o with Some a => Ok a | None => Err e end.

(** Left-to-right evaluation of a list comprehension whose body may raise. *)
Fixpoint mapM_res {A B} (f : A -> res B) (l : list A) : res (list B) :=
  match l with
  | [] => Ok []
  | x :: l' => let* y := f x in let* ys := mapM_res f l' in Ok (y :: ys)
  end.

(** A [for] loop over a list, threading a state through a body that may raise. *)
Fixpoint foldM {A S} (f : S -> A -> res S) (s : S) (l : list A) : res S :=
  match l with
  | [] => Ok s
  | x :: l' => let* s' := f s x in foldM f s' l'
  end.

(** ** Generators *)

(** A finite generator: what it yields, then the exception it ends with, if
    any.  A consumer that stops early never sees the exception. *)
Record gen (A : Type) := Gen { yielded : list A; raised : option exn }.
Arguments Gen {A} yielded raised.
Arguments yielded {A} g.
Arguments raised {A} g.

Definition gen_cons {A} (a : A) (g : gen A) : gen A := Gen (a :: yielded g) (raised g).
Definition gen_stop {A} : gen A := Gen [] None.
Definition gen_raise {A} (e : exn) : gen A := Gen [] (Some e).

(** [list(g)]. *)
Definition gen_list {A} (g : gen A) : res (list A) :=
  match raised g with None => Ok (yielded g) | Some e => Err e end.

(** [next(x for x in g if p(x))]. *)
Definition gen_next {A} (p : A -> bool) (g : gen A) : res A :=
  match List.find p (yielded g) with
  | Some a => Ok a
  | None => Err (match raised g with Some e => e | None => StopIteration end)
  end.

(** ** Sequences *)

(** [len(l)] *)
Definition len {A} (l : list A) : Z := Z.of_nat (length l).

(** [l[a:b]] for bounds that are not negative. *)
Definition slice {A} (l : list A) (a b : Z) : list A :=
  take (Z.to_nat (b - a)) (drop (Z.to_nat a) l).

(** [l[a:]] for a bound that is not negative. *)
Definition from {A} (l : list A) (a : Z) : list A := drop (Z.to_nat a) l.

(** [l[-n:]] for a positive [n]. *)
Definition last_n {A} (n : nat) (l : list A) : list A := drop (length l - n) l.

(** [x in l] *)
Definition mem {A} `{EqDecision A} (x : A) (l : list A) : bool := bool_decide (x ∈ l).

(** ** Dictionaries, in insertion order *)

Section Dict.
Context {K V : Type} `{EqDecision K}.

Fixpoint dget (d : list (K * V)) (k : K) : option V :=
  match d with
  | [] => None
  | (k', v) :: d' => if decide (k = k') then Some v else dget d' k
  end.

(** [d[k] = v]: an existing key keeps its place, a new one goes last. *)
Fixpoint dset (d : list (K * V)) (k : K) (v : V) : list (K * V) :=
  match d with
  | [] => [(k, v)]
  | (k', v') :: d' => if decide (k = k') then (k', v) :: d' else (k', v') :: dset d' k v
  end.

(** [d.pop(k, None)] *)
Definition dpop (d : list (K * V)) (k : K) : list (K * V) :=
  List.filter (fun kv => negb (bool_decide (k = kv.1))) d.

Definition dhas (d : list (K * V)) (k : K) : bool :=
  match dget d k with Some _ => true | None => false end.

Definition dkeys (d : list (K * V)) : list K := map fst d.
Definition dvalues (d : list (K * V)) : list V := map snd d.

(** A dictionary built from its items, the later of two equal keys winning. *)
Definition dict_of (l : list (K * V)) : list (K * V) :=
  fold_left (fun d kv => dset d kv.1 kv.2) l [].

Definition d_ok (d : list (K * V)) : Prop := NoDup (dkeys d).

End Dict.

(** ** Sorting: Python's [sorted], a stable sort, by insertion *)

Section Sort.
Context {A : Type} (leb : A -> A -> bool).

Fixpoint insert_sorted (x : A) (l : list A) : list A :=
  match l with
  | [] => [x]
  | y :: l' => if leb x y then x :: y :: l' else y :: insert_sorted x l'
  end.

Fixpoint sort_by (l : list A) : list A :=
  match l with
  | [] => []
  | x :: l' => insert_sorted x (sort_by l')
  end.

End Sort.

(** [sorted] of a collection of strings: lexicographic, code point by code point. *)
Definition sorted_strings : list string -> list string := sort_by String.leb.

(** A set built from a sequence, here with its elements in first-seen order. *)
Definition set_of {A} `{EqDecision A} (l : list A) : list A :=
  fold_left (fun s x => if mem x s then s else s ++ [x]) l [].

(** ** Proof automation *)

(** Case analysis on the conditions a computation in the context or in the goal
    branches on. *)
Ltac simpl_res :=
  unfold mbind, mret, fmap, res_bind, res_ret, res_fmap in *; simpl in *.

Ltac split_match :=
  match goal with
  | |- context [match ?x with _ => _ end] =>
      lazymatch x with context [match _ with _ => _ end] => fail | _ => destruct x eqn:? end
  | |- context [if ?b then _ else _] =>
      lazymatch b with context [if _ then _ else _] => fail | _ => destruct b eqn:? end
  end.

Ltac split_match_in H :=
  match type of H with
  | context [match ?x with _ => _ end] =>
      lazymatch x with context [match _ with _ => _ end] => fail | _ => destruct x eqn:? end
  end.

(** Skips the branch in which the outermost guard of both sides raises. *)
Ltac split_guard :=
  match goal with
  | |- (if ?c then _ else _) = _ => destruct c eqn:?; [done|]
  | |- (if ?c then _ else _) = _ -> _ => destruct c eqn:?; [done|]
  end.

(** Turns boolean tests in the context into propositions [lia] understands. *)
Ltac bool_to_prop :=
  repeat match goal with
  | H : (_ && _)%bool = true |- _ => apply andb_prop in H as [? ?]
  | H : (_ || _)%bool = false |- _ => apply orb_false_elim in H as [? ?]
  | H : negb _ = true |- _ => apply negb_true_iff in H
  | H : negb _ = false |- _ => apply negb_false_iff in H
  | H : (_ <? _) = true |- _ => apply Z.ltb_lt in H
  | H : (_ <? _) = false |- _ => apply Z.ltb_ge in H
  | H : (_ <=? _) = true |- _ => apply Z.leb_le in H
  | H : (_ <=? _) = false |- _ => apply Z.leb_gt in H
  | H : (_ =? _) = true |- _ => apply Z.eqb_eq in H
  | H : (_ =? _) = false |- _ => apply Z.eqb_neq in H
  | H : bool_decide _ = true |- _ => apply bool_decide_eq_true in H
  | H : bool_decide _ = false |- _ => apply bool_decide_eq_false in H
  end.

(** Evaluates the slices of explicit lists, whatever their elements are. *)
Ltac eval_slices :=
  repeat match goal with
  | |- context [slice ?l ?a ?b] =>
      let r := eval vm_compute in (slice l a b) in change (slice l a b) with r
  | |- context [from ?l ?a] =>
      let r := eval vm_compute in (from l a) in change (from l a) with r
  | |- context [len (?x :: ?l)] =>
      let r := eval vm_compute in (len (x :: l)) in change (len (x :: l)) with r
  end.

(** Names the elements of a list whose length is a numeral. *)
Ltac explode l H :=
  repeat (destruct l as [|? l]; simpl in H; [discriminate H|]);
  destruct l; [clear H|discriminate H].

Create HintDb starfabric.
Create Rewrite HintDb starfabric.

(** ** Lemmas on the error monad *)

Lemma bind_Ok {A B} (m : res A) (f : A -> res B) (b : B) :
  mbind f m = Ok b <-> exists a, m = Ok a /\ f a = Ok b.
Proof. destruct m; simpl_res; naive_solver. Qed.

Lemma bind_Err {A B} (m : res A) (f : A -> res B) (e : exn) :
  mbind f m = Err e <-> m = Err e \/ exists a, m = Ok a /\ f a = Err e.
Proof. destruct m; simpl_res; naive_solver. Qed.

Lemma or_raise_Ok {A} (e : exn) (o : option A) (a : A) : or_raise e o = Ok a <-> o = Some a.
Proof. destruct o; simpl; split; congruence. Qed.

Lemma mapM_res_Ok {A B} (f : A -> res B) (l : list A) (ys : list B) :
  mapM_res f l = Ok ys <-> Forall2 (fun x y => f x = Ok y) l ys.
Proof.
  revert ys; induction l as [|x l IH]; intros ys; simpl.
  - split; [intros [= <-]; constructor | intros H; by inversion H].
  - rewrite bind_Ok. split.
    + intros (y & Hy & H). apply bind_Ok in H as (ys' & Hys & [= <-]).
      constructor; [done | by apply IH].
    + intros H; inversion H as [|? y ? ys' Hy Hys]; subst.
      exists y; split; [done|]. apply bind_Ok. exists ys'. by rewrite IH.
Qed.

Lemma mapM_res_total {A B} (f : A -> B) (l : list A) :
  mapM_res (fun x => Ok (f x)) l = Ok (map f l).
Proof. apply mapM_res_Ok. induction l; simpl; constructor; auto. Qed.

Lemma mapM_res_app {A B} (f : A -> res B) (l l' : list A) :
  mapM_res f (l ++ l') = let* ys := mapM_res f l in let* ys' := mapM_res f l' in Ok (ys ++ ys').
Proof.
  induction l as [|x l IH]; simpl; [by destruct (mapM_res f l')|]. rewrite IH.
  destruct (f x); simpl_res; [|done]. destruct (mapM_res f l); simpl_res; [|done]. by destruct (mapM_res f l').
Qed.

Lemma foldM_app {A S} (f : S -> A -> res S) s l1 l2 :
  foldM f s (l1 ++ l2) = let* s' := foldM f s l1 in foldM f s' l2.
Proof.
  revert s; induction l1 as [|x l1 IH]; intros s; simpl; [done|].
  destruct (f s x); simpl_res; auto.
Qed.

(** An invariant of the loop body is an invariant of the loop. *)
Lemma foldM_inv {A S} (P : S -> Prop) (f : S -> A -> res S) l s s' :
  (forall s x s', x ∈ l -> P s -> f s x = Ok s' -> P s') ->
  P s -> foldM f s l = Ok s' -> P s'.
Proof.
  revert s; induction l as [|x l IH]; intros s Hf Hs; simpl.
  - by intros [= <-].
  - rewrite bind_Ok. intros (s1 & H1 & H2).
    eapply IH; [|eapply Hf; [|exact Hs|exact H1]|exact H2]; [|left].
    intros; eapply Hf; [right|..]; eauto.
Qed.

(** Each element of a loop that returns has had its turn. *)
Lemma foldM_each {A S} (f : S -> A -> res S) l s s' x : foldM f s l = Ok s' -> x ∈ l -> exists s1 s2, f s1 x = Ok s2.
Proof.
  revert s. induction l as [|y l IH]; intros s; cbn [foldM]; [by intros _ []%not_elem_of_nil|].
  rewrite bind_Ok. intros (s1 & H1 & H2) [->|Hx]%elem_of_cons; [by exists s, s1|by eapply IH].
Qed.

Lemma fold_left_inv {A S} (P : S -> Prop) (f : S -> A -> S) l s :
  (forall s x, x ∈ l -> P s -> P (f s x)) -> P s -> P (fold_left f l s).
Proof.
  revert s; induction l as [|x l IH]; intros s Hf Hs; simpl; [done|].
  apply IH; [intros; apply Hf; [by right|done]|]. apply Hf; [left|done].
Qed.

(** A computation whose only exception is [ValueError], what a caller with
    [except ValueError] handles. *)
Definition only_value {A} (m : res A) : Prop :=
  match m with Ok _ | Err (ValueError _) => True | Err _ => False end.

Lemma only_value_bind {A B} (m : res A) (f : A -> res B) :
  only_value m -> (forall a, m = Ok a -> only_value (f a)) -> only_value (mbind f m).
Proof. destruct m; simpl_res; auto. Qed.

(** Skips the branch of a guard that raises [ValueError]. *)
Ltac value_guard :=
  match goal with |- only_value (if ?c then Err (ValueError _) else _) => destruct c eqn:?; [exact I|] end.

Lemma only_value_Err {A} (m : res A) e : only_value m -> m = Err e -> exists msg, e = ValueError msg.
Proof. intros H ->. destruct e; try done. by eexists. Qed.

Lemma Forall_filter {A} (P : A -> Prop) (p : A -> bool) (l : list A) : Forall P l -> Forall P (List.filter p l).
Proof.
  rewrite !Forall_forall. intros H x Hx. apply list_elem_of_In, filter_In in Hx as [Hx _].
  by apply H, list_elem_of_In.
Qed.

Lemma filter_perm {A} (p : A -> bool) (l l' : list A) : l ≡ₚ l' -> List.filter p l ≡ₚ List.filter p l'.
Proof.
  induction 1 as [|x l l' _ IH|x y l|l l' l'' _ IH1 _ IH2]; simpl; [done| | |by etrans].
  - destruct (p x); by rewrite IH.
  - destruct (p x), (p y); try done. constructor.
Qed.

(** ** Lemmas on dictionaries *)

Section DictLemmas.
Context {K V : Type} `{EqDecision K}.
Implicit Types d : list (K * V).

Lemma dget_dset d k k' v :
  dget (dset d k v) k' = if decide (k' = k) then Some v else dget d k'.
Proof.
  induction d as [|[k1 v1] d IH]; simpl; [done|].
  repeat (case_decide; subst; simpl); congruence.
Qed.

Lemma dget_dset_eq d k v : dget (dset d k v) k = Some v.
Proof. rewrite dget_dset. by case_decide. Qed.

Lemma dget_dset_ne d k k' v : k' <> k -> dget (dset d k v) k' = dget d k'.
Proof. intros. rewrite dget_dset. by case_decide. Qed.

Lemma dget_dpop d k k' :
  dget (dpop d k) k' = if decide (k' = k) then None else dget d k'.
Proof.
  unfold dpop. induction d as [|[k1 v1] d IH]; simpl; [by case_decide|].
  case_bool_decide; simpl; rewrite IH; repeat case_decide; simplify_eq; done.
Qed.

Lemma dget_Some_in d k v : dget d k = Some v -> (k, v) ∈ d.
Proof.
  induction d as [|[k1 v1] d IH]; simpl; [done|].
  case_decide; [intros [= ->]; subst; left | right; auto].
Qed.

Lemma dget_None d k : dget d k = None <-> k ∉ dkeys d.
Proof.
  unfold dkeys. induction d as [|[k1 v1] d IH]; simpl.
  { split; [intros _; apply not_elem_of_nil|done]. }
  rewrite not_elem_of_cons. case_decide; naive_solver.
Qed.

Lemma dget_in_ok d k v : d_ok d -> (k, v) ∈ d -> dget d k = Some v.
Proof.
  unfold d_ok, dkeys. induction d as [|[k1 v1] d IH]; simpl; [set_solver|].
  rewrite NoDup_cons, list_elem_of_In. intros [Hnin Hnd] Hin.
  rewrite list_elem_of_In in Hin. simpl in Hin. destruct Hin as [[= -> ->]|Hin].
  - by case_decide.
  - case_decide as Hk; [|apply IH; [done|by rewrite list_elem_of_In]].
    subst. destruct Hnin. apply in_map_iff. by exists (k1, v).
Qed.

Lemma dhas_true d k : dhas d k = true <-> k ∈ dkeys d.
Proof.
  unfold dhas. destruct (dget d k) as [v|] eqn:E; split; try done.
  - intros _. apply dget_Some_in in E. unfold dkeys.
    apply list_elem_of_In, in_map_iff. exists (k, v). by rewrite <- list_elem_of_In.
  - by apply dget_None in E.
Qed.

Lemma dkeys_dset d k v :
  dkeys (dset d k v) = if decide (k ∈ dkeys d) then dkeys d else dkeys d ++ [k].
Proof.
  induction d as [|[k1 v1] d IH]; simpl; [done|].
  fold (dkeys d) in *. destruct (decide (k = k1)) as [->|Hne]; simpl.
  - rewrite decide_True; [done|left].
  - fold (dkeys (dset d k v)). rewrite IH.
    destruct (decide (k ∈ dkeys d)); [rewrite decide_True|rewrite decide_False];
      rewrite ?elem_of_cons; naive_solver.
Qed.

Lemma d_ok_dset d k v : d_ok d -> d_ok (dset d k v).
Proof.
  unfold d_ok. rewrite dkeys_dset. case_decide; [done|]. intros Hd.
  apply NoDup_app. split_and!; [done|set_solver|apply NoDup_singleton].
Qed.

Lemma dkeys_dpop d k : dkeys (dpop d k) = List.filter (fun k' => negb (bool_decide (k = k'))) (dkeys d).
Proof.
  unfold dpop, dkeys. induction d as [|[k1 v1] d IH]; simpl; [done|].
  case_bool_decide; simpl; by rewrite IH.
Qed.

Lemma d_ok_dpop d k : d_ok d -> d_ok (dpop d k).
Proof.
  unfold d_ok. rewrite dkeys_dpop. intros Hd. apply NoDup_ListNoDup.
  apply List.NoDup_filter. by apply NoDup_ListNoDup.
Qed.

Lemma d_ok_nil : d_ok ([] : list (K * V)).
Proof. apply NoDup_nil_2. Qed.

Lemma d_ok_dict_of (l : list (K * V)) : d_ok (dict_of l).
Proof.
  unfold dict_of. apply fold_left_inv; [|apply d_ok_nil].
  intros; by apply d_ok_dset.
Qed.

Lemma dict_of_app (d l : list (K * V)) : d_ok (d ++ l) -> fold_left (fun d kv => dset d kv.1 kv.2) l d = d ++ l.
Proof.
  revert d. induction l as [|[k v] l IH]; intros d Hd; simpl; [by rewrite app_nil_r|].
  assert (dset d k v = d ++ [(k, v)]) as ->.
  { unfold d_ok, dkeys in Hd. rewrite map_app in Hd. apply NoDup_app in Hd as (_ & Hk & _).
    assert (k ∉ map fst d) as Hn by (intros H; apply (Hk k H); left). clear -Hn.
    induction d as [|[k1 v1] d IH]; simpl in *; [done|]. apply not_elem_of_cons in Hn as [Hne Hn].
    rewrite decide_False by done. by rewrite IH. }
  rewrite IH; rewrite <- app_assoc; done.
Qed.

(** A dictionary display with distinct keys. *)
Lemma dict_of_id (l : list (K * V)) : d_ok l -> dict_of l = l.
Proof. apply (dict_of_app []). Qed.

Lemma dset_new d k v : dhas d k = false -> dset d k v = d ++ [(k, v)].
Proof.
  unfold dhas. induction d as [|[k1 v1] d IH]; simpl; [done|].
  case_decide; [done|]. intros Hk. by rewrite IH.
Qed.

Lemma Forall_dset (P : K * V -> Prop) d k v : Forall P d -> P (k, v) -> Forall P (dset d k v).
Proof.
  intros Hd Hk. induction Hd as [|[k1 v1] d H1 Hd IH]; simpl; [by constructor|].
  case_decide; subst; by constructor.
Qed.

Lemma Forall_dpop (P : K * V -> Prop) d k : Forall P d -> Forall P (dpop d k).
Proof.
  intros Hd. rewrite Forall_forall in Hd |- *. intros kv Hkv.
  apply list_elem_of_In, filter_In in Hkv as [Hkv _]. by apply Hd, list_elem_of_In.
Qed.

Lemma Forall_dict_of (P : K * V -> Prop) (l : list (K * V)) : Forall P l -> Forall P (dict_of l).
Proof.
  intros Hl. unfold dict_of. apply fold_left_inv; [|constructor].
  intros d [k v] Hin Hd. rewrite Forall_forall in Hl. by apply Forall_dset, Hl.
Qed.

Lemma dget_filter (p : K * V -> bool) d k :
  d_ok d -> dget (List.filter p d) k = match dget d k with Some v => if p (k, v) then Some v else None | None => None end.
Proof.
  unfold d_ok. induction d as [|[k1 v1] d IH]; simpl; [done|]. intros Hok.
  apply NoDup_cons in Hok as [Hn Hok]. fold (dkeys d) in Hn. case_decide as E.
  - subst k1. destruct (p (k, v1)) eqn:Ep; simpl; [by rewrite decide_True|].
    rewrite IH by done. apply dget_None in Hn. by rewrite Hn.
  - destruct (p (k1, v1)); simpl; [by rewrite decide_False, IH|by apply IH].
Qed.

Lemma d_ok_filter (p : K * V -> bool) d : d_ok d -> d_ok (List.filter p d).
Proof.
  unfold d_ok, dkeys. induction d as [|[k v] d IH]; simpl; [done|]. rewrite !NoDup_cons. intros [Hn Hok].
  destruct (p (k, v)); simpl; [|by apply IH]. apply NoDup_cons. split; [|by apply IH].
  intros Hin. apply Hn. apply list_elem_of_In, in_map_iff in Hin as (kv & <- & Hin). apply filter_In in Hin as [Hin _].
  apply list_elem_of_In, in_map_iff. by exists kv.
Qed.

Lemma elem_of_dkeys_dset d k v k' : k' ∈ dkeys (dset d k v) <-> k' = k \/ k' ∈ dkeys d.
Proof. rewrite dkeys_dset. case_decide; set_solver. Qed.

Lemma elem_of_dkeys_dict_of (l : list (K * V)) k : k ∈ dkeys (dict_of l) <-> k ∈ map fst l.
Proof.
  unfold dict_of. assert (forall d, k ∈ dkeys (fold_left (fun d kv => dset d kv.1 kv.2) l d) <-> k ∈ dkeys d \/ k ∈ map fst l) as H.
  { induction l as [|[k1 v1] l IH]; intros d; simpl; [set_solver|]. rewrite IH, elem_of_dkeys_dset. set_solver. }
  rewrite H. set_solver.
Qed.

Lemma dget_Some_lookup d k v : dget d k = Some v -> exists i, d !! i = Some (k, v).
Proof. intros H. by apply dget_Some_in, list_elem_of_lookup in H. Qed.

Lemma dget_is_Some d k : is_Some (dget d k) <-> k ∈ dkeys d.
Proof. rewrite <- dhas_true. unfold dhas. by destruct (dget d k). Qed.

End DictLemmas.

(** The insertion-ordered dictionaries refine finite maps. *)
Section DictMap.
Context {K V : Type} `{Countable K}.
Implicit Types d : list (K * V).

Definition dmap (d : list (K * V)) : gmap K V := list_to_map d.

Lemma dmap_lookup d k : dmap d !! k = dget d k.
Proof.
  unfold dmap. induction d as [|[k1 v1] d IH]; simpl; [apply lookup_empty|].
  rewrite lookup_insert. repeat case_decide; naive_solver.
Qed.

Lemma dmap_dset d k v : dmap (dset d k v) = <[k := v]> (dmap d).
Proof.
  apply map_eq; intros i. rewrite lookup_insert, !dmap_lookup, dget_dset.
  repeat case_decide; naive_solver.
Qed.

Lemma dmap_dpop d k : dmap (dpop d k) = delete k (dmap d).
Proof.
  apply map_eq; intros i. rewrite lookup_delete, !dmap_lookup, dget_dpop.
  repeat case_decide; naive_solver.
Qed.

End DictMap.

#[export] Hint Resolve Forall_filter d_ok_filter d_ok_dset d_ok_dpop d_ok_nil d_ok_dict_of : starfabric.
#[export] Hint Rewrite @dget_dset_eq @dmap_lookup @dmap_dset @dmap_dpop : starfabric.

(** ** Lemmas on sequences *)

Lemma len_nonneg {A} (l : list A) : 0 <= len l.
Proof. unfold len. lia. Qed.

Lemma len_app {A} (l1 l2 : list A) : len (l1 ++ l2) = len l1 + len l2.
Proof. unfold len. rewrite length_app. lia. Qed.

Lemma len_cons {A} (x : A) (l : list A) : len (x :: l) = 1 + len l.
Proof. unfold len. simpl. lia. Qed.

Lemma len_nil {A} : len ([] : list A) = 0.
Proof. done. Qed.

Lemma len_map {A B} (f : A -> B) l : len (map f l) = len l.
Proof. unfold len. by rewrite length_map. Qed.

Lemma len_zero {A} (l : list A) : len l = 0 -> l = [].
Proof. unfold len. destruct l; simpl; [done|lia]. Qed.

Lemma slice_app {A} (l1 l2 : list A) (n : Z) :
  n = len l1 -> slice (l1 ++ l2) 0 n = l1.
Proof.
  intros ->. unfold slice, len. rewrite Z.sub_0_r, Nat2Z.id. simpl.
  rewrite drop_0. apply take_app_length.
Qed.

Lemma from_app {A} (l1 l2 : list A) (n : Z) : n = len l1 -> from (l1 ++ l2) n = l2.
Proof. intros ->. unfold from, len. rewrite Nat2Z.id. apply drop_app_length. Qed.

Lemma from_zero {A} (l : list A) : from l 0 = l.
Proof. apply drop_0. Qed.

Lemma from_at {A} (pre post : list A) (n : Z) : len pre = n -> from (pre ++ post) n = post.
Proof. intros <-. by apply from_app. Qed.

Lemma slice_at {A} (pre mid post : list A) (a b : Z) :
  len pre = a -> a + len mid = b -> slice (pre ++ mid ++ post) a b = mid.
Proof.
  intros Ha Hb. unfold slice. fold (from (pre ++ mid ++ post) a). rewrite (from_at _ _ _ Ha).
  replace (b - a) with (len mid) by lia. unfold len. by rewrite Nat2Z.id, take_app_length.
Qed.

Lemma slice_all {A} (pre mid : list A) (a b : Z) :
  len pre = a -> a + len mid = b -> slice (pre ++ mid) a b = mid.
Proof. intros Ha Hb. rewrite <- (app_nil_r mid) at 1. by apply slice_at. Qed.

Lemma len_from {A} (l : list A) n : 0 <= n <= len l -> len (from l n) = len l - n.
Proof. unfold from, len. rewrite length_drop. lia. Qed.

Lemma len_from_le {A} (l : list A) n : len (from l n) <= len l.
Proof. unfold from, len. rewrite length_drop. lia. Qed.

Lemma len_slice {A} (l : list A) a b :
  0 <= a -> a <= b <= len l -> len (slice l a b) = b - a.
Proof. unfold slice, len. rewrite length_take, length_drop. lia. Qed.

Lemma slice_split {A} (l : list A) n : slice l 0 n ++ from l n = l.
Proof. unfold slice, from. rewrite Z.sub_0_r, drop_0. apply take_drop. Qed.

#[export] Hint Rewrite @len_app @len_cons @len_nil @len_map : starfabric.

(** ** Lemmas on sorting *)

Section SortLemmas.
Context {A : Type} (leb : A -> A -> bool).

Lemma insert_sorted_perm x l : insert_sorted leb x l ≡ₚ x :: l.
Proof.
  induction l as [|y l IH]; simpl; [done|]. destruct (leb x y); [done|].
  rewrite IH. constructor.
Qed.

Lemma sort_by_perm l : sort_by leb l ≡ₚ l.
Proof. induction l as [|x l IH]; simpl; [done|]. by rewrite insert_sorted_perm, IH. Qed.

Context (leb_total : forall a b, leb a b = true \/ leb b a = true).
Context (leb_trans : forall a b c, leb a b = true -> leb b c = true -> leb a c = true).

Lemma insert_sorted_sorted x l :
  StronglySorted (fun a b => leb a b = true) l ->
  StronglySorted (fun a b => leb a b = true) (insert_sorted leb x l).
Proof.
  induction l as [|y l IH]; simpl; [repeat constructor|].
  intros H. inversion H as [|? ? Hs Hf]; subst. destruct (leb x y) eqn:E.
  - constructor; [done|]. constructor; [done|].
    eapply Forall_impl; [exact Hf|]. intros z Hz. by eapply leb_trans.
  - constructor; [auto|]. rewrite insert_sorted_perm. constructor; [|done].
    destruct (leb_total x y); congruence.
Qed.

Lemma sort_by_sorted l : StronglySorted (fun a b => leb a b = true) (sort_by leb l).
Proof. induction l; simpl; [constructor|]. by apply insert_sorted_sorted. Qed.

(** Sorting commutes with dropping elements. *)
Lemma insert_sorted_filter p x l :
  StronglySorted (fun a b => leb a b = true) l ->
  List.filter p (insert_sorted leb x l) =
    if p x then insert_sorted leb x (List.filter p l) else List.filter p l.
Proof.
  induction l as [|y l IH]; intros Hs; simpl; [by destruct (p x)|].
  inversion Hs as [|? ? Hs' Hf]; subst. destruct (leb x y) eqn:E; simpl.
  - destruct (p x); [|done]. destruct (p y); simpl; [by rewrite E|].
    symmetry. assert (Forall (fun z => leb x z = true) (List.filter p l)) as Hall.
    { apply Forall_forall. intros z Hz. apply list_elem_of_In, filter_In in Hz as [Hz _].
      rewrite Forall_forall in Hf. eapply leb_trans; [exact E|]. by apply Hf, list_elem_of_In. }
    destruct Hall as [|z l' Hz _]; [done|]. simpl. by rewrite Hz.
  - rewrite IH by done. destruct (p y), (p x); simpl; try done. by rewrite E.
Qed.

Lemma sort_by_filter p l : List.filter p (sort_by leb l) = sort_by leb (List.filter p l).
Proof.
  induction l as [|x l IH]; simpl; [done|].
  rewrite insert_sorted_filter by apply sort_by_sorted. destruct (p x); simpl; by rewrite IH.
Qed.

End SortLemmas.

Lemma string_leb_trans a b c :
  String.leb a b = true -> String.leb b c = true -> String.leb a c = true.
Proof.
  revert b c; induction a as [|x a IH]; intros [|y b] [|z c]; unfold String.leb in *; simpl; try done.
  unfold Ascii.compare.
  destruct (N.compare_spec (Ascii.N_of_ascii x) (Ascii.N_of_ascii y));
    destruct (N.compare_spec (Ascii.N_of_ascii y) (Ascii.N_of_ascii z)); try done;
    destruct (N.compare_spec (Ascii.N_of_ascii x) (Ascii.N_of_ascii z)); try done; try lia.
  apply IH.
Qed.

Lemma sorted_strings_perm l : sorted_strings l ≡ₚ l.
Proof. apply sort_by_perm. Qed.

Lemma sorted_strings_sorted l :
  StronglySorted (fun a b => String.leb a b = true) (sorted_strings l).
Proof. apply sort_by_sorted; [apply String.leb_total|apply string_leb_trans]. Qed.
