(* ===== verification/Effects.v ===== *)
(** * Effects: computations with a state and Python exceptions

    The state and error monad [M] of the components that thread a state through many calls ([Bridge], [Dashboard], [Host], [Runtime]), with the lemmas
    about sequences of computations that they share. *)

From S2P Require Import Prelude.

Definition M (S A : Type) : Type := S -> S * res A.

#[global] Instance M_ret S : MRet (M S) := fun A a st => (st, Ok a).
#[global] Instance M_bind S : MBind (M S) := fun A B k m st => match m st with (st, Ok a) => k a st | (st, Err x) => (st, Err x) end.

Section Computations.
Context {S : Type}.

Definition lift {A} (r : res A) : M S A := fun st => (st, r).
Definition get : M S S := fun st => (st, Ok st).
Definition modify (f : S -> S) : M S unit := fun st => (f st, Ok tt).

End Computations.

(** *** What a computation leaves alone *)

(** [f] reads nothing the computation changes. *)
Definition keeps {S A B} (f : S -> B) (m : M S A) : Prop := forall st, f (m st).1 = f st.

Lemma keeps_ret {S A B} (f : S -> B) (a : A) : keeps f (mret a).
Proof. done. Qed.

Lemma keeps_lift {S A B} (f : S -> B) (r : res A) : keeps f (lift r).
Proof. done. Qed.

Lemma keeps_get {S B} (f : S -> B) : keeps f get.
Proof. done. Qed.

Lemma keeps_modify {S B} (f : S -> B) (g : S -> S) : (forall st, f (g st) = f st) -> keeps f (modify g).
Proof. intros H st. apply H. Qed.

Lemma keeps_bind {S A B X} (f : S -> X) (m : M S A) (k : A -> M S B) : keeps f m -> (forall a, keeps f (k a)) -> keeps f (m ≫= k).
Proof. intros Hm Hk st. unfold mbind, M_bind. specialize (Hm st). destruct (m st) as [st1 [a|x]]; [|done]. simpl in *. by rewrite Hk. Qed.

Lemma bind_run {S A B} (m : M S A) (k : A -> M S B) st st' r : (m ≫= k) st = (st', r) ->
  (exists a st1, m st = (st1, Ok a) /\ k a st1 = (st', r)) \/ (exists x, m st = (st', Err x) /\ r = Err x).
Proof. unfold mbind, M_bind. destruct (m st) as [st1 [a|x]]; intros H; [left; by exists a, st1|right]. injection H as <- <-. by exists x. Qed.

Lemma bind_run_Ok {S A B} (m : M S A) (k : A -> M S B) st st' b : (m ≫= k) st = (st', Ok b) <-> exists a st1, m st = (st1, Ok a) /\ k a st1 = (st', Ok b).
Proof. unfold mbind, M_bind. destruct (m st) as [st1 [a|x]]; split; try done; naive_solver. Qed.

Create HintDb keeps.
#[export] Hint Resolve keeps_ret keeps_lift keeps_get : keeps.
#[export] Hint Extern 1 (keeps _ (modify _)) => apply keeps_modify; solve [auto] : keeps.
#[export] Hint Extern 2 (keeps _ (_ ≫= _)) => apply keeps_bind; [|intros ?] : keeps.

(** [for x in l: f(x)] *)
Fixpoint forM {S A} (f : A -> M S unit) (l : list A) : M S unit :=
  match l with [] => mret tt | x :: l => f x;; forM f l end.

Lemma keeps_forM {S A B} (g : S -> B) (f : A -> M S unit) l : (forall x, x ∈ l -> keeps g (f x)) -> keeps g (forM f l).
Proof. induction l as [|x l IH]; intros H; cbn [forM]; [apply keeps_ret|]. apply keeps_bind; [apply H; by left|intros _; apply IH; intros; apply H; by right]. Qed.

(** What every step keeps holds however the loop ends. *)
Lemma forM_inv {S A} (P : S -> Prop) (f : A -> M S unit) l st : (forall x st, x ∈ l -> P st -> P (f x st).1) -> P st -> P (forM f l st).1.
Proof.
  revert st. induction l as [|x l IH]; intros st H Hst; cbn [forM]; [done|]. unfold mbind, M_bind. specialize (H x st ltac:(left) Hst) as Hx. destruct (f x st) as [st1 [u|e]]; cbn [fst] in *; [|done].
  apply IH; [|done]. intros y s Hy. apply H. by right.
Qed.

(** A loop whose steps work on keys of their own: [look] reads what a step may change, and a step leaves it alone or makes it [good], the latter where it succeeds and [Q] holds. *)
Definition keyed {S A K V} (I : S -> Prop) (Q : Prop) (key : A -> K) (look : S -> K -> V) (good : A -> V -> V) (f : A -> M S unit) (x : A) : Prop :=
  forall st, I st -> let '(st', r) := f x st in I st' /\ (forall k, k <> key x -> look st' k = look st k) /\
    (look st' (key x) = look st (key x) \/ look st' (key x) = good x (look st (key x))) /\ (Q -> r = Ok tt -> look st' (key x) = good x (look st (key x))).

Lemma forM_keyed {S A K V} (I : S -> Prop) (Q : Prop) (key : A -> K) (look : S -> K -> V) (good : A -> V -> V) (f : A -> M S unit) l st :
  (forall x, x ∈ l -> keyed I Q key look good f x) -> NoDup (map key l) -> I st ->
  let '(st', r) := forM f l st in I st' /\ (forall k, k ∉ map key l -> look st' k = look st k) /\
    forall x, x ∈ l -> (look st' (key x) = look st (key x) \/ look st' (key x) = good x (look st (key x))) /\ (Q -> r = Ok tt -> look st' (key x) = good x (look st (key x))).
Proof.
  revert st. induction l as [|x0 l IH]; intros st Hf Hnd Hst; cbn [forM]; [cbn; split_and!; try done; intros x ?%not_elem_of_nil; done|].
  apply NoDup_cons in Hnd as [Hn Hnd]. unfold mbind, M_bind. pose proof (Hf x0 ltac:(left) st Hst) as H. destruct (f x0 st) as [st1 [[]|e]]; destruct H as (H1 & H2 & H3 & H4).
  - specialize (IH st1 (fun x Hx => Hf x (list_elem_of_further _ _ _ Hx)) Hnd H1). destruct (forM f l st1) as [st2 r]. destruct IH as (I1 & I2 & I3). split_and!; [done| |].
    + intros k [Hk Hk']%not_elem_of_cons. by rewrite I2, H2.
    + intros x [->|Hx]%elem_of_cons; [rewrite I2 by done; split; [done|intros HQ _; by apply H4]|].
      rewrite <- (H2 (key x)); [by apply I3|]. intros E. apply Hn. rewrite <- E. by apply list_elem_of_fmap_2.
  - split_and!; [done| |].
    + intros k [Hk _]%not_elem_of_cons. by apply H2.
    + intros x [->|Hx]%elem_of_cons; [done|]. split; [|done]. left. apply H2. intros E. apply Hn. rewrite <- E. by apply list_elem_of_fmap_2.
Qed.
