(* ===== verification/Bytes.v ===== *)
(** * Bytes: Python's [bytes] and the parts of [struct] the codecs use

    A [bytes] value is a [list byte]; [u8] is the integer a byte stands for.
    [be_enc]/[be_dec] are the network-order codecs behind the [struct] formats
    [!B], [!H], [!I], [!Q] and [int.from_bytes(_, 'big')], [le_dec] the
    little-endian reader of PCAP headers.  Packing a value that does not fit
    raises [struct.error]; building [bytes([v])] from it raises [ValueError]. *)

From S2P Require Import Prelude.
From Stdlib Require Export Strings.Byte.

#[global] Instance byte_eq_decision : EqDecision byte := Byte.byte_eq_dec.

Definition u8 (b : byte) : Z := Z.of_N (Byte.to_N b).

Definition byte_of (z : Z) : byte :=
  match Byte.of_N (Z.to_N (z mod 256)) with Some b => b | None => x00 end.

(** A bytes literal, written as the integers of its bytes. *)
Definition lit (l : list Z) : list byte := map byte_of l.

(** [bytes(n)]: [n] zero bytes. *)
Definition zeros (n : nat) : list byte := repeat x00 n.

Fixpoint be_enc (n : nat) (v : Z) : list byte :=
  match n with
  | O => []
  | S n' => byte_of (v / 256 ^ Z.of_nat n') :: be_enc n' v
  end.

(** [int.from_bytes(l, 'big')] *)
Definition be_dec (l : list byte) : Z := fold_left (fun a b => a * 256 + u8 b) l 0.

(** [int.from_bytes(l, 'little')] *)
Definition le_dec (l : list byte) : Z := be_dec (rev l).

(** [struct.pack] of one unsigned field of [n] bytes. *)
Definition pack (n : nat) (v : Z) : res (list byte) :=
  if (0 <=? v) && (v <? 256 ^ Z.of_nat n) then Ok (be_enc n v) else Err StructError.

(** [bytes([v])] *)
Definition bytes1 (v : Z) : res (list byte) :=
  if (0 <=? v) && (v <? 256) then Ok [byte_of v]
  else Err (ValueError "bytes must be in range(0, 256)").

(** [l1 == l2] on bytes. *)
Definition beq (l1 l2 : list byte) : bool := bool_decide (l1 = l2).

(** [l[i]], for an index that is not negative. *)
Definition byte_at (l : list byte) (i : Z) : res Z :=
  or_raise IndexError (u8 <$> l !! Z.to_nat i).

(** [if c: raise e], for a condition whose evaluation may itself raise. *)
Definition raise_if (e : exn) (c : res bool) : res unit :=
  match c with
  | Ok true => Err e
  | Ok false => Ok tt
  | Err e' => Err e'
  end.

(** The buffer of [struct.unpack] with a format of [n] bytes; its fields are slices of it. *)
Definition unpack (n : Z) (l : list byte) : res (list byte) :=
  raise StructError when negb (len l =? n) ;; Ok l.

(** [a, b = l], on bytes. *)
Definition unpack_pair (l : list byte) : res (Z * Z) :=
  match l with
  | [a; b] => Ok (u8 a, u8 b)
  | _ => Err (ValueError "wrong number of values to unpack")
  end.

(** ** Lemmas *)

Lemma u8_bound b : 0 <= u8 b < 256.
Proof. unfold u8. pose proof (Byte.to_N_bounded b). lia. Qed.

Lemma byte_of_u8 b : byte_of (u8 b) = b.
Proof.
  unfold byte_of. rewrite Z.mod_small by apply u8_bound.
  unfold u8. by rewrite N2Z.id, Byte.of_to_N.
Qed.

Lemma u8_byte_of z : u8 (byte_of z) = z mod 256.
Proof.
  unfold byte_of, u8. pose proof (Z.mod_pos_bound z 256 ltac:(lia)) as Hb.
  destruct (Byte.of_N (Z.to_N (z mod 256))) as [b|] eqn:E.
  - apply Byte.to_of_N in E. rewrite E. lia.
  - apply Byte.of_N_None_iff in E. lia.
Qed.

Lemma u8_byte_of_small z : 0 <= z < 256 -> u8 (byte_of z) = z.
Proof. intros. by rewrite u8_byte_of, Z.mod_small. Qed.

Lemma u8_inj b1 b2 : u8 b1 = u8 b2 -> b1 = b2.
Proof. intros H. by rewrite <- (byte_of_u8 b1), <- (byte_of_u8 b2), H. Qed.

Lemma length_be_enc n v : length (be_enc n v) = n.
Proof. induction n; simpl; auto. Qed.

Lemma len_be_enc n v : len (be_enc n v) = Z.of_nat n.
Proof. unfold len. by rewrite length_be_enc. Qed.

Lemma be_dec_acc l a :
  fold_left (fun a b => a * 256 + u8 b) l a = a * 256 ^ len l + be_dec l.
Proof.
  unfold be_dec. revert a. induction l as [|b l IH]; intros a; cbn [fold_left].
  - rewrite len_nil. lia.
  - rewrite IH, (IH (0 * 256 + u8 b)). autorewrite with starfabric.
    rewrite Z.pow_add_r by (try apply len_nonneg; lia). lia.
Qed.

Lemma be_dec_cons b l : be_dec (b :: l) = u8 b * 256 ^ len l + be_dec l.
Proof. unfold be_dec at 1. cbn [fold_left]. rewrite be_dec_acc. lia. Qed.

Lemma be_dec_app l1 l2 : be_dec (l1 ++ l2) = be_dec l1 * 256 ^ len l2 + be_dec l2.
Proof. unfold be_dec at 1. rewrite fold_left_app. rewrite be_dec_acc. done. Qed.

Lemma be_dec_bound l : 0 <= be_dec l < 256 ^ len l.
Proof.
  induction l as [|b l IH]; [done|].
  rewrite be_dec_cons, len_cons, Z.pow_add_r by (try apply len_nonneg; lia).
  pose proof (u8_bound b). change (256 ^ 1) with 256.
  set (m := 256 ^ len l) in *. nia.
Qed.

Lemma be_dec_enc_mod n v : be_dec (be_enc n v) = v mod 256 ^ Z.of_nat n.
Proof.
  induction n as [|n IH]; simpl be_enc.
  - by rewrite Z.mod_1_r.
  - rewrite be_dec_cons, u8_byte_of, IH, len_be_enc, Nat2Z.inj_succ, Z.pow_succ_r by lia.
    set (m := 256 ^ Z.of_nat n). assert (0 < m) by (apply Z.pow_pos_nonneg; lia).
    rewrite (Z.mul_comm 256 m), Z.rem_mul_r by lia. lia.
Qed.

Lemma be_dec_enc n v : 0 <= v < 256 ^ Z.of_nat n -> be_dec (be_enc n v) = v.
Proof. intros. by rewrite be_dec_enc_mod, Z.mod_small. Qed.

Lemma be_enc_mod n v : be_enc n (v mod 256 ^ Z.of_nat n) = be_enc n v.
Proof.
  enough (forall m, (n <= m)%nat -> be_enc n (v mod 256 ^ Z.of_nat m) = be_enc n v) by auto.
  induction n as [|n IH]; intros m Hm; simpl; [done|]. f_equal; [|apply IH; lia].
  apply u8_inj. rewrite !u8_byte_of.
  replace (256 ^ Z.of_nat m) with (256 ^ Z.of_nat n * (256 * 256 ^ (Z.of_nat m - Z.of_nat n - 1))).
  - rewrite Z.rem_mul_r by (try apply Z.pow_nonzero; try apply Z.mul_pos_pos; try apply Z.pow_pos_nonneg; lia).
    rewrite Z.mul_comm, Z.div_add by (apply Z.pow_nonzero; lia).
    rewrite Z.div_small, Z.add_0_l by (apply Z.mod_pos_bound, Z.pow_pos_nonneg; lia).
    rewrite Z.rem_mul_r by (try apply Z.pow_pos_nonneg; lia).
    rewrite Z.mul_comm, Z.mod_add, Zmod_mod by lia. done.
  - rewrite <- Z.pow_succ_r, <- Z.pow_add_r by lia. f_equal. lia.
Qed.

Lemma be_enc_dec l : be_enc (length l) (be_dec l) = l.
Proof.
  induction l as [|b l IH]; simpl; [done|].
  rewrite be_dec_cons. pose proof (be_dec_bound l) as Hb. unfold len in *.
  set (m := 256 ^ Z.of_nat (length l)) in *.
  assert (0 < m) by (apply Z.pow_pos_nonneg; lia). f_equal.
  - rewrite Z.add_comm, Z.div_add, Z.div_small, Z.add_0_l by lia. apply byte_of_u8.
  - rewrite <- (be_enc_mod _ (_ + _)). fold m.
    by rewrite Z.add_comm, Z.mod_add, Z.mod_small by lia.
Qed.

Lemma be_enc_dec' n l : length l = n -> be_enc n (be_dec l) = l.
Proof. intros <-. apply be_enc_dec. Qed.

Lemma pack_Ok n v bs :
  pack n v = Ok bs <-> 0 <= v < 256 ^ Z.of_nat n /\ bs = be_enc n v.
Proof.
  unfold pack. destruct (_ && _) eqn:E; bool_to_prop.
  - split; [intros [= <-]; done|]. by intros [_ ->].
  - split; [done|]. intros [H _]. apply andb_false_iff in E as [E|E]; bool_to_prop; lia.
Qed.

Lemma pack_small n v : 0 <= v < 256 ^ Z.of_nat n -> pack n v = Ok (be_enc n v).
Proof. intros. by apply pack_Ok. Qed.

Lemma bytes1_small v : 0 <= v < 256 -> bytes1 v = Ok [byte_of v].
Proof.
  intros. unfold bytes1. destruct (_ && _) eqn:E; [done|].
  apply andb_false_iff in E as [E|E]; bool_to_prop; lia.
Qed.

Lemma beq_refl l : beq l l = true.
Proof. by apply bool_decide_eq_true. Qed.

Lemma beq_true l1 l2 : beq l1 l2 = true <-> l1 = l2.
Proof. apply bool_decide_eq_true. Qed.

(** Testing a flag with [v & (1 << n)]. *)
Lemma land_bit v n : 0 <= n -> negb (Z.land v (2 ^ n) =? 0) = Z.testbit v n.
Proof.
  intros Hn. destruct (Z.land v (2 ^ n) =? 0) eqn:E; bool_to_prop; simpl.
  - apply (f_equal (fun z => Z.testbit z n)) in E. rewrite Z.land_spec, Z.pow2_bits_true, Z.bits_0, andb_true_r in E by done. done.
  - destruct (Z.testbit v n) eqn:Et; [done|]. destruct E. apply Z.bits_inj'. intros m Hm.
    rewrite Z.land_spec, Z.pow2_bits_eqb, Z.bits_0 by done. destruct (Z.eqb_spec n m) as [->|]; [by rewrite Et|apply andb_false_r].
Qed.

#[export] Hint Rewrite length_be_enc len_be_enc beq_refl byte_of_u8 : starfabric.
#[export] Hint Resolve u8_bound be_dec_bound : starfabric.
