(* ===== verification/Text.v ===== *)
(** * Text: the string formatting and the [ipaddress] operations in use

    [str(int)] is stdpp's [pretty]; ['%x' % n] is [hex_str]; [split]/[join] are
    Python's.  [ipv4_parse]/[ipv4_str] and [ipv6_parse]/[ipv6_str] follow CPython's
    [ipaddress] module ([_ip_int_from_string], [_string_from_ip_int] and
    [_compress_hextets]); an address is the integer the library keeps, its
    [packed] form [be_enc 4] or [be_enc 16] of it.  Networks are an address and a
    prefix length written in decimal. *)

From S2P Require Import Prelude Bytes.

Abbreviation ascii := Ascii.ascii.

(** ** Characters and numbers *)

Definition ch (n : Z) : ascii := Ascii.ascii_of_N (Z.to_N n).
Definition code (c : ascii) : Z := Z.of_N (Ascii.N_of_ascii c).

Definition hexdigit (d : Z) : ascii := if d <? 10 then ch (48 + d) else ch (87 + d).

Fixpoint hex_aux (fuel : nat) (v : Z) (acc : string) : string :=
  match fuel with
  | O => acc
  | S f =>
      let acc' := String (hexdigit (v mod 16)) acc in
      if v / 16 =? 0 then acc' else hex_aux f (v / 16) acc'
  end.

(** ['%x' % v] for [v >= 0]: a digit per four bits, so [log2 v + 1] digits suffice. *)
Definition hex_str (v : Z) : string := hex_aux (S (Z.to_nat (Z.log2 v))) v "".

(** [f'{v:0{n}x}'] for [0 <= v < 16 ^ n]. *)
Fixpoint hex_pad (n : nat) (v : Z) : string :=
  match n with
  | O => ""
  | S n' => String (hexdigit ((v / 16 ^ Z.of_nat n') mod 16)) (hex_pad n' v)
  end.

Definition hexval (c : ascii) : option Z :=
  let n := code c in
  if (48 <=? n) && (n <=? 57) then Some (n - 48)
  else if (97 <=? n) && (n <=? 102) then Some (n - 87)
  else if (65 <=? n) && (n <=? 70) then Some (n - 55)
  else None.

Fixpoint hex_fold (s : string) (a : Z) : option Z :=
  match s with
  | "" => Some a
  | String c s' => match hexval c with Some d => hex_fold s' (a * 16 + d) | None => None end
  end.

Definition is_digit (c : ascii) : bool := (48 <=? code c) && (code c <=? 57).

Fixpoint all_chars (p : ascii -> bool) (s : string) : bool :=
  match s with "" => true | String c s' => p c && all_chars p s' end.

Fixpoint dec_fold (s : string) (a : Z) : Z :=
  match s with "" => a | String c s' => dec_fold s' (a * 10 + (code c - 48)) end.

(** [s.isdigit()] (ASCII digits only) *)
Definition isdigit (s : string) : bool := negb (String.eqb s "") && all_chars is_digit s.

(** ** [split] and [join] *)

Fixpoint split_on (c : ascii) (s : string) : list string :=
  match s with
  | "" => [""]
  | String a s' =>
      if Ascii.eqb a c then "" :: split_on c s'
      else match split_on c s' with
           | p :: ps => String a p :: ps
           | [] => [String a ""]
           end
  end.

Fixpoint join (sep : string) (l : list string) : string :=
  match l with
  | [] => ""
  | [x] => x
  | x :: l' => x +:+ (sep +:+ join sep l')
  end.

(** [s.startswith(p)] *)
Fixpoint startswith (s p : string) : bool :=
  match p, s with
  | "", _ => true
  | String a p', String b s' => Ascii.eqb a b && startswith s' p'
  | _, _ => false
  end.

Definition has_char (c : ascii) (s : string) : bool := negb (all_chars (fun a => negb (Ascii.eqb a c)) s).

Fixpoint drop_str (n : nat) (s : string) : string :=
  match n, s with
  | O, _ => s
  | S n', String _ s' => drop_str n' s'
  | S _, "" => ""
  end.

(** [s[-n:]] *)
Definition str_tail (n : nat) (s : string) : string := drop_str (String.length s - n) s.

(** [s.endswith(p)] *)
Definition endswith (s p : string) : bool := String.eqb (str_tail (String.length p) s) p.

Definition dot : ascii := ch 46.
Definition colon : ascii := ch 58.
Definition slash : ascii := ch 47.

(** ** IPv4 *)

Definition address_error : exn := ValueError "AddressValueError".

(** [IPv4Address(l)] and [IPv6Address(l)] of packed bytes, [n] of them. *)
Definition packed_address (n : Z) (l : list byte) : res Z :=
  raise address_error when negb (len l =? n) ;; Ok (be_dec l).

(** [_parse_octet] *)
Definition parse_octet (s : string) : res Z :=
  raise address_error when negb (isdigit s) ;;
  raise address_error when (3 <? Z.of_nat (String.length s)) ;;
  raise address_error when negb (String.eqb s "0") && startswith s "0" ;;
  raise address_error when (255 <? dec_fold s 0) ;;
  Ok (dec_fold s 0).

(** [IPv4Address(s)] *)
Definition ipv4_parse (s : string) : res Z :=
  let octets := split_on dot s in
  raise address_error when negb (len octets =? 4) ;;
  let* vs := mapM_res parse_octet octets in
  Ok (fold_left (fun a v => a * 256 + v) vs 0).

(** [str(IPv4Address(v))] *)
Definition ipv4_str (v : Z) : string :=
  join "." (map (fun b => pretty (u8 b)) (be_enc 4 v)).

(** ** IPv6 *)

(** [_parse_hextet] *)
Definition parse_hextet (s : string) : res Z :=
  raise address_error when String.eqb s "" || (4 <? Z.of_nat (String.length s)) ;;
  or_raise address_error (hex_fold s 0).

(** The eight 16-bit groups of an address. *)
Definition hextets (v : Z) : list Z :=
  map (fun i => (v / 65536 ^ i) mod 65536) [7; 6; 5; 4; 3; 2; 1; 0].

Definition of_hextets (l : list Z) : Z := fold_left (fun a h => a * 65536 + h) l 0.

(** The scan of [_compress_hextets]: [(best_start, best_len)] of the longest run of
    zero groups, the first one on a tie; [cur] is the run in progress. *)
Fixpoint best_run (zs : list bool) (i : nat) (best cur : nat * nat) : nat * nat :=
  match zs with
  | [] => best
  | z :: zs' =>
      if z then
        let cur' := (if (cur.2 =? 0)%nat then i else cur.1, S cur.2) in
        best_run zs' (S i) (if (best.2 <? cur'.2)%nat then cur' else best) cur'
      else best_run zs' (S i) best (0%nat, 0%nat)
  end.

(** [_compress_hextets]: a run of two or more zero groups becomes [""], with one
    more [""] at an end of the address it touches. *)
Definition compress {A} (zero : A -> bool) (empty : A) (l : list A) : list A :=
  let '(start, n) := best_run (map zero l) 0 (0%nat, 0%nat) (0%nat, 0%nat) in
  if (1 <? n)%nat then
    let tail := if (start + n =? length l)%nat then [empty] else [] in
    let head := if (start =? 0)%nat then [empty] else [] in
    head ++ take start l ++ [empty] ++ drop (start + n) l ++ tail
  else l.

(** [str(IPv6Address(v))] *)
Definition ipv6_str (v : Z) : string :=
  join ":" (compress (fun s => String.eqb s "0") "" (map hex_str (hextets v))).

(** Where the [::] is: the part counts before and after it, and the number of zero
    groups it stands for; [empties] tells which parts are empty. *)
Definition skip_layout (empties : list bool) : res (nat * nat * nat) :=
  let n := length empties in
  let inner := List.filter (fun i => default false (empties !! i)) (seq 1 (n - 2)) in
  match inner with
  | _ :: _ :: _ => Err address_error
  | [i] =>
      let hi := i in
      let lo := (n - i - 1)%nat in
      let* hi := if default false (empties !! 0%nat)
                 then (raise address_error when negb (hi - 1 =? 0)%nat ;; Ok (hi - 1)%nat) else Ok hi in
      let* lo := if default false (empties !! (n - 1)%nat)
                 then (raise address_error when negb (lo - 1 =? 0)%nat ;; Ok (lo - 1)%nat) else Ok lo in
      raise address_error when (8 <? hi + lo + 1)%nat ;;
      Ok (hi, (8 - (hi + lo))%nat, lo)
  | [] =>
      raise address_error when negb (n =? 8)%nat ;;
      raise address_error when default false (empties !! 0%nat) ;;
      raise address_error when default false (empties !! (n - 1)%nat) ;;
      Ok (n, 0%nat, 0%nat)
  end.

(** [IPv6Address(s)] *)
Definition ipv6_parse (s : string) : res Z :=
  raise address_error when String.eqb s "" ;;
  let parts := split_on colon s in
  raise address_error when (length parts <? 3)%nat ;;
  let* parts := match last parts with
    | Some p =>
        if has_char dot p then
          let* v4 := ipv4_parse p in
          Ok (removelast parts ++ [hex_str (v4 / 65536); hex_str (v4 mod 65536)])
        else Ok parts
    | None => Ok parts
    end in
  raise address_error when (9 <? length parts)%nat ;;
  let* (hi, skipped, lo) := skip_layout (map (fun p => String.eqb p "") parts) in
  let* his := mapM_res parse_hextet (take hi parts) in
  let* los := mapM_res parse_hextet (drop (length parts - lo) parts) in
  Ok (of_hextets (his ++ repeat 0 skipped ++ los)).

(** [IPv6Address.is_multicast], [is_unspecified] *)
Definition is_multicast (v : Z) : bool := v / 2 ^ 120 =? 255.
Definition is_unspecified (v : Z) : bool := v =? 0.

(** ** Networks *)

(** The address and the prefix length of [a/n]; the length defaults to [max]. *)
Definition split_network (max : Z) (s : string) : res (string * Z) :=
  match split_on slash s with
  | [a] => Ok (a, max)
  | [a; n] =>
      raise (ValueError "NetmaskValueError") when negb (isdigit n) || (max <? dec_fold n 0) ;;
      Ok (a, dec_fold n 0)
  | _ => Err address_error
  end.

Definition network_of (bits : Z) (parse : string -> res Z) (strict : bool) (s : string) : res (Z * Z) :=
  let* (a, n) := split_network bits s in
  let* v := parse a in
  let host := v mod 2 ^ (bits - n) in
  raise (ValueError "has host bits set") when strict && negb (host =? 0) ;;
  Ok (v - host, n).

(** [IPv4Network(s)] and [IPv6Network(s, strict)]: network address and prefix length. *)
Definition ipv4_network : string -> res (Z * Z) := network_of 32 ipv4_parse true.
Definition ipv6_network (strict : bool) : string -> res (Z * Z) := network_of 128 ipv6_parse strict.

(** [address in network] *)
Definition in_network (bits : Z) (v : Z) (net : Z * Z) : bool :=
  v - v mod 2 ^ (bits - net.2) =? net.1.

(** [':'.join(f'{x:02x}' for x in l)] *)
Definition mac_str (l : list byte) : string := join ":" (map (fun b => hex_pad 2 (u8 b)) l).

(** [bytes.fromhex(s)] on pairs of hexadecimal digits *)
Fixpoint fromhex (s : string) : res (list byte) :=
  match s with
  | "" => Ok []
  | String a (String b s') =>
      match hexval a, hexval b with
      | Some x, Some y => let* l := fromhex s' in Ok (byte_of (x * 16 + y) :: l)
      | _, _ => Err (ValueError "non-hexadecimal number found in fromhex() arg")
      end
  | _ => Err (ValueError "non-hexadecimal number found in fromhex() arg")
  end.

(** [s.replace(c, '')] for a one-character [c] *)
Definition remove_char (c : ascii) (s : string) : string := join "" (split_on c s).

(** ** Lemmas on [split] and [join] *)

Definition lacks (c : ascii) (s : string) : bool := all_chars (fun a => negb (Ascii.eqb a c)) s.

Lemma all_chars_app p s t : all_chars p (s +:+ t) = all_chars p s && all_chars p t.
Proof. induction s; simpl; [done|]. by rewrite IHs, andb_assoc. Qed.

Lemma split_on_lacks c s : lacks c s = true -> split_on c s = [s].
Proof.
  unfold lacks. induction s as [|a s IH]; simpl; [done|]. intros H; bool_to_prop.
  rewrite H, IH by done. done.
Qed.

Lemma split_on_app c s t :
  lacks c s = true -> split_on c (s +:+ String c t) = s :: split_on c t.
Proof.
  unfold lacks. induction s as [|a s IH]; simpl.
  - by rewrite Ascii.eqb_refl.
  - intros H; bool_to_prop. by rewrite H, IH.
Qed.

Lemma split_join c l :
  l <> [] -> forallb (lacks c) l = true -> split_on c (join (String c "") l) = l.
Proof.
  induction l as [|x [|y l] IH]; intros Hne Hl; [done| |].
  - simpl in *. apply split_on_lacks. by rewrite andb_true_r in Hl.
  - change (join (String c "") (x :: y :: l)) with (x +:+ String c (join (String c "") (y :: l))).
    simpl in Hl. bool_to_prop. rewrite split_on_app by done.
    f_equal. apply IH; [done|]. simpl. by rewrite H0.
Qed.

(** Checks a decidable property of the integers below a bound by evaluation. *)
Lemma below_cases (p : Z -> bool) n :
  forallb p (seqZ 0 n) = true -> forall d, 0 <= d < n -> p d = true.
Proof.
  rewrite forallb_forall. intros H d Hd. apply H, list_elem_of_In, elem_of_seqZ. lia.
Qed.

(** ** Hexadecimal *)

Lemma hexval_hexdigit d : 0 <= d < 16 -> hexval (hexdigit d) = Some d.
Proof.
  intros Hd. apply (below_cases (fun d => bool_decide (hexval (hexdigit d) = Some d)) 16) in Hd.
  - by apply bool_decide_eq_true in Hd.
  - vm_compute. done.
Qed.

Lemma hexdigit_plain d : 0 <= d < 16 ->
  negb (Ascii.eqb (hexdigit d) colon) && negb (Ascii.eqb (hexdigit d) dot) = true.
Proof. apply (below_cases (fun d => negb (Ascii.eqb (hexdigit d) colon) && negb (Ascii.eqb (hexdigit d) dot)) 16). done. Qed.

Lemma hex_aux_fold f v acc a :
  0 <= v < 16 ^ Z.of_nat f ->
  exists k, 0 <= k /\ hex_fold (hex_aux f v acc) a = hex_fold acc (a * 16 ^ k + v).
Proof.
  revert v acc a. induction f as [|f IH]; intros v acc a Hv.
  - exists 0. simpl in *. replace v with 0 by lia. split; [lia|]. f_equal. lia.
  - rewrite Nat2Z.inj_succ, Z.pow_succ_r in Hv by lia.
    pose proof (Z.mod_pos_bound v 16 ltac:(lia)) as Hm.
    pose proof (Z.div_mod v 16 ltac:(lia)) as Hdm.
    simpl. destruct (v / 16 =? 0) eqn:E; bool_to_prop.
    + exists 1. split; [lia|]. simpl. rewrite hexval_hexdigit by done. f_equal. lia.
    + destruct (IH (v / 16) (String (hexdigit (v mod 16)) acc) a) as (k & Hk & ->).
      { split; [apply Z.div_pos; lia|apply Z.div_lt_upper_bound; lia]. }
      exists (k + 1). split; [lia|]. simpl. rewrite hexval_hexdigit by done. f_equal.
      rewrite Z.pow_add_r by lia. lia.
Qed.

Lemma hex_str_fuel v : 0 <= v -> 0 <= v < 16 ^ Z.of_nat (S (Z.to_nat (Z.log2 v))).
Proof.
  intros Hv. split; [done|]. rewrite Nat2Z.inj_succ, Z2Nat.id by apply Z.log2_nonneg.
  destruct (Z.eq_dec v 0) as [->|]; [done|].
  pose proof (Z.log2_spec v ltac:(lia)) as [_ H].
  eapply Z.lt_le_trans; [exact H|]. apply Z.pow_le_mono_l.
  pose proof (Z.log2_nonneg v). lia.
Qed.

Lemma hex_str_fold v : 0 <= v -> hex_fold (hex_str v) 0 = Some v.
Proof.
  intros Hv. destruct (hex_aux_fold _ _ "" 0 (hex_str_fuel v Hv)) as (k & _ & H).
  unfold hex_str. by rewrite H.
Qed.

Lemma hex_str_inj v w : 0 <= v -> 0 <= w -> hex_str v = hex_str w -> v = w.
Proof.
  intros Hv Hw H. apply hex_str_fold in Hv. apply hex_str_fold in Hw. congruence.
Qed.

Lemma hex_aux_plain c f v acc :
  c = colon \/ c = dot -> 0 <= v -> lacks c acc = true -> lacks c (hex_aux f v acc) = true.
Proof.
  intros Hc. unfold lacks. revert v acc. induction f as [|f IH]; intros v acc Hv Hacc; simpl; [done|].
  pose proof (hexdigit_plain (v mod 16) (Z.mod_pos_bound v 16 ltac:(lia))) as H.
  assert (lacks c (String (hexdigit (v mod 16)) acc) = true) as Hs.
  { unfold lacks. simpl. rewrite Hacc. bool_to_prop. destruct Hc as [-> | ->]; rewrite ?H, ?H0; done. }
  destruct (v / 16 =? 0); [exact Hs|]. apply IH; [apply Z.div_pos; lia|exact Hs].
Qed.

Lemma hex_aux_chars p f v acc : (forall d, 0 <= d < 16 -> p (hexdigit d) = true) -> all_chars p acc = true -> all_chars p (hex_aux f v acc) = true.
Proof.
  intros Hp. revert v acc. induction f as [|f IH]; intros v acc Hacc; cbn [hex_aux]; [done|].
  assert (all_chars p (String (hexdigit (v mod 16)) acc) = true) as Hs by (simpl; rewrite Hp, Hacc; [done|apply Z.mod_pos_bound; lia]).
  destruct (v / 16 =? 0); [exact Hs|]. by apply IH.
Qed.

Lemma hex_str_plain c v : c = colon \/ c = dot -> 0 <= v -> lacks c (hex_str v) = true.
Proof. intros. by apply hex_aux_plain. Qed.

Lemma hex_aux_length f v acc k :
  0 <= v < 16 ^ Z.of_nat k -> (0 < k)%nat ->
  (String.length (hex_aux f v acc) <= k + String.length acc)%nat.
Proof.
  revert v acc k. induction f as [|f IH]; intros v acc k Hv Hk; simpl; [lia|].
  destruct k as [|k]; [lia|]. rewrite Nat2Z.inj_succ, Z.pow_succ_r in Hv by lia.
  destruct (v / 16 =? 0) eqn:E; bool_to_prop; simpl; [lia|].
  destruct k as [|k].
  { exfalso. apply E. apply Z.div_small. simpl in Hv. lia. }
  assert (0 <= v / 16 < 16 ^ Z.of_nat (S k)) as Hd
    by (split; [apply Z.div_pos; lia|apply Z.div_lt_upper_bound; lia]).
  pose proof (IH _ (String (hexdigit (v mod 16)) acc) (S k) Hd ltac:(lia)) as H.
  simpl in H. lia.
Qed.

Lemma hex_aux_nonempty f v acc : hex_aux (S f) v acc <> "".
Proof.
  revert v acc. induction f as [|f IH]; intros v acc; simpl;
    destruct (v / 16 =? 0); try done. apply IH.
Qed.

Lemma parse_hextet_str v : 0 <= v < 65536 -> parse_hextet (hex_str v) = Ok v.
Proof.
  intros Hv. unfold parse_hextet. rewrite hex_str_fold by lia.
  pose proof (hex_aux_length (S (Z.to_nat (Z.log2 v))) v "" 4 Hv ltac:(lia)) as Hl.
  pose proof (hex_aux_nonempty (Z.to_nat (Z.log2 v)) v "") as Hn.
  fold (hex_str v) in *. apply String.eqb_neq in Hn. rewrite Hn.
  change (String.length "") with 0%nat in Hl.
  destruct (4 <? _) eqn:E; bool_to_prop; [lia|done].
Qed.

Lemma hex_str_zero v : 0 <= v -> String.eqb (hex_str v) "0" = (v =? 0).
Proof.
  intros Hv. destruct (Z.eqb_spec v 0) as [->|Hne]; [done|].
  apply String.eqb_neq. intros H. apply Hne, hex_str_inj; [done|done|]. by rewrite H.
Qed.

(** ** IPv4 text round trip *)

Lemma pretty_octet n : 0 <= n < 256 ->
  parse_octet (pretty n) = Ok n /\ lacks dot (pretty n) = true /\ lacks slash (pretty n) = true.
Proof.
  intros Hn.
  apply (below_cases (fun n => bool_decide (parse_octet (pretty n) = Ok n)
    && (lacks dot (pretty n) && lacks slash (pretty n))) 256) in Hn.
  - bool_to_prop. done.
  - vm_compute. done.
Qed.

Lemma ipv4_str_split v : split_on dot (ipv4_str v) = map (fun b => pretty (u8 b)) (be_enc 4 v).
Proof.
  unfold ipv4_str. change "." with (String dot ""). apply split_join; [done|].
  apply forallb_forall. intros s Hs. apply in_map_iff in Hs as (b & <- & _).
  apply pretty_octet, u8_bound.
Qed.

Lemma fold_octets l a :
  fold_left (fun a v => a * 256 + v) (map u8 l) a = fold_left (fun a b => a * 256 + u8 b) l a.
Proof. revert a; induction l; intros; simpl; auto. Qed.

Lemma ipv4_parse_str v : 0 <= v < 2 ^ 32 -> ipv4_parse (ipv4_str v) = Ok v.
Proof.
  intros Hv. unfold ipv4_parse. rewrite ipv4_str_split.
  rewrite len_map, len_be_enc. simpl (negb _).
  assert (mapM_res parse_octet (map (fun b => pretty (u8 b)) (be_enc 4 v)) = Ok (map u8 (be_enc 4 v))) as ->.
  { apply mapM_res_Ok. rewrite Forall2_fmap_l, Forall2_fmap_r. apply Forall_Forall2_diag.
    apply Forall_forall. intros b _. apply pretty_octet, u8_bound. }
  change (Ok (fold_left (fun a v => a * 256 + v) (map u8 (be_enc 4 v)) 0) = Ok v).
  rewrite fold_octets. fold (be_dec (be_enc 4 v)). by rewrite be_dec_enc.
Qed.

Lemma ipv4_str_inj v w : 0 <= v < 2 ^ 32 -> 0 <= w < 2 ^ 32 -> ipv4_str v = ipv4_str w -> v = w.
Proof. intros Hv Hw H. apply ipv4_parse_str in Hv, Hw. congruence. Qed.

(** ** IPv6 text round trip *)

Fixpoint all_bools (n : nat) : list (list bool) :=
  match n with
  | O => [[]]
  | S n' => flat_map (fun l => [true :: l; false :: l]) (all_bools n')
  end.

Lemma all_bools_complete zs : In zs (all_bools (length zs)).
Proof.
  induction zs as [|z zs IH]; simpl; [by left|].
  apply in_flat_map. exists zs. split; [done|]. destruct z; simpl; auto.
Qed.

(** What the compressed layout of each of the 256 zero patterns looks like to
    the parser: which parts are empty, and where the groups come back from. *)
Definition layout_empties (zs : list bool) : list bool :=
  let '(st, n) := best_run zs 0 (0%nat, 0%nat) (0%nat, 0%nat) in
  if (1 <? n)%nat then
    (if (st =? 0)%nat then [true] else []) ++ repeat false st ++ [true]
    ++ repeat false (8 - (st + n)) ++ (if (st + n =? 8)%nat then [true] else [])
  else repeat false 8.

Definition layout_ok (zs : list bool) : bool :=
  let '(st, n) := best_run zs 0 (0%nat, 0%nat) (0%nat, 0%nat) in
  let es := layout_empties zs in
  (3 <=? length es)%nat && (length es <=? 9)%nat &&
  (if (1 <? n)%nat then
     bool_decide (skip_layout es = Ok (st, n, (8 - (st + n))%nat)) && (st + n <=? 8)%nat
     && bool_decide (take n (drop st zs) = repeat true n)
   else bool_decide (skip_layout es = Ok (8%nat, 0%nat, 0%nat))).

Lemma layout_all zs : length zs = 8%nat -> layout_ok zs = true.
Proof.
  intros Hl. assert (forallb layout_ok (all_bools 8) = true) as H by (vm_compute; done).
  rewrite forallb_forall in H. apply H. rewrite <- Hl. apply all_bools_complete.
Qed.

Lemma layout_spec zs st n :
  length zs = 8%nat -> best_run zs 0 (0%nat, 0%nat) (0%nat, 0%nat) = (st, n) ->
  (3 <= length (layout_empties zs) <= 9)%nat /\
  if (1 <? n)%nat then
    skip_layout (layout_empties zs) = Ok (st, n, (8 - (st + n))%nat) /\ (st + n <= 8)%nat /\
    take n (drop st zs) = repeat true n
  else skip_layout (layout_empties zs) = Ok (8%nat, 0%nat, 0%nat).
Proof.
  intros Hl Hb. pose proof (layout_all zs Hl) as Hok. unfold layout_ok in Hok. rewrite Hb in Hok.
  apply andb_prop in Hok as [Hlen Hok]. apply andb_prop in Hlen as [H3 H9].
  apply Nat.leb_le in H3, H9. split; [done|]. destruct (1 <? n)%nat.
  - apply andb_prop in Hok as [Hok Ht]. apply andb_prop in Hok as [Hs Hn].
    apply Nat.leb_le in Hn. bool_to_prop. done.
  - by apply bool_decide_eq_true in Hok.
Qed.

Lemma zero_groups hs :
  Forall (fun h => 0 <= h < 65536) hs ->
  map (fun s => String.eqb s "0") (map hex_str hs) = map (fun h => h =? 0) hs.
Proof.
  intros Hh. rewrite map_map. apply map_ext_in. intros h Hin. rewrite Forall_forall in Hh.
  apply hex_str_zero. rewrite <- list_elem_of_In in Hin. apply Hh in Hin. lia.
Qed.

Lemma of_hextets_hextets v : 0 <= v < 2 ^ 128 -> of_hextets (hextets v) = v.
Proof.
  intros Hv. unfold of_hextets, hextets. cbn [map fold_left].
  assert (forall i j, 0 <= i -> j = i + 1 -> (v / 65536 ^ i) mod 65536 = v / 65536 ^ i - v / 65536 ^ j * 65536) as Hstep.
  { intros i j Hi ->. rewrite Z.pow_add_r, <- Z.div_div by (try apply Z.pow_pos_nonneg; lia).
    change (65536 ^ 1) with 65536. rewrite Z.mod_eq by lia. lia. }
  rewrite (Hstep 0 1), (Hstep 1 2), (Hstep 2 3), (Hstep 3 4), (Hstep 4 5), (Hstep 5 6), (Hstep 6 7), (Hstep 7 8) by lia.
  rewrite (Z.div_small v (65536 ^ 8)) by exact Hv.
  change (65536 ^ 0) with 1. rewrite Z.div_1_r. ring.
Qed.

Lemma hextets_bound v : Forall (fun h => 0 <= h < 65536) (hextets v).
Proof.
  unfold hextets. repeat constructor; apply Z.mod_pos_bound; lia.
Qed.

Lemma parse_hextets hs :
  Forall (fun h => 0 <= h < 65536) hs -> mapM_res parse_hextet (map hex_str hs) = Ok hs.
Proof.
  intros H. apply mapM_res_Ok. rewrite Forall2_fmap_l.
  rewrite <- (map_id hs) at 2. rewrite Forall2_fmap_r. apply Forall_Forall2_diag.
  eapply Forall_impl; [exact H|]. intros h Hh. by apply parse_hextet_str.
Qed.

Lemma compress_empties hs :
  Forall (fun h => 0 <= h < 65536) hs -> length hs = 8%nat ->
  map (fun p => String.eqb p "") (compress (fun s => String.eqb s "0") "" (map hex_str hs))
  = layout_empties (map (fun h => h =? 0) hs).
Proof.
  intros Hh Hl.
  assert (forall l : list Z, map (fun p => String.eqb p "") (map hex_str l) = repeat false (length l)) as He.
  { induction l; simpl; [done|]. rewrite IHl. f_equal. apply String.eqb_neq, hex_aux_nonempty. }
  unfold compress, layout_empties. rewrite (zero_groups hs Hh).
  destruct (best_run _ _ _ _) as [st n] eqn:Hb.
  pose proof (layout_spec _ _ _ ltac:(by rewrite length_map) Hb) as [_ Hok].
  destruct (1 <? n)%nat; rewrite ?length_map, ?Hl; [|by rewrite He, Hl].
  destruct Hok as (_ & Hn & _).
  rewrite !map_app, !firstn_map, !skipn_map, !He, length_take, length_drop, Hl.
  rewrite Nat.min_l by lia. repeat case_match; reflexivity.
Qed.

Lemma compress_lacks c hs :
  c = colon \/ c = dot -> Forall (fun h => 0 <= h < 65536) hs ->
  forallb (lacks c) (compress (fun s => String.eqb s "0") "" (map hex_str hs)) = true.
Proof.
  intros Hc Hh. apply forallb_forall. intros s Hs.
  assert (In s (map hex_str hs) \/ s = "") as [Hin| ->]; [|..|done].
  - unfold compress in Hs. destruct (best_run _ _ _ _) as [st n].
    rewrite <- !list_elem_of_In in *. destruct (1 <? n)%nat; [|by left].
    rewrite !elem_of_app in Hs. destruct Hs as [Hs|[Hs|[Hs|[Hs|Hs]]]].
    + right. case_match; set_solver.
    + left. by apply elem_of_take in Hs as (i & Hs & _); apply list_elem_of_lookup_2 in Hs.
    + right. set_solver.
    + left. rewrite <- (take_drop (st + n) (map hex_str hs)), elem_of_app. by right.
    + right. case_match; set_solver.
  - apply in_map_iff in Hin as (h & <- & Hin). rewrite Forall_forall in Hh.
    apply hex_str_plain; [done|]. rewrite <- list_elem_of_In in Hin. apply Hh in Hin. lia.
Qed.

Lemma zero_run hs st n :
  take n (drop st (map (fun h => h =? 0) hs)) = repeat true n ->
  take st hs ++ repeat 0 n ++ drop (st + n) hs = hs.
Proof.
  intros H. assert (repeat 0 n = take n (drop st hs)) as ->.
  { rewrite skipn_map, firstn_map in H. revert H. generalize (take n (drop st hs)) as l.
    clear st hs. induction n as [|n IH]; intros [|h l]; simpl; try done. intros [= Hh Hl].
    apply Z.eqb_eq in Hh. rewrite Hh. f_equal. by apply IH. }
  by rewrite <- drop_drop, !take_drop.
Qed.

Lemma compress_suffix (hs : list Z) st n :
  length hs = 8%nat -> (st + n <= 8)%nat ->
  let head := if (st =? 0)%nat then [""] else [] in
  let tail := if (st + n =? 8)%nat then [""] else [] in
  let parts := head ++ take st (map hex_str hs) ++ [""] ++ drop (st + n) (map hex_str hs) ++ tail in
  drop (length parts - (8 - (st + n))) parts = map hex_str (drop (st + n) hs).
Proof.
  intros Hl Hn head tail parts. subst parts tail. destruct (st + n =? 8)%nat eqn:E8.
  - apply Nat.eqb_eq in E8. rewrite E8, Nat.sub_0_r. rewrite drop_ge by done.
    by rewrite (drop_ge hs) by lia.
  - rewrite app_nil_r, skipn_map, !app_assoc, length_app, length_map, length_drop, Hl, Nat.add_sub.
    apply drop_app_length.
Qed.

(** The parts the parser reads back around the [::] are the printed groups. *)
Lemma compress_parts hs hi sk lo :
  Forall (fun h => 0 <= h < 65536) hs -> length hs = 8%nat ->
  skip_layout (layout_empties (map (fun h => h =? 0) hs)) = Ok (hi, sk, lo) ->
  let parts := compress (fun s => String.eqb s "0") "" (map hex_str hs) in
  take hi parts = map hex_str (take hi hs) /\
  drop (length parts - lo) parts = map hex_str (drop (8 - lo) hs) /\
  take hi hs ++ repeat 0 sk ++ drop (8 - lo) hs = hs.
Proof.
  intros Hh Hl Hskip parts.
  pose proof (compress_empties hs Hh Hl) as He. fold parts in He.
  assert (length parts = length (layout_empties (map (fun h => h =? 0) hs))) as Hlp
    by (rewrite <- He; by rewrite length_map).
  revert Hlp. subst parts. unfold compress, layout_empties in *. rewrite (zero_groups hs Hh) in *.
  destruct (best_run _ _ _ _) as [st n] eqn:Hb.
  pose proof (layout_spec _ _ _ ltac:(by rewrite length_map) Hb) as [_ Hok].
  unfold layout_empties in Hok. rewrite Hb in Hok.
  destruct (1 <? n)%nat eqn:En.
  - destruct Hok as (Hok & Hn & Ht). rewrite Hskip in Hok. injection Hok as -> -> ->.
    apply Nat.ltb_lt in En. rewrite !length_map, Hl.
    replace (8 - (8 - (st + n)))%nat with (st + n)%nat by lia. intros Hlp. split_and!.
    + destruct st; [by rewrite !take_0|]. simpl app at 1.
      rewrite take_app_le by (rewrite length_take, length_map; lia).
      by rewrite take_take, Nat.min_id, firstn_map.
    + by apply compress_suffix.
    + by apply zero_run.
  - rewrite Hskip in Hok. injection Hok as -> -> ->. intros Hlp.
    rewrite length_map, Hl, !Nat.sub_0_r. split_and!.
    + by rewrite firstn_map.
    + by rewrite skipn_map.
    + simpl. by rewrite take_drop.
Qed.

(** Parsing what [str] prints gives the address back. *)
Lemma ipv6_parse_str v : 0 <= v < 2 ^ 128 -> ipv6_parse (ipv6_str v) = Ok v.
Proof.
  intros Hv. pose proof (hextets_bound v) as Hh.
  assert (length (hextets v) = 8%nat) as Hl by done.
  pose proof (compress_empties _ Hh Hl) as He.
  pose proof (compress_parts (hextets v)) as Hparts.
  unfold ipv6_parse, ipv6_str. change ":" with (String colon "").
  set (parts := compress (fun s => String.eqb s "0") "" (map hex_str (hextets v))) in *.
  assert (length parts = length (layout_empties (map (fun h => h =? 0) (hextets v)))) as Hlp
    by (rewrite <- He; by rewrite length_map).
  assert (exists hi sk lo, skip_layout (layout_empties (map (fun h => h =? 0) (hextets v))) = Ok (hi, sk, lo)
     /\ (3 <= length parts <= 9)%nat) as (hi & sk & lo & Hskip & Hn).
  { rewrite Hlp. destruct (best_run (map (fun h => h =? 0) (hextets v)) 0 (0%nat, 0%nat) (0%nat, 0%nat)) as [st n] eqn:Hb.
    pose proof (layout_spec (map (fun h => h =? 0) (hextets v)) st n eq_refl Hb) as [Hn Hok].
    destruct (1 <? n)%nat; [destruct Hok as [Hok _]|]; eauto. }
  assert (split_on colon (join (String colon "") parts) = parts) as Hsplit.
  { apply split_join; [destruct parts; simpl in *; [lia|done]|]. apply compress_lacks; auto. }
  assert (String.eqb (join (String colon "") parts) "" = false) as ->.
  { apply String.eqb_neq. intros E. rewrite E in Hsplit. rewrite <- Hsplit in Hn. simpl in Hn. lia. }
  rewrite Hsplit. destruct (length parts <? 3)%nat eqn:E3; [apply Nat.ltb_lt in E3; lia|].
  assert (match last parts with Some p => has_char dot p | None => false end = false) as Hlast.
  { destruct (last parts) as [p|] eqn:Ep; [|done]. apply last_Some_elem_of in Ep.
    pose proof (compress_lacks dot _ (or_intror eq_refl) Hh) as Hd. fold parts in Hd.
    rewrite forallb_forall in Hd. apply negb_false_iff, Hd. by apply list_elem_of_In. }
  assert ((match last parts with
    | Some p => if has_char dot p then
          let* v4 := ipv4_parse p in Ok (removelast parts ++ [hex_str (v4 / 65536); hex_str (v4 mod 65536)])
        else Ok parts
    | None => Ok parts end) = Ok parts) as ->.
  { destruct (last parts); [by rewrite Hlast|done]. }
  destruct (Hparts hi sk lo Hh Hl Hskip) as (Hhi & Hlo & Hall).
  simpl_res. destruct (9 <? length parts)%nat eqn:E9; [apply Nat.ltb_lt in E9; lia|].
  rewrite He, Hskip, Hhi, Hlo.
  rewrite !parse_hextets by (apply Forall_take || apply Forall_drop; done).
  by rewrite Hall, of_hextets_hextets.
Qed.

Lemma ipv6_str_inj v w : 0 <= v < 2 ^ 128 -> 0 <= w < 2 ^ 128 -> ipv6_str v = ipv6_str w -> v = w.
Proof. intros Hv Hw H. apply ipv6_parse_str in Hv, Hw. congruence. Qed.

Lemma join_lacks c sep l :
  lacks c sep = true -> forallb (lacks c) l = true -> lacks c (join sep l) = true.
Proof.
  intros Hs. induction l as [|x [|y l] IH]; intros Hl; [done|simpl in *; by rewrite andb_true_r in Hl|].
  change (join sep (x :: y :: l)) with (x +:+ (sep +:+ join sep (y :: l))).
  simpl in Hl. apply andb_prop in Hl as [Hx Hl]. unfold lacks in *.
  by rewrite !all_chars_app, Hx, Hs, IH.
Qed.

(** [IPv4Network] of a host prefix, as the callers write it. *)
Lemma ipv4_network_host v : 0 <= v < 2 ^ 32 -> ipv4_network (ipv4_str v +:+ "/32") = Ok (v, 32).
Proof.
  intros Hv. unfold ipv4_network, network_of, split_network.
  assert (split_on slash (ipv4_str v +:+ "/32") = [ipv4_str v; "32"]) as ->.
  { change "/32" with (String slash "32"). rewrite split_on_app; [done|].
    apply join_lacks; [done|]. apply forallb_forall. intros s Hs.
    apply in_map_iff in Hs as (b & <- & _). apply pretty_octet, u8_bound. }
  change (mbind _ _) with (let* v0 := ipv4_parse (ipv4_str v) in
    let host := v0 mod 2 ^ (32 - 32) in
    if true && negb (host =? 0) then Err (ValueError "has host bits set") else Ok (v0 - host, 32)).
  rewrite ipv4_parse_str by done. simpl_res. rewrite Z.mod_1_r. simpl. by rewrite Z.sub_0_r.
Qed.

(** ** MAC text round trip *)

Lemma hex_pad_facts n : 0 <= n < 256 ->
  lacks colon (hex_pad 2 n) = true /\ fromhex (hex_pad 2 n) = Ok [byte_of n].
Proof.
  intros Hn. apply (below_cases (fun n => lacks colon (hex_pad 2 n) &&
    bool_decide (fromhex (hex_pad 2 n) = Ok [byte_of n])) 256) in Hn.
  - bool_to_prop. done.
  - vm_compute. done.
Qed.

Lemma fromhex_pad n s l : 0 <= n < 256 -> fromhex s = Ok l ->
  fromhex (hex_pad 2 n +:+ s) = Ok (byte_of n :: l).
Proof.
  intros Hn Hs. destruct (hex_pad_facts n Hn) as [_ H]. revert H.
  change (hex_pad 2 n +:+ s) with (String (hexdigit ((n / 16 ^ 1) mod 16)) (String (hexdigit ((n / 16 ^ 0) mod 16)) s)).
  cbn [hex_pad fromhex].
  destruct (hexval _); [|done]. destruct (hexval _); [|done]. rewrite Hs.
  unfold mbind, res_bind. intros [= H]. by rewrite H.
Qed.

Lemma join_nil_cons x l : join "" (x :: l) = x +:+ join "" l.
Proof.
  destruct l; [|done]. change (x = x +:+ ""). induction x as [|c x IH]; [done|].
  change (String c x = String c (x +:+ "")). by f_equal.
Qed.

Lemma fromhex_mac_str l : l <> [] -> fromhex (remove_char colon (mac_str l)) = Ok l.
Proof.
  intros Hne. unfold remove_char, mac_str. change ":" with (String colon "").
  rewrite split_join.
  - clear Hne. induction l as [|b l IH]; [done|]. cbn [map]. rewrite join_nil_cons.
    rewrite (fromhex_pad _ _ l); [by rewrite byte_of_u8|apply u8_bound|done].
  - by destruct l.
  - apply forallb_forall. intros s Hs. apply in_map_iff in Hs as (b & <- & _).
    apply hex_pad_facts, u8_bound.
Qed.

Lemma mac_str_inj l1 l2 : l1 <> [] -> l2 <> [] -> mac_str l1 = mac_str l2 -> l1 = l2.
Proof. intros H1 H2 E. apply fromhex_mac_str in H1, H2. congruence. Qed.

(** Appending a fixed prefix loses nothing. *)
Lemma append_inj_l a b c : a +:+ b = a +:+ c -> b = c.
Proof. induction a; simpl; [done|]. intros [= H]. auto. Qed.

(** ** Decimal numerals *)

Lemma pretty_N_go_chars p x s :
  (forall d, (d < 10)%N -> p (pretty_N_char d) = true) -> all_chars p s = true -> all_chars p (pretty_N_go x s) = true.
Proof.
  intros Hp. revert s. induction (N.lt_wf_0 x) as [x _ IH]; intros s Hs.
  assert (x = 0 \/ 0 < x)%N as [->|Hx] by lia; [by rewrite pretty_N_go_0|].
  rewrite pretty_N_go_step by done. apply IH; [by apply N.div_lt|].
  simpl. rewrite Hp by (apply N.mod_lt; lia). done.
Qed.

(** A numeral is made of digits and a minus sign. *)
Lemma pretty_lacks c (n : Z) :
  (forall d, (d < 10)%N -> pretty_N_char d <> c) -> c <> ch 45 -> lacks c (pretty n) = true.
Proof.
  intros Hc Hm.
  assert (forall x, lacks c (pretty_N_go x "") = true) as Hgo.
  { intros x. apply pretty_N_go_chars; [|done]. intros d Hd. apply negb_true_iff, Ascii.eqb_neq. auto. }
  destruct n as [|x|x]; unfold lacks, pretty, pretty_Z.
  - cbn [all_chars]. rewrite andb_true_r. apply negb_true_iff, Ascii.eqb_neq. apply (Hc 0%N). lia.
  - apply Hgo.
  - cbn [all_chars String.append]. apply andb_true_intro. split; [|apply Hgo]. apply negb_true_iff, Ascii.eqb_neq. intros E. by apply Hm.
Qed.

Lemma pretty_N_go_length x s : (String.length s <= String.length (pretty_N_go x s))%nat.
Proof.
  revert s. induction (N.lt_wf_0 x) as [x _ IH]; intros s. assert (x = 0 \/ 0 < x)%N as [->|Hx] by lia; [by rewrite pretty_N_go_0|].
  rewrite pretty_N_go_step by done. etrans; [|apply IH; by apply N.div_lt]. simpl. lia.
Qed.

Lemma pretty_nonempty (n : Z) : pretty n <> "".
Proof.
  assert (forall x, pretty_N_go (Npos x) "" <> "") as Hgo.
  { intros x. rewrite pretty_N_go_step by lia. intros E. pose proof (pretty_N_go_length (Npos x `div` 10) (String (pretty_N_char (Npos x `mod` 10)) "")) as H.
    rewrite E in H. simpl in H. lia. }
  destruct n as [|x|x]; unfold pretty, pretty_Z; [done|apply Hgo|done].
Qed.

(** [int(str(n))]: the digits of a numeral have its value. *)
Lemma dec_fold_pretty_N x s : dec_fold (pretty_N_go x s) 0 = dec_fold s (Z.of_N x).
Proof.
  revert s. induction (N.lt_wf_0 x) as [x _ IH]; intros s. assert (x = 0 \/ 0 < x)%N as [->|Hx] by lia; [by rewrite pretty_N_go_0|].
  rewrite pretty_N_go_step, IH by (done || by apply N.div_lt). cbn [dec_fold]. f_equal.
  assert (forall d, (d < 10)%N -> code (pretty_N_char d) - 48 = Z.of_N d) as Hc.
  { intros d Hd. rewrite <- (N2Z.id d) at 1. apply Z.eqb_eq. rewrite <- (Z2N.id (Z.of_N d)) at 2 by lia.
    apply (below_cases (fun z => code (pretty_N_char (Z.to_N z)) - 48 =? Z.of_N (Z.to_N z)) 10); [done|lia]. }
  rewrite Hc by (apply N.mod_lt; lia). rewrite N2Z.inj_div, N2Z.inj_mod. pose proof (Z.div_mod (Z.of_N x) 10). lia.
Qed.

Lemma dec_fold_pretty (n : Z) : 0 <= n -> dec_fold (pretty n) 0 = n.
Proof. intros Hn. destruct n as [|x|x]; [done| |lia]. exact (dec_fold_pretty_N (Npos x) ""). Qed.

(** A numeral that is not negative is made of digits. *)
Lemma pretty_digits (n : Z) : 0 <= n -> all_chars is_digit (pretty n) = true.
Proof.
  intros Hn. assert (forall d, (d < 10)%N -> is_digit (pretty_N_char d) = true) as Hd.
  { intros d Hd. rewrite <- (N2Z.id d). apply (below_cases (fun z => is_digit (pretty_N_char (Z.to_N z))) 10); [done|lia]. }
  destruct n as [|x|x]; unfold pretty, pretty_Z; [done|by apply pretty_N_go_chars|lia].
Qed.

Lemma pretty_N_char_plain c d : c = colon \/ c = dot \/ c = slash -> pretty_N_char d <> c.
Proof. intros Hc. unfold pretty_N_char. repeat case_match; destruct Hc as [E|[E|E]]; by subst c. Qed.

Lemma pretty_plain c (n : Z) : c = colon \/ c = dot \/ c = slash -> lacks c (pretty n) = true.
Proof. intros Hc. apply pretty_lacks; [intros; by apply pretty_N_char_plain|]. by destruct Hc as [H|[H|H]]; subst c. Qed.

Lemma ipv4_str_lacks c v : c = colon \/ c = slash -> lacks c (ipv4_str v) = true.
Proof.
  intros Hc. apply join_lacks; [by destruct Hc as [->| ->]|]. apply forallb_forall. intros s Hs.
  apply in_map_iff in Hs as (b & <- & _). apply pretty_plain. tauto.
Qed.

(** The first separator splits a text in one way. *)
Lemma split_at_first c s t u v :
  lacks c s = true -> lacks c t = true -> s +:+ String c u = t +:+ String c v -> s = t /\ u = v.
Proof.
  intros Hs Ht E. apply (f_equal (split_on c)) in E. rewrite !split_on_app in E by done.
  injection E as -> E. split; [done|]. revert v E.
  assert (forall x y, split_on c x = split_on c y -> x = y) as Hinj; [|auto].
  intros x y Exy. apply (f_equal (join (String c ""))) in Exy. revert Exy.
  assert (forall z, join (String c "") (split_on c z) = z) as Hj.
  { induction z as [|a z IH]; [done|]. simpl. destruct (Ascii.eqb a c) eqn:Ea.
    - apply Ascii.eqb_eq in Ea as ->. destruct (split_on c z) as [|w l] eqn:Es; [by destruct z; simpl in Es; repeat case_match|].
      change (String c (join (String c "") (w :: l)) = String c z). by rewrite IH.
    - destruct (split_on c z) as [|w l] eqn:Es; [by destruct z; simpl in Es; repeat case_match|].
      rewrite <- IH. by destruct l. }
  by rewrite !Hj.
Qed.

Lemma append_length a b : String.length (a +:+ b) = (String.length a + String.length b)%nat.
Proof. induction a; simpl; auto. Qed.

Lemma append_inj_r a b x : a +:+ x = b +:+ x -> a = b.
Proof.
  revert b. induction a as [|y a IH]; intros [|z b] H; [done| | |].
  - apply (f_equal String.length) in H. rewrite !append_length in H. simpl in H. lia.
  - apply (f_equal String.length) in H. rewrite !append_length in H. simpl in H. lia.
  - injection H as -> H. f_equal. auto.
Qed.

Lemma append_inj a b x y : a +:+ x = b +:+ y -> String.length x = String.length y -> a = b /\ x = y.
Proof.
  revert b. induction a as [|c a IH]; intros [|c' b] H Hl.
  - done.
  - apply (f_equal String.length) in H. rewrite !append_length in H. simpl in H. lia.
  - apply (f_equal String.length) in H. rewrite !append_length in H. simpl in H. lia.
  - injection H as -> H. destruct (IH _ H Hl). by subst.
Qed.

Lemma append_nil_r s : s +:+ "" = s.
Proof. induction s as [|c s IH]; [done|]. change (String c s +:+ "") with (String c (s +:+ "")). by rewrite IH. Qed.

Lemma append_assoc a b x : (a +:+ b) +:+ x = a +:+ (b +:+ x).
Proof.
  induction a as [|y a IH]; [done|].
  change (String y ((a +:+ b) +:+ x) = String y (a +:+ (b +:+ x))). by rewrite IH.
Qed.

Lemma startswith_app s p t : startswith s p = true -> startswith (s +:+ t) p = true.
Proof.
  revert s. induction p as [|a p IH]; intros [|b s] H; try done; [by destruct t|].
  cbn [startswith] in H. apply andb_prop in H as [E H]. change (Ascii.eqb a b && startswith (s +:+ t) p = true).
  rewrite E. by apply IH.
Qed.

Lemma startswith_lacks s p x : startswith s p = true -> lacks x p = false -> lacks x s = false.
Proof.
  unfold lacks. revert s. induction p as [|a p IH]; intros [|b s] H Hp; simpl in *; try done.
  apply andb_prop in H as [E H]. apply Ascii.eqb_eq in E as ->. apply andb_false_iff in Hp as [Hp|Hp].
  - by rewrite Hp.
  - rewrite (IH _ H Hp). by rewrite andb_false_r.
Qed.

