(* ===== verification/EvpnCodec.v ===== *)
(** * EvpnCodec: the restricted iBGP EVPN / RFC 9252 codec (lab/live/evpn_codec.py)

    Type-2 (MAC), Type-3 (inclusive multicast) and Type-5 (IPv4 host prefix) routes
    with an SRv6 service SID, the BGP message frame and the OPEN exchange.  Every
    function of the file is here under its own name; a function that raises returns
    [Err].  Parsers that loop over what is left of their input recurse on a fuel of
    its length, which [OutOfFuel] never exhausts ([tlvs_fuel_enough] and the like). *)

From S2P Require Import Prelude Bytes Text.

Module Codec.

(** ** Definitions *)

(** AFI L2VPN=25, SAFI EVPN=70 *)
Definition AF : list byte := lit [0; 25; 70].
Definition RT : res (list byte) :=
  let* a := pack 1 0 in let* b := pack 1 2 in let* c := pack 2 65000 in let* d := pack 4 100 in
  Ok (a ++ b ++ c ++ d).
Definition DX4 : Z := 0x0011.
Definition DX2 : Z := 0x0015.

Definition tlv (kind : Z) (value : list byte) : res (list byte) :=
  let* k := pack 1 kind in
  let* n := pack 2 (len value) in
  Ok (k ++ n ++ value).

Fixpoint tlvs_fuel (fuel : nat) (data : list byte) : gen (Z * list byte) :=
  match data, fuel with
  | [], _ => gen_stop
  | _, O => gen_raise OutOfFuel
  | _, S f =>
      if len data <? 3 then gen_raise (ValueError "truncated TLV header") else
      match unpack 3 (slice data 0 3) with
      | Err e => gen_raise e
      | Ok header =>
          let kind := be_dec (slice header 0 1) in
          let size := be_dec (slice header 1 3) in
          if len data <? size + 3 then gen_raise (ValueError "truncated TLV value") else
          gen_cons (kind, slice data 3 (size + 3)) (tlvs_fuel f (from data (size + 3)))
      end
  end.

Definition tlvs (data : list byte) : gen (Z * list byte) := tlvs_fuel (length data) data.

Definition message (kind : Z) (data : list byte) : res (list byte) :=
  raise (ValueError "BGP message exceeds 4096 octets") when (4077 <? len data) ;;
  let* n := pack 2 (19 + len data) in
  let* k := pack 1 kind in
  Ok (repeat xff 16 ++ n ++ k ++ data).

Definition open_message (router_id : string) : res (list byte) :=
  let capability := lit [1; 4; 0; 25; 0; 70] in
  let* hdr := bytes1 2 in
  let* n := bytes1 (len capability) in
  let optional := hdr ++ n ++ capability in
  let* rid := ipv4_parse router_id in
  let* a := pack 1 4 in
  let* b := pack 2 65000 in
  let* c := pack 2 30 in
  let* d := pack 1 (len optional) in
  message 1 (a ++ b ++ c ++ be_enc 4 rid ++ d ++ optional).

(** [len(data) < 2 or len(data) < 2+data[1]], the guard of every type-size-value loop. *)
Definition truncated (data : list byte) : res bool :=
  if len data <? 2 then Ok true
  else let* size := byte_at data 1 in Ok (len data <? 2 + size).

(** The inner loop of [read_open] over one capabilities option. *)
Fixpoint read_capabilities (fuel : nat) (value : list byte) (evpn : bool) : res bool :=
  match value, fuel with
  | [], _ => Ok evpn
  | _, O => Err OutOfFuel
  | _, S f =>
      let* _ := raise_if (ValueError "truncated capability") (truncated value) in
      let* (code, size) := unpack_pair (slice value 0 2) in
      let evpn := evpn || ((code =? 1) && beq (slice value 2 (2 + size)) (lit [0; 25; 0; 70])) in
      read_capabilities f (from value (2 + size)) evpn
  end.

(** The outer loop over the optional parameters. *)
Fixpoint read_options (fuel : nat) (options : list byte) (evpn : bool) : res bool :=
  match options, fuel with
  | [], _ => Ok evpn
  | _, O => Err OutOfFuel
  | _, S f =>
      let* _ := raise_if (ValueError "truncated OPEN option") (truncated options) in
      let* (kind, size) := unpack_pair (slice options 0 2) in
      let value := slice options 2 (2 + size) in
      raise (ValueError "unsupported OPEN option") when negb (kind =? 2) ;;
      let* evpn := read_capabilities (length value) value evpn in
      read_options f (from options (2 + size)) evpn
  end.

Definition read_open (data : list byte) : res Z :=
  raise (ValueError "truncated OPEN") when (len data <? 10) ;;
  let* header := unpack 10 (slice data 0 10) in
  let version := be_dec (slice header 0 1) in
  let asn := be_dec (slice header 1 3) in
  let hold := be_dec (slice header 3 5) in
  let size := be_dec (slice header 9 10) in
  raise (ValueError "unsupported BGP version/AS/hold/options") when
    negb (version =? 4) || negb (asn =? 65000) || (hold <? 3) || negb (len data =? 10 + size) ;;
  let options := from data 10 in
  let* evpn := read_options (length options) options false in
  raise (ValueError "peer did not negotiate EVPN") when negb evpn ;;
  Ok (Z.min 30 hold).

(** [struct.pack('!H4sH', 1, IPv4Address(router_id).packed, n)] *)
Definition route_distinguisher (router_id : string) (n : Z) : res (list byte) :=
  let* rid := ipv4_parse router_id in
  let* a := pack 2 1 in
  let* b := pack 2 n in
  Ok (a ++ be_enc 4 rid ++ b).

Definition nlri (router_id prefix : string) : res (list byte) :=
  let* (net, prefixlen) := ipv4_network prefix in
  let* rd := route_distinguisher router_id 100 in
  let* pl := bytes1 prefixlen in
  let value := rd ++ zeros 14 ++ pl ++ be_enc 4 net ++ zeros 4 ++ lit [0; 0; 48] in
  let* k := bytes1 5 in
  let* n := bytes1 (len value) in
  Ok (k ++ n ++ value).

Fixpoint prefixes_fuel (fuel : nat) (data : list byte) : res (list string) :=
  match data, fuel with
  | [], _ => Ok []
  | _, O => Err OutOfFuel
  | _, S f =>
      let* _ := raise_if (ValueError "truncated EVPN NLRI") (truncated data) in
      let* (kind, size) := unpack_pair (slice data 0 2) in
      let v := slice data 2 (2 + size) in
      let rest := from data (2 + size) in
      if negb (kind =? 5) then prefixes_fuel f rest else
      let* _ := raise_if (ValueError "unsupported Type-5 encoding (only IPv4 /32, full SID)")
        (if negb (size =? 34) || negb (beq (slice v 8 22) (zeros 14)) then Ok true else
         let* length := byte_at v 22 in
         Ok (negb (length =? 32) || negb (beq (slice v 27 31) (zeros 4)) || negb (beq (from v 31) (lit [0; 0; 48])))) in
      let* address := packed_address 4 (slice v 23 27) in
      let p := ipv4_str address +:+ "/32" in
      let* ps := prefixes_fuel f rest in
      Ok (p :: ps)
  end.

Definition prefixes (data : list byte) : res (list string) := prefixes_fuel (length data) data.

Definition l2_nlri (router_id : string) (evi : Z) (mac originator : option string) : res (list byte) :=
  let* rd := route_distinguisher router_id evi in
  let* (kind, value) := match mac with
    | Some m =>
        let* mb := fromhex (remove_char colon m) in
        Ok (2, rd ++ zeros 14 ++ lit [48] ++ mb ++ lit [0; 0; 0; 48])
    | None =>
        let* o := or_raise address_error originator in
        let* v := ipv6_parse o in
        Ok (3, rd ++ zeros 4 ++ lit [128] ++ be_enc 16 v)
    end in
  let* k := bytes1 kind in
  let* n := bytes1 (len value) in
  Ok (k ++ n ++ value).

(** What [records] says of one NLRI; the keys a route type has no value for are absent. *)
Record record := Record_ {
  key : string; route_type : Z; evi : Z;
  prefix : option string; mac : option string; originator : option string }.

#[global] Instance record_eq_dec : EqDecision record.
Proof. solve_decision. Defined.

(** The body of the loop of [records]: what one NLRI [raw] of type [kind] adds. *)
Definition nlri_records (kind size : Z) (raw v : list byte) : res (list record) :=
  if kind =? 5 then
    let* ps := prefixes raw in
    Ok (map (fun p => Record_ p 5 100 (Some p) None None) ps)
  else if (kind =? 2) || (kind =? 3) then
    raise (ValueError "unsupported L2 RD") when
      (len v <? 8) || negb (beq (slice v 0 2) (lit [0; 1])) ;;
    let evi := be_dec (slice v 6 8) in
    if kind =? 2 then
      let* _ := raise_if (ValueError "unsupported MAC-only Type-2")
        (if negb (size =? 33) || negb (beq (slice v 8 22) (zeros 14)) then Ok true else
         let* length := byte_at v 22 in
         Ok (negb (length =? 48) || negb (beq (from v 29) (lit [0; 0; 0; 48])))) in
      let m := mac_str (slice v 23 29) in
      Ok [Record_ ("mac:" +:+ pretty evi +:+ ":" +:+ m) 2 evi None (Some m) None]
    else
      raise (ValueError "unsupported Type-3") when
        negb (size =? 29) || negb (beq (slice v 8 13) (zeros 4 ++ lit [128])) ;;
      let* address := packed_address 16 (slice v 13 29) in
      let o := ipv6_str address in
      Ok [Record_ ("imet:" +:+ pretty evi +:+ ":" +:+ o) 3 evi None None (Some o)]
  else Ok [].

Fixpoint records_fuel (fuel : nat) (data : list byte) : res (list record) :=
  match data, fuel with
  | [], _ => Ok []
  | _, O => Err OutOfFuel
  | _, S f =>
      let* _ := raise_if (ValueError "truncated EVPN NLRI") (truncated data) in
      let* (kind, size) := unpack_pair (slice data 0 2) in
      let* found := nlri_records kind size (slice data 0 (2 + size)) (slice data 2 (2 + size)) in
      let* more := records_fuel f (from data (2 + size)) in
      Ok (found ++ more)
  end.

Definition records (data : list byte) : res (list record) := records_fuel (length data) data.

Definition attr (kind : Z) (value : list byte) (flags : Z) : res (list byte) :=
  let* f := pack 1 (Z.lor flags 16) in
  let* k := pack 1 kind in
  let* n := pack 2 (len value) in
  Ok (f ++ k ++ n ++ value).

(** [message(2, b'\x00\x00' + struct.pack('!H', len(attributes)) + attributes)] *)
Definition update_message (attributes : list byte) : res (list byte) :=
  let* n := pack 2 (len attributes) in
  message 2 (lit [0; 0] ++ n ++ attributes).

(** The SRv6 service attribute (40): a reserved byte and one SID information TLV. *)
Definition service_attr (service behavior : Z) (sid : Z) : res (list byte) :=
  let* b := pack 1 0 in
  let* bh := pack 2 behavior in
  let* fl := pack 1 0 in
  let info := lit [0] ++ be_enc 16 sid ++ b ++ bh ++ fl in
  let* it := tlv 1 info in
  let* st := tlv service (lit [0] ++ it) in
  attr 40 st 192.

(** ORIGIN, AS_PATH and LOCAL_PREF, as both builders write them. *)
Definition internal_attrs : res (list byte) :=
  let* a1 := attr 1 (lit [0]) 64 in
  let* a2 := attr 2 [] 64 in
  let* lp := pack 4 100 in
  let* a5 := attr 5 lp 64 in
  Ok (a1 ++ a2 ++ a5).

(** MP_REACH_NLRI with an IPv6 next hop. *)
Definition reach_attr (nexthop : Z) (route : list byte) : res (list byte) :=
  attr 14 (AF ++ lit [16] ++ be_enc 16 nexthop ++ lit [0] ++ route) 128.

Definition l2_update (router_id : string) (evi : Z) (nexthop sid : string)
    (mac : option string) (sequence : Z) (withdraw : bool) : res (list byte) :=
  let* route := l2_nlri router_id evi mac (Some nexthop) in
  if withdraw then
    let* attributes := attr 15 (AF ++ route) 128 in
    update_message attributes
  else
    let* s := ipv6_parse sid in
    let* e := pack 4 evi in
    let* h := pack 2 65000 in
    let* m := match mac with
      | Some "" | None => Ok []
      | Some _ => let* q := pack 4 sequence in Ok (lit [6; 0; 0; 0] ++ q)
      end in
    let communities := lit [0; 2] ++ h ++ e ++ m in
    let* i := internal_attrs in
    let* c := attr 16 communities 192 in
    let* sv := service_attr 6 DX2 s in
    let* nh := ipv6_parse nexthop in
    let* r := reach_attr nh route in
    let* pmsi := match mac with
      | None => attr 22 (lit [0; 6; 0; 0; 48] ++ be_enc 16 nh) 192
      | Some _ => Ok []
      end in
    update_message (i ++ c ++ sv ++ r ++ pmsi).

Definition update (router_id prefix nexthop sid : string) (withdraw : bool) : res (list byte) :=
  let* route := nlri router_id prefix in
  if withdraw then
    let* attributes := attr 15 (AF ++ route) 128 in
    update_message attributes
  else
    let* s := ipv6_parse sid in
    let* i := internal_attrs in
    let* rt := RT in
    let* c := attr 16 rt 192 in
    let* sv := service_attr 5 DX4 s in
    let* nh := ipv6_parse nexthop in
    let* r := reach_attr nh route in
    update_message (i ++ c ++ sv ++ r).

(** The path attribute loop of [read_update]; a repeated attribute is refused. *)
Fixpoint read_attributes (fuel : nat) (data : list byte) (attributes : list (Z * list byte)) : res (list (Z * list byte)) :=
  match data, fuel with
  | [], _ => Ok attributes
  | _, O => Err OutOfFuel
  | _, S f =>
      raise (ValueError "truncated attribute") when (len data <? 3) ;;
      let* (flags, kind) := unpack_pair (slice data 0 2) in
      let n := if negb (Z.land flags 16 =? 0) then 4 else 3 in
      raise (ValueError "truncated attribute length") when (len data <? n) ;;
      let length := be_dec (slice data 2 n) in
      raise (ValueError "invalid or duplicate attribute") when
        (len data <? n + length) || dhas attributes kind ;;
      read_attributes f (from data (n + length)) (dset attributes kind (slice data n (n + length)))
  end.

(** [[l[i:i+8] for i in range(0, len(l), 8)]] *)
Fixpoint chunks8 (fuel : nat) (l : list byte) : list (list byte) :=
  match l, fuel with
  | [], _ => []
  | _, O => []
  | _, S f => slice l 0 8 :: chunks8 f (from l 8)
  end.

(** [next(v for t, v in l if t == k)] *)
Definition first_tlv (k : Z) (l : list (Z * list byte)) : res (list byte) :=
  or_raise StopIteration (snd <$> List.find (fun tv => tv.1 =? k) l).

(** The body of the [try] of [read_update]: the service SID and the extended communities. *)
Definition read_service (attributes : list (Z * list byte)) (announced : list record) (first : record) : res (Z * list (list byte)) :=
  raise (ValueError "not an internal originated route") when
    negb (bool_decide (dget attributes 1 = Some (lit [0]))) || negb (bool_decide (dget attributes 2 = Some []))
    || negb (bool_decide (dget attributes 5 = Some (be_enc 4 100))) ;;
  let communities := default [] (dget attributes 16) in
  raise (ValueError "invalid extended community") when negb (len communities mod 8 =? 0) ;;
  let communities := chunks8 (length communities) communities in
  let evi := evi first in
  raise (ValueError "mixed service UPDATE unsupported") when
    existsb (fun r => negb (r.(Codec.evi) =? evi) || negb (r.(route_type) =? first.(route_type))) announced ;;
  let* e := pack 4 evi in
  raise (ValueError "route target mismatch") when negb (mem (lit [0; 2] ++ be_enc 2 65000 ++ e) communities) ;;
  let l2 := (first.(route_type) =? 2) || (first.(route_type) =? 3) in
  let* services := gen_list (tlvs (default [] (dget attributes 40))) in
  let* service := first_tlv (if l2 then 6 else 5) services in
  raise (ValueError "missing service reserved byte") when bool_decide (service = []) ;;
  let* information := gen_list (tlvs (from service 1)) in
  let* info := first_tlv 1 information in
  raise (ValueError "unsupported SID structure or behavior") when
    negb (len info =? 21) || negb (be_dec (slice info 18 20) =? if l2 then DX2 else DX4) ;;
  let* sid := packed_address 16 (slice info 1 17) in
  raise (ValueError "invalid service SID") when is_multicast sid || is_unspecified sid ;;
  Ok (sid, communities).

(** What [read_update] announces for one record. *)
Record route := Route {
  rec : record; sid : string; nexthop : string; behavior : string;
  route_target : string; sequence : Z }.

#[global] Instance route_eq_dec : EqDecision route.
Proof. solve_decision. Defined.

Definition keys_of (l : list record) : list string := map key l.

(** The MAC mobility sequence numbers among the communities. *)
Definition mobility (communities : list (list byte)) : Z :=
  fold_left Z.max (map (fun c => be_dec (from c 4))
    (List.filter (fun c => beq (slice c 0 4) (lit [6; 0; 0; 0])) communities)) 0.

(** [read_update] once the attributes are split. *)
Definition read_routes (attributes : list (Z * list byte)) : res (list route * list string) :=
  let* withdrawn := match dget attributes 15 with
    | Some a =>
        raise (ValueError "wrong MP_UNREACH family") when negb (beq (slice a 0 3) AF) ;;
        let* rs := records (from a 3) in
        Ok (keys_of rs)
    | None => Ok []
    end in
  match dget attributes 14 with
  | None => Ok ([], withdrawn)
  | Some reach =>
      raise (ValueError "EVPN SRv6 needs an IPv6 next hop") when
        (len reach <? 21) || negb (beq (slice reach 0 4) (AF ++ lit [16])) ;;
      let* announced := records (from reach 21) in
      match announced with
      | [] => Ok ([], withdrawn)
      | first :: _ =>
          match read_service attributes announced first with
          | Err (ValueError _) | Err StopIteration => Ok ([], withdrawn ++ keys_of announced)
          | Err e => Err e
          | Ok (sid, communities) =>
              let* hop := packed_address 16 (slice reach 4 20) in
              let nh := ipv6_str hop in
              let* nhv := ipv6_parse nh in
              if (first.(route_type) =? 3)
                 && (negb (bool_decide (dget attributes 22 = Some (lit [0; 6; 0; 0; 48] ++ be_enc 16 nhv)))
                     || existsb (fun r => negb (bool_decide (r.(originator) = Some nh))) announced)
              then Ok ([], withdrawn ++ keys_of announced)
              else
                let l2 := (first.(route_type) =? 2) || (first.(route_type) =? 3) in
                Ok (map (fun r => Route r (ipv6_str sid) nh (if l2 then "End.DX2" else "End.DX4")
                                     ("65000:" +:+ pretty first.(evi)) (mobility communities)) announced,
                    withdrawn)
          end
      end
  end.

Definition read_update (data : list byte) : res (list route * list string) :=
  raise (ValueError "invalid EVPN UPDATE") when
    (len data <? 4) || negb (beq (slice data 0 2) (lit [0; 0])) ;;
  let size := be_dec (slice data 2 4) in
  raise (ValueError "invalid path attributes length") when negb (len data =? size + 4) ;;
  let body := from data 4 in
  let* attributes := read_attributes (length body) body [] in
  read_routes attributes.

(** ** Reads in range

    The indexing and unpacking of the loops raise outside their buffer; behind the guards of the
    code they are the slices the buffer holds, which the lemmas of this section say loop by loop. *)

Lemma byte_at_slice data i :
  0 <= i < len data -> byte_at data i = Ok (be_dec (slice data i (i + 1))).
Proof.
  unfold byte_at, slice, len. intros H. replace (Z.to_nat (i + 1 - i)) with 1%nat by lia.
  rewrite <- (Nat.add_0_r (Z.to_nat i)) at 1. rewrite <- lookup_drop.
  assert (0 < length (drop (Z.to_nat i) data))%nat as Hl by (rewrite length_drop; lia).
  destruct (drop (Z.to_nat i) data) as [|b l]; [simpl in Hl; lia|]. done.
Qed.

Lemma unpack_pair_slice data :
  2 <= len data -> unpack_pair (slice data 0 2) = Ok (be_dec (slice data 0 1), be_dec (slice data 1 2)).
Proof. destruct data as [|a [|b l]]; unfold len; simpl; try lia. done. Qed.

Lemma packed_address_slice n data a b :
  0 <= a -> a <= b <= len data -> b - a = n -> packed_address n (slice data a b) = Ok (be_dec (slice data a b)).
Proof. intros. unfold packed_address. rewrite len_slice by lia. by replace (b - a =? n) with true by (symmetry; lia). Qed.

Lemma slice_byte data i c :
  0 <= i < len data -> 0 <= c < 256 -> beq (slice data i (i + 1)) (lit [c]) = (be_dec (slice data i (i + 1)) =? c).
Proof.
  intros Hi Hc. assert (len (slice data i (i + 1)) = 1) as Hl by (rewrite len_slice; lia).
  destruct (slice data i (i + 1)) as [|b [|]]; unfold len in Hl; simpl in Hl; try lia.
  unfold beq, be_dec, lit. cbn [map fold_left]. apply Bool.eq_iff_eq_true. rewrite bool_decide_eq_true, Z.eqb_eq.
  rewrite Z.add_0_l. split.
  - intros [= ->]. by apply u8_byte_of_small.
  - intros <-. by rewrite byte_of_u8.
Qed.

(** A header of two bytes, guarded as every loop guards it. *)
Lemma header_read {B} e data (k : Z * Z -> res B) :
  (let* _ := raise_if e (truncated data) in mbind k (unpack_pair (slice data 0 2))) =
  raise e when (len data <? 2) || (len data <? 2 + be_dec (slice data 1 2)) ;;
  k (be_dec (slice data 0 1), be_dec (slice data 1 2)).
Proof.
  unfold truncated. destruct (len data <? 2) eqn:E; [done|]. bool_to_prop.
  rewrite (byte_at_slice data 1) by lia. simpl_res. change (1 + 1) with 2.
  destruct (len data <? 2 + be_dec (slice data 1 2)); [done|]. by rewrite unpack_pair_slice by lia.
Qed.

Lemma tlvs_fuel_S f data : data <> [] ->
  tlvs_fuel (S f) data =
  if len data <? 3 then gen_raise (ValueError "truncated TLV header") else
  let kind := be_dec (slice data 0 1) in
  let size := be_dec (slice data 1 3) in
  if len data <? size + 3 then gen_raise (ValueError "truncated TLV value") else
  gen_cons (kind, slice data 3 (size + 3)) (tlvs_fuel f (from data (size + 3))).
Proof.
  intros Hd. destruct data as [|a [|b [|c data]]]; [done|done|done|].
  cbn [tlvs_fuel]. destruct (len _ <? 3) eqn:E; [done|]. reflexivity.
Qed.

Lemma read_attributes_S f data attributes : data <> [] ->
  read_attributes (S f) data attributes =
  raise (ValueError "truncated attribute") when (len data <? 3) ;;
  let flags := be_dec (slice data 0 1) in
  let kind := be_dec (slice data 1 2) in
  let n := if negb (Z.land flags 16 =? 0) then 4 else 3 in
  raise (ValueError "truncated attribute length") when (len data <? n) ;;
  let length := be_dec (slice data 2 n) in
  raise (ValueError "invalid or duplicate attribute") when
    (len data <? n + length) || dhas attributes kind ;;
  read_attributes f (from data (n + length)) (dset attributes kind (slice data n (n + length))).
Proof.
  intros Hd. destruct data as [|b data]; [done|]. cbn [read_attributes]. split_guard.
  bool_to_prop. by rewrite unpack_pair_slice by lia.
Qed.

Lemma prefixes_fuel_S f data : data <> [] ->
  prefixes_fuel (S f) data =
  raise (ValueError "truncated EVPN NLRI") when
    (len data <? 2) || (len data <? 2 + be_dec (slice data 1 2)) ;;
  let kind := be_dec (slice data 0 1) in
  let size := be_dec (slice data 1 2) in
  let v := slice data 2 (2 + size) in
  let rest := from data (2 + size) in
  if negb (kind =? 5) then prefixes_fuel f rest else
  raise (ValueError "unsupported Type-5 encoding (only IPv4 /32, full SID)") when
    negb (size =? 34) || negb (beq (slice v 8 22) (zeros 14)) || negb (beq (slice v 22 23) (lit [32]))
    || negb (beq (slice v 27 31) (zeros 4)) || negb (beq (from v 31) (lit [0; 0; 48])) ;;
  let p := ipv4_str (be_dec (slice v 23 27)) +:+ "/32" in
  let* ps := prefixes_fuel f rest in
  Ok (p :: ps).
Proof.
  intros Hd. destruct data as [|b data]; [done|]. cbn [prefixes_fuel]. rewrite header_read.
  destruct (_ || _) eqn:E; [done|]. cbv zeta. bool_to_prop. destruct (negb _); [done|].
  destruct (be_dec (slice (b :: data) 1 2) =? 34) eqn:E34; [|done]. bool_to_prop. rewrite E34.
  set (v := slice (b :: data) 2 (2 + 34)).
  assert (len v = 34) as Hv by (subst v; rewrite len_slice; lia). cbn [negb orb].
  destruct (beq (slice v 8 22) (zeros 14)); [|done]. cbn [negb orb].
  rewrite (byte_at_slice v 22) by lia. change (22 + 1) with 23. simpl_res.
  pose proof (slice_byte v 22 32) as Hb. change (22 + 1) with 23 in Hb. cbn [lit map] in Hb. rewrite Hb by lia. destruct (_ || _ || _); [done|].
  by rewrite packed_address_slice by lia.
Qed.

Lemma records_fuel_S f data : data <> [] ->
  records_fuel (S f) data =
  raise (ValueError "truncated EVPN NLRI") when
    (len data <? 2) || (len data <? 2 + be_dec (slice data 1 2)) ;;
  let kind := be_dec (slice data 0 1) in
  let size := be_dec (slice data 1 2) in
  let* found := nlri_records kind size (slice data 0 (2 + size)) (slice data 2 (2 + size)) in
  let* more := records_fuel f (from data (2 + size)) in
  Ok (found ++ more).
Proof. intros Hd. destruct data as [|b data]; [done|]. cbn [records_fuel]. by rewrite header_read. Qed.

(** ** Type-length-value sequences *)

Lemma tlv_Ok kind value bs :
  tlv kind value = Ok bs <->
  0 <= kind < 256 /\ len value < 65536 /\ bs = be_enc 1 kind ++ be_enc 2 (len value) ++ value.
Proof.
  unfold tlv. rewrite bind_Ok. setoid_rewrite bind_Ok. setoid_rewrite pack_Ok.
  pose proof (len_nonneg value). split.
  - intros (k & [Hk ->] & n & [Hn ->] & [= <-]). simpl in *. split_and!; done || lia.
  - intros (Hk & Hn & ->). exists (be_enc 1 kind). split; [done|].
    exists (be_enc 2 (len value)). done.
Qed.

Lemma tlvs_fuel_step f kind value rest :
  0 <= kind < 256 -> len value < 65536 ->
  tlvs_fuel (S f) (be_enc 1 kind ++ be_enc 2 (len value) ++ value ++ rest)
  = gen_cons (kind, value) (tlvs_fuel f rest).
Proof.
  intros Hk Hn. pose proof (len_nonneg value) as H0. pose proof (len_nonneg rest) as H1.
  set (data := be_enc 1 kind ++ be_enc 2 (len value) ++ value ++ rest).
  assert (len data = 3 + len value + len rest) as Hlen
    by (subst data; autorewrite with starfabric; lia).
  assert (slice data 0 1 = be_enc 1 kind) as Hs1 by (apply slice_app; done).
  assert (slice data 1 3 = be_enc 2 (len value)) as Hs2 by (apply slice_at; done).
  assert (slice data 3 (len value + 3) = value) as Hs3.
  { subst data. rewrite (app_assoc (be_enc 1 _)). apply slice_at; [done|lia]. }
  assert (from data (len value + 3) = rest) as Hf.
  { subst data. rewrite !app_assoc, <- app_assoc. rewrite app_assoc. apply from_at.
    autorewrite with starfabric. lia. }
  rewrite tlvs_fuel_S by done. cbv zeta.
  destruct (len data <? 3) eqn:E; bool_to_prop; [lia|].
  rewrite Hs1, Hs2, !be_dec_enc by (simpl; lia). cbv zeta.
  destruct (len data <? len value + 3) eqn:E'; bool_to_prop; [lia|]. by rewrite Hs3, Hf.
Qed.

(** The fuel is never exhausted: each turn consumes the three bytes of a header. *)
Lemma tlvs_fuel_enough f1 f2 data :
  (length data <= f1)%nat -> (length data <= f2)%nat -> tlvs_fuel f1 data = tlvs_fuel f2 data.
Proof.
  revert f2 data. induction f1 as [|f1 IH]; intros f2 data H1 H2.
  - destruct data; [by destruct f2|simpl in *; lia].
  - destruct data as [|b data]; [by destruct f2|]. destruct f2 as [|f2]; [simpl in *; lia|].
    rewrite !tlvs_fuel_S by done. cbv zeta. do 2 (case_match; [done|]). f_equal. apply IH.
    all: unfold from; rewrite length_drop; simpl in *;
      pose proof (be_dec_bound (slice (b :: data) 1 3)); lia.
Qed.

Lemma tlvs_cons kind value rest bs :
  tlv kind value = Ok bs -> tlvs (bs ++ rest) = gen_cons (kind, value) (tlvs rest).
Proof.
  rewrite tlv_Ok. intros (Hk & Hn & ->). unfold tlvs. rewrite <- !app_assoc.
  rewrite (tlvs_fuel_enough _ (S (length rest + length value + 3))).
  - rewrite tlvs_fuel_step by done. f_equal. apply tlvs_fuel_enough; lia.
  - done.
  - rewrite !length_app, !length_be_enc. lia.
Qed.

Lemma tlvs_one kind value bs : tlv kind value = Ok bs -> tlvs bs = Gen [(kind, value)] None.
Proof. intros H. rewrite <- (app_nil_r bs). by rewrite (tlvs_cons _ _ [] _ H). Qed.

(** [list(tlvs(b''.join(tlv(k, v) for k, v in items)))] is [items]: whatever the
    encoder accepts, the generator yields back, in order, and ends cleanly. *)
Lemma tlvs_roundtrip (items : list (Z * list byte)) (parts : list (list byte)) :
  mapM_res (fun kv => tlv kv.1 kv.2) items = Ok parts ->
  gen_list (tlvs (concat parts)) = Ok items.
Proof.
  rewrite mapM_res_Ok. intros H. unfold gen_list.
  assert (tlvs (concat parts) = Gen items None) as ->; [|done].
  induction H as [|[k v] bs items parts Hb _ IH]; [done|]. simpl.
  by rewrite (tlvs_cons k v _ _ Hb), IH.
Qed.

Lemma tlvs_roundtrip_witness :
  gen_list (tlvs (lit [1; 0; 2; 7; 8] ++ lit [9; 0; 0])) = Ok [(1, lit [7; 8]); (9, [])].
Proof. apply (tlvs_roundtrip [(1, lit [7; 8]); (9, [])] [lit [1; 0; 2; 7; 8]; lit [9; 0; 0]]). reflexivity. Defined.

(** ** Path attributes *)

Lemma attr_Ok kind value flags bs :
  attr kind value flags = Ok bs <->
  0 <= Z.lor flags 16 < 256 /\ 0 <= kind < 256 /\ len value < 65536 /\
  bs = be_enc 1 (Z.lor flags 16) ++ be_enc 1 kind ++ be_enc 2 (len value) ++ value.
Proof.
  unfold attr. rewrite bind_Ok. setoid_rewrite bind_Ok. setoid_rewrite bind_Ok.
  setoid_rewrite pack_Ok. pose proof (len_nonneg value). split.
  - intros (f & [Hf ->] & k & [Hk ->] & n & [Hn ->] & [= <-]). simpl in *. split_and!; done || lia.
  - intros (Hf & Hk & Hn & ->). exists (be_enc 1 (Z.lor flags 16)). split; [done|].
    exists (be_enc 1 kind). split; [done|]. exists (be_enc 2 (len value)). done.
Qed.

Lemma extended_flag flags : 0 <= Z.lor flags 16 < 256 -> negb (Z.land (Z.lor flags 16) 16 =? 0) = true.
Proof.
  intros _. rewrite Z.land_lor_distr_l. apply negb_true_iff, Z.eqb_neq. intros H.
  apply Z.lor_eq_0_iff in H as [_ H]. done.
Qed.

Lemma attr_step f kind value flags bs rest acc :
  attr kind value flags = Ok bs -> dhas acc kind = false ->
  read_attributes (S f) (bs ++ rest) acc = read_attributes f rest (dset acc kind value).
Proof.
  rewrite attr_Ok. intros (Hf & Hk & Hn & ->) Hacc.
  pose proof (len_nonneg value) as H0. pose proof (len_nonneg rest) as H1.
  rewrite <- !app_assoc. set (fl := Z.lor flags 16) in *.
  set (data := be_enc 1 fl ++ be_enc 1 kind ++ be_enc 2 (len value) ++ value ++ rest).
  assert (len data = 4 + len value + len rest) as Hlen
    by (subst data; autorewrite with starfabric; lia).
  assert (slice data 0 1 = be_enc 1 fl) as Hs0 by (apply slice_app; done).
  assert (slice data 1 2 = be_enc 1 kind) as Hs1 by (apply slice_at; done).
  assert (slice data 2 4 = be_enc 2 (len value)) as Hs2
    by (subst data; rewrite (app_assoc (be_enc 1 fl)); apply slice_at; done).
  assert (slice data 4 (4 + len value) = value) as Hs3.
  { subst data. rewrite (app_assoc (be_enc 1 fl)), (app_assoc (_ ++ _)). apply slice_at; done || lia. }
  assert (from data (4 + len value) = rest) as Hfr.
  { subst data. rewrite !app_assoc. apply from_at. autorewrite with starfabric. lia. }
  rewrite read_attributes_S by done. cbv zeta.
  destruct (len data <? 3) eqn:E; bool_to_prop; [lia|].
  rewrite Hs0, Hs1, !be_dec_enc by (simpl; lia). cbv zeta.
  pose proof (extended_flag flags Hf) as Hx. fold fl in Hx. rewrite Hx.
  destruct (len data <? 4) eqn:E1; bool_to_prop; [lia|].
  rewrite Hs2, be_dec_enc by (simpl; lia). rewrite Hacc, orb_false_r.
  destruct (len data <? 4 + len value) eqn:E2; bool_to_prop; [lia|]. by rewrite Hs3, Hfr.
Qed.

(** Each turn consumes the header of an attribute, so the fuel is enough. *)
Lemma read_attributes_enough f1 f2 data acc :
  (length data <= f1)%nat -> (length data <= f2)%nat ->
  read_attributes f1 data acc = read_attributes f2 data acc.
Proof.
  revert f2 data acc. induction f1 as [|f1 IH]; intros f2 data acc H1 H2.
  - destruct data; [by destruct f2|simpl in *; lia].
  - destruct data as [|b data]; [by destruct f2|]. destruct f2 as [|f2]; [simpl in *; lia|].
    rewrite !read_attributes_S by done. cbv zeta. do 3 split_guard. apply IH.
    all: unfold from; rewrite length_drop; simpl in *;
      destruct (negb (Z.land (be_dec (slice (b :: data) 0 1)) 16 =? 0));
      match goal with |- context [be_dec ?l] => pose proof (be_dec_bound l) end; lia.
Qed.

(** A path attribute list, read as [read_update] reads it. *)
Definition attributes_of (data : list byte) : list (Z * list byte) -> res (list (Z * list byte)) :=
  read_attributes (length data) data.

Lemma attributes_of_nil acc : attributes_of [] acc = Ok acc.
Proof. done. Qed.

Lemma attributes_of_cons kind value flags bs rest acc :
  attr kind value flags = Ok bs -> dhas acc kind = false ->
  attributes_of (bs ++ rest) acc = attributes_of rest (dset acc kind value).
Proof.
  intros Hb Hacc. unfold attributes_of.
  rewrite (read_attributes_enough _ (S (length bs + length rest))) by (rewrite length_app; lia).
  rewrite (attr_step _ _ _ _ _ _ _ Hb Hacc). apply read_attributes_enough; lia.
Qed.

(** [read_attributes] never runs out of fuel, keeps its keys distinct, and every
    attribute it reports is a slice of what it read. *)
Lemma read_attributes_ok f data acc atts :
  d_ok acc -> read_attributes f data acc = Ok atts -> d_ok atts.
Proof.
  revert data acc. induction f as [|f IH]; intros data acc Hacc; destruct data as [|b data]; try done.
  - by intros [= <-].
  - by intros [= <-].
  - rewrite read_attributes_S by done. cbv zeta. do 3 split_guard. apply IH. auto with starfabric.
Qed.

(** ** Records *)

Lemma prefixes_fuel_enough f1 f2 data :
  (length data <= f1)%nat -> (length data <= f2)%nat -> prefixes_fuel f1 data = prefixes_fuel f2 data.
Proof.
  revert f2 data. induction f1 as [|f1 IH]; intros f2 data H1 H2.
  - destruct data; [by destruct f2|simpl in *; lia].
  - destruct data as [|b data]; [by destruct f2|]. destruct f2 as [|f2]; [simpl in *; lia|].
    rewrite !prefixes_fuel_S by done. cbv zeta. case_match; [done|].
    rewrite (IH f2); [done|..]; unfold from; rewrite length_drop; simpl in *;
      pose proof (be_dec_bound (slice (b :: data) 1 2)); lia.
Qed.

Lemma records_fuel_enough f1 f2 data :
  (length data <= f1)%nat -> (length data <= f2)%nat -> records_fuel f1 data = records_fuel f2 data.
Proof.
  revert f2 data. induction f1 as [|f1 IH]; intros f2 data H1 H2.
  - destruct data; [by destruct f2|simpl in *; lia].
  - destruct data as [|b data]; [by destruct f2|]. destruct f2 as [|f2]; [simpl in *; lia|].
    rewrite !records_fuel_S by done. cbv zeta. case_match; [done|].
    rewrite (IH f2); [done|..]; unfold from; rewrite length_drop; simpl in *;
      pose proof (be_dec_bound (slice (b :: data) 1 2)); lia.
Qed.

(** A header of two bytes, the type and the size, then the value. *)
Lemma nlri_frame kind v rest :
  0 <= kind < 256 -> len v < 256 ->
  let data := be_enc 1 kind ++ be_enc 1 (len v) ++ v ++ rest in
  be_dec (slice data 0 1) = kind /\ be_dec (slice data 1 2) = len v /\
  slice data 0 (2 + len v) = be_enc 1 kind ++ be_enc 1 (len v) ++ v /\
  slice data 2 (2 + len v) = v /\ from data (2 + len v) = rest /\
  (len data <? 2) || (len data <? 2 + len v) = false.
Proof.
  intros Hk Hn data. pose proof (len_nonneg v) as H0. pose proof (len_nonneg rest) as H1.
  assert (len data = 2 + len v + len rest) as Hlen
    by (subst data; autorewrite with starfabric; lia). split_and!.
  - subst data. rewrite slice_app by done. by rewrite be_dec_enc.
  - subst data. rewrite (slice_at (be_enc 1 kind)) by done. rewrite be_dec_enc by (simpl; lia). done.
  - subst data. rewrite (app_assoc (be_enc 1 (len v))), (app_assoc (be_enc 1 kind)).
    rewrite slice_app; [done|]. autorewrite with starfabric. lia.
  - subst data. rewrite (app_assoc (be_enc 1 kind)). apply slice_at; done.
  - subst data. rewrite !app_assoc. apply from_at. autorewrite with starfabric. lia.
  - apply orb_false_iff. split; apply Z.ltb_ge; lia.
Qed.

Lemma records_cons kind v rest :
  0 <= kind < 256 -> len v < 256 ->
  records (be_enc 1 kind ++ be_enc 1 (len v) ++ v ++ rest) =
  let* found := nlri_records kind (len v) (be_enc 1 kind ++ be_enc 1 (len v) ++ v) v in
  let* more := records rest in Ok (found ++ more).
Proof.
  intros Hk Hn. destruct (nlri_frame kind v rest Hk Hn) as (Hk' & Hs & Hraw & Hv & Hr & Hlen).
  unfold records. set (data := be_enc 1 kind ++ be_enc 1 (len v) ++ v ++ rest) in *.
  rewrite (records_fuel_enough _ (S (length rest + length v + 2))).
  - rewrite records_fuel_S by done. cbv zeta. rewrite Hk', Hs, Hlen, Hraw, Hv, Hr.
    by rewrite (records_fuel_enough _ (length rest) rest) by lia.
  - done.
  - subst data. rewrite !length_app, !length_be_enc. lia.
Qed.

Lemma prefixes_one v :
  len v < 256 ->
  prefixes (be_enc 1 5 ++ be_enc 1 (len v) ++ v) =
  raise (ValueError "unsupported Type-5 encoding (only IPv4 /32, full SID)") when
    negb (len v =? 34) || negb (beq (slice v 8 22) (zeros 14)) || negb (beq (slice v 22 23) (lit [32]))
    || negb (beq (slice v 27 31) (zeros 4)) || negb (beq (from v 31) (lit [0; 0; 48])) ;;
  Ok [ipv4_str (be_dec (slice v 23 27)) +:+ "/32"].
Proof.
  intros Hn. destruct (nlri_frame 5 v [] ltac:(lia) Hn) as (Hk & Hs & _ & Hv & Hr & Hlen).
  rewrite app_nil_r in *. unfold prefixes.
  set (data := be_enc 1 5 ++ be_enc 1 (len v) ++ v) in *.
  assert (exists f, length data = S f) as [f ->] by (subst data; by eexists).
  rewrite prefixes_fuel_S by done. cbv zeta. rewrite Hk, Hs, Hlen, Hv, Hr. simpl (negb (5 =? 5)). case_match; [done|].
  by destruct f.
Qed.

(** ** Frames the builders write *)

Lemma rd_Ok rid n : 0 <= rid < 2 ^ 32 -> 0 <= n < 65536 ->
  route_distinguisher (ipv4_str rid) n = Ok (be_enc 2 1 ++ be_enc 4 rid ++ be_enc 2 n).
Proof.
  intros Hr Hn. unfold route_distinguisher. rewrite ipv4_parse_str by done. simpl_res.
  by rewrite pack_small.
Qed.

(** The value of the three NLRI encodings. *)
Definition nlri5 (rid p : Z) : list byte :=
  (be_enc 2 1 ++ be_enc 4 rid ++ be_enc 2 100) ++ zeros 14 ++ [byte_of 32] ++ be_enc 4 p ++ zeros 4 ++ lit [0; 0; 48].
Definition nlri2 (rid e : Z) (m : list byte) : list byte :=
  (be_enc 2 1 ++ be_enc 4 rid ++ be_enc 2 e) ++ zeros 14 ++ lit [48] ++ m ++ lit [0; 0; 0; 48].
Definition nlri3 (rid e o : Z) : list byte :=
  (be_enc 2 1 ++ be_enc 4 rid ++ be_enc 2 e) ++ zeros 4 ++ lit [128] ++ be_enc 16 o.

Lemma nlri_Ok rid p : 0 <= rid < 2 ^ 32 -> 0 <= p < 2 ^ 32 ->
  nlri (ipv4_str rid) (ipv4_str p +:+ "/32") = Ok (be_enc 1 5 ++ be_enc 1 (len (nlri5 rid p)) ++ nlri5 rid p ++ []).
Proof.
  intros Hr Hp. unfold nlri. rewrite ipv4_network_host by done.
  unfold mbind at 1, res_bind at 1. rewrite rd_Ok by (done || lia). rewrite app_nil_r. reflexivity.
Qed.

Lemma l2_nlri_mac rid e m o : 0 <= rid < 2 ^ 32 -> 0 <= e < 65536 -> length m = 6%nat ->
  l2_nlri (ipv4_str rid) e (Some (mac_str m)) o
  = Ok (be_enc 1 2 ++ be_enc 1 (len (nlri2 rid e m)) ++ nlri2 rid e m ++ []).
Proof.
  intros Hr He Hm. unfold l2_nlri. rewrite rd_Ok by done. simpl_res.
  rewrite fromhex_mac_str by (by destruct m). explode m Hm. reflexivity.
Qed.

Lemma l2_nlri_imet rid e o : 0 <= rid < 2 ^ 32 -> 0 <= e < 65536 -> 0 <= o < 2 ^ 128 ->
  l2_nlri (ipv4_str rid) e None (Some (ipv6_str o))
  = Ok (be_enc 1 3 ++ be_enc 1 (len (nlri3 rid e o)) ++ nlri3 rid e o ++ []).
Proof.
  intros Hr He Ho. unfold l2_nlri. rewrite rd_Ok by done. simpl_res.
  rewrite ipv6_parse_str by done. reflexivity.
Qed.

Lemma records_nlri5 rid p : 0 <= p < 2 ^ 32 ->
  records (be_enc 1 5 ++ be_enc 1 (len (nlri5 rid p)) ++ nlri5 rid p ++ []) =
  Ok [Record_ (ipv4_str p +:+ "/32") 5 100 (Some (ipv4_str p +:+ "/32")) None None].
Proof.
  intros Hp. rewrite records_cons by done. unfold nlri_records. simpl (5 =? 5).
  rewrite prefixes_one by done. unfold mbind, res_bind.
  assert (slice (nlri5 rid p) 23 27 = be_enc 4 p) as -> by reflexivity.
  rewrite be_dec_enc by done. reflexivity.
Qed.

Lemma records_nlri2 rid e m : 0 <= e < 65536 -> length m = 6%nat ->
  records (be_enc 1 2 ++ be_enc 1 (len (nlri2 rid e m)) ++ nlri2 rid e m ++ []) =
  Ok [Record_ ("mac:" +:+ pretty e +:+ ":" +:+ mac_str m) 2 e None (Some (mac_str m)) None].
Proof.
  intros He Hm. assert (be_dec (be_enc 2 e) = e) as Hd by (by apply be_dec_enc).
  explode m Hm. rewrite records_cons by done. unfold nlri_records.
  change (slice (nlri2 rid e _) 6 8) with (be_enc 2 e). rewrite Hd. reflexivity.
Qed.

Lemma records_nlri3 rid e o : 0 <= e < 65536 -> 0 <= o < 2 ^ 128 ->
  records (be_enc 1 3 ++ be_enc 1 (len (nlri3 rid e o)) ++ nlri3 rid e o ++ []) =
  Ok [Record_ ("imet:" +:+ pretty e +:+ ":" +:+ ipv6_str o) 3 e None None (Some (ipv6_str o))].
Proof.
  intros He Ho. assert (be_dec (be_enc 2 e) = e) as Hd by (by apply be_dec_enc).
  assert (be_dec (be_enc 16 o) = o) as Hd' by (by apply be_dec_enc).
  rewrite records_cons by done. unfold nlri_records.
  change (slice (nlri3 rid e o) 6 8) with (be_enc 2 e). rewrite Hd.
  change (packed_address 16 (slice (nlri3 rid e o) 13 29)) with (Ok (be_dec (be_enc 16 o))). rewrite Hd'. reflexivity.
Qed.

(** The SID information and the service TLV of [service_attr]. *)
Definition sid_info (behavior s : Z) : list byte :=
  lit [0] ++ be_enc 16 s ++ be_enc 1 0 ++ be_enc 2 behavior ++ be_enc 1 0.
Definition service_value (service behavior s : Z) : list byte :=
  be_enc 1 service ++ be_enc 2 25 ++ lit [0] ++ be_enc 1 1 ++ be_enc 2 21 ++ sid_info behavior s.

Lemma service_attr_Ok service behavior s :
  0 <= service < 256 -> 0 <= behavior < 65536 ->
  service_attr service behavior s = attr 40 (service_value service behavior s) 192.
Proof.
  intros Hs Hb. unfold service_attr. rewrite (pack_small 2 behavior) by done.
  unfold mbind, res_bind. change (pack 1 0) with (@Ok (list byte) (be_enc 1 0)). cbv iota beta zeta.
  change (tlv 1 _) with (@Ok (list byte) (be_enc 1 1 ++ be_enc 2 21 ++ sid_info behavior s)).
  cbv iota beta. unfold tlv at 1. rewrite (pack_small 1 service) by done. reflexivity.
Qed.

(** An UPDATE whose attributes fit the message, and how [read_update] opens it. *)
Lemma update_message_Ok a : len a <= 4073 ->
  exists m, update_message a = Ok m /\ read_update (from m 19) =
    let* atts := attributes_of a [] in read_routes atts.
Proof.
  intros Ha. pose proof (len_nonneg a) as H0. unfold update_message, message.
  rewrite (pack_small 2 (len a)) by (simpl; lia). unfold mbind at 1, res_bind at 1.
  destruct (4077 <? len (lit [0; 0] ++ be_enc 2 (len a) ++ a)) eqn:E; bool_to_prop.
  { rewrite !len_app, len_be_enc in E. change (len (lit [0; 0])) with 2 in E. lia. }
  rewrite (pack_small 2 (19 + len (lit [0; 0] ++ be_enc 2 (len a) ++ a)))
    by (rewrite !len_app, len_be_enc in *; change (len (lit [0; 0])) with 2 in *; simpl; lia).
  unfold mbind at 1, res_bind at 1. change (pack 1 2) with (@Ok (list byte) (be_enc 1 2)).
  unfold mbind at 1, res_bind at 1. eexists. split; [done|].
  assert (from (repeat xff 16 ++ be_enc 2 (19 + len (lit [0; 0] ++ be_enc 2 (len a) ++ a)) ++ be_enc 1 2
     ++ lit [0; 0] ++ be_enc 2 (len a) ++ a) 19 = lit [0; 0] ++ be_enc 2 (len a) ++ a) as -> by reflexivity.
  unfold read_update. set (data := lit [0; 0] ++ be_enc 2 (len a) ++ a).
  assert (len data = 4 + len a) as Hlen by (subst data; rewrite !len_app, len_be_enc; done || (change (len (lit [0; 0])) with 2; lia)).
  assert (slice data 2 4 = be_enc 2 (len a)) as -> by reflexivity.
  assert (from data 4 = a) as -> by reflexivity.
  assert (slice data 0 2 = lit [0; 0]) as -> by reflexivity.
  rewrite be_dec_enc by (simpl; lia).
  destruct (len data <? 4) eqn:E4; bool_to_prop; [lia|]. rewrite beq_refl. simpl orb.
  destruct (len data =? len a + 4) eqn:E5; bool_to_prop; [done|lia].
Qed.

Lemma internal_attrs_Ok : exists i, internal_attrs = Ok i /\ len i = 17 /\
  forall rest, attributes_of (i ++ rest) [] = attributes_of rest [(1, lit [0]); (2, []); (5, be_enc 4 100)].
Proof.
  unfold internal_attrs.
  destruct (attr 1 (lit [0]) 64) as [a1|] eqn:E1; [|done].
  destruct (attr 2 [] 64) as [a2|] eqn:E2; [|done].
  change (pack 4 100) with (@Ok (list byte) (be_enc 4 100)). unfold mbind, res_bind.
  destruct (attr 5 (be_enc 4 100) 64) as [a5|] eqn:E5; [|done].
  eexists. split; [done|]. split.
  { apply attr_Ok in E1, E2, E5. destruct E1 as (_ & _ & _ & ->), E2 as (_ & _ & _ & ->), E5 as (_ & _ & _ & ->). done. }
  intros rest. rewrite <- !app_assoc.
  by rewrite (attributes_of_cons _ _ _ _ _ _ E1), (attributes_of_cons _ _ _ _ _ _ E2), (attributes_of_cons _ _ _ _ _ _ E5).
Qed.

Lemma attr_small kind value flags :
  0 <= Z.lor flags 16 < 256 -> 0 <= kind < 256 -> len value < 65536 ->
  exists bs, attr kind value flags = Ok bs /\ len bs = 4 + len value.
Proof.
  intros Hf Hk Hv. eexists. split; [by apply attr_Ok|]. autorewrite with starfabric. lia.
Qed.

Lemma first_tlv_hd k v l : first_tlv k ((k, v) :: l) = Ok v.
Proof. unfold first_tlv. simpl. by rewrite Z.eqb_refl. Qed.

(** The service of a well-formed announcement is read back. *)
Lemma read_service_Ok atts announced first comm s :
  let l2 := (route_type first =? 2) || (route_type first =? 3) in
  dget atts 1 = Some (lit [0]) -> dget atts 2 = Some [] -> dget atts 5 = Some (be_enc 4 100) ->
  dget atts 16 = Some comm -> len comm mod 8 = 0 -> 0 <= evi first < 65536 ->
  lit [0; 2] ++ be_enc 2 65000 ++ be_enc 4 (evi first) ∈ chunks8 (length comm) comm ->
  announced = [first] -> 0 <= s < 2 ^ 128 -> is_multicast s = false -> is_unspecified s = false ->
  dget atts 40 = Some (service_value (if l2 then 6 else 5) (if l2 then DX2 else DX4) s) ->
  read_service atts announced first = Ok (s, chunks8 (length comm) comm).
Proof.
  intros l2 H1 H2 H5 H16 Hm He Hin -> Hs Hmc Hun H40. unfold read_service.
  rewrite H1, H2, H5, H16, H40. rewrite !bool_decide_eq_true_2 by done. simpl negb. cbn [orb].
  cbn [from_option]. unfold id. rewrite Hm. change (negb (0 =? 0)) with false. cbv iota.
  cbn [existsb]. rewrite !Z.eqb_refl. cbn [negb orb].
  rewrite pack_small by (simpl; lia). unfold mbind at 1, res_bind at 1.
  unfold mem. rewrite bool_decide_eq_true_2 by done. cbn [negb]. fold l2.
  assert (tlv (if l2 then 6 else 5) (lit [0] ++ be_enc 1 1 ++ be_enc 2 21 ++ sid_info (if l2 then DX2 else DX4) s)
          = Ok (service_value (if l2 then 6 else 5) (if l2 then DX2 else DX4) s)) as Ht by (destruct l2; reflexivity).
  assert (tlv 1 (sid_info (if l2 then DX2 else DX4) s) = Ok (be_enc 1 1 ++ be_enc 2 21 ++ sid_info (if l2 then DX2 else DX4) s))
    as Ht1 by (destruct l2; reflexivity).
  rewrite (tlvs_one _ _ _ Ht). cbn [gen_list raised yielded]. unfold mbind at 1, res_bind at 1.
  rewrite first_tlv_hd.
  unfold mbind at 1, res_bind at 1. rewrite bool_decide_eq_false_2 by done.
  change (from (lit [0] ++ ?x) 1) with x. rewrite (tlvs_one _ _ _ Ht1). cbn [gen_list raised yielded].
  unfold mbind at 1, res_bind at 1. rewrite first_tlv_hd. unfold mbind, res_bind.
  change (slice (sid_info (if l2 then DX2 else DX4) s) 18 20) with (be_enc 2 (if l2 then DX2 else DX4)).
  change (packed_address 16 (slice (sid_info (if l2 then DX2 else DX4) s) 1 17)) with (Ok (be_dec (be_enc 16 s))).
  rewrite (be_dec_enc 16) by done. rewrite Hmc, Hun. destruct l2; reflexivity.
Qed.

(** How [read_routes] announces the one record of an UPDATE. *)
Definition announced_as (r : record) (s nh : Z) (q : Z) : route :=
  Route r (ipv6_str s) (ipv6_str nh)
    (if (route_type r =? 2) || (route_type r =? 3) then "End.DX2" else "End.DX4")
    ("65000:" +:+ pretty (evi r)) q.

Lemma read_routes_reach atts nh raw r s comms :
  dget atts 15 = None ->
  dget atts 14 = Some (AF ++ lit [16] ++ be_enc 16 nh ++ lit [0] ++ raw) ->
  records raw = Ok [r] -> read_service atts [r] r = Ok (s, comms) -> 0 <= nh < 2 ^ 128 ->
  (route_type r = 3 -> dget atts 22 = Some (lit [0; 6; 0; 0; 48] ++ be_enc 16 nh) /\ originator r = Some (ipv6_str nh)) ->
  read_routes atts = Ok ([announced_as r s nh (mobility comms)], []).
Proof.
  intros H15 H14 Hr Hs Hnh H3. unfold read_routes. rewrite H15, H14. unfold mbind at 1, res_bind at 1.
  change (slice (AF ++ lit [16] ++ ?l) 0 4) with (AF ++ lit [16]). rewrite beq_refl.
  change (from (AF ++ lit [16] ++ be_enc 16 nh ++ lit [0] ++ raw) 21) with raw.
  change (packed_address 16 (slice (AF ++ lit [16] ++ be_enc 16 nh ++ lit [0] ++ raw) 4 20)) with (Ok (be_dec (be_enc 16 nh))).
  rewrite be_dec_enc by done.
  destruct (len _ <? 21) eqn:E; bool_to_prop.
  { rewrite !len_app, len_be_enc in E. change (len AF) with 3 in E. change (len (lit [16])) with 1 in E.
    change (len (lit [0])) with 1 in E. pose proof (len_nonneg raw). lia. }
  cbn [negb orb]. rewrite Hr. unfold mbind at 1, res_bind at 1. rewrite Hs. unfold mbind, res_bind.
  rewrite ipv6_parse_str by done. cbn [existsb]. destruct (route_type r =? 3) eqn:E3; bool_to_prop.
  - destruct (H3 E3) as [H22 Ho]. rewrite (bool_decide_eq_true_2 _ H22), (bool_decide_eq_true_2 _ Ho). unfold announced_as. by rewrite E3.
  - unfold announced_as. by rewrite (proj2 (Z.eqb_neq _ _) E3).
Qed.

(** The attributes of an announcement, in the order the builders append them; [pm]
    encodes [extra], which a Type-3 route uses for its PMSI tunnel attribute. *)
Lemma announcement_Ok raw r s nh comm pm extra :
  let l2 := (route_type r =? 2) || (route_type r =? 3) in
  records raw = Ok [r] -> len raw <= 64 -> 0 <= evi r < 65536 ->
  0 <= s < 2 ^ 128 -> 0 <= nh < 2 ^ 128 -> is_multicast s = false -> is_unspecified s = false ->
  len comm <= 64 -> len comm mod 8 = 0 ->
  lit [0; 2] ++ be_enc 2 65000 ++ be_enc 4 (evi r) ∈ chunks8 (length comm) comm ->
  len pm <= 64 -> (forall acc, d_ok acc -> dhas acc 22 = false -> attributes_of pm acc = Ok (acc ++ extra)) ->
  (if route_type r =? 3 then extra = [(22, lit [0; 6; 0; 0; 48] ++ be_enc 16 nh)] /\ originator r = Some (ipv6_str nh)
   else extra = []) ->
  exists i c sv rch m,
    internal_attrs = Ok i /\ attr 16 comm 192 = Ok c /\
    service_attr (if l2 then 6 else 5) (if l2 then DX2 else DX4) s = Ok sv /\
    reach_attr nh raw = Ok rch /\ update_message (i ++ c ++ sv ++ rch ++ pm) = Ok m /\
    read_update (from m 19) = Ok ([announced_as r s nh (mobility (chunks8 (length comm) comm))], []).
Proof.
  intros l2 Hraw Hlraw He Hs Hnh Hmc Hun Hlc Hmod Hin Hlpm Hpm Hextra.
  destruct internal_attrs_Ok as (i & Hi & Hli & Hatts).
  pose proof (len_nonneg comm). pose proof (len_nonneg raw).
  destruct (attr_small 16 comm 192) as (c & Hc & Hlc'); [done|done|lia|].
  set (value := service_value (if l2 then 6 else 5) (if l2 then DX2 else DX4) s).
  assert (len value = 28) as Hlv by (subst value; by destruct l2).
  destruct (attr_small 40 value 192) as (sv & Hsv & Hlsv); [done|done|lia|].
  set (reach := AF ++ lit [16] ++ be_enc 16 nh ++ lit [0] ++ raw).
  assert (len reach = 21 + len raw) as Hlr by (subst reach; rewrite !len_app, len_be_enc; change (len AF) with 3;
    change (len (lit [16])) with 1; change (len (lit [0])) with 1; lia).
  destruct (attr_small 14 reach 128) as (rch & Hrch & Hlrch); [done|done|lia|].
  destruct (update_message_Ok (i ++ c ++ sv ++ rch ++ pm)) as (m & Hm & Hread).
  { rewrite !len_app, Hli, Hlc', Hlsv, Hlrch, Hlv, Hlr. lia. }
  exists i, c, sv, rch, m. split_and!; try done.
  { rewrite service_attr_Ok by (by destruct l2). done. }
  rewrite Hread, Hatts, (attributes_of_cons _ _ _ _ _ _ Hc), (attributes_of_cons _ _ _ _ _ _ Hsv),
    (attributes_of_cons _ _ _ _ _ _ Hrch) by done.
  rewrite Hpm by (done || by repeat (apply d_ok_dset || (apply NoDup_cons; split; [set_solver|]) || apply NoDup_nil_2)).
  unfold mbind, res_bind. destruct (route_type r =? 3) eqn:E3.
  - destruct Hextra as [-> Ho]. apply (read_routes_reach _ nh raw); [done|done|done| |done|done].
    apply (read_service_Ok _ _ _ comm s); done || by rewrite E3.
  - subst extra. apply (read_routes_reach _ nh raw); [done|done|done| |done|by apply Z.eqb_neq in E3].
    apply (read_service_Ok _ _ _ comm s); done || by rewrite E3.
Qed.

(** A Type-5 announcement, through the wire. *)
Lemma update_wire (rid p nh s : Z) :
  0 <= rid < 2 ^ 32 -> 0 <= p < 2 ^ 32 -> 0 <= nh < 2 ^ 128 -> 0 <= s < 2 ^ 128 ->
  is_multicast s = false -> is_unspecified s = false ->
  exists m, update (ipv4_str rid) (ipv4_str p +:+ "/32") (ipv6_str nh) (ipv6_str s) false = Ok m /\
    read_update (from m 19) =
      Ok ([Route (Record_ (ipv4_str p +:+ "/32") 5 100 (Some (ipv4_str p +:+ "/32")) None None)
             (ipv6_str s) (ipv6_str nh) "End.DX4" "65000:100" 0], []).
Proof.
  intros Hrid Hp Hnh Hs Hmc Hun. unfold update.
  rewrite nlri_Ok, !ipv6_parse_str by done.
  set (rt := lit [0; 2] ++ be_enc 2 65000 ++ be_enc 4 100). change RT with (@Ok (list byte) rt).
  destruct (announcement_Ok _ _ s nh rt [] [] (records_nlri5 rid p Hp))
    as (i & c & sv & rch & m & -> & Hc & Hsv & Hrch & Hm & Hread); try done.
  { vm_compute. left. }
  { intros. by rewrite app_nil_r. }
  exists m. rewrite app_nil_r in Hm. split; [|exact Hread].
  cbn [mbind res_bind]. simpl in Hsv. by rewrite Hc, Hsv, Hrch.
Qed.

(** A Type-2 announcement. *)
Lemma l2_update_mac_wire (rid e nh s q : Z) (m : list byte) :
  0 <= rid < 2 ^ 32 -> 0 <= e < 65536 -> 0 <= nh < 2 ^ 128 -> 0 <= s < 2 ^ 128 ->
  is_multicast s = false -> is_unspecified s = false -> 0 <= q < 2 ^ 32 -> length m = 6%nat ->
  exists msg, l2_update (ipv4_str rid) e (ipv6_str nh) (ipv6_str s) (Some (mac_str m)) q false = Ok msg /\
    read_update (from msg 19) =
      Ok ([Route (Record_ ("mac:" +:+ pretty e +:+ ":" +:+ mac_str m) 2 e None (Some (mac_str m)) None)
             (ipv6_str s) (ipv6_str nh) "End.DX2" ("65000:" +:+ pretty e) q], []).
Proof.
  intros Hrid He Hnh Hs Hmc Hun Hq Hm. unfold l2_update. rewrite l2_nlri_mac by done.
  rewrite !ipv6_parse_str, (pack_small 4 e), (pack_small 4 q) by (simpl; lia).
  change (pack 2 65000) with (@Ok (list byte) (be_enc 2 65000)).
  set (comm := lit [0; 2] ++ be_enc 2 65000 ++ be_enc 4 e ++ lit [6; 0; 0; 0] ++ be_enc 4 q).
  destruct (announcement_Ok _ _ s nh comm [] [] (records_nlri2 rid e m He Hm))
    as (i & c & sv & rch & msg & -> & Hc & Hsv & Hrch & Hmsg & Hread); try done.
  { clear -Hm. explode m Hm. done. }
  { change (chunks8 (length comm) comm) with [lit [0; 2] ++ be_enc 2 65000 ++ be_enc 4 e; lit [6; 0; 0; 0] ++ be_enc 4 q]. left. }
  { intros. by rewrite app_nil_r. }
  exists msg. split.
  - destruct (mac_str m) as [|a t] eqn:Em.
    { by apply (f_equal String.length) in Em; explode m Hm. }
    cbn [mbind res_bind]. fold comm. simpl in Hsv. rewrite Hc. cbn [mbind res_bind].
    rewrite Hsv. cbn [mbind res_bind]. by rewrite Hrch.
  - rewrite Hread. unfold announced_as. cbn [route_type evi].
    assert (mobility (chunks8 (length comm) comm) = q) as ->; [|done].
    change (mobility (chunks8 (length comm) comm)) with (Z.max 0 (be_dec (be_enc 4 q))).
    rewrite be_dec_enc by done. lia.
Qed.

(** A Type-3 announcement, with its PMSI tunnel attribute. *)
Lemma l2_update_imet_wire (rid e nh s : Z) :
  0 <= rid < 2 ^ 32 -> 0 <= e < 65536 -> 0 <= nh < 2 ^ 128 -> 0 <= s < 2 ^ 128 ->
  is_multicast s = false -> is_unspecified s = false ->
  exists msg, l2_update (ipv4_str rid) e (ipv6_str nh) (ipv6_str s) None 0 false = Ok msg /\
    read_update (from msg 19) =
      Ok ([Route (Record_ ("imet:" +:+ pretty e +:+ ":" +:+ ipv6_str nh) 3 e None None (Some (ipv6_str nh)))
             (ipv6_str s) (ipv6_str nh) "End.DX2" ("65000:" +:+ pretty e) 0], []).
Proof.
  intros Hrid He Hnh Hs Hmc Hun. unfold l2_update. rewrite l2_nlri_imet by done.
  rewrite !ipv6_parse_str, (pack_small 4 e) by (simpl; lia).
  change (pack 2 65000) with (@Ok (list byte) (be_enc 2 65000)).
  set (comm := lit [0; 2] ++ be_enc 2 65000 ++ be_enc 4 e ++ []).
  set (tunnel := lit [0; 6; 0; 0; 48] ++ be_enc 16 nh).
  destruct (attr_small 22 tunnel 192) as (pm & Hpm & Hlpm); [done..|].
  destruct (announcement_Ok _ _ s nh comm pm [(22, tunnel)] (records_nlri3 rid e nh He Hnh))
    as (i & c & sv & rch & msg & -> & Hc & Hsv & Hrch & Hmsg & Hread); try done.
  { change (chunks8 (length comm) comm) with [lit [0; 2] ++ be_enc 2 65000 ++ be_enc 4 e]. left. }
  { rewrite Hlpm. done. }
  { intros acc Hacc H22. rewrite <- (app_nil_r pm), (attributes_of_cons _ _ _ _ _ _ Hpm H22).
    rewrite attributes_of_nil. f_equal. apply dset_new. by rewrite H22. }
  exists msg. split; [|exact Hread].
  cbn [mbind res_bind]. fold comm tunnel. simpl in Hsv. by rewrite Hc, Hsv, Hrch, Hpm.
Qed.

(** A MAC announcement is built only for a sequence number of 32 bits. *)
Lemma l2_update_sequence rid e nh s m q msg :
  length m = 6%nat -> l2_update rid e nh s (Some (mac_str m)) q false = Ok msg -> 0 <= q < 2 ^ 32.
Proof.
  intros Hm. unfold l2_update. rewrite bind_Ok. intros (r & _ & H).
  do 3 (apply bind_Ok in H as (? & _ & H)). destruct (mac_str m) as [|a t] eqn:Em.
  { by apply (f_equal String.length) in Em; explode m Hm. }
  apply bind_Ok in H as (comm & Hx & _). apply bind_Ok in Hx as (y & Hy & _). by apply pack_Ok in Hy as [Hy _].
Qed.

(** C18.  Announcements survive the wire: [read_update] of the body that [update] or
    [l2_update] puts in its message is exactly the announced route -- host prefix, MAC
    with its mobility sequence, or inclusive multicast with its originator -- with its
    SID, next hop, behaviour and route target, and nothing is withdrawn. *)
Theorem announcements_roundtrip (rid p e nh s q : Z) (m : list byte) :
  0 <= rid < 2 ^ 32 -> 0 <= p < 2 ^ 32 -> 0 <= e < 65536 -> 0 <= nh < 2 ^ 128 -> 0 <= s < 2 ^ 128 ->
  is_multicast s = false -> is_unspecified s = false -> 0 <= q < 2 ^ 32 -> length m = 6%nat ->
  (exists msg, update (ipv4_str rid) (ipv4_str p +:+ "/32") (ipv6_str nh) (ipv6_str s) false = Ok msg /\
    read_update (from msg 19) =
      Ok ([Route (Record_ (ipv4_str p +:+ "/32") 5 100 (Some (ipv4_str p +:+ "/32")) None None)
             (ipv6_str s) (ipv6_str nh) "End.DX4" "65000:100" 0], [])) /\
  (exists msg, l2_update (ipv4_str rid) e (ipv6_str nh) (ipv6_str s) (Some (mac_str m)) q false = Ok msg /\
    read_update (from msg 19) =
      Ok ([Route (Record_ ("mac:" +:+ pretty e +:+ ":" +:+ mac_str m) 2 e None (Some (mac_str m)) None)
             (ipv6_str s) (ipv6_str nh) "End.DX2" ("65000:" +:+ pretty e) q], [])) /\
  (exists msg, l2_update (ipv4_str rid) e (ipv6_str nh) (ipv6_str s) None 0 false = Ok msg /\
    read_update (from msg 19) =
      Ok ([Route (Record_ ("imet:" +:+ pretty e +:+ ":" +:+ ipv6_str nh) 3 e None None (Some (ipv6_str nh)))
             (ipv6_str s) (ipv6_str nh) "End.DX2" ("65000:" +:+ pretty e) 0], [])).
Proof.
  intros. split_and!; [by apply update_wire|by apply l2_update_mac_wire|by apply l2_update_imet_wire].
Qed.

Lemma announcements_roundtrip_witness :
  exists msg, l2_update (ipv4_str 184483843) 201 (ipv6_str (252 * 2 ^ 120 + 1)) (ipv6_str (252 * 2 ^ 120 + 8393))
      (Some (mac_str (be_enc 6 2593))) 7 false = Ok msg /\
    read_update (from msg 19) =
      Ok ([Route (Record_ ("mac:" +:+ pretty 201 +:+ ":" +:+ mac_str (be_enc 6 2593)) 2 201 None (Some (mac_str (be_enc 6 2593))) None)
             (ipv6_str (252 * 2 ^ 120 + 8393)) (ipv6_str (252 * 2 ^ 120 + 1)) "End.DX2" ("65000:" +:+ pretty 201) 7], []).
Proof.
  apply (announcements_roundtrip 184483843 3323068418 201 (252 * 2 ^ 120 + 1) (252 * 2 ^ 120 + 8393) 7 (be_enc 6 2593));
    lia || reflexivity.
Defined.

Lemma withdrawal_Ok raw r :
  records raw = Ok [r] -> len raw <= 64 ->
  exists a msg, attr 15 (AF ++ raw) 128 = Ok a /\ update_message a = Ok msg /\
    read_update (from msg 19) = Ok ([], [key r]).
Proof.
  intros Hr Hl. pose proof (len_nonneg raw).
  assert (len (AF ++ raw) = 3 + len raw) as Hla by (rewrite len_app; done).
  destruct (attr_small 15 (AF ++ raw) 128) as (a & Ha & Hlen); [done|done|lia|].
  destruct (update_message_Ok a) as (msg & Hm & Hread); [lia|].
  exists a, msg. split_and!; [done|done|].
  rewrite Hread, <- (app_nil_r a), (attributes_of_cons _ _ _ _ _ _ Ha), attributes_of_nil by done.
  unfold mbind at 1, res_bind at 1, read_routes.
  change (dget (dset [] 15 (AF ++ raw)) 15) with (Some (AF ++ raw)).
  change (dget (dset [] 15 (AF ++ raw)) 14) with (@None (list byte)).
  cbn beta iota. change (beq (slice (AF ++ raw) 0 3) AF) with true. change (from (AF ++ raw) 3) with raw.
  cbn [negb]. by rewrite Hr.
Qed.

Lemma update_withdraw_wire (rid p : Z) (nh s : string) :
  0 <= rid < 2 ^ 32 -> 0 <= p < 2 ^ 32 ->
  exists msg, update (ipv4_str rid) (ipv4_str p +:+ "/32") nh s true = Ok msg /\
     read_update (from msg 19) = Ok ([], [ipv4_str p +:+ "/32"]).
Proof.
  intros Hrid Hp. unfold update. rewrite nlri_Ok by done.
  destruct (withdrawal_Ok _ _ (records_nlri5 rid p Hp)) as (a & msg & Ha & Hmsg & Hread); [done|].
  exists msg. split; [|exact Hread]. cbn [mbind res_bind]. by rewrite Ha.
Qed.

Lemma l2_withdraw_mac_wire (rid e q : Z) (nh s : string) (m : list byte) :
  0 <= rid < 2 ^ 32 -> 0 <= e < 65536 -> length m = 6%nat ->
  exists msg, l2_update (ipv4_str rid) e nh s (Some (mac_str m)) q true = Ok msg /\
     read_update (from msg 19) = Ok ([], ["mac:" +:+ pretty e +:+ ":" +:+ mac_str m]).
Proof.
  intros Hrid He Hm. unfold l2_update. rewrite l2_nlri_mac by done.
  destruct (withdrawal_Ok _ _ (records_nlri2 rid e m He Hm)) as (a & msg & Ha & Hmsg & Hread).
  { clear -Hm. by explode m Hm. }
  exists msg. split; [|exact Hread]. cbn [mbind res_bind]. by rewrite Ha.
Qed.

Lemma l2_withdraw_imet_wire (rid e q nh : Z) (s : string) :
  0 <= rid < 2 ^ 32 -> 0 <= e < 65536 -> 0 <= nh < 2 ^ 128 ->
  exists msg, l2_update (ipv4_str rid) e (ipv6_str nh) s None q true = Ok msg /\
     read_update (from msg 19) = Ok ([], ["imet:" +:+ pretty e +:+ ":" +:+ ipv6_str nh]).
Proof.
  intros Hrid He Hnh. unfold l2_update. rewrite l2_nlri_imet by done.
  destruct (withdrawal_Ok _ _ (records_nlri3 rid e nh He Hnh)) as (a & msg & Ha & Hmsg & Hread); [done|].
  exists msg. split; [|exact Hread]. cbn [mbind res_bind]. by rewrite Ha.
Qed.

(** A withdrawal names the very key its announcement installed, for each of the
    three route types, so [peer_routes.pop(key)] on the peer removes that route. *)
Theorem withdraw_roundtrip (rid p e nh q : Z) (s : string) (m : list byte) :
  0 <= rid < 2 ^ 32 -> 0 <= p < 2 ^ 32 -> 0 <= e < 65536 -> 0 <= nh < 2 ^ 128 -> length m = 6%nat ->
  (exists msg, update (ipv4_str rid) (ipv4_str p +:+ "/32") (ipv6_str nh) s true = Ok msg /\
     read_update (from msg 19) = Ok ([], [ipv4_str p +:+ "/32"])) /\
  (exists msg, l2_update (ipv4_str rid) e (ipv6_str nh) s (Some (mac_str m)) q true = Ok msg /\
     read_update (from msg 19) = Ok ([], ["mac:" +:+ pretty e +:+ ":" +:+ mac_str m])) /\
  (exists msg, l2_update (ipv4_str rid) e (ipv6_str nh) s None q true = Ok msg /\
     read_update (from msg 19) = Ok ([], ["imet:" +:+ pretty e +:+ ":" +:+ ipv6_str nh])).
Proof.
  intros. split_and!; [by apply update_withdraw_wire|by apply l2_withdraw_mac_wire|by apply l2_withdraw_imet_wire].
Qed.

Lemma withdraw_roundtrip_witness :
  exists msg, update (ipv4_str 184483843) (ipv4_str 3323068418 +:+ "/32") (ipv6_str 5) "fd00::6" true = Ok msg /\
     read_update (from msg 19) = Ok ([], [ipv4_str 3323068418 +:+ "/32"]).
Proof. apply (withdraw_roundtrip 184483843 3323068418 201 5 0 "fd00::6" (be_enc 6 2593)); lia || reflexivity. Defined.

(** ** What the decoders raise *)

Lemma tlvs_only_value data : only_value (gen_list (tlvs data)).
Proof.
  unfold tlvs. assert (length data <= length data)%nat as H by done. revert H.
  generalize (length data) at 2 3 as f. intros f; revert data.
  induction f as [|f IH]; intros [|b data] Hf; try exact I; [simpl in Hf; lia|].
  rewrite !tlvs_fuel_S by done. cbv zeta. destruct (len (b :: data) <? 3) eqn:E; [done|]. cbv zeta.
  destruct (len (b :: data) <? be_dec (slice (b :: data) 1 3) + 3); [done|].
  assert (length (from (b :: data) (be_dec (slice (b :: data) 1 3) + 3)) <= f)%nat as Hl.
  { unfold from. rewrite length_drop. simpl in *. pose proof (be_dec_bound (slice (b :: data) 1 3)). lia. }
  specialize (IH _ Hl). unfold gen_list in *. cbn [gen_cons raised yielded].
  revert IH. by destruct (raised (tlvs_fuel f _)).
Qed.

Lemma read_attributes_only_value f data acc :
  (length data <= f)%nat -> only_value (read_attributes f data acc).
Proof.
  revert data acc. induction f as [|f IH]; intros [|b data] acc Hf; try exact I; [simpl in Hf; lia|].
  rewrite !read_attributes_S by done. cbv zeta. do 3 (cbv zeta; value_guard). apply IH.
  unfold from. rewrite length_drop. simpl in *.
  destruct (negb (Z.land (be_dec (slice (b :: data) 0 1)) 16 =? 0));
    match goal with |- context [be_dec ?l] => pose proof (be_dec_bound l) end; lia.
Qed.

(** What is left after a header of two bytes is shorter. *)
Lemma after_header (data : list byte) f n :
  (length data <= S f)%nat -> (len data <? 2) = false -> 0 <= n -> (length (from data (2 + n)) <= f)%nat.
Proof. unfold from, len. rewrite length_drop. intros. bool_to_prop. lia. Qed.

Lemma prefixes_only_value data : only_value (prefixes data).
Proof.
  unfold prefixes. assert (length data <= length data)%nat as H by done. revert H.
  generalize (length data) at 2 3 as f. intros f; revert data.
  induction f as [|f IH]; intros [|b data] Hf; try exact I; [simpl in Hf; lia|].
  rewrite !prefixes_fuel_S by done. cbv zeta. destruct (_ || _) eqn:E; [done|]. apply orb_false_elim in E as [E _].
  assert (only_value (prefixes_fuel f (from (b :: data) (2 + be_dec (slice (b :: data) 1 2))))) as Hr.
  { apply IH, after_header; [done|done|apply be_dec_bound]. }
  cbv zeta. destruct (negb _); [done|]. value_guard. by apply only_value_bind.
Qed.

Lemma nlri_records_ok kind size raw v :
  size = len v ->
  only_value (nlri_records kind size raw v) /\
  forall l, nlri_records kind size raw v = Ok l ->
    Forall (fun r => 0 <= evi r < 65536 /\ (route_type r = 2 \/ route_type r = 3 \/ route_type r = 5) /\
                     (route_type r = 5 -> evi r = 100)) l.
Proof.
  intros Hsize. unfold nlri_records. pose proof (be_dec_bound (slice v 6 8)) as Hb.
  assert (be_dec (slice v 6 8) < 65536) as Hb2.
  { eapply Z.lt_le_trans; [apply Hb|]. change 65536 with (256 ^ 2). apply Z.pow_le_mono_r; [lia|].
    unfold slice, len. rewrite length_take. lia. }
  destruct (kind =? 5); [split|destruct ((kind =? 2) || (kind =? 3)); [|by split; [|intros l [= <-]]]].
  - apply only_value_bind; [apply prefixes_only_value|done].
  - intros l. rewrite bind_Ok. intros (ps & _ & [= <-]). apply Forall_forall.
    intros r Hr. apply list_elem_of_In, in_map_iff in Hr as (p & <- & _). simpl. lia.
  - split.
    + value_guard. destruct (kind =? 2).
      * apply only_value_bind; [|done]. destruct (negb (size =? 33) || _) eqn:E; [done|]. bool_to_prop.
        rewrite byte_at_slice by lia. simpl. by case_match.
      * value_guard. bool_to_prop. by rewrite packed_address_slice by lia.
    + intros l. split_guard. destruct (kind =? 2); [|split_guard]; rewrite bind_Ok;
        intros (? & _ & [= <-]); constructor; simpl; try done; lia.
Qed.

Lemma records_ok data :
  only_value (records data) /\
  forall l, records data = Ok l ->
    Forall (fun r => 0 <= evi r < 65536 /\ (route_type r = 2 \/ route_type r = 3 \/ route_type r = 5) /\
                     (route_type r = 5 -> evi r = 100)) l.
Proof.
  unfold records. assert (length data <= length data)%nat as H by done. revert H.
  generalize (length data) at 2 3 4 as f. intros f; revert data.
  induction f as [|f IH]; intros [|b data] Hf; try (by split; [|intros l [= <-]]); [simpl in Hf; lia|].
  rewrite !records_fuel_S by done. cbv zeta. destruct (_ || _) eqn:E; [done|]. apply orb_false_elim in E as [E E'].
  destruct (IH (from (b :: data) (2 + be_dec (slice (b :: data) 1 2)))) as [IH1 IH2].
  { apply after_header; [done|done|apply be_dec_bound]. }
  destruct (nlri_records_ok (be_dec (slice (b :: data) 0 1)) (be_dec (slice (b :: data) 1 2))
    (slice (b :: data) 0 (2 + be_dec (slice (b :: data) 1 2))) (slice (b :: data) 2 (2 + be_dec (slice (b :: data) 1 2)))) as [N1 N2].
  { pose proof (be_dec_bound (slice (b :: data) 1 2)). bool_to_prop. rewrite len_slice; lia. }
  cbv zeta. split.
  - apply only_value_bind; [done|]. intros l _. by apply only_value_bind.
  - intros l. rewrite bind_Ok. intros (l1 & H1 & H). apply bind_Ok in H as (l2 & H2 & [= <-]).
    apply Forall_app; auto.
Qed.

(** What holds of the records of every NLRI holds of what [records] returns. *)
Lemma records_Forall (P : record -> Prop) data l :
  (forall kind size raw v l, nlri_records kind size raw v = Ok l -> Forall P l) ->
  records data = Ok l -> Forall P l.
Proof.
  intros HP. unfold records. generalize (length data) as f. intros f; revert data l.
  induction f as [|f IH]; intros [|b data] l; try (by intros [= <-]).
  rewrite records_fuel_S by done.
  split_guard. cbv zeta. rewrite bind_Ok. intros (l1 & H1 & H). apply bind_Ok in H as (l2 & H2 & [= <-]).
  apply Forall_app; eauto.
Qed.

(** A record's key is computed from its route type, EVI and address. *)
Definition keyed (r : record) : Prop :=
  (route_type r = 2 /\ exists m, mac r = Some m /\ key r = "mac:" +:+ pretty (evi r) +:+ ":" +:+ m) \/
  (route_type r = 3 /\ exists o, originator r = Some o /\ key r = "imet:" +:+ pretty (evi r) +:+ ":" +:+ o) \/
  (route_type r = 5 /\ exists p, key r = ipv4_str p +:+ "/32" /\ prefix r = Some (key r)).

Lemma prefixes_hosts data ps : prefixes data = Ok ps -> Forall (fun s => exists p, s = ipv4_str p +:+ "/32") ps.
Proof.
  unfold prefixes. generalize (length data) as f. intros f; revert data ps.
  induction f as [|f IH]; intros [|b data] ps; try (by intros [= <-]).
  rewrite prefixes_fuel_S by done.
  split_guard. cbv zeta. destruct (negb _); [apply IH|]. split_guard.
  rewrite bind_Ok. intros (l & H & [= <-]). constructor; [by eexists|eauto].
Qed.

Lemma records_keyed data l : records data = Ok l -> Forall keyed l.
Proof.
  apply records_Forall. clear. intros kind size raw v l. unfold nlri_records.
  destruct (kind =? 5).
  - rewrite bind_Ok. intros (ps & H & [= <-]). apply prefixes_hosts in H. apply Forall_forall.
    intros r Hr. apply list_elem_of_In, in_map_iff in Hr as (p & <- & Hp). right; right.
    rewrite Forall_forall in H. apply list_elem_of_In in Hp. destruct (H p Hp) as [q ->]. split; [done|]. by exists q.
  - destruct (_ || _); [|by intros [= <-]]. split_guard. destruct (kind =? 2); [|split_guard];
      rewrite bind_Ok; intros (? & _ & [= <-]); constructor; try done; [left|right; left]; (split; [done|]); by eexists.
Qed.

(** The exceptions the [try] of [read_update] catches, and what holds without one. *)
Definition service_outcome (announced : list record) (first : record) (m : res (Z * list (list byte))) : Prop :=
  match m with
  | Ok (s, _) => 0 <= s < 2 ^ 128 /\ is_multicast s = false /\ is_unspecified s = false /\
      Forall (fun r => evi r = evi first /\ route_type r = route_type first) announced
  | Err (ValueError _) | Err StopIteration => True
  | Err _ => False
  end.

Lemma outcome_bind {A} ann first (m : res A) f :
  only_value m \/ m = Err StopIteration ->
  (forall a, m = Ok a -> service_outcome ann first (f a)) -> service_outcome ann first (mbind f m).
Proof. destruct m as [|[]]; simpl_res; naive_solver. Qed.

Lemma first_tlv_raises k l : only_value (first_tlv k l) \/ first_tlv k l = Err StopIteration.
Proof. unfold first_tlv. destruct (snd <$> _); simpl; auto. Qed.

Lemma same_service (announced : list record) (first : record) :
  existsb (fun r => negb (evi r =? evi first) || negb (route_type r =? route_type first)) announced = false ->
  Forall (fun r => evi r = evi first /\ route_type r = route_type first) announced.
Proof.
  induction announced as [|r l IH]; simpl; [constructor|]. intros H. bool_to_prop. constructor; auto.
Qed.

Ltac outcome_guard :=
  match goal with |- service_outcome _ _ (if ?c then _ else _) => destruct c eqn:?; [exact I|] end.

Lemma read_service_outcome atts announced first :
  0 <= evi first < 65536 -> service_outcome announced first (read_service atts announced first).
Proof.
  intros He. unfold read_service. do 3 (cbv zeta; outcome_guard).
  rewrite pack_small by (simpl; lia). apply outcome_bind; [by left|]. intros _ [= <-]. outcome_guard.
  apply outcome_bind; [left; apply tlvs_only_value|]. intros services _.
  apply outcome_bind; [apply first_tlv_raises|]. intros service _. outcome_guard.
  apply outcome_bind; [left; apply tlvs_only_value|]. intros information _.
  apply outcome_bind; [apply first_tlv_raises|]. intros info _. outcome_guard. bool_to_prop.
  assert (len (slice info 1 17) = 16) as Hl by (rewrite len_slice; lia).
  rewrite packed_address_slice by lia. simpl_res. outcome_guard. bool_to_prop.
  pose proof (be_dec_bound (slice info 1 17)) as Hb. rewrite Hl in Hb.
  split_and!; try lia; try done. by apply same_service.
Qed.

(** What [read_routes] does with the records of MP_REACH_NLRI, in one place. *)
Lemma read_routes_inv atts routes withdrawn :
  read_routes atts = Ok (routes, withdrawn) -> routes <> [] ->
  exists reach announced first rest s comms nh,
    dget atts 14 = Some reach /\ records (from reach 21) = Ok announced /\ announced = first :: rest /\
    read_service atts announced first = Ok (s, comms) /\ nh = ipv6_str (be_dec (slice reach 4 20)) /\
    (route_type first = 3 -> Forall (fun r => originator r = Some nh) announced) /\
    routes = map (fun r => Route r (ipv6_str s) nh
                     (if (route_type first =? 2) || (route_type first =? 3) then "End.DX2" else "End.DX4")
                     ("65000:" +:+ pretty (evi first)) (mobility comms)) announced.
Proof.
  unfold read_routes. rewrite bind_Ok. intros (w & _ & H) Hne.
  destruct (dget atts 14) as [reach|]; [|by inversion H; subst]. revert H. split_guard.
  rewrite bind_Ok. intros (announced & Ha & H). destruct announced as [|first rest]; [by inversion H; subst|].
  destruct (read_service atts (first :: rest) first) as [[s comms]|e] eqn:Es.
  2: { destruct e; try done; by inversion H; subst. }
  bool_to_prop. rewrite packed_address_slice in H by lia. cbn [mbind res_bind] in H.
  apply bind_Ok in H as (nhv & _ & H).
  destruct (_ && _) eqn:E3; [by inversion H; subst|]. inversion H; subst; clear H.
  eexists reach, _, first, rest, s, comms, _. split_and!; try done.
  intros H3. rewrite H3 in E3. cbn [Z.eqb Pos.eqb andb] in E3. apply orb_false_elim in E3 as [_ E3].
  apply Forall_forall. intros r Hr.
  destruct (decide (originator r = Some (ipv6_str (be_dec (slice reach 4 20))))) as [|Hn]; [done|].
  enough (existsb (fun r => negb (bool_decide (originator r = Some (ipv6_str (be_dec (slice reach 4 20)))))) (first :: rest) = true) by congruence.
  apply existsb_exists. exists r. split; [by apply list_elem_of_In|]. by rewrite bool_decide_eq_false_2.
Qed.

Lemma read_routes_only_value atts : only_value (read_routes atts).
Proof.
  unfold read_routes. apply only_value_bind.
  { destruct (dget atts 15) as [a|]; [|done]. value_guard. apply only_value_bind; [apply records_ok|done]. }
  intros w _. destruct (dget atts 14) as [reach|]; [|done]. value_guard. bool_to_prop.
  destruct (records_ok (from reach 21)) as [H1 H2]. apply only_value_bind; [done|].
  intros [|first rest] Ha; [done|]. specialize (H2 _ Ha).
  apply Forall_cons in H2 as [[He _] _].
  pose proof (read_service_outcome atts (first :: rest) first He) as Ho.
  destruct (read_service atts (first :: rest) first) as [[s comms]|[]]; try done.
  rewrite packed_address_slice by lia. cbn [mbind res_bind]. rewrite ipv6_parse_str.
  - simpl. by case_match.
  - assert (len (slice reach 4 20) = 16) as Hl by (rewrite len_slice; lia).
    pose proof (be_dec_bound (slice reach 4 20)) as Hb. by rewrite Hl in Hb.
Qed.

Lemma read_update_keyed data routes withdrawn :
  read_update data = Ok (routes, withdrawn) -> Forall (fun r => keyed (rec r)) routes.
Proof.
  unfold read_update. split_guard. cbv zeta. split_guard. rewrite bind_Ok. intros (atts & _ & H).
  destruct (decide (routes = [])) as [->|Hne]; [constructor|].
  apply read_routes_inv in H as (reach & announced & first & rest & s & comms & nh & _ & Hrec & _ & _ & _ & _ & ->); [|done].
  apply records_keyed in Hrec. apply Forall_fmap. simpl. done.
Qed.

(** C27.  [read_update] terminates on every input, and the only exception it lets
    escape is [ValueError]: truncated, duplicated or unknown attributes never surface
    as [struct.error], [StopIteration] or an index error, which the session loop of
    the speaker would not expect. *)
Theorem read_update_raises_only_ValueError (data : list byte) (e : exn) :
  read_update data = Err e -> exists msg, e = ValueError msg.
Proof.
  apply only_value_Err. unfold read_update. value_guard. cbv zeta. value_guard.
  apply only_value_bind; [by apply read_attributes_only_value|]. intros. apply read_routes_only_value.
Qed.

Lemma read_update_raises_only_ValueError_witness :
  exists msg, ValueError "truncated attribute" = ValueError msg.
Proof. apply (read_update_raises_only_ValueError (lit [0; 0; 0; 2; 64; 1])). reflexivity. Defined.

(** A route fit for installation. *)
Definition announced_ok (r : route) : Prop :=
  (exists s, sid r = ipv6_str s /\ 0 <= s < 2 ^ 128 /\ is_multicast s = false /\ is_unspecified s = false) /\
  (route_type (rec r) = 5 /\ behavior r = "End.DX4" /\ evi (rec r) = 100 \/
   (route_type (rec r) = 2 \/ route_type (rec r) = 3) /\ behavior r = "End.DX2") /\
  route_target r = "65000:" +:+ pretty (evi (rec r)) /\
  (route_type (rec r) = 3 -> originator (rec r) = Some (nexthop r)).

Lemma read_update_safe (data : list byte) (routes : list route) (withdrawn : list string) :
  read_update data = Ok (routes, withdrawn) -> Forall announced_ok routes.
Proof.
  unfold read_update. split_guard. cbv zeta. split_guard. rewrite bind_Ok. intros (atts & _ & H).
  destruct (decide (routes = [])) as [->|Hne]; [constructor|].
  apply read_routes_inv in H as (reach & announced & first & rest & s & comms & nh & _ & Hrec & Heq & Hs & Hnh & H3 & ->); [|done].
  pose proof (proj2 (records_ok _) _ Hrec) as Hok.
  assert (0 <= evi first < 65536) as He by (rewrite Heq in Hok; apply Forall_cons in Hok; tauto).
  pose proof (read_service_outcome atts announced first He) as Ho. rewrite Hs in Ho.
  destruct Ho as (Hb & Hmc & Hun & Hsame). apply Forall_forall. intros r Hr.
  apply list_elem_of_In, in_map_iff in Hr as (x & <- & Hx). apply list_elem_of_In in Hx.
  rewrite Forall_forall in Hok, Hsame. destruct (Hsame x Hx) as [Ex Tx], (Hok x Hx) as (_ & Hty & H5).
  unfold announced_ok. cbn [rec sid behavior nexthop route_target]. split_and!.
  - by exists s.
  - rewrite Tx in *. destruct Hty as [T | [T | T]]; rewrite T in *; simpl; auto.
  - by rewrite Ex.
  - rewrite Tx. intros E3. specialize (H3 E3). rewrite Forall_forall in H3. by apply H3.
Qed.

(** Safety of what [read_update] accepts: every announced route carries a usable
    SID (a 128-bit address, neither unspecified nor multicast), the behaviour of its
    route type, the route target of its own EVI, and, for Type 3, an originator equal
    to the BGP next hop. *)
Theorem read_update_announced (data : list byte) (routes : list route) (withdrawn : list string) :
  read_update data = Ok (routes, withdrawn) -> Forall announced_ok routes.
Proof. apply read_update_safe. Qed.

Definition sample_update : list byte :=
  match l2_update "10.0.0.3" 201 "fd00::1" "fd00::20" (Some "02:00:00:00:0a:21") 7 false with
  | Ok m => from m 19
  | Err _ => []
  end.

Lemma read_update_announced_witness :
  Forall announced_ok [Route (Record_ "mac:201:02:00:00:00:0a:21" 2 201 None (Some "02:00:00:00:0a:21") None)
    "fd00::20" "fd00::1" "End.DX2" "65000:201" 7].
Proof. apply (read_update_announced sample_update _ []). vm_compute. reflexivity. Defined.

(** No announced NLRI is dropped silently (RFC 9252, section 7): when the path
    attributes parse and MP_REACH_NLRI holds the records [announced], either all of
    them are announced, in order, or none is and the key of each is withdrawn. *)
Theorem read_routes_complete (attributes : list (Z * list byte)) (reach : list byte) (announced : list record)
    (routes : list route) (withdrawn : list string) :
  dget attributes 14 = Some reach -> records (from reach 21) = Ok announced ->
  read_routes attributes = Ok (routes, withdrawn) ->
  map rec routes = announced \/ routes = [] /\ Forall (fun r => key r ∈ withdrawn) announced.
Proof.
  intros H14 Hrec H. destruct (decide (routes = [])) as [->|Hne].
  - right. split; [done|]. revert H. unfold read_routes. rewrite bind_Ok. intros (w & _ & H). rewrite H14 in H.
    revert H. split_guard. rewrite Hrec. cbn [mbind res_bind]. destruct announced as [|first rest]; [constructor|].
    assert (forall w', w ++ keys_of (first :: rest) = w' -> Forall (fun r => key r ∈ w') (first :: rest)) as Hkeys.
    { intros w' <-. apply Forall_forall. intros r Hr. apply elem_of_app. right.
      apply list_elem_of_In, in_map_iff. exists r. by rewrite <- list_elem_of_In. }
    destruct (read_service _ _ first) as [[s comms]|e].
    + rewrite bind_Ok. intros (hop & _ & H). apply bind_Ok in H as (nhv & _ & H). destruct (_ && _); [injection H as H; by apply Hkeys|done].
    + destruct e; try done; intros [= Hw]; by apply Hkeys.
  - left. apply read_routes_inv in H as (reach' & ann & first & rest & s & comms & nh & E14 & Hr & _ & _ & _ & _ & ->); [|done].
    assert (reach' = reach) as -> by congruence. assert (ann = announced) as -> by congruence.
    rewrite map_map. simpl. apply map_id.
Qed.

Lemma read_routes_complete_witness :
  map rec ([] : list route) = [Record_ "10.0.0.1/32" 5 100 (Some "10.0.0.1/32") None None] \/
  ([] : list route) = [] /\ Forall (fun r => key r ∈ ["10.0.0.1/32"]) [Record_ "10.0.0.1/32" 5 100 (Some "10.0.0.1/32") None None].
Proof.
  apply (read_routes_complete [(14, AF ++ lit [16] ++ zeros 17 ++ lit [5; 34] ++ nlri5 1 167772161)]
    (AF ++ lit [16] ++ zeros 17 ++ lit [5; 34] ++ nlri5 1 167772161)); vm_compute; reflexivity.
Defined.

(** ** OPEN *)

Lemma open_message_Ok rid : 0 <= rid < 2 ^ 32 ->
  open_message (ipv4_str rid) = message 1 (lit [4] ++ be_enc 2 65000 ++ be_enc 2 30 ++ be_enc 4 rid
    ++ lit [8; 2; 6; 1; 4; 0; 25; 0; 70]).
Proof. intros H. unfold open_message. rewrite ipv4_parse_str by done. reflexivity. Qed.

Lemma read_open_hold data h : read_open data = Ok h -> 3 <= h <= 30.
Proof.
  unfold read_open. split_guard. cbv zeta. rewrite bind_Ok. intros (header & _ & H). revert H.
  split_guard. rewrite bind_Ok. intros (evpn & _ & H).
  revert H. split_guard. intros [= <-]. bool_to_prop. lia.
Qed.

(** The OPEN exchange: what [open_message] sends, a peer running [read_open]
    accepts with a hold time of 30 seconds, and no OPEN at all is accepted with a hold
    time outside 3..30, so that the keepalive period [hold / 3] is at least a second. *)
Lemma open_exchange (rid : Z) (data : list byte) (h : Z) :
  0 <= rid < 2 ^ 32 -> read_open data = Ok h ->
  3 <= h <= 30 /\ exists m, open_message (ipv4_str rid) = Ok m /\ read_open (from m 19) = Ok 30.
Proof.
  intros Hrid Hd. split; [by eapply read_open_hold|].
  rewrite open_message_Ok by done. eexists. split; reflexivity.
Qed.

Lemma open_exchange_witness :
  3 <= 9 <= 30 /\ exists m, open_message (ipv4_str 167772163) = Ok m /\ read_open (from m 19) = Ok 30.
Proof.
  apply (open_exchange 167772163 (lit [4; 253; 232; 0; 9; 10; 0; 0; 9; 8; 2; 6; 1; 4; 0; 25; 0; 70])); [lia|reflexivity].
Defined.

End Codec.
