(* ===== verification/EvpnL2.v ===== *)
(** * EvpnL2: MAC learning and ingress replication (lab/live/evpn_l2.py)

    [Ethernet] keeps the MAC addresses seen on its sites and turns a frame from a
    local bridge into SRv6 copies.  It reads the speaker's selected [routes], which
    are an argument here.  Clock readings are integers, in microseconds; a socket's
    [sendto] is a parameter that returns the text of an [OSError], if any. *)

From S2P Require Import Prelude Bytes Text EvpnCodec.

Module Ethernet.
Import Codec.

(** ** Definitions *)

(** An imported route, [{**route, 'peer': peer}]. *)
Record installed := Installed { route_of : route; via : string }.

(** An entry of the configuration's [l2] list. *)
Record service := Service { s_evi : Z; interface : string; s_sid : string }.

Record local_mac := LocalMac { l_evi : Z; l_mac : string; l_sequence : Z; last_seen : Z }.

Record counters := Counters { local_frames : Z; unicast_copies : Z; bum_copies : Z; dropped : Z }.

Record ethernet := Eth {
  services : list (Z * service);
  local : list (string * local_mac);
  counts : counters;
  last_error : option string }.

Definition init (l2 : list service) : ethernet :=
  Eth (dict_of (map (fun v => (s_evi v, v)) l2)) [] (Counters 0 0 0 0) None.

Definition with_local (l : list (string * local_mac)) (e : ethernet) : ethernet :=
  Eth (services e) l (counts e) (last_error e).
Definition with_counts (f : counters -> counters) (e : ethernet) : ethernet :=
  Eth (services e) (local e) (f (counts e)) (last_error e).
Definition with_error (m : string) (e : ethernet) : ethernet :=
  Eth (services e) (local e) (counts e) (Some m).

Definition count_frame (c : counters) : counters :=
  Counters (local_frames c + 1) (unicast_copies c) (bum_copies c) (dropped c).
Definition count_copy (unicast : bool) (c : counters) : counters :=
  if unicast then Counters (local_frames c) (unicast_copies c + 1) (bum_copies c) (dropped c)
  else Counters (local_frames c) (unicast_copies c) (bum_copies c + 1) (dropped c).
Definition count_drop (c : counters) : counters :=
  Counters (local_frames c) (unicast_copies c) (bum_copies c) (dropped c + 1).

Definition mac_key (evi : Z) (mac : string) : string := "mac:" +:+ pretty evi +:+ ":" +:+ mac.

Definition learned (routes : list (string * installed)) (now : Z) (e : ethernet) (evi : Z) (mac : string) : ethernet :=
  let key := mac_key evi mac in
  let remote := dget routes key in
  let remote_sequence := match remote with Some r => sequence (route_of r) | None => 0 end in
  let fresh := match remote with Some r => sequence (route_of r) + 1 | None => 0 end in
  match dget (local e) key with
  | Some old =>
      if l_sequence old <? remote_sequence
      then with_local (dset (local e) key (LocalMac evi mac fresh now)) e
      else with_local (dset (local e) key (LocalMac (l_evi old) (l_mac old) (l_sequence old) now)) e
  | None => with_local (dset (local e) key (LocalMac evi mac fresh now)) e
  end.

(** 300 seconds *)
Definition max_age : Z := 300 * 1000000.

(** [exports]: the entries younger than 300 seconds, which become the table. *)
Definition exports (now : Z) (e : ethernet) : ethernet :=
  with_local (List.filter (fun kv => now - last_seen kv.2 <? max_age) (local e)) e.

Definition PACKET_OUTGOING : Z := 4.

(** The SRH of an encapsulated frame: next header 143, one segment, then the SID. *)
Definition srh (sid : Z) : res (list byte) :=
  let* h := mapM_res (pack 1) [143; 2; 4; 0; 0; 0] in
  let* t := pack 2 0 in
  Ok (concat h ++ t ++ be_enc 16 sid).

Section Receive.
Context (sendto : string -> list byte -> option string).

(** The body of [for route in routes]. *)
Definition replicate_to (unicast : bool) (frame : list byte)
    (st : ethernet * list (string * list byte)) (r : installed) : res (ethernet * list (string * list byte)) :=
  let s := sid (route_of r) in
  let* v := ipv6_parse s in
  let* header := srh v in
  match sendto s (header ++ frame) with
  | None => Ok (with_counts (count_copy unicast) st.1, st.2 ++ [(s, header ++ frame)])
  | Some error => Ok (with_error error (with_counts count_drop st.1), st.2)
  end.

(** One turn of [receive] on a frame of [service]; [pkttype] is [address[2]].  What is
    returned is the new state and the packets handed to the kernel. *)
Definition receive (routes : list (string * installed)) (now : Z) (sv : service) (pkttype : Z)
    (frame : list byte) (e : ethernet) : res (ethernet * list (string * list byte)) :=
  if (pkttype =? PACKET_OUTGOING) || (len frame <? 14) then Ok (e, []) else
  if beq (slice frame 0 5) (lit [1; 128; 194; 0; 0]) then Ok (e, []) else
  let* b6 := byte_at frame 6 in
  if negb (Z.land b6 1 =? 0) || beq (slice frame 6 12) (zeros 6) then Ok (e, []) else
  let e := with_counts count_frame e in
  let source := mac_str (slice frame 6 12) in
  let dest := mac_str (slice frame 0 6) in
  let evi := s_evi sv in
  let e := learned routes now e evi source in
  let* b0 := byte_at frame 0 in
  let remote := if Z.land b0 1 =? 0 then dget routes (mac_key evi dest) else None in
  let targets := match remote with
    | Some r => [r]
    | None => List.filter (fun r => (route_type (rec (route_of r)) =? 3) && (Codec.evi (rec (route_of r)) =? evi)) (dvalues routes)
    end in
  let e := if bool_decide (targets = []) then with_counts count_drop e else e in
  foldM (replicate_to (match remote with Some _ => true | None => false end) frame) (e, []) targets.

End Receive.

(** ** The routes the speaker selects *)

(** Every route is stored under its own key. *)
Definition routes_ok (routes : list (string * installed)) : Prop :=
  Forall (fun kr => kr.1 = key (rec (route_of kr.2)) /\ keyed (rec (route_of kr.2))) routes.

Lemma mac_key_inj e1 m1 e2 m2 : mac_key e1 m1 = mac_key e2 m2 -> e1 = e2 /\ m1 = m2.
Proof.
  unfold mac_key. intros H. apply append_inj_l in H.
  apply (split_at_first colon) in H as [H ->]; [|apply pretty_plain; auto..].
  split; [|done]. by apply (inj pretty).
Qed.

Lemma keyed_mac r e m : keyed r -> key r = mac_key e m -> route_type r = 2 /\ evi r = e /\ mac r = Some m.
Proof.
  intros [[Ht (m' & Hm & Hk)]|[[Ht (o & Ho & Hk)]|[Ht (p & Hk & _)]]] E; rewrite E in Hk.
  - apply mac_key_inj in Hk as [-> ->]. done.
  - discriminate Hk.
  - apply (f_equal (lacks colon)) in Hk. revert Hk. unfold lacks, mac_key.
    rewrite !all_chars_app. fold (lacks colon (ipv4_str p)). rewrite ipv4_str_lacks by auto. done.
Qed.

(** ** Learning *)

(** What [learned] leaves in the table for the learned key. *)
Lemma learned_entry routes now e evi mac :
  exists v, dget (local (learned routes now e evi mac)) (mac_key evi mac) = Some v /\ last_seen v = now /\
    match dget (local e) (mac_key evi mac), dget routes (mac_key evi mac) with
    | None, None => l_sequence v = 0
    | None, Some r => l_sequence v = sequence (route_of r) + 1
    | Some old, None => 0 <= l_sequence old -> l_sequence v = l_sequence old
    | Some old, Some r =>
        l_sequence v = if l_sequence old <? sequence (route_of r) then sequence (route_of r) + 1 else l_sequence old
    end.
Proof.
  unfold learned. destruct (dget (local e) _) as [old|] eqn:Eo; destruct (dget routes _) as [r|] eqn:Er;
    repeat case_match; simpl; rewrite dget_dset_eq; eexists; (split; [done|]); (split; [done|]); simpl; try done.
  bool_to_prop. lia.
Qed.

(** MAC mobility: learning a MAC locally keeps a sequence number that is never
    below the remote one, is strictly above it when the MAC moved here or the remote
    site had overtaken it, never decreases, refreshes the age, and touches no other
    entry of the table. *)
Theorem learned_outbids (routes : list (string * installed)) (now : Z) (e : ethernet) (evi : Z) (mac : string) :
  Forall (fun kv => 0 <= l_sequence kv.2) (local e) ->
  exists v, dget (local (learned routes now e evi mac)) (mac_key evi mac) = Some v /\ last_seen v = now /\
    (forall r, dget routes (mac_key evi mac) = Some r ->
       sequence (route_of r) <= l_sequence v /\
       ((forall old, dget (local e) (mac_key evi mac) = Some old -> l_sequence old < sequence (route_of r)) ->
        sequence (route_of r) < l_sequence v)) /\
    (forall old, dget (local e) (mac_key evi mac) = Some old -> l_sequence old <= l_sequence v) /\
    forall k, k <> mac_key evi mac -> dget (local (learned routes now e evi mac)) k = dget (local e) k.
Proof.
  intros Hpos. destruct (learned_entry routes now e evi mac) as (v & Hv & Hl & Hs).
  exists v. split_and!; try done.
  - intros r Er. rewrite Er in Hs. destruct (dget (local e) _) as [old|]; [|lia].
    destruct (_ <? _) eqn:E; bool_to_prop; split; try lia. intros H. specialize (H old eq_refl). lia.
  - intros old Eo. rewrite Eo in Hs. apply dget_Some_in in Eo. rewrite Forall_forall in Hpos.
    specialize (Hpos _ Eo). simpl in Hpos.
    destruct (dget routes _); [|rewrite Hs; lia]. destruct (_ <? _) eqn:E; bool_to_prop; lia.
  - intros k Hk. unfold learned. repeat case_match; simpl; by apply dget_dset_ne.
Qed.

Definition sample_installed (evi : Z) (mac sid peer : string) (q : Z) : installed :=
  Installed (Route (Record_ (mac_key evi mac) 2 evi None (Some mac) None) sid peer "End.DX2" "65000:201" q) peer.

Lemma learned_outbids_witness :
  exists v, dget (local (learned [(mac_key 201 "02:00:00:00:0a:21", sample_installed 201 "02:00:00:00:0a:21" "fd00::20" "fd00::2" 4)]
                     9 (init []) 201 "02:00:00:00:0a:21")) (mac_key 201 "02:00:00:00:0a:21") = Some v /\ last_seen v = 9.
Proof.
  destruct (learned_outbids [(mac_key 201 "02:00:00:00:0a:21", sample_installed 201 "02:00:00:00:0a:21" "fd00::20" "fd00::2" 4)]
    9 (init []) 201 "02:00:00:00:0a:21") as (v & H & Hl & _); [constructor|]. by exists v.
Defined.

(** ** Forwarding *)

(** A frame behind its segment routing header. *)
Definition encapsulated (v : Z) (frame : list byte) : list byte :=
  lit [143; 2; 4; 0; 0; 0; 0; 0] ++ be_enc 16 v ++ frame.

Section ReceiveLemmas.
Context (sendto : string -> list byte -> option string).

Lemma srh_Ok v : srh v = Ok (lit [143; 2; 4; 0; 0; 0; 0; 0] ++ be_enc 16 v).
Proof. reflexivity. Qed.

(** The copies a loop over [targets] hands to the kernel. *)
Lemma replicate_sent unicast frame targets st st' :
  foldM (replicate_to sendto unicast frame) st targets = Ok st' ->
  exists sent, st'.2 = st.2 ++ sent /\
    Forall (fun p => exists r v, r ∈ targets /\ p.1 = sid (route_of r) /\ ipv6_parse p.1 = Ok v /\
      p.2 = encapsulated v frame) sent /\
    len sent + (dropped (counts st'.1) - dropped (counts st.1)) = len targets /\
    (if unicast then unicast_copies (counts st'.1) - unicast_copies (counts st.1) else bum_copies (counts st'.1) - bum_copies (counts st.1)) = len sent.
Proof.
  revert st. induction targets as [|r targets IH]; intros st; cbn [foldM].
  - intros [= <-]. exists []. rewrite app_nil_r.
    split_and!; [done|apply Forall_nil_2|unfold len; simpl; lia|unfold len; destruct unicast; simpl; lia].
  - rewrite bind_Ok. intros (st1 & H1 & H2). unfold replicate_to in H1.
    apply bind_Ok in H1 as (v & Hv & H1). rewrite srh_Ok in H1. cbn [mbind res_bind] in H1.
    apply IH in H2 as (sent & Hs & Hall & Hn & Hu). clear IH.
    assert (Forall (fun p => exists r0 v0, r0 ∈ r :: targets /\ p.1 = sid (route_of r0) /\ ipv6_parse p.1 = Ok v0 /\
      p.2 = encapsulated v0 frame) sent) as Hall'.
    { eapply Forall_impl; [exact Hall|]. intros p (r0 & v0 & Hin & ?). exists r0, v0. split; [by right|done]. }
    destruct (sendto _ _) as [err|]; injection H1 as <-; simpl in *.
    + exists sent. rewrite len_cons. split_and!; [done|done|lia|]. by destruct unicast.
    + eexists (_ :: sent). rewrite <- app_assoc in Hs. split_and!; [exact Hs| | |].
      * constructor; [|done]. exists r, v. split_and!; [left|done|done|done].
      * rewrite !len_cons. destruct unicast; simpl in *; lia.
      * rewrite len_cons. destruct unicast; simpl in *; lia.
Qed.

(** C37.  Tenant isolation of the ingress: whatever the frame, each copy that leaves
    goes to the SID of a route of the frame's own EVI and carries the SRH for that SID
    followed by the frame unchanged. *)
Theorem receive_isolated (routes : list (string * installed)) (now : Z) (sv : service) (pkttype : Z)
    (frame : list byte) (e e' : ethernet) (sent : list (string * list byte)) :
  routes_ok routes -> receive sendto routes now sv pkttype frame e = Ok (e', sent) ->
  Forall (fun p => exists k r v, (k, r) ∈ routes /\ Codec.evi (rec (route_of r)) = s_evi sv /\
    p.1 = sid (route_of r) /\ ipv6_parse p.1 = Ok v /\
    p.2 = encapsulated v frame) sent.
Proof.
  intros Hok. unfold receive. destruct (_ || _); [by intros [= _ <-]|].
  destruct (beq _ _); [by intros [= _ <-]|]. rewrite bind_Ok. intros (b6 & _ & H). revert H.
  destruct (_ || _); [by intros [= _ <-]|]. rewrite bind_Ok. intros (b0 & _ & H). cbv zeta in H.
  apply replicate_sent in H as (l & Hs & Hall & _). simpl in Hs. subst l.
  eapply Forall_impl; [exact Hall|]. clear Hall. intros p (r & v & Hin & Hsid & Hpv & Hpk). simpl in Hin.
  unfold routes_ok in Hok. rewrite Forall_forall in Hok.
  destruct (if Z.land b0 1 =? 0 then _ else _) as [r'|] eqn:Er.
  - apply list_elem_of_singleton in Hin as ->.
    assert ((mac_key (s_evi sv) (mac_str (slice frame 0 6)), r') ∈ routes) as Hr.
    { destruct (Z.land b0 1 =? 0); [by apply dget_Some_in|done]. }
    destruct (Hok _ Hr) as [Hk Hd]. simpl in *. symmetry in Hk. apply keyed_mac in Hk as (_ & He & _); [|done].
    eexists _, r', v. by split_and!.
  - apply list_elem_of_In, filter_In in Hin as [Hin He]. bool_to_prop.
    apply in_map_iff in Hin as ([k r'] & E & Hin). simpl in E. subst r'.
    exists k, r, v. split_and!; [by apply list_elem_of_In|done..].
Qed.

(** Split horizon and site containment: a frame that End.DX2 delivered, a short
    one, a link-local bridge control frame and one with a group or null source are
    neither learned nor counted nor forwarded. *)
Theorem receive_contained (routes : list (string * installed)) (now : Z) (sv : service) (pkttype : Z)
    (frame : list byte) (e : ethernet) :
  pkttype = PACKET_OUTGOING \/ len frame < 14 \/ slice frame 0 5 = lit [1; 128; 194; 0; 0] \/
  slice frame 6 12 = zeros 6 \/ (exists b, byte_at frame 6 = Ok b /\ Z.odd b = true) ->
  receive sendto routes now sv pkttype frame e = Ok (e, []).
Proof.
  intros H. unfold receive. destruct (_ || _) eqn:E1; [done|]. destruct (beq _ _) eqn:E2; [done|]. bool_to_prop.
  destruct (byte_at frame 6) as [b|x] eqn:E6.
  - cbn [mbind res_bind]. destruct (_ || _) eqn:E3; [done|]. apply orb_false_elim in E3 as [E3 E4].
    apply negb_false_iff, Z.eqb_eq in E3. exfalso.
    destruct H as [H|[H|[H|[H|(b' & [= <-] & Ho)]]]]; try done; try lia.
    + apply beq_true in H. congruence.
    + apply beq_true in H. congruence.
    + rewrite <- Z.bit0_odd in Ho. apply (f_equal (fun z => Z.testbit z 0)) in E3.
      rewrite Z.land_spec, Ho in E3. done.
  - exfalso. unfold byte_at in E6.
    destruct (lookup_lt_is_Some_2 frame (Z.to_nat 6)) as [b Hb]; [unfold len in *; lia|].
    by rewrite Hb in E6.
Qed.

End ReceiveLemmas.

Definition sample_routes : list (string * installed) :=
  [(mac_key 201 "02:00:00:00:0a:21", sample_installed 201 "02:00:00:00:0a:21" "fd00::20" "fd00::2" 4)].

(** A frame for 02:00:00:00:0a:21. *)
Definition sample_frame : list byte := lit [2; 0; 0; 0; 10; 33; 2; 0; 0; 0; 10; 34; 8; 0; 1; 2; 3].

Lemma receive_isolated_witness :
  Forall (fun p => exists k r v, (k, r) ∈ sample_routes /\ Codec.evi (rec (route_of r)) = 201 /\
    p.1 = sid (route_of r) /\ ipv6_parse p.1 = Ok v /\ p.2 = encapsulated v sample_frame)
    [("fd00::20", encapsulated (253 * 2 ^ 120 + 32) sample_frame)].
Proof.
  apply (receive_isolated (fun _ _ => None) sample_routes 7 (Service 201 "br201" "fd00::1:201") 0 sample_frame (init [])
    (with_counts (count_copy true) (learned sample_routes 7 (with_counts count_frame (init [])) 201 "02:00:00:00:0a:22"))).
  - constructor; [|constructor]. split; [reflexivity|]. left. split; [reflexivity|]. by eexists.
  - vm_compute. reflexivity.
Defined.

Lemma receive_contained_witness :
  receive (fun _ _ => None) sample_routes 7 (Service 201 "br201" "fd00::1:201") 4 sample_frame (init []) = Ok (init [], []).
Proof. apply receive_contained. by left. Defined.

End Ethernet.
