(* ===== verification/EvpnSpeaker.v ===== *)
(** * EvpnSpeaker: the gateway's iBGP EVPN/SRv6 speaker (lab/live/evpn_speaker.py)

    The speaker is one asyncio loop: what runs between two [await]s is atomic, so the
    model is a step function on the whole speaker.  An [event] is what ends an [await]:
    a TCP connection, a message or an exception from [receive], the end of a keepalive
    or publication pause, a frame on a local bridge.  The step returns the new state
    and what the code writes, closes, runs and reports.  A task that ends with an
    exception stops the speaker, as [spawn] makes it.  [publish] is one step: the
    sessions do not run between the drains of two peers. *)

From S2P Require Import Prelude Bytes Text EvpnCodec EvpnL2.

Module Speaker.
Import Codec Ethernet.

(** ** Definitions *)

(** What [readexactly] says when the stream ends first. *)
Definition incomplete (have want : Z) : exn :=
  IncompleteReadError (pretty have +:+ " bytes read on a total of " +:+ pretty want +:+ " expected bytes").

(** [readexactly(n)] on what the stream will deliver before its end. *)
Definition readexactly (n : Z) (stream : list byte) : res (list byte * list byte) :=
  raise (incomplete (len stream) n) when (len stream <? n) ;;
  Ok (slice stream 0 n, from stream n).

(** [receive] without its time limit: one BGP message of the stream, and the rest. *)
Definition receive (stream : list byte) : res (Z * list byte * list byte) :=
  let* (header, stream) := readexactly 19 stream in
  let size := be_dec (slice header 16 18) in
  let kind := be_dec (slice header 18 19) in
  raise (ValueError "invalid BGP header") when
    negb (beq (slice header 0 16) (repeat xff 16)) || negb ((19 <=? size) && (size <=? 4096))
    || negb (mem kind [1; 2; 3; 4]) ;;
  let* (body, stream) := readexactly (size - 19) stream in
  Ok (kind, body, stream).

(** The configuration file: what this gateway exports, and what it may import. *)
Record import := Import { i_peer : string; locator : string; tables : list Z }.

Record config := Config {
  router_id : string; address : string; c_sid : string;
  c_exports : list string; export_sids : list (string * string);
  imports : list (string * import); peers : list string; l2 : list service }.

(** Where a session's coroutine waits: for the OPEN, for the first KEEPALIVE, or in
    its main loop; with the negotiated hold time. *)
Inductive phase :=
| AwaitOpen
| AwaitKeepalive (hold : Z)
| Receiving (hold : Z).

(** The announcement and the withdrawal of one exported key. *)
Abbreviation entry := (list byte * list byte)%type.

Record speaker := MkSpeaker {
  routes : list (string * installed);
  sessions : list (string * string);
  errors : list (string * string);
  ethernet : ethernet;
  peer_routes : list (string * list (string * installed));
  writers : list (string * nat);
  advertised : list (string * list (string * entry));
  fatal_error : option exn;
  stopping : bool;
  (** the coroutines that own a session, with their connection *)
  running : list (string * (nat * phase)) }.

Definition init (c : config) : speaker :=
  MkSpeaker [] [] [] (Ethernet.init (l2 c)) [] [] [] None false [].

Definition with_routes v s := MkSpeaker v (sessions s) (errors s) (ethernet s) (peer_routes s) (writers s) (advertised s) (fatal_error s) (stopping s) (running s).
Definition with_sessions v s := MkSpeaker (routes s) v (errors s) (ethernet s) (peer_routes s) (writers s) (advertised s) (fatal_error s) (stopping s) (running s).
Definition with_errors v s := MkSpeaker (routes s) (sessions s) v (ethernet s) (peer_routes s) (writers s) (advertised s) (fatal_error s) (stopping s) (running s).
Definition with_ethernet v s := MkSpeaker (routes s) (sessions s) (errors s) v (peer_routes s) (writers s) (advertised s) (fatal_error s) (stopping s) (running s).
Definition with_peer_routes v s := MkSpeaker (routes s) (sessions s) (errors s) (ethernet s) v (writers s) (advertised s) (fatal_error s) (stopping s) (running s).
Definition with_writers v s := MkSpeaker (routes s) (sessions s) (errors s) (ethernet s) (peer_routes s) v (advertised s) (fatal_error s) (stopping s) (running s).
Definition with_advertised v s := MkSpeaker (routes s) (sessions s) (errors s) (ethernet s) (peer_routes s) (writers s) v (fatal_error s) (stopping s) (running s).
Definition with_fatal v s := MkSpeaker (routes s) (sessions s) (errors s) (ethernet s) (peer_routes s) (writers s) (advertised s) v true (running s).
Definition with_running v s := MkSpeaker (routes s) (sessions s) (errors s) (ethernet s) (peer_routes s) (writers s) (advertised s) (fatal_error s) (stopping s) v.

(** [sorted(d.items(), reverse=True)]: the keys of a dictionary are distinct, so the
    values are never compared. *)
Definition items_desc {V} (d : list (string * V)) : list (string * V) :=
  sort_by (fun a b => String.leb b.1 a.1) d.

(** The inner loop of [select_routes] *)
Definition select_peer (acc : list (string * installed)) (rs : list (string * installed)) : list (string * installed) :=
  fold_left (fun acc kr =>
    match dget acc kr.1 with
    | Some best => if sequence (route_of best) <=? sequence (route_of kr.2) then dset acc kr.1 kr.2 else acc
    | None => dset acc kr.1 kr.2
    end) rs acc.

Definition select (pr : list (string * list (string * installed))) : list (string * installed) :=
  fold_left (fun acc prs => select_peer acc prs.2) (items_desc pr) [].

Definition select_routes (s : speaker) : speaker := with_routes (select (peer_routes s)) s.

Section Config.
Context (c : config).

Definition export_prefix (result : list (string * entry)) (prefix : string) : res (list (string * entry)) :=
  let sid := default (c_sid c) (dget (export_sids c) prefix) in
  let* a := update (router_id c) prefix (address c) sid false in
  let* w := update (router_id c) prefix (address c) sid true in
  Ok (dset result prefix (a, w)).

Definition imet_key (evi : Z) : string := "imet:" +:+ pretty evi.

Definition export_imet (result : list (string * entry)) (es : Z * service) : res (list (string * entry)) :=
  let* a := l2_update (router_id c) es.1 (address c) (s_sid es.2) None 0 false in
  let* w := l2_update (router_id c) es.1 (address c) (s_sid es.2) None 0 true in
  Ok (dset result (imet_key es.1) (a, w)).

Definition export_mac (services : list (Z * service)) (result : list (string * entry)) (km : string * local_mac) : res (list (string * entry)) :=
  let m := km.2 in
  let* sv := or_raise KeyError (dget services (l_evi m)) in
  let* a := l2_update (router_id c) (l_evi m) (address c) (s_sid sv) (Some (l_mac m)) (l_sequence m) false in
  let* w := l2_update (router_id c) (l_evi m) (address c) (s_sid sv) (Some (l_mac m)) 0 true in
  Ok (dset result km.1 (a, w)).

(** The first two loops of [exports]. *)
Definition export_static (e : Ethernet.ethernet) : res (list (string * entry)) :=
  let* result := foldM export_prefix [] (c_exports c) in
  foldM export_imet result (services e).

(** [exports]: what the gateway should be announcing at [now].  The last loop asks
    [ethernet.exports], which forgets the stale MAC addresses. *)
Definition exports (now : Z) (s : speaker) : speaker * res (list (string * entry)) :=
  match export_static (ethernet s) with
  | Err e => (s, Err e)
  | Ok result =>
      let e := Ethernet.exports now (ethernet s) in
      (with_ethernet e s, foldM (export_mac (services e)) result (local e))
  end.

(** What a step does to the outside. *)
Inductive output :=
| Write (conn : nat) (data : list byte)
| Close (conn : nat)
| Ip (argv : list string)
| Send (sid : string) (packet : list byte)
| Report (sessions : list (string * string)) (routes : list (string * installed)) (errors : list (string * string)).

(** The [finally] of an owned session. *)
Definition session_end (peer : string) (conn : nat) (s : speaker) : speaker * list output :=
  let s := with_sessions (dpop (sessions s) peer) s in
  let s := with_writers (dpop (writers s) peer) s in
  let s := with_advertised (dpop (advertised s) peer) s in
  let s := with_peer_routes (dpop (peer_routes s) peer) s in
  let s := select_routes s in
  (with_running (dpop (running s) peer) s, [Close conn]).

(** The exceptions [session] catches. *)
Definition session_catches (e : exn) : bool :=
  match e with
  | OSError _ | ConnectionError _ | InterruptedError _ | ValueError _ | TimeoutError | IncompleteReadError _ => true
  | _ => false
  end.

(** [done] of [spawn]: a task that ends with an exception stops the speaker. *)
Definition task_failed (e : exn) (s : speaker) : speaker := with_fatal (Some e) s.

(** An exception inside the [try] of an owned session. *)
Definition session_raise (peer : string) (conn : nat) (e : exn) (s : speaker) : speaker * list output :=
  if session_catches e
  then session_end peer conn (with_errors (dset (errors s) peer (str_tail 300 (exn_str e))) s)
  else let '(s, out) := session_end peer conn s in (task_failed e s, out).

(** [session] up to its first [receive]. *)
Definition session_start (peer : string) (conn : nat) (s : speaker) : speaker * list output :=
  if negb (mem peer (peers c)) || dhas (sessions s) peer then (s, [Close conn]) else
  let s := with_sessions (dset (sessions s) peer "OpenSent") s in
  match open_message (router_id c) with
  | Err e => session_raise peer conn e s
  | Ok m => (with_running (dset (running s) peer (conn, AwaitOpen)) s, [Write conn m])
  end.

(** The first message: the peer's OPEN, answered with a KEEPALIVE. *)
Definition session_open (peer : string) (conn : nat) (kind : Z) (body : list byte) (s : speaker) : speaker * list output :=
  let r :=
    raise (ValueError "expected OPEN") when negb (kind =? 1) ;;
    let* hold := read_open body in
    let* m := message 4 [] in
    Ok (hold, m) in
  match r with
  | Err e => session_raise peer conn e s
  | Ok (hold, m) => (with_running (dset (running s) peer (conn, AwaitKeepalive hold)) s, [Write conn m])
  end.

(** The second message, a KEEPALIVE, establishes the session and announces everything. *)
Definition session_establish (peer : string) (conn : nat) (hold : Z) (kind : Z) (body : list byte) (now : Z) (s : speaker) : speaker * list output :=
  if negb (kind =? 4) || negb (bool_decide (body = [])) then session_raise peer conn (ValueError "expected KEEPALIVE") s else
  let s := with_sessions (dset (sessions s) peer "Established") s in
  let s := with_errors (dpop (errors s) peer) s in
  let s := with_writers (dset (writers s) peer conn) s in
  let s := with_peer_routes (dset (peer_routes s) peer []) s in
  match exports now s with
  | (s, Err e) => session_raise peer conn e s
  | (s, Ok ex) =>
      let s := with_advertised (dset (advertised s) peer ex) s in
      (with_running (dset (running s) peer (conn, Receiving hold)) s, map (fun ke => Write conn ke.2.1) ex)
  end.

(** [str(IPv6Network(peer + '/64', strict=False))] *)
Definition peer_locator (peer : string) : res string :=
  let* net := ipv6_network false (peer +:+ "/64") in
  Ok (ipv6_str net.1 +:+ "/" +:+ pretty net.2).

(** The [expected] locator of a route from [peer]; [None] where the code says [continue]. *)
Definition expected_locator (svcs : list (Z * service)) (peer : string) (r : route) : res (option string) :=
  if route_type (rec r) =? 5 then
    match prefix (rec r) with
    | None => Err KeyError
    | Some p =>
        match dget (imports c) p with
        | Some i => if String.eqb (i_peer i) peer then Ok (Some (locator i)) else Ok None
        | None => Ok None
        end
    end
  else if dhas svcs (evi (rec r)) then Some <$> peer_locator peer else Ok None.

(** [route['nexthop'] != peer or sid not in locator] *)
Definition rejected (peer loc : string) (r : route) : res bool :=
  if negb (String.eqb (nexthop r) peer) then Ok true else
  let* s := ipv6_parse (sid r) in
  let* net := ipv6_network true loc in
  Ok (negb (in_network 128 s net)).

(** The body of [for route in routes], on the routes of [peer]. *)
Definition import_route (svcs : list (Z * service)) (peer : string) (rs : list (string * installed)) (r : route) : res (list (string * installed)) :=
  let* expected := expected_locator svcs peer r in
  match expected with
  | None => Ok rs
  | Some loc =>
      let* bad := rejected peer loc r in
      if bad : bool then Ok (dpop rs (key (rec r)))
      else Ok (dset rs (key (rec r)) (Installed r peer))
  end.

(** One UPDATE on the routes of [peer]. *)
Definition import_update (svcs : list (Z * service)) (peer : string) (rs : list (string * installed)) (body : list byte) : res (list (string * installed)) :=
  let* (announced, withdrawn) := read_update body in
  foldM (import_route svcs peer) (fold_left dpop withdrawn rs) announced.

(** One turn of the main loop of [session]. *)
Definition session_receive (peer : string) (conn : nat) (kind : Z) (body : list byte) (s : speaker) : speaker * list output :=
  if (kind =? 4) && bool_decide (body = []) then (s, []) else
  if negb (kind =? 2) then session_raise peer conn (ValueError "unexpected BGP message / NOTIFICATION") s else
  let rs := match dget (peer_routes s) peer with
    | Some rs => import_update (services (ethernet s)) peer rs body
    | None => Err KeyError
    end in
  match rs with
  | Err e => session_raise peer conn e s
  | Ok rs => (select_routes (with_peer_routes (dset (peer_routes s) peer rs) s), [])
  end.

(** What [publish] writes to a peer: withdrawals of what is no longer exported, then
    announcements of what is new or changed. *)
Definition publish_delta (old new : list (string * entry)) : list (list byte) :=
  map (fun ke => ke.2.2) (List.filter (fun ke => negb (dhas new ke.1)) old) ++
  map (fun ke => ke.2.1) (List.filter (fun ke => negb (bool_decide (dget old ke.1 = Some ke.2))) new).

(** The [try] of [publish] for one peer; [drained conn] tells whether the writes went out
    within two seconds, without an [OSError]. *)
Definition publish_peer (drained : nat -> bool) (ex : list (string * entry)) (st : speaker * list output) (pw : string * nat) : speaker * list output :=
  let '(peer, conn) := pw in
  let s := st.1 in
  let old := default [] (dget (advertised s) peer) in
  let writes := map (Write conn) (publish_delta old ex) in
  if drained conn
  then (with_advertised (dset (advertised s) peer ex) s, st.2 ++ writes)
  else (s, st.2 ++ writes ++ [Close conn]).

(** The routes an import without a route must not fall back from. *)
Definition unreachable_commands (s : speaker) : list (list string) :=
  flat_map (fun pi =>
    if dhas (routes s) pi.1 then []
    else map (fun t => ["ip"; "route"; "replace"; "unreachable"; pi.1; "table"; pretty t]) (tables pi.2)) (imports c).

(** Commands run one by one until one fails; [ip] returns the error output of a failure. *)
Fixpoint run_commands (ip : list string -> option string) (cmds : list (list string)) : list output * option exn :=
  match cmds with
  | [] => ([], None)
  | cmd :: rest =>
      match ip cmd with
      | Some err => ([Ip cmd], Some (RuntimeError ("EVPN withdrawal failed: " +:+ err)))
      | None => let '(out, e) := run_commands ip rest in (Ip cmd :: out, e)
      end
  end.

(** One turn of [publish]. *)
Definition publish (now : Z) (drained : nat -> bool) (ip : list string -> option string) (s : speaker) : speaker * list output :=
  match exports now s with
  | (s, Err e) => (task_failed e s, [])
  | (s, Ok ex) =>
      let '(s, out) := fold_left (publish_peer drained ex) (writers s) (s, []) in
      match run_commands ip (unreachable_commands s) with
      | (cmds, Some e) => (task_failed e s, out ++ cmds)
      | (cmds, None) => (s, out ++ cmds ++ [Report (sessions s) (routes s) (errors s)])
      end
  end.

Inductive event :=
| Accept (conn : nat) (peer : string)
| Packet (peer : string) (kind : Z) (body : list byte) (now : Z)
| Raised (peer : string) (e : exn)
| Keep (peer : string)
| Frame (evi : Z) (pkttype : Z) (frame : list byte) (now : Z) (sendto : string -> list byte -> option string)
| Publish (now : Z) (drained : nat -> bool) (ip : list string -> option string)
| Unreachable (peer : string) (e : exn)
| Stop.

Definition handle (s : speaker) (ev : event) : speaker * list output :=
  match ev with
  | Accept conn peer => session_start peer conn s
  | Packet peer kind body now =>
      match dget (running s) peer with
      | None => (s, [])
      | Some (conn, AwaitOpen) => session_open peer conn kind body s
      | Some (conn, AwaitKeepalive hold) => session_establish peer conn hold kind body now s
      | Some (conn, Receiving _) => session_receive peer conn kind body s
      end
  | Raised peer e =>
      match dget (running s) peer with
      | None => (s, [])
      | Some (conn, _) => session_raise peer conn e s
      end
  | Keep peer =>
      match dget (running s) peer, message 4 [] with
      | Some (conn, Receiving _), Ok m => (s, [Write conn m])
      | _, _ => (s, [])
      end
  | Frame evi pkttype frame now sendto =>
      match dget (services (ethernet s)) evi with
      | None => (s, [])
      | Some sv =>
          match Ethernet.receive sendto (routes s) now sv pkttype frame (ethernet s) with
          | Ok (e, sent) => (with_ethernet e s, map (fun p => Send p.1 p.2) sent)
          | Err e => (task_failed e s, [])
          end
      end
  | Publish now drained ip => publish now drained ip s
  | Unreachable peer e => (with_errors (dset (errors s) peer (str_tail 300 (exn_str e))) s, [])
  | Stop => (with_fatal (fatal_error s) s, [])
  end.

(** The [finally] of [run]: every task is cancelled, so every session ends. *)
Definition shutdown (s : speaker) : speaker * list output :=
  let '(s, out) := fold_left (fun st pc => let '(s, out) := session_end pc.1 pc.2.1 st.1 in (s, st.2 ++ out)) (running s) (s, []) in
  (s, out ++ [Report [] [] []]).

Definition step (s : speaker) (ev : event) : speaker * list output :=
  if stopping s then (s, []) else
  let '(s, out) := handle s ev in
  if stopping s then let '(s, out') := shutdown s in (s, out ++ out') else (s, out).

Definition run (s : speaker) (evs : list event) : speaker :=
  fold_left (fun s ev => (step s ev).1) evs s.

(** [connect] is started only towards the peers with a higher address. *)
Definition connects (peer : string) : res bool :=
  let* a := ipv6_parse (address c) in
  let* p := ipv6_parse peer in
  Ok (a <? p).

End Config.

(** ** Route selection *)

(** Of two routes under one key, the one [select_routes] keeps after seeing the first. *)
Definition better (a b : option installed) : option installed :=
  match a, b with
  | Some x, Some y => if sequence (route_of x) <=? sequence (route_of y) then Some y else Some x
  | None, _ => b
  | _, None => a
  end.

Lemma select_peer_get acc rs k : d_ok rs -> dget (select_peer acc rs) k = better (dget acc k) (dget rs k).
Proof.
  revert acc. induction rs as [|[k1 r1] rs IH]; intros acc Hok; simpl.
  - by destruct (dget acc k).
  - unfold d_ok in Hok. apply NoDup_cons in Hok as [Hn Hok]. fold (dkeys rs) in Hn, Hok.
    fold (select_peer (match dget acc k1 with
      | Some best => if sequence (route_of best) <=? sequence (route_of r1) then dset acc k1 r1 else acc
      | None => dset acc k1 r1 end) rs). rewrite IH by done.
    destruct (decide (k = k1)) as [->|Hk].
    + apply dget_None in Hn. simpl in Hn. rewrite Hn.
      destruct (dget acc k1) as [b|] eqn:Eb; [destruct (_ <=? _) eqn:E|];
        rewrite ?dget_dset_eq, ?Eb; simpl; rewrite ?E; done.
    + f_equal.
      destruct (dget acc k1); [destruct (_ <=? _)|]; by rewrite ?dget_dset_ne.
Qed.

Lemma select_get pr k :
  Forall (fun prs => d_ok prs.2) pr ->
  dget (select pr) k = fold_left (fun a prs => better a (dget prs.2 k)) (items_desc pr) None.
Proof.
  intros Hok. unfold select.
  assert (Forall (fun prs => d_ok prs.2) (items_desc pr)) as Hd by (unfold items_desc; by rewrite sort_by_perm).
  clear Hok. revert Hd. generalize (items_desc pr) as l. intros l Hd.
  change (@None installed) with (dget ([] : list (string * installed)) k). generalize ([] : list (string * installed)) as acc.
  induction Hd as [|[p rs] l Hrs Hd IH]; intros acc; simpl; [done|].
  rewrite IH. by rewrite select_peer_get.
Qed.

Lemma items_desc_sorted {V} (d : list (string * V)) :
  StronglySorted (fun a b => String.leb b.1 a.1 = true) (items_desc d).
Proof.
  apply (sort_by_sorted (fun a b => String.leb b.1 a.1)).
  - intros a b. apply String.leb_total.
  - intros a b x H1 H2. by eapply string_leb_trans.
Qed.

(** The winner of a pass over peers in decreasing order. *)
Lemma best_of_desc (k : string) (l : list (string * list (string * installed))) :
  StronglySorted (fun a b => String.leb b.1 a.1 = true) l ->
  match fold_left (fun a prs => better a (dget prs.2 k)) l None with
  | None => forall p rs, (p, rs) ∈ l -> dget rs k = None
  | Some r => exists p rs, (p, rs) ∈ l /\ dget rs k = Some r /\
      forall p' rs' r', (p', rs') ∈ l -> dget rs' k = Some r' ->
        sequence (route_of r') < sequence (route_of r) \/
        sequence (route_of r') = sequence (route_of r) /\ String.leb p p' = true
  end.
Proof.
  induction l as [|[p rs] l IH] using rev_ind; intros Hs; [simpl; intros ? ? H; by apply not_elem_of_nil in H|].
  assert (forall x, x ∈ l -> String.leb p x.1 = true) as Hle.
  { intros x Hx. apply (StronglySorted_app_1_elem_of _ _ _ x (p, rs) Hs); [done|]. left. }
  apply StronglySorted_app_1_l in Hs. specialize (IH Hs).
  rewrite fold_left_app. simpl. destruct (fold_left _ l None) as [x|].
  - destruct IH as (px & rx & Hin & Hx & Hbest). unfold better. destruct (dget rs k) as [y|] eqn:Ey.
    + destruct (_ <=? _) eqn:E; bool_to_prop.
      * exists p, rs. split_and!; [set_solver|done|]. intros p' rs' r' H Hr.
        apply elem_of_app in H as [H|H].
        -- pose proof (Hle _ H) as Hl. destruct (Hbest _ _ _ H Hr) as [|[? ?]]; simpl in *; [left; lia|].
           destruct (Z.eq_dec (sequence (route_of x)) (sequence (route_of y))); [right; split; [lia|done]|left; lia].
        -- apply list_elem_of_singleton in H as [= -> ->]. right. split; [congruence|].
           destruct (String.leb_total p p) as [|]; done.
      * exists px, rx. split_and!; [set_solver|done|]. intros p' rs' r' H Hr.
        apply elem_of_app in H as [H|H]; [by eapply Hbest|]. apply list_elem_of_singleton in H as [= -> ->].
        assert (r' = y) as -> by congruence. left. lia.
    + exists px, rx. split_and!; [set_solver|done|]. intros p' rs' r' H Hr.
      apply elem_of_app in H as [H|H]; [by eapply Hbest|]. apply list_elem_of_singleton in H as [= -> ->]. congruence.
  - unfold better. destruct (dget rs k) as [y|] eqn:Ey.
    + exists p, rs. split_and!; [set_solver|done|]. intros p' rs' r' H Hr.
      apply elem_of_app in H as [H|H]; [by rewrite (IH _ _ H) in Hr|]. apply list_elem_of_singleton in H as [= -> ->].
      right. split; [congruence|]. destruct (String.leb_total p p) as [|]; done.
    + intros p' rs' H. apply elem_of_app in H as [H|H]; [by eapply IH|]. by apply list_elem_of_singleton in H as [= -> ->].
Qed.

(** Best path: under each key, [select_routes] keeps a route some peer holds,
    with the highest mobility sequence, and on a tie the one of the lowest peer
    address; a key no peer holds is not selected.  The order in which sessions came up
    plays no part. *)
Theorem select_routes_best (s : speaker) (k : string) :
  Forall (fun prs => d_ok prs.2) (peer_routes s) ->
  match dget (routes (select_routes s)) k with
  | None => forall p rs, (p, rs) ∈ peer_routes s -> dget rs k = None
  | Some r => exists p rs, (p, rs) ∈ peer_routes s /\ dget rs k = Some r /\
      forall p' rs' r', (p', rs') ∈ peer_routes s -> dget rs' k = Some r' ->
        sequence (route_of r') < sequence (route_of r) \/
        sequence (route_of r') = sequence (route_of r) /\ String.leb p p' = true
  end.
Proof.
  intros Hok. change (routes (select_routes s)) with (select (peer_routes s)). rewrite select_get by done.
  pose proof (best_of_desc k _ (items_desc_sorted (peer_routes s))) as H.
  assert (forall x, x ∈ items_desc (peer_routes s) <-> x ∈ peer_routes s) as Hp.
  { intros x. unfold items_desc. by rewrite sort_by_perm. }
  destruct (fold_left _ _ None) as [r|].
  - destruct H as (p & rs & Hin & Hr & Hb). exists p, rs. split_and!; [by apply Hp|done|].
    intros p' rs' r' Hin'. apply Hb. by apply Hp.
  - intros p rs Hin. apply (H p). by apply Hp.
Qed.

Definition sample_speaker : speaker :=
  with_peer_routes
    [("fd00::2", [(mac_key 201 "02:00:00:00:0a:21", sample_installed 201 "02:00:00:00:0a:21" "fd00::20" "fd00::2" 4)]);
     ("fd00::3", [(mac_key 201 "02:00:00:00:0a:21", sample_installed 201 "02:00:00:00:0a:21" "fd00::30" "fd00::3" 5)])]
    (init (Config "10.0.0.1" "fd00::1" "fd00::100" [] [] [] [] [])).

Lemma select_routes_best_witness :
  exists p rs, (p, rs) ∈ peer_routes sample_speaker /\
    dget rs (mac_key 201 "02:00:00:00:0a:21") = Some (sample_installed 201 "02:00:00:00:0a:21" "fd00::30" "fd00::3" 5).
Proof.
  pose proof (select_routes_best sample_speaker (mac_key 201 "02:00:00:00:0a:21")) as H.
  destruct H as (p & rs & Hin & Hr & _).
  - repeat constructor; simpl; set_solver.
  - by exists p, rs.
Defined.

(** ** The invariant of the speaker *)

Lemma select_from pr k r :
  Forall (fun prs => d_ok prs.2) pr -> dget (select pr) k = Some r ->
  exists p rs, (p, rs) ∈ pr /\ dget rs k = Some r.
Proof.
  intros Hok. rewrite select_get by done. intros H.
  pose proof (best_of_desc k _ (items_desc_sorted pr)) as Hb. rewrite H in Hb.
  destruct Hb as (p & rs & Hin & Hr & _). exists p, rs. split; [|done].
  unfold items_desc in Hin. by rewrite sort_by_perm in Hin.
Qed.

(** A peer without routes does not affect the selection. *)
Lemma select_nonempty pr :
  select pr = select (List.filter (fun prs => negb (bool_decide (prs.2 = []))) pr).
Proof.
  unfold select, items_desc. rewrite <- (sort_by_filter (fun a b => String.leb b.1 a.1)).
  - generalize (sort_by (fun a b => String.leb b.1 a.1) pr) as l. intros l.
    enough (forall acc, fold_left (fun acc prs => select_peer acc prs.2) l acc = fold_left (fun acc prs => select_peer acc prs.2)
      (List.filter (fun prs => negb (bool_decide (prs.2 = []))) l) acc) by done.
    induction l as [|[p rs] l IH]; intros acc; simpl; [done|].
    case_bool_decide as E; simpl in E; [subst rs; apply IH|simpl; apply IH].
  - intros a b. apply String.leb_total.
  - intros a b x H1 H2. by eapply string_leb_trans.
Qed.

Lemma select_new_peer pr peer : dhas pr peer = false -> select (dset pr peer []) = select pr.
Proof.
  intros H. rewrite (select_nonempty (dset pr peer [])), (select_nonempty pr), dset_new by done.
  by rewrite List.filter_app, app_nil_r.
Qed.

Section Invariant.
Context (c : config).

Definition phase_name (ph : phase) : string :=
  match ph with Receiving _ => "Established" | _ => "OpenSent" end.

(** The connection of a session in its main loop. *)
Definition established (o : option (nat * phase)) : option nat :=
  match o with Some (conn, Receiving _) => Some conn | _ => None end.

Definition is_some {A} (o : option A) : bool := match o with Some _ => true | None => false end.

Definition svcs : list (Z * service) := services (Ethernet.init (l2 c)).

(** A route that passed the import policy of its peer. *)
Definition imported (peer : string) (kr : string * installed) : Prop :=
  kr.1 = key (rec (route_of kr.2)) /\ keyed (rec (route_of kr.2)) /\ announced_ok (route_of kr.2) /\
  via kr.2 = peer /\ nexthop (route_of kr.2) = peer /\
  exists loc v net, expected_locator c svcs peer (route_of kr.2) = Ok (Some loc) /\
    ipv6_parse (sid (route_of kr.2)) = Ok v /\ ipv6_network true loc = Ok net /\ in_network 128 v net = true.

(** What the tables of the speaker hold for one peer, given where its coroutine is. *)
Record ok_at (s : speaker) (p : string) : Prop := {
  at_sessions : dget (sessions s) p = (fun cp => phase_name cp.2) <$> dget (running s) p;
  at_writers : dget (writers s) p = established (dget (running s) p);
  at_routes : dhas (peer_routes s) p = is_some (established (dget (running s) p));
  at_advertised : dhas (advertised s) p = is_some (established (dget (running s) p));
  at_peers : dget (running s) p <> None -> p ∈ peers c;
  at_imported : forall rs, dget (peer_routes s) p = Some rs -> d_ok rs /\ Forall (imported p) rs }.

(** A MAC address of the local table belongs to a configured service. *)
Definition local_ok (kv : string * local_mac) : Prop :=
  kv.1 = mac_key (l_evi kv.2) (l_mac kv.2) /\ dhas svcs (l_evi kv.2) = true.

Record base_ok (s : speaker) : Prop := {
  b_running : d_ok (running s);
  b_peer_routes : d_ok (peer_routes s);
  b_writers : d_ok (writers s);
  b_services : services (ethernet s) = svcs;
  b_local : Forall local_ok (local (ethernet s)) }.

Record speaker_ok (s : speaker) : Prop := {
  ok_base : base_ok s;
  ok_peer : forall p, ok_at s p;
  ok_selected : routes s = select (peer_routes s) }.

Lemma init_ok : speaker_ok (init c).
Proof.
  split; [split; try apply d_ok_nil; try done; constructor| |done].
  intros p. by split.
Qed.

(** The [finally] of a session restores the invariant, whatever the session had done
    to its own entries. *)
Lemma session_end_ok s peer conn :
  base_ok s -> (forall p, p <> peer -> ok_at s p) -> speaker_ok (session_end peer conn s).1.
Proof.
  intros [B1 B2 B3 B4 B5] Hat. split; [split; simpl; auto with starfabric| |done].
  intros p. destruct (decide (p = peer)) as [->|Hp].
  - split; simpl; unfold dhas; rewrite ?dget_dpop, ?decide_True by done; try done.
  - destruct (Hat p Hp) as [A1 A2 A3 A4 A5 A6]. unfold dhas in *.
    split; simpl; unfold dhas; rewrite ?dget_dpop, ?decide_False by done; done.
Qed.

Lemma with_errors_at v s p : ok_at s p -> ok_at (with_errors v s) p.
Proof. intros []. by split. Qed.

Lemma with_fatal_ok v s : speaker_ok s -> speaker_ok (with_fatal v s).
Proof. intros [[] Hat]. split; [by split| |done]. intros p. destruct (Hat p). by split. Qed.

Lemma with_errors_ok v s : speaker_ok s -> speaker_ok (with_errors v s).
Proof. intros [[] Hat]. split; [by split| |done]. intros p. destruct (Hat p). by split. Qed.

Lemma session_raise_ok s peer conn e :
  base_ok s -> (forall p, p <> peer -> ok_at s p) -> speaker_ok (session_raise peer conn e s).1.
Proof.
  intros B Hat. unfold session_raise. destruct (session_catches e).
  - apply session_end_ok; [by destruct B|]. intros p Hp. by apply with_errors_at, Hat.
  - pose proof (session_end_ok s peer conn B Hat) as H.
    destruct (session_end peer conn s) as [s' out]. by apply with_fatal_ok.
Qed.

(** Another peer's entries are untouched by updates at [peer]. *)
Ltac at_other :=
  match goal with
  | H : forall p, ok_at ?s p, Hp : ?p <> ?peer |- ok_at _ ?p =>
      let A1 := fresh in let A2 := fresh in let A3 := fresh in
      let A4 := fresh in let A5 := fresh in let A6 := fresh in
      destruct (H p) as [A1 A2 A3 A4 A5 A6]; unfold dhas in *;
      split; simpl; unfold dhas; rewrite ?dget_dpop, ?decide_False, ?dget_dset_ne by done; done
  end.

Ltac base_tac := match goal with B : base_ok _ |- base_ok _ => destruct B; split; simpl; auto with starfabric end.

Lemma session_start_ok s peer conn : speaker_ok s -> speaker_ok (session_start c peer conn s).1.
Proof.
  intros [B Hat Hsel]. unfold session_start. destruct (_ || _) eqn:E; [by split|]. bool_to_prop.
  destruct (open_message (router_id c)) as [m|e].
  - simpl. split; [base_tac| |done]. intros p. destruct (decide (p = peer)) as [->|Hp]; [|at_other].
    destruct (Hat peer) as [A1 A2 A3 A4 A5 A6]. unfold dhas in H0. destruct (dget (sessions s) peer) eqn:Es; [done|].
    destruct (dget (running s) peer) as [cp|]; [done|].
    split; simpl; unfold dhas in *; rewrite ?dget_dset_eq; try done.
    unfold mem in *. intros _. by apply bool_decide_eq_true in H.
  - apply session_raise_ok; [base_tac|]. intros p Hp. at_other.
Qed.

Lemma session_open_ok s peer conn kind body :
  speaker_ok s -> dget (running s) peer = Some (conn, AwaitOpen) -> speaker_ok (session_open peer conn kind body s).1.
Proof.
  intros [B Hat Hsel] Hr. unfold session_open. destruct (if negb (kind =? 1) then _ else _) as [[hold m]|e].
  - simpl. split; [base_tac| |done]. intros p. destruct (decide (p = peer)) as [->|Hp]; [|at_other].
    destruct (Hat peer) as [A1 A2 A3 A4 A5 A6]. rewrite Hr in *.
    split; simpl; rewrite ?dget_dset_eq; try done. intros _. by apply A5.
  - apply session_raise_ok; [done|]. intros p _. apply Hat.
Qed.

(** [exports] only ages the local table. *)
Lemma exports_state now s s' r : exports c now s = (s', r) -> s' = s \/ s' = with_ethernet (Ethernet.exports now (ethernet s)) s.
Proof. unfold exports. destruct (export_static c (ethernet s)); intros [= <- _]; auto. Qed.

Lemma exports_local_ok now s : base_ok s -> base_ok (with_ethernet (Ethernet.exports now (ethernet s)) s).
Proof.
  intros []. split; simpl; try done. apply Forall_forall. intros kv Hkv.
  apply list_elem_of_In, filter_In in Hkv as [Hkv _]. rewrite Forall_forall in b_local0. by apply b_local0, list_elem_of_In.
Qed.

Lemma with_ethernet_at v s p : ok_at s p -> ok_at (with_ethernet v s) p.
Proof. intros []. by split. Qed.

Lemma exports_ok now s s' r : speaker_ok s -> exports c now s = (s', r) -> speaker_ok s'.
Proof.
  intros [B Hat Hsel] H. apply exports_state in H as [->| ->]; [by split|].
  split; [by apply exports_local_ok| |done]. intros p. by apply with_ethernet_at.
Qed.

Lemma session_establish_ok s peer conn hold kind body now :
  speaker_ok s -> dget (running s) peer = Some (conn, AwaitKeepalive hold) ->
  speaker_ok (session_establish c peer conn hold kind body now s).1.
Proof.
  intros [B Hat Hsel] Hr. unfold session_establish. destruct (_ || _).
  { apply session_raise_ok; [done|]. intros p _. apply Hat. }
  set (s1 := with_peer_routes _ _).
  assert (base_ok s1) as B1 by (subst s1; base_tac).
  assert (forall p, p <> peer -> ok_at s1 p) as Hat1 by (intros p Hp; subst s1; at_other).
  destruct (exports c now s1) as [s2 r] eqn:E.
  assert (base_ok s2 /\ (forall p, p <> peer -> ok_at s2 p) /\ routes s2 = routes s1 /\ peer_routes s2 = peer_routes s1 /\
    sessions s2 = sessions s1 /\ running s2 = running s1 /\ writers s2 = writers s1) as (B2 & Hat2 & E1 & E2 & E3 & E4 & E5).
  { apply exports_state in E as [->| ->]; split_and!; try done; [by apply exports_local_ok|].
    intros p Hp. by apply with_ethernet_at, Hat1. }
  destruct r as [ex|e]; [|by apply session_raise_ok].
  destruct (Hat peer) as [A1 A2 A3 A4 A5 A6]. rewrite Hr in *. split.
  - simpl. destruct B2. split; simpl; auto with starfabric.
  - intros p. destruct (decide (p = peer)) as [->|Hp].
    + split; simpl; rewrite ?E2, ?E3, ?E4, ?E5; subst s1; simpl; unfold dhas; rewrite ?dget_dset_eq; try done.
      * intros _. by apply A5.
      * intros rs [= <-]. split; [apply d_ok_nil|constructor].
    + destruct (Hat2 p Hp) as [C1 C2 C3 C4 C5 C6]. unfold dhas in *.
      split; simpl; unfold dhas; rewrite ?dget_dset_ne by done; done.
  - simpl. rewrite E1, E2. subst s1. simpl. rewrite select_new_peer; [done|]. by rewrite A3.
Qed.

Lemma imported_dpop peer rs k : d_ok rs /\ Forall (imported peer) rs -> d_ok (dpop rs k) /\ Forall (imported peer) (dpop rs k).
Proof.
  intros [H1 H2]. split; [by apply d_ok_dpop|by apply Forall_dpop].
Qed.

Lemma import_route_ok peer rs r rs' :
  keyed (rec r) -> announced_ok r -> d_ok rs /\ Forall (imported peer) rs ->
  import_route c svcs peer rs r = Ok rs' -> d_ok rs' /\ Forall (imported peer) rs'.
Proof.
  intros Hk Ha Hrs. unfold import_route. rewrite bind_Ok. intros ([loc|] & Hl & H); [|by injection H as <-].
  apply bind_Ok in H as (bad & Hb & H). destruct bad; injection H as <-; [by apply imported_dpop|].
  destruct Hrs as [H1 H2]. split; [by apply d_ok_dset|]. apply Forall_dset; [done|].
  unfold rejected in Hb. destruct (String.eqb (nexthop r) peer) eqn:En; [|done]. apply String.eqb_eq in En.
  cbn [negb] in Hb. apply bind_Ok in Hb as (v & Hv & Hb). apply bind_Ok in Hb as (net & Hn & [= Hb]).
  apply negb_false_iff in Hb. unfold imported. simpl. split_and!; try done. by exists loc, v, net.
Qed.

Lemma import_update_ok peer rs body rs' :
  d_ok rs /\ Forall (imported peer) rs -> import_update c svcs peer rs body = Ok rs' ->
  d_ok rs' /\ Forall (imported peer) rs'.
Proof.
  intros Hrs. unfold import_update. rewrite bind_Ok. intros ([announced withdrawn] & Hu & H).
  apply read_update_keyed in Hu as Hk. apply read_update_safe in Hu. rewrite Forall_forall in Hk, Hu.
  revert H. apply (foldM_inv (fun rs => d_ok rs /\ Forall (imported peer) rs)).
  - intros rs1 r rs2 Hr H1. apply import_route_ok; auto.
  - apply fold_left_inv; [|done]. intros. by apply imported_dpop.
Qed.

Lemma session_receive_ok s peer conn hold kind body :
  speaker_ok s -> dget (running s) peer = Some (conn, Receiving hold) ->
  speaker_ok (session_receive c peer conn kind body s).1.
Proof.
  intros [B Hat Hsel] Hr. unfold session_receive. destruct (_ && _); [by split|].
  assert (forall e, speaker_ok (session_raise peer conn e s).1) as Hraise.
  { intros e. apply session_raise_ok; [done|]. intros p _. apply Hat. }
  destruct (negb _); [done|]. destruct (dget (peer_routes s) peer) as [rs|] eqn:Ers; [|done].
  rewrite (b_services s B). destruct (import_update c svcs peer rs body) as [rs'|e] eqn:E; [|done].
  destruct (Hat peer) as [A1 A2 A3 A4 A5 A6]. rewrite Hr in *. apply import_update_ok in E; [|by apply A6].
  split; [base_tac| |done]. intros p. destruct (decide (p = peer)) as [->|Hp]; [|at_other].
  split; simpl; unfold dhas in *; rewrite ?Hr, ?dget_dset_eq; try done. by intros rs2 [= <-].
Qed.

(** A publication refreshes the [advertised] entry of sessions with a writer. *)
Lemma publish_peer_ok drained ex st pw :
  speaker_ok st.1 -> dget (writers st.1) pw.1 = Some pw.2 ->
  speaker_ok (publish_peer drained ex st pw).1 /\ writers (publish_peer drained ex st pw).1 = writers st.1.
Proof.
  destruct pw as [peer conn]. intros [B Hat Hsel] Hw. unfold publish_peer. destruct (drained conn); [|done].
  split; [|done]. split; [base_tac| |done]. intros p. simpl.
  destruct (decide (p = peer)) as [->|Hp]; [|at_other].
  destruct (Hat peer) as [A1 A2 A3 A4 A5 A6]. simpl in Hw.
  split; simpl; unfold dhas in *; rewrite ?dget_dset_eq; try done. by rewrite <- A2, Hw.
Qed.

Lemma publish_peers_ok drained ex pws st :
  speaker_ok st.1 -> (forall pw, pw ∈ pws -> dget (writers st.1) pw.1 = Some pw.2) ->
  speaker_ok (fold_left (publish_peer drained ex) pws st).1.
Proof.
  revert st. induction pws as [|pw pws IH]; intros st Hok Hw; simpl; [done|].
  destruct (publish_peer_ok drained ex st pw Hok) as [Hok' Hw']; [apply Hw; left|].
  apply IH; [done|]. intros pw' Hin. rewrite Hw'. apply Hw. by right.
Qed.

Lemma publish_ok now drained ip s : speaker_ok s -> speaker_ok (publish c now drained ip s).1.
Proof.
  intros Hok. unfold publish. destruct (exports c now s) as [s1 [ex|e]] eqn:E.
  - apply exports_ok in E; [|done]. pose proof (publish_peers_ok drained ex (writers s1) (s1, []) E) as H.
    destruct (fold_left _ _ _) as [s2 out]. simpl in H.
    assert (speaker_ok s2) as H2.
    { apply H. intros [p cn] Hin. apply dget_in_ok; [apply E|done]. }
    destruct (run_commands ip _) as [cmds [e|]]; [by apply with_fatal_ok|done].
  - apply exports_ok in E; [|done]. by apply with_fatal_ok.
Qed.

Lemma learned_ok rts now e evi mac :
  Forall local_ok (local e) -> dhas svcs evi = true -> services e = svcs ->
  Forall local_ok (local (learned rts now e evi mac)) /\ services (learned rts now e evi mac) = svcs.
Proof.
  intros Hl He Hs. unfold learned. destruct (dget (local e) (mac_key evi mac)) as [old|] eqn:E; [destruct (_ <? _)|];
    (split; [simpl; apply Forall_dset; [done|]|done]); try done.
  apply dget_Some_in in E. rewrite Forall_forall in Hl. apply Hl in E as [E1 E2]. by split.
Qed.

Lemma replicate_keeps sendto u frame targets st st' :
  foldM (replicate_to sendto u frame) st targets = Ok st' ->
  local st'.1 = local st.1 /\ services st'.1 = services st.1.
Proof.
  intros H. apply (foldM_inv (fun x => local x.1 = local st.1 /\ services x.1 = services st.1)) in H; [done| |done].
  clear. intros [e l] r [e' l'] _ Hx. unfold replicate_to. rewrite bind_Ok. intros (v & _ & H).
  apply bind_Ok in H as (h & _ & H). destruct (sendto _ _); by injection H as <- <-.
Qed.

Lemma frame_ok sendto rts now sv pkttype frame e e' sent :
  Forall local_ok (local e) -> services e = svcs -> dhas svcs (s_evi sv) = true ->
  Ethernet.receive sendto rts now sv pkttype frame e = Ok (e', sent) ->
  Forall local_ok (local e') /\ services e' = svcs.
Proof.
  intros Hl Hs He. unfold Ethernet.receive. destruct (_ || _); [by intros [= <- _]|].
  destruct (beq _ _); [by intros [= <- _]|]. rewrite bind_Ok. intros (b6 & _ & H). revert H.
  destruct (_ || _); [by intros [= <- _]|]. rewrite bind_Ok. intros (b0 & _ & H). cbv zeta in H.
  apply replicate_keeps in H as [H1 H2]. simpl in H1, H2. rewrite H1, H2. clear H1 H2.
  match goal with |- context [if bool_decide ?x then with_counts ?f ?e1 else ?e1] =>
    assert (local (if bool_decide x then with_counts f e1 else e1) = local e1 /\
            services (if bool_decide x then with_counts f e1 else e1) = services e1) as [-> ->] by by destruct (bool_decide x) end.
  by apply learned_ok.
Qed.

Lemma svcs_evi evi sv : dget svcs evi = Some sv -> s_evi sv = evi.
Proof.
  intros H. apply dget_Some_in in H.
  assert (Forall (fun kv => s_evi kv.2 = kv.1) svcs) as Hall.
  { apply Forall_dict_of. apply Forall_forall. intros kv Hkv.
    by apply list_elem_of_In, in_map_iff in Hkv as (v & <- & _). }
  rewrite Forall_forall in Hall. by apply (Hall _ H).
Qed.

Lemma handle_ok s ev : speaker_ok s -> speaker_ok (handle c s ev).1.
Proof.
  intros Hok. destruct ev as [conn peer|peer kind body now|peer e|peer|evi pk frame now sendto|now dr ip|peer e|]; simpl.
  - by apply session_start_ok.
  - destruct (dget (running s) peer) as [[conn [|hold|hold]]|] eqn:Er; [| | |done].
    + by apply session_open_ok.
    + by apply session_establish_ok.
    + by eapply session_receive_ok.
  - destruct (dget (running s) peer) as [[conn ph]|]; [|done]. destruct Hok.
    apply session_raise_ok; [done|]. intros p _. done.
  - by repeat case_match.
  - destruct (dget (services (ethernet s)) evi) as [sv|] eqn:Esv; [|done].
    destruct Hok as [B Hat Hsel]. rewrite (b_services s B) in Esv.
    destruct (Ethernet.receive _ _ _ _ _ _ _) as [[e' sent]|e] eqn:E; [|by apply with_fatal_ok].
    destruct B as [B1 B2 B3 B4 B5]. apply frame_ok in E as [E1 E2]; [|done..|].
    + split; [by split| |done]. intros p. by apply with_ethernet_at.
    + rewrite (svcs_evi _ _ Esv). unfold dhas. by rewrite Esv.
  - by apply publish_ok.
  - by apply with_errors_ok.
  - by apply with_fatal_ok.
Qed.

Lemma shutdown_ok s : speaker_ok s -> speaker_ok (shutdown s).1.
Proof.
  intros Hok. unfold shutdown.
  pose proof (fold_left_inv (fun st : speaker * list output => speaker_ok st.1)
    (fun st pc => let '(s, out) := session_end pc.1 pc.2.1 st.1 in (s, st.2 ++ out)) (running s) (s, [])) as H.
  destruct (fold_left _ _ _) as [s' out]. apply H; [|done]. clear. intros [s0 out] [p [cn ph]] _ [B Hat Hsel]. simpl.
  apply (session_end_ok s0 p cn B). intros; done.
Qed.

Lemma step_ok s ev : speaker_ok s -> speaker_ok (step c s ev).1.
Proof.
  intros Hok. unfold step. destruct (stopping s); [done|]. pose proof (handle_ok s ev Hok) as H.
  destruct (handle c s ev) as [s1 out]. simpl in H. destruct (stopping s1); [|done].
  pose proof (shutdown_ok s1 H) as H'. by destruct (shutdown s1).
Qed.

(** A session that is over stays over while the others are cancelled. *)
Lemma shutdown_drops s p : dget (running s) p = None -> dget (running (shutdown s).1) p = None.
Proof.
  intros Hp. unfold shutdown.
  pose proof (fold_left_inv (fun st : speaker * list output => dget (running st.1) p = None)
    (fun st pc => let '(s, out) := session_end pc.1 pc.2.1 st.1 in (s, st.2 ++ out)) (running s) (s, [])) as H.
  destruct (fold_left _ _ _) as [s' out]. apply H; [|done]. clear. intros [s0 out] [q [cn ph]] _ Hs. simpl.
  rewrite dget_dpop. by case_decide.
Qed.

(** The states the speaker goes through. *)
Inductive reachable : speaker -> Prop :=
| reach_init : reachable (init c)
| reach_step s ev : reachable s -> reachable (step c s ev).1.

Lemma reachable_ok s : reachable s -> speaker_ok s.
Proof. induction 1; [apply init_ok|by apply step_ok]. Qed.

End Invariant.

(** The tables of the speaker and its sessions agree in every reachable state:
    only configured peers have a session, and the imported routes, the writer and the
    record of what was advertised exist for exactly the established ones. *)
Theorem tables_follow_sessions (c : config) (s : speaker) (p : string) :
  reachable c s ->
  (dhas (sessions s) p = true -> p ∈ peers c) /\
  (dget (sessions s) p = Some "Established" <-> dhas (peer_routes s) p = true) /\
  (dget (sessions s) p = Some "Established" <-> dhas (writers s) p = true) /\
  (dget (sessions s) p = Some "Established" <-> dhas (advertised s) p = true).
Proof.
  intros Hr. apply reachable_ok in Hr as [_ Hat _]. destruct (Hat p) as [A1 A2 A3 A4 A5 _].
  rewrite A3, A4. unfold dhas. rewrite A1, A2.
  destruct (dget (running s) p) as [[cn [|h|h]]|]; simpl; split_and!; try done; intros; by apply A5.
Qed.

(** C14.  Import policy: in every reachable state, each selected route is stored under
    its own key, came from a configured peer whose session is established, names that
    peer as its next hop, and has its SID inside the locator the configuration (for a
    prefix) or the peer's own /64 (for a MAC or a flood entry) allows. *)
Theorem selected_routes_imported (c : config) (s : speaker) (k : string) (r : installed) :
  reachable c s -> dget (routes s) k = Some r ->
  imported c (via r) (k, r) /\ via r ∈ peers c /\ dget (sessions s) (via r) = Some "Established".
Proof.
  intros Hr Hk. apply reachable_ok in Hr as [[B1 B2 _ _ _] Hat Hsel]. rewrite Hsel in Hk.
  apply select_from in Hk as (p & rs & Hin & Hrs).
  - apply dget_in_ok in Hin; [|done]. destruct (Hat p) as [A1 A2 A3 A4 A5 A6].
    destruct (A6 _ Hin) as [_ Himp]. rewrite Forall_forall in Himp. apply dget_Some_in, Himp in Hrs.
    assert (via r = p) as -> by apply Hrs. split; [done|].
    unfold dhas in A3. rewrite Hin in A3. rewrite A1.
    destruct (dget (running s) p) as [[cn [|h|h]]|]; try done. split; [by apply A5|done].
  - apply Forall_forall. intros [p rs] Hin. apply dget_in_ok in Hin; [|done]. apply (at_imported _ _ _ (Hat p)), Hin.
Qed.

(** Losing a session withdraws what it brought: after any exception of a running
    session, its peer has no session, writer or advertisement record left, and no
    selected route comes from it. *)
Theorem session_loss_withdraws (c : config) (s : speaker) (p : string) (e : exn) (cn : nat) (ph : phase) (k : string) (r : installed) :
  reachable c s -> stopping s = false -> dget (running s) p = Some (cn, ph) ->
  let s' := (step c s (Raised p e)).1 in
  dhas (sessions s') p = false /\ dhas (writers s') p = false /\ dhas (advertised s') p = false /\
  (dget (routes s') k = Some r -> via r <> p).
Proof.
  intros Hr Hst Hrun s'. assert (speaker_ok c s') as Hok by (apply reachable_ok; by constructor).
  assert (dget (running s') p = None) as Hn; [|clear Hst Hrun].
  { subst s'. unfold step, handle. rewrite Hst, Hrun. unfold session_raise.
    assert (forall s0, running (session_end p cn s0).1 = dpop (running s0) p) as Hend by done.
    destruct (session_catches e); simpl; rewrite ?Hst; simpl; [by rewrite dget_dpop, decide_True|].
    match goal with |- context [shutdown ?x] => pose proof (shutdown_drops x p) as Hd; destruct (shutdown x) end.
    apply Hd. simpl. by rewrite dget_dpop, decide_True. }
  destruct Hok as [[B1 B2 _ _ _] Hat Hsel]. destruct (Hat p) as [A1 A2 A3 A4 A5 A6].
  rewrite Hn in *. rewrite A4. unfold dhas. rewrite A1, A2. split_and!; [done..|].
  rewrite Hsel. intros Hk Hv. apply select_from in Hk as (q & rs & Hin & Hrs).
  - apply dget_in_ok in Hin; [|done]. destruct (at_imported _ _ _ (Hat q) _ Hin) as [_ Himp].
    rewrite Forall_forall in Himp. apply dget_Some_in, Himp in Hrs.
    assert (q = p) as -> by (rewrite <- Hv; symmetry; apply Hrs). unfold dhas in A3. by rewrite Hin in A3.
  - apply Forall_forall. intros [q rs] Hin. apply dget_in_ok in Hin; [|done]. apply (at_imported _ _ _ (Hat q)), Hin.
Qed.

(** ** Witnesses: a gateway with one peer and one Ethernet service *)

Definition peer2 : string := "fd00:0:0:2::1".
Definition sample_config : config :=
  Config "10.0.0.1" "fd00::1" "fd00::100" ["10.9.0.1/32"] [] [] [peer2] [Service 201 "br201" "fd00::201"].

(** The body of a message the peer builds. *)
Definition body_of (m : res (list byte)) : list byte := match m with Ok m => from m 19 | Err _ => [] end.

Definition peer_announces (sequence : Z) : list byte :=
  body_of (l2_update "10.0.0.2" 201 peer2 "fd00:0:0:2::201" (Some "02:00:00:00:0a:22") sequence false).

Definition establish : list event :=
  [Accept 0 peer2; Packet peer2 1 (body_of (open_message "10.0.0.2")) 0; Packet peer2 4 [] 0].

Definition sample_state : speaker :=
  run sample_config (init sample_config) (establish ++ [Packet peer2 2 (peer_announces 3) 0]).

Lemma run_reachable c s evs : reachable c s -> reachable c (run c s evs).
Proof. revert s. induction evs as [|ev evs IH]; intros s Hs; [done|]. apply IH. by constructor. Qed.

Lemma tables_follow_sessions_witness :
  (dhas (sessions sample_state) peer2 = true -> peer2 ∈ peers sample_config) /\
  (dget (sessions sample_state) peer2 = Some "Established" <-> dhas (peer_routes sample_state) peer2 = true).
Proof.
  destruct (tables_follow_sessions sample_config sample_state peer2) as (H1 & H2 & _).
  - apply run_reachable. constructor.
  - split; [exact H1|exact H2].
Defined.

Lemma selected_routes_imported_witness :
  exists r, dget (routes sample_state) "mac:201:02:00:00:00:0a:22" = Some r /\ via r ∈ peers sample_config.
Proof.
  destruct (dget (routes sample_state) "mac:201:02:00:00:00:0a:22") as [r|] eqn:E; [|by vm_compute in E].
  exists r. split; [done|].
  apply (selected_routes_imported sample_config sample_state "mac:201:02:00:00:00:0a:22" r); [|done].
  apply run_reachable. constructor.
Defined.

Lemma session_loss_withdraws_witness :
  dhas (sessions (step sample_config sample_state (Raised peer2 TimeoutError)).1) peer2 = false.
Proof.
  apply (session_loss_withdraws sample_config sample_state peer2 TimeoutError 0 (Receiving 30) ""
    (sample_installed 201 "" "" "" 0)).
  - apply run_reachable. constructor.
  - vm_compute. reflexivity.
  - vm_compute. reflexivity.
Defined.

(** A frame from the MAC address the peer announces. *)
Definition moved_frame : list byte := lit [255; 255; 255; 255; 255; 255; 2; 0; 0; 0; 10; 34; 8; 6; 0; 1].

Definition overflow_trace : list event :=
  establish ++ [Packet peer2 2 (peer_announces (2 ^ 32 - 1)) 0;
    Frame 201 0 moved_frame 1 (fun _ _ => None);
    Publish 2 (fun _ => true) (fun _ => None)].

(** A configured peer can stop the speaker: when it announces a MAC with the
    largest mobility sequence and a frame from that MAC then appears on the local
    bridge, [learned] takes the sequence 2^32, which [struct.pack('!I')] in the next
    [exports] refuses; [struct.error] is caught nowhere, the publication task fails and
    every session is closed.  With the sequence one below, nothing happens. *)
Theorem mobility_overflow_is_fatal :
  fatal_error (run sample_config (init sample_config) overflow_trace) = Some StructError /\
  sessions (run sample_config (init sample_config) overflow_trace) = [] /\
  fatal_error (run sample_config (init sample_config)
    (establish ++ [Packet peer2 2 (peer_announces (2 ^ 32 - 2)) 0;
       Frame 201 0 moved_frame 1 (fun _ _ => None); Publish 2 (fun _ => true) (fun _ => None)])) = None.
Proof. vm_compute. done. Qed.

(** ** Message framing *)

(** Framing: a reader takes a message apart exactly as [message] built it, for
    the four kinds of message, and leaves the rest of the stream for the next read. *)
Lemma receive_message (kind : Z) (data rest m : list byte) :
  1 <= kind <= 4 -> message kind data = Ok m -> receive (m ++ rest) = Ok (kind, data, rest).
Proof.
  intros Hk. unfold message. split_guard. rewrite bind_Ok. intros (n & Hn & H).
  apply bind_Ok in H as (k & Hk' & H). apply pack_Ok in Hn as [Hn ->], Hk' as [Hk' ->]. bool_to_prop.
  assert (m = repeat xff 16 ++ be_enc 2 (19 + len data) ++ be_enc 1 kind ++ data) as -> by congruence.
  pose proof (len_nonneg data) as H0. pose proof (len_nonneg rest) as H1.
  set (header := repeat xff 16 ++ be_enc 2 (19 + len data) ++ be_enc 1 kind).
  assert ((repeat xff 16 ++ be_enc 2 (19 + len data) ++ be_enc 1 kind ++ data) ++ rest = header ++ data ++ rest) as ->
    by (subst header; by rewrite <- !app_assoc).
  assert (len header = 19) as Hh by reflexivity. unfold receive, readexactly.
  destruct (len (header ++ data ++ rest) <? 19) eqn:E; bool_to_prop; [rewrite !len_app in E; lia|].
  rewrite slice_app, from_at by done. cbn [mbind res_bind].
  change (slice header 16 18) with (be_enc 2 (19 + len data)). change (slice header 18 19) with (be_enc 1 kind).
  change (slice header 0 16) with (repeat xff 16). rewrite !be_dec_enc, beq_refl by done. cbn [negb orb].
  destruct (negb (_ && _) || negb (mem kind _)) eqn:E2.
  { apply orb_prop in E2 as [E2|E2]; apply negb_true_iff in E2.
    - apply andb_false_iff in E2 as [E2|E2]; bool_to_prop; lia.
    - unfold mem in E2. apply bool_decide_eq_false in E2. destruct E2.
      assert (kind = 1 \/ kind = 2 \/ kind = 3 \/ kind = 4) by lia. set_solver. }
  replace (19 + len data - 19) with (len data) by lia.
  destruct (len (data ++ rest) <? len data) eqn:E3; bool_to_prop; [rewrite len_app in E3; lia|].
  rewrite slice_app, from_at by done. done.
Qed.

Lemma receive_message_witness : receive (body_of (Ok (repeat xff 19 ++ repeat xff 16 ++ lit [0; 21; 2; 7; 8])) ++ lit [9]) = Ok (2, lit [7; 8], lit [9]).
Proof.
  apply (receive_message 2 (lit [7; 8]) (lit [9]) (repeat xff 16 ++ lit [0; 21; 2; 7; 8])); [lia|reflexivity].
Defined.

(** ** Publication keeps the peers in step *)

(** What a peer that imports everything holds after reading a message. *)
Definition apply_update (rib : list (string * route)) (m : list byte) : list (string * route) :=
  match read_update (from m 19) with
  | Ok (announced, withdrawn) => fold_left (fun d r => dset d (key (rec r)) r) announced (fold_left dpop withdrawn rib)
  | Err _ => rib
  end.

Section Delta.
(** [rk] is the key a peer stores an exported key under. *)
Context (rk : string -> string) (rk_inj : forall k1 k2, rk k1 = rk k2 -> k1 = k2).

(** An exported entry announces one route under its key and withdraws that key. *)
Definition entry_ok (ke : string * entry) : Prop :=
  exists r, key (rec r) = rk ke.1 /\ read_update (from ke.2.1 19) = Ok ([r], []) /\
    read_update (from ke.2.2 19) = Ok ([], [rk ke.1]).

Definition announced (e : entry) : option route :=
  match read_update (from e.1 19) with Ok ([r], []) => Some r | _ => None end.

(** The peer holds exactly what is exported. *)
Definition in_sync (ex : list (string * entry)) (rib : list (string * route)) : Prop :=
  (forall k, dget rib (rk k) = (dget ex k ≫= announced)) /\
  (forall x, dget rib x <> None -> exists k, x = rk k).

Lemma apply_withdrawals l rib x :
  Forall entry_ok l ->
  dget (fold_left apply_update (map (fun ke => ke.2.2) l) rib) x =
    if decide (x ∈ map (fun ke => rk ke.1) l) then None else dget rib x.
Proof.
  intros Hl. revert rib. induction Hl as [|[k [a w]] l (r & _ & _ & Hw) Hl IH]; intros rib; simpl; [done|].
  simpl in Hw. unfold apply_update at 2. rewrite Hw. simpl. rewrite IH, dget_dpop.
  repeat case_decide; try done; set_solver.
Qed.

Lemma apply_announcements l rib k :
  Forall entry_ok l -> d_ok l ->
  dget (fold_left apply_update (map (fun ke => ke.2.1) l) rib) (rk k) =
    match dget l k with Some e => announced e | None => dget rib (rk k) end.
Proof.
  intros Hl. revert rib. induction Hl as [|[k1 [a w]] l (r & Hk & Ha & _) Hl IH]; intros rib Hok; simpl; [done|].
  unfold d_ok in Hok. apply NoDup_cons in Hok as [Hn Hok]. fold (dkeys l) in Hn, Hok.
  simpl in Ha, Hk. unfold apply_update at 2. rewrite Ha. simpl. rewrite IH by done. rewrite Hk, dget_dset.
  destruct (decide (k = k1)) as [->|Hne].
  - apply dget_None in Hn. simpl in Hn. rewrite Hn, decide_True by done. unfold announced. simpl. by rewrite Ha.
  - destruct (dget l k); [done|]. rewrite decide_False; [done|]. intros E. by apply rk_inj in E.
Qed.

Lemma announcements_keys l rib x :
  Forall entry_ok l -> dget (fold_left apply_update (map (fun ke => ke.2.1) l) rib) x <> None ->
  dget rib x <> None \/ exists k, x = rk k.
Proof.
  intros Hl. revert rib. induction Hl as [|[k1 [a w]] l (r & Hk & Ha & _) Hl IH]; intros rib Hx; simpl in *; [by left|].
  apply IH in Hx as [Hx|Hx]; [|by right]. unfold apply_update in Hx. rewrite Ha in Hx. simpl in Hx.
  rewrite Hk, dget_dset in Hx. case_decide; [right; by exists k1|by left].
Qed.

Lemma publish_delta_sync old new rib :
  d_ok old -> d_ok new -> Forall entry_ok old -> Forall entry_ok new ->
  in_sync old rib -> in_sync new (fold_left apply_update (publish_delta old new) rib).
Proof.
  intros Ho Hn Eo En [Hs Hx]. unfold publish_delta. rewrite fold_left_app. split.
  - intros k. rewrite apply_announcements, dget_filter by auto using d_ok_filter, Forall_filter.
    rewrite apply_withdrawals by auto using Forall_filter.
    assert (rk k ∈ map (fun ke : string * entry => rk ke.1) (List.filter (fun ke => negb (dhas new ke.1)) old) <->
            dget new k = None /\ dget old k <> None) as Hin.
    { rewrite list_elem_of_In, in_map_iff. split.
      - intros ([k1 e] & E & H). apply rk_inj in E. simpl in E. subst k1. apply filter_In in H as [H1 H2]. simpl in H2.
        apply list_elem_of_In, dget_in_ok in H1; [|done]. unfold dhas in H2. rewrite H1. by destruct (dget new k).
      - intros [H1 H2]. destruct (dget old k) as [e|] eqn:E; [|done]. exists (k, e). split; [done|].
        apply filter_In. split; [by apply list_elem_of_In, dget_Some_in|]. simpl. unfold dhas. by rewrite H1. }
    destruct (dget new k) as [e|] eqn:Ek.
    + simpl. case_bool_decide as Eo2; [|done]. cbn [negb]. rewrite decide_False by (rewrite Hin; by intros []).
      rewrite Hs, Eo2. done.
    + case_decide as Hd; [done|]. rewrite Hs. destruct (dget old k); [|done]. destruct Hd. by apply Hin.
  - intros x H. apply announcements_keys in H as [H|H]; [|done|by apply Forall_filter].
    rewrite apply_withdrawals in H by by apply Forall_filter. case_decide; [done|]. by apply Hx.
Qed.

End Delta.

(** ** What the gateway exports *)

Definition usable_sid (s : string) : Prop :=
  exists v, s = ipv6_str v /\ 0 <= v < 2 ^ 128 /\ is_multicast v = false /\ is_unspecified v = false.

(** A configuration in the form the platform writes: canonical addresses, host
    prefixes, unicast SIDs, 16-bit EVIs. *)
Record config_ok (c : config) : Prop := {
  co_router : exists v, router_id c = ipv4_str v /\ 0 <= v < 2 ^ 32;
  co_address : exists v, address c = ipv6_str v /\ 0 <= v < 2 ^ 128;
  co_sid : usable_sid (c_sid c);
  co_export_sids : Forall (fun ps => usable_sid ps.2) (export_sids c);
  co_exports : Forall (fun p => exists v, p = ipv4_str v +:+ "/32" /\ 0 <= v < 2 ^ 32) (c_exports c);
  co_l2 : Forall (fun sv => 0 <= s_evi sv < 65536 /\ usable_sid (s_sid sv)) (l2 c) }.

(** The MAC addresses of the table are six bytes, printed. *)
Definition macs_ok (e : Ethernet.ethernet) : Prop :=
  Forall (fun kv => exists m, length m = 6%nat /\ l_mac kv.2 = mac_str m) (local e).

(** The key a peer stores an exported key under: a flood entry carries its originator. *)
Definition rib_key (c : config) (k : string) : string :=
  if startswith k "imet:" then k +:+ ":" +:+ address c else k.

Lemma rib_key_inj c k1 k2 : rib_key c k1 = rib_key c k2 -> k1 = k2.
Proof.
  unfold rib_key. destruct (startswith k1 "imet:") eqn:E1, (startswith k2 "imet:") eqn:E2; intros H; try done.
  - by apply append_inj_r in H.
  - subst k2. by rewrite startswith_app in E2.
  - subst k1. by rewrite startswith_app in E1.
Qed.

Section Exports.
Context (c : config) (Hc : config_ok c).

Definition entries_ok (ex : list (string * entry)) : Prop := d_ok ex /\ Forall (entry_ok (rib_key c)) ex.

Lemma entries_ok_dset ex k e : entries_ok ex -> entry_ok (rib_key c) (k, e) -> entries_ok (dset ex k e).
Proof. intros [H1 H2] H. split; [by apply d_ok_dset|by apply Forall_dset]. Qed.

Lemma export_prefix_ok ex p ex' :
  p ∈ c_exports c -> entries_ok ex -> export_prefix c ex p = Ok ex' -> entries_ok ex'.
Proof.
  intros Hp Hex. unfold export_prefix. rewrite bind_Ok. intros (a & Ha & H). apply bind_Ok in H as (w & Hw & [= <-]).
  destruct Hc as [(rid & Hr & Hrid) (ad & Had & Hadr) Hsid Hsids Hexp _]. rewrite Forall_forall in Hexp. rewrite Forall_forall in Hsids.
  destruct (Hexp p Hp) as (v & -> & Hv).
  assert (usable_sid (default (c_sid c) (dget (export_sids c) (ipv4_str v +:+ "/32")))) as (s & Es & Hs & Hmc & Hun).
  { destruct (dget (export_sids c) _) as [sd|] eqn:E; simpl; [|done]. apply dget_Some_in in E. by apply (Hsids _ E). }
  rewrite Hr, Had, Es in Ha, Hw.
  destruct (update_wire rid v ad s) as (m & Em & Rm); try done.
  destruct (update_withdraw_wire rid v (ipv6_str ad) (ipv6_str s)) as (m' & Em' & Rm'); try done.
  assert (m = a) as -> by congruence. assert (m' = w) as -> by congruence.
  assert (rib_key c (ipv4_str v +:+ "/32") = ipv4_str v +:+ "/32") as Ek.
  { unfold rib_key. destruct (startswith _ "imet:") eqn:E; [|done].
    apply (startswith_lacks _ _ colon) in E; [|done]. revert E. unfold lacks. rewrite all_chars_app.
    fold (lacks colon (ipv4_str v)). by rewrite ipv4_str_lacks by auto. }
  apply entries_ok_dset; [done|]. eexists. cbn [fst snd]. rewrite Ek. split_and!; [|exact Rm|exact Rm']. done.
Qed.

Lemma svcs_ok evi sv : (evi, sv) ∈ svcs c -> 0 <= evi < 65536 /\ usable_sid (s_sid sv).
Proof.
  intros H. assert (Forall (fun kv => 0 <= kv.1 < 65536 /\ usable_sid (s_sid kv.2)) (svcs c)) as Hall.
  { apply Forall_dict_of, Forall_forall. intros kv Hkv.
    apply list_elem_of_In, in_map_iff in Hkv as (v & <- & Hv). destruct Hc as [_ _ _ _ _ Hl].
    rewrite Forall_forall in Hl. apply Hl. by apply list_elem_of_In. }
  rewrite Forall_forall in Hall. by apply (Hall _ H).
Qed.

Lemma export_imet_ok ex es ex' : es ∈ svcs c -> entries_ok ex -> export_imet c ex es = Ok ex' -> entries_ok ex'.
Proof.
  destruct es as [evi sv]. intros Hes Hex. unfold export_imet. simpl. rewrite bind_Ok. intros (a & Ha & H).
  apply bind_Ok in H as (w & Hw & [= <-]).
  destruct Hc as [(rid & Hr & Hrid) (ad & Had & Hadr) _ _ _ _]. apply svcs_ok in Hes as [He (s & Es & Hs & Hmc & Hun)].
  rewrite Hr, Had, Es in Ha, Hw.
  destruct (l2_update_imet_wire rid evi ad s) as (m & Em & Rm); try done.
  destruct (l2_withdraw_imet_wire rid evi 0 ad (ipv6_str s)) as (m' & Em' & Rm'); try done.
  assert (m = a) as -> by congruence. assert (m' = w) as -> by congruence.
  assert (rib_key c (imet_key evi) = "imet:" +:+ pretty evi +:+ ":" +:+ ipv6_str ad) as Ek.
  { unfold rib_key, imet_key. rewrite startswith_app by done. rewrite Had. by rewrite append_assoc. }
  apply entries_ok_dset; [done|]. eexists. cbn [fst snd]. rewrite Ek. split_and!; [|exact Rm|exact Rm']. done.
Qed.

Lemma export_mac_ok ex km ex' :
  local_ok c km -> (exists m, length m = 6%nat /\ l_mac km.2 = mac_str m) ->
  entries_ok ex -> export_mac c (svcs c) ex km = Ok ex' -> entries_ok ex'.
Proof.
  destruct km as [k [e mac q seen]]. intros [Hk _] (mb & Hmb & Hmac) Hex. simpl in *. unfold export_mac. simpl. rewrite bind_Ok.
  intros (sv & Hsv & H). apply bind_Ok in H as (a & Ha & H). apply bind_Ok in H as (w & Hw & [= <-]).
  destruct (dget (svcs c) e) as [sv'|] eqn:E; [|done]. injection Hsv as ->. apply dget_Some_in, svcs_ok in E as [He (s & Es & Hs & Hmc & Hun)].
  destruct Hc as [(rid & Hr & Hrid) (ad & Had & Hadr) _ _ _ _]. subst mac k. rewrite Hr, Had, Es in Ha, Hw.
  assert (0 <= q < 2 ^ 32) as Hq by by eapply l2_update_sequence.
  destruct (l2_update_mac_wire rid e ad s q mb) as (m & Em & Rm); try done.
  destruct (l2_withdraw_mac_wire rid e 0 (ipv6_str ad) (ipv6_str s) mb) as (m' & Em' & Rm'); try done.
  assert (m = a) as -> by congruence. assert (m' = w) as -> by congruence.
  assert (rib_key c (mac_key e (mac_str mb)) = mac_key e (mac_str mb)) as Ek by done.
  apply entries_ok_dset; [done|]. eexists. cbn [fst snd]. rewrite Ek. split_and!; [|exact Rm|exact Rm']. done.
Qed.

(** Whatever [exports] returns, each of its entries announces one route and withdraws
    that route again. *)
Lemma exports_entries_ok now s s' ex :
  base_ok c s -> macs_ok (ethernet s) -> exports c now s = (s', Ok ex) -> entries_ok ex.
Proof.
  intros B Hm. unfold exports. destruct (export_static c (ethernet s)) as [r|] eqn:E; [|done].
  intros [= _ H]. unfold export_static in E. apply bind_Ok in E as (r1 & E1 & E2).
  assert (entries_ok r1) as H1.
  { revert E1. apply foldM_inv; [intros; by eapply export_prefix_ok|]. split; [apply d_ok_nil|constructor]. }
  rewrite (b_services _ _ B) in *. assert (entries_ok r) as H2.
  { revert E2. apply foldM_inv; [intros; by eapply export_imet_ok|done]. }
  revert H. apply foldM_inv; [|done]. intros ex1 km ex2 Hkm. apply list_elem_of_In, filter_In in Hkm as [Hkm _].
  apply list_elem_of_In in Hkm. pose proof (b_local _ _ B) as Hl. unfold macs_ok in Hm. rewrite Forall_forall in Hl, Hm.
  apply export_mac_ok; [by apply Hl|by apply (Hm km)].
Qed.

(** What the code remembers having advertised is always such a set of entries. *)
Definition wired (s : speaker) : Prop :=
  macs_ok (ethernet s) /\ forall p ex, dget (advertised s) p = Some ex -> entries_ok ex.

Lemma session_raise_wired p cn e s : wired s -> wired (session_raise p cn e s).1.
Proof.
  intros [H1 H2]. assert (forall q ex, dget (dpop (advertised s) p) q = Some ex -> entries_ok ex) as H3.
  { intros q ex. rewrite dget_dpop. case_decide; [done|apply H2]. }
  unfold session_raise. destruct (session_catches e); by split.
Qed.

Lemma session_start_wired p cn s : wired s -> wired (session_start c p cn s).1.
Proof.
  intros H. unfold session_start. destruct (_ || _); [done|].
  destruct (open_message _); [done|]. by apply session_raise_wired.
Qed.

Lemma session_open_wired p cn kind body s : wired s -> wired (session_open p cn kind body s).1.
Proof.
  intros H. unfold session_open. destruct (if negb (kind =? 1) then _ else _) as [[]|]; [done|]. by apply session_raise_wired.
Qed.

Lemma session_receive_wired p cn kind body s : wired s -> wired (session_receive c p cn kind body s).1.
Proof.
  intros H. unfold session_receive. destruct (_ && _); [done|]. destruct (negb _); [by apply session_raise_wired|].
  destruct (dget (peer_routes s) p) as [rs|]; [destruct (import_update _ _ _ _ _); [done|]|]; by apply session_raise_wired.
Qed.

Lemma exports_wired now s s' r : wired s -> exports c now s = (s', r) -> wired s'.
Proof.
  intros H E. apply exports_state in E as [->| ->]; [done|]. destruct H. split; [|done].
  unfold macs_ok. simpl. auto with starfabric.
Qed.

Lemma wired_advertise s p ex : wired s -> entries_ok ex -> wired (with_advertised (dset (advertised s) p ex) s).
Proof.
  intros [H1 H2] H. split; [done|]. intros q ex'. simpl. rewrite dget_dset. case_decide; [by intros [= <-]|apply H2].
Qed.

Lemma session_establish_wired p cn hold kind body now s :
  base_ok c s -> wired s -> wired (session_establish c p cn hold kind body now s).1.
Proof.
  intros B H. unfold session_establish. destruct (_ || _); [by apply session_raise_wired|].
  set (s1 := with_peer_routes _ _). assert (base_ok c s1) as B1 by (subst s1; destruct B; split; simpl; auto with starfabric).
  assert (wired s1) as H1 by done. destruct (exports c now s1) as [s2 [ex|e]] eqn:E.
  - apply (wired_advertise s2 p ex); [by eapply exports_wired|]. eapply exports_entries_ok; [exact B1|apply H1|exact E].
  - apply session_raise_wired. by eapply exports_wired.
Qed.

Lemma publish_wired now drained ip s : base_ok c s -> wired s -> wired (publish c now drained ip s).1.
Proof.
  intros B H. unfold publish. destruct (exports c now s) as [s1 [ex|e]] eqn:E.
  - assert (entries_ok ex) as Hex by (eapply exports_entries_ok; [exact B|apply H|exact E]).
    apply exports_wired in E; [|done].
    pose proof (fold_left_inv (fun st : speaker * list output => wired st.1) (publish_peer drained ex) (writers s1) (s1, [])) as Hf.
    destruct (fold_left _ _ _) as [s2 out]. assert (wired s2) as H2.
    { apply Hf; [|done]. intros [s0 o] [p cn] _ H0. unfold publish_peer. destruct (drained cn); [|done]. by apply wired_advertise. }
    by destruct (run_commands ip _) as [cmds [e|]].
  - apply exports_wired in E; [|done]. by destruct E.
Qed.

Lemma learned_macs rts now e evi m : length m = 6%nat -> macs_ok e -> macs_ok (learned rts now e evi (mac_str m)).
Proof.
  intros Hl H. assert (forall q sn, exists m0, length m0 = 6%nat /\ l_mac (LocalMac evi (mac_str m) q sn) = mac_str m0) as Hm by (intros; by exists m).
  unfold learned, macs_ok. destruct (dget (local e) _) as [old|] eqn:E; [destruct (_ <? _)|]; simpl; apply Forall_dset; try done.
  - simpl. by exists m.
  - apply dget_Some_in in E. unfold macs_ok in H. rewrite Forall_forall in H. apply H in E. done.
  - simpl. by exists m.
Qed.

Lemma frame_macs sendto rts now sv pk frame e e' sent :
  macs_ok e -> Ethernet.receive sendto rts now sv pk frame e = Ok (e', sent) -> macs_ok e'.
Proof.
  intros H. unfold Ethernet.receive. destruct (_ || _) eqn:El; [by intros [= <- _]|]. bool_to_prop.
  destruct (beq _ _); [by intros [= <- _]|]. rewrite bind_Ok. intros (b6 & _ & H'). revert H'.
  destruct (_ || _); [by intros [= <- _]|]. rewrite bind_Ok. intros (b0 & _ & H'). cbv zeta in H'.
  apply replicate_keeps in H' as [E _]. simpl in E. unfold macs_ok. rewrite E.
  assert (length (slice frame 6 12) = 6)%nat as Hl by (apply Nat2Z.inj; change (len (slice frame 6 12) = 6); rewrite len_slice; lia).
  destruct (bool_decide _); by apply learned_macs.
Qed.

Lemma handle_wired s ev : speaker_ok c s -> wired s -> wired (handle c s ev).1.
Proof.
  intros [B _ _] H. destruct ev as [conn peer|peer kind body now|peer e|peer|evi pk frame now sendto|now dr ip|peer e|]; simpl.
  - by apply session_start_wired.
  - destruct (dget (running s) peer) as [[conn [|hold|hold]]|]; [| | |done].
    + by apply session_open_wired.
    + by apply session_establish_wired.
    + by apply session_receive_wired.
  - destruct (dget (running s) peer) as [[conn ph]|]; [|done]. by apply session_raise_wired.
  - by repeat case_match.
  - destruct (dget (services (ethernet s)) evi) as [sv|]; [|done].
    destruct (Ethernet.receive _ _ _ _ _ _ _) as [[e' sent]|e] eqn:E; [|done].
    destruct H as [H1 H2]. split; [|done]. by eapply frame_macs.
  - by apply publish_wired.
  - done.
  - done.
Qed.

Lemma shutdown_wired s : wired s -> wired (shutdown s).1.
Proof.
  intros Hw. unfold shutdown.
  pose proof (fold_left_inv (fun st : speaker * list output => wired st.1)
    (fun st pc => let '(s, out) := session_end pc.1 pc.2.1 st.1 in (s, st.2 ++ out)) (running s) (s, [])) as H.
  destruct (fold_left _ _ _) as [s' out]. apply H; [|done]. clear. intros [s0 out] [q [cn ph]] _ [H1 H2].
  split; [done|]. intros p ex. simpl. rewrite dget_dpop. case_decide; [done|apply H2].
Qed.

Lemma reachable_wired s : reachable c s -> wired s.
Proof.
  induction 1 as [|s ev Hr IH]; [split; [constructor|done]|]. unfold step. destruct (stopping s); [done|].
  pose proof (handle_wired s ev (reachable_ok c s Hr) IH) as H. destruct (handle c s ev) as [s1 out]. simpl in H.
  destruct (stopping s1); [|done]. pose proof (shutdown_wired s1 H) as H'. by destruct (shutdown s1).
Qed.

End Exports.

(** C1.  Publication keeps a peer in step: in any reachable state of a gateway with a
    canonical configuration, if a peer's table holds exactly what was last advertised
    to it, then reading the messages the next publication writes makes it hold exactly
    what the gateway exports now -- nothing stale, nothing missing -- however the two
    sets differ. *)
Theorem publish_synchronises (c : config) (s s' : speaker) (now : Z) (peer : string) (old new : list (string * entry))
    (rib : list (string * route)) :
  config_ok c -> reachable c s -> dget (advertised s) peer = Some old -> exports c now s = (s', Ok new) ->
  in_sync (rib_key c) old rib ->
  in_sync (rib_key c) new (fold_left apply_update (publish_delta old new) rib).
Proof.
  intros Hc Hr Hold Hnew. destruct (reachable_wired c Hc s Hr) as [Hm Hadv]. destruct (Hadv _ _ Hold) as [O1 O2].
  destruct (exports_entries_ok c Hc now s s' new) as [N1 N2]; [apply reachable_ok; done|done|done|].
  apply publish_delta_sync; try done. apply rib_key_inj.
Qed.

Definition sample_exports : list (string * entry) :=
  match exports sample_config 5 sample_state with (_, Ok ex) => ex | _ => [] end.

Definition sample_rib : list (string * route) :=
  fold_left apply_update (map (fun ke => ke.2.1) sample_exports) [].

Lemma sample_config_ok : config_ok sample_config.
Proof.
  split.
  - exists 167772161. split; [reflexivity|lia].
  - exists (253 * 2 ^ 120 + 1). split; [reflexivity|lia].
  - exists (253 * 2 ^ 120 + 256). split_and!; reflexivity || lia.
  - constructor.
  - constructor; [|constructor]. exists 168361985. split; [reflexivity|lia].
  - constructor; [|constructor]. split; [simpl; lia|]. exists (253 * 2 ^ 120 + 513). split_and!; reflexivity || lia.
Qed.

Lemma sample_reachable : reachable sample_config sample_state.
Proof. apply run_reachable. constructor. Qed.

Lemma sample_exports_eq :
  exports sample_config 5 sample_state = ((exports sample_config 5 sample_state).1, Ok sample_exports).
Proof. vm_compute. reflexivity. Qed.

Lemma sample_in_sync : in_sync (rib_key sample_config) sample_exports sample_rib.
Proof.
  destruct (exports_entries_ok sample_config sample_config_ok 5 sample_state (exports sample_config 5 sample_state).1 sample_exports) as [E1 E2].
  - apply reachable_ok, sample_reachable.
  - apply (reachable_wired sample_config sample_config_ok _ sample_reachable).
  - exact sample_exports_eq.
  - unfold sample_rib. split.
    + intros k. rewrite (apply_announcements _ (rib_key_inj sample_config)) by done.
      by destruct (dget sample_exports k).
    + intros x Hx. by apply (announcements_keys (rib_key sample_config)) in Hx as [Hx|Hx].
Qed.

Lemma publish_synchronises_witness :
  in_sync (rib_key sample_config) sample_exports (fold_left apply_update (publish_delta sample_exports sample_exports) sample_rib).
Proof.
  apply (publish_synchronises sample_config sample_state (exports sample_config 5 sample_state).1 5 peer2).
  - exact sample_config_ok.
  - exact sample_reachable.
  - vm_compute. reflexivity.
  - exact sample_exports_eq.
  - exact sample_in_sync.
Defined.

End Speaker.
