(* ===== verification/Pce.v ===== *)
(** * Pce: the PCEP path computation servers

    [Pce] models lab/platform/pce.py, the SR PCE that answers with committed paths;
    [PcepServer] models lab/containerlab/advanced-protocols/pcep_server.py, the lab peer
    that answers NO-PATH.  A session is a function of what its socket delivers: chunks of
    bytes and time-outs.  What the PCE asks of the platform -- the intent behind a target,
    its committed path, the live BGP-LS edges, the SID of a node -- is the interface
    [PathService], whose answers may change from one message to the next. *)

From S2P Require Import Prelude Bytes Text.

(** What the PCE uses of [protocols] and [fabric].  Every answer is one at a moment, the number of log lines the
    session has written when it asks, and may be an exception. *)
Record plan := Plan { plan_id : string; topology_version : Z }.

Class PathService := {
  resolve_pcep_target : nat -> string -> res (option string);
  committed_path : nat -> string -> res (plan * list string);
  live_edges : nat -> res (list (string * string));
  node_sid : nat -> string -> res Z;
  (** [hasattr(protocols, 'resolve_pcep_target')]: the long-lived workload mode *)
  long_lived : bool }.

Module Pce.

(** ** Definitions *)

Definition message (kind : Z) (body : list byte) : res (list byte) :=
  let* a := pack 1 0x20 in
  let* b := pack 1 kind in
  let* n := pack 2 (4 + len body) in
  Ok (a ++ b ++ n ++ body).

(** A PCEP object: its class, its type and its bytes, header included. *)
Abbreviation object := (Z * Z * list byte)%type.

Fixpoint objects_from (fuel : nat) (body : list byte) (offset : Z) : gen object :=
  if len body <=? offset then gen_stop else
  match fuel with
  | O => gen_raise OutOfFuel
  | S f =>
      if len body - offset <? 4 then gen_raise (ValueError "truncated PCEP object") else
      let cls := be_dec (slice body offset (offset + 1)) in
      let flags := be_dec (slice body (offset + 1) (offset + 2)) in
      let length := be_dec (slice body (offset + 2) (offset + 4)) in
      if (length <? 4) || negb (length mod 4 =? 0) || (len body <? offset + length)
      then gen_raise (ValueError "invalid PCEP object length")
      else gen_cons (cls, Z.shiftr flags 4, slice body offset (offset + length))
             (objects_from f body (offset + length))
  end.

Definition objects (body : list byte) : gen object := objects_from (length body) body 0.

(** One SR-ERO subobject: type 36, 8 bytes, NT = 0, F = M = 1, the MPLS stack entry. *)
Definition sr_ero (label : Z) : res (list byte) :=
  let* h := mapM_res (pack 1) [36; 8; 0; 9] in
  let* v := pack 4 (Z.shiftl label 12) in
  Ok (concat h ++ v).

Definition ero (labels : list Z) : res (list byte) :=
  raise (ValueError "invalid SR SID list") when
    bool_decide (labels = []) || (32 <? len labels)
    || existsb (fun label => negb ((16 <=? label) && (label <? 1048576))) labels ;;
  let* parts := mapM_res sr_ero labels in
  let body := concat parts in
  let* a := pack 1 7 in
  let* b := pack 1 0x12 in
  let* n := pack 2 (4 + len body) in
  Ok (a ++ b ++ n ++ body).

Fixpoint tlvs_fuel (fuel : nat) (data : list byte) : gen (Z * list byte) :=
  match data, fuel with
  | [], _ => gen_stop
  | _, O => gen_raise OutOfFuel
  | _, S f =>
      if len data <? 4 then gen_raise (ValueError "truncated PCEP TLV") else
      let kind := be_dec (slice data 0 2) in
      let size := be_dec (slice data 2 4) in
      let finish := 4 + (size + 3) / 4 * 4 in
      if len data <? finish then gen_raise (ValueError "truncated PCEP TLV value") else
      gen_cons (kind, slice data 4 (4 + size)) (tlvs_fuel f (from data finish))
  end.

Definition tlvs (data : list byte) : gen (Z * list byte) := tlvs_fuel (length data) data.

(** A [for] loop over a generator whose body may return; what remains when no turn does
    is the generator's own exception. *)
Fixpoint gen_return {A B} (f : A -> res (option B)) (ys : list A) (e : option exn) : res (option B) :=
  match ys with
  | [] => match e with Some x => Err x | None => Ok None end
  | y :: ys' =>
      let* r := f y in
      match r with Some b => Ok (Some b) | None => gen_return f ys' e end
  end.

(** The inner loop of [pcc_sid_depth] over the sub-TLVs of a path setup type capability. *)
Definition sub_depth (sub : Z * list byte) : res (option Z) :=
  let '(subkind, capability) := sub in
  if (subkind =? 26) && (len capability =? 4) then
    let* flags := byte_at capability 2 in
    let* depth := byte_at capability 3 in
    if negb (Z.land flags 1 =? 0) then Ok (Some 32)
    else if negb (depth =? 0) then Ok (Some (Z.min 32 depth))
    else Err (ValueError "PCC advertised zero SID depth without X flag")
  else Ok None.

Definition tlv_depth (t : Z * list byte) : res (option Z) :=
  let '(kind, value) := t in
  if negb (kind =? 34) || (len value <? 4) then Ok None else
  let* n := byte_at value 3 in
  let offset := 4 + (n + 3) / 4 * 4 in
  let g := tlvs (from value offset) in
  gen_return sub_depth (yielded g) (raised g).

Definition pcc_sid_depth (body : list byte) : res Z :=
  let* (_, opening) := gen_next (fun o => (o.1.1 =? 1) && (o.1.2 =? 1)) (objects body) in
  let g := tlvs (from opening 8) in
  let* r := gen_return tlv_depth (yielded g) (raised g) in
  or_raise (ValueError "PCC did not advertise SR SID depth") r.

(** An entry of [self.responses]. *)
Record response := Response {
  r_intent : string; r_plan : plan; r_nodes : list string; r_labels : list Z;
  bgpls_edges : list (string * string) }.

Inductive log :=
| Received (kind : Z) (body : list byte)
| SidDepth (maximum : Z)
| SessionError (error : string)
| NoPathEdges (plan_id : string)
| NoPathDepth (labels : list Z) (maximum : Z)
| Positive (r : response).

(** [zip(path, path[1:])] *)
Definition pairs {A} (l : list A) : list (A * A) := zip l (tail l).

(** [socket.inet_ntoa] *)
Definition inet_ntoa (b : list byte) : res string :=
  raise (OSError "packed IP wrong length") when negb (len b =? 4) ;;
  Ok (ipv4_str (be_dec b)).

Definition edge_leb (a b : string * string) : bool :=
  if String.eqb a.1 b.1 then String.leb a.2 b.2 else String.leb a.1 b.1.

(** The NO-PATH object: class 3, type 1, nature of issue 0. *)
Definition no_path (rp : list byte) : res (list byte) :=
  message 4 (rp ++ lit [3; 0x12; 0; 8; 0; 0; 0; 0]).

Section Serve.
Context `{PathService}.

(** What [reply] finds out before it changes anything. *)
Inductive decision :=
| EdgesGone (pl : plan)
| TooDeep (labels : list Z)
| Path (record : response).

Definition decide_reply (now : nat) (body : list byte) (max_sids : Z) : res (list byte * decision) :=
  let* values := gen_list (objects body) in
  let* rp := or_raise StopIteration (snd <$> List.find (fun o => o.1.1 =? 2) values) in
  let* endpoints := or_raise StopIteration (snd <$> List.find (fun o => (o.1.1 =? 4) && (o.1.2 =? 1)) values) in
  let* target := inet_ntoa (slice endpoints 8 12) in
  let* found := resolve_pcep_target now target in
  let* intent := or_raise (ValueError "PCEP target is outside platform service") found in
  let* (pl, path) := committed_path now intent in
  let* edges := live_edges now in
  if negb (forallb (fun e => mem e edges) (pairs path)) then Ok (rp, EdgesGone pl) else
  let* labels := mapM_res (node_sid now) (tail path) in
  if max_sids <? len labels then Ok (rp, TooDeep labels)
  else Ok (rp, Path (Response intent pl path labels (sort_by edge_leb edges))).

(** [reply]: the new history, what is logged, and the message or the exception.  The
    history and the log are written before the path is encoded. *)
Definition reply (now : nat) (responses : list response) (body : list byte) (max_sids : Z) : list response * list log * res (list byte) :=
  match decide_reply now body max_sids with
  | Err e => (responses, [], Err e)
  | Ok (rp, EdgesGone pl) => (responses, [NoPathEdges (plan_id pl)], no_path rp)
  | Ok (rp, TooDeep labels) => (responses, [NoPathDepth labels max_sids], no_path rp)
  | Ok (rp, Path record) =>
      let responses := responses ++ [record] in
      let responses := if long_lived then last_n 512 responses else responses in
      (responses, [Positive record], let* e := ero (r_labels record) in message 4 (rp ++ e))
  end.

(** The state of one session: the negotiated depth, the receive buffer, the shared
    history, what was sent and logged. *)
Record session := Session {
  max_sids : option Z; buffer : list byte; responses : list response;
  sent : list (list byte); logs : list log }.

(** A session runs, ended normally, or raised. *)
Inductive outcome := Running (s : session) | Closed (s : session) | Raises (s : session) (e : exn).

Definition say (l : list log) (s : session) : session :=
  Session (max_sids s) (buffer s) (responses s) (sent s) (logs s ++ l).
Definition send (m : list byte) (s : session) : session :=
  Session (max_sids s) (buffer s) (responses s) (sent s ++ [m]) (logs s).
Definition set_buffer (b : list byte) (s : session) : session :=
  Session (max_sids s) b (responses s) (sent s) (logs s).
Definition set_depth (n : Z) (s : session) : session :=
  Session (Some n) (buffer s) (responses s) (sent s) (logs s).
Definition set_responses (r : list response) (s : session) : session :=
  Session (max_sids s) (buffer s) r (sent s) (logs s).

(** One complete message. *)
Definition dispatch (kind : Z) (body : list byte) (s : session) : outcome :=
  let s := say [Received kind body] s in
  if kind =? 1 then
    match pcc_sid_depth body with
    | Err e => Raises s e
    | Ok n =>
        let s := say [SidDepth n] (set_depth n s) in
        match message 2 [] with Ok m => Running (send m s) | Err e => Raises s e end
    end
  else if kind =? 3 then
    match max_sids s with
    | None => Raises s (ValueError "PCReq received before SR capability negotiation")
    | Some n =>
        let '(rs, l, r) := reply (length (logs s)) (responses s) body n in
        let s := say l (set_responses rs s) in
        match r with Err e => Raises s e | Ok m => Running (send m s) end
    end
  else if kind =? 7 then Closed s
  else Running s.

(** [while len(buffer) >= 4] *)
Fixpoint drain (fuel : nat) (s : session) : outcome :=
  if len (buffer s) <? 4 then Running s else
  match fuel with
  | O => Raises s OutOfFuel
  | S f =>
      let version := be_dec (slice (buffer s) 0 1) in
      let kind := be_dec (slice (buffer s) 1 2) in
      let length := be_dec (slice (buffer s) 2 4) in
      if negb (Z.shiftr version 5 =? 1) || (length <? 4) then Raises s (ValueError "invalid PCEP header")
      else if len (buffer s) <? length then Running s
      else
        let body := slice (buffer s) 4 length in
        match dispatch kind body (set_buffer (from (buffer s) length) s) with
        | Running s => drain f s
        | o => o
        end
  end.

Definition on_chunk (data : list byte) (s : session) : outcome :=
  let s := set_buffer (buffer s ++ data) s in drain (length (buffer s)) s.

End Serve.

(** What [conn.recv] gives: bytes (none at the end of the stream), with what the platform
    answers while they are handled, or a time-out. *)
Inductive received := Chunk (env : PathService) (data : list byte) | Timeout.

Fixpoint serve_loop (inputs : list received) (s : session) : outcome :=
  match inputs with
  | [] => Running s
  | Timeout :: rest =>
      match message 2 [] with Ok m => serve_loop rest (send m s) | Err e => Raises s e end
  | Chunk _ [] :: _ => Closed s
  | Chunk env data :: rest =>
      match @on_chunk env data s with Running s => serve_loop rest s | o => o end
  end.

(** The capabilities of the PCE's own OPEN, [X = 1, MSD = 0]. *)
Definition caps : list byte :=
  lit [0; 0x10; 0; 4; 0; 0; 0; 1; 0; 0x22; 0; 0x10; 0; 0; 0; 1; 1; 0; 0; 0; 0; 0x1a; 0; 4; 0; 0; 1; 0].

(** The exceptions [serve] logs; any other ends the thread after closing the socket. *)
Definition serve_catches (e : exn) : bool :=
  match e with
  | OSError _ | ConnectionError _ | InterruptedError _ | TimeoutError | ValueError _ | RuntimeError _ | KeyError => true
  | _ => false
  end.

Definition serve (inputs : list received) (rs : list response) : session * option exn :=
  let s := Session None [] rs [] [] in
  let start := let* n := pack 2 (8 + len caps) in message 1 (lit [1; 0x10] ++ n ++ lit [0x20; 10; 40; 1] ++ caps) in
  let o := match start with
    | Err e => Raises s e
    | Ok m => serve_loop inputs (send m s)
    end in
  match o with
  | Running s | Closed s => (s, None)
  | Raises s e => if serve_catches e then (say [SessionError (exn_str e)] s, None) else (s, Some e)
  end.

(** ** Reassembly *)

Section Reassembly.
Context {H : PathService}.

Definition on_outcome (f : session -> session) (o : outcome) : outcome :=
  match o with Running s => Running (f s) | Closed s => Closed (f s) | Raises s e => Raises (f s) e end.

Definition state_of (o : outcome) : session := match o with Running s | Closed s | Raises s _ => s end.

(** Handling a message neither reads nor changes the receive buffer. *)
Lemma dispatch_buffer kind body b s :
  dispatch kind body (set_buffer b s) = on_outcome (set_buffer b) (dispatch kind body s) /\
  buffer (state_of (dispatch kind body s)) = buffer s.
Proof.
  unfold dispatch. destruct (kind =? 1); [destruct (pcc_sid_depth body); [|done]; by destruct (message 2 [])|].
  destruct (kind =? 3).
  - destruct s as [d b0 rs st lg]. simpl. destruct d as [n|]; [|done]. destruct (reply _ rs body n) as [[rs' l] r]. by destruct r.
  - by destruct (kind =? 7).
Qed.

(** A turn of the loop takes at least the four bytes of a header off the buffer. *)
Lemma drain_enough f1 f2 s :
  (length (buffer s) <= f1)%nat -> (length (buffer s) <= f2)%nat -> drain f1 s = drain f2 s.
Proof.
  revert f2 s. induction f1 as [|f1 IH]; intros f2 s H1 H2.
  - destruct f2; [done|]. simpl. destruct (len (buffer s) <? 4) eqn:E; [done|]. bool_to_prop. unfold len in E. lia.
  - destruct f2 as [|f2]; simpl; destruct (len (buffer s) <? 4) eqn:E; try done; bool_to_prop.
    { unfold len in E. lia. }
    destruct (_ || _) eqn:Eh; [done|]. destruct (len (buffer s) <? be_dec _) eqn:El; [done|]. bool_to_prop.
    pose proof (dispatch_buffer (be_dec (slice (buffer s) 1 2)) (slice (buffer s) 4 (be_dec (slice (buffer s) 2 4)))
      (buffer s) (set_buffer (from (buffer s) (be_dec (slice (buffer s) 2 4))) s)) as [_ Hb].
    destruct (dispatch _ _ _) as [s'| |]; try done. simpl in Hb. apply IH; rewrite Hb; unfold from; rewrite length_drop;
      unfold len in *; lia.
Qed.

(** What is left in the buffer is a part of what was there. *)
Lemma drain_shrinks f s s' : drain f s = Running s' -> (length (buffer s') <= length (buffer s))%nat.
Proof.
  revert s. induction f as [|f IH]; intros s; simpl; destruct (len (buffer s) <? 4); try (by intros [= <-]).
  destruct (_ || _); [done|]. destruct (len (buffer s) <? be_dec _); [by intros [= <-]|].
  pose proof (dispatch_buffer (be_dec (slice (buffer s) 1 2)) (slice (buffer s) 4 (be_dec (slice (buffer s) 2 4)))
      (buffer s) (set_buffer (from (buffer s) (be_dec (slice (buffer s) 2 4))) s)) as [_ Hb].
  destruct (dispatch _ _ _) as [s1| |]; try done. simpl in Hb. intros H1. apply IH in H1. rewrite Hb in H1.
  unfold from in H1. rewrite length_drop in H1. lia.
Qed.

Lemma slice_prefix {A} (l1 l2 : list A) a b : 0 <= a -> a <= b <= len l1 -> slice (l1 ++ l2) a b = slice l1 a b.
Proof.
  intros Ha Hb. unfold slice, len in *. rewrite drop_app_le by lia. rewrite take_app_le; [done|]. rewrite length_drop. lia.
Qed.

Lemma from_prefix {A} (l1 l2 : list A) a : 0 <= a <= len l1 -> from (l1 ++ l2) a = from l1 a ++ l2.
Proof. intros Ha. unfold from, len in *. apply drop_app_le. lia. Qed.

Lemma drain_S f s :
  drain (S f) s =
    if len (buffer s) <? 4 then Running s else
    if negb (Z.shiftr (be_dec (slice (buffer s) 0 1)) 5 =? 1) || (be_dec (slice (buffer s) 2 4) <? 4)
    then Raises s (ValueError "invalid PCEP header")
    else if len (buffer s) <? be_dec (slice (buffer s) 2 4) then Running s
    else match dispatch (be_dec (slice (buffer s) 1 2)) (slice (buffer s) 4 (be_dec (slice (buffer s) 2 4)))
                 (set_buffer (from (buffer s) (be_dec (slice (buffer s) 2 4))) s) with
         | Running s => drain f s
         | o => o
         end.
Proof. done. Qed.

(** Bytes that arrive later do not change what the earlier ones did. *)
Lemma drain_app extra f s :
  (length (buffer s) <= f)%nat ->
  drain (f + length extra) (set_buffer (buffer s ++ extra) s) =
    match drain f s with
    | Running s1 => drain (f + length extra) (set_buffer (buffer s1 ++ extra) s1)
    | o => on_outcome (fun s1 => set_buffer (buffer s1 ++ extra) s1) o
    end.
Proof.
  revert s. induction f as [|f IH]; intros s Hf.
  - assert (buffer s = []) as Eb by (destruct (buffer s); [done|simpl in Hf; lia]).
    simpl. rewrite Eb. simpl. destruct s; simpl in *. by subst.
  - rewrite (drain_S f s). destruct (len (buffer s) <? 4) eqn:E; [done|]. bool_to_prop.
    assert (0 <= be_dec (slice (buffer s) 2 4)) as H0 by apply be_dec_bound.
    set (length := be_dec (slice (buffer s) 2 4)) in *.
    destruct (negb _ || _) eqn:Eh; [|destruct (len (buffer s) <? length) eqn:El].
    + change (S f + Datatypes.length extra)%nat with (S (f + Datatypes.length extra)) at 1. rewrite drain_S. simpl buffer.
      rewrite len_app. pose proof (len_nonneg extra). destruct (len (buffer s) + len extra <? 4) eqn:E'; [apply Z.ltb_lt in E'; lia|].
      rewrite !slice_prefix by lia. fold length. by rewrite Eh.
    + done.
    + change (S f + Datatypes.length extra)%nat with (S (f + Datatypes.length extra)) at 1. rewrite drain_S. simpl buffer.
      rewrite len_app. pose proof (len_nonneg extra). destruct (len (buffer s) + len extra <? 4) eqn:E'; [apply Z.ltb_lt in E'; lia|].
      rewrite !slice_prefix by lia. fold length. rewrite Eh.
      apply Z.ltb_ge in El. destruct (len (buffer s) + len extra <? length) eqn:El'; [apply Z.ltb_lt in El'; lia|].
      bool_to_prop.
      rewrite ?slice_prefix, from_prefix by lia.
      set (kind := be_dec (slice (buffer s) 1 2)). set (body := slice (buffer s) 4 length).
      change (set_buffer (from (buffer s) length ++ extra) (set_buffer (buffer s ++ extra) s))
        with (set_buffer (from (buffer s) length ++ extra) (set_buffer (from (buffer s) length) s)).
      destruct (dispatch_buffer kind body (from (buffer s) length ++ extra) (set_buffer (from (buffer s) length) s)) as [-> Hb].
      destruct (dispatch kind body (set_buffer (from (buffer s) length) s)) as [s1|s1|s1 e]; cbn [on_outcome]; simpl in Hb.
      * rewrite <- Hb. rewrite IH.
        2: { rewrite Hb. unfold from. rewrite length_drop. unfold len in *. lia. }
        destruct (drain f s1) as [s2|s2|s2 e] eqn:Ed; try done.
        pose proof (drain_shrinks f s1 s2 Ed) as Hs. rewrite Hb in Hs. unfold from in Hs. rewrite length_drop in Hs.
        apply drain_enough; simpl; rewrite length_app; unfold len in *; lia.
      * simpl. by rewrite Hb.
      * simpl. by rewrite Hb.
Qed.

(** What the peer, the log and the history see of a session. *)
Definition observable (o : outcome) : list (list byte) * list log * list response * option Z * option (option exn) :=
  let s := state_of o in
  (sent s, logs s, responses s, max_sids s,
   match o with Running _ => None | Closed _ => Some None | Raises _ e => Some (Some e) end).

Lemma on_chunk_app c1 c2 s :
  on_chunk (c1 ++ c2) s =
    match on_chunk c1 s with
    | Running s1 => on_chunk c2 s1
    | o => on_outcome (fun s1 => set_buffer (buffer s1 ++ c2) s1) o
    end.
Proof.
  unfold on_chunk. cbv zeta. set (s0 := set_buffer (buffer s ++ c1) s).
  change (set_buffer (buffer s ++ c1 ++ c2) s) with (set_buffer (buffer s ++ c1 ++ c2) s0).
  rewrite app_assoc. change (buffer s ++ c1) with (buffer s0).
  rewrite (drain_enough (length (buffer (set_buffer (buffer s0 ++ c2) s0))) (length (buffer s0) + length c2)
    (set_buffer (buffer s0 ++ c2) s0)) by (cbn [set_buffer buffer]; rewrite ?length_app; lia).
  rewrite drain_app by done. destruct (drain (length (buffer s0)) s0) as [s1|s1|s1 e] eqn:E; try done.
  apply drain_shrinks in E. apply drain_enough; cbn [set_buffer buffer]; rewrite ?length_app; lia.
Qed.

(** C36.  TCP segmentation is irrelevant: however the stream is cut into chunks, a
    session sends, logs, records and negotiates the same, and ends the same way. *)
Theorem serve_chunking (c1 c2 : list byte) (rest : list received) (s : session) :
  c1 <> [] -> c2 <> [] ->
  observable (serve_loop (Chunk H c1 :: Chunk H c2 :: rest) s) = observable (serve_loop (Chunk H (c1 ++ c2) :: rest) s).
Proof.
  intros Hc1 Hc2. destruct c1 as [|b1 c1]; [done|]. destruct c2 as [|b2 c2]; [done|].
  cbn [serve_loop app]. change (b1 :: c1 ++ b2 :: c2) with ((b1 :: c1) ++ b2 :: c2). rewrite on_chunk_app.
  by destruct (on_chunk (b1 :: c1) s).
Qed.

End Reassembly.

(** ** Labels on the wire *)

(** The labels a PCC reads from an ERO: the upper 20 bits of each stack entry. *)
Fixpoint read_ero (fuel : nat) (body : list byte) : list Z :=
  match fuel, body with
  | O, _ | _, [] => []
  | S f, _ => Z.shiftr (be_dec (slice body 4 8)) 12 :: read_ero f (from body 8)
  end.

Lemma sr_ero_Ok label : 16 <= label < 1048576 ->
  sr_ero label = Ok (lit [36; 8; 0; 9] ++ be_enc 4 (Z.shiftl label 12)).
Proof.
  intros Hl. unfold sr_ero. rewrite (pack_small 4).
  - reflexivity.
  - rewrite Z.shiftl_mul_pow2 by lia. simpl. lia.
Qed.

Definition sr_entries (labels : list Z) : list byte :=
  concat (map (fun l => lit [36; 8; 0; 9] ++ be_enc 4 (Z.shiftl l 12)) labels).

Lemma ero_Ok labels bs : ero labels = Ok bs ->
  labels <> [] /\ len labels <= 32 /\ Forall (fun l => 16 <= l < 1048576) labels /\
  bs = lit [7; 18] ++ be_enc 2 (4 + 8 * len labels) ++ sr_entries labels.
Proof.
  unfold ero. split_guard. apply orb_false_elim in Heqb as [Hb Hr]. bool_to_prop. intros Ho.
  assert (Forall (fun l => 16 <= l < 1048576) labels) as Hall.
  { clear -Hr. induction labels as [|l labels IH]; [constructor|]. simpl in Hr. bool_to_prop. constructor; [lia|auto]. }
  split_and!; try done.
  assert (mapM_res sr_ero labels = Ok (map (fun l => lit [36; 8; 0; 9] ++ be_enc 4 (Z.shiftl l 12)) labels)) as E.
  { clear -Hall. induction Hall as [|l labels Hl Hall IH]; [done|]. cbn [mapM_res map]. rewrite sr_ero_Ok, IH by done. done. }
  rewrite E in Ho. cbn [mbind res_bind] in Ho. fold (sr_entries labels) in Ho.
  assert (len (sr_entries labels) = 8 * len labels) as Hlen.
  { clear. unfold sr_entries. induction labels as [|l labels IH]; [done|]. cbn [map concat].
    rewrite len_app, IH, len_cons. change (len (lit [36; 8; 0; 9] ++ be_enc 4 (Z.shiftl l 12))) with 8. lia. }
  rewrite Hlen in Ho. pose proof (len_nonneg labels). rewrite (pack_small 2) in Ho by (simpl; lia).
  change (pack 1 7) with (@Ok (list byte) (lit [7])) in Ho. change (pack 1 18) with (@Ok (list byte) (lit [18])) in Ho.
  cbn [mbind res_bind] in Ho.
  assert (bs = lit [7] ++ lit [18] ++ be_enc 2 (4 + 8 * len labels) ++ sr_entries labels) as -> by congruence.
  reflexivity.
Qed.

Lemma read_sr_entries labels f :
  Forall (fun l => 16 <= l < 1048576) labels -> (length labels <= f)%nat -> read_ero f (sr_entries labels) = labels.
Proof.
  intros Hl. revert f. induction Hl as [|l labels Hl Hall IH]; intros f Hf; [by destruct f|].
  destruct f as [|f]; [simpl in Hf; lia|].
  change (read_ero (S f) (sr_entries (l :: labels))) with
    (Z.shiftr (be_dec (be_enc 4 (Z.shiftl l 12))) 12 :: read_ero f (sr_entries labels)).
  rewrite IH by (simpl in Hf; lia). f_equal. rewrite be_dec_enc.
  - rewrite Z.shiftr_shiftl_l by lia. apply Z.shiftl_0_r.
  - rewrite Z.shiftl_mul_pow2 by lia. simpl. lia.
Qed.

Lemma objects_end f body offset : len body <= offset -> objects_from f body offset = gen_stop.
Proof. intros H. destruct f; simpl; destruct (len body <=? offset) eqn:E; try done; bool_to_prop; lia. Qed.

(** The SR-ERO carries the path: whatever label list [ero] accepts has 1 to 32
    labels of the unreserved 20-bit range, is one PCEP object (class 7, type 1), and a
    PCC that takes the upper 20 bits of its stack entries gets the same labels. *)
Theorem ero_roundtrip (labels : list Z) (bs : list byte) :
  ero labels = Ok bs ->
  1 <= len labels <= 32 /\ Forall (fun l => 16 <= l < 1048576) labels /\
  objects bs = Gen [(7, 1, bs)] None /\ read_ero (length labels) (from bs 4) = labels.
Proof.
  intros H. apply ero_Ok in H as (Hne & Hlen & Hall & Hbs).
  assert (1 <= len labels) as H1 by (destruct labels; [done|rewrite len_cons; pose proof (len_nonneg labels); lia]).
  split_and!; try lia; try done.
  - assert (len bs = 4 + 8 * len labels) as Hb.
    { subst bs. rewrite !len_app, len_be_enc. change (len (lit [7; 18])) with 2.
      assert (len (sr_entries labels) = 8 * len labels) as ->; [|lia]. clear.
      unfold sr_entries. induction labels as [|l labels IH]; [done|]. cbn [map concat].
      rewrite len_app, IH, len_cons. change (len (lit [36; 8; 0; 9] ++ be_enc 4 (Z.shiftl l 12))) with 8. lia. }
    assert (slice bs 0 1 = lit [7]) as E1 by (by rewrite Hbs).
    assert (slice bs 1 2 = lit [18]) as E2 by (by rewrite Hbs).
    assert (slice bs 2 4 = be_enc 2 (4 + 8 * len labels)) as E3 by (by rewrite Hbs).
    assert (slice bs 0 (len bs) = bs) as E4 by (rewrite <- (app_nil_r bs) at 1; by apply slice_app).
    unfold objects. destruct bs as [|b bs']; [rewrite len_nil in Hb; lia|]. set (bs := b :: bs') in *.
    change (length bs) with (S (length bs')). cbn [objects_from].
    destruct (len bs <=? 0) eqn:E; bool_to_prop; [lia|]. rewrite Z.sub_0_r, !Z.add_0_l.
    destruct (len bs <? 4) eqn:E'; bool_to_prop; [lia|]. rewrite E1, E2, E3, be_dec_enc by (simpl; lia).
    destruct (_ || _) eqn:Eg.
    { apply orb_prop in Eg as [Eg|Eg]; [apply orb_prop in Eg as [Eg|Eg]|]; bool_to_prop; try lia.
      replace (4 + 8 * len labels) with ((1 + 2 * len labels) * 4) in Eg by lia. by rewrite Z.mod_mul in Eg. }
    rewrite <- Hb, E4. rewrite (objects_end _ bs (len bs)) by done. done.
  - subst bs. change (from (lit [7; 18] ++ be_enc 2 (4 + 8 * len labels) ++ sr_entries labels) 4) with (sr_entries labels).
    by apply read_sr_entries.
Qed.

Lemma ero_roundtrip_witness :
  read_ero 2 (from (lit [7; 18; 0; 20; 36; 8; 0; 9; 1; 0; 16; 0; 36; 8; 0; 9; 1; 0; 32; 0]) 4) = [4097; 4098].
Proof. apply (ero_roundtrip [4097; 4098] (lit [7; 18; 0; 20; 36; 8; 0; 9; 1; 0; 16; 0; 36; 8; 0; 9; 1; 0; 32; 0])). reflexivity. Defined.

(** ** What the PCE promises *)






















#[local] Instance sample_env : PathService := {|
  resolve_pcep_target _ t := Ok (if String.eqb t "10.255.0.2" then Some "intent-1" else None);
  committed_path _ _ := Ok (Plan "plan-7" 7, ["SAT1"; "SAT2"]);
  live_edges _ := Ok [("SAT1", "SAT2"); ("SAT2", "SAT1")];
  node_sid _ n := if String.eqb n "SAT2" then Ok 16002 else Err KeyError;
  long_lived := true |}.

(** An OPEN with a SID depth of 4, then a request for 10.255.0.2. *)
Definition sample_open : list byte :=
  lit [0x20; 1; 0; 40; 1; 0x10; 0; 36; 0x20; 30; 120; 1; 0; 0x10; 0; 4; 0; 0; 0; 1;
       0; 0x22; 0; 0x10; 0; 0; 0; 1; 1; 0; 0; 0; 0; 0x1a; 0; 4; 0; 0; 0; 4].
Definition sample_request : list byte :=
  lit [0x20; 3; 0; 28; 2; 0x10; 0; 12; 0; 0; 0; 0; 0; 0; 0; 1; 4; 0x10; 0; 12; 10; 255; 0; 1; 10; 255; 0; 2].


Lemma serve_chunking_witness :
  observable (serve_loop [Chunk sample_env sample_open; Chunk sample_env sample_request] (Session None [] [] [] []))
  = observable (serve_loop [Chunk sample_env (sample_open ++ sample_request)] (Session None [] [] [] [])).
Proof. apply (serve_chunking sample_open sample_request [] (Session None [] [] [] [])); discriminate. Defined.


(** A request without an RP object ends the serving thread with [StopIteration],
    which the handler of [serve] does not catch: the connection is closed but no session
    error is logged, while every malformed object is logged as one. *)
Theorem missing_rp_not_logged :
  (serve [Chunk sample_env (sample_open ++ lit [0x20; 3; 0; 4])] []).2 = Some StopIteration /\
  (serve [Chunk sample_env (sample_open ++ lit [0x20; 3; 0; 4])] []).1.(logs)
    = [Received 1 (from sample_open 4); SidDepth 4; Received 3 []] /\
  (serve [Chunk sample_env (sample_open ++ lit [0x20; 3; 0; 6; 1; 2])] []).2 = None.
Proof. vm_compute. done. Qed.

End Pce.

(** ** The lab peer that answers NO-PATH *)

Module PcepServer.

Definition OPEN : Z := 1.
Definition KEEPALIVE : Z := 2.
Definition PCREQ : Z := 3.
Definition PCREP : Z := 4.
Definition CLOSE : Z := 7.

Definition message (message_type : Z) (body : list byte) : res (list byte) :=
  let* a := pack 1 0x20 in
  let* b := pack 1 message_type in
  let* n := pack 2 (4 + len body) in
  Ok (a ++ b ++ n ++ body).

Definition capabilities : list byte :=
  lit [0; 0x10; 0; 4; 0; 0; 0; 1; 0; 0x22; 0; 0x10; 0; 0; 0; 1; 1; 0; 0; 0; 0; 0x1a; 0; 4; 0; 0; 0; 4].

Definition open_message (session_id : Z) : res (list byte) :=
  let* n := pack 2 (8 + len capabilities) in
  let* s := pack 1 session_id in
  message OPEN (lit [1; 0x10] ++ n ++ lit [0x20; 30; 120] ++ s ++ capabilities).

(** This parser stops at the first malformed object instead of raising. *)
Fixpoint objects_from (fuel : nat) (body : list byte) (offset : Z) : list (Z * Z * list byte) :=
  match fuel with
  | O => []
  | S f =>
      if len body <? offset + 4 then [] else
      let cls := be_dec (slice body offset (offset + 1)) in
      let flags := be_dec (slice body (offset + 1) (offset + 2)) in
      let length := be_dec (slice body (offset + 2) (offset + 4)) in
      if (length <? 4) || (len body <? offset + length) then []
      else (cls, Z.shiftr flags 4, slice body offset (offset + length)) :: objects_from f body (offset + length)
  end.

Definition objects (body : list byte) : list (Z * Z * list byte) := objects_from (length body) body 0.

Definition no_path_reply (body : list byte) : res (option (list byte)) :=
  match List.find (fun o => o.1.1 =? 2) (objects body) with
  | None => Ok None
  | Some (_, rp) =>
      let* m := message PCREP (rp ++ lit [3; 0x12; 0; 8; 0; 0; 0; 0]) in
      Ok (Some m)
  end.

(** [receive_exact] on what the connection delivers before its end. *)
Definition receive_exact (stream : list byte) (size : Z) : option (list byte * list byte) :=
  if len stream <? size then None else Some (slice stream 0 size, from stream size).

Inductive event :=
| TcpAccepted
| TcpClosed
| InvalidLength (length : Z)
| TruncatedMessage (message_type : Z)
| MessageReceived (message_type length version : Z) (classes : list Z)
| KeepaliveSent
| PcRepNoPathSent
| CloseReceived.

(** The inner loop of [serve]: what a connection is sent and what is recorded. *)
Fixpoint connection (fuel : nat) (stream : list byte) : res (list (list byte) * list event) :=
  match fuel with
  | O => Err OutOfFuel
  | S f =>
      match receive_exact stream 4 with
      | None => Ok ([], [TcpClosed])
      | Some (header, stream) =>
          let version_flags := be_dec (slice header 0 1) in
          let message_type := be_dec (slice header 1 2) in
          let length := be_dec (slice header 2 4) in
          if length <? 4 then Ok ([], [InvalidLength length]) else
          match receive_exact stream (length - 4) with
          | None => Ok ([], [TruncatedMessage message_type])
          | Some (body, stream) =>
              let record := MessageReceived message_type length (Z.shiftr version_flags 5) (map (fun o => o.1.1) (objects body)) in
              if message_type =? OPEN then
                let* m := message KEEPALIVE [] in
                let* (out, evs) := connection f stream in
                Ok (m :: out, record :: KeepaliveSent :: evs)
              else if message_type =? PCREQ then
                let* r := no_path_reply body in
                let* (out, evs) := connection f stream in
                match r with
                | Some m => Ok (m :: out, record :: PcRepNoPathSent :: evs)
                | None => Ok (out, record :: evs)
                end
              else if message_type =? CLOSE then Ok ([], [record; CloseReceived])
              else
                let* (out, evs) := connection f stream in
                Ok (out, record :: evs)
          end
      end
  end.

(** [serve] over the connections accepted one after the other. *)
Fixpoint serve (session_id : Z) (streams : list (list byte)) : res (list (list (list byte) * list event)) :=
  match streams with
  | [] => Ok []
  | stream :: rest =>
      let* o := open_message session_id in
      let* (out, evs) := connection (S (length stream)) stream in
      let* more := serve (session_id mod 255 + 1) rest in
      Ok ((o :: out, TcpAccepted :: evs) :: more)
  end.

(** ** The lab peer never hangs *)

(** Every error is [struct.error], from a reply too long for its length field. *)
Definition only_struct {A} (m : res A) : Prop := match m with Ok _ | Err StructError => True | Err _ => False end.

Lemma only_struct_bind {A B} (m : res A) (f : A -> res B) :
  only_struct m -> (forall a, m = Ok a -> only_struct (f a)) -> only_struct (mbind f m).
Proof. destruct m; simpl_res; auto. Qed.

Lemma pack_struct n v : only_struct (pack n v).
Proof. unfold pack. by destruct (_ && _). Qed.

Lemma message_struct t b : only_struct (message t b).
Proof. unfold message. repeat (apply only_struct_bind; [apply pack_struct|intros ? _]). done. Qed.

Lemma connection_struct f stream : (length stream < f)%nat -> only_struct (connection f stream).
Proof.
  revert stream. induction f as [|f IH]; intros stream Hf; [lia|]. cbn [connection]. unfold receive_exact.
  destruct (len stream <? 4) eqn:E; [done|]. bool_to_prop. cbv zeta.
  destruct (be_dec _ <? 4) eqn:E4; [done|]. destruct (len (from stream 4) <? be_dec _ - 4); [done|]. bool_to_prop.
  set (rest := from (from stream 4) _).
  assert (length rest < f)%nat as Hr.
  { subst rest. unfold from, len in *. rewrite !length_drop. lia. }
  specialize (IH _ Hr). destruct (_ =? OPEN); [|destruct (_ =? PCREQ); [|destruct (_ =? CLOSE); [done|]]].
  - apply only_struct_bind; [apply message_struct|]. intros m _. apply only_struct_bind; [done|]. by intros [].
  - apply only_struct_bind.
    { unfold no_path_reply. destruct (List.find _ _) as [[? rp]|]; [|done].
      apply only_struct_bind; [apply message_struct|done]. }
    intros r _. apply only_struct_bind; [done|]. intros [out evs] _. by destruct r.
  - apply only_struct_bind; [done|]. by intros [].
Qed.

(** The lab PCEP server serves any sequence of connections to its end: the session
    identifiers cycle through 1..255 and always fit their byte, every stream is consumed
    in finitely many turns, and the one exception it can raise is [struct.error]. *)
Theorem pcep_server_total (session_id : Z) (streams : list (list byte)) :
  1 <= session_id <= 255 ->
  match serve session_id streams with Ok l => length l = length streams | Err e => e = StructError end.
Proof.
  revert session_id. induction streams as [|st streams IH]; intros sid Hs; [done|]. cbn [serve].
  assert (exists o, open_message sid = Ok o) as [o ->].
  { unfold open_message. rewrite (pack_small 1 sid) by (simpl; lia). by eexists. }
  cbn [mbind res_bind]. pose proof (connection_struct (S (length st)) st (Nat.lt_succ_diag_r _)) as Hc.
  destruct (connection _ st) as [[out evs]|[]]; try done. cbn [mbind res_bind].
  specialize (IH (sid mod 255 + 1)).
  assert (1 <= sid mod 255 + 1 <= 255) as Hn by (pose proof (Z.mod_pos_bound sid 255); lia).
  specialize (IH Hn). destruct (serve _ streams); [simpl; by f_equal|done].
Qed.

Lemma pcep_server_total_witness :
  match serve 255 [[]; lit [0x20; 2; 0; 4]] with Ok l => length l = 2%nat | Err e => e = StructError end.
Proof. apply (pcep_server_total 255 [[]; lit [0x20; 2; 0; 4]]). lia. Defined.

End PcepServer.
