(* ===== verification/Traffic.v ===== *)
(** * Traffic: the paced echo workers (lab/live/workload_traffic.py)

    The tagged packets, the counters of a flow and the worker's handling of payloads.
    The methods of [Counters] hold its lock, so each is one atomic step.  Clock readings
    are integers in microseconds; rates, round-trip times and jitter, which the code
    computes in floating point, are exact rationals here. *)

From S2P Require Import Prelude Bytes Text.
From Stdlib Require Export QArith.
From Stdlib Require Import Qround Qminmax Lqa.
#[global] Open Scope Z_scope.
#[global] Open Scope list_scope.

Module Traffic.

(** ** Definitions *)

Definition HEADER_size : Z := 40.
Definition MAGIC : list byte := lit [83; 70; 87; 49].

(** A [16s] field of [struct]: cut or padded with zeros. *)
Definition fixed (n : nat) (b : list byte) : list byte := take n (b ++ zeros n).

Definition packet (token : list byte) (number sequence now_ns size : Z) : res (list byte) :=
  let* n := pack 4 number in
  let* s := pack 8 sequence in
  let* t := pack 8 now_ns in
  raise (ValueError "negative count") when (size - HEADER_size <? 0) ;;
  Ok (MAGIC ++ fixed 16 token ++ n ++ s ++ t ++ zeros (Z.to_nat (size - HEADER_size))).

Definition identify (data token : list byte) : option (Z * Z * Z) :=
  if len data <? HEADER_size then None else
  let magic := slice data 0 4 in
  let actual := slice data 4 20 in
  let number := be_dec (slice data 20 24) in
  let sequence := be_dec (slice data 24 32) in
  let sent := be_dec (slice data 32 40) in
  if beq magic MAGIC && beq actual token then Some (number, sequence, sent) else None.

(** What [sock.recv(n)] does: deliver at most [n] bytes, none at the end, or time out. *)
Inductive recv := Part (data : list byte) | RecvTimeout.

(** [receive_exact]; the list of receptions ends where the worker is stopped.  What is
    left of the receptions is returned with the bytes. *)
Fixpoint receive_exact (rs : list recv) (count : Z) (result : list byte) : res (list byte * list recv) :=
  if count <=? len result then
    raise (ConnectionError "worker stopped") when negb (len result =? count) ;;
    Ok (result, rs)
  else
    match rs with
    | [] => Err (ConnectionError "worker stopped")
    | RecvTimeout :: rs' => receive_exact rs' count result
    | Part [] :: _ => Err (ConnectionError "TCP peer closed")
    | Part part :: rs' => receive_exact rs' count (result ++ part)
    end.

Record values := Values {
  tx_packets : Z; tx_bytes : Z; acked_packets : Z; acked_bytes : Z;
  received_packets : Z; received_bytes : Z; expired_packets : Z; n_errors : Z }.

Record ack_gap := AckGap { gap_id : Z; start_mono : Z; end_mono : Z; gap_seconds : Z; gap_sequence : Z }.

Record counters := Counters {
  vals : values;
  pending : list (Z * (Z * Z));
  samples : list Z;
  last_rtt : option Z;
  jitter : Q;
  previous : Z * Z * Z;
  last_error : option string;
  first_sent : option Z;
  last_ack_mono : option Z;
  last_ack_sequence : option Z;
  ack_gap_sequence : Z;
  ack_gaps : list ack_gap;
  ack_max_gap : Z }.

Definition init (now : Z) : counters :=
  Counters (Values 0 0 0 0 0 0 0 0) [] [] None 0%Q (now, 0, 0) None None None None 0 [] 0.

Definition add_tx (size : Z) (v : values) : values :=
  Values (tx_packets v + 1) (tx_bytes v + size) (acked_packets v) (acked_bytes v)
    (received_packets v) (received_bytes v) (expired_packets v) (n_errors v).
Definition add_acked (size : Z) (v : values) : values :=
  Values (tx_packets v) (tx_bytes v) (acked_packets v + 1) (acked_bytes v + size)
    (received_packets v) (received_bytes v) (expired_packets v) (n_errors v).
Definition add_received (size : Z) (v : values) : values :=
  Values (tx_packets v) (tx_bytes v) (acked_packets v) (acked_bytes v)
    (received_packets v + 1) (received_bytes v + size) (expired_packets v) (n_errors v).
Definition add_expired (n : Z) (v : values) : values :=
  Values (tx_packets v) (tx_bytes v) (acked_packets v) (acked_bytes v)
    (received_packets v) (received_bytes v) (expired_packets v + n) (n_errors v).
Definition add_error (v : values) : values :=
  Values (tx_packets v) (tx_bytes v) (acked_packets v) (acked_bytes v)
    (received_packets v) (received_bytes v) (expired_packets v) (n_errors v + 1).

Definition with_vals (v : values) (c : counters) : counters :=
  Counters v (pending c) (samples c) (last_rtt c) (jitter c) (previous c) (last_error c) (first_sent c)
    (last_ack_mono c) (last_ack_sequence c) (ack_gap_sequence c) (ack_gaps c) (ack_max_gap c).

Definition max_pending : Z := 10000.

(** [sent]; the oldest pending packet makes room when the table is full. *)
Definition sent (now sequence size : Z) (c : counters) : counters :=
  let full := max_pending <=? len (pending c) in
  let pend := if full then match pending c with [] => [] | (s, _) :: _ => dpop (pending c) s end else pending c in
  let v := if full then add_expired 1 (vals c) else vals c in
  Counters (add_tx size v) (dset pend sequence (now, size)) (samples c) (last_rtt c) (jitter c) (previous c)
    (last_error c) (match first_sent c with None => Some now | s => s end) (last_ack_mono c) (last_ack_sequence c)
    (ack_gap_sequence c) (ack_gaps c) (ack_max_gap c).

Definition received (size : Z) (c : counters) : counters := with_vals (add_received size (vals c)) c.

(** 100 ms *)
Definition gap_resolution : Z := 100000.

Definition acknowledged (now sequence : Z) (c : counters) : res counters :=
  match dget (pending c) sequence with
  | None => Ok (Counters (vals c) (dpop (pending c) sequence) (samples c) (last_rtt c) (jitter c) (previous c) (last_error c)
      (first_sent c) (last_ack_mono c) (last_ack_sequence c) (ack_gap_sequence c) (ack_gaps c) (ack_max_gap c))
  | Some (at_, size) =>
      let* prev := or_raise TypeError (match last_ack_mono c with Some t => Some t | None => first_sent c end) in
      let gap := now - prev in
      let event := gap_resolution <=? gap in
      let seq := if event then ack_gap_sequence c + 1 else ack_gap_sequence c in
      let gaps := if event then last_n 256 (ack_gaps c ++ [AckGap seq prev now gap sequence]) else ack_gaps c in
      let rtt := now - at_ in
      Ok (Counters (add_acked size (vals c)) (dpop (pending c) sequence) (last_n 512 (samples c ++ [rtt])) (Some rtt)
            (match last_rtt c with
             | Some l => (jitter c + (inject_Z (Z.abs (rtt - l)) - jitter c) / 16)%Q
             | None => jitter c
             end)
            (previous c) (last_error c) (first_sent c) (Some now) (Some sequence) seq gaps (Z.max (ack_max_gap c) gap))
  end.

Definition error (message : string) (c : counters) : counters :=
  let c := with_vals (add_error (vals c)) c in
  Counters (vals c) (pending c) (samples c) (last_rtt c) (jitter c) (previous c) (Some (str_tail 200 message)) (first_sent c)
    (last_ack_mono c) (last_ack_sequence c) (ack_gap_sequence c) (ack_gaps c) (ack_max_gap c).

(** What [snapshot] reports beside the raw values. *)
Record report := Report {
  reported : values; pending_packets : Z; tx_bps : Q; goodput_bps : Q;
  loss_percent : option Q; rtt_p95 : option Z; rtt_samples : Z; rtt_jitter : option Q }.

(** Pending packets older than three seconds. *)
Definition expiry : Z := 3000000.
Definition expired (now : Z) (p : Z * (Z * Z)) : bool := expiry <? now - p.2.1.

(** [ordered[math.ceil(len(ordered) * .95) - 1]] *)
Definition p95 (ordered : list Z) : option Z :=
  match ordered with [] => None | _ => ordered !! Z.to_nat ((19 * len ordered + 19) / 20 - 1) end.

Definition per_second (bytes elapsed : Z) : Q := (inject_Z (bytes * 8 * 1000000) / inject_Z elapsed)%Q.

Definition snapshot (now : Z) (c : counters) : counters * report :=
  let old := List.filter (expired now) (pending c) in
  let pend := List.filter (fun p => negb (expired now p)) (pending c) in
  let v := add_expired (len old) (vals c) in
  let '(at_, tx, rx) := previous c in
  let elapsed := Z.max 1000 (now - at_) in
  let ordered := sort_by Z.leb (samples c) in
  let finished := acked_packets v + expired_packets v in
  (Counters v pend (samples c) (last_rtt c) (jitter c) (now, tx_bytes v, acked_bytes v) (last_error c) (first_sent c)
     (last_ack_mono c) (last_ack_sequence c) (ack_gap_sequence c) (ack_gaps c) (ack_max_gap c),
   Report v (len pend) (per_second (tx_bytes v - tx) elapsed) (per_second (acked_bytes v - rx) elapsed)
     (if finished =? 0 then None else Some (inject_Z (expired_packets v * 100) / inject_Z finished)%Q)
     (p95 ordered) (len ordered) (match ordered with [] => None | _ => Some (jitter c) end)).

(** ** The worker *)

Record flow := Flow {
  f_id : string; f_number : Z; payload_bytes : Z; rate_bps : Z;
  f_source : string; f_destination : string;
  source_address : string; destination_address : string; tcp : bool }.

Section Worker.
Context (token : list byte).

(** [accept_payload], on the counters of the flow. *)
Definition accept_payload (f : flow) (raw : list byte) (ack : bool) (now : Z) (c : counters) : res (counters * bool) :=
  match identify raw token with
  | Some (number, sequence, _) =>
      if negb (number =? f_number f) || negb (len raw =? payload_bytes f) then Ok (c, false)
      else if ack then let* c := acknowledged now sequence c in Ok (c, true)
      else Ok (received (len raw) c, true)
  | None => Ok (c, false)
  end.

(** One datagram at the UDP server: what is echoed, if anything. *)
Definition serve_udp (f : flow) (data : list byte) (peer : string) (c : counters) : res (counters * option (list byte)) :=
  if String.eqb peer (source_address f) then
    let* (c, ok) := accept_payload f data false 0 c in
    Ok (c, if ok : bool then Some data else None)
  else Ok (c, None).

(** One TCP connection at the server, until its [except]: what is echoed. *)
Fixpoint serve_tcp (fuel : nat) (f : flow) (rs : list recv) (c : counters) : counters * list (list byte) :=
  match fuel with
  | O => (c, [])
  | S n =>
      match receive_exact rs (payload_bytes f) [] with
      | Err e => (error (exn_str e) c, [])
      | Ok (data, rs') =>
          match accept_payload f data false 0 c with
          | Ok (c, true) => let '(c, out) := serve_tcp n f rs' c in (c, data :: out)
          | Ok (c, false) => (error "invalid workload frame" c, [])
          | Err e => (error (exn_str e) c, [])
          end
      end
  end.

End Worker.

(** The fields of the rate file, when it parses; [scale] is [None] unless a finite number. *)
Record rate_file := RateFile { rf_run_id : string; rf_token : string; rf_scale : option Q }.

Definition reload_rate (run_id token : string) (value : option rate_file) (rate_scale : Q) : Q :=
  match value with
  | Some (RateFile r t (Some scale)) =>
      if String.eqb r run_id && String.eqb t token && Qle_bool (1 # 10) scale && Qle_bool scale 1 then scale else rate_scale
  | _ => rate_scale
  end.

(** *** The sender

    The clock is in seconds and exact; it advances between two readings by the times below, which the scheduler and the
    network decide.  A run of the thread is given by its attempts to connect, and an attempt by its turns. *)

(** A turn of the inner loop: whether the loop condition was already false, the time until [time.monotonic()] is read for the
    wait, whether the stop ended the wait, how long after its timeout the wait returned otherwise, how sending ended and how
    long it took, and the rate files that were read in the meantime. *)
Record turn := Turn { t_done : bool; t_ask : Q; t_stopped : bool; t_late : Q; t_sending : res unit; t_work : Q; t_reads : list (option rate_file) }.

(** An attempt: whether the stop was seen before it, how creating the socket and connecting ended, the time until the first
    deadline is read, the turns, the time the [finally] block takes, whether the stop ended the pause and how long after its
    second it returned otherwise. *)
Record attempt := Attempt { a_stopped : bool; a_socket : res unit; a_connect : res unit; a_setup : Q; a_turns : list turn; a_closing : Q; a_interrupted : bool; a_late : Q }.

(** The sender: its clock, [sequence], [rate_scale], the counters of the flow, and the packets of this connection with the time
    each was made. *)
Record sender := Sender { clock : Q; sequence : Z; rate_scale : Q; s_counters : counters; packets : list (Q * list byte) }.

Definition nanos (t : Q) : Z := Qfloor (t * inject_Z 1000000000).
Definition micros (t : Q) : Z := Qfloor (t * inject_Z 1000000).

(** [max(a, b)] *)
Definition later (a b : Q) : Q := if Qle_bool a b then b else a.

Definition is_OSError (e : exn) : bool :=
  match e with OSError _ | ConnectionError _ | InterruptedError _ | TimeoutError => true | _ => false end.

Definition advance (dt : Q) (s : sender) : sender := Sender (clock s + dt) (sequence s) (rate_scale s) (s_counters s) (packets s).
Definition count_error (e : exn) (s : sender) : sender := Sender (clock s) (sequence s) (rate_scale s) (error (exn_str e) (s_counters s)) (packets s).
Definition fresh (s : sender) : sender := Sender (clock s) (sequence s) (rate_scale s) (s_counters s) [].

Section Send.
Context (run_id token_hex : string) (token : list byte) (f : flow).

(** One turn: [None] where the loop is left, the next deadline otherwise. *)
Definition send_turn (t : turn) (deadline : Q) (s : sender) : sender * res (option Q) :=
  if t_done t then (s, Ok None) else
  let s := advance (t_ask t) s in
  if t_stopped t then (s, Ok None) else
  let s := advance (later 0 (deadline - clock s) + t_late t) s in
  let number := (sequence s + 1)%Z in
  match packet token (f_number f) number (nanos (clock s)) (payload_bytes f) with
  | Err e => (Sender (clock s) number (rate_scale s) (s_counters s) (packets s), Err e)
  | Ok raw =>
      let s := Sender (clock s) number (rate_scale s) (sent (micros (clock s)) number (len raw) (s_counters s)) (packets s ++ [(clock s, raw)]) in
      let s := advance (t_work t) s in
      match t_sending t with
      | Err e => (s, Err e)
      | Ok _ =>
          let scale := fold_left (fun r v => reload_rate run_id token_hex v r) (t_reads t) (rate_scale s) in
          let s := Sender (clock s) (sequence s) scale (s_counters s) (packets s) in
          if Qeq_bool (inject_Z (rate_bps f) * scale) 0 then (s, Err ZeroDivisionError) else
          let interval := (inject_Z (payload_bytes f * 8) / (inject_Z (rate_bps f) * scale))%Q in
          (s, Ok (Some (later (deadline + interval) (clock s))))
      end
  end.

Fixpoint send_loop (turns : list turn) (deadline : Q) (s : sender) : sender * res unit :=
  match turns with
  | [] => (s, Ok tt)
  | t :: turns =>
      match send_turn t deadline s with
      | (s, Ok (Some deadline)) => send_loop turns deadline s
      | (s, Ok None) => (s, Ok tt)
      | (s, Err e) => (s, Err e)
      end
  end.

(** [self.stopped.wait(1)]: whether the loop goes on. *)
Definition pause (a : attempt) (s : sender) : sender * res bool :=
  if a_interrupted a then (s, Ok false) else (advance (1 + a_late a) s, Ok true).

(** The body of the outer loop. *)
Definition send_attempt (a : attempt) (s : sender) : sender * res bool :=
  match a_socket a with
  | Err e => if is_OSError e then pause a (count_error e s) else (s, Err e)
  | Ok _ =>
      let s := advance (a_setup a) s in
      let '(s, r) := match a_connect a with Err e => (s, Err e) | Ok _ => send_loop (a_turns a) (clock s) s end in
      let s := advance (a_closing a) s in
      match r with
      | Ok _ => pause a s
      | Err e => if is_OSError e then pause a (count_error e s) else (s, Err e)
      end
  end.

(** [send]: the packets of each connection, and the exception that ended the thread, if one did. *)
Fixpoint send (attempts : list attempt) (s : sender) : sender * list (list (Q * list byte)) * res unit :=
  match attempts with
  | [] => (s, [], Ok tt)
  | a :: attempts =>
      if a_stopped a then (s, [], Ok tt) else
      match send_attempt a (fresh s) with
      | (s, Ok true) => let '(s', logs, r) := send attempts s in (s', packets s :: logs, r)
      | (s, Ok false) => (s, [packets s], Ok tt)
      | (s, Err e) => (s, [packets s], Err e)
      end
  end.

End Send.

(** ** Tagged packets *)

(** A packet is recognised by its run's token and by no other, with the flow number,
    sequence and send time it was built with, and has the size asked for. *)
Theorem packet_identify (token other : list byte) (number sequence now_ns size : Z) (raw : list byte) :
  len token = 16 -> packet token number sequence now_ns size = Ok raw ->
  len raw = size /\ identify raw other = if beq token other then Some (number, sequence, now_ns) else None.
Proof.
  intros Ht. unfold packet. rewrite bind_Ok. intros (n & Hn & H). apply bind_Ok in H as (s & Hs & H).
  apply bind_Ok in H as (t & Htm & H). apply pack_Ok in Hn as [Hn ->], Hs as [Hs ->], Htm as [Htm ->].
  destruct (size - HEADER_size <? 0) eqn:E; [done|]. bool_to_prop.
  assert (fixed 16 token = token) as Ef.
  { unfold fixed. unfold len in Ht. rewrite take_app_le by lia. apply take_ge. lia. }
  set (z := zeros (Z.to_nat (size - HEADER_size))) in *.
  assert (len z = size - HEADER_size) as Hz by (subst z; unfold zeros, len; rewrite repeat_length; lia).
  assert (raw = MAGIC ++ token ++ be_enc 4 number ++ be_enc 8 sequence ++ be_enc 8 now_ns ++ z) as -> by congruence.
  clear H Ef. clearbody z. unfold HEADER_size in *. split.
  - rewrite !len_app, !len_be_enc, Ht, Hz. change (len MAGIC) with 4. lia.
  - unfold identify, HEADER_size. destruct (len _ <? 40) eqn:El; bool_to_prop.
    { rewrite !len_app, !len_be_enc, Ht, Hz in El. change (len MAGIC) with 4 in El. lia. }
    assert (len MAGIC = 4) as Hm by done. cbv zeta. rewrite slice_app by done.
    rewrite beq_refl, (slice_at MAGIC token) by lia.
    rewrite (app_assoc MAGIC token), (slice_at (MAGIC ++ token) (be_enc 4 number)) by (rewrite ?len_app, ?len_be_enc; lia).
    rewrite (app_assoc (MAGIC ++ token)), (slice_at _ (be_enc 8 sequence)) by (rewrite ?len_app, ?len_be_enc; lia).
    rewrite (app_assoc ((MAGIC ++ token) ++ _)), (slice_at _ (be_enc 8 now_ns)) by (rewrite ?len_app, ?len_be_enc; lia).
    rewrite !be_dec_enc by done. done.
Qed.

Lemma packet_identify_witness :
  identify (MAGIC ++ zeros 16 ++ be_enc 4 3 ++ be_enc 8 9 ++ be_enc 8 5 ++ zeros 24) (zeros 16) = Some (3, 9, 5).
Proof. apply (packet_identify (zeros 16) (zeros 16) 3 9 5 64); reflexivity. Defined.

(** ** Conservation of packets *)

(** The calls made on the counters of one flow; the sender numbers its packets. *)
Inductive op :=
| Send (now size : Z)
| Receive (size : Z)
| Ack (now sequence : Z)
| Fault (message : string)
| Sample (now : Z).

Definition apply_op (st : counters * Z) (o : op) : res (counters * Z) :=
  let '(c, n) := st in
  match o with
  | Send now size => Ok (sent now (n + 1) size c, n + 1)
  | Receive size => Ok (received size c, n)
  | Ack now sequence => let* c := acknowledged now sequence c in Ok (c, n)
  | Fault message => Ok (error message c, n)
  | Sample now => Ok ((snapshot now c).1, n)
  end.

Record conserved (st : counters * Z) : Prop := {
  c_count : tx_packets (vals st.1) = acked_packets (vals st.1) + expired_packets (vals st.1) + len (pending st.1);
  c_sent : tx_packets (vals st.1) = st.2;
  c_nodup : d_ok (pending st.1);
  c_bound : len (pending st.1) <= max_pending;
  c_fresh : Forall (fun p => p.1 <= st.2) (pending st.1);
  c_first : pending st.1 <> [] -> first_sent st.1 <> None }.

Lemma len_dpop {V} (d : list (Z * V)) k v : d_ok d -> dget d k = Some v -> len (dpop d k) = len d - 1.
Proof.
  unfold d_ok. induction d as [|[k1 v1] d IH]; simpl; [done|]. intros Hd. apply NoDup_cons in Hd as [Hn Hd].
  fold (dkeys d) in Hn. case_decide as E.
  - intros _. subst k1. rewrite bool_decide_eq_true_2 by done. cbn [negb]. fold (dpop d k).
    assert (dpop d k = d) as ->; [|rewrite len_cons; lia]. unfold dpop. clear IH Hd.
    induction d as [|[k2 v2] d IH]; [done|]. simpl in *. apply not_elem_of_cons in Hn as [H1 H2].
    rewrite bool_decide_eq_false_2 by done. simpl. f_equal. by apply IH.
  - intros H. rewrite bool_decide_eq_false_2 by done. cbn [negb]. fold (dpop d k). rewrite !len_cons, IH by done. lia.
Qed.

Lemma len_dset_new {V} (d : list (Z * V)) k v : dhas d k = false -> len (dset d k v) = len d + 1.
Proof. intros H. rewrite dset_new by done. by rewrite len_app. Qed.

Lemma fresh_not_in {V} (d : list (Z * V)) n k : Forall (fun p => p.1 <= n) d -> n < k -> dhas d k = false.
Proof.
  intros Hd Hk. unfold dhas. destruct (dget d k) as [v|] eqn:E; [|done]. apply dget_Some_in in E.
  rewrite Forall_forall in Hd. apply Hd in E. simpl in E. lia.
Qed.

Lemma len_split {A} (p : A -> bool) (l : list A) :
  len (List.filter p l) + len (List.filter (fun x => negb (p x)) l) = len l.
Proof. induction l as [|x l IH]; [done|]. simpl. destruct (p x); simpl; rewrite !len_cons; lia. Qed.

Lemma sent_conserved c n now size : conserved (c, n) -> conserved (sent now (n + 1) size c, n + 1).
Proof.
  intros [H1 H2 H3 H4 H5 H6]. simpl in *. unfold sent, max_pending in *.
  assert (forall d : list (Z * (Z * Z)), Forall (fun p => p.1 <= n) d -> d_ok d ->
    len (dset d (n + 1) (now, size)) = len d + 1 /\ d_ok (dset d (n + 1) (now, size)) /\
    Forall (fun p => p.1 <= n + 1) (dset d (n + 1) (now, size))) as Hset.
  { intros d Hd Hok. split_and!; [|by apply d_ok_dset|].
    - apply len_dset_new. apply (fresh_not_in d n); [done|lia].
    - apply Forall_dset; [|simpl; lia]. eapply Forall_impl; [exact Hd|]. intros p Hp. simpl in *. lia. }
  destruct (10000 <=? len (pending c)) eqn:E; bool_to_prop.
  - destruct (pending c) as [|[s v] rest] eqn:Ep; [rewrite len_nil in E; lia|]. rewrite <- Ep in *.
    assert (len (dpop (pending c) s) = len (pending c) - 1) as Hl.
    { apply (len_dpop _ _ v); [done|]. rewrite Ep. simpl. by rewrite decide_True. }
    destruct (Hset (dpop (pending c) s)) as (S1 & S2 & S3); [by apply Forall_dpop|by apply d_ok_dpop|].
    split; simpl; unfold max_pending; try done; try lia. by destruct (first_sent c).
  - destruct (Hset (pending c)) as (S1 & S2 & S3); [done..|].
    split; simpl; unfold max_pending; try done; try lia. by destruct (first_sent c).
Qed.

Lemma ack_conserved c n now sequence : conserved (c, n) ->
  exists c', acknowledged now sequence c = Ok c' /\ conserved (c', n).
Proof.
  intros [H1 H2 H3 H4 H5 H6]. simpl in *. unfold acknowledged.
  destruct (dget (pending c) sequence) as [[at_ size]|] eqn:E.
  - assert (pending c <> []) as Hne by (intros Hn; by rewrite Hn in E). specialize (H6 Hne).
    destruct (match last_ack_mono c with Some t => Some t | None => first_sent c end) as [prev|] eqn:Ep.
    2: { by destruct (last_ack_mono c). }
    simpl. eexists. split; [done|]. pose proof (len_dpop _ _ _ H3 E) as Hl.
    split; simpl; try lia; [by apply d_ok_dpop|by apply Forall_dpop|done].
  - eexists. split; [done|].
    assert (dpop (pending c) sequence = pending c) as Eq.
    { apply dget_None in E. clear -E. unfold dpop. induction (pending c) as [|[k v] l IH]; [done|]. simpl in *.
      apply not_elem_of_cons in E as [E1 E2]. rewrite bool_decide_eq_false_2 by done. simpl. f_equal. by apply IH. }
    split; simpl; rewrite ?Eq; done.
Qed.

Lemma snapshot_conserved c n now : conserved (c, n) -> conserved ((snapshot now c).1, n).
Proof.
  intros [H1 H2 H3 H4 H5 H6]. unfold snapshot. destruct (previous c) as [[a t] r]. simpl in *.
  pose proof (len_split (expired now) (pending c)) as Hs. pose proof (len_nonneg (List.filter (expired now) (pending c))).
  split; simpl; try lia; [by apply d_ok_filter|by apply Forall_filter|].
  intros Hne. apply H6. intros E. by rewrite E in Hne.
Qed.

Lemma apply_op_conserved st o : conserved st -> exists st', apply_op st o = Ok st' /\ conserved st'.
Proof.
  destruct st as [c n]. intros H. destruct o as [now size|size|now q|m|now]; simpl.
  - eexists. split; [done|]. by apply sent_conserved.
  - eexists. split; [done|]. destruct H. by split.
  - destruct (ack_conserved c n now q H) as (c' & -> & Hc). simpl. by eexists.
  - eexists. split; [done|]. destruct H. by split.
  - eexists. split; [done|]. by apply snapshot_conserved.
Qed.

(** C38.  Packets are conserved: after any sequence of sends, receptions,
    acknowledgements (late, duplicated or unknown ones included), errors and samples,
    the code has raised nothing, and every packet sent is counted exactly once as
    acknowledged, expired or pending, of which there are at most 10000. *)
Theorem counters_conserved (start : Z) (ops : list op) :
  exists c n, foldM apply_op (init start, 0) ops = Ok (c, n) /\
    tx_packets (vals c) = n /\
    tx_packets (vals c) = acked_packets (vals c) + expired_packets (vals c) + len (pending c) /\
    len (pending c) <= max_pending.
Proof.
  assert (forall st, conserved st -> exists st', foldM apply_op st ops = Ok st' /\ conserved st') as H.
  { induction ops as [|o ops IH]; intros st Hst; [by exists st|]. cbn [foldM].
    destruct (apply_op_conserved st o Hst) as (st1 & -> & H1). by apply IH. }
  destruct (H (init start, 0)) as ([c n] & E & [H1 H2 H3 H4 H5 H6]).
  - split; simpl; try done. apply d_ok_nil.
  - exists c, n. simpl in *. done.
Qed.

(** ** Pacing *)

Open Scope Q_scope.

(** The shortest time between two packets of a flow, at full rate. *)
Definition full_interval (f : flow) : Q := inject_Z (payload_bytes f * 8) / inject_Z (rate_bps f).

Lemma slower f scale : (0 <= payload_bytes f)%Z -> (0 < rate_bps f)%Z -> 0 < scale -> scale <= 1 ->
  full_interval f <= inject_Z (payload_bytes f * 8) / (inject_Z (rate_bps f) * scale).
Proof.
  intros Hp Hr Hs H1. unfold full_interval. assert (0 < inject_Z (rate_bps f)) as Hq by (change 0 with (inject_Z 0); by rewrite <- Zlt_Qlt).
  assert (0 < inject_Z (rate_bps f) * scale) as Hq2 by by apply Qmult_lt_0_compat.
  apply Qle_shift_div_l; [done|]. unfold Qdiv. rewrite <- Qmult_assoc.
  assert (/ inject_Z (rate_bps f) * (inject_Z (rate_bps f) * scale) == scale) as E.
  { field. intros E. rewrite E in Hq. by apply Qlt_irrefl in Hq. }
  rewrite E. rewrite <- (Qmult_1_r (inject_Z (payload_bytes f * 8))) at 2.
  rewrite !(Qmult_comm (inject_Z (payload_bytes f * 8))). apply Qmult_le_compat_r; [done|].
  change 0 with (inject_Z 0). rewrite <- Zle_Qle. lia.
Qed.

(** The clock does not run backwards. *)
Definition turn_forward (t : turn) : Prop := 0 <= t_ask t /\ 0 <= t_late t /\ 0 <= t_work t.
Definition forward (a : attempt) : Prop := 0 <= a_setup a /\ 0 <= a_closing a /\ 0 <= a_late a /\ Forall turn_forward (a_turns a).

(** Two packets with n others between them are at least n intervals apart. *)
Definition spaced (interval : Q) (l : list Q) : Prop :=
  forall i j s t, (i < j)%nat -> l !! i = Some s -> l !! j = Some t -> s + inject_Z (Z.of_nat (j - i - 1)) * interval <= t.

(** Another packet at [d] or later keeps them so. *)
Definition ready (interval : Q) (l : list Q) (d : Q) : Prop :=
  forall i s, l !! i = Some s -> s + inject_Z (Z.of_nat (length l - i - 1)) * interval <= d.

Lemma spaced_snoc I l d t : spaced I l -> ready I l d -> d <= t -> spaced I (l ++ [t]).
Proof.
  intros Hs Hr Ht i j s u Hij Hi Hj. apply lookup_app_Some in Hj as [Hj|[Hge Hj]].
  - apply (Hs i j); [done| |done]. apply lookup_lt_Some in Hj. rewrite lookup_app_l in Hi by lia. done.
  - apply list_lookup_singleton_Some in Hj as [Hz <-]. assert (j = length l) as -> by lia. rewrite lookup_app_l in Hi by done. eapply Qle_trans; [by apply Hr|done].
Qed.

Lemma ready_snoc I l d t d' : ready I l d -> d + I <= d' -> t <= d' -> ready I (l ++ [t]) d'.
Proof.
  intros Hr Hd Ht i s Hi. rewrite length_app. cbn [length]. apply lookup_app_Some in Hi as [Hi|[Hge Hi]].
  - pose proof (Hr _ _ Hi) as H. apply lookup_lt_Some in Hi. replace (length l + 1 - i - 1)%nat with (S (length l - i - 1)) by lia.
    rewrite Nat2Z.inj_succ. unfold Z.succ. rewrite inject_Z_plus. change (inject_Z 1) with 1. set (x := inject_Z _) in *. lra.
  - apply list_lookup_singleton_Some in Hi as [Hz <-]. replace (length l + 1 - i - 1)%nat with 0%nat by lia. change (inject_Z (Z.of_nat 0)) with 0. lra.
Qed.

(** A new connection, a second after the last packet, may send at once. *)
Lemma ready_restart I l d : I <= 1 -> spaced I l -> Forall (fun t => t + 1 <= d) l -> ready I l d.
Proof.
  intros HI Hs Hf i s Hi. pose proof (lookup_lt_Some _ _ _ Hi) as Hlt. rewrite Forall_lookup in Hf. destruct (decide (i = length l - 1)%nat) as [->|Hne].
  - replace (_ - _ - 1)%nat with 0%nat by lia. change (inject_Z (Z.of_nat 0)) with 0. pose proof (Hf _ _ Hi). cbn beta in *. lra.
  - destruct (lookup_lt_is_Some_2 l (length l - 1)) as [t Ht]; [lia|]. pose proof (Hs i (length l - 1)%nat _ _ ltac:(lia) Hi Ht) as H. pose proof (Hf _ _ Ht) as H1. cbn beta in H1.
    replace (length l - i - 1)%nat with (S (length l - 1 - i - 1)) by lia. rewrite Nat2Z.inj_succ. unfold Z.succ. rewrite inject_Z_plus. change (inject_Z 1) with 1. set (x := inject_Z _) in *. lra.
Qed.

Lemma later_max a b : a <= later a b /\ b <= later a b.
Proof. unfold later. destruct (Qle_bool a b) eqn:E; [apply Qle_bool_iff in E; lra|]. assert (~ a <= b) by (intros ?%Qle_bool_iff; congruence). lra. Qed.

Lemma reload_rate_range run_id token value r : 0 < r /\ r <= 1 -> 0 < reload_rate run_id token value r /\ reload_rate run_id token value r <= 1.
Proof.
  intros Hr. unfold reload_rate. destruct value as [[x t [scale|]]|]; try done. destruct (_ && _) eqn:E; [|done]. bool_to_prop.
  repeat match goal with H : Qle_bool _ _ = true |- _ => apply Qle_bool_iff in H end. lra.
Qed.

Lemma reload_rates_range run_id token values r : 0 < r /\ r <= 1 -> let r' := fold_left (fun r v => reload_rate run_id token v r) values r in 0 < r' /\ r' <= 1.
Proof. revert r. induction values as [|v values IH]; intros r Hr; [done|]. apply IH. by apply reload_rate_range. Qed.

Definition times (s : sender) : list Q := map fst (packets s).

(** What holds of a sender after the packets at [before], of earlier connections. *)
Record steady (interval : Q) (before : list Q) (s : sender) : Prop := {
  st_spaced : spaced interval (before ++ times s);
  st_past : Forall (fun t => t <= clock s) (before ++ times s);
  st_scale : 0 < rate_scale s /\ rate_scale s <= 1 }.

Lemma steady_advance I l dt s : 0 <= dt -> steady I l s -> steady I l (advance dt s).
Proof. intros Hd [H1 H2 H3]. constructor; try done. eapply Forall_impl; [exact H2|]. cbn. intros t Ht. lra. Qed.

Lemma steady_error I l e s : steady I l s -> steady I l (count_error e s).
Proof. by intros [? ? ?]. Qed.

(** The numbers on the packets of a connection, after [base] earlier ones, and what the counters say. *)
Definition labelled (token : list byte) (f : flow) (base tx : Z) (s : sender) : Prop :=
  (forall n t raw, packets s !! n = Some (t, raw) -> packet token (f_number f) (base + Z.of_nat n + 1) (nanos t) (payload_bytes f) = Ok raw) /\
  tx_packets (vals (s_counters s)) = (tx + len (packets s))%Z.

Lemma sent_tx now n size c : tx_packets (vals (sent now n size c)) = (tx_packets (vals c) + 1)%Z.
Proof. unfold sent. destruct (max_pending <=? _)%Z; done. Qed.

Lemma packet_error token n sequence now size e : packet token n sequence now size = Err e -> is_OSError e = false.
Proof.
  unfold packet, pack. do 3 destruct (_ && _)%bool; destruct (_ <? 0)%Z; cbn [mbind res_bind]; try done; intros H; by injection H as <-.
Qed.

Section Pacing.
Context (run_id token_hex : string) (token : list byte) (f : flow).
Hypothesis payload_size : (0 <= payload_bytes f)%Z.
Hypothesis rate_positive : (0 < rate_bps f)%Z.

Lemma send_turn_steady I l t d s s' r : I <= full_interval f -> turn_forward t -> steady I l s -> ready I (l ++ times s) d ->
  send_turn run_id token_hex token f t d s = (s', r) -> steady I l s' /\ forall d', r = Ok (Some d') -> ready I (l ++ times s') d'.
Proof.
  intros HI (Ht1 & Ht2 & Ht3) Hs Hd. unfold send_turn. destruct (t_done t); [by intros [= <- <-]|].
  apply (steady_advance I l (t_ask t) s Ht1) in Hs. change (times s) with (times (advance (t_ask t) s)) in Hd. set (s1 := advance (t_ask t) s) in *. clearbody s1. clear s.
  destruct (t_stopped t); [by intros [= <- <-]|]. set (x := later 0 (d - clock s1)). destruct (later_max 0 (d - clock s1)) as [Hx1 Hx2]. fold x in Hx1, Hx2.
  assert (0 <= x + t_late t) as Hx by lra. apply (steady_advance I l _ s1 Hx) in Hs. change (times s1) with (times (advance (x + t_late t) s1)) in Hd.
  assert (d <= clock (advance (x + t_late t) s1)) as Hclock by (cbn; lra). set (s2 := advance (x + t_late t) s1) in *. clearbody s2 x. clear s1 Hx Hx1 Hx2.
  destruct Hs as [S1 S2 S3]. destruct (packet _ _ _ _ _) as [raw|e]; [|by intros [= <- <-]].
  assert (steady I l (advance (t_work t) (Sender (clock s2) (sequence s2 + 1) (rate_scale s2) (sent (micros (clock s2)) (sequence s2 + 1) (len raw) (s_counters s2)) (packets s2 ++ [(clock s2, raw)])))) as H3.
  { apply steady_advance; [done|]. constructor; unfold times; cbn [packets clock rate_scale]; [rewrite map_app, app_assoc; by eapply spaced_snoc|rewrite map_app, app_assoc|done].
    apply Forall_app. split; [done|]. repeat constructor. cbn. apply Qle_refl. }
  set (s3 := advance _ _) in *. assert (times s3 = times s2 ++ [clock s2] /\ clock s2 <= clock s3) as [E Hc] by (split; [unfold s3, times; cbn; by rewrite map_app|cbn; lra]).
  clearbody s3. destruct (t_sending t); [|by intros [= <- <-]]. pose proof (reload_rates_range run_id token_hex (t_reads t) _ (st_scale _ _ _ H3)) as Hsc. cbn zeta in Hsc. set (scale := fold_left _ _ _) in *.
  destruct (Qeq_bool _ _); intros [= <- <-]; (split; [by destruct H3|]); [done|]. intros d' [= <-]. unfold times. cbn [packets clock]. fold (times s3). rewrite E, app_assoc.
  destruct (later_max (d + inject_Z (payload_bytes f * 8) / (inject_Z (rate_bps f) * scale)) (clock s3)) as [M1 M2]. pose proof (slower f scale payload_size rate_positive (proj1 Hsc) (proj2 Hsc)).
  apply (ready_snoc I _ d); [done|lra|lra].
Qed.

Lemma send_loop_steady I l turns d s s' r : I <= full_interval f -> Forall turn_forward turns -> steady I l s -> ready I (l ++ times s) d ->
  send_loop run_id token_hex token f turns d s = (s', r) -> steady I l s'.
Proof.
  intros HI Ht. revert d s. induction Ht as [|t turns Ht _ IH]; intros d s Hs Hd; cbn [send_loop]; [by intros [= <- _]|].
  destruct (send_turn _ _ _ _ t d s) as [s1 r1] eqn:E. apply (send_turn_steady I l) in E as [H1 H2]; [|done..].
  destruct r1 as [[d'|]|e]; [|by intros [= <- _]..]. apply IH; auto.
Qed.

Lemma send_attempt_steady I l a s s' r : I <= full_interval f -> forward a -> steady I l s -> packets s = [] -> ready I l (clock s) -> send_attempt run_id token_hex token f a s = (s', r) ->
  steady I l s' /\ (r = Ok true -> Forall (fun t => t + 1 <= clock s') (l ++ times s')).
Proof.
  intros HI (Ha1 & Ha2 & Ha3 & Ha4) Hs Hn Hd. assert (forall s s' r, steady I l s -> pause a s = (s', r) -> steady I l s' /\ (r = Ok true -> Forall (fun t => t + 1 <= clock s') (l ++ times s'))) as Hpause.
  { intros z z' rz Hz. unfold pause. destruct (a_interrupted a); intros [= <- <-]; [done|]. split; [apply steady_advance; [lra|done]|]. intros _. eapply Forall_impl; [apply (st_past _ _ _ Hz)|]. cbn. intros t Ht. lra. }
  unfold send_attempt. destruct (a_socket a) as [[]|e]; [|destruct (is_OSError e); [apply Hpause; by apply steady_error|by intros [= <- <-]]].
  apply (steady_advance I l (a_setup a) s Ha1) in Hs. assert (ready I (l ++ times (advance (a_setup a) s)) (clock (advance (a_setup a) s))) as Hr.
  { unfold times. cbn [advance packets clock]. rewrite Hn, app_nil_r. intros i t Hi. pose proof (Hd i t Hi). lra. }
  set (s1 := advance _ s) in *. clearbody s1. destruct (match a_connect a with Ok _ => _ | Err e => _ end) as [s2 r2] eqn:E.
  assert (steady I l (advance (a_closing a) s2)) as H2.
  { apply steady_advance; [done|]. destruct (a_connect a); [by eapply send_loop_steady|by injection E as <- _]. }
  destruct r2 as [u|e]; [by apply Hpause|]. destruct (is_OSError e); [apply Hpause; by apply steady_error|by intros [= <- <-]].
Qed.

Lemma send_spaced I attempts s s' logs r l : I <= full_interval f -> I <= 1 -> Forall forward attempts -> steady I l (fresh s) -> ready I l (clock s) -> send run_id token_hex token f attempts s = (s', logs, r) ->
  spaced I (l ++ map fst (concat logs)).
Proof.
  intros HI H1 Ha. revert s s' logs r l. induction Ha as [|a attempts Ha _ IH]; intros s s' logs r l Hs Hd; cbn [send]; [intros [= <- <- <-]; exact (st_spaced _ _ _ Hs)|].
  destruct (a_stopped a); [intros [= <- <- <-]; exact (st_spaced _ _ _ Hs)|]. destruct (send_attempt _ _ _ _ a (fresh s)) as [s1 r1] eqn:E. apply (send_attempt_steady I l) in E as [E1 E2]; [|done..].
  destruct r1 as [[]|e]; [|intros [= <- <- <-]; cbn [concat]; rewrite app_nil_r; exact (st_spaced _ _ _ E1)..].
  destruct (send _ _ _ _ attempts s1) as [[s2 ls] r2] eqn:E'. intros [= <- <- <-]. cbn [concat]. rewrite map_app, app_assoc. fold (times s1). eapply IH; [| |exact E'].
  - destruct E1 as [S1 S2 S3]. constructor; unfold times; cbn [fresh packets map clock rate_scale]; rewrite ?app_nil_r; done.
  - apply ready_restart; [done|apply E1|by apply E2].
Qed.

(** Each connection on its own. *)
Lemma send_connections I attempts s s' logs r : I <= full_interval f -> Forall forward attempts -> 0 < rate_scale s /\ rate_scale s <= 1 -> send run_id token_hex token f attempts s = (s', logs, r) ->
  Forall (fun l => spaced I (map fst l)) logs.
Proof.
  intros HI Ha. revert s s' logs r. induction Ha as [|a attempts Ha _ IH]; intros s s' logs r Hs; cbn [send]; [by intros [= <- <- <-]|].
  destruct (a_stopped a); [by intros [= <- <- <-]|]. destruct (send_attempt _ _ _ _ a (fresh s)) as [s1 r1] eqn:E. apply (send_attempt_steady I []) in E as [E1 _]; [|done|done| |done|].
  - destruct r1 as [[]|e]; [|intros [= <- <- <-]; constructor; [apply E1|done]..]. destruct (send _ _ _ _ attempts s1) as [[s2 ls] r2] eqn:E'. intros [= <- <- <-]. constructor; [apply E1|]. eapply IH; [|exact E']. apply E1.
  - constructor; [|constructor|done]. by intros i j x y _ Hi.
  - by intros i x Hi.
Qed.

Lemma send_turn_labelled base tx t d s s' r : sequence s = (base + len (packets s))%Z -> labelled token f base tx s -> send_turn run_id token_hex token f t d s = (s', r) ->
  labelled token f base tx s' /\ ((forall e, r = Err e -> is_OSError e = true) -> sequence s' = (base + len (packets s'))%Z).
Proof.
  intros Hn Hl. unfold send_turn. destruct (t_done t); [by intros [= <- <-]|]. destruct (t_stopped t); [by intros [= <- <-]|].
  set (now := clock (advance (later _ _ + _) _)). cbn [advance sequence rate_scale s_counters packets]. destruct (packet _ _ _ _ _) as [raw|e] eqn:E.
  - assert (labelled token f base tx (Sender now (sequence s + 1) (rate_scale s) (sent (micros now) (sequence s + 1) (len raw) (s_counters s)) (packets s ++ [(now, raw)]))) as H.
    { destruct Hl as [H1 H2]. split; cbn [packets s_counters].
      - intros n u raw' [Hi|[Hge Hi]]%lookup_app_Some; [by apply H1|]. apply list_lookup_singleton_Some in Hi as [Hz [= <- <-]]. replace (base + Z.of_nat n + 1)%Z with (sequence s + 1)%Z by (unfold len in *; lia). done.
      - rewrite sent_tx, H2, len_app. change (len [(now, raw)]) with 1%Z. lia. }
    assert (sequence s + 1 = base + len (packets s ++ [(now, raw)]))%Z as Hseq by (rewrite len_app; change (len [(now, raw)]) with 1%Z; lia).
    destruct (t_sending t); [|intros [= <- <-]; done]. destruct (Qeq_bool _ _); intros [= <- <-]; done.
  - apply packet_error in E. intros [= <- <-]. split; [done|]. intros He. pose proof (He e eq_refl). congruence.
Qed.

Lemma send_loop_labelled base tx turns d s s' r : sequence s = (base + len (packets s))%Z -> labelled token f base tx s -> send_loop run_id token_hex token f turns d s = (s', r) ->
  labelled token f base tx s' /\ ((forall e, r = Err e -> is_OSError e = true) -> sequence s' = (base + len (packets s'))%Z).
Proof.
  revert d s. induction turns as [|t turns IH]; intros d s Hn Hl; cbn [send_loop]; [by intros [= <- <-]|].
  destruct (send_turn _ _ _ _ t d s) as [s1 r1] eqn:E. apply (send_turn_labelled base tx) in E as [H1 H2]; [|done..].
  destruct r1 as [[d'|]|e]; [apply IH; auto; by apply H2|intros [= <- <-]; split; [done|intros _; by apply H2]|intros [= <- <-]; split; [done|]].
  intros He. apply H2. intros e' [= <-]. by apply He.
Qed.

Lemma send_attempt_labelled tx a s s' r : packets s = [] -> tx_packets (vals (s_counters s)) = tx -> send_attempt run_id token_hex token f a s = (s', r) ->
  labelled token f (sequence s) tx s' /\ (r = Ok true -> sequence s' = (sequence s + len (packets s'))%Z).
Proof.
  intros Hn Htx. set (base := sequence s). assert (sequence s = base + len (packets s))%Z as Hb by (rewrite Hn, len_nil; unfold base; lia).
  assert (labelled token f base tx s) as Hl by (split; [intros n t raw; rewrite Hn; done|rewrite Hn, len_nil; lia]). clearbody base. clear Hn Htx.
  assert (forall z z' rz, labelled token f base tx z -> sequence z = (base + len (packets z))%Z -> pause a z = (z', rz) -> labelled token f base tx z' /\ (rz = Ok true -> sequence z' = (base + len (packets z'))%Z)) as Hpause.
  { intros z z' rz H1 H2. unfold pause. by destruct (a_interrupted a); intros [= <- <-]. }
  unfold send_attempt. destruct (a_socket a) as [[]|e]; [|by destruct (is_OSError e); [apply Hpause|intros [= <- <-]]].
  destruct (match a_connect a with Ok _ => _ | Err e => _ end) as [s2 r2] eqn:E.
  assert (labelled token f base tx s2 /\ ((forall e, r2 = Err e -> is_OSError e = true) -> sequence s2 = (base + len (packets s2))%Z)) as [H1 H2].
  { destruct (a_connect a); [by eapply send_loop_labelled in E|by injection E as <- <-]. }
  destruct r2 as [u|e]; [apply Hpause; [done|by apply H2]|]. destruct (is_OSError e) eqn:Ee; [|by intros [= <- <-]]. apply Hpause; [done|]. apply H2. by intros e' [= <-].
Qed.

Lemma send_labelled attempts s s' logs r : send run_id token_hex token f attempts s = (s', logs, r) ->
  (forall n t raw, concat logs !! n = Some (t, raw) -> packet token (f_number f) (sequence s + Z.of_nat n + 1) (nanos t) (payload_bytes f) = Ok raw) /\
  tx_packets (vals (s_counters s')) = (tx_packets (vals (s_counters s)) + len (concat logs))%Z.
Proof.
  revert s s' logs r. induction attempts as [|a attempts IH]; intros s s' logs r; cbn [send]; [intros [= <- <- <-]; split; [done|cbn [concat]; rewrite len_nil; lia]|].
  destruct (a_stopped a); [intros [= <- <- <-]; split; [done|cbn [concat]; rewrite len_nil; lia]|]. destruct (send_attempt _ _ _ _ a (fresh s)) as [s1 r1] eqn:E.
  apply (send_attempt_labelled (tx_packets (vals (s_counters s)))) in E as [[E1 E2] E3]; [|done..]. change (sequence (fresh s)) with (sequence s) in *.
  destruct r1 as [[]|e]; [|intros [= <- <- <-]; cbn [concat]; rewrite app_nil_r; done..].
  destruct (send _ _ _ _ attempts s1) as [[s2 ls] r2] eqn:E'. intros [= <- <- <-]. apply IH in E' as [I1 I2]. cbn [concat]. split; [|rewrite I2, E2, len_app; lia].
  intros n t raw [Hi|[Hge Hi]]%lookup_app_Some; [by apply E1|]. apply I1 in Hi. rewrite E3 in Hi by done. rewrite <- Hi. f_equal. unfold len. lia.
Qed.
End Pacing.

(** C39.  The sender keeps its configured rate, whatever the scheduler, the network and the rate files do, with the waits, the failures and the reconnections of the thread.  Within a connection two packets with n
    others between them are at least n full-rate intervals apart, so in any stretch of time there is at most one packet more than the rate allows; over the whole run, across all reconnections, they are at
    least n times the interval or n seconds apart, whichever is less: a flow of a packet a second or more keeps its rate across reconnections too, and a slower one keeps, in the same sense, to a packet a second.  The packets
    are numbered consecutively from 1 over all connections, carry the time they were made, and are what the counters count.  The clock does not run backwards; times are exact. *)
Theorem send_run_paced (run_id token_hex : string) (token : list byte) (f : flow) (attempts : list attempt) (start : Q) (c : counters) :
  (0 <= payload_bytes f)%Z -> (0 < rate_bps f)%Z -> Forall forward attempts ->
  let '(s', logs, r) := send run_id token_hex token f attempts (Sender start 0 1 c []) in
  Forall (fun l => spaced (full_interval f) (map fst l)) logs /\
  spaced (Qmin (full_interval f) 1) (map fst (concat logs)) /\
  (forall n t raw, concat logs !! n = Some (t, raw) -> packet token (f_number f) (Z.of_nat n + 1) (nanos t) (payload_bytes f) = Ok raw) /\
  tx_packets (vals (s_counters s')) = (tx_packets (vals c) + len (concat logs))%Z.
Proof.
  intros Hp Hr Ha. destruct (send _ _ _ _ _ _) as [[s' logs] r] eqn:E. split_and!.
  - eapply send_connections; [done|done|apply Qle_refl|exact Ha| |exact E]. cbn. split; [reflexivity|apply Qle_refl].
  - eapply (send_spaced run_id token_hex token f Hp Hr _ _ _ _ _ _ []); [apply Q.le_min_l|apply Q.le_min_r|exact Ha| |by intros i x Hi|exact E].
    constructor; [by intros i j x y _ Hi|constructor|]. cbn. split; [reflexivity|apply Qle_refl].
  - apply send_labelled in E as [E _]. cbn [sequence] in E. exact E.
  - by apply send_labelled in E as [_ E].
Qed.


Definition sample_flow : flow := Flow "f1" 1 100 8000 "SAT1" "SAT2" "10.0.0.1" "10.0.0.2" false.

(** Two packets in time, a broken connection, a second one at once. *)
Definition example_turn (ask : Q) (sending : res unit) : turn := Turn false ask false 0 sending (1 # 1000) [].

Definition example_attempts : list attempt :=
  [Attempt false (Ok tt) (Ok tt) (1 # 10) [example_turn 0 (Ok tt); example_turn 0 (Err (ConnectionError "reset"))] 0 false 0;
   Attempt false (Ok tt) (Ok tt) (1 # 10) [example_turn 0 (Ok tt)] 0 true 0].

Definition example_logs : list (list (Q * list byte)) := (send "run" "00" (zeros 16) sample_flow example_attempts (Sender 0 0 1 (init 0) [])).1.2.

Lemma send_run_paced_witness : spaced (1 # 10) (map fst (concat example_logs)) /\ map (map (fun e => Qred (fst e))) example_logs = [[1 # 10; 1 # 5]; [1301 # 1000]].
Proof.
  split; [|vm_compute; reflexivity].
  pose proof (send_run_paced "run" "00" (zeros 16) sample_flow example_attempts 0 (init 0)) as H.
  destruct (send "run" "00" (zeros 16) sample_flow example_attempts (Sender 0 0 1 (init 0) [])) as [[s' logs] r] eqn:E.
  assert (example_logs = logs) as -> by (unfold example_logs; by rewrite E). destruct H as (_ & H & _).
  - simpl; lia.
  - simpl; lia.
  - unfold forward, turn_forward. repeat constructor; simpl; lra.
  - intros i j x y Hij Hi Hj. pose proof (H i j x y Hij Hi Hj) as G. assert (Qmin (full_interval sample_flow) 1 == 1 # 10) as Em by (vm_compute; reflexivity). rewrite Em in G. exact G.
Defined.

Close Scope Q_scope.

End Traffic.
