(* ===== verification/Packets.v ===== *)
(** * Packets: decoding captured traffic

    [Gtpu] models lab/platform/packets.py (PCAP files and GTP-U under encapsulation),
    [Capture] models lab/live/workload_capture.py (the evidence a capture collects).
    The decoders recurse on the number of layers they still accept, which the code
    bounds by its [depth] argument. *)

From S2P Require Import Prelude Bytes Text Traffic.

(** [l[i]] where a guard on the length has made the index valid. *)
Definition nth_byte (l : list byte) (i : nat) : Z := match l !! i with Some b => u8 b | None => 0 end.

(** [int.from_bytes(l[a:b], 'big')] *)
Definition field (l : list byte) (a b : Z) : Z := be_dec (slice l a b).

(** The label stack loop of both decoders: the labels up to the bottom-of-stack bit and
    what follows, or nothing when the data ends first. *)
Fixpoint mpls_stack (fuel : nat) (data : list byte) (stack : list Z) : option (list Z * list byte) :=
  match fuel with
  | O => None
  | S f =>
      if len data <? 4 then None else
      let value := field data 0 4 in
      let stack := stack ++ [Z.shiftr value 12] in
      if negb (Z.land value 0x100 =? 0) then Some (stack, from data 4)
      else mpls_stack f (from data 4) stack
  end.

(** The loop over IPv6 extension headers, at most [n] of them: the final next header and
    payload, and whether segment routing headers were seen. *)
Fixpoint extension_headers (n : nat) (next_header : Z) (payload : list byte) (layers : list string) : option (Z * list byte * list string) :=
  match n with
  | O => Some (next_header, payload, layers)
  | S n' =>
      if negb (mem next_header [0; 43; 60]) then Some (next_header, payload, layers) else
      if len payload <? 8 then None else
      let size := (nth_byte payload 1 + 1) * 8 in
      if len payload <? size then None else
      let layers := if (next_header =? 43) && (nth_byte payload 2 =? 4) then layers ++ ["srh"] else layers in
      extension_headers n' (nth_byte payload 0) (from payload size) layers
  end.

Module Gtpu.

(** ** Definitions *)

Record gtpu := MkGtpu { source : string; destination : string; layers : list string; labels : list Z; teid : Z }.

(** [gtpu_packets] after the IP header: what [next_header] says the payload is. *)
Definition gtpu_payload (recurse : list byte -> Z -> list string -> list Z -> list gtpu)
    (protocol : Z) (src dst : string) (next_header : Z) (payload : list byte) (lay : list string) (labs : list Z) : list gtpu :=
  if mem next_header [4; 41] then
    recurse payload (if next_header =? 4 then 0x0800 else 0x86DD)
      (lay ++ if protocol =? 0x0800 then ["ipip"] else []) labs
  else if negb (next_header =? 17) || (len payload <? 8) then [] else
  let source_port := field payload 0 2 in
  let destination_port := field payload 2 4 in
  let length := field payload 4 6 in
  if (length <? 8) || (len payload <? length) then [] else
  let payload := slice payload 8 length in
  if (destination_port =? 4789) && (8 <=? len payload) && negb (Z.land (nth_byte payload 0) 8 =? 0) then
    recurse (from payload 8) 0x6558 (lay ++ ["vxlan"]) labs
  else if (source_port =? 2152) && (destination_port =? 2152) && (8 <=? len payload)
          && (Z.shiftr (nth_byte payload 0) 5 =? 1) && (nth_byte payload 1 =? 255) then
    [MkGtpu src dst lay labs (field payload 4 8)]
  else [].

(** [fuel] is [17 - depth]. *)
Fixpoint gtpu_fuel (fuel : nat) (data : list byte) (protocol : Z) (lay : list string) (labs : list Z) : list gtpu :=
  match fuel with
  | O => []
  | S f =>
      if protocol =? 0x6558 then
        if len data <? 14 then [] else gtpu_fuel f (from data 14) (field data 12 14) lay labs
      else if mem protocol [0x8847; 0x8848] then
        match mpls_stack (length data) data [] with
        | None => []
        | Some (stack, data) =>
            if bool_decide (data = []) then [] else
            gtpu_fuel f data (if Z.shiftr (nth_byte data 0) 4 =? 6 then 0x86DD else 0x0800) (lay ++ ["mpls"]) (labs ++ stack)
        end
      else if protocol =? 0x0800 then
        if (len data <? 20) || negb (Z.shiftr (nth_byte data 0) 4 =? 4) then [] else
        let length := Z.land (nth_byte data 0) 15 * 4 in
        if (length <? 20) || (len data <? length) || negb (Z.land (field data 6 8) 0x1FFF =? 0) then [] else
        gtpu_payload (gtpu_fuel f) protocol (ipv4_str (field data 12 16)) (ipv4_str (field data 16 20))
          (nth_byte data 9) (from data length) lay labs
      else if protocol =? 0x86DD then
        if (len data <? 40) || negb (Z.shiftr (nth_byte data 0) 4 =? 6) then [] else
        match extension_headers 8 (nth_byte data 6) (from data 40) (lay ++ ["ipv6"]) with
        | None => []
        | Some (next_header, payload, lay) =>
            gtpu_payload (gtpu_fuel f) protocol (ipv6_str (field data 8 24)) (ipv6_str (field data 24 40)) next_header payload lay labs
        end
      else []
  end.

Definition gtpu_packets (data : list byte) (protocol : Z) : list gtpu := gtpu_fuel 17 data protocol [] [].

(** A captured packet: [seconds], the fraction of a second with its scale, the packet. *)
Record captured := Captured { seconds : Z; frac : Z; scale : Z; content : gtpu }.

Definition timestamp (c : captured) : Q := (inject_Z (seconds c) + inject_Z (frac c) / inject_Z (scale c))%Q.

(** [struct.unpack(endian + 'I', b)] *)
Definition u32 (little : bool) (b : list byte) : Z := if little then le_dec b else be_dec b.

(** The four magic numbers: byte order and time stamp scale. *)
Definition magic (m : list byte) : option (bool * Z) :=
  if beq m (lit [0xd4; 0xc3; 0xb2; 0xa1]) then Some (true, 1000000)
  else if beq m (lit [0xa1; 0xb2; 0xc3; 0xd4]) then Some (false, 1000000)
  else if beq m (lit [0x4d; 0x3c; 0xb2; 0xa1]) then Some (true, 1000000000)
  else if beq m (lit [0xa1; 0xb2; 0x3c; 0x4d]) then Some (false, 1000000000)
  else None.

(** The link header's size and the offset of its protocol field. *)
Definition link_layout (linktype : Z) : Z * Z :=
  if linktype =? 1 then (14, 12) else if linktype =? 113 then (16, 14) else (20, 0).

Fixpoint read_records (fuel : nat) (little : bool) (sc linktype : Z) (stream : list byte) : res (list captured) :=
  match stream, fuel with
  | [], _ => Ok []
  | _, O => Err OutOfFuel
  | _, S f =>
      let frame := slice stream 0 16 in
      raise (ValueError "truncated packet header") when negb (len frame =? 16) ;;
      let sec := u32 little (slice frame 0 4) in
      let fr := u32 little (slice frame 4 8) in
      let size := u32 little (slice frame 8 12) in
      raise (ValueError "oversize packet record") when (4 * 1024 * 1024 <? size) ;;
      let data := slice stream 16 (16 + size) in
      raise (ValueError "truncated packet") when negb (len data =? size) ;;
      let '(hdr, offset) := link_layout linktype in
      let found := if hdr <=? len data
        then map (Captured sec fr sc) (gtpu_packets (from data hdr) (field data offset (offset + 2)))
        else [] in
      let* more := read_records f little sc linktype (from stream (16 + size)) in
      Ok (found ++ more)
  end.

Definition read (file : list byte) : res (list captured) :=
  let header := slice file 0 24 in
  raise (ValueError "truncated pcap header") when negb (len header =? 24) ;;
  let* (little, sc) := or_raise (ValueError "unsupported pcap magic") (magic (slice header 0 4)) in
  let linktype := Z.land (u32 little (slice header 20 24)) 0xFFFF in
  raise (ValueError ("unsupported pcap link type " +:+ pretty linktype)) when negb (mem linktype [1; 113; 276]) ;;
  let stream := from file 24 in
  read_records (length stream) little sc linktype stream.

(** The layer each carrier must show. *)
Definition required_layer (carrier : string) : res (option string) :=
  or_raise KeyError (dget [("native", None); ("ospf", Some "ipip"); ("ldp", Some "mpls"); ("sr-mpls", Some "mpls");
    ("pcep", Some "mpls"); ("srv6", Some "srh"); ("evpn", Some "vxlan")] carrier).

Definition between (lo hi label : Z) : bool := (lo <=? label) && (label <? hi).

(** [{p.source, p.destination} == {source, destination}] *)
Definition same_ends (a b source destination : string) : bool :=
  bool_decide (a = source /\ b = destination) || bool_decide (a = destination /\ b = source).

Definition selected (carrier src dst : string) (required : option string) (p : captured) : bool :=
  let g := content p in
  (match required with None => true | Some l => mem l (layers g) end)
  && same_ends (source g) (destination g) src dst
  && (if mem carrier ["sr-mpls"; "pcep"] then existsb (between 16000 24000) (labels g)
      else if String.eqb carrier "ldp" then negb (bool_decide (labels g = [])) && forallb (between 16 15000) (labels g)
      else true).

Record evidence := Evidence {
  ev_carrier : string; uplink : Z; downlink : Z; teids : list Z; label_stacks : list (list Z); examples : list captured }.

Fixpoint labels_leb (a b : list Z) : bool :=
  match a, b with
  | [], _ => true
  | _, [] => false
  | x :: a', y :: b' => if x =? y then labels_leb a' b' else x <=? y
  end.

Definition count_direction (src dst : string) (l : list captured) : Z :=
  len (List.filter (fun p => String.eqb (source (content p)) src && String.eqb (destination (content p)) dst) l).

Definition in_window (window : option (Q * Q)) (p : captured) : bool :=
  match window with
  | None => true
  | Some (lo, hi) => Qle_bool lo (timestamp p) && Qle_bool (timestamp p) hi
  end.

(** [proof] on the bytes of the file; the text of the assertion stops before the counts. *)
Definition proof (name : string) (file : list byte) (carrier src dst : string) (require_bidirectional : bool) (window : option (Q * Q)) : res evidence :=
  let* packets := read file in
  let packets := List.filter (in_window window) packets in
  let* required := required_layer carrier in
  let sel := List.filter (selected carrier src dst required) packets in
  let up := count_direction src dst sel in
  let down := count_direction dst src sel in
  raise (AssertionError (name +:+ ": no bidirectional GTP-U inside " +:+ carrier)) when
    require_bidirectional && ((up =? 0) || (down =? 0)) ;;
  Ok (Evidence carrier up down (sort_by Z.leb (set_of (map (fun p => teid (content p)) sel)))
        (sort_by labels_leb (set_of (map (fun p => labels (content p)) sel))) (take 6 sel)).

End Gtpu.

Module Capture.
Import Traffic.

(** ** Definitions *)

Record packet := Packet {
  source : string; destination : string; source_port : Z; destination_port : Z;
  family : Z; transport : string; layers : list string; labels : list Z; payload : list byte }.

(** [decode] after the IP header. *)
Definition decode_payload (recurse : list byte -> Z -> list string -> list Z -> option packet)
    (protocol : Z) (src dst : string) (next_header : Z) (data : list byte) (lay : list string) (labs : list Z) : option packet :=
  if mem next_header [4; 41] then
    recurse data (if next_header =? 4 then 0x0800 else 0x86dd) (lay ++ if protocol =? 0x0800 then ["ipip"] else []) labs
  else if next_header =? 143 then recurse data 0x6558 (lay ++ ["ethernet"]) labs
  else if mem next_header [1; 58] then
    if len data <? 8 then None else
    Some (Packet src dst 0 0 (if next_header =? 58 then 6 else 4) "icmp" lay labs (from data 8))
  else if next_header =? 17 then
    if len data <? 8 then None else
    let sp := field data 0 2 in
    let dp := field data 2 4 in
    let length := field data 4 6 in
    if (length <? 8) || (len data <? length) then None else
    let data := slice data 8 length in
    if (dp =? 4789) && (8 <=? len data) && negb (Z.land (nth_byte data 0) 8 =? 0) then
      recurse (from data 8) 0x6558 (lay ++ ["vxlan"]) labs
    else Some (Packet src dst sp dp (if protocol =? 0x86dd then 6 else 4) "udp" lay labs data)
  else if next_header =? 6 then
    if len data <? 20 then None else
    let size := Z.shiftr (nth_byte data 12) 4 * 4 in
    if (size <? 20) || (len data <? size) then None else
    Some (Packet src dst (field data 0 2) (field data 2 4) (if protocol =? 0x86dd then 6 else 4) "tcp" lay labs (from data size))
  else None.

(** [fuel] is [13 - depth]. *)
Fixpoint decode_fuel (fuel : nat) (data : list byte) (protocol : Z) (lay : list string) (labs : list Z) : option packet :=
  match fuel with
  | O => None
  | S f =>
      if protocol =? 0x6558 then
        if len data <? 14 then None else decode_fuel f (from data 14) (field data 12 14) lay labs
      else if mem protocol [0x8100; 0x88a8] then
        if len data <? 4 then None else decode_fuel f (from data 4) (field data 2 4) lay labs
      else if mem protocol [0x8847; 0x8848] then
        match mpls_stack (length data) data [] with
        | None => None
        | Some (stack, data) =>
            if bool_decide (data = []) then None else
            decode_fuel f data (if Z.shiftr (nth_byte data 0) 4 =? 6 then 0x86dd else 0x0800) (lay ++ ["mpls"]) (labs ++ stack)
        end
      else if protocol =? 0x0800 then
        if (len data <? 20) || negb (Z.shiftr (nth_byte data 0) 4 =? 4) then None else
        let size := Z.land (nth_byte data 0) 15 * 4 in
        let total := field data 2 4 in
        if (size <? 20) || (total <? size) || (len data <? total) || negb (Z.land (field data 6 8) 0x1fff =? 0) then None else
        decode_payload (decode_fuel f) protocol (ipv4_str (field data 12 16)) (ipv4_str (field data 16 20))
          (nth_byte data 9) (slice data size total) lay labs
      else if protocol =? 0x86dd then
        if (len data <? 40) || negb (Z.shiftr (nth_byte data 0) 4 =? 6) then None else
        let total := 40 + field data 4 6 in
        if len data <? total then None else
        match extension_headers 8 (nth_byte data 6) (slice data 40 total) lay with
        | None => None
        | Some (next_header, data', lay) =>
            decode_payload (decode_fuel f) protocol (ipv6_str (field data 8 24)) (ipv6_str (field data 24 40)) next_header data' lay labs
        end
      else None
  end.

Definition decode (data : list byte) : option packet := decode_fuel 13 data 0x6558 [] [].

Definition matches (carrier : string) (p : packet) : bool :=
  if mem carrier ["ldp"; "sr-mpls"; "pcep"] then
    if negb (mem "mpls" (layers p)) then false
    else if mem carrier ["sr-mpls"; "pcep"] then existsb (fun l => (16000 <=? l) && (l <? 24000)) (labels p)
    else existsb (fun l => (15 <? l) && (l <? 16000)) (labels p)
  else if String.eqb carrier "evpn-srv6" then
    mem "srh" (layers p) && negb (mem "vxlan" (layers p)) && negb (mem "mpls" (layers p))
  else if String.eqb carrier "srv6" then mem "srh" (layers p)
  else if String.eqb carrier "evpn" then mem "vxlan" (layers p)
  else bool_decide (layers p = []) && (family p =? if String.eqb carrier "ospf6" then 6 else 4).

(** A flow of the capture's configuration. *)
Record cflow := CFlow { cf_id : string; cf_number : Z; carrier : string; cf_source : string; cf_destination : string }.

Record observation := Observation {
  forward : Z; reverse : Z; o_nodes : list (string * Z); o_layers : list string; o_labels : list Z }.

Record service := Service {
  packets : Z; s_nodes : list (string * Z); s_layers : list string; s_family : option Z; s_teids : option (list Z) }.

Record state := State {
  observations : list (string * observation); services : list (string * service);
  written : Z; pcap : list byte }.

Definition le_enc (n : nat) (v : Z) : list byte := rev (be_enc n v).

(** The PCAP file header: magic, version 2.4, snap length, Ethernet. *)
Definition pcap_header : list byte :=
  le_enc 4 0xa1b2c3d4 ++ le_enc 2 2 ++ le_enc 2 4 ++ le_enc 4 0 ++ le_enc 4 0 ++ le_enc 4 65535 ++ le_enc 4 1.

Definition pcap_record (sec usec : Z) (raw : list byte) : list byte :=
  le_enc 4 sec ++ le_enc 4 usec ++ le_enc 4 (len raw) ++ le_enc 4 (len raw) ++ raw.

Definition init : state := State [] [] 0 pcap_header.

Definition bump (nodes : list (string * Z)) (node : string) : list (string * Z) :=
  dset nodes node (default 0 (dget nodes node) + 1).

(** What a frame is evidence of, if anything. *)
Inductive finding :=
| FlowSeen (f : cflow) (is_forward : bool)
| L2Seen (key : string)
| N3Seen (key : string).

Section Capture.
Context (token : list byte) (flows : list (Z * cflow)).

(** [token in raw] *)
Fixpoint contains (fuel : nat) (raw : list byte) : bool :=
  beq (take (length token) raw) token ||
  match fuel, raw with S f, _ :: raw' => contains f raw' | _, _ => false end.

Definition classify (p : packet) : option finding :=
  let seen := match identify (payload p) token with
    | Some (number, _, _) => dget flows number
    | None => None
    end in
  match seen with
  | Some f =>
      let fwd := bool_decide (source p = cf_source f /\ destination p = cf_destination f) in
      let rev := bool_decide (source p = cf_destination f /\ destination p = cf_source f) in
      if negb (fwd || rev) || negb (matches (carrier f) p) then None else Some (FlowSeen f fwd)
  | None =>
      if mem "srh" (layers p) && mem "ethernet" (layers p) && String.eqb (transport p) "icmp" then
        Some (L2Seen ("l2:" +:+ source p +:+ ":" +:+ destination p))
      else if mem "srh" (layers p) && Gtpu.same_ends (source p) (destination p) "172.22.0.8" "172.22.0.23" && (destination_port p =? 2152) then
        Some (N3Seen ("n3:" +:+ source p))
      else None
  end.

(** The entry a finding updates, its node count included. *)
Definition observe (node : string) (p : packet) (fd : finding) (st : state) : state :=
  match fd with
  | FlowSeen f fwd =>
      let e := default (Observation 0 0 [] (layers p) (labels p)) (dget (observations st) (cf_id f)) in
      let e := if fwd : bool then Observation (forward e + 1) (reverse e) (o_nodes e) (o_layers e) (o_labels e)
               else Observation (forward e) (reverse e + 1) (o_nodes e) (o_layers e) (o_labels e) in
      let e := Observation (forward e) (reverse e) (bump (o_nodes e) node) (o_layers e) (o_labels e) in
      State (dset (observations st) (cf_id f) e) (services st) (written st) (pcap st)
  | L2Seen key =>
      let e := default (Service 0 [] (layers p) (Some (family p)) None) (dget (services st) key) in
      let e := Service (packets e + 1) (bump (s_nodes e) node) (s_layers e) (s_family e) (s_teids e) in
      State (observations st) (dset (services st) key e) (written st) (pcap st)
  | N3Seen key =>
      let e := default (Service 0 [] (layers p) None (Some [])) (dget (services st) key) in
      let t := field (payload p) 4 8 in
      let ts := match s_teids e with
        | Some ts => Some (if (8 <=? len (payload p)) && negb (mem t ts) then ts ++ [t] else ts)
        | None => None
        end in
      let e := Service (packets e + 1) (bump (s_nodes e) node) (s_layers e) (s_family e) ts in
      State (observations st) (dset (services st) key e) (written st) (pcap st)
  end.

Definition pcap_limit : Z := 2 * 1024 * 1024.

Definition store (sec usec : Z) (raw : list byte) (st : state) : state :=
  if written st <? pcap_limit
  then State (observations st) (services st) (written st + 16 + len raw) (pcap st ++ pcap_record sec usec raw)
  else st.

(** One received frame: the body of [for sock in ready]. *)
Definition on_frame (node : string) (pkttype : Z) (raw : list byte) (sec usec : Z) (st : state) : state :=
  if pkttype =? 4 then st else
  if negb (contains (length raw) raw) then st else
  match decode raw with
  | None => st
  | Some p =>
      match classify p with
      | None => st
      | Some fd => store sec usec raw (observe node p fd st)
      end
  end.

(** A frame as the sockets deliver it. *)
Record frame := Frame { fr_node : string; fr_type : Z; fr_raw : list byte; fr_sec : Z; fr_usec : Z }.

Definition capture (frames : list frame) : state :=
  fold_left (fun st f => on_frame (fr_node f) (fr_type f) (fr_raw f) (fr_sec f) (fr_usec f) st) frames init.

End Capture.

(** ** The capture file *)

Lemma le_dec_enc n v : 0 <= v < 256 ^ Z.of_nat n -> le_dec (le_enc n v) = v.
Proof. intros H. unfold le_dec, le_enc. rewrite rev_involutive. by apply be_dec_enc. Qed.

Lemma len_le_enc n v : len (le_enc n v) = Z.of_nat n.
Proof. unfold le_enc, len. by rewrite length_rev, length_be_enc. Qed.

Lemma u32_nonneg little b : 0 <= Gtpu.u32 little b.
Proof. unfold Gtpu.u32, le_dec. destruct little; apply be_dec_bound. Qed.

Lemma read_records_enough f1 f2 little sc lt stream :
  (length stream <= f1)%nat -> (length stream <= f2)%nat ->
  Gtpu.read_records f1 little sc lt stream = Gtpu.read_records f2 little sc lt stream.
Proof.
  revert f2 stream. induction f1 as [|f1 IH]; intros f2 stream H1 H2.
  - destruct stream; [by destruct f2|simpl in *; lia].
  - destruct stream as [|b stream]; [by destruct f2|]. destruct f2 as [|f2]; [simpl in *; lia|].
    cbn [Gtpu.read_records]. split_guard. cbv zeta. destruct (4 * 1024 * 1024 <? _); [done|]. destruct (negb _) eqn:E; [done|].
    destruct (Gtpu.link_layout lt) as [hdr offset].
    rewrite (IH f2); [done|..]; unfold from; rewrite length_drop;
      match goal with |- context [Gtpu.u32 ?l ?b] => pose proof (u32_nonneg l b) end; cbn [length] in *; lia.
Qed.

(** A stored record: its time stamp and its frame. *)
Definition stored := (Z * Z * list byte)%type.
Definition stored_ok (r : stored) : Prop := 0 <= r.1.1 < 2 ^ 32 /\ 0 <= r.1.2 < 2 ^ 32 /\ len r.2 <= 65535.

(** The GTP-U packets in one stored frame, as [read] reports them. *)
Definition found_in (r : stored) : list Gtpu.captured :=
  if 14 <=? len r.2
  then map (Gtpu.Captured r.1.1 r.1.2 1000000) (Gtpu.gtpu_packets (from r.2 14) (field r.2 12 14))
  else [].

Lemma read_records_S f little sc stream : stream <> [] ->
  Gtpu.read_records (S f) little sc 1 stream =
    let frame := slice stream 0 16 in
    raise (ValueError "truncated packet header") when negb (len frame =? 16) ;;
    let sec := Gtpu.u32 little (slice frame 0 4) in
    let fr := Gtpu.u32 little (slice frame 4 8) in
    let size := Gtpu.u32 little (slice frame 8 12) in
    raise (ValueError "oversize packet record") when (4 * 1024 * 1024 <? size) ;;
    let data := slice stream 16 (16 + size) in
    raise (ValueError "truncated packet") when negb (len data =? size) ;;
    let found := if 14 <=? len data
      then map (Gtpu.Captured sec fr sc) (Gtpu.gtpu_packets (from data 14) (field data 12 14))
      else [] in
    let* more := Gtpu.read_records f little sc 1 (from stream (16 + size)) in
    Ok (found ++ more).
Proof. by destruct stream. Qed.

Lemma read_record_cons r rest f :
  stored_ok r ->
  Gtpu.read_records (S f) true 1000000 1 (pcap_record r.1.1 r.1.2 r.2 ++ rest) =
    let* more := Gtpu.read_records f true 1000000 1 rest in Ok (found_in r ++ more).
Proof.
  destruct r as [[sec usec] raw]. intros (Hs & Hu & Hl). cbn [fst snd] in *. pose proof (len_nonneg raw) as H0.
  set (data := pcap_record sec usec raw ++ rest).
  assert (data = le_enc 4 sec ++ le_enc 4 usec ++ le_enc 4 (len raw) ++ le_enc 4 (len raw) ++ raw ++ rest) as Hd
    by (subst data; unfold pcap_record; by rewrite <- !app_assoc).
  assert (slice data 0 16 = le_enc 4 sec ++ le_enc 4 usec ++ le_enc 4 (len raw) ++ le_enc 4 (len raw)) as H16 by by rewrite Hd.
  assert (from data 16 = raw ++ rest) as Hf by by rewrite Hd.
  assert (slice data 16 (16 + len raw) = raw) as Hraw.
  { unfold slice. fold (from data 16). rewrite Hf. replace (16 + len raw - 16) with (len raw) by lia.
    unfold len. by rewrite Nat2Z.id, take_app_length. }
  assert (from data (16 + len raw) = rest) as Hrest.
  { unfold from in *. rewrite Z2Nat.inj_add, <- drop_drop by lia. rewrite Hf. unfold len. rewrite Nat2Z.id. apply drop_app_length. }
  assert (data <> []) as Hne by (intros E; by rewrite E in H16).
  rewrite read_records_S by done. clearbody data. cbv zeta. unfold Gtpu.u32. rewrite H16.
  change (len (le_enc 4 sec ++ le_enc 4 usec ++ le_enc 4 (len raw) ++ le_enc 4 (len raw))) with 16.
  change (slice (le_enc 4 sec ++ le_enc 4 usec ++ le_enc 4 (len raw) ++ le_enc 4 (len raw)) 0 4) with (le_enc 4 sec).
  change (slice (le_enc 4 sec ++ le_enc 4 usec ++ le_enc 4 (len raw) ++ le_enc 4 (len raw)) 4 8) with (le_enc 4 usec).
  change (slice (le_enc 4 sec ++ le_enc 4 usec ++ le_enc 4 (len raw) ++ le_enc 4 (len raw)) 8 12) with (le_enc 4 (len raw)).
  rewrite !le_dec_enc by (simpl; lia). cbn [negb Z.eqb Pos.eqb].
  destruct (4 * 1024 * 1024 <? len raw) eqn:E; bool_to_prop; [lia|]. rewrite Hraw, Z.eqb_refl, Hrest. done.
Qed.

(** The file a list of records makes. *)
Definition file_of (rs : list stored) : list byte :=
  pcap_header ++ concat (map (fun r => pcap_record r.1.1 r.1.2 r.2) rs).

Lemma read_file_of rs : Forall stored_ok rs -> Gtpu.read (file_of rs) = Ok (concat (map found_in rs)).
Proof.
  intros Hrs. unfold Gtpu.read, file_of. set (body := concat _).
  change (slice (pcap_header ++ body) 0 24) with pcap_header. change (from (pcap_header ++ body) 24) with body.
  change (negb (len pcap_header =? 24)) with false.
  change (Gtpu.magic (slice pcap_header 0 4)) with (Some (true, 1000000)). cbn [or_raise mbind res_bind].
  change (Z.land (Gtpu.u32 true (slice pcap_header 20 24)) 65535) with 1. cbn [negb]. cbv zeta.
  change (negb (mem 1 [1; 113; 276])) with false. cbv iota. subst body.
  induction Hrs as [|r rs Hr Hrs IH]; [done|]. cbn [map concat].
  rewrite (read_records_enough _ (S (length (concat (map (fun r => pcap_record r.1.1 r.1.2 r.2) rs)) + length (pcap_record r.1.1 r.1.2 r.2)))).
  - rewrite read_record_cons by done.
    rewrite (read_records_enough _ (length (concat (map (fun r => pcap_record r.1.1 r.1.2 r.2) rs)))) by lia. by rewrite IH.
  - done.
  - rewrite length_app. lia.
Qed.

Section CaptureLemmas.
Context (token : list byte) (flows : list (Z * cflow)).

Definition frame_ok (f : frame) : Prop := 0 <= fr_sec f < 2 ^ 32 /\ 0 <= fr_usec f < 2 ^ 32 /\ len (fr_raw f) <= 65535.

(** The frame is evidence: of what. *)
Definition evidence_of (f : frame) : option finding :=
  if fr_type f =? 4 then None else
  if negb (contains token (length (fr_raw f)) (fr_raw f)) then None else
  match decode (fr_raw f) with Some p => classify token flows p | None => None end.

Lemma observe_file node p fd st : pcap (observe node p fd st) = pcap st /\ written (observe node p fd st) = written st.
Proof. by destruct fd. Qed.

Lemma on_frame_cases f st :
  let st' := on_frame token flows (fr_node f) (fr_type f) (fr_raw f) (fr_sec f) (fr_usec f) st in
  match evidence_of f with
  | None => st' = st
  | Some fd => exists p, decode (fr_raw f) = Some p /\ st' = store (fr_sec f) (fr_usec f) (fr_raw f) (observe (fr_node f) p fd st)
  end.
Proof.
  unfold on_frame, evidence_of. destruct (fr_type f =? 4); [done|]. destruct (negb _); [done|].
  destruct (decode (fr_raw f)) as [p|]; [|done]. destruct (classify token flows p); [|done]. by exists p.
Qed.

Lemma capture_snoc frames f :
  capture token flows (frames ++ [f]) =
    on_frame token flows (fr_node f) (fr_type f) (fr_raw f) (fr_sec f) (fr_usec f) (capture token flows frames).
Proof. unfold capture. by rewrite fold_left_app. Qed.

Lemma capture_file frames :
  Forall frame_ok frames ->
  exists rs, Forall stored_ok rs /\ pcap (capture token flows frames) = file_of rs /\
    Forall (fun r => exists f, f ∈ frames /\ r.2 = fr_raw f /\ evidence_of f <> None) rs /\
    len (pcap (capture token flows frames)) = 24 + written (capture token flows frames) /\
    written (capture token flows frames) < pcap_limit + 16 + 65536.
Proof.
  intros Hfr. induction frames as [|f frames IH] using rev_ind.
  - exists []. split_and!; [constructor|done|constructor|done|done].
  - apply Forall_app in Hfr as [Hfr Hf]. rewrite Forall_singleton in Hf.
    destruct (IH Hfr) as (rs & Hok & Hp & Hev & Hlen & Hw). clear IH. rewrite capture_snoc.
    set (st := capture token flows frames) in *.
    assert (Forall (fun r : stored => exists f0, f0 ∈ frames ++ [f] /\ r.2 = fr_raw f0 /\ evidence_of f0 <> None) rs) as Hev'.
    { eapply Forall_impl; [exact Hev|]. intros r (f0 & H0 & ?). exists f0. split; [set_solver|done]. }
    pose proof (on_frame_cases f st) as Hc. cbv zeta in Hc.
    destruct (evidence_of f) as [fd|] eqn:Ef; [|rewrite Hc; by exists rs].
    destruct Hc as (p & _ & ->). destruct (observe_file (fr_node f) p fd st) as [Op Ow].
    unfold store. rewrite Ow. destruct (written st <? pcap_limit) eqn:Elim.
    2: { rewrite Op, Ow. by exists rs. }
    bool_to_prop. simpl. rewrite Op. exists (rs ++ [(fr_sec f, fr_usec f, fr_raw f)]). split_and!.
    + apply Forall_app. split; [done|]. constructor; [exact Hf|constructor].
    + rewrite Hp. unfold file_of. rewrite map_app, concat_app. cbn [map concat fst snd]. by rewrite app_nil_r, app_assoc.
    + apply Forall_app. split; [done|]. constructor; [|constructor]. exists f. split_and!; [set_solver|done|by rewrite Ef].
    + rewrite len_app, Hlen. unfold pcap_record. rewrite !len_app, !len_le_enc. lia.
    + unfold pcap_limit in *. destruct Hf as (_ & _ & Hf). lia.
Qed.

(** The evidence file: it is a PCAP that the platform's own reader accepts, it
    holds only frames that were evidence, and it is bounded, by two megabytes and one
    frame, whatever arrives. *)
Theorem capture_readable (frames : list frame) :
  Forall frame_ok frames ->
  exists rs, Gtpu.read (pcap (capture token flows frames)) = Ok (concat (map found_in rs)) /\
    Forall (fun r => exists f, f ∈ frames /\ r.2 = fr_raw f /\ evidence_of f <> None) rs /\
    len (pcap (capture token flows frames)) < 24 + pcap_limit + 16 + 65536.
Proof.
  intros H. destruct (capture_file frames H) as (rs & Hok & Hp & Hev & Hlen & Hw).
  exists rs. split_and!; [|done|lia]. rewrite Hp. by apply read_file_of.
Qed.

(** *** Accounting *)

Definition seen (id : string) (f : frame) : bool :=
  match evidence_of f with Some (FlowSeen cf _) => String.eqb (cf_id cf) id | _ => false end.

Definition node_total (nodes : list (string * Z)) : Z := fold_right Z.add 0 (map snd nodes).

Lemma bump_total nodes node : node_total (bump nodes node) = node_total nodes + 1.
Proof.
  unfold bump, node_total. induction nodes as [|[n k] nodes IH]; [done|]. simpl.
  case_decide; simpl; [lia|]. rewrite IH. lia.
Qed.

Lemma store_observations sec usec raw st : observations (store sec usec raw st) = observations st.
Proof. unfold store. by destruct (_ <? _). Qed.

(** The counts of a capture are exactly the evidence: for every flow, the forward
    and reverse counts add up to the frames that carried this run's token and the flow's
    number between its endpoints over its carrier, and so do the per-node counts; a flow
    without such a frame has no entry. *)
Theorem capture_counts (frames : list frame) (id : string) :
  match dget (observations (capture token flows frames)) id with
  | Some o => forward o + reverse o = len (List.filter (seen id) frames) /\
              node_total (o_nodes o) = len (List.filter (seen id) frames) /\ 0 < forward o + reverse o
  | None => List.filter (seen id) frames = []
  end.
Proof.
  induction frames as [|f frames IH] using rev_ind; [done|].
  rewrite capture_snoc. set (st := capture token flows frames) in *.
  rewrite List.filter_app. set (old := List.filter (seen id) frames) in *. simpl List.filter.
  pose proof (on_frame_cases f st) as Hc. cbv zeta in Hc.
  unfold seen. destruct (evidence_of f) as [[cf fwd|k|k]|] eqn:Ef.
  - destruct Hc as (p & _ & ->). rewrite store_observations. simpl. rewrite dget_dset.
    destruct (decide (id = cf_id cf)) as [->|Hne].
    + rewrite String.eqb_refl. rewrite len_app. change (len [f]) with 1.
      destruct (dget (observations st) (cf_id cf)) as [o|]; simpl.
      * destruct IH as (I1 & I2 & I3). destruct fwd; simpl; rewrite bump_total; lia.
      * rewrite IH. by destruct fwd.
    + assert (String.eqb (cf_id cf) id = false) as -> by (apply String.eqb_neq; congruence).
      by rewrite app_nil_r.
  - destruct Hc as (p & _ & ->). rewrite store_observations. simpl. by rewrite app_nil_r.
  - destruct Hc as (p & _ & ->). rewrite store_observations. simpl. by rewrite app_nil_r.
  - rewrite Hc. by rewrite app_nil_r.
Qed.

End CaptureLemmas.

(** ** What a sender puts on the wire, and what [decode] makes of it *)

Definition eth (protocol : Z) (data : list byte) : list byte := zeros 12 ++ be_enc 2 protocol ++ data.

Definition mpls_entry (label : Z) (bottom : bool) : list byte := be_enc 4 (label * 4096 + (if bottom then 256 else 0) + 64).

Fixpoint mpls (labels : list Z) (data : list byte) : list byte :=
  match labels with
  | [] => data
  | [l] => mpls_entry l true ++ data
  | l :: rest => mpls_entry l false ++ mpls rest data
  end.

Definition udp (sp dp : Z) (data : list byte) : list byte :=
  be_enc 2 sp ++ be_enc 2 dp ++ be_enc 2 (8 + len data) ++ be_enc 2 0 ++ data.

Definition ip4 (src dst protocol : Z) (data : list byte) : list byte :=
  lit [0x45; 0] ++ be_enc 2 (20 + len data) ++ be_enc 2 0 ++ be_enc 2 0 ++ lit [64] ++ be_enc 1 protocol ++ be_enc 2 0
  ++ be_enc 4 src ++ be_enc 4 dst ++ data.

Lemma mpls_entry_bits l b : 0 <= l < 2 ^ 20 ->
  let v := be_dec (mpls_entry l b) in Z.shiftr v 12 = l /\ negb (Z.land v 0x100 =? 0) = b.
Proof.
  intros Hl v. subst v. unfold mpls_entry. rewrite be_dec_enc by (destruct b; simpl; lia).
  set (v := l * 4096 + _ + 64).
  assert (negb (Z.land v 256 =? 0) = Z.testbit v 8) as -> by (by rewrite <- (land_bit v 8)). subst v.
  rewrite Z.testbit_odd, !Z.shiftr_div_pow2 by lia. split.
  - change (2 ^ 12) with 4096. symmetry. apply (Z.div_unique _ _ _ ((if b then 256 else 0) + 64)); destruct b; lia.
  - replace ((l * 4096 + (if b then 256 else 0) + 64) / 2 ^ 8) with (2 * (l * 8) + (if b then 1 else 0)).
    + rewrite Z.add_comm, Z.odd_add_mul_2. by destruct b.
    + change (2 ^ 8) with 256. apply (Z.div_unique _ _ _ 64); destruct b; lia.
Qed.

Lemma mpls_stack_mpls labels data stack f :
  labels <> [] -> Forall (fun l => 0 <= l < 2 ^ 20) labels -> (length labels <= f)%nat ->
  mpls_stack f (mpls labels data) stack = Some (stack ++ labels, data).
Proof.
  intros Hne Hl. revert stack f. induction Hl as [|l labels Hl0 Hl IH]; [done|]. intros stack f Hf.
  destruct f as [|f]; [simpl in Hf; lia|].
  assert (forall b rest, mpls_stack (S f) (mpls_entry l b ++ rest) stack =
    if b then Some (stack ++ [l], rest) else mpls_stack f rest (stack ++ [l])) as Hstep.
  { intros b rest. cbn [mpls_stack]. pose proof (mpls_entry_bits l b Hl0) as [H1 H2]. pose proof (len_nonneg rest).
    destruct (len (mpls_entry l b ++ rest) <? 4) eqn:E; bool_to_prop.
    { rewrite len_app in E. unfold mpls_entry in E. rewrite len_be_enc in E. lia. }
    unfold field. change (slice (mpls_entry l b ++ rest) 0 4) with (mpls_entry l b).
    change (from (mpls_entry l b ++ rest) 4) with rest. cbv zeta. rewrite H1, H2. done. }
  destruct labels as [|l2 labels].
  - change (mpls [l] data) with (mpls_entry l true ++ data). by rewrite Hstep.
  - change (mpls (l :: l2 :: labels) data) with (mpls_entry l false ++ mpls (l2 :: labels) data).
    rewrite Hstep, IH by (done || simpl in *; lia). by rewrite <- app_assoc.
Qed.

Lemma mpls_length labels data : length (mpls labels data) = (4 * length labels + length data)%nat.
Proof.
  induction labels as [|l [|l2 labels] IH]; [done| |].
  - change (mpls [l] data) with (mpls_entry l true ++ data). rewrite length_app. unfold mpls_entry. rewrite length_be_enc. simpl. lia.
  - change (mpls (l :: l2 :: labels) data) with (mpls_entry l false ++ mpls (l2 :: labels) data).
    rewrite length_app, IH. unfold mpls_entry. rewrite length_be_enc. simpl. lia.
Qed.

Lemma decode_ip4 f src dst protocol data lay labs :
  0 <= src < 2 ^ 32 -> 0 <= dst < 2 ^ 32 -> 0 <= protocol < 256 -> len data <= 65515 ->
  decode_fuel (S f) (ip4 src dst protocol data) 0x0800 lay labs =
    decode_payload (decode_fuel f) 0x0800 (ipv4_str src) (ipv4_str dst) protocol data lay labs.
Proof.
  intros Hs Hd Hp Hl. pose proof (len_nonneg data) as H0. set (p := ip4 src dst protocol data).
  assert (len p = 20 + len data) as Hlen by (subst p; unfold ip4; rewrite !len_app, !len_be_enc; change (len (lit [69; 0])) with 2; change (len (lit [64])) with 1; lia).
  assert (nth_byte p 0 = 0x45) as E0 by done. assert (nth_byte p 9 = protocol) as E9.
  { change (nth_byte p 9) with (u8 (byte_of (protocol / 256 ^ Z.of_nat 0))). rewrite Z.div_1_r. by apply u8_byte_of_small. }
  assert (field p 2 4 = 20 + len data) as Et by (unfold field; change (slice p 2 4) with (be_enc 2 (20 + len data)); rewrite be_dec_enc; [done|simpl; lia]).
  assert (field p 6 8 = 0) as Ef by done.
  assert (field p 12 16 = src) as Esrc by (unfold field; change (slice p 12 16) with (be_enc 4 src); by rewrite be_dec_enc).
  assert (field p 16 20 = dst) as Edst by (unfold field; change (slice p 16 20) with (be_enc 4 dst); by rewrite be_dec_enc).
  assert (slice p 20 (20 + len data) = data) as Epl.
  { unfold slice. change (drop (Z.to_nat 20) p) with data. replace (20 + len data - 20) with (len data) by lia.
    unfold len. rewrite Nat2Z.id. by apply take_ge. }
  cbn [decode_fuel]. change (0x0800 =? 0x6558) with false. change (mem 0x0800 [0x8100; 0x88a8]) with false.
  change (mem 0x0800 [0x8847; 0x8848]) with false. change (0x0800 =? 0x0800) with true. cbv iota.
  destruct (len p <? 20) eqn:E; bool_to_prop; [lia|]. rewrite E0. change (negb (Z.shiftr 69 4 =? 4)) with false. cbn [orb]. cbv zeta.
  rewrite ?E0. change (Z.land 69 15 * 4) with 20. rewrite Et, Ef.
  destruct (_ || _ || _ || _) eqn:Eg.
  { repeat (apply orb_prop in Eg as [Eg|Eg]); bool_to_prop; try lia; done. }
  by rewrite Esrc, Edst, E9, Epl.
Qed.

Lemma decode_udp rec protocol src dst sp dp data lay labs :
  0 <= sp < 65536 -> 0 <= dp < 65536 -> dp <> 4789 -> len data <= 65507 ->
  decode_payload rec protocol src dst 17 (udp sp dp data) lay labs =
    Some (Packet src dst sp dp (if protocol =? 0x86dd then 6 else 4) "udp" lay labs data).
Proof.
  intros Hs Hd Hne Hl. pose proof (len_nonneg data) as H0. set (p := udp sp dp data).
  assert (len p = 8 + len data) as Hlen by (subst p; unfold udp; rewrite !len_app, !len_be_enc; lia).
  assert (field p 0 2 = sp) as E1 by (unfold field; change (slice p 0 2) with (be_enc 2 sp); by rewrite be_dec_enc).
  assert (field p 2 4 = dp) as E2 by (unfold field; change (slice p 2 4) with (be_enc 2 dp); by rewrite be_dec_enc).
  assert (field p 4 6 = 8 + len data) as E3 by (unfold field; change (slice p 4 6) with (be_enc 2 (8 + len data)); rewrite be_dec_enc; [done|simpl; lia]).
  assert (slice p 8 (8 + len data) = data) as E4.
  { unfold slice. change (drop (Z.to_nat 8) p) with data. replace (8 + len data - 8) with (len data) by lia.
    unfold len. rewrite Nat2Z.id. by apply take_ge. }
  unfold decode_payload. change (mem 17 [4; 41]) with false. change (17 =? 143) with false. change (mem 17 [1; 58]) with false.
  change (17 =? 17) with true. cbv iota. destruct (len p <? 8) eqn:E; bool_to_prop; [lia|]. cbv zeta. rewrite E1, E2, E3, E4.
  destruct (_ || _) eqn:Eg; [apply orb_prop in Eg as [Eg|Eg]; bool_to_prop; lia|].
  destruct (dp =? 4789) eqn:Ed; bool_to_prop; [done|]. done.
Qed.

Lemma decode_eth f protocol data lay labs : 0 <= protocol < 65536 ->
  decode_fuel (S f) (eth protocol data) 0x6558 lay labs = decode_fuel f data protocol lay labs.
Proof.
  intros Hp. pose proof (len_nonneg data). cbn [decode_fuel]. rewrite Z.eqb_refl.
  destruct (len (eth protocol data) <? 14) eqn:E; bool_to_prop.
  { unfold eth in E. rewrite !len_app, len_be_enc in E. change (len (zeros 12)) with 12 in E. lia. }
  unfold field, eth. rewrite (slice_at (zeros 12)) by done. rewrite be_dec_enc by done.
  rewrite app_assoc, from_at by done. done.
Qed.

Lemma decode_mpls f stack data lay labs :
  stack <> [] -> Forall (fun l => 0 <= l < 2 ^ 20) stack -> data <> [] ->
  decode_fuel (S f) (mpls stack data) 0x8847 lay labs =
    decode_fuel f data (if Z.shiftr (nth_byte data 0) 4 =? 6 then 0x86dd else 0x0800) (lay ++ ["mpls"]) (labs ++ stack).
Proof.
  intros Hne Hst Hd. cbn [decode_fuel]. change (0x8847 =? 0x6558) with false. change (mem 0x8847 [0x8100; 0x88a8]) with false.
  change (mem 0x8847 [0x8847; 0x8848]) with true. cbv iota.
  rewrite mpls_stack_mpls by (done || rewrite mpls_length; lia). cbn [app]. by rewrite bool_decide_eq_false_2.
Qed.

(** Decoding sees through the label stack: a UDP datagram over IPv4 under any MPLS
    label stack that fits a frame is decoded with exactly those labels, its addresses and
    ports, and its payload untouched, which is what the token match then reads. *)
Theorem decode_mpls_udp (stack : list Z) (src dst sp dp : Z) (data : list byte) :
  stack <> [] -> Forall (fun l => 0 <= l < 2 ^ 20) stack -> 0 <= src < 2 ^ 32 -> 0 <= dst < 2 ^ 32 ->
  0 <= sp < 65536 -> 0 <= dp < 65536 -> dp <> 4789 -> len data <= 65507 ->
  decode (eth 0x8847 (mpls stack (ip4 src dst 17 (udp sp dp data)))) =
    Some (Packet (ipv4_str src) (ipv4_str dst) sp dp 4 "udp" ["mpls"] stack data).
Proof.
  intros Hne Hst Hs Hd Hsp Hdp Hdp2 Hl. unfold decode.
  rewrite decode_eth by lia. rewrite (decode_mpls _ stack) by done.
  change (Z.shiftr (nth_byte (ip4 src dst 17 (udp sp dp data)) 0) 4 =? 6) with false. cbv iota.
  rewrite decode_ip4 by (done || unfold udp; rewrite !len_app, !len_be_enc; lia). by rewrite decode_udp by done.
Qed.

Lemma decode_mpls_udp_witness :
  decode (eth 0x8847 (mpls [16001; 16002] (ip4 167772161 167772162 17 (udp 40000 5001 (lit [1; 2; 3]))))) =
    Some (Packet (ipv4_str 167772161) (ipv4_str 167772162) 40000 5001 4 "udp" ["mpls"] [16001; 16002] (lit [1; 2; 3])).
Proof. apply decode_mpls_udp; try done; try lia. repeat constructor; lia. Defined.

Lemma capture_readable_witness :
  exists rs, Gtpu.read (pcap (capture (zeros 16) [] [Frame "SAT1" 0 (lit [1; 2; 3]) 7 8])) = Ok (concat (map found_in rs)).
Proof.
  destruct (capture_readable (zeros 16) [] [Frame "SAT1" 0 (lit [1; 2; 3]) 7 8]) as (rs & H & _).
  - constructor; [|constructor]. split_and!; simpl; try lia. unfold len. simpl. lia.
  - exists rs. exact H.
Defined.

End Capture.
