(* ===== verification/Channel.v ===== *)
(** * Channel: JSON numbers and the packet-impairment contract (lab/platform/channel.py)

    Validators look at the Python type of a value read from JSON, so [json] keeps it:
    integers, floats (a rational, or not finite), booleans and the rest.  Float
    arithmetic is exact; the numerals the code prints are exact too, because every
    printed float is a multiple of 1/8 or of 1/10000 well inside 53 bits. *)

From S2P Require Import Prelude Text.
From Stdlib Require Export QArith Qround.
#[global] Open Scope Z_scope.
#[global] Open Scope list_scope.

(** ** JSON *)

#[warnings="-register-all"]
Inductive json :=
| JNull
| JBool (b : bool)
| JInt (z : Z)
| JFloat (q : Q)
| JNonFinite
| JStr (s : string)
| JList (l : list json)
| JDict (d : list (string * json)).

(** [d.get(k)] on a dictionary. *)
Definition jget (d : list (string * json)) (k : string) : json := match dget d k with Some v => v | None => JNull end.

(** [d.get(k, default)] *)
Definition jget_or (d : list (string * json)) (k : string) (v : json) : json := match dget d k with Some x => x | None => v end.

(** [isinstance(v, (int, float))] of a value that is not a [bool], as a finite number. *)
Definition number (v : json) : option Q :=
  match v with JInt z => Some (inject_Z z) | JFloat q => Some q | _ => None end.

(** [math.isfinite]: an integer has to be in the range of a float. *)
Definition isfinite (v : json) : res bool :=
  match v with
  | JInt z => if Z.abs z <? 2 ^ 1024 - 2 ^ 970 then Ok true else Err OverflowError
  | JFloat _ => Ok true
  | JNonFinite => Ok false
  | _ => Err TypeError
  end.

(** [type(v) is int] *)
Definition exact_int (v : json) : option Z := match v with JInt z => Some z | _ => None end.

Definition as_string (v : json) : option string := match v with JStr s => Some s | _ => None end.

(** [math.isfinite(v) and int(v) == v] *)
Definition integral (v : json) : option Z :=
  match number v with
  | Some q => let z := Qnum q / QDen q in if Qeq_bool q (inject_Z z) then Some z else None
  | None => None
  end.

(** [str(v)] of an integral number: a float keeps its [.0]. *)
Definition num_str (v : json) (z : Z) : string := match v with JFloat _ => pretty z +:+ ".0" | _ => pretty z end.

(** [n] digits of [v], with leading zeros. *)
Fixpoint digits (n : nat) (v : Z) : string :=
  match n with
  | O => ""
  | S n' => String (ch (48 + (v / 10 ^ Z.of_nat n') mod 10)) (digits n' v)
  end.

(** [round(q)]: half to even *)
Definition round_even (q : Q) : Z :=
  let f := Qfloor q in
  let twice := Qcompare (q - inject_Z f) (1 # 2) in
  match twice with Lt => f | Gt => f + 1 | Eq => if Z.even f then f else f + 1 end.

(** [int(q)]: towards zero *)
Definition Qtrunc (q : Q) : Z := Z.quot (Qnum q) (QDen q).

(** [f'{q:.3f}'] *)
Definition fixed3 (q : Q) : string :=
  let v := round_even (q * 1000) in
  (if v <? 0 then "-" else "") +:+ (pretty (Z.abs v / 1000) +:+ ("." +:+ digits 3 (Z.abs v mod 1000))).

Module Channel.

(** ** Definitions *)

Record parameters_t := Parameters { delay_us : Z; rate_bps : Z; loss_ppm : Z; queue_limit_packets : Z;
  delay_text : string; rate_text : string; queue_text : string }.

Definition integer_parameter (name : string) (v : json) : res Z :=
  let* _ := match v with JInt _ => isfinite v | _ => Ok true end in
  or_raise (ValueError ("invalid integer channel parameter " +:+ name)) (integral v).

Definition within (lo hi v : Z) : bool := (lo <=? v) && (v <=? hi).

Definition parameters (link : list (string * json)) (queue_limit : json) : res parameters_t :=
  let* delay := or_raise KeyError (dget link "latency_us") in
  let* rate := or_raise KeyError (dget link "capacity_bps") in
  let loss := jget_or link "loss_ppm" (JInt 0) in
  let* d := integer_parameter "delay_us" delay in
  let* r := integer_parameter "rate_bps" rate in
  let* l := integer_parameter "loss_ppm" loss in
  let* q := integer_parameter "queue_limit_packets" queue_limit in
  raise (ValueError "delay or capacity outside packet-emulator bounds") when
    negb (within 0 1000000000 d) || negb (within 8 (10 ^ 12) r) ;;
  raise (ValueError "loss or queue limit outside packet-emulator bounds") when
    negb (within 0 1000000 l) || negb (within 1 1000000 q) ;;
  Ok (Parameters d r l q (num_str delay d) (num_str rate r) (num_str queue_limit q)).

(** [f'{loss / 10000:.6f}%'] *)
Definition loss_percent (loss : Z) : string :=
  pretty (loss / 10000) +:+ "." +:+ digits 4 (loss mod 10000) +:+ "00%".

Definition qdisc_command (interface : string) (link : list (string * json)) (queue_limit : json) (operation : string) : res (list string) :=
  let* p := parameters link queue_limit in
  raise (ValueError "invalid qdisc operation") when negb (mem operation ["replace"; "change"]) ;;
  Ok ["tc"; "qdisc"; operation; "dev"; interface; "root"; "handle"; "10:"; "netem";
      "limit"; queue_text p; "delay"; delay_text p +:+ "us";
      "rate"; rate_text p +:+ "bit"; "loss"; loss_percent (loss_ppm p)].

(** [max(1, min(65535, math.ceil(latency_us / 1000)))] *)
Definition frr_cost (latency_us : Z) : Z := Z.max 1 (Z.min 65535 ((latency_us + 999) / 1000)).

(** Removes the zeros, and then the point, a ['g'] format does not print. *)
Fixpoint strip_zeros (fuel : nat) (s : string) : string :=
  match fuel with
  | O => s
  | S f =>
      if endswith s "0" then strip_zeros f (String.substring 0 (String.length s - 1) s)
      else if endswith s "." then String.substring 0 (String.length s - 1) s
      else s
  end.

(** [format(capacity_bps / 8, '.12g')], below 10^12 bytes per second: twelve significant
    digits, the last one rounded half to even. *)
Definition frr_bandwidth (capacity_bps : Z) : string :=
  let whole := capacity_bps / 8 in
  let decimals := 12 - Z.of_nat (String.length (pretty whole)) in
  let places := Z.min 3 decimals in
  let scaled := capacity_bps * 10 ^ places in
  let q := scaled / 8 in
  let r := scaled mod 8 in
  let rounded := if (4 <? r) || ((r =? 4) && Z.odd q) then q + 1 else q in
  if places =? 0 then pretty rounded else
  strip_zeros 4 (pretty (rounded / 10 ^ places) +:+ "." +:+ digits (Z.to_nat places) (rounded mod 10 ^ places)).

(** ** Theorems *)

Lemma digits_digit n v : all_chars is_digit (digits n v) = true.
Proof.
  induction n as [|n IH]; [done|]. cbn [digits all_chars]. rewrite IH, andb_true_r. pose proof (Z.mod_pos_bound (v / 10 ^ Z.of_nat n) 10 ltac:(lia)) as H.
  apply (below_cases (fun d => is_digit (ch (48 + d))) 10); [done|lia].
Qed.

Lemma frr_cost_bounds l : 1 <= frr_cost l <= 65535.
Proof. unfold frr_cost. lia. Qed.

Lemma parameters_bounds link q p : parameters link q = Ok p ->
  0 <= delay_us p <= 1000000000 /\ 8 <= rate_bps p <= 10 ^ 12 /\ 0 <= loss_ppm p <= 1000000 /\ 1 <= queue_limit_packets p <= 1000000.
Proof.
  unfold parameters. rewrite bind_Ok. intros (d & _ & H). do 5 (apply bind_Ok in H as (? & _ & H)).
  revert H. do 2 split_guard. intros [= <-]. unfold within in *. bool_to_prop. simpl. lia.
Qed.

End Channel.
