(* ===== verification/ShortestPath.v ===== *)
(** * ShortestPath: distances in a weighted graph and the queue algorithm that finds them

    [walk] and [distance] specify shortest paths from a node over the edges [out].
    [settle] is the search with a priority queue and stale entries, as a function of
    the graph alone; [settle_correct] shows that it ends and finds every distance.
    [Fabric.shortest_hops] is proved to run it. *)

From S2P Require Import Prelude.

(** The order of [(cost, node)] tuples. *)
Definition tuple_leb (a b : Z * string) : bool := (a.1 <? b.1) || ((a.1 =? b.1) && String.leb a.2 b.2).

(** The distances found so far and the queue of [(distance, node)] to visit. *)
Definition search : Type := list (string * Z) * list (Z * string).

Section Spec.
Context (out : string -> list (string * Z)).

(** A walk of total weight [d] from [s] to [n]. *)
Inductive walk (s : string) : string -> Z -> Prop :=
| walk_refl : walk s s 0
| walk_step n d p w : walk s n d -> (p, w) ∈ out n -> walk s p (d + w).

Definition distance (s n : string) (d : Z) : Prop := walk s n d /\ forall d', walk s n d' -> d <= d'.

Definition improve (c : Z) (st : search) (e : string * Z) : search :=
  let value := c + e.2 in
  if match dget st.1 e.1 with Some d => value <? d | None => true end
  then (dset st.1 e.1 value, insert_sorted tuple_leb (value, e.1) st.2)
  else st.

Fixpoint settle (fuel : nat) (st : search) : option (list (string * Z)) :=
  match fuel with
  | O => None
  | S fuel' =>
      match st.2 with
      | [] => Some st.1
      | (c, n) :: queue =>
          match dget st.1 n with
          | None => None
          | Some d => if negb (c =? d) then settle fuel' (st.1, queue)
                      else settle fuel' (fold_left (improve c) (out n) (st.1, queue))
          end
      end
  end.

End Spec.

Lemma tuple_leb_total a b : tuple_leb a b = true \/ tuple_leb b a = true.
Proof.
  unfold tuple_leb. destruct (Z.ltb_spec a.1 b.1); [by left|]. destruct (Z.ltb_spec b.1 a.1); [by right|].
  replace (a.1 =? b.1) with true by (symmetry; apply Z.eqb_eq; lia).
  replace (b.1 =? a.1) with true by (symmetry; apply Z.eqb_eq; lia). apply String.leb_total.
Qed.

Lemma tuple_leb_trans a b c : tuple_leb a b = true -> tuple_leb b c = true -> tuple_leb a c = true.
Proof.
  unfold tuple_leb. rewrite !orb_true_iff, !andb_true_iff, !Z.ltb_lt, !Z.eqb_eq.
  intros [H1|[H1 S1]] [H2|[H2 S2]]; [left; lia..|right]. split; [lia|]. by eapply string_leb_trans.
Qed.

Lemma tuple_leb_fst a b : tuple_leb a b = true -> a.1 <= b.1.
Proof. unfold tuple_leb. rewrite orb_true_iff, andb_true_iff, Z.ltb_lt, Z.eqb_eq. lia. Qed.

Section Correct.
Context (out : string -> list (string * Z)) (U : list string) (s : string).
Hypothesis out_nonneg : forall n p w, (p, w) ∈ out n -> 0 <= w.
Hypothesis out_closed : forall n p w, n ∈ U -> (p, w) ∈ out n -> p ∈ U.
Hypothesis s_in : s ∈ U.
Hypothesis U_nodup : NoDup U.

Abbreviation sorted_queue := (StronglySorted (fun a b => tuple_leb a b = true)).

(** The state while the edges [pend] of [cur], visited at distance [c], are left. *)
Record inv (c : Z) (st : search) (closed : list string) (cur : string) (pend : list (string * Z)) : Prop := Inv {
  inv_start : dget st.1 s = Some 0;
  inv_sound n d : dget st.1 n = Some d -> walk out s n d /\ 0 <= d /\ n ∈ U;
  inv_entry c' n : (c', n) ∈ st.2 -> exists d, dget st.1 n = Some d /\ d <= c' /\ (n ∈ closed -> d < c');
  inv_open n d : dget st.1 n = Some d -> n ∈ closed \/ (d, n) ∈ st.2;
  inv_closed n : n ∈ closed -> exists d, dget st.1 n = Some d /\ d <= c /\
    forall p w, (p, w) ∈ out n -> (n = cur /\ (p, w) ∈ pend) \/ exists d', dget st.1 p = Some d' /\ d' <= d + w;
  inv_bound c' n : (c', n) ∈ st.2 -> c <= c';
  inv_sorted : sorted_queue st.2;
  inv_queue_nodup : NoDup st.2;
  inv_closed_nodup : NoDup closed;
  inv_closed_U n : n ∈ closed -> n ∈ U }.

Lemma elem_of_insert (e x : Z * string) q : x ∈ insert_sorted tuple_leb e q <-> x = e \/ x ∈ q.
Proof. rewrite insert_sorted_perm. apply elem_of_cons. Qed.

Lemma improve_inv c st closed cur p w pend :
  inv c st closed cur ((p, w) :: pend) -> dget st.1 cur = Some c -> cur ∈ closed -> (p, w) ∈ out cur -> cur ∈ U ->
  inv c (improve c st (p, w)) closed cur pend /\ dget (improve c st (p, w)).1 cur = Some c.
Proof.
  intros I Hc Hcl Ho HU. destruct I as [I1 I2 I3 I4 I5 I6 I7 I8 I9 I10]. unfold improve; simpl.
  pose proof (out_nonneg _ _ _ Ho) as Hw. pose proof (I2 _ _ Hc) as (Hwalk & Hc0 & _).
  destruct (match dget st.1 p with Some d => c + w <? d | None => true end) eqn:E; simpl.
  - assert (forall m, m ∈ closed -> m <> p) as Hnp.
    { intros m Hm ->. destruct (I5 _ Hm) as (d & Hd & Hdc & _). rewrite Hd in E. bool_to_prop. lia. }
    assert (p <> cur) as Hpc by (intros ->; by eapply (Hnp cur)).
    assert (forall n d, dget st.1 n = Some d -> exists d', dget (dset st.1 p (c + w)) n = Some d' /\ d' <= d) as Hmono.
    { intros n d Hn. rewrite dget_dset. case_decide; [|by eexists]. subst. rewrite Hn in E. bool_to_prop. eexists; split; [done|lia]. }
    split; [|by rewrite dget_dset_ne]. constructor; simpl.
    + rewrite dget_dset. case_decide; [|done]. subst p. rewrite I1 in E. bool_to_prop. lia.
    + intros n d. rewrite dget_dset. case_decide; [|apply I2]. intros [= <-]. subst n.
      split_and!; [by eapply walk_step|lia|by eapply out_closed].
    + intros c' n. rewrite elem_of_insert. intros [[= -> ->]|Hin].
      { exists (c + w). rewrite dget_dset_eq. split_and!; [done|lia|]. intros Hm. by destruct (Hnp _ Hm). }
      destruct (I3 _ _ Hin) as (d & Hd & Hle & Hst). rewrite dget_dset. case_decide; [|by eexists].
      subst n. rewrite Hd in E. bool_to_prop. eexists; split_and!; [done|lia|]. intros Hm. by destruct (Hnp _ Hm).
    + intros n d. rewrite dget_dset, elem_of_insert. case_decide; [intros [= <-]; subst; by right; left|].
      intros Hn. destruct (I4 _ _ Hn); auto.
    + intros n Hn. destruct (I5 _ Hn) as (d & Hd & Hle & Hout). exists d.
      rewrite dget_dset_ne by by apply Hnp. split_and!; [done|done|].
      intros q v Hq. destruct (Hout _ _ Hq) as [[-> Hp]|(d' & Hd' & Hle')].
      * apply elem_of_cons in Hp as [[= -> ->]|Hp]; [|by left].
        right. exists (c + w). rewrite dget_dset_eq. rewrite Hc in Hd. injection Hd as <-. split; [done|lia].
      * right. destruct (Hmono _ _ Hd') as (d'' & -> & ?). eexists; split; [done|lia].
    + intros c' n. rewrite elem_of_insert. intros [[= -> ->]|Hin]; [lia|by eapply I6].
    + apply insert_sorted_sorted; auto using tuple_leb_total. intros; by eapply tuple_leb_trans.
    + rewrite insert_sorted_perm. constructor; [|done]. intros Hin. destruct (I3 _ _ Hin) as (d & Hd & Hle & _).
      rewrite Hd in E. bool_to_prop. lia.
    + done.
    + done.
  - split; [|done]. constructor; try done. intros n Hn. destruct (I5 _ Hn) as (d & Hd & Hle & Hout).
    exists d. split_and!; [done|done|]. intros q v Hq. destruct (Hout _ _ Hq) as [[-> Hp]|?]; [|by right].
    apply elem_of_cons in Hp as [[= -> ->]|Hp]; [|by left]. right.
    destruct (dget st.1 p) as [d'|]; [|done]. bool_to_prop. exists d'. split; [done|].
    rewrite Hc in Hd. injection Hd as <-. lia.
Qed.

Lemma improve_length c st e : (length (improve c st e).2 <= S (length st.2))%nat.
Proof.
  unfold improve. destruct (match dget _ _ with Some _ => _ | None => _ end); simpl; [|lia]. by rewrite insert_sorted_perm.
Qed.

Lemma improves_inv c cur closed pend st :
  inv c st closed cur pend -> dget st.1 cur = Some c -> cur ∈ closed -> cur ∈ U ->
  (forall e, e ∈ pend -> e ∈ out cur) ->
  inv c (fold_left (improve c) pend st) closed cur [] /\
  (length (fold_left (improve c) pend st).2 <= length pend + length st.2)%nat.
Proof.
  revert st. induction pend as [|[p w] pend IH]; intros st I Hc Hcl HU Hout; simpl; [done|].
  destruct (improve_inv _ _ _ _ _ _ _ I Hc Hcl ltac:(apply Hout; left) HU) as [I' Hc'].
  destruct (IH _ I' Hc' Hcl HU) as [I'' Hl]; [intros; apply Hout; by right|].
  split; [done|]. pose proof (improve_length c st (p, w)). lia.
Qed.

Lemma inv_weaken c c' st closed cur cur' pend :
  inv c st closed cur [] -> c <= c' -> (forall k n, (k, n) ∈ st.2 -> c' <= k) -> inv c' st closed cur' pend.
Proof.
  intros [I1 I2 I3 I4 I5 I6 I7 I8 I9 I10] Hc Hq. constructor; try done.
  intros n Hn. destruct (I5 _ Hn) as (d & Hd & Hle & Hout). exists d. split_and!; [done|lia|].
  intros p w Hp. destruct (Hout _ _ Hp) as [[_ H]|?]; [by apply not_elem_of_nil in H|by right].
Qed.

(** What is left to visit: the entries and the edges of the open nodes. *)
Definition todo (st : search) (closed : list string) : nat :=
  length st.2 + sum_list_with (fun n => length (out n)) (List.filter (fun n => negb (mem n closed)) U).

Lemma open_edges_drop n closed (l : list string) :
  NoDup l -> n ∈ l -> n ∉ closed ->
  (sum_list_with (fun n => length (out n)) (List.filter (fun n => negb (mem n closed)) l)) =
  (length (out n) + sum_list_with (fun n => length (out n)) (List.filter (fun m => negb (mem m (n :: closed))) l))%nat.
Proof.
  assert (forall m, m <> n -> mem m (n :: closed) = mem m closed) as Hne.
  { intros m Hm. unfold mem. apply bool_decide_ext. rewrite elem_of_cons. naive_solver. }
  induction l as [|m l IH]; intros Hl Hn Hc; [by apply not_elem_of_nil in Hn|].
  apply NoDup_cons in Hl as [Hm Hl]. simpl. destruct (decide (m = n)) as [->|Hmn].
  - replace (mem n closed) with false by (symmetry; by apply bool_decide_eq_false).
    replace (mem n (n :: closed)) with true by (symmetry; apply bool_decide_eq_true; left). simpl. f_equal.
    f_equal. apply filter_ext_in. intros x Hx. rewrite Hne; [done|]. intros ->. by apply Hm, list_elem_of_In.
  - rewrite Hne by done. apply elem_of_cons in Hn as [->|Hn]; [done|].
    destruct (mem m closed); simpl; rewrite IH by done; lia.
Qed.

Lemma pop_stale c c' n d q dist closed cur :
  inv c (dist, (c', n) :: q) closed cur [] -> dget dist n = Some d -> c' <> d -> inv c (dist, q) closed cur [].
Proof.
  intros [I1 I2 I3 I4 I5 I6 I7 I8 I9 I10] Hd Hne; simpl in *. inversion I7; subst. apply NoDup_cons in I8 as [_ I8].
  constructor; simpl; try done.
  - intros k m Hm. apply I3. by right.
  - intros m d' Hm. destruct (I4 _ _ Hm) as [?|Hin]; [by left|]. apply elem_of_cons in Hin as [[= -> ->]|Hin]; [congruence|by right].
  - intros k m Hm. eapply I6. by right.
Qed.

Lemma pop_current c c' n q dist closed cur :
  inv c (dist, (c', n) :: q) closed cur [] -> dget dist n = Some c' ->
  (n ∉ closed) /\ n ∈ U /\ inv c' (dist, q) (n :: closed) n (out n).
Proof.
  intros I Hd. assert (c <= c') as Hcc by (eapply inv_bound; [done|left]).
  assert (n ∉ closed) as Hn.
  { intros Hn. destruct (inv_entry _ _ _ _ _ I c' n ltac:(left)) as (d & Hd' & _ & Hst). simpl in Hd'.
    rewrite Hd in Hd'. injection Hd' as <-. specialize (Hst Hn). lia. }
  destruct I as [I1 I2 I3 I4 I5 I6 I7 I8 I9 I10]; simpl in *. inversion I7 as [|? ? Hs Hf]; subst.
  apply NoDup_cons in I8 as [I8' I8]. split_and!; [done|by eapply I2|]. constructor; simpl; try done.
  - intros k m Hm. destruct (I3 k m) as (d & Hd' & Hle & Hst); [by right|]. exists d. split_and!; [done|done|].
    rewrite elem_of_cons. intros [->|Hc]; [|auto]. rewrite Hd in Hd'. injection Hd' as <-.
    destruct (decide (k = c')) as [->|]; [done|lia].
  - intros m d Hm. rewrite elem_of_cons. destruct (I4 _ _ Hm) as [?|Hin]; [by left; right|].
    apply elem_of_cons in Hin as [[= -> ->]|Hin]; [by left; left|by right].
  - intros m. rewrite elem_of_cons. intros [->|Hm].
    + exists c'. split_and!; [done|lia|]. intros p w Hp. by left.
    + destruct (I5 _ Hm) as (d & Hd' & Hle & Hout). exists d. split_and!; [done|lia|].
      intros p w Hp. destruct (Hout _ _ Hp) as [[_ H]|?]; [by apply not_elem_of_nil in H|by right].
  - intros k m Hm. rewrite Forall_forall in Hf. by apply (tuple_leb_fst (c', n) (k, m)), Hf.
  - by constructor.
  - intros m. rewrite elem_of_cons. intros [->|Hm]; [by eapply I2|by apply I10].
Qed.

Lemma settle_inv fuel c st closed cur :
  inv c st closed cur [] -> (todo st closed < fuel)%nat ->
  exists dist c' closed' cur', settle out fuel st = Some dist /\ inv c' (dist, []) closed' cur' [].
Proof.
  revert c st closed cur. induction fuel as [|fuel IH]; intros c [dist q] closed cur I Hf; [lia|].
  simpl. destruct q as [|[c' n] q]; [by do 4 eexists|].
  destruct (inv_entry _ _ _ _ _ I c' n ltac:(left)) as (d & Hd & _). simpl in Hd. rewrite Hd.
  destruct (Z.eqb_spec c' d) as [->|Hne]; simpl.
  - destruct (pop_current _ _ _ _ _ _ _ I Hd) as (Hn & HU & I').
    destruct (improves_inv _ _ _ _ _ I') as [I'' Hl]; [done|left|done|done|].
    eapply IH; [exact I''|]. unfold todo in *. simpl in *. rewrite (open_edges_drop n) in Hf by done. lia.
  - eapply IH; [by eapply pop_stale|]. unfold todo in *. simpl in *. lia.
Qed.

Lemma inv_initial : inv 0 ([(s, 0)], [(0, s)]) [] s [].
Proof.
  constructor; simpl.
  - by rewrite decide_True.
  - intros n d. case_decide; [|done]. intros [= <-]. subst. split_and!; [constructor|lia|done].
  - intros c' n Hin. apply list_elem_of_singleton in Hin. injection Hin as -> ->. exists 0. rewrite decide_True by done.
    split_and!; [done|lia|]. intros H. by apply not_elem_of_nil in H.
  - intros n d. case_decide; [|done]. intros [= <-]. subst. right. left.
  - intros n H. by apply not_elem_of_nil in H.
  - intros c' n Hin. apply list_elem_of_singleton in Hin. injection Hin as -> ->. lia.
  - repeat constructor.
  - apply NoDup_singleton.
  - constructor.
  - intros n H. by apply not_elem_of_nil in H.
Qed.

Lemma filter_all_true {A} (l : list A) p : (forall x, x ∈ l -> p x = true) -> List.filter p l = l.
Proof.
  induction l as [|x l IH]; intros H; simpl; [done|]. rewrite H by left. f_equal. apply IH. intros; apply H. by right.
Qed.

(** At an empty queue the distances are below those of every walk. *)
Lemma final_least c dist closed cur :
  inv c (dist, []) closed cur [] -> forall n d, walk out s n d -> exists d', dget dist n = Some d' /\ d' <= d.
Proof.
  intros [I1 _ _ I4 I5 _ _ _ _ _] n d Hw; simpl in *. induction Hw as [|n d p w Hw (d' & Hd' & Hle) Hp].
  - exists 0. split; [done|lia].
  - destruct (I4 _ _ Hd') as [Hc|H]; [|by apply not_elem_of_nil in H].
    destruct (I5 _ Hc) as (d1 & Hd1 & _ & Hout). rewrite Hd' in Hd1. injection Hd1 as <-.
    destruct (Hout _ _ Hp) as [[_ H]|(d2 & Hd2 & Hle2)]; [by apply not_elem_of_nil in H|].
    exists d2. split; [done|lia].
Qed.

(** The search ends, and it has found the distance of each node a walk reaches and of
    no other node. *)
Lemma settle_correct fuel :
  (1 + sum_list_with (fun n => length (out n)) U < fuel)%nat ->
  exists dist, settle out fuel ([(s, 0)], [(0, s)]) = Some dist /\
    forall n d, dget dist n = Some d <-> distance out s n d.
Proof.
  intros Hf. destruct (settle_inv fuel _ _ _ _ inv_initial) as (dist & c & closed & cur & Hs & I).
  { unfold todo; simpl. rewrite (filter_all_true U); [lia|]. intros n _. reflexivity. }
  exists dist. split; [done|]. intros n d. split.
  - intros Hn. destruct (inv_sound _ _ _ _ _ I n d Hn) as (Hw & _). split; [done|].
    intros d' Hw'. destruct (final_least _ _ _ _ I _ _ Hw') as (d1 & Hd1 & Hle). simpl in Hn. congruence.
  - intros [Hw Hmin]. destruct (final_least _ _ _ _ I _ _ Hw) as (d1 & Hd1 & Hle).
    destruct (inv_sound _ _ _ _ _ I n d1 Hd1) as (Hw1 & _). specialize (Hmin _ Hw1).
    by replace d with d1 by lia.
Qed.

End Correct.
