(* ===== verification/Fabric.v ===== *)
(** * Fabric: the constellation graph bound to FRR resources (lab/platform/fabric.py)

    A scenario is a record of its nodes, its directed links and its intents; the
    fields the code reads with [get] are options.  [links] is the dictionary of the
    shared link objects; [adjacency] holds, for a node and a peer, the key of the link
    object both directions share, so that [set_links], which updates the costs in
    place, is seen through [adjacency] as it is in Python.  The priority queue of
    [shortest_hops] is a sorted list: [heappop] returns the least tuple, and equal
    tuples cannot be told apart.  A command sequence is a list of computations, run
    left to right, each of which may raise. *)

From S2P Require Import Prelude Bytes Text Channel ShortestPath.

(** [str(ipaddress.ip_address(base) + offset)] for an IPv4 base *)
Definition ip (base : string) (offset : Z) : res string :=
  let* v := ipv4_parse base in
  raise address_error when (v + offset <? 0) || (2 ^ 32 <=? v + offset) ;;
  Ok (ipv4_str (v + offset)).

(** The same for an IPv6 base *)
Definition ip6 (base : string) (offset : Z) : res string :=
  let* v := ipv6_parse base in
  raise address_error when (v + offset <? 0) || (2 ^ 128 <=? v + offset) ;;
  Ok (ipv6_str (v + offset)).

(** [enumerate(l)] *)
Definition enumerate {A} (l : list A) : list (nat * A) := zip (seq 0 (length l)) l.

Module Fabric.

(** ** Data *)

Record link := Link { link_id : string; source : string; target : string; link_type : string;
  latency_us : option Z; capacity_bps : option Z; loss_ppm : option Z;
  admin_up : option bool; operational_up : option bool; acquisition_state : option string }.

Record node := Node { kind : string; node_loopback : option string; labels : option (list (string * string)) }.

Record intent := Intent { id : string; i_source : string; i_destination : string;
  destination_prefix : option string; policy : string; redundancy : Z; demand_bps : Z; priority : Z;
  class : option string }.

(** What [physical_model['config']['links']] says. *)
Record physical := Physical { queue_limit_packets : Z; isl_capacity_bps : Z; feeder_capacity_bps : Z }.

Record profile := Profile { igp : string; carriers : list string }.

Record scenario := Scenario { scenario_id : string; description : string; s_nodes : list (string * node);
  s_links : list link; s_intents : list intent; s_profile : option profile; s_physical : option physical }.

(** The link object: [{'index', 'interface', 'cost', 'endpoints'}]. *)
Record binding := Binding { index : Z; ifname : string; cost : Z; endpoints : list (string * string) }.

Definition pair_t : Type := string * string.

Record fabric := Fabric_ { scen : scenario; network_profile : option profile; nodes : list (string * node);
  satellites : list string; gateways : list string; ordinal : list (string * Z);
  by_system_id : list (string * string); pair : pair_t; links : list (pair_t * binding);
  adjacency : list (string * list (string * pair_t)); directed : list (pair_t * link);
  physical_model : option physical; queue_limit : Z; service_addresses : list (string * string);
  gateway_intents : list intent }.

(** The dictionary a link is to the channel model. *)
Definition link_json (l : link) : list (string * json) :=
  let field k (o : option Z) := match o with Some v => [(k, JInt v)] | None => [] end in
  field "latency_us" (latency_us l) ++ field "capacity_bps" (capacity_bps l) ++ field "loss_ppm" (loss_ppm l).

(** ** Identities *)

Definition ordinal_in (o : list (string * Z)) (n : string) : res Z := or_raise KeyError (dget o n).

Definition loopback_in (o : list (string * Z)) (n : string) : res string :=
  let* i := ordinal_in o n in ip "10.255.0.0" i.

Definition system_id_in (o : list (string * Z)) (n : string) : res string :=
  let* i := ordinal_in o n in
  let raw := hex_pad 12 i in
  Ok (join "." (map (fun k => String.substring k 4 raw) [0%nat; 4%nat; 8%nat])).

Definition loopback (f : fabric) (n : string) : res string := loopback_in (ordinal f) n.
Definition system_id (f : fabric) (n : string) : res string := system_id_in (ordinal f) n.
Definition sid (f : fabric) (n : string) : res Z := let* i := ordinal_in (ordinal f) n in Ok (16000 + i).

Definition locator (f : fabric) (n : string) : res string :=
  let* i := ordinal_in (ordinal f) n in Ok ("fc00:0:" +:+ (hex_str i +:+ "::")).

(** [l.index(x)] *)
Definition index_of (x : string) (l : list string) : res Z :=
  match list_find (fun y => y = x) l with
  | Some (i, _) => Ok (Z.of_nat i)
  | None => Err (ValueError (x +:+ " is not in list"))
  end.

Definition svi (f : fabric) (n : string) : res string := let* i := index_of n (gateways f) in ip "10.232.0.0" (i + 1).

(** [self.adjacency[node]] *)
Definition peers_of (f : fabric) (n : string) : res (list (string * pair_t)) := or_raise KeyError (dget (adjacency f) n).

(** [self.adjacency[node][peer]]: the shared link object. *)
Definition binding_of (f : fabric) (n p : string) : res binding :=
  let* peers := peers_of f n in
  let* key := or_raise KeyError (dget peers p) in
  or_raise KeyError (dget (links f) key).

Definition hop (f : fabric) (n p : string) : res string :=
  let* b := binding_of f n p in or_raise KeyError (dget (endpoints b) p).

Definition interface (f : fabric) (n p : string) : res string := let* b := binding_of f n p in Ok (ifname b).

(** ** [__init__] *)

Definition sorted_pair (a b : string) : pair_t := if String.leb a b then (a, b) else (b, a).

(** [1 if self.physical_model else frr_cost(link)] *)
Definition cost_of (ph : option physical) (l : link) : res Z :=
  match ph with
  | Some _ => Ok 1
  | None => let* us := or_raise KeyError (latency_us l) in Ok (Channel.frr_cost us)
  end.

Definition graph : Type := list (pair_t * binding) * list (string * list (string * pair_t)).

(** One turn of the loop that numbers the links. *)
Definition add_link (ph : option physical) (g : graph) (l : link) : res graph :=
  let (ls, adj) := g in
  let key := sorted_pair (source l) (target l) in
  let* ls' := if dhas ls key then Ok ls else
    let k := len ls + 1 in
    let* c := cost_of ph l in
    let* e0 := ip "10.128.0.0" (4 * k + 1) in
    let* e1 := ip "10.128.0.0" (4 * k + 2) in
    Ok (dset ls key (Binding k ("sf" +:+ pretty k) c (dict_of [(key.1, e0); (key.2, e1)]))) in
  let* peers := or_raise KeyError (dget adj (source l)) in
  Ok (ls', dset adj (source l) (dset peers (target l) key)).

(** [a not in self.adjacency[b] or b not in self.adjacency[a]] *)
Definition unpaired (adj : list (string * list (string * pair_t))) (key : pair_t) : res bool :=
  let (a, b) := key in
  let* pb := or_raise KeyError (dget adj b) in
  if negb (dhas pb a) then Ok true else
  let* pa := or_raise KeyError (dget adj a) in
  Ok (negb (dhas pa b)).

Definition dupdate {V} (d e : list (string * V)) : list (string * V) := fold_left (fun d kv => dset d kv.1 kv.2) e d.

(** The loop that writes the loopback and the labels into a node. *)
Definition bind_node (f : fabric) (identifier : string) (item : string * node) : res (string * node) :=
  let (name, n) := item in
  let* lo := loopback f name in
  let base := dupdate (default [] (labels n))
    [("frr_container", identifier +:+ ("-" +:+ name)); ("probe_target", lo); ("runtime", "frr")] in
  let* ls := match physical_model f with
    | None => Ok base
    | Some _ =>
        let* peers := peers_of f name in
        let* hops := mapM_res (fun p => let* h := hop f name p in Ok ("next_hop:" +:+ p, h)) (dkeys peers) in
        Ok (dupdate base hops)
    end in
  Ok (name, Node (kind n) (Some lo) (Some ls)).

(** The [/32] sink and the class of the [i]-th configured intent. *)
Definition bind_intent (item : nat * intent) : res (intent * (string * string)) :=
  let (i, t) := item in
  let* address := ip "10.240.0.0" (Z.of_nat i + 1) in
  Ok (Intent (id t) (i_source t) (i_destination t) (Some (address +:+ "/32")) (policy t) (redundancy t)
        (demand_bps t) (priority t) (Some "live-gateway-traffic"), (id t, address)).

Definition n3_intent (name src dst prefix : string) : intent :=
  Intent name src dst (Some prefix) "latency" 1 1000000 200 (Some "5g-n3").

(** The nodes of a kind, in order. *)
Definition of_kind (ns : list (string * node)) (k : string) : list string :=
  sorted_strings (dkeys (List.filter (fun kv => String.eqb (kind kv.2) k) ns)).

(** [{n: i+1 for i, n in enumerate(sorted(nodes))}] *)
Definition ordinals (names : list string) : list (string * Z) :=
  map (fun '(i, n) => (n, Z.of_nat i + 1)) (enumerate (sorted_strings names)).

Definition direct (ls : list link) : list (pair_t * link) := dict_of (map (fun l => ((source l, target l), l)) ls).

Definition init (sc : scenario) (identifier : string) : res fabric :=
  let ns := dict_of (s_nodes sc) in
  let sats := of_kind ns "satellite" in
  let gws := of_kind ns "gateway" in
  raise (ValueError "live fabric requires satellites, at least two gateways and at most 7999 nodes") when
    (len gws <? 2) || bool_decide (sats = []) || (7999 <? len ns) ;;
  let ord := ordinals (dkeys ns) in
  let* ids := mapM_res (fun n => let* s := system_id_in ord n in Ok (s, n)) (dkeys ns) in
  let* first := or_raise IndexError (s_intents sc !! 0%nat) in
  let pr := (i_source first, i_destination first) in
  let ph := s_physical sc in
  let* (ls, adj) := foldM (add_link ph) ([], map (fun n => (n, [])) (dkeys ns)) (s_links sc) in
  let* _ := mapM_res (fun key => let* missing := unpaired adj key in
    raise (ValueError "live fabric requires paired directed links") when (missing : bool) ;; Ok tt) (dkeys ls) in
  let intents := match s_profile sc with Some _ => [] | None => s_intents sc end in
  let f0 := Fabric_ sc (s_profile sc) ns sats gws ord (dict_of ids) pr ls adj (direct (s_links sc)) ph
    (match ph with Some p => queue_limit_packets p | None => 10000 end) [] [] in
  let* bound := mapM_res (bind_node f0 identifier) ns in
  let* sinks := mapM_res bind_intent (enumerate intents) in
  let gateway := map fst sinks in
  let all := gateway ++ [n3_intent "n3-forward" pr.1 pr.2 "172.22.0.8/32"; n3_intent "n3-reverse" pr.2 pr.1 "172.22.0.23/32"] in
  let text := match ph with
    | Some _ => "Per-satellite physical contacts instantiated as live FRR with directional packet shaping"
    | None => "Generated constellation instantiated as live FRR; configured logical mesh"
    end in
  Ok (Fabric_ (Scenario identifier text bound (s_links sc) all None None) (s_profile sc) bound sats gws ord (dict_of ids) pr
        ls adj (direct (s_links sc)) ph (queue_limit f0) (dict_of (map snd sinks)) gateway).

(** ** Links *)

Definition active (f : fabric) (n p : string) : res bool :=
  let* l := or_raise KeyError (dget (directed f) (n, p)) in
  Ok (default true (admin_up l) && default true (operational_up l) &&
      mem (default "locked" (acquisition_state l)) ["locked"; "degraded"; ""]).

(** [[x for x in l if p(x)]] where [p] may raise. *)
Fixpoint filterM {A} (p : A -> res bool) (l : list A) : res (list A) :=
  match l with
  | [] => Ok []
  | x :: l' => let* b := p x in let* r := filterM p l' in Ok (if (b : bool) then x :: r else r)
  end.

(** [a and b] of calls that may raise. *)
Definition andM (a b : res bool) : res bool := let* x := a in if (x : bool) then b else Ok false.

Definition active_pairs (f : fabric) : res (list pair_t) :=
  filterM (fun k => andM (active f k.1 k.2) (active f k.2 k.1)) (dkeys (links f)).

Definition set_links (f : fabric) (ls : list link) : res fabric :=
  let d := direct ls in
  let* updated := mapM_res (fun kb : pair_t * binding =>
      let* l := match physical_model f with
        | Some _ => Ok 1
        | None => let* l := or_raise KeyError (dget d kb.1) in cost_of None l
        end in
      Ok (kb.1, Binding (index kb.2) (ifname kb.2) l (endpoints kb.2))) (links f) in
  let sc := scen f in
  Ok (Fabric_ (Scenario (scenario_id sc) (description sc) (s_nodes sc) ls (s_intents sc) (s_profile sc) (s_physical sc))
        (network_profile f) (nodes f) (satellites f) (gateways f) (ordinal f) (by_system_id f) (pair f) updated
        (adjacency f) d (physical_model f) (queue_limit f) (service_addresses f) (gateway_intents f)).

Definition port_capacity (f : fabric) (n p : string) : res Z :=
  let* l := or_raise KeyError (dget (directed f) (n, p)) in
  match physical_model f with
  | None => Ok (default 1000000000 (capacity_bps l))
  | Some ph => Ok (if String.eqb (link_type l) "oisl" then isl_capacity_bps ph else feeder_capacity_bps ph)
  end.

(** ** Shortest paths *)

(** [{n, p} == set(excluded)] *)
Definition is_pair (n p : string) (excluded : list string) : bool :=
  forallb (fun x => mem x excluded) [n; p] && forallb (fun x => mem x [n; p]) excluded.

(** [{n, p} != excluded and self.active(n, p)] *)
Definition usable (f : fabric) (excluded : list string) (n p : string) : res bool :=
  if is_pair n p excluded then Ok false else active f n p.

(** The body of the inner loop: improves the distance of [peer] through [n]. *)
Definition relax (f : fabric) (excluded : list string) (n : string) (c : Z) (st : search) (peer : string) : res search :=
  let* u := usable f excluded n peer in
  if negb u then Ok st else
  let* b := binding_of f n peer in
  let value := c + cost b in
  if match dget st.1 peer with Some d => value <? d | None => true end
  then Ok (dset st.1 peer value, insert_sorted tuple_leb (value, peer) st.2)
  else Ok st.

(** [while queue: ...] *)
Fixpoint spf (fuel : nat) (f : fabric) (excluded : list string) (dist : list (string * Z)) (queue : list (Z * string)) :
    res (list (string * Z)) :=
  match fuel with
  | O => Err OutOfFuel
  | S fuel' =>
      match queue with
      | [] => Ok dist
      | (c, n) :: queue' =>
          let* d := or_raise KeyError (dget dist n) in
          if negb (c =? d) then spf fuel' f excluded dist queue' else
          let* peers := peers_of f n in
          let* st := foldM (relax f excluded n c) (dist, queue') (dkeys peers) in
          spf fuel' f excluded st.1 st.2
      end
  end.

(** A pop for the target and one for each push, then the test of the empty queue. *)
Definition spf_fuel (f : fabric) : nat := 2 + sum_list_with (fun kv => length kv.2) (adjacency f).

(** The test of the comprehension that selects the next hops of [n]. *)
Definition is_hop (f : fabric) (excluded : list string) (dist : list (string * Z)) (n p : string) : res bool :=
  andM (usable f excluded n p) (
  match dget dist p with
  | None => Ok false
  | Some d =>
      let* b := binding_of f n p in
      Ok (match dget dist n with Some dn => dn =? cost b + d | None => false end)
  end).

Definition hops_of (f : fabric) (excluded : list string) (dist : list (string * Z)) (n : string) : res (string * list string) :=
  let* peers := peers_of f n in
  let* ps := filterM (is_hop f excluded dist n) (dkeys peers) in
  Ok (n, ps).

Definition shortest_hops (f : fabric) (tgt : string) (excluded : list string) : res (list (string * list string)) :=
  let* dist := spf (spf_fuel f) f excluded [(tgt, 0)] [(0, tgt)] in
  mapM_res (hops_of f excluded dist) (List.filter (fun n => negb (String.eqb n tgt)) (dkeys (nodes f))).

(** ** The label tables of the routers *)

Record nexthop := Nexthop { nh_installed : bool; nh_address : option string; outLabel : option Z }.
Record entry := Entry { e_installed : bool; nexthops : list nexthop }.
Record mismatch := Mismatch { m_node : string; m_target : string; allowed_nexthops : list (string * Z); actual : entry }.

Definition allowed_of (f : fabric) (tgt n : string) (hops : list (string * list string)) : res (list (string * Z)) :=
  let* ps := or_raise KeyError (dget hops n) in
  let* items := mapM_res (fun p =>
      let* h := hop f n p in
      let* label := if String.eqb p tgt then Ok 3 else sid f tgt in
      Ok (h, label)) ps in
  Ok (dict_of items).

(** [allowed.get(h.get('nexthop')) != h.get('outLabel')] *)
Definition wrong_label (allowed : list (string * Z)) (h : nexthop) : bool :=
  negb (bool_decide ((match nh_address h with Some a => dget allowed a | None => None end) = outLabel h)).

(** The body of the inner loop of [sr_mismatches]. *)
Definition check_table (f : fabric) (tgt : string) (hops : list (string * list string)) (item : string * list (string * entry)) :
    res (list mismatch) :=
  let (n, table) := item in
  if String.eqb n tgt then Ok [] else
  let* s := sid f tgt in
  let e := default (Entry false []) (dget table (pretty s)) in
  let installed := List.filter nh_installed (nexthops e) in
  let* allowed := allowed_of f tgt n hops in
  Ok (if negb (e_installed e) || bool_decide (installed = []) || existsb (wrong_label allowed) installed
      then [Mismatch n tgt allowed e] else []).

Definition sr_mismatches (f : fabric) (tables : list (string * list (string * entry))) (targets excluded : list string) :
    res (list mismatch) :=
  let* bad := mapM_res (fun tgt =>
      let* hops := shortest_hops f tgt excluded in
      let* found := mapM_res (check_table f tgt hops) tables in
      Ok (concat found)) targets in
  Ok (concat bad).

(** ** Services and protocols *)

Definition service (f : fabric) : list (string * string * string * string) :=
  let (a, b) := pair f in [(a, b, "172.22.0.8", "n3-forward"); (b, a, "172.22.0.23", "n3-reverse")].

Definition meets (l m : list string) : bool := existsb (fun x => mem x m) l.

Definition enabled (f : fabric) (protocol : string) : bool :=
  match network_profile f with
  | None => negb (String.eqb protocol "evpn-srv6")
  | Some p =>
      if mem protocol ["isis"; "ospf"] then String.eqb (igp p) protocol
      else if String.eqb protocol "mpls" then meets (carriers p) ["ldp"; "sr-mpls"; "pcep"]
      else if mem protocol ["bgpls"; "sr-mpls"] then meets (carriers p) ["sr-mpls"; "pcep"]
      else if String.eqb protocol "srv6" then meets (carriers p) ["srv6"; "evpn-srv6"]
      else mem protocol (carriers p)
  end.

(** [l] where a protocol is enabled, nothing elsewhere. *)
Definition if_ {A} (c : bool) (l : list A) : list A := if c then l else [].

Definition daemons (f : fabric) (n : string) : list string :=
  ["zebra"; "staticd"]
  ++ if_ (enabled f "isis") ["isisd"]
  ++ if_ (enabled f "ospf") ["ospfd"; "ospf6d"]
  ++ if_ (enabled f "ldp") ["ldpd"]
  ++ if_ (mem n (gateways f) && (enabled f "bgpls" || enabled f "evpn")) ["bgpd"].

(** ** FRR configuration *)

Definition newline : string := String (ch 10) "".

(** ['\n'.join(lines)+'\n'] *)
Definition text (lines : list string) : string := join newline lines +:+ newline.

Definition isis_lines (c : Z) : list string :=
  ["isis network point-to-point"; "isis hello-interval 5"; "isis hello-multiplier 3"; "isis metric level-2 " +:+ pretty c].

Definition ospf_lines (c : Z) : list string :=
  ["ip ospf area 0.0.0.0"; "ip ospf network point-to-point"; "ip ospf hello-interval 5"; "ip ospf dead-interval 15";
   "ip ospf cost " +:+ pretty c; "ipv6 ospf6 area 0.0.0.0"; "ipv6 ospf6 network point-to-point";
   "ipv6 ospf6 hello-interval 5"; "ipv6 ospf6 dead-interval 15"; "ipv6 ospf6 cost " +:+ pretty c].

Definition bandwidth_lines (f : fabric) (n p : string) : res (list string) :=
  let* c := port_capacity f n p in
  Ok ["link-params"; "max-bw " +:+ Channel.frr_bandwidth c; "exit-link-params"].

Definition selected_interface (f : fabric) (n p : string) : res (list string) :=
  let* b := binding_of f n p in
  let* bw := if enabled f "bgpls" then bandwidth_lines f n p else Ok [] in
  Ok (["interface " +:+ ifname b]
      ++ if_ (enabled f "isis") (["ip router isis SF"; "ipv6 router isis SF"] ++ isis_lines (cost b))
      ++ if_ (enabled f "ospf") (ospf_lines (cost b))
      ++ bw ++ ["exit"]).

Definition bgp_family (peers : list string) (family : string) : list string :=
  ["address-family " +:+ family]
  ++ map (fun lo => "neighbor " +:+ (lo +:+ " activate")) peers
  ++ if_ (String.eqb family "l2vpn evpn") ["advertise-all-vni"; "advertise-svi-ip"]
  ++ ["exit-address-family"].

Definition bgp_config (f : fabric) (n : string) : res (list string) :=
  let families := if_ (enabled f "bgpls") ["link-state link-state"] ++ if_ (enabled f "evpn") ["l2vpn evpn"] in
  if bool_decide (families = []) then Ok [] else
  let* lo := loopback f n in
  let* peers := mapM_res (loopback f) (List.filter (fun g => negb (String.eqb g n)) (gateways f)) in
  Ok (["router bgp 65000"; "bgp router-id " +:+ lo]
      ++ concat (map (fun p => ["neighbor " +:+ (p +:+ " remote-as 65000"); "neighbor " +:+ (p +:+ " update-source lo")]) peers)
      ++ concat (map (bgp_family peers) families)
      ++ ["exit"]).

(** The interfaces of a node, in the order of [adjacency[node].values()]. *)
Definition interfaces (f : fabric) (n : string) : res (list string) :=
  let* peers := peers_of f n in mapM_res (interface f n) (dkeys peers).

Definition ldp_lines (lo : string) (names : list string) : list string :=
  ["access-list SF-LDP-TRANSPORT permit 10.255.0.0/16"; "mpls ldp"; "router-id " +:+ lo;
   "address-family ipv4"; "label local allocate for SF-LDP-TRANSPORT";
   "label local advertise for SF-LDP-TRANSPORT"; "discovery transport-address " +:+ lo]
  ++ concat (map (fun i => ["interface " +:+ i; "exit"]) names)
  ++ ["exit-address-family"; "exit"].

Definition segment_routing_lines (lo : string) (i : Z) : list string :=
  ["segment-routing on"; "segment-routing global-block 16000 23999";
   "segment-routing prefix " +:+ (lo +:+ ("/32 index " +:+ pretty i));
   "mpls-te on"; "mpls-te router-address " +:+ lo].

(** The static routes to the two N3 peers. *)
Definition n3_routes (f : fabric) (n : string) : list string :=
  if_ (String.eqb n (pair f).1) ["ip route 172.22.0.23/32 10.230.0.2"]
  ++ if_ (String.eqb n (pair f).2) ["ip route 172.22.0.8/32 10.230.0.6"].

(** [bgp_of] is the [bgp_config] method of the object's class, which a subclass overrides. *)
Definition selected_config (bgp_of : fabric -> string -> res (list string)) (f : fabric) (n : string) : res string :=
  let* lo := loopback f n in
  let* loc := locator f n in
  let* net := system_id f n in
  let* i := ordinal_in (ordinal f) n in
  let* peers := peers_of f n in
  let* per_peer := mapM_res (selected_interface f n) (dkeys peers) in
  let* names := interfaces f n in
  let* bgp := if mem n (gateways f) then bgp_of f n else Ok [] in
  Ok (text (
    ["frr defaults traditional"; "hostname " +:+ n; "service integrated-vtysh-config"; "log stdout warnings";
     "interface lo"; "ip address " +:+ (lo +:+ "/32")]
    ++ if_ (enabled f "isis") ["ip router isis SF"; "isis passive"]
    ++ if_ (enabled f "ospf") ["ip ospf area 0.0.0.0"; "ip ospf passive"]
    ++ ["exit"; "interface sr0"; "ipv6 address " +:+ (loc +:+ "ffff/64")]
    ++ (if enabled f "isis" then ["ipv6 router isis SF"; "isis passive"] else ["ipv6 ospf6 area 0.0.0.0"; "ipv6 ospf6 passive"])
    ++ ["exit"]
    ++ if_ (enabled f "isis") (
         ["router isis SF"; "net 49.0001." +:+ (net +:+ ".00"); "is-type level-2-only"; "metric-style wide";
          "topology ipv6-unicast"; "lsp-gen-interval 1"; "spf-interval 1"]
         ++ if_ (enabled f "sr-mpls") (segment_routing_lines lo i ++ if_ (String.eqb n (pair f).1) ["mpls-te export"])
         ++ ["exit"])
    ++ if_ (enabled f "ospf") (concat (map (fun daemon =>
         ["router " +:+ daemon; daemon +:+ (" router-id " +:+ lo); "timers throttle spf 0 50 500"; "exit"]) ["ospf"; "ospf6"]))
    ++ concat per_peer
    ++ if_ (enabled f "ldp") (ldp_lines lo names)
    ++ bgp ++ n3_routes f n)).

(** The interface block of the full configuration. *)
Definition full_interface (f : fabric) (n p : string) : res (list string) :=
  let* b := binding_of f n p in
  let* bw := bandwidth_lines f n p in
  Ok (["interface " +:+ ifname b; "ip router isis SF"] ++ isis_lines (cost b) ++ ospf_lines (cost b) ++ bw ++ ["exit"]).

Definition config_by (bgp_of : fabric -> string -> res (list string)) (f : fabric) (n : string) : res string :=
  match network_profile f with
  | Some _ => selected_config bgp_of f n
  | None =>
      let* lo := loopback f n in
      let* net := system_id f n in
      let* i := ordinal_in (ordinal f) n in
      let* peers := peers_of f n in
      let* per_peer := mapM_res (full_interface f n) (dkeys peers) in
      let* names := interfaces f n in
      let* loc := locator f n in
      let* bgp := if mem n (gateways f) then bgp_of f n else Ok [] in
      Ok (text (
        ["frr defaults traditional"; "hostname " +:+ n; "service integrated-vtysh-config"; "log stdout warnings";
         "interface lo"; "ip address " +:+ (lo +:+ "/32"); "ip router isis SF"; "isis passive";
         "ip ospf area 0.0.0.0"; "ip ospf passive"; "exit";
         "router ospf"; "ospf router-id " +:+ lo; "timers throttle spf 0 50 500"; "exit";
         "router ospf6"; "ospf6 router-id " +:+ lo; "timers throttle spf 0 50 500"; "exit";
         "router isis SF"; "net 49.0001." +:+ (net +:+ ".00"); "is-type level-2-only"; "metric-style wide";
         "lsp-gen-interval 1"; "spf-interval 1"]
        ++ segment_routing_lines lo i
        ++ if_ (String.eqb n (pair f).1) ["mpls-te export"]
        ++ ["exit"]
        ++ concat per_peer
        ++ ldp_lines lo names
        ++ ["interface sr0"; "ipv6 address " +:+ (loc +:+ "ffff/64"); "ipv6 ospf6 area 0.0.0.0"; "exit"]
        ++ bgp ++ n3_routes f n))
  end.

Definition config : fabric -> string -> res string := config_by bgp_config.

(** ** Wiring *)

Record job := Job { pid : Z; args : list string }.

(** The namespace command of a node, or the exception its arguments raise. *)
Definition command : Type := res (string * list string).

Definition pid_of (pids : list (string * Z)) (n : string) : res Z := or_raise KeyError (dget pids n).

(** [add(node, *args)]: the arguments are evaluated first. *)
Definition add (pids : list (string * Z)) (c : command) : res job :=
  let* (n, a) := c in let* p := pid_of pids n in Ok (Job p a).

Definition run (n : string) (a : list string) : command := Ok (n, a).

(** The commands of one end of a link; [i] is 0 for [a] and 1 for [b]. *)
Definition end_commands (f : fabric) (b : binding) (i : Z) (n other : string) : list command :=
  [let* e := or_raise KeyError (dget (endpoints b) n) in Ok (n, ["ip"; "address"; "add"; e +:+ "/30"; "dev"; ifname b]);
   run n ["sysctl"; "-qw"; "net.ipv4.conf." +:+ (ifname b +:+ ".rp_filter=0")];
   run n ["ip"; "-6"; "address"; "add"; "2001:db8:" +:+ (hex_str (index b) +:+ ("::" +:+ (pretty (i + 1) +:+ "/64")));
          "dev"; ifname b; "nodad"]]
  ++ match dget (directed f) (n, other) with
     | None => [Err KeyError]
     | Some d =>
         match capacity_bps d with
         | None => []
         | Some _ => [let* q := Channel.qdisc_command (ifname b) (link_json d) (JInt (queue_limit f)) "replace" in Ok (n, q)]
         end
     end
  ++ [let* up := active f n other in Ok (n, ["ip"; "link"; "set"; ifname b; if (up : bool) then "up" else "down"])]
  ++ if_ (enabled f "mpls") [run n ["sysctl"; "-qw"; "net.mpls.conf." +:+ (ifname b +:+ ".input=1")]]
  ++ if_ (enabled f "srv6") [run n ["sysctl"; "-qw"; "net.ipv6.conf." +:+ (ifname b +:+ ".seg6_enabled=1")]].

Definition link_commands (f : fabric) (pids : list (string * Z)) (kb : pair_t * binding) : list command :=
  let '((a, b), l) := kb in
  let peer := "p" +:+ pretty (index l) in
  [run a ["ip"; "link"; "add"; ifname l; "type"; "veth"; "peer"; "name"; peer];
   let* p := pid_of pids b in Ok (a, ["ip"; "link"; "set"; peer; "netns"; pretty p]);
   run b ["ip"; "link"; "set"; peer; "name"; ifname l]]
  ++ end_commands f l 0 a (if String.eqb a a then b else a)
  ++ end_commands f l 1 b (if String.eqb b a then b else a).

Definition node_commands (f : fabric) (n : string) : list command :=
  [run n ["ip"; "link"; "set"; "lo"; "up"];
   run n ["ip"; "link"; "add"; "sr0"; "type"; "dummy"];
   run n ["ip"; "link"; "set"; "sr0"; "up"]]
  ++ if_ (enabled f "srv6") [
       let* loc := locator f n in
       Ok (n, ["ip"; "-6"; "route"; "replace"; loc +:+ "1/128"; "encap"; "seg6local"; "action"; "End"; "dev"; "sr0"])]
  ++ [run n ["ip"; "route"; "add"; "blackhole"; "172.22.0.0/16"; "metric"; "42799"]].

Definition gateway_commands (f : fabric) (n : string) : list command :=
  [run n ["ip"; "link"; "add"; "svc0"; "type"; "dummy"]; run n ["ip"; "link"; "set"; "svc0"; "up"]]
  ++ if_ (enabled f "evpn") [
       run n ["ip"; "link"; "add"; "br100"; "type"; "bridge"];
       run n ["ip"; "link"; "set"; "br100"; "up"];
       (let* a := svi f n in Ok (n, ["ip"; "address"; "add"; a +:+ "/16"; "dev"; "br100"]));
       (let* lo := loopback f n in
        Ok (n, ["ip"; "link"; "add"; "vni100"; "type"; "vxlan"; "id"; "100"; "local"; lo; "dstport"; "4789"; "nolearning"]));
       run n ["ip"; "link"; "set"; "vni100"; "master"; "br100"];
       run n ["ip"; "link"; "set"; "vni100"; "up"]].

Definition sink_command (f : fabric) (t : intent) : command :=
  let* a := or_raise KeyError (dget (service_addresses f) (id t)) in
  Ok (i_destination t, ["ip"; "address"; "add"; a +:+ "/32"; "dev"; "svc0"]).

(** The N3 attachment of one end of the 5G session. *)
Definition service_commands (f : fabric) (pids : list (string * Z)) (item : nat * (string * string * string * string)) : list command :=
  let '(i, (n, peer, destination, _)) := item in
  let endpoint := if (i =? 0)%nat then "nr_gnb" else "upf" in
  let base := 4 * Z.of_nat i in
  let attach owner iface offset :=
    [(let* a := ip "10.230.0.0" (base + offset) in Ok (owner, ["ip"; "address"; "add"; a +:+ "/30"; "dev"; iface]));
     run owner ["sysctl"; "-qw"; "net.ipv4.conf." +:+ (iface +:+ ".rp_filter=0")];
     run owner ["ip"; "link"; "set"; iface; "up"]] in
  [run n ["ip"; "link"; "add"; "n3"; "type"; "veth"; "peer"; "name"; "n3peer"];
   (let* p := pid_of pids endpoint in Ok (n, ["ip"; "link"; "set"; "n3peer"; "netns"; pretty p]));
   run endpoint ["ip"; "link"; "set"; "n3peer"; "name"; "sf-n3"]]
  ++ attach n "n3" 1 ++ attach endpoint "sf-n3" 2
  ++ if_ (bool_decide (network_profile f = None) || enabled f "srv6") [
       let* loc := locator f n in
       let* nh := ip "10.230.0.0" (base + 2) in
       Ok (n, ["ip"; "-6"; "route"; "replace"; loc +:+ "4/128"; "encap"; "seg6local"; "action"; "End.DX4"; "nh4"; nh; "dev"; "n3"])]
  ++ if_ (bool_decide (network_profile f = None)) [
       (let* lo := loopback f n in
        let* remote := loopback f peer in
        Ok (n, ["ip"; "tunnel"; "add"; "sf-ospf"; "mode"; "ipip"; "local"; lo; "remote"; remote]));
       run n ["ip"; "link"; "set"; "sf-ospf"; "up"]]
  ++ [run n ["ip"; "rule"; "add"; "pref"; "100"; "to"; destination +:+ "/32"; "lookup"; "300"]]
  ++ match network_profile f with
     | Some p => if_ (mem "evpn-srv6" (carriers p)) [
         run n ["ip"; "route"; "replace"; "blackhole"; "default"; "table"; "300"; "metric"; "32760"]]
     | None => []
     end.

(** [wiring(pids, pairs)]; [pairs] is [None] for the whole fabric. *)
Definition wiring (f : fabric) (pids : list (string * Z)) (pairs : option (list pair_t)) : res (list job) :=
  let chosen := List.filter (fun kb : pair_t * binding => match pairs with Some ps => mem kb.1 ps | None => true end) (links f) in
  mapM_res (add pids) (
    concat (map (link_commands f pids) chosen)
    ++ match pairs with
       | Some _ => []
       | None =>
           concat (map (node_commands f) (dkeys (nodes f)))
           ++ concat (map (gateway_commands f) (gateways f))
           ++ map (sink_command f) (gateway_intents f)
           ++ concat (map (service_commands f pids) (enumerate (service f)))
       end).


(** ** Well-formed fabrics *)

Record ok (f : fabric) : Prop := {
  ok_nodes : d_ok (nodes f);
  ok_adjacency : dkeys (adjacency f) = dkeys (nodes f);
  ok_peers n peers : dget (adjacency f) n = Some peers -> d_ok peers;
  ok_peer n peers p key : dget (adjacency f) n = Some peers -> dget peers p = Some key ->
    key = sorted_pair n p /\ is_Some (dget (links f) key) /\ is_Some (dget (directed f) (n, p)) /\ p ∈ dkeys (nodes f);
  ok_paired n peers p key : dget (adjacency f) n = Some peers -> dget peers p = Some key ->
    exists peers', dget (adjacency f) p = Some peers' /\ is_Some (dget peers' n);
  ok_links : d_ok (links f);
  ok_cost k b : dget (links f) k = Some b -> 1 <= cost b <= 65535 }.

Lemma cost_of_bounds ph l c : cost_of ph l = Ok c -> 1 <= c <= 65535.
Proof.
  unfold cost_of. destruct ph; [intros [= <-]; lia|]. rewrite bind_Ok. intros (us & _ & [= <-]). apply Channel.frr_cost_bounds.
Qed.

(** What the numbering loop maintains; [all] are the links of the scenario. *)
Definition numbered (i : nat) (kb : pair_t * binding) : Prop :=
  exists e0 e1, index kb.2 = Z.of_nat i + 1 /\ ifname kb.2 = "sf" +:+ pretty (Z.of_nat i + 1) /\ 1 <= cost kb.2 <= 65535 /\
    ip "10.128.0.0" (4 * (Z.of_nat i + 1) + 1) = Ok e0 /\ ip "10.128.0.0" (4 * (Z.of_nat i + 1) + 2) = Ok e1 /\
    endpoints kb.2 = dict_of [(kb.1.1, e0); (kb.1.2, e1)].

Record graph_ok (all : list link) (names : list string) (g : graph) : Prop := {
  g_links : d_ok g.1;
  g_numbered i kb : g.1 !! i = Some kb -> numbered i kb;
  g_names : dkeys g.2 = names;
  g_peers n peers : dget g.2 n = Some peers -> d_ok peers;
  g_keys k b : dget g.1 k = Some b -> k = sorted_pair k.1 k.2;
  g_peer n peers p key : dget g.2 n = Some peers -> dget peers p = Some key ->
    key = sorted_pair n p /\ is_Some (dget g.1 key) /\ (n, p) ∈ map (fun l => (source l, target l)) all }.

Lemma sorted_pair_idem a b : sorted_pair a b = sorted_pair (sorted_pair a b).1 (sorted_pair a b).2.
Proof.
  unfold sorted_pair. destruct (String.leb a b) eqn:E; simpl; [by rewrite E|].
  destruct (String.leb_total b a) as [-> |]; [done|congruence].
Qed.

Lemma sorted_pair_sym a b : sorted_pair a b = sorted_pair b a.
Proof.
  unfold sorted_pair. destruct (String.leb a b) eqn:E, (String.leb b a) eqn:E'; try done.
  - by rewrite (String.leb_antisym _ _ E E').
  - destruct (String.leb_total a b); congruence.
Qed.

Lemma add_link_ok all names ph g l g' :
  graph_ok all names g -> l ∈ all -> add_link ph g l = Ok g' -> graph_ok all names g'.
Proof.
  destruct g as [ls adj]. intros [G1 G2 G3 G4 G5 G6] Hl. unfold add_link. set (key := sorted_pair (source l) (target l)).
  rewrite bind_Ok. intros (ls' & Hls & H). apply bind_Ok in H as (peers & Hp & [= <-]).
  apply or_raise_Ok in Hp. simpl in *.
  assert (d_ok ls' /\ (forall i kb, ls' !! i = Some kb -> numbered i kb) /\ is_Some (dget ls' key) /\
    (forall k b, dget ls' k = Some b -> k = sorted_pair k.1 k.2) /\
    forall k, is_Some (dget ls k) -> is_Some (dget ls' k)) as (L1 & L2 & L3 & L4 & L5).
  { destruct (dhas ls key) eqn:Hk.
    - injection Hls as <-. split_and!; try done. unfold dhas in Hk. destruct (dget ls key); [by eexists|done].
    - apply bind_Ok in Hls as (c & Hc & Hls). apply bind_Ok in Hls as (e0 & He0 & Hls).
      apply bind_Ok in Hls as (e1 & He1 & [= <-]). split_and!; [by apply d_ok_dset| | | |].
      + rewrite dset_new by done. intros i kb Hi. apply lookup_app_Some in Hi as [Hi|[Hi Hj]]; [by apply G2|].
        destruct (i - length ls)%nat eqn:Ei; [|done]. injection Hj as <-. exists e0, e1.
        replace (Z.of_nat i) with (len ls) by (unfold len; lia). destruct (cost_of_bounds _ _ _ Hc). by split_and!.
      + rewrite dget_dset_eq. by eexists.
      + intros k b. rewrite dget_dset. case_decide; [|apply G5]. subst k. intros _. apply sorted_pair_idem.
      + intros k [b Hb]. rewrite dget_dset. case_decide; by eexists. }
  constructor; simpl; try done.
  - rewrite dkeys_dset, decide_True; [done|]. apply dhas_true. unfold dhas. by rewrite Hp.
  - intros n ps. rewrite dget_dset. case_decide; [|apply G4]. intros [= <-]. apply d_ok_dset. by eapply G4.
  - intros n ps p k. rewrite dget_dset. case_decide as En.
    + intros [= <-]. subst n. rewrite dget_dset. case_decide as Et.
      * intros [= <-]. subst p. split_and!; [done|done|]. apply list_elem_of_In, in_map_iff. exists l.
        split; [done|]. by apply list_elem_of_In.
      * intros Hk. destruct (G6 _ _ _ _ Hp Hk) as (-> & ? & ?). split_and!; auto.
    + intros Hn Hk. destruct (G6 _ _ _ _ Hn Hk) as (-> & ? & ?). split_and!; auto.
Qed.

Lemma add_link_keys ph g l g' : add_link ph g l = Ok g' ->
  (forall k, k ∈ dkeys g.1 -> k ∈ dkeys g'.1) /\ sorted_pair (source l) (target l) ∈ dkeys g'.1.
Proof.
  destruct g as [ls adj]. unfold add_link. rewrite bind_Ok. intros (ls' & Hls & H). apply bind_Ok in H as (peers & _ & [= <-]).
  simpl. destruct (dhas ls _) eqn:E.
  - injection Hls as <-. split; [done|]. by apply dhas_true.
  - apply bind_Ok in Hls as (c & _ & Hls). apply bind_Ok in Hls as (e0 & _ & Hls). apply bind_Ok in Hls as (e1 & _ & [= <-]).
    split; [intros k Hk|]; apply elem_of_dkeys_dset; auto.
Qed.

Lemma graph_initial all names : graph_ok all names ([], map (fun n => (n, [])) names).
Proof.
  assert (forall n peers, dget (map (fun n => (n, [] : list (string * pair_t))) names) n = Some peers -> peers = []) as H.
  { induction names as [|m names IH]; intros n peers; simpl; [done|]. case_decide; [by intros [= <-]|apply IH]. }
  constructor; simpl; try done.
  - apply d_ok_nil.
  - unfold dkeys. rewrite map_map. apply map_id.
  - intros n peers Hn. rewrite (H _ _ Hn). apply d_ok_nil.
  - intros n peers p key Hn. by rewrite (H _ _ Hn).
Qed.

Lemma dget_direct all n p : (n, p) ∈ map (fun l => (source l, target l)) all -> is_Some (dget (direct all) (n, p)).
Proof.
  intros H. apply dget_is_Some, elem_of_dkeys_dict_of. by rewrite map_map.
Qed.

Lemma unpaired_false adj a b : unpaired adj (a, b) = Ok false ->
  exists pa pb, dget adj a = Some pa /\ dget adj b = Some pb /\ is_Some (dget pa b) /\ is_Some (dget pb a).
Proof.
  unfold unpaired. rewrite bind_Ok. intros (pb & Hb & H). apply or_raise_Ok in Hb.
  destruct (dhas pb a) eqn:Ea; simpl in H; [|done]. apply bind_Ok in H as (pa & Ha & [= H]). apply or_raise_Ok in Ha.
  apply negb_false_iff in H. exists pa, pb. split_and!; try done; by apply dget_is_Some, dhas_true.
Qed.

Lemma mapM_res_elem {A B} (h : A -> res B) l ys x : mapM_res h l = Ok ys -> x ∈ l -> exists y, h x = Ok y /\ y ∈ ys.
Proof.
  rewrite mapM_res_Ok. induction 1 as [|a b l ys Hab _ IH]; [by intros ?%not_elem_of_nil|].
  rewrite elem_of_cons. intros [->|Hx]; [exists b; split; [done|left]|].
  destruct (IH Hx) as (y & ? & ?). exists y. split; [done|by right].
Qed.

Lemma bind_node_name f identifier item r : bind_node f identifier item = Ok r -> r.1 = item.1 /\ kind r.2 = kind item.2.
Proof.
  destruct item as [n v]. unfold bind_node. rewrite bind_Ok. intros (lo & _ & H). apply bind_Ok in H as (ls & _ & [= <-]). done.
Qed.

Lemma bound_keys f identifier ns bound : mapM_res (bind_node f identifier) ns = Ok bound -> dkeys bound = dkeys ns.
Proof.
  rewrite mapM_res_Ok. unfold dkeys. induction 1 as [|x y ns bound Hxy _ IH]; simpl; [done|].
  apply bind_node_name in Hxy as [-> _]. by f_equal.
Qed.

(** What a successful [init] says of its pieces. *)
Lemma init_inv sc identifier f : init sc identifier = Ok f ->
  graph_ok (s_links sc) (dkeys (nodes f)) (links f, adjacency f) /\ d_ok (nodes f) /\ len (nodes f) <= 7999 /\
  directed f = direct (s_links sc) /\ ordinal f = ordinals (dkeys (nodes f)) /\
  (forall a b, (a, b) ∈ dkeys (links f) -> unpaired (adjacency f) (a, b) = Ok false) /\
  2 <= len (gateways f) /\ satellites f <> [] /\ dkeys (nodes f) = dkeys (dict_of (s_nodes sc)) /\
  gateways f = of_kind (dict_of (s_nodes sc)) "gateway".
Proof.
  unfold init. split_guard. rewrite bind_Ok. intros (ids & _ & H). apply bind_Ok in H as (first & _ & H).
  apply bind_Ok in H as ([ls adj] & Hg & H). apply bind_Ok in H as (checked & Hm & H).
  apply bind_Ok in H as (bound & Hb & H). apply bind_Ok in H as (sinks & _ & [= <-]). simpl.
  pose proof (bound_keys _ _ _ _ Hb) as Hk. rewrite Hk. bool_to_prop. split_and!; try done.
  - eapply (foldM_inv (graph_ok (s_links sc) (dkeys (dict_of (s_nodes sc))))); [|apply graph_initial|exact Hg].
    intros. by eapply add_link_ok.
  - unfold d_ok. rewrite Hk. apply d_ok_dict_of.
  - rewrite <- (len_map fst). fold (dkeys bound). rewrite Hk. unfold dkeys. rewrite len_map. lia.
  - intros a b Hab. destruct (mapM_res_elem _ _ _ _ Hm Hab) as (y & Hy & _). apply bind_Ok in Hy as ([] & Hmissing & Hy); done.
Qed.

(** Every link of the scenario has its pair numbered. *)
Lemma init_links sc identifier f l : init sc identifier = Ok f -> l ∈ s_links sc -> sorted_pair (source l) (target l) ∈ dkeys (links f).
Proof.
  unfold init. split_guard. rewrite bind_Ok. intros (ids & _ & H). apply bind_Ok in H as (first & _ & H).
  apply bind_Ok in H as ([ls adj] & Hg & H). apply bind_Ok in H as (checked & _ & H).
  apply bind_Ok in H as (bound & _ & H). apply bind_Ok in H as (sinks & _ & [= <-]). cbn [links].
  assert (forall all g g', foldM (add_link (s_physical sc)) g all = Ok g' ->
    (forall k, k ∈ dkeys g.1 -> k ∈ dkeys g'.1) /\ forall l, l ∈ all -> sorted_pair (source l) (target l) ∈ dkeys g'.1) as Hall.
  { induction all as [|x all IH]; intros g g'; cbn [foldM]; [intros [= <-]; split; [done|by intros ? ?%not_elem_of_nil]|].
    rewrite bind_Ok. intros (g1 & H1 & H2). destruct (IH _ _ H2) as [Hm Hin]. destruct (add_link_keys _ _ _ _ H1) as [Hm1 Hx].
    split; [auto|]. intros y. rewrite elem_of_cons. intros [->|]; auto. }
  by apply (Hall _ _ _ Hg).
Qed.

Lemma fabric_init_ok sc identifier f : init sc identifier = Ok f -> ok f.
Proof.
  intros (G & Hn & _ & Hd & _ & Hp & _)%init_inv. destruct G as [G1 G2 G3 G4 G5 G6]; simpl in *.
  assert (forall n peers p key, dget (adjacency f) n = Some peers -> dget peers p = Some key ->
    exists peers', dget (adjacency f) p = Some peers' /\ is_Some (dget peers' n)) as Hpair.
  { intros n peers p key Hpe Hk. destruct (G6 _ _ _ _ Hpe Hk) as (-> & Hl & _). apply dget_is_Some in Hl.
    revert Hl. unfold sorted_pair. destruct (String.leb n p); intros Hl;
      destruct (unpaired_false _ _ _ (Hp _ _ Hl)) as (pa & pb & ? & ? & ? & ?); by eexists. }
  constructor; try done.
  - intros n peers p key Hpe Hk. destruct (G6 _ _ _ _ Hpe Hk) as (-> & Hl & Hin). split_and!; [done|done| |].
    + rewrite Hd. by apply dget_direct.
    + destruct (Hpair _ _ _ _ Hpe Hk) as (peers' & Hp' & _). rewrite <- G3. apply dget_is_Some. by eexists.
  - intros k b (i & Hi)%dget_Some_lookup. by destruct (G2 _ _ Hi) as (e0 & e1 & _ & _ & ? & _).
Qed.

(** ** Shortest paths *)

(** The edges the search follows out of [n]: the links to its peers that are not
    excluded and are active, with their costs. *)
Definition edges (f : fabric) (excluded : list string) (n : string) : list (string * Z) :=
  match peers_of f n with
  | Ok peers => omap (fun p => match usable f excluded n p, binding_of f n p with
                               | Ok true, Ok b => Some (p, cost b)
                               | _, _ => None
                               end) (dkeys peers)
  | Err _ => []
  end.

Lemma length_omap_le {A B} (h : A -> option B) l : (length (omap h l) <= length l)%nat.
Proof. induction l as [|x l IH]; csimpl; [done|]. destruct (h x); simpl; lia. Qed.

Section Search.
Context (f : fabric) (excluded : list string) (Hok : ok f).

Lemma peers_total n : n ∈ dkeys (nodes f) -> exists peers, peers_of f n = Ok peers.
Proof.
  rewrite <- (ok_adjacency _ Hok), <- dget_is_Some. intros [peers Hp]. exists peers. unfold peers_of. by rewrite Hp.
Qed.

Lemma link_total n peers p : peers_of f n = Ok peers -> p ∈ dkeys peers ->
  (exists u, usable f excluded n p = Ok u) /\ (exists b, binding_of f n p = Ok b /\ 1 <= cost b) /\ p ∈ dkeys (nodes f).
Proof.
  intros Hn Hp. pose proof Hn as Hn'. apply or_raise_Ok in Hn'. apply dget_is_Some in Hp as [key Hk].
  destruct (ok_peer _ Hok _ _ _ _ Hn' Hk) as (-> & [b Hb] & [l Hl] & Hin). split_and!; [| |done].
  - unfold usable. destruct (is_pair n p excluded); [by eexists|]. unfold active. rewrite Hl. by eexists.
  - exists b. unfold binding_of. rewrite Hn. simpl_res. rewrite Hk. simpl. rewrite Hb. split; [done|].
    eapply (ok_cost _ Hok), Hb.
Qed.

Lemma elem_of_edges n p w : (p, w) ∈ edges f excluded n <->
  exists peers b, peers_of f n = Ok peers /\ p ∈ dkeys peers /\ usable f excluded n p = Ok true /\
    binding_of f n p = Ok b /\ w = cost b.
Proof.
  unfold edges. destruct (peers_of f n) as [peers|]; [|set_solver]. rewrite list_elem_of_omap. split.
  - intros (q & Hq & H). destruct (usable f excluded n q) as [[|]|] eqn:Eu, (binding_of f n q) as [b|] eqn:Eb; try done.
    injection H as -> <-. by exists peers, b.
  - intros (peers' & b & [= <-] & Hp & Hu & Hb & ->). exists p. by rewrite Hu, Hb.
Qed.

Lemma edges_cost n p w : (p, w) ∈ edges f excluded n -> 1 <= w.
Proof.
  rewrite elem_of_edges. intros (peers & b & Hn & Hp & _ & Hb & ->).
  destruct (link_total _ _ _ Hn Hp) as (_ & (b' & Hb' & ?) & _). congruence.
Qed.

Lemma edges_nodes n p w : (p, w) ∈ edges f excluded n -> p ∈ dkeys (nodes f).
Proof. rewrite elem_of_edges. intros (peers & b & Hn & Hp & _). by eapply link_total. Qed.

Lemma relax_step n c st p u b : usable f excluded n p = Ok u -> binding_of f n p = Ok b ->
  relax f excluded n c st p = Ok (if u then improve c st (p, cost b) else st).
Proof.
  intros Hu Hb. unfold relax, improve. rewrite Hu, Hb. destruct u; simpl_res; [|done].
  by destruct (match dget st.1 p with Some _ => _ | None => _ end).
Qed.

(** The inner loop improves the distances over the edges of the node. *)
Lemma relax_improves n c peers st : peers_of f n = Ok peers ->
  foldM (relax f excluded n c) st (dkeys peers) = Ok (fold_left (improve c) (edges f excluded n) st).
Proof.
  intros Hn. unfold edges. rewrite Hn. assert (forall p, p ∈ dkeys peers -> p ∈ dkeys peers) as Hsub by done.
  revert Hsub. generalize (dkeys peers) at 1 3 4. intros l. revert st.
  induction l as [|p l IH]; intros st Hsub; simpl; [done|].
  destruct (link_total _ _ _ Hn (Hsub p ltac:(left))) as ([u Hu] & (b & Hb & _) & _).
  rewrite (relax_step _ _ _ _ _ _ Hu Hb), Hu, Hb. unfold mbind, res_bind.
  destruct u; apply IH; intros; apply Hsub; by right.
Qed.

Lemma spf_settles fuel dist queue d :
  (forall c n, (c, n) ∈ queue -> n ∈ dkeys (nodes f)) ->
  settle (edges f excluded) fuel (dist, queue) = Some d -> spf fuel f excluded dist queue = Ok d.
Proof.
  revert dist queue. induction fuel as [|fuel IH]; intros dist queue Hq; simpl; [done|].
  destruct queue as [|[c n] queue]; simpl; [by intros [= <-]|].
  destruct (dget dist n) as [dn|] eqn:Ed; simpl; [|done].
  assert (forall c n, (c, n) ∈ queue -> n ∈ dkeys (nodes f)) as Hq' by (intros c' m Hm; eapply Hq; by right).
  destruct (c =? dn) eqn:Ec; simpl; [|by apply IH].
  destruct (peers_total n) as [peers Hp]; [eapply Hq; left|]. intros Hs. unfold mbind, res_bind. rewrite Hp.
  rewrite (relax_improves _ _ _ _ Hp).
  destruct (fold_left (improve c) (edges f excluded n) (dist, queue)) as [dist' queue'] eqn:Ef. simpl. apply IH; [|exact Hs].
  assert (forall c' m, (c', m) ∈ (dist', queue').2 -> m ∈ dkeys (nodes f)) as H; [|exact H]. rewrite <- Ef.
  apply (fold_left_inv (fun st : search => forall c' m, (c', m) ∈ st.2 -> m ∈ dkeys (nodes f))); [|done].
  intros st [p w] He Hst c' m. unfold improve.
  destruct (match dget st.1 (p, w).1 with Some _ => _ | None => _ end); simpl; [|apply Hst].
  rewrite elem_of_insert. intros [[= -> ->]|]; [by eapply edges_nodes|by eapply Hst].
Qed.

Lemma sum_edges_le (d : list (string * list (string * pair_t))) (g : string -> nat) :
  (forall k v, (k, v) ∈ d -> (g k <= length v)%nat) ->
  (sum_list_with g (dkeys d) <= sum_list_with (fun kv => length kv.2) d)%nat.
Proof.
  induction d as [|[k v] d IH]; intros H; simpl; [done|].
  pose proof (H k v ltac:(left)). specialize (IH ltac:(intros; apply H; by right)). unfold dkeys in *. lia.
Qed.

Lemma edges_length n v : (n, v) ∈ adjacency f -> (length (edges f excluded n) <= length v)%nat.
Proof.
  intros Hin. assert (dget (adjacency f) n = Some v) as Hn.
  { apply dget_in_ok; [|done]. unfold d_ok. rewrite (ok_adjacency _ Hok). apply (ok_nodes _ Hok). }
  unfold edges, peers_of. rewrite Hn. simpl. rewrite <- (length_map fst v). apply length_omap_le.
Qed.

(** The search ends with the distance from the target of every node it reaches. *)
Lemma spf_correct tgt : tgt ∈ dkeys (nodes f) ->
  exists dist, spf (spf_fuel f) f excluded [(tgt, 0)] [(0, tgt)] = Ok dist /\
    forall n d, dget dist n = Some d <-> distance (edges f excluded) tgt n d.
Proof.
  intros Ht. destruct (settle_correct (edges f excluded) (dkeys (nodes f)) tgt) with (fuel := spf_fuel f) as (dist & Hs & Hd).
  - intros n p w H%edges_cost. lia.
  - intros n p w _. apply edges_nodes.
  - done.
  - apply (ok_nodes _ Hok).
  - unfold spf_fuel. pose proof (sum_edges_le (adjacency f) (fun n => length (edges f excluded n)) edges_length) as H.
    rewrite (ok_adjacency _ Hok) in H. lia.
  - exists dist. split; [|done]. apply spf_settles; [|done].
    intros c n Hin. apply list_elem_of_singleton in Hin. by injection Hin as -> ->.
Qed.

End Search.

Lemma filterM_total {A} (q : A -> res bool) (l : list A) :
  (forall x, x ∈ l -> exists b, q x = Ok b) ->
  exists r, filterM q l = Ok r /\ forall x, x ∈ r <-> x ∈ l /\ q x = Ok true.
Proof.
  induction l as [|x l IH]; intros H; simpl; [exists []; set_solver|].
  destruct (H x ltac:(left)) as [b Hb]. destruct IH as (r & -> & Hr); [intros; apply H; by right|].
  rewrite Hb. simpl_res. eexists; split; [done|]. intros y. destruct b; rewrite ?elem_of_cons, Hr.
  - split; [intros [->|[? ?]]|intros [[->|?] ?]]; auto.
  - split; [intros [? ?]; auto|intros [[->|?] Hq]; [congruence|auto]].
Qed.

(** A next hop of [n] towards [tgt]: a peer over a usable link that lies on a shortest path. *)
Definition next_hop (f : fabric) (excluded : list string) (tgt n p : string) : Prop :=
  exists b d, usable f excluded n p = Ok true /\ binding_of f n p = Ok b /\
    distance (edges f excluded) tgt p d /\ distance (edges f excluded) tgt n (cost b + d).

Section Hops.
Context (f : fabric) (excluded : list string) (Hok : ok f).

Lemma hops_of_exact tgt dist n : n ∈ dkeys (nodes f) ->
  (forall m d, dget dist m = Some d <-> distance (edges f excluded) tgt m d) ->
  exists ps, hops_of f excluded dist n = Ok (n, ps) /\ forall p, p ∈ ps <-> next_hop f excluded tgt n p.
Proof.
  intros Hn Hd. destruct (peers_total _ Hok n Hn) as [peers Hp]. unfold hops_of. rewrite Hp.
  destruct (filterM_total (is_hop f excluded dist n) (dkeys peers)) as (ps & Hps & Hin).
  { intros p Hpe. destruct (link_total f excluded Hok _ _ _ Hp Hpe) as ([u Hu] & (b & Hb & _) & _).
    unfold is_hop, andM. rewrite Hu, Hb. simpl_res. destruct u; [|by eexists]. destruct (dget dist p); by eexists. }
  simpl_res. rewrite Hps. exists ps. split; [done|]. intros p. rewrite Hin. unfold is_hop, andM, next_hop. split.
  - intros (Hpe & H). destruct (link_total f excluded Hok _ _ _ Hp Hpe) as ([u Hu] & (b & Hb & _) & _).
    rewrite Hu, Hb in H. simpl_res. destruct u; [|done]. destruct (dget dist p) as [d|] eqn:Ep; [|done].
    injection H as H. destruct (dget dist n) as [dn|] eqn:En; [|done]. bool_to_prop. subst.
    exists b, d. split_and!; try done; by apply Hd.
  - intros (b & d & Hu & Hb & Hdp & Hdn). apply Hd in Hdp, Hdn. rewrite Hu, Hb, Hdp, Hdn. simpl_res.
    rewrite Z.eqb_refl. split; [|done]. unfold binding_of in Hb. rewrite Hp in Hb. simpl_res.
    apply dget_is_Some. destruct (dget peers p); [by eexists|done].
Qed.

Lemma dget_pairs (h : string -> res (string * list string)) (l : list string) ys n ps :
  (forall m y, h m = Ok y -> y.1 = m) -> mapM_res h l = Ok ys -> n ∈ l -> h n = Ok (n, ps) -> dget ys n = Some ps.
Proof.
  intros Hh. rewrite mapM_res_Ok. induction 1 as [|m [k v] l ys Hm _ IH]; [by intros ?%not_elem_of_nil|].
  rewrite elem_of_cons. intros Hin Hn. simpl. pose proof (Hh _ _ Hm) as Hk. simpl in Hk. subst k.
  case_decide; [subst; congruence|]. apply IH; naive_solver.
Qed.

Lemma hops_of_name dist m y : hops_of f excluded dist m = Ok y -> y.1 = m.
Proof. unfold hops_of. rewrite bind_Ok. intros (? & _ & H). by apply bind_Ok in H as (? & _ & [= <-]). Qed.

Lemma shortest_hops_correct tgt : tgt ∈ dkeys (nodes f) ->
  exists hops, shortest_hops f tgt excluded = Ok hops /\
    forall n, n ∈ dkeys (nodes f) -> n <> tgt ->
      exists ps, dget hops n = Some ps /\ forall p, p ∈ ps <-> next_hop f excluded tgt n p.
Proof.
  intros Ht. destruct (spf_correct f excluded Hok tgt Ht) as (dist & Hs & Hd). unfold shortest_hops. rewrite Hs.
  set (l := List.filter _ _). assert (forall n, n ∈ l -> n ∈ dkeys (nodes f)) as Hl.
  { intros n Hn. apply list_elem_of_In, filter_In in Hn as [Hn _]. by apply list_elem_of_In. }
  assert (exists ys, mapM_res (hops_of f excluded dist) l = Ok ys) as [ys Hys].
  { clearbody l. induction l as [|n l IH]; simpl; [by eexists|].
    destruct (hops_of_exact tgt dist n) as (ps & -> & _); [apply Hl; left|done|]. simpl_res.
    destruct IH as [ys ->]; [intros; apply Hl; by right|]. by eexists. }
  exists ys. split; [exact Hys|]. intros n Hn Hne. destruct (hops_of_exact tgt dist n Hn Hd) as (ps & Hps & Hin).
  exists ps. split; [|exact Hin]. eapply dget_pairs; [apply hops_of_name|exact Hys| |exact Hps].
  apply list_elem_of_In, filter_In. split; [by apply list_elem_of_In|]. apply negb_true_iff. by apply String.eqb_neq.
Qed.

(** A hop is strictly nearer to the target. *)
Lemma next_hop_nearer tgt n p : next_hop f excluded tgt n p ->
  exists dp dn, distance (edges f excluded) tgt p dp /\ distance (edges f excluded) tgt n dn /\ dp < dn.
Proof.
  intros (b & d & Hu & Hb & Hp & Hn). exists d, (cost b + d). split_and!; try done.
  unfold binding_of in Hb. apply bind_Ok in Hb as (peers & Hpe & Hb). apply bind_Ok in Hb as (key & Hk & Hb).
  apply or_raise_Ok in Hb. pose proof (ok_cost _ Hok _ _ Hb). lia.
Qed.

Lemma distance_unique tgt n d d' : distance (edges f excluded) tgt n d -> distance (edges f excluded) tgt n d' -> d = d'.
Proof. intros [W1 M1] [W2 M2]. pose proof (M1 _ W2). pose proof (M2 _ W1). lia. Qed.

(** Along any sequence of next hops the distance falls. *)
Lemma hop_chain_nearer tgt n m : tc (next_hop f excluded tgt) n m ->
  exists dm dn, distance (edges f excluded) tgt m dm /\ distance (edges f excluded) tgt n dn /\ dm < dn.
Proof.
  induction 1 as [n m H|n p m H _ IH]; [by apply next_hop_nearer|].
  destruct (next_hop_nearer _ _ _ H) as (dp & dn & Hp & Hn & Hlt). destruct IH as (dm & dp' & Hm & Hp' & Hlt').
  rewrite (distance_unique _ _ _ _ Hp' Hp) in Hlt'. exists dm, dn. split_and!; [done|done|lia].
Qed.

End Hops.

(** C7.  [shortest_hops] ends on every well-formed fabric, without an exception, and the
    set it gives a node is exactly the peers over usable links that lie on a shortest path
    from the target: the distance of a node is the least total cost over all walks of
    active links outside the excluded pair. *)
Theorem shortest_hops_exact f excluded tgt : ok f -> tgt ∈ dkeys (nodes f) ->
  exists hops, shortest_hops f tgt excluded = Ok hops /\
    forall n, n ∈ dkeys (nodes f) -> n <> tgt ->
      exists ps, dget hops n = Some ps /\ forall p, p ∈ ps <-> next_hop f excluded tgt n p.
Proof. intros Hok. by apply shortest_hops_correct. Qed.

(** Forwarding along the next hops of [shortest_hops] never returns to a node it has
    left: link costs are at least one in every well-formed fabric, the ones [__init__]
    builds and [set_links] updates. *)
Theorem shortest_hops_loop_free f excluded tgt n : ok f -> ~ tc (next_hop f excluded tgt) n n.
Proof.
  intros Hok H. destruct (hop_chain_nearer f excluded Hok _ _ _ H) as (d & d' & Hd & Hd' & Hlt).
  rewrite (distance_unique _ _ _ _ _ _ Hd Hd') in Hlt. lia.
Qed.

(** ** Reachable fabrics and the address plan *)

(** Every adjacency of the fabric is among the links [ls]. *)
Definition covers (f : fabric) (ls : list link) : Prop :=
  forall n peers p, dget (adjacency f) n = Some peers -> p ∈ dkeys peers -> (n, p) ∈ map (fun l => (source l, target l)) ls.

(** The fabrics [__init__] builds and successive [set_links] update. *)
Inductive built : fabric -> Prop :=
| built_init sc identifier f : init sc identifier = Ok f -> built f
| built_links f ls f' : built f -> covers f ls -> set_links f ls = Ok f' -> built f'.

Record plan (f : fabric) : Prop := {
  plan_links i kb : links f !! i = Some kb -> numbered i kb;
  plan_ordinal : ordinal f = ordinals (dkeys (nodes f));
  plan_size : len (nodes f) <= 7999;
  plan_keys k b : dget (links f) k = Some b -> k = sorted_pair k.1 k.2 }.

Lemma set_links_inv f ls f' : set_links f ls = Ok f' ->
  nodes f' = nodes f /\ adjacency f' = adjacency f /\ ordinal f' = ordinal f /\ directed f' = direct ls /\
  Forall2 (fun kb kb' => kb'.1 = kb.1 /\ index kb'.2 = index kb.2 /\ ifname kb'.2 = ifname kb.2 /\
             endpoints kb'.2 = endpoints kb.2 /\ 1 <= cost kb'.2 <= 65535) (links f) (links f').
Proof.
  unfold set_links. rewrite bind_Ok. intros (updated & Hu & [= <-]). simpl. split_and!; try done.
  apply mapM_res_Ok in Hu. eapply Forall2_impl; [exact Hu|]. intros [k b] kb'. rewrite bind_Ok.
  intros (c & Hc & [= <-]). simpl. split_and!; try done.
  all: destruct (physical_model f); [injection Hc as <-; lia|]; apply bind_Ok in Hc as (l & _ & Hc);
    apply cost_of_bounds in Hc; lia.
Qed.

Lemma same_keys (d d' : list (pair_t * binding)) :
  Forall2 (fun kb kb' => kb'.1 = kb.1 /\ index kb'.2 = index kb.2 /\ ifname kb'.2 = ifname kb.2 /\
             endpoints kb'.2 = endpoints kb.2 /\ 1 <= cost kb'.2 <= 65535) d d' -> dkeys d' = dkeys d.
Proof. unfold dkeys. induction 1 as [|x y d d' (H & _) _ IH]; simpl; congruence. Qed.

Lemma built_ok_plan f : built f -> ok f /\ plan f.
Proof.
  induction 1 as [sc identifier f Hi|f ls f' _ [O P] Hc Hs].
  - split; [by eapply fabric_init_ok|]. destruct (init_inv _ _ _ Hi) as (G & _ & Hn & _ & Ho & _). destruct G. constructor; auto.
  - destruct (set_links_inv _ _ _ Hs) as (Hn & Ha & Ho & Hd & Hl). pose proof (same_keys _ _ Hl) as Hk.
    destruct O as [O1 O2 O3 O4 O5 O6 O7], P as [P1 P2 P3 P4]. split.
    + constructor; rewrite ?Hn, ?Ha, ?Hd; try done.
      * intros n peers p key Hp Hkey. destruct (O4 _ _ _ _ Hp Hkey) as (-> & Hin & _ & ?). split_and!; [done| |by apply dget_direct, (Hc _ _ _ Hp), dget_is_Some|done].
        apply dget_is_Some. rewrite Hk. by apply dget_is_Some.
      * unfold d_ok. by rewrite Hk.
      * intros k b (i & Hi)%dget_Some_lookup. destruct (Forall2_lookup_r _ _ _ _ _ Hl Hi) as (kb & _ & H). apply H.
    + constructor; rewrite ?Hn, ?Ho; try done.
      * intros i kb' Hi. destruct (Forall2_lookup_r _ _ _ _ _ Hl Hi) as (kb & Hkb & H1 & H2 & H3 & H4 & H5).
        destruct (P1 _ _ Hkb) as (e0 & e1 & I1 & I2 & _ & I4 & I5 & I6). exists e0, e1. rewrite H1, H2, H3, H4. done.
      * intros k b Hb. assert (is_Some (dget (links f) k)) as [b' Hb'].
        { apply dget_is_Some. rewrite <- Hk. apply dget_is_Some. by eexists. }
        by eapply P4.
Qed.

Lemma ip_Ok base v o a : ipv4_parse base = Ok v -> ip base o = Ok a -> a = ipv4_str (v + o) /\ 0 <= v + o < 2 ^ 32.
Proof. intros Hv. unfold ip. rewrite Hv. simpl_res. split_guard. intros [= <-]. bool_to_prop. done. Qed.

Lemma ip_same base v o base' v' o' a :
  ipv4_parse base = Ok v -> ipv4_parse base' = Ok v' -> ip base o = Ok a -> ip base' o' = Ok a -> v + o = v' + o'.
Proof.
  intros Hv Hv' H H'. apply (ip_Ok _ _ _ _ Hv) in H as [-> Hb]. apply (ip_Ok _ _ _ _ Hv') in H' as [H' Hb'].
  by apply ipv4_str_inj in H'.
Qed.

Lemma ordinals_lookup names n o : NoDup names -> dget (ordinals names) n = Some o ->
  1 <= o <= len names /\ sorted_strings names !! Z.to_nat (o - 1) = Some n.
Proof.
  intros Hn Ho. apply dget_Some_in, list_elem_of_In, in_map_iff in Ho as ([i m] & [= <- <-] & Hin).
  apply list_elem_of_In, list_elem_of_lookup in Hin as (j & Hj). unfold enumerate in Hj.
  apply lookup_zip_Some in Hj as [Hs Hm]. apply lookup_seq in Hs as [-> Hj]. rewrite sorted_strings_perm in Hj.
  unfold len. split; [lia|]. by replace (Z.to_nat (Z.of_nat (0 + j) + 1 - 1)) with j by lia.
Qed.

Lemma ordinal_facts f n o : ok f -> plan f -> ordinal_in (ordinal f) n = Ok o -> 1 <= o <= 7999.
Proof.
  intros O P Ho. apply or_raise_Ok in Ho. rewrite (plan_ordinal _ P) in Ho.
  apply ordinals_lookup in Ho as [Ho _]; [|apply (ok_nodes _ O)].
  pose proof (plan_size _ P). unfold dkeys in Ho. rewrite len_map in Ho. lia.
Qed.

Lemma ordinal_inj f n m o : ok f -> plan f -> ordinal_in (ordinal f) n = Ok o -> ordinal_in (ordinal f) m = Ok o -> n = m.
Proof.
  intros O P Hn Hm. apply or_raise_Ok in Hn, Hm. rewrite (plan_ordinal _ P) in Hn, Hm.
  apply ordinals_lookup in Hn as [_ Hn]; [|apply (ok_nodes _ O)]. apply ordinals_lookup in Hm as [_ Hm]; [|apply (ok_nodes _ O)].
  congruence.
Qed.

(** The address of an end of a link: its position in the plan. *)
Lemma hop_address f n p a : ok f -> plan f -> hop f n p = Ok a ->
  exists i b k, links f !! i = Some (sorted_pair n p, b) /\ (k = 1 \/ k = 2) /\ ip "10.128.0.0" (4 * (Z.of_nat i + 1) + k) = Ok a /\
    p = (if k =? 2 then (sorted_pair n p).2 else (sorted_pair n p).1).
Proof.
  intros O P. unfold hop, binding_of. rewrite bind_Ok. intros (b & H & He). apply bind_Ok in H as (peers & Hp & H).
  apply bind_Ok in H as (key & Hk & Hb). apply or_raise_Ok in Hp, Hk, Hb, He.
  destruct (ok_peer _ O _ _ _ _ Hp Hk) as (-> & _). apply dget_Some_lookup in Hb as (i & Hi).
  destruct (plan_links _ P _ _ Hi) as (e0 & e1 & _ & _ & _ & H0 & H1 & Hend). simpl in Hend. rewrite Hend in He.
  unfold dict_of in He. cbn [fold_left fst snd] in He. rewrite !dget_dset in He. simpl in He.
  case_decide as E2; [injection He as <-; exists i, b, 2; split_and!; auto|].
  case_decide as E1; [|done]. injection He as <-. exists i, b, 1. split_and!; auto.
Qed.

Lemma loopback_base : ipv4_parse "10.255.0.0" = Ok 184483840.
Proof. by vm_compute. Qed.

Lemma link_base : ipv4_parse "10.128.0.0" = Ok 176160768.
Proof. by vm_compute. Qed.

(** The identities of every fabric the program reaches, through [__init__] and any
    number of [set_links], are unique: no two nodes share a loopback or a segment id, every
    segment id lies in the configured global block 16000..23999, no two link ends share an
    address, and up to 2080767 links none of them takes a loopback. *)
Theorem address_plan f : built f ->
  (forall n m a, loopback f n = Ok a -> loopback f m = Ok a -> n = m) /\
  (forall n m s, sid f n = Ok s -> sid f m = Ok s -> n = m) /\
  (forall n s, sid f n = Ok s -> 16000 <= s <= 23999) /\
  (forall n p n' p' a, hop f n p = Ok a -> hop f n' p' = Ok a -> n = n' /\ p = p') /\
  (len (links f) <= 2080767 -> forall n m p a, loopback f n = Ok a -> hop f m p <> Ok a).
Proof.
  intros [O P]%built_ok_plan. split_and!.
  - intros n m a Hn Hm. apply bind_Ok in Hn as (o & Ho & Hn). apply bind_Ok in Hm as (o' & Ho' & Hm).
    assert (o = o') as <-; [|by eapply ordinal_inj].
    pose proof (ip_same _ _ _ _ _ _ _ loopback_base loopback_base Hn Hm). lia.
  - intros n m s Hn Hm. apply bind_Ok in Hn as (o & Ho & [= <-]). apply bind_Ok in Hm as (o' & Ho' & [= H]).
    assert (o' = o) as -> by lia. by eapply ordinal_inj.
  - intros n s Hn. apply bind_Ok in Hn as (o & Ho & [= <-]). apply ordinal_facts in Ho; [lia|done|done].
  - intros n p n' p' a H H'. destruct (hop_address _ _ _ _ O P H) as (i & b & k & Hi & Hk & Ha & Hp).
    destruct (hop_address _ _ _ _ O P H') as (i' & b' & k' & Hi' & Hk' & Ha' & Hp').
    pose proof (ip_same _ _ _ _ _ _ _ link_base link_base Ha Ha') as E. assert (i' = i /\ k' = k) as [-> ->] by lia.
    rewrite Hi in Hi'. injection Hi' as Hs _. rewrite Hs in Hp. rewrite <- Hp' in Hp. subst p'.
    split; [|done]. revert Hs. unfold sorted_pair. destruct (String.leb n p), (String.leb n' p); congruence.
  - intros Hl n m p a Hn H. apply bind_Ok in Hn as (o & Ho & Hn). apply ordinal_facts in Ho; [|done|done].
    destruct (hop_address _ _ _ _ O P H) as (i & b & k & Hi & Hk & Ha & _). apply lookup_lt_Some in Hi.
    pose proof (ip_same _ _ _ _ _ _ _ loopback_base link_base Hn Ha). unfold len in Hl. lia.
Qed.

(** ** Label tables *)

Lemma concat_nil {A} (ls : list (list A)) l : concat ls = [] -> l ∈ ls -> l = [].
Proof.
  induction ls as [|x ls IH]; simpl; [by intros _ ?%not_elem_of_nil|].
  intros [Hx Hls]%app_eq_nil. rewrite elem_of_cons. intros [->|]; [done|by apply IH].
Qed.

Lemma hop_total f excluded tgt n p : ok f -> plan f -> next_hop f excluded tgt n p -> exists a, hop f n p = Ok a.
Proof.
  intros O P (b & d & Hu & Hb & _). unfold hop. rewrite Hb. simpl_res.
  apply bind_Ok in Hb as (peers & Hp & Hb). apply bind_Ok in Hb as (key & Hk & Hb). apply or_raise_Ok in Hp, Hk, Hb.
  destruct (ok_peer _ O _ _ _ _ Hp Hk) as (-> & _). apply dget_Some_lookup in Hb as (i & Hi).
  destruct (plan_links _ P _ _ Hi) as (e0 & e1 & _ & _ & _ & H0 & H1 & He). simpl in He. rewrite He.
  assert (is_Some (dget (dict_of [((sorted_pair n p).1, e0); ((sorted_pair n p).2, e1)]) p)) as [a ->]; [|by eexists].
  apply dget_is_Some, elem_of_dkeys_dict_of. simpl. unfold sorted_pair. destruct (String.leb n p); set_solver.
Qed.

Lemma ordinals_keys names : dkeys (ordinals names) = sorted_strings names.
Proof.
  unfold ordinals, enumerate, dkeys. rewrite map_map. generalize (sorted_strings names), 0%nat. intros l.
  induction l as [|x l IH]; intros k; simpl; [done|]. f_equal. apply IH.
Qed.

Lemma sid_total f n : ok f -> plan f -> n ∈ dkeys (nodes f) -> exists s, sid f n = Ok s.
Proof.
  intros O P Hn. assert (is_Some (dget (ordinal f) n)) as [o Ho]; [|unfold sid, ordinal_in; rewrite Ho; by eexists].
  rewrite (plan_ordinal _ P). apply dget_is_Some. by rewrite ordinals_keys, sorted_strings_perm.
Qed.

(** The labels a table may use: one for each next hop, the implicit null at the last one. *)
Lemma allowed_exact f excluded tgt n hops ps s :
  ok f -> plan f -> sid f tgt = Ok s -> dget hops n = Some ps -> (forall p, p ∈ ps <-> next_hop f excluded tgt n p) ->
  exists allowed, allowed_of f tgt n hops = Ok allowed /\
    forall a label, dget allowed a = Some label ->
      exists p, next_hop f excluded tgt n p /\ hop f n p = Ok a /\ label = (if String.eqb p tgt then 3 else s).
Proof.
  intros O P Hs Hps Hin. unfold allowed_of. rewrite Hps. simpl_res. rewrite Hs.
  assert (exists items, mapM_res (fun p => match hop f n p with
      | Ok a => match (if String.eqb p tgt then Ok 3 else Ok s) with Ok a0 => Ok (a, a0) | Err e => Err e end
      | Err e => Err e end) ps = Ok items /\
      Forall (fun al => exists p, next_hop f excluded tgt n p /\ hop f n p = Ok al.1 /\ al.2 = if String.eqb p tgt then 3 else s) items)
    as (items & -> & Hit).
  { assert (forall p, p ∈ ps -> next_hop f excluded tgt n p) as Hsub by (intros; by apply Hin). clear Hps Hin.
    induction ps as [|p ps IH]; simpl; [by exists []|]. specialize (Hsub p ltac:(left)) as Hp.
    destruct (hop_total _ _ _ _ _ O P Hp) as [a Ha]. rewrite Ha. destruct IH as (items & -> & Hit); [intros; apply Hsub; by right|].
    destruct (String.eqb p tgt) eqn:E; simpl; eexists; (split; [done|]); constructor; try done; exists p; by rewrite E. }
  eexists; split; [done|]. intros a label Hal. apply dget_Some_in in Hal.
  apply Forall_dict_of in Hit. rewrite Forall_forall in Hit. by apply Hit in Hal.
Qed.

(** What a table without a mismatch says of its entry. *)
Definition entry_follows (f : fabric) (excluded : list string) (tgt n : string) (table : list (string * entry)) : Prop :=
  exists s e, sid f tgt = Ok s /\ dget table (pretty s) = Some e /\ e_installed e = true /\
    (exists h, h ∈ nexthops e /\ nh_installed h = true) /\
    forall h label, h ∈ nexthops e -> nh_installed h = true -> outLabel h = Some label ->
      exists p a, next_hop f excluded tgt n p /\ hop f n p = Ok a /\ nh_address h = Some a /\
        label = (if String.eqb p tgt then 3 else s).

Lemma check_table_clean f excluded tgt hops n table :
  ok f -> plan f -> tgt ∈ dkeys (nodes f) -> n <> tgt ->
  (exists ps, dget hops n = Some ps /\ forall p, p ∈ ps <-> next_hop f excluded tgt n p) ->
  check_table f tgt hops (n, table) = Ok [] -> entry_follows f excluded tgt n table.
Proof.
  intros O P Ht Hne (ps & Hps & Hin). destruct (sid_total _ _ O P Ht) as [s Hs].
  destruct (allowed_exact _ _ _ _ _ _ _ O P Hs Hps Hin) as (allowed & Ha & Hal).
  unfold check_table. replace (String.eqb n tgt) with false by (symmetry; by apply String.eqb_neq).
  rewrite Hs, Ha. simpl_res. destruct (_ || existsb _ _) eqn:E; [done|]. intros _. bool_to_prop.
  destruct (dget table (pretty s)) as [e|] eqn:Ee; simpl in *; [|done]. exists s, e. split_and!; try done.
  - destruct (List.filter nh_installed (nexthops e)) as [|h l] eqn:El; [done|]. exists h.
    assert (In h (List.filter nh_installed (nexthops e))) as [? ?]%filter_In by (rewrite El; by left).
    split; [by apply list_elem_of_In|done].
  - intros h label Hh Hi Hl. assert (wrong_label allowed h = false) as Hw.
    { destruct (wrong_label allowed h) eqn:Ew; [|done]. assert (existsb (wrong_label allowed) (List.filter nh_installed (nexthops e)) = true); [|congruence].
      apply existsb_exists. exists h. rewrite filter_In, <- list_elem_of_In. done. }
    unfold wrong_label in Hw. bool_to_prop. rewrite Hl in Hw. destruct (nh_address h) as [a|] eqn:Ea; [|done].
    destruct (Hal _ _ Hw) as (p & Hp & Hhop & ->). by exists p, a.
Qed.

(** When [sr_mismatches] reports nothing, every router has installed, for each target,
    an entry at the target's segment id with an installed next hop, and each labelled next
    hop of it is the address of a peer on a shortest path, with the implicit null towards
    the target itself and the segment id elsewhere. *)
Theorem sr_mismatches_clean f tables targets excluded : built f ->
  (forall t, t ∈ targets -> t ∈ dkeys (nodes f)) -> (forall n, n ∈ dkeys tables -> n ∈ dkeys (nodes f)) ->
  sr_mismatches f tables targets excluded = Ok [] ->
  forall tgt n table, tgt ∈ targets -> (n, table) ∈ tables -> n <> tgt -> entry_follows f excluded tgt n table.
Proof.
  intros [O P]%built_ok_plan Ht Hn Hs tgt n table Htgt Htab Hne. unfold sr_mismatches in Hs.
  apply bind_Ok in Hs as (bad & Hbad & [= Hc]). destruct (mapM_res_elem _ _ _ _ Hbad Htgt) as (l & Hl & Hin).
  rewrite (concat_nil _ _ Hc Hin) in Hl. destruct (shortest_hops_correct f excluded O tgt (Ht _ Htgt)) as (hops & Hh & Hex).
  apply bind_Ok in Hl as (hops' & Hh' & Hl). rewrite Hh in Hh'. injection Hh' as <-.
  apply bind_Ok in Hl as (found & Hf & [= Hc']). destruct (mapM_res_elem _ _ _ _ Hf Htab) as (l' & Hl' & Hin').
  rewrite (concat_nil _ _ Hc' Hin') in Hl'. apply (check_table_clean _ _ _ hops); auto. apply Hex; [|done].
  apply Hn. apply list_elem_of_In, in_map_iff. exists (n, table). split; [done|]. by apply list_elem_of_In.
Qed.

(** ** A small fabric: two gateways over a satellite *)

Definition example_link (a b : string) : link := Link (a +:+ ("-" +:+ b)) a b "oisl" (Some 5000) (Some 1000000000) None None None None.

Definition example_scenario : scenario := Scenario "" "" [("gw-b", Node "gateway" None None); ("gw-a", Node "gateway" None None); ("sat", Node "satellite" None None)]
  [example_link "gw-a" "sat"; example_link "sat" "gw-a"; example_link "sat" "gw-b"; example_link "gw-b" "sat"]
  [Intent "i1" "gw-a" "gw-b" None "latency" 1 1000000 100 None] None None.

Definition example_fabric : fabric :=
  match init example_scenario "lab" with
  | Ok f => f
  | Err _ => Fabric_ example_scenario None [] [] [] [] [] ("", "") [] [] [] None 0 [] []
  end.

Lemma example_init : init example_scenario "lab" = Ok example_fabric.
Proof. vm_compute. reflexivity. Qed.

Lemma example_built : built example_fabric.
Proof. eapply built_init, example_init. Qed.

Lemma shortest_hops_exact_witness :
  (exists hops, shortest_hops example_fabric "gw-b" [] = Ok hops /\
    forall n, n ∈ dkeys (nodes example_fabric) -> n <> "gw-b" ->
      exists ps, dget hops n = Some ps /\ forall p, p ∈ ps <-> next_hop example_fabric [] "gw-b" n p) /\
  shortest_hops example_fabric "gw-b" [] = Ok [("gw-a", ["sat"]); ("sat", ["gw-b"])].
Proof.
  split; [|vm_compute; reflexivity]. apply shortest_hops_exact; [apply (fabric_init_ok _ _ _ example_init)|].
  apply (bool_decide_unpack _). vm_compute. exact I.
Defined.

Lemma shortest_hops_loop_free_witness : ~ tc (next_hop example_fabric [] "gw-b") "sat" "sat".
Proof. apply shortest_hops_loop_free, (fabric_init_ok _ _ _ example_init). Defined.

Lemma address_plan_witness :
  (forall n s, sid example_fabric n = Ok s -> 16000 <= s <= 23999) /\ hop example_fabric "sat" "gw-b" = Ok "10.128.0.9".
Proof. split; [|vm_compute; reflexivity]. apply (address_plan example_fabric example_built). Defined.

Definition example_tables : list (string * list (string * entry)) :=
  [("gw-a", [("16002", Entry true [Nexthop true (Some "10.128.0.6") (Some 16002)])]);
   ("sat", [("16002", Entry true [Nexthop true (Some "10.128.0.9") (Some 3)])])].

Lemma sr_mismatches_clean_witness : entry_follows example_fabric [] "gw-b" "gw-a" [("16002", Entry true [Nexthop true (Some "10.128.0.6") (Some 16002)])].
Proof.
  apply (sr_mismatches_clean example_fabric example_tables ["gw-b"] []).
  - exact example_built.
  - intros t ->%list_elem_of_singleton. apply (bool_decide_unpack _). vm_compute. exact I.
  - intros n [->|[->|[]%not_elem_of_nil]%elem_of_cons]%elem_of_cons; apply (bool_decide_unpack _); vm_compute; exact I.
  - vm_compute. reflexivity.
  - left.
  - left.
  - discriminate.
Defined.

(** A next hop without a label passes wherever it points: [allowed.get] of an address that
    is not a next hop and the missing label are both [None]. *)
Lemma unlabelled_nexthop_accepted :
  sr_mismatches example_fabric [("sat", [("16002", Entry true [Nexthop true (Some "192.0.2.1") None])])] ["gw-b"] [] = Ok [].
Proof. vm_compute. reflexivity. Qed.

End Fabric.
