(* ===== verification/LiveModel.v ===== *)
(** * LiveModel: the live clock and the dynamic fabric (lab/live/model.py)

    [Clock] is [OrbitClock] over an interface [ContactModel] for the orbit and contact
    models it drives; instants are rationals.  [Live] is [LiveFabric], the subclass of
    [Fabric]: the base object's state, the sorted node names and [last_present]. *)

From S2P Require Import Prelude Bytes Text Channel ShortestPath Fabric.
From Stdlib Require Export QArith Qminmax Lqa.
#[global] Open Scope Z_scope.
#[global] Open Scope list_scope.

(** [a < b] on rationals *)
Definition Qltb (a b : Q) : bool := negb (Qle_bool b a).

(** What the clock asks of [Orbits] and [Contacts]: positions at an offset, and the next
    frame of a contact history. *)
Class ContactModel (S C F : Type) := {
  states : Q -> res S;
  frame : C -> S -> Q -> option S -> res (C * F) }.

Module Clock.

Section Clock.
Context {S C F : Type} `{CM : ContactModel S C F}.

Record config := Config { step_seconds : Q; acquisition_seconds : Q; orbit_source : string }.

Record clock := Clock_ { contacts : C; last_offset : option Q }.

Definition contact_frame (cfg : config) (c : C) (offset : Q) : res (C * F) :=
  let lead := Qmax 30 (3 * step_seconds cfg) in
  let* future := match states (offset + lead)%Q with
    | Ok s => Ok (Some s)
    | Err (ValueError m) => if String.eqb (orbit_source cfg) "oem" then Ok None else Err (ValueError m)
    | Err e => Err e
    end in
  let* s := states offset in
  frame c s offset future.

(** [while cursor < offset - 1e-8: ...] *)
Fixpoint replay (fuel : nat) (cfg : config) (c : C) (cursor offset : Q) : res C :=
  match fuel with
  | O => Err OutOfFuel
  | Datatypes.S fuel' =>
      if Qltb cursor (offset - (1 # 100000000))%Q then
        let* r := contact_frame cfg c cursor in
        replay fuel' cfg r.1 (cursor + step_seconds cfg)%Q offset
      else Ok c
  end.

(** One turn for each whole step between the two offsets, and the one that stops. *)
Definition replay_fuel (cfg : config) (last offset : Q) : nat :=
  Datatypes.S (Z.to_nat (Qceiling ((offset - last) / step_seconds cfg))).

Definition sample (cfg : config) (cl : clock) (offset : Q) : res (clock * F) :=
  let* c := match last_offset cl with
    | Some last =>
        raise (ValueError "live model time must increase") when Qle_bool offset last ;;
        replay (replay_fuel cfg last offset) cfg (contacts cl) (last + step_seconds cfg)%Q offset
    | None =>
        let warmup := Qmax (step_seconds cfg) (acquisition_seconds cfg) in
        let* r := contact_frame cfg (contacts cl) (offset - warmup)%Q in
        Ok r.1
    end in
  let* r := contact_frame cfg c offset in
  Ok (Clock_ r.1 (Some offset), r.2).

(** ** The sampling history *)

(** The [k]-th instant after [last] on the model's clock. *)
Definition instant (cfg : config) (last : Q) (k : nat) : Q := Nat.iter k (fun x => x + step_seconds cfg)%Q (last + step_seconds cfg)%Q.

(** Frames at the instants [k], [k+1], ..., [k+n-1], in order. *)
Definition frames (cfg : config) (last : Q) (c : C) (ks : list nat) : res C :=
  foldM (fun c k => let* r := contact_frame cfg c (instant cfg last k) in Ok r.1) c ks.

Lemma instant_value cfg last k : (instant cfg last k == last + (1 + inject_Z (Z.of_nat k)) * step_seconds cfg)%Q.
Proof.
  unfold instant. induction k as [|k IH]; [cbn; ring|].
  rewrite Nat.iter_succ, IH, Nat2Z.inj_succ, <- Z.add_1_r, inject_Z_plus. change (inject_Z 1) with 1%Q. ring.
Qed.

Lemma Qltb_true a b : Qltb a b = true <-> (a < b)%Q.
Proof. unfold Qltb. rewrite negb_true_iff, <- not_true_iff_false, Qle_bool_iff. split; [apply Qnot_le_lt|apply Qlt_not_le]. Qed.

Lemma replay_from cfg c last offset n k fuel :
  (n < fuel)%nat ->
  (forall i, (i < n)%nat -> (instant cfg last (k + i) < offset - (1 # 100000000))%Q) ->
  ~ (instant cfg last (k + n) < offset - (1 # 100000000))%Q ->
  replay fuel cfg c (instant cfg last k) offset = frames cfg last c (seq k n).
Proof.
  revert c k fuel. induction n as [|n IH]; intros c k fuel Hf Hin Hout; (destruct fuel as [|fuel]; [lia|]);
    cbn [replay seq]; unfold frames; cbn [foldM]; unfold mbind, res_bind.
  - destruct (Qltb _ _) eqn:E; [|done]. apply Qltb_true in E. by rewrite Nat.add_0_r in Hout.
  - destruct (Qltb _ _) eqn:E.
    + destruct (contact_frame cfg c (instant cfg last k)) as [r|]; [|reflexivity].
      change (instant cfg last k + step_seconds cfg)%Q with (instant cfg last (Datatypes.S k)). apply IH; [lia| |].
      * intros i Hi. replace (Datatypes.S k + i)%nat with (k + Datatypes.S i)%nat by lia. apply Hin. lia.
      * by replace (Datatypes.S k + n)%nat with (k + Datatypes.S n)%nat by lia.
    + assert (Qltb (instant cfg last k) (offset - (1 # 100000000))%Q = true); [|congruence].
      apply Qltb_true. replace k with (k + 0)%nat by lia. apply Hin. lia.
Qed.

(** How many of the instants from the [k]-th lie before [limit]. *)
Lemma instants_before cfg last limit (m k : nat) :
  ~ (instant cfg last (k + m) < limit)%Q ->
  exists n, (n <= m)%nat /\ (forall i, (i < n)%nat -> (instant cfg last (k + i) < limit)%Q) /\ ~ (instant cfg last (k + n) < limit)%Q.
Proof.
  revert k. induction m as [|m IH]; intros k H; [exists 0%nat; split_and!; [lia|lia|done]|].
  destruct (Qlt_le_dec (instant cfg last k) limit) as [Hlt|Hle].
  - destruct (IH (Datatypes.S k)) as (n & Hn & Hin & Hout).
    { by replace (Datatypes.S k + m)%nat with (k + Datatypes.S m)%nat by lia. }
    exists (Datatypes.S n). split_and!; [lia| |by replace (k + Datatypes.S n)%nat with (Datatypes.S k + n)%nat by lia].
    intros [|i] Hi; [by rewrite Nat.add_0_r|]. replace (k + Datatypes.S i)%nat with (Datatypes.S k + i)%nat by lia. apply Hin. lia.
  - exists 0%nat. rewrite Nat.add_0_r. split_and!; [lia|lia|by apply Qle_not_lt].
Qed.

Lemma fuel_reaches cfg last offset : (0 < step_seconds cfg)%Q ->
  ~ (instant cfg last (Z.to_nat (Qceiling ((offset - last) / step_seconds cfg))) < offset - (1 # 100000000))%Q.
Proof.
  intros Hs. apply Qle_not_lt. rewrite instant_value. set (q := ((offset - last) / step_seconds cfg)%Q).
  assert (q <= inject_Z (Z.of_nat (Z.to_nat (Qceiling q))))%Q as Hq.
  { eapply Qle_trans; [apply Qle_ceiling|]. rewrite <- Zle_Qle. lia. }
  assert (offset - last == q * step_seconds cfg)%Q as Hqs.
  { unfold q. field. intros E. rewrite E in Hs. by apply Qlt_irrefl in Hs. }
  assert (q * step_seconds cfg <= inject_Z (Z.of_nat (Z.to_nat (Qceiling q))) * step_seconds cfg)%Q as Hm.
  { apply Qmult_le_compat_r; [done|]. by apply Qlt_le_weak. }
  set (z := inject_Z _) in *. lra.
Qed.

(** [sample] after an earlier sample advances the contact history through every
    instant of the model's clock between the two, in order and one step apart, whatever
    wall-clock time was skipped, and then takes the frame of the new offset; the loop ends
    for every positive step. *)
Theorem sample_history cfg cl last offset : last_offset cl = Some last -> (0 < step_seconds cfg)%Q -> (last < offset)%Q ->
  exists n, (forall i, (i < n)%nat -> (instant cfg last i < offset - (1 # 100000000))%Q) /\
    (offset - (1 # 100000000) <= instant cfg last n)%Q /\
    sample cfg cl offset = let* c := frames cfg last (contacts cl) (seq 0 n) in
                           let* r := contact_frame cfg c offset in Ok (Clock_ r.1 (Some offset), r.2).
Proof.
  intros Hl Hs Hlt. destruct (instants_before cfg last (offset - (1 # 100000000))%Q _ 0 (fuel_reaches cfg last offset Hs))
    as (n & Hn & Hin & Hout). exists n. split_and!; [done|by apply Qnot_lt_le|].
  unfold sample. rewrite Hl. replace (Qle_bool offset last) with false.
  - change (last + step_seconds cfg)%Q with (instant cfg last 0). rewrite (replay_from _ _ _ _ n); [done|unfold replay_fuel; lia|done|done].
  - symmetry. apply not_true_iff_false. rewrite Qle_bool_iff. by apply Qlt_not_le.
Qed.

End Clock.

(** A contact model that records the offsets of its frames. *)
Definition recorder : ContactModel unit (list Q) Q :=
  {| states := fun _ => Ok tt; frame := fun c _ offset _ => Ok (c ++ [offset], offset) |}.

Lemma sample_history_witness :
  (exists n, (forall i, (i < n)%nat -> (instant (Config 10 3 "walker") 100 i < 125 - (1 # 100000000))%Q) /\
    (125 - (1 # 100000000) <= instant (Config 10 3 "walker") 100 n)%Q /\
    sample (CM := recorder) (Config 10 3 "walker") (Clock_ [] (Some 100%Q)) 125 =
      let* c := frames (CM := recorder) (Config 10 3 "walker") 100 [] (seq 0 n) in
      let* r := contact_frame (CM := recorder) (Config 10 3 "walker") c 125 in Ok (Clock_ r.1 (Some 125%Q), r.2)) /\
  sample (CM := recorder) (Config 10 3 "walker") (Clock_ [] (Some 100%Q)) 125 = Ok (Clock_ [110; 120; 125]%Q (Some 125%Q), 125%Q).
Proof.
  split; [|vm_compute; reflexivity].
  apply (@sample_history unit (list Q) Q recorder (Config 10 3 "walker") (Clock_ [] (Some 100%Q)) 100 125); reflexivity.
Defined.

End Clock.

Module Live.
Import Fabric.Fabric.

(** ** Data *)

Record live := Live_ { base : fabric; ids : list string; last_present : list (pair_t * Q) }.

Definition pair_index (a b : string) (ids : list string) : res Z :=
  let* x := index_of a ids in
  let* y := index_of b ids in
  let i := Z.min x y in
  let j := Z.max x y in
  raise (ValueError "self link") when (i =? j) ;;
  Ok (i * (2 * len ids - i - 1) / 2 + j - i).

Definition binding_for (ids : list string) (a b : string) : res binding :=
  let key := sorted_pair a b in
  let* k := pair_index a b ids in
  let* e0 := ip "10.128.0.0" (4 * k + 1) in
  let* e1 := ip "10.128.0.0" (4 * k + 2) in
  Ok (Binding k ("sf" +:+ pretty k) 1 (dict_of [(key.1, e0); (key.2, e1)])).

(** [self.adjacency[a][b] = self.adjacency[b][a] = value] *)
Definition connect (adj : list (string * list (string * pair_t))) (a b : string) (key : pair_t) :
    res (list (string * list (string * pair_t))) :=
  let* pa := or_raise KeyError (dget adj a) in
  let adj := dset adj a (dset pa b key) in
  let* pb := or_raise KeyError (dget adj b) in
  Ok (dset adj b (dset pb a key)).

(** The scenario with the values of [directed] as its links, and the new link tables. *)
Definition with_graph (f : fabric) (ls : list (pair_t * binding)) (adj : list (string * list (string * pair_t)))
    (dir : list (pair_t * link)) (topology : list link) : fabric :=
  let sc := scen f in
  Fabric_ (Scenario (scenario_id sc) (description sc) (s_nodes sc) topology (s_intents sc) (s_profile sc) (s_physical sc))
    (network_profile f) (nodes f) (satellites f) (gateways f) (ordinal f) (by_system_id f) (pair f) ls adj dir
    (physical_model f) (queue_limit f) (service_addresses f) (gateway_intents f).

Definition with_nodes (f : fabric) (ns : list (string * node)) : fabric :=
  let sc := scen f in
  Fabric_ (Scenario (scenario_id sc) (description sc) ns (s_links sc) (s_intents sc) (s_profile sc) (s_physical sc))
    (network_profile f) ns (satellites f) (gateways f) (ordinal f) (by_system_id f) (pair f) (links f) (adjacency f)
    (directed f) (physical_model f) (queue_limit f) (service_addresses f) (gateway_intents f).

(** The labels the controller derives the next hops from. *)
Definition label_node (count : Z) (ns : list (string * node)) (item : nat * string) : res (list (string * node)) :=
  let (i, name) := item in
  let* n := or_raise KeyError (dget ns name) in
  let* ls := or_raise KeyError (labels n) in
  let kept := List.filter (fun kv : string * string => negb (startswith kv.1 "next_hop:")) ls in
  let ls' := dupdate kept [("next_hop_scheme", "live-pair-v1"); ("next_hop_index", pretty (Z.of_nat i)); ("next_hop_nodes", pretty count)] in
  Ok (dset ns name (Node (kind n) (node_loopback n) (Some ls'))).

(** ** [__init__] *)

Definition rebind (ids : list string) (st : graph) (key : pair_t) : res graph :=
  let* v := binding_for ids key.1 key.2 in
  let* adj := connect st.2 key.1 key.2 key in
  Ok (dset st.1 key v, adj).

Definition init (sc : scenario) (identifier : string) : res live :=
  let* f := Fabric.Fabric.init sc identifier in
  let names := sorted_strings (dkeys (nodes f)) in
  raise (ValueError "live address pool currently supports at most 255 nodes") when (255 <? len names) ;;
  let* (ls, adj) := foldM (rebind names) (links f, adjacency f) (dkeys (links f)) in
  let* ns := foldM (label_node (len names)) (nodes f) (enumerate names) in
  Ok (Live_ (with_nodes (with_graph f ls adj (directed f) (s_links (scen f))) ns) names []).

(** ** Dynamic links *)

(** [dict(link, operational_up=False, acquisition_state='unavailable')] *)
Definition down (l : link) : link :=
  Link (link_id l) (source l) (target l) (link_type l) (latency_us l) (capacity_bps l) (loss_ppm l) (admin_up l)
    (Some false) (Some "unavailable").

Record reg := Reg { r_live : live; r_added : list pair_t }.

Definition register_link (tick : Q) (st : reg) (l : link) : res reg :=
  let lv := r_live st in
  let f := base lv in
  let a := source l in
  let b := target l in
  let key := sorted_pair a b in
  let present := dset (last_present lv) key tick in
  let* (ls, adj, added) := if dhas (links f) key then Ok (links f, adjacency f, r_added st) else
    let* v := binding_for (ids lv) a b in
    let* adj := connect (adjacency f) a b key in
    Ok (dset (links f) key v, adj, r_added st ++ [key]) in
  let dir := if dhas (directed f) (a, b) then directed f else dset (directed f) (a, b) (down l) in
  Ok (Reg (Live_ (with_graph f ls adj dir (s_links (scen f))) (ids lv) present) added).

(** [self.scenario['topology']['links'] = list(self.directed.values())] *)
Definition publish_links (lv : live) : live :=
  let f := base lv in
  Live_ (with_graph f (links f) (adjacency f) (directed f) (dvalues (directed f))) (ids lv) (last_present lv).

Definition register (lv : live) (frame : list link) (tick : Q) : res (live * list pair_t) :=
  let* st := foldM (register_link tick) (Reg lv []) frame in
  Ok (publish_links (r_live st), r_added st).

Definition desired (lv : live) (frame : list link) : list link :=
  let values := dict_of (map (fun v => (link_id v, v)) frame) in
  map (fun v => match dget values (link_id v) with Some w => w | None => down v end) (dvalues (directed (base lv))).

Definition is_up (f : fabric) (p : pair_t) : res bool :=
  let* l := or_raise KeyError (dget (directed f) p) in or_raise KeyError (operational_up l).

Definition flip (p : pair_t) : pair_t := (p.2, p.1).

(** [not any(self.directed[p]['operational_up'] for p in (pair, pair[::-1]))] *)
Definition both_down (f : fabric) (p : pair_t) : res bool :=
  let* x := is_up f p in
  if (x : bool) then Ok false else let* y := is_up f (flip p) in Ok (negb y).

Definition expired (lv : live) (tick retention : Q) : res (list pair_t) :=
  filterM (fun p =>
      let last := match dget (last_present lv) p with Some t => t | None => tick end in
      if Qltb retention (tick - last)%Q then both_down (base lv) p else Ok false) (dkeys (links (base lv))).

(** [d.pop(k)] *)
Definition pop {K V} `{EqDecision K} (d : list (K * V)) (k : K) : res (list (K * V)) :=
  if dhas d k then Ok (dpop d k) else Err KeyError.

(** [self.adjacency[a].pop(b)] *)
Definition disconnect (adj : list (string * list (string * pair_t))) (a b : string) :
    res (list (string * list (string * pair_t))) :=
  let* pa := or_raise KeyError (dget adj a) in
  let* pa' := pop pa b in
  Ok (dset adj a pa').

Definition forget_pair (lv : live) (p : pair_t) : res live :=
  let (a, b) := p in
  let f := base lv in
  let* ls := pop (links f) (a, b) in
  let* adj := disconnect (adjacency f) a b in
  let* adj := disconnect adj b a in
  let* dir := pop (directed f) (a, b) in
  let* dir := pop dir (b, a) in
  Ok (Live_ (with_graph f ls adj dir (s_links (scen f))) (ids lv) (dpop (last_present lv) (a, b))).

Definition forget (lv : live) (pairs : list pair_t) : res live :=
  let* lv' := foldM forget_pair lv pairs in Ok (publish_links lv').

(** ** Configuration *)

(** [s.replace(old, new)]; [old] is not empty. *)
Fixpoint replace_go (fuel : nat) (old new s : string) : string :=
  match fuel with
  | O => s
  | S fuel' =>
      if startswith s old then new +:+ replace_go fuel' old new (drop_str (String.length old) s)
      else match s with "" => "" | String c s' => String c (replace_go fuel' old new s') end
  end.

Definition replace (old new s : string) : string := replace_go (S (String.length s)) old new s.

(** [s.split()] of a line whose only white space is spaces *)
Definition words (s : string) : list string := List.filter (fun w => negb (String.eqb w "")) (split_on (ch 32) s).

(** The loop of [bgp_config]: the lines kept so far and the address family open. *)
Definition filter_line (f : fabric) (n : string) (st : list string * option string) (line : string) :
    res (list string * option string) :=
  let (result, family) := st in
  let family := if startswith line "address-family " then Some (drop_str 15 line)
                else if String.eqb line "exit-address-family" then None else family in
  let* skip := if bool_decide (family = Some "link-state link-state") && endswith line " activate" then
      if negb (mem n [(pair f).1; (pair f).2]) then Ok true else
      let* lo := loopback f (if String.eqb n (pair f).1 then (pair f).2 else (pair f).1) in
      Ok (negb (String.eqb line ("neighbor " +:+ (lo +:+ " activate"))))
    else Ok false in
  if (skip : bool) then Ok (result, family) else
  Ok (result ++ [line]
      ++ if_ (endswith line " update-source lo") [join " " (take 2 (words line)) +:+ " timers connect 5"], family).

Definition bgp_config (f : fabric) (n : string) : res (list string) :=
  let* lines := Fabric.Fabric.bgp_config f n in
  let* st := foldM (filter_line f n) ([], None) lines in
  Ok st.1.

Definition config (lv : live) (n : string) : res string :=
  let f := base lv in
  let* c := config_by bgp_config f n in
  let c := replace "timers throttle spf 0 50 500" "timers throttle spf 2000 5000 15000" c in
  if bool_decide (network_profile f <> None) && enabled f "isis" then Ok c else
  Ok (replace ("spf-interval 1" +:+ newline) ("spf-interval 5" +:+ newline) c).

(** [str(v / 8)], below 2^53 *)
Definition eighths (v : Z) : string :=
  let fraction := (v mod 8) * 125 in
  pretty (v / 8) +:+ ("." +:+
    (if fraction mod 100 =? 0 then digits 1 (fraction / 100)
     else if fraction mod 10 =? 0 then digits 2 (fraction / 10) else digits 3 fraction)).

Definition interface_commands (lv : live) (a b : string) : res (list string) :=
  let f := base lv in
  match network_profile f with
  | Some _ =>
      let* lines := selected_interface f a b in
      if enabled f "ldp" then
        let* name := interface f a b in
        Ok (lines ++ ["mpls ldp"; "address-family ipv4"; "interface " +:+ name; "exit"; "exit-address-family"; "exit"])
      else Ok lines
  | None =>
      let* l := or_raise KeyError (dget (links f) (sorted_pair a b)) in
      let* c := port_capacity f a b in
      Ok (["interface " +:+ ifname l; "ip router isis SF"] ++ isis_lines 1 ++ ospf_lines 1
          ++ ["link-params"; "max-bw " +:+ eighths c; "exit-link-params"; "exit";
              "mpls ldp"; "address-family ipv4"; "interface " +:+ ifname l; "exit"; "exit-address-family"; "exit"])
  end.

(** ** The address of a pair *)

Lemma index_of_Ok x l i : index_of x l = Ok i -> 0 <= i < len l /\ l !! Z.to_nat i = Some x.
Proof.
  unfold index_of. destruct (list_find (fun y => y = x) l) as [[j y]|] eqn:E; [|done]. intros [= <-].
  apply list_find_Some in E as (Hj & -> & _). rewrite Nat2Z.id. split; [|done]. apply lookup_lt_Some in Hj. unfold len. lia.
Qed.

(** The row of the triangle of pairs that [i] opens ends before the next one begins. *)
Lemma triangle_rows n i j i' j' :
  0 <= i < j -> j < n -> 0 <= i' < j' -> j' < n -> i < i' ->
  i * (2 * n - i - 1) / 2 + j - i < i' * (2 * n - i' - 1) / 2 + j' - i'.
Proof.
  intros Hi Hj Hi' Hj' Hlt.
  assert (i * (2 * n - i - 1) / 2 + (n - 1 - i) <= i' * (2 * n - i' - 1) / 2); [|lia].
  replace (i * (2 * n - i - 1) / 2 + (n - 1 - i)) with ((i + 1) * (2 * n - (i + 1) - 1) / 2).
  - apply Z.div_le_mono; [lia|]. nia.
  - replace ((i + 1) * (2 * n - (i + 1) - 1)) with (i * (2 * n - i - 1) + (n - 1 - i) * 2) by ring. by rewrite Z.div_add by lia.
Qed.

Lemma pair_index_bounds a b ids k : pair_index a b ids = Ok k -> 1 <= k <= len ids * (len ids - 1) / 2.
Proof.
  unfold pair_index. rewrite bind_Ok. intros (x & [Hx _]%index_of_Ok & H). apply bind_Ok in H as (y & [Hy _]%index_of_Ok & H).
  revert H. split_guard. intros [= <-]. bool_to_prop. set (n := len ids) in *.
  assert (0 <= Z.min x y < Z.max x y) as Hij by lia. assert (Z.max x y < n) as Hj by lia.
  set (i := Z.min x y) in *. set (j := Z.max x y) in *. clearbody i j n. split.
  - assert (0 <= i * (2 * n - i - 1) / 2); [apply Z.div_pos; nia|lia].
  - apply Z.div_le_lower_bound; [lia|]. assert (2 * (i * (2 * n - i - 1) / 2) <= i * (2 * n - i - 1)) by (apply Z.mul_div_le; lia). nia.
Qed.

Lemma pair_index_inj a b c d ids k : pair_index a b ids = Ok k -> pair_index c d ids = Ok k -> sorted_pair a b = sorted_pair c d.
Proof.
  unfold pair_index. rewrite !bind_Ok. intros (x & [Hx Ha]%index_of_Ok & H) (x' & [Hx' Hc]%index_of_Ok & H').
  apply bind_Ok in H as (y & [Hy Hb]%index_of_Ok & H). apply bind_Ok in H' as (y' & [Hy' Hd]%index_of_Ok & H').
  revert H H'. split_guard. intros [= Hk]. split_guard. intros [= Hk']. bool_to_prop.
  assert (Z.min x y = Z.min x' y') as Emin.
  { destruct (Z.lt_trichotomy (Z.min x y) (Z.min x' y')) as [Hlt|[|Hlt]]; [|done|].
    - pose proof (triangle_rows (len ids) (Z.min x y) (Z.max x y) (Z.min x' y') (Z.max x' y')). lia.
    - pose proof (triangle_rows (len ids) (Z.min x' y') (Z.max x' y') (Z.min x y) (Z.max x y)). lia. }
  assert (Z.max x y = Z.max x' y') as Emax by (rewrite Emin in Hk; lia).
  assert ((x = x' /\ y = y') \/ (x = y' /\ y = x')) as [[-> ->]|[-> ->]] by lia.
  - congruence.
  - rewrite sorted_pair_sym. congruence.
Qed.

Lemma pair_index_sym a b ids k : pair_index a b ids = Ok k -> pair_index b a ids = Ok k.
Proof.
  unfold pair_index. rewrite !bind_Ok. intros (x & Hx & H). apply bind_Ok in H as (y & Hy & H). exists y. split; [done|].
  apply bind_Ok. exists x. split; [done|]. by rewrite (Z.min_comm y x), (Z.max_comm y x).
Qed.

Lemma binding_for_key ids a b v : binding_for ids a b = Ok v -> binding_for ids (sorted_pair a b).1 (sorted_pair a b).2 = Ok v.
Proof.
  unfold binding_for. rewrite <- sorted_pair_idem. rewrite !bind_Ok. intros (k & Hk & H). exists k. split; [|done].
  unfold sorted_pair. destruct (String.leb a b); [done|]. by apply pair_index_sym.
Qed.

Lemma binding_index ids a b v : binding_for ids a b = Ok v -> pair_index a b ids = Ok (index v).
Proof.
  unfold binding_for. rewrite bind_Ok. intros (k & Hk & H). apply bind_Ok in H as (e0 & _ & H). apply bind_Ok in H as (e1 & _ & [= <-]). done.
Qed.

(** ** Reachable live fabrics *)

Inductive live_built : live -> Prop :=
| live_init sc identifier lv : init sc identifier = Ok lv -> live_built lv
| live_register lv frame tick lv' added : live_built lv -> register lv frame tick = Ok (lv', added) -> live_built lv'
| live_forget lv pairs lv' : live_built lv -> forget lv pairs = Ok lv' -> live_built lv'
| live_links lv ls f' : live_built lv -> (forall l, l ∈ ls -> dhas (links (base lv)) (sorted_pair (source l) (target l)) = true) ->
    set_links (base lv) ls = Ok f' -> live_built (Live_ f' (ids lv) (last_present lv)).

(** The addresses of each link object are those of its pair, and no direction outlives its link. *)
Record live_ok (lv : live) : Prop := {
  lo_keys k b : dget (links (base lv)) k = Some b -> k = sorted_pair k.1 k.2 /\
    exists v, binding_for (ids lv) k.1 k.2 = Ok v /\ index b = index v /\ ifname b = ifname v /\ endpoints b = endpoints v;
  lo_directed n p : dhas (directed (base lv)) (n, p) = true -> dhas (links (base lv)) (sorted_pair n p) = true;
  lo_links : d_ok (links (base lv));
  lo_dir : d_ok (directed (base lv));
  lo_size : len (ids lv) <= 255 }.

Lemma dhas_dset {K V} `{EqDecision K} (d : list (K * V)) k v k' : dhas (dset d k v) k' = bool_decide (k' = k) || dhas d k'.
Proof. unfold dhas. rewrite dget_dset. case_decide; case_bool_decide; done. Qed.

Lemma dhas_dpop {K V} `{EqDecision K} (d : list (K * V)) k k' : dhas (dpop d k) k' = negb (bool_decide (k' = k)) && dhas d k'.
Proof. unfold dhas. rewrite dget_dpop. case_decide; case_bool_decide; done. Qed.

Lemma register_link_ok tick st l st' : live_ok (r_live st) -> register_link tick st l = Ok st' -> live_ok (r_live st').
Proof.
  intros [L1 L2 L3 L4 L5]. unfold register_link. rewrite bind_Ok. intros ([[ls adj] added] & Hg & [= <-]). simpl.
  assert (d_ok ls /\ dhas ls (sorted_pair (source l) (target l)) = true /\
    (forall k, dhas (links (base (r_live st))) k = true -> dhas ls k = true) /\
    forall k b, dget ls k = Some b -> k = sorted_pair k.1 k.2 /\
    exists v, binding_for (ids (r_live st)) k.1 k.2 = Ok v /\ index b = index v /\ ifname b = ifname v /\ endpoints b = endpoints v)
    as (G1 & G2 & G3 & G4).
  { destruct (dhas (links (base (r_live st))) (sorted_pair (source l) (target l))) eqn:Eh.
    - by injection Hg as <- <- <-.
    - apply bind_Ok in Hg as (v & Hv & Hg). apply bind_Ok in Hg as (adj' & _ & [= <- <- <-]). split_and!.
      + by apply d_ok_dset.
      + rewrite dhas_dset. by rewrite bool_decide_true.
      + intros k Hk. rewrite dhas_dset, Hk. apply orb_true_r.
      + intros k b. rewrite dget_dset. case_decide as E; [|apply L1]. intros [= <-]. subst k. split; [apply sorted_pair_idem|].
        exists v. split_and!; try done. by apply binding_for_key. }
  constructor; simpl; try done.
  - intros n p. destruct (dhas (directed (base (r_live st))) (source l, target l)) eqn:Ed; [intros H; by apply G3, L2|].
    rewrite dhas_dset. case_bool_decide as E; [injection E as -> ->; done|]. intros H. by apply G3, L2.
  - destruct (dhas (directed (base (r_live st))) (source l, target l)); [done|]. by apply d_ok_dset.
Qed.

Lemma publish_links_ok lv : live_ok lv -> live_ok (publish_links lv).
Proof. intros [L1 L2 L3 L4 L5]. by constructor. Qed.

Lemma register_ok lv frame tick lv' added : live_ok lv -> register lv frame tick = Ok (lv', added) -> live_ok lv'.
Proof.
  intros L. unfold register. rewrite bind_Ok. intros (st & Hst & [= <- <-]). apply publish_links_ok.
  eapply (foldM_inv (fun st => live_ok (r_live st)) _ _ (Reg lv [])); [|exact L|exact Hst]. intros. by eapply register_link_ok.
Qed.

Lemma pop_Ok {K V} `{EqDecision K} (d d' : list (K * V)) k : pop d k = Ok d' -> d' = dpop d k /\ is_Some (dget d k).
Proof. unfold pop, dhas. destruct (dget d k); [by intros [= <-]|done]. Qed.

Lemma forget_pair_ok lv p lv' : live_ok lv -> forget_pair lv p = Ok lv' -> live_ok lv'.
Proof.
  destruct p as [a b]. intros [L1 L2 L3 L4 L5]. unfold forget_pair. rewrite bind_Ok. intros (ls & [-> [v0 Hp]]%pop_Ok & H).
  apply L1 in Hp as [Hp _]. simpl in Hp.
  apply bind_Ok in H as (adj & _ & H). apply bind_Ok in H as (adj' & _ & H). apply bind_Ok in H as (dir & [-> _]%pop_Ok & H).
  apply bind_Ok in H as (dir' & [-> _]%pop_Ok & [= <-]). constructor; simpl.
  - intros k v. rewrite dget_dpop. case_decide; [done|]. apply L1.
  - intros n q. rewrite !dhas_dpop, !andb_true_iff, !negb_true_iff, !bool_decide_eq_false. intros (Hba & Hab & Hd).
    split; [|by apply L2]. intros E. rewrite Hp in E. unfold sorted_pair in E, Hp.
    destruct (String.leb a b), (String.leb n q); simplify_eq; congruence.
  - by apply d_ok_dpop.
  - by repeat apply d_ok_dpop.
  - done.
Qed.

Lemma forget_ok lv pairs lv' : live_ok lv -> forget lv pairs = Ok lv' -> live_ok lv'.
Proof.
  intros L. unfold forget. rewrite bind_Ok. intros (lv1 & H1 & [= <-]). apply publish_links_ok.
  eapply (foldM_inv live_ok); [|exact L|exact H1]. intros. by eapply forget_pair_ok.
Qed.

(** A pair that is forgotten was down both ways, so a contact that carries traffic stays. *)
Lemma expired_down lv tick retention pairs p : expired lv tick retention = Ok pairs -> p ∈ pairs -> both_down (base lv) p = Ok true.
Proof.
  unfold expired. revert pairs. induction (dkeys (links (base lv))) as [|q l IH]; intros pairs; cbn [filterM]; [intros [= <-] ?%not_elem_of_nil; done|].
  rewrite bind_Ok. intros (b & Hb & H). apply bind_Ok in H as (rest & Hr & [= <-]). intros Hp. destruct b; [|by apply (IH rest)].
  apply elem_of_cons in Hp as [->|Hp]; [|by apply (IH rest)]. destruct (Qltb _ _); [done|by injection Hb].
Qed.

Lemma both_down_inactive f p a b : both_down f p = Ok true -> (a, b) = p \/ (a, b) = flip p -> active f a b <> Ok true.
Proof.
  assert (forall q, is_up f q = Ok false -> active f q.1 q.2 <> Ok true) as Hup.
  { intros [x y]. unfold is_up, active. simpl. destruct (dget (directed f) (x, y)) as [l|]; simpl_res; [|done]. destruct (operational_up l) as [[]|]; simpl_res; [done| |done]. by rewrite andb_false_r. }
  unfold both_down. rewrite bind_Ok. intros (x & Hx & H). destruct x; [done|]. apply bind_Ok in H as (y & Hy & [= E]). destruct y; [done|].
  intros [<-|E2]; [exact (Hup _ Hx)|]. rewrite <- E2 in Hy. exact (Hup _ Hy).
Qed.

Lemma forget_keeps lv pairs lv' a b : forget lv pairs = Ok lv' -> (a, b) ∉ pairs -> (b, a) ∉ pairs -> dget (directed (base lv')) (a, b) = dget (directed (base lv)) (a, b).
Proof.
  unfold forget. rewrite bind_Ok. intros (lv1 & H & [= <-]) H1 H2. change (dget (directed (base lv1)) (a, b) = dget (directed (base lv)) (a, b)).
  apply (foldM_inv (fun s => dget (directed (base s)) (a, b) = dget (directed (base lv)) (a, b))) in H; [done| |done]. clear H lv1. intros s [x y] s' Hin IH. unfold forget_pair.
  rewrite bind_Ok. intros (ls & _ & H). apply bind_Ok in H as (adj & _ & H). apply bind_Ok in H as (adj' & _ & H). apply bind_Ok in H as (dir & [-> _]%pop_Ok & H). apply bind_Ok in H as (dir' & [-> _]%pop_Ok & [= <-]).
  simpl. rewrite !dget_dpop, !decide_False; [done|by intros [= -> ->]..].
Qed.

Lemma links_ok lv ls f' : live_ok lv ->
  (forall l, l ∈ ls -> dhas (links (base lv)) (sorted_pair (source l) (target l)) = true) ->
  set_links (base lv) ls = Ok f' -> live_ok (Live_ f' (ids lv) (last_present lv)).
Proof.
  intros [L1 L2 L3 L4 L5] Hls Hs. destruct (set_links_inv _ _ _ Hs) as (_ & _ & _ & Hd & Hl). pose proof (same_keys _ _ Hl) as Hk.
  constructor; simpl; rewrite ?Hd.
  - intros k b Hb. pose proof Hb as (i & Hi)%dget_Some_lookup. destruct (Forall2_lookup_r _ _ _ _ _ Hl Hi) as ([k' b'] & Hi' & E1 & E2 & E3 & E4 & _).
    simpl in E1, E2, E3, E4. subst k'. assert (dget (links (base lv)) k = Some b') as Hb'.
    { apply dget_in_ok; [done|]. by eapply list_elem_of_lookup_2. }
    destruct (L1 _ _ Hb') as (? & v & Hv & ? & ? & ?). split; [done|]. exists v. split_and!; [done|congruence..].
  - intros n p Hnp. apply dhas_true. rewrite Hk. apply dhas_true. apply dhas_true in Hnp. unfold direct in Hnp. rewrite elem_of_dkeys_dict_of in Hnp.
    rewrite map_map in Hnp. apply list_elem_of_In, in_map_iff in Hnp as (l & [= <- <-] & Hin). by apply Hls, list_elem_of_In.
  - unfold d_ok. by rewrite Hk.
  - apply d_ok_dict_of.
  - done.
Qed.

(** The loop of [__init__] replaces each link object by the one of its pair. *)
Lemma rebind_all names keys st st' : d_ok st.1 -> (forall k, k ∈ keys -> k ∈ dkeys st.1) ->
  foldM (rebind names) st keys = Ok st' ->
  d_ok st'.1 /\ dkeys st'.1 = dkeys st.1 /\
  forall k b, dget st'.1 k = Some b -> binding_for names k.1 k.2 = Ok b \/ ((k ∉ keys) /\ dget st.1 k = Some b).
Proof.
  revert st. induction keys as [|key keys IH]; intros st Hd Hk; cbn [foldM].
  - intros [= <-]. split_and!; try done. intros k b Hb. right. split; [apply not_elem_of_nil|done].
  - rewrite bind_Ok. intros (st1 & H1 & H2). apply bind_Ok in H1 as (v & Hv & H1). apply bind_Ok in H1 as (adj & _ & [= <-]).
    assert (dkeys (dset st.1 key v) = dkeys st.1) as Ek by (rewrite dkeys_dset, decide_True; [done|apply Hk; left]).
    destruct (IH (dset st.1 key v, adj) ltac:(by apply d_ok_dset) ltac:(intros k Hin; simpl; rewrite Ek; apply Hk; by right) H2) as (D & K & B).
    simpl in *. split_and!; [done|congruence|]. intros k b Hb. destruct (B _ _ Hb) as [?|[Hn Hg]]; [by left|].
    rewrite dget_dset in Hg. case_decide as E; [injection Hg as <-; subst; by left|]. right. split; [|done].
    rewrite not_elem_of_cons. done.
Qed.

Lemma live_init_ok sc identifier lv : init sc identifier = Ok lv -> live_ok lv.
Proof.
  unfold init. rewrite bind_Ok. intros (f & Hf & H). revert H. split_guard. rewrite bind_Ok. intros ([ls adj] & Hr & H).
  apply bind_Ok in H as (ns & _ & [= <-]). destruct (init_inv _ _ _ Hf) as (G & _ & _ & Hd & _). destruct G as [G1 G2 _ _ G5 G6].
  simpl in G1, G5. destruct (rebind_all _ _ (links f, adjacency f) _ G1 ltac:(done) Hr) as (D & K & B). simpl in D, K, B. bool_to_prop. constructor; simpl.
  - intros k b Hb. assert (k ∈ dkeys (links f)) as Hin by (rewrite <- K; apply dget_is_Some; by eexists). split.
    + apply dget_is_Some in Hin as [b' Hb']. by eapply G5.
    + exists b. destruct (B _ _ Hb) as [?|[Hn _]]; [done|by destruct Hn].
  - intros n p Hnp. apply dhas_true. rewrite K. rewrite Hd in Hnp. apply dhas_true in Hnp. unfold direct in Hnp.
    rewrite elem_of_dkeys_dict_of, map_map in Hnp. simpl in Hnp. apply list_elem_of_In, in_map_iff in Hnp as (l & [= <- <-] & Hin).
    by eapply init_links, list_elem_of_In.
  - done.
  - rewrite Hd. apply d_ok_dict_of.
  - lia.
Qed.

Lemma live_built_ok lv : live_built lv -> live_ok lv.
Proof.
  induction 1 as [sc identifier lv H|lv frame tick lv' added _ IH H|lv pairs lv' _ IH H|lv ls f' _ IH Hl H].
  - by eapply live_init_ok.
  - by eapply register_ok.
  - by eapply forget_ok.
  - by eapply links_ok.
Qed.

(** Each neighbour is reached by the link object of its pair. *)
Definition adj_ok (adj : list (string * list (string * pair_t))) : Prop :=
  forall n peers p key, dget adj n = Some peers -> dget peers p = Some key -> key = sorted_pair n p.

Lemma adj_ok_dset adj a b peers key : adj_ok adj -> dget adj a = Some peers -> key = sorted_pair a b -> adj_ok (dset adj a (dset peers b key)).
Proof.
  intros Ha Hp Hk n peers' p key'. rewrite dget_dset. case_decide as E; [|apply Ha]. intros [= <-]. rewrite dget_dset. subst n.
  case_decide as E; [intros [= <-]; by subst|by apply Ha].
Qed.

Lemma connect_ok adj a b key adj' : adj_ok adj -> key = sorted_pair a b -> connect adj a b key = Ok adj' -> adj_ok adj'.
Proof.
  intros Ha Hk. unfold connect. rewrite bind_Ok. intros (pa & Hpa%or_raise_Ok & H). apply bind_Ok in H as (pb & Hpb%or_raise_Ok & [= <-]).
  apply adj_ok_dset; [by apply adj_ok_dset|done|]. by rewrite sorted_pair_sym.
Qed.

Lemma disconnect_ok adj a b adj' : adj_ok adj -> disconnect adj a b = Ok adj' -> adj_ok adj'.
Proof.
  intros Ha. unfold disconnect. rewrite bind_Ok. intros (pa & Hpa%or_raise_Ok & H). apply bind_Ok in H as (pa' & [-> _]%pop_Ok & [= <-]).
  intros n peers p key. rewrite dget_dset. case_decide as E; [|apply Ha]. intros [= <-]. rewrite dget_dpop. subst n. case_decide; [done|by apply Ha].
Qed.

Lemma live_built_adj lv : live_built lv -> adj_ok (adjacency (base lv)).
Proof.
  induction 1 as [sc identifier lv H|lv frame tick lv' added _ IH H|lv pairs lv' _ IH H|lv ls f' _ IH Hl H].
  - revert H. unfold init. rewrite bind_Ok. intros (f & Hf & H). revert H. split_guard. rewrite bind_Ok. intros ([ls adj] & Hr & H).
    apply bind_Ok in H as (ns & _ & [= <-]). destruct (init_inv _ _ _ Hf) as (G & _). pose proof (fabric_init_ok _ _ _ Hf) as O. simpl.
    change adj with (ls, adj).2. eapply (foldM_inv (fun g : graph => adj_ok g.2)); [|simpl|exact Hr]; simpl.
    + intros g key g' Hkey Ha Hg. apply bind_Ok in Hg as (v & _ & Hg). apply bind_Ok in Hg as (adj' & Hc & [= <-]). simpl.
      eapply connect_ok; [exact Ha| |exact Hc]. apply dget_is_Some in Hkey as [b Hb]. destruct G as [_ _ _ _ G5 _]. by eapply G5.
    + intros n peers p key Hn Hp. by destruct (ok_peer _ O _ _ _ _ Hn Hp).
  - revert H. unfold register. rewrite bind_Ok. intros (st & Hst & [= <- <-]). simpl.
    eapply (foldM_inv (fun st => adj_ok (adjacency (base (r_live st)))) _ _ (Reg lv [])); [|exact IH|exact Hst].
    intros st0 l st' _ Ha. unfold register_link. rewrite bind_Ok. intros ([[ls adj] added'] & Hg & [= <-]). simpl.
    destruct (dhas _ _); [by injection Hg as <- <- <-|]. apply bind_Ok in Hg as (v & _ & Hg). apply bind_Ok in Hg as (adj' & Hc & [= <- <- <-]).
    by eapply connect_ok.
  - revert H. unfold forget. rewrite bind_Ok. intros (lv1 & H1 & [= <-]). simpl. eapply (foldM_inv (fun lv => adj_ok (adjacency (base lv)))); [|exact IH|exact H1].
    intros lv0 [a b] lv2 _ Ha. unfold forget_pair. rewrite bind_Ok. intros (ls & _ & H). apply bind_Ok in H as (adj & Hd & H).
    apply bind_Ok in H as (adj' & Hd' & H). apply bind_Ok in H as (dir & _ & H). apply bind_Ok in H as (dir' & _ & [= <-]). simpl.
    eapply disconnect_ok; [|exact Hd']. by eapply disconnect_ok.
  - destruct (set_links_inv _ _ _ H) as (_ & Ha & _). simpl. by rewrite Ha.
Qed.

Lemma live_built_cost lv k b : live_built lv -> dget (links (base lv)) k = Some b -> 1 <= cost b <= 65535.
Proof.
  intros H. revert k b. induction H as [sc identifier lv H|lv frame tick lv' added L IH H|lv pairs lv' L IH H|lv ls f' L IH Hl H]; intros k b Hb.
  - revert H. unfold init. rewrite bind_Ok. intros (f & Hf & H). revert H. split_guard. rewrite bind_Ok. intros ([ls adj] & Hr & H).
    apply bind_Ok in H as (ns & _ & [= <-]). destruct (init_inv _ _ _ Hf) as (G & _). destruct G as [G1 _ _ _ _ _]. simpl in G1, Hb.
    destruct (rebind_all _ _ (links f, adjacency f) _ G1 ltac:(done) Hr) as (D & K & B). simpl in K, B.
    destruct (B _ _ Hb) as [Hv|[Hn _]]; [|destruct Hn; rewrite <- K; apply dget_is_Some; by eexists].
    revert Hv. unfold binding_for. rewrite bind_Ok. intros (i & _ & H). apply bind_Ok in H as (e0 & _ & H). apply bind_Ok in H as (e1 & _ & [= <-]). simpl. lia.
  - revert H Hb. unfold register. rewrite bind_Ok. intros (st & Hst & [= <- <-]). simpl. revert k b.
    eapply (foldM_inv (fun st => forall k b, dget (links (base (r_live st))) k = Some b -> 1 <= cost b <= 65535) _ _ (Reg lv [])); [|exact IH|exact Hst].
    intros st0 l st' _ Ha. unfold register_link. rewrite bind_Ok. intros ([[ls adj] added'] & Hg & [= <-]) k b. simpl.
    destruct (dhas _ _); [injection Hg as <- <- <-; apply Ha|]. apply bind_Ok in Hg as (v & Hv & Hg). apply bind_Ok in Hg as (adj' & Hc & [= <- <- <-]).
    rewrite dget_dset. case_decide; [|apply Ha]. intros [= <-]. revert Hv. unfold binding_for. rewrite bind_Ok. intros (i & _ & Hb).
    apply bind_Ok in Hb as (e0 & _ & Hb). apply bind_Ok in Hb as (e1 & _ & [= <-]). simpl. lia.
  - revert H Hb. unfold forget. rewrite bind_Ok. intros (lv1 & H1 & [= <-]). simpl. revert k b.
    eapply (foldM_inv (fun lv => forall k b, dget (links (base lv)) k = Some b -> 1 <= cost b <= 65535)); [|exact IH|exact H1].
    intros lv0 [a c] lv2 _ Ha. unfold forget_pair. rewrite bind_Ok. intros (ls & [-> _]%pop_Ok & H). apply bind_Ok in H as (adj & Hd & H).
    apply bind_Ok in H as (adj' & Hd' & H). apply bind_Ok in H as (dir & _ & H). apply bind_Ok in H as (dir' & _ & [= <-]). simpl.
    intros k b. rewrite dget_dpop. case_decide; [done|apply Ha].
  - destruct (set_links_inv _ _ _ H) as (_ & _ & _ & _ & Hf). apply dget_Some_lookup in Hb as [i Hi].
    destruct (Forall2_lookup_r _ _ _ _ _ Hf Hi) as (kb & _ & _ & _ & _ & _ & Hc). exact Hc.
Qed.

(** The interface of a neighbour is named after the index of the pair, so a node's interfaces are distinct. *)
Lemma live_interface lv n p i : live_built lv -> interface (base lv) n p = Ok i ->
  exists k, pair_index n p (ids lv) = Ok k /\ i = "sf" +:+ pretty k.
Proof.
  intros L. pose proof (live_built_ok _ L) as O. pose proof (live_built_adj _ L) as A. unfold interface, binding_of, peers_of. rewrite bind_Ok.
  intros (b & Hb & [= <-]). apply bind_Ok in Hb as (peers & Hpeers%or_raise_Ok & Hb). apply bind_Ok in Hb as (key & Hkey%or_raise_Ok & Hb%or_raise_Ok).
  rewrite (A _ _ _ _ Hpeers Hkey) in Hb. destruct (lo_keys _ O _ _ Hb) as (_ & v & Hv & _ & -> & _).
  revert Hv. unfold binding_for. rewrite bind_Ok. intros (k & Hk & H). apply bind_Ok in H as (e0 & _ & H). apply bind_Ok in H as (e1 & _ & [= <-]).
  exists k. split; [|done]. unfold sorted_pair in Hk. destruct (String.leb n p); [done|]. by apply pair_index_sym.
Qed.

Lemma live_interface_inj lv n p q i : live_built lv -> interface (base lv) n p = Ok i -> interface (base lv) n q = Ok i -> p = q.
Proof.
  intros L (k & Hk & ->)%live_interface Hq; [|done]. apply live_interface in Hq as (k' & Hk' & E%append_inj_l); [|done].
  apply (inj pretty) in E. subst k'. pose proof (pair_index_inj _ _ _ _ _ _ Hk Hk') as E. unfold sorted_pair in E.
  destruct (String.leb n p), (String.leb n q); simplify_eq; congruence.
Qed.

(** The two ends of the k-th /30 of 10.128.0.0/9. *)
Definition ends (k : pair_t) (i : Z) : list (string * string) := [(k.1, ipv4_str (176160768 + 4 * i + 1)); (k.2, ipv4_str (176160768 + 4 * i + 2))].

Lemma binding_for_plan ids k v : k = sorted_pair k.1 k.2 -> binding_for ids k.1 k.2 = Ok v ->
  pair_index k.1 k.2 ids = Ok (index v) /\ ifname v = "sf" +:+ pretty (index v) /\ endpoints v = ends k (index v) /\ 176160768 + 4 * index v + 2 < 2 ^ 32.
Proof.
  intros Hk. unfold binding_for. rewrite <- Hk, bind_Ok. intros (i & Hi & H). apply bind_Ok in H as (e0 & [-> _]%(ip_Ok _ _ _ _ link_base) & H).
  apply bind_Ok in H as (e1 & [-> Hr]%(ip_Ok _ _ _ _ link_base) & [= <-]). cbn [index ifname endpoints]. split_and!; [done|done| |lia].
  assert (k.1 <> k.2) as Hne. { intros E. revert Hi. unfold pair_index. rewrite E, bind_Ok. intros (x & Hx & H). rewrite Hx in H. cbn in H. rewrite Z.min_id, Z.max_id, Z.eqb_refl in H. done. }
  unfold ends. rewrite !Z.add_assoc, dict_of_id; [done|]. unfold d_ok, dkeys. cbn. constructor; [by intros ?%list_elem_of_singleton|apply NoDup_singleton].
Qed.

(** The /30 of an address decides the pair. *)
Lemma ends_disjoint k k2 i i2 n n2 a : 0 <= i -> 0 <= i2 -> 176160768 + 4 * i + 2 < 2 ^ 32 -> 176160768 + 4 * i2 + 2 < 2 ^ 32 -> (n, a) ∈ ends k i -> (n2, a) ∈ ends k2 i2 -> i = i2.
Proof.
  intros H1 H2 H3 H4. unfold ends. rewrite !elem_of_cons. intros [[= -> ->]|[[= -> ->]|[]%not_elem_of_nil]] [[= -> E]|[[= -> E]|[]%not_elem_of_nil]]; apply ipv4_str_inj in E; lia.
Qed.

(** C34.  Interface names, link indices and /30 endpoints of a live fabric are a function of the pair of nodes: after any sequence of registrations, retirements and link updates a pair has the index, the interface
    and the addresses it had before it was retired.  They are the ones of the plan: with index i in 1..32385 the interface is [sf<i>] and the two ends, the lesser name first, are 10.128.0.0 + 4i + 1 and + 2; and
    no two links of the fabric share an index, an interface name or an address. *)
Theorem stable_addresses lv lv' k b b' : live_built lv -> live_built lv' -> ids lv = ids lv' ->
  dget (links (base lv)) k = Some b -> dget (links (base lv')) k = Some b' ->
  index b = index b' /\ ifname b = ifname b' /\ endpoints b = endpoints b' /\ 1 <= index b <= 32385 /\ ifname b = "sf" +:+ pretty (index b) /\
  endpoints b = [(k.1, ipv4_str (176160768 + 4 * index b + 1)); (k.2, ipv4_str (176160768 + 4 * index b + 2))] /\ ipv4_parse "10.128.0.0" = Ok 176160768 /\
  forall k2 b2, dget (links (base lv)) k2 = Some b2 -> k2 <> k -> index b2 <> index b /\ ifname b2 <> ifname b /\ forall n n2 a, (n, a) ∈ endpoints b -> (n2, a) ∉ endpoints b2.
Proof.
  intros L%live_built_ok L'%live_built_ok Hids Hb Hb'.
  destruct (lo_keys _ L _ _ Hb) as (Hk & v & Hv & I1 & I2 & I3). destruct (lo_keys _ L' _ _ Hb') as (_ & v' & Hv' & J1 & J2 & J3).
  rewrite <- Hids in Hv'. assert (v' = v) as -> by congruence. destruct (binding_for_plan _ _ _ Hk Hv) as (Hi & Hn & He & Hr).
  pose proof (pair_index_bounds _ _ _ _ Hi) as Hbound. split_and!; [congruence..| | | | |apply link_base|].
  - lia.
  - pose proof (lo_size _ L). rewrite I1. etrans; [apply Hbound|]. pose proof (len_nonneg (ids lv)). change 32385 with (64770 / 2). apply Z.div_le_mono; [lia|nia].
  - congruence.
  - rewrite I3, I1. exact He.
  - intros k2 b2 Hb2 Hne. destruct (lo_keys _ L _ _ Hb2) as (Hk2 & v2 & Hv2 & K1 & K2 & K3). destruct (binding_for_plan _ _ _ Hk2 Hv2) as (Hi2 & Hn2 & He2 & Hr2).
    pose proof (pair_index_bounds _ _ _ _ Hi2). assert (index v2 <> index v) as Hdiff. { intros E. apply Hne. rewrite Hk, Hk2. rewrite E in Hi2. by eapply pair_index_inj. }
    split_and!; [congruence| |].
    + rewrite K2, I2, Hn2, Hn. intros E%append_inj_l%(inj pretty). done.
    + intros n n2 a. rewrite I3, K3, He, He2. intros Ha Ha2. apply Hdiff. symmetry. eapply ends_disjoint; [..|exact Ha|exact Ha2]; lia.
Qed.

(** The links [register] has added so far carry nothing yet. *)
Definition added_down (st : reg) : Prop :=
  forall n p l, sorted_pair n p ∈ r_added st -> dget (directed (base (r_live st))) (n, p) = Some l -> operational_up l = Some false.

Lemma register_link_down tick st l st' : live_ok (r_live st) -> added_down st -> register_link tick st l = Ok st' -> added_down st'.
Proof.
  intros L A. unfold register_link. rewrite bind_Ok. intros ([[ls adj] added] & Hg & [= <-]). unfold added_down. cbn [r_live r_added base].
  assert (forall n p, sorted_pair n p ∈ added -> sorted_pair n p ∈ r_added st \/ dhas (directed (base (r_live st))) (n, p) = false) as Ha.
  { intros n p. destruct (dhas (links _) _) eqn:Eh; [injection Hg as <- <- <-; by left|].
    apply bind_Ok in Hg as (v & _ & Hg). apply bind_Ok in Hg as (adj' & _ & [= <- <- <-]).
    rewrite elem_of_app, list_elem_of_singleton. intros [?|E]; [by left|]. right. rewrite <- E in Eh.
    destruct (dhas (directed _) _) eqn:Ed; [|done]. apply (lo_directed _ L) in Ed. congruence. }
  intros n p m Hin. cbn [with_graph directed]. destruct (dhas (directed _) (source l, target l)) eqn:Ed.
  - intros Hm. destruct (Ha _ _ Hin) as [?|Hn]; [by eapply A|]. unfold dhas in Hn. by rewrite Hm in Hn.
  - rewrite dget_dset. case_decide as E; [intros [= <-]; done|]. intros Hm.
    destruct (Ha _ _ Hin) as [?|Hn]; [by eapply A|]. unfold dhas in Hn. by rewrite Hm in Hn.
Qed.

(** [register] adds new pairs in the DOWN state: no direction of a pair it added can
    carry a packet before the frame's link state is programmed. *)
Theorem register_adds_down lv frame tick lv' added n p l : live_built lv -> register lv frame tick = Ok (lv', added) ->
  sorted_pair n p ∈ added -> dget (directed (base lv')) (n, p) = Some l -> active (base lv') n p = Ok false.
Proof.
  intros L%live_built_ok Hr Hin Hl. unfold register in Hr. apply bind_Ok in Hr as (st & Hst & [= <- <-]).
  assert (live_ok (r_live st) /\ added_down st) as [_ A].
  { apply (foldM_inv (fun st => live_ok (r_live st) /\ added_down st) (register_link tick) frame (Reg lv [])); [| |done].
    - intros s x s' _ [? ?] Hs. split; [by eapply register_link_ok|by eapply register_link_down].
    - split; [done|]. intros ? ? ? ?%not_elem_of_nil. done. }
  unfold active. rewrite Hl. simpl_res. rewrite (A _ _ _ Hin Hl). simpl. by rewrite andb_false_r.
Qed.

(** ** A live fabric that gains a pair, retires it and gains it again *)

Definition or_else {A} (d : A) (m : res A) : A := match m with Ok a => a | Err _ => d end.

Definition example_frame : list link := [example_link "gw-a" "gw-b"; example_link "gw-b" "gw-a"].

Definition empty_live : live := Live_ example_fabric [] [].
Definition live0 : live := or_else empty_live (init example_scenario "lab").
Definition live1 : live := (or_else (empty_live, []) (register live0 example_frame 1)).1.
Definition live2 : live := or_else empty_live (forget live1 [("gw-a", "gw-b"); ("gw-a", "sat")]).
Definition live3 : live := (or_else (empty_live, []) (register live2 example_frame 9)).1.

Lemma live0_built : live_built live0.
Proof. apply (live_init example_scenario "lab"). vm_compute. reflexivity. Qed.

Lemma live1_built : live_built live1.
Proof. apply (live_register live0 example_frame 1 live1 [("gw-a", "gw-b")] live0_built). vm_compute. reflexivity. Qed.

Lemma live3_built : live_built live3.
Proof.
  apply (live_register live2 example_frame 9 live3 [("gw-a", "gw-b")]); [|vm_compute; reflexivity].
  apply (live_forget live1 [("gw-a", "gw-b"); ("gw-a", "sat")] live2 live1_built). vm_compute. reflexivity.
Qed.

Definition example_binding : binding := Binding 1 "sf1" 1 [("gw-a", "10.128.0.5"); ("gw-b", "10.128.0.6")].

Lemma stable_addresses_witness :
  dget (links (base live1)) ("gw-a", "gw-b") = Some example_binding /\
  (forall k2 b2, dget (links (base live1)) k2 = Some b2 -> k2 <> ("gw-a", "gw-b") -> index b2 <> 1 /\ ifname b2 <> "sf1" /\ forall n n2 a, (n, a) ∈ endpoints example_binding -> (n2, a) ∉ endpoints b2).
Proof.
  split; [vm_compute; reflexivity|].
  apply (stable_addresses live1 live3 ("gw-a", "gw-b") example_binding example_binding live1_built live3_built); vm_compute; reflexivity.
Defined.

Lemma register_adds_down_witness : active (base live1) "gw-a" "gw-b" = Ok false.
Proof.
  apply (register_adds_down live0 example_frame 1 live1 [("gw-a", "gw-b")] "gw-a" "gw-b" (down (example_link "gw-a" "gw-b")) live0_built).
  - vm_compute. reflexivity.
  - left.
  - vm_compute. reflexivity.
Defined.

End Live.
