(* ===== verification/WorkloadModel.v ===== *)
(** * WorkloadModel: the validated workload catalog (lab/live/workload_model.py)

    The configuration is JSON.  A flow is a record of the fields the program reads, with
    the profile it was made from; rates are the exact product of the profile's rate and
    the scale, rounded half to even. *)

From S2P Require Import Prelude Bytes Text Channel ShortestPath Fabric LiveModel.

Module Workload.

(** ** Constants *)

Definition CONTROLS : list (string * string) :=
  [("ospf", "distributed"); ("ospf6", "distributed"); ("native", "centralized"); ("ldp", "hybrid"); ("sr-mpls", "hybrid");
   ("pcep", "hybrid"); ("srv6", "hybrid"); ("evpn", "hybrid"); ("evpn-srv6", "hybrid")].

Definition CARRIERS : list string := ["ospf"; "ospf6"; "native"; "ldp"; "sr-mpls"; "pcep"; "srv6"; "evpn"; "evpn-srv6"].

(** ** Data *)

Record flow := Flow { id : string; f_number : Z; source : string; destination : string; source_address : string;
  destination_address : string; family : Z; prefix_length : Z; port : Z; rate_bps : Z; table : Z; binding_sid : Z;
  pcep_color : Z; carrier : string; control : string; transport : string; priority : Z; profile : list (string * json) }.

(** ** Validation *)

(** [v == z] for an integer [z] *)
Definition py_eq_int (v : json) (z : Z) : bool :=
  match v with
  | JBool b => z =? (if b then 1 else 0)
  | _ => match number v with Some q => Qeq_bool q (inject_Z z) | None => false end
  end.

Definition in_range (v : json) (lo hi : Q) : bool :=
  match number v with Some q => Qle_bool lo q && Qle_bool q hi | None => false end.

Definition interval_check (config : list (string * json)) (item : string * json * Q * Q * string) : res unit :=
  let '(name, dflt, lo, hi, text) := item in
  raise (ValueError (name +:+ (" must be finite and within " +:+ text))) when negb (in_range (jget_or config name dflt) lo hi) ;;
  Ok tt.

Definition intervals : list (string * json * Q * Q * string) :=
  [("sample_seconds", JInt 5, 1%Q, 30%Q, "1..30"); ("capture_seconds", JInt 2, 1%Q, 10%Q, "1..10");
   ("capture_interval_seconds", JInt 30, 10%Q, 300%Q, "10..300"); ("initial_rate_fraction", JInt 1, (1 # 10)%Q, 1%Q, "0.1..1")].

Definition is_lower (c : ascii) : bool := (97 <=? code c) && (code c <=? 122).

(** [re.fullmatch(r'[a-z][a-z0-9-]{0,23}', s)] *)
Definition short_name (s : string) : bool :=
  match s with
  | "" => false
  | String c s' => is_lower c && all_chars (fun c => is_lower c || is_digit c || Ascii.eqb c (ch 45)) s' && (String.length s' <=? 23)%nat
  end.

Definition number_checks : list (string * Z * Z) :=
  [("rate_bps", 1000, 100000000); ("payload_bytes", 96, 1200); ("dscp", 0, 63); ("priority", 0, 199); ("max_rtt_ms", 1, 60000)].

Definition profile_number (identifier : string) (p : list (string * json)) (item : string * Z * Z) : res Z :=
  let '(name, lo, hi) := item in
  match exact_int (jget p name) with
  | Some v => if (lo <=? v) && (v <=? hi) then Ok v
              else Err (ValueError (identifier +:+ ("." +:+ (name +:+ (" must be " +:+ (pretty lo +:+ (".." +:+ pretty hi)))))))
  | None => Err (ValueError (identifier +:+ ("." +:+ (name +:+ (" must be " +:+ (pretty lo +:+ (".." +:+ pretty hi)))))))
  end.

(** [carrier not in CARRIERS or profile.get('control') != CONTROLS[carrier]] *)
Definition carrier_check (identifier : string) (p : list (string * json)) : res string :=
  match jget p "carrier" with
  | JStr c =>
      match dget CONTROLS c, jget p "control" with
      | Some mode, JStr m => if String.eqb m mode then Ok c else Err (ValueError ("carrier/control mismatch for " +:+ identifier))
      | _, _ => Err (ValueError ("carrier/control mismatch for " +:+ identifier))
      end
  | JList _ | JDict _ => Err TypeError
  | _ => Err (ValueError ("carrier/control mismatch for " +:+ identifier))
  end.

(** [f'{n:02d}'] *)
Definition pad2 (n : Z) : string := if n <? 10 then "0" +:+ pretty n else pretty n.

(** ** Placement *)

Record settings := Settings { copies : Z; balanced : bool; scale : Q; profile_count : Z }.

(** Where the [index]-th copy of the [profile_index]-th profile starts and how far it goes. *)
Definition placement (s : settings) (n profile_index index : Z) : Z * Z :=
  if balanced s then
    let rounds := (copies s + n - 1) / n in
    let offset := 1 + (profile_index * rounds + index / n) mod (n - 1) in
    let source_index := index + profile_index * copies s in
    (source_index, if profile_count s * copies s <? n then profile_count s * copies s else offset)
  else (index, 1).

Definition gateway_at (gateways : list string) (i : Z) : res string :=
  or_raise IndexError (gateways !! Z.to_nat (i mod len gateways)).

Definition address (ipv6 : bool) (offset : Z) : res string := if ipv6 then ip6 "fd42:5354::" offset else ip "198.18.0.0" offset.

(** The body of [for index in range(copies)]. *)
Definition make_flow (s : settings) (gateways : list string) (p : list (string * json)) (identifier c mode tp : string)
    (rate prio : Z) (profile_index : Z) (flows : list flow) (index : Z) : res (list flow) :=
  let n := len flows + 1 in
  let '(source_index, offset) := placement s (len gateways) profile_index index in
  let* src := gateway_at gateways source_index in
  let* dst := gateway_at gateways (source_index + offset) in
  let ipv6 := String.eqb c "ospf6" in
  let* a0 := address ipv6 (2 * n) in
  let* a1 := address ipv6 (2 * n + 1) in
  Ok (flows ++ [Flow (identifier +:+ ("-" +:+ pad2 (index + 1))) n src dst a0 a1 (if ipv6 then 6 else 4) (if ipv6 then 128 else 32)
        (20000 + n) (round_even (inject_Z rate * scale s)) (10000 + n) (30000 + n) (10000 + n) c mode tp prio p]).

(** The body of the loop over the profiles. *)
Definition add_profile (s : settings) (gateways : list string) (st : list flow * list string) (item : nat * json) :
    res (list flow * list string) :=
  let (flows, ids) := st in
  let (profile_index, raw) := item in
  match raw with
  | JDict p =>
      let* identifier := match jget_or p "id" (JStr "") with JStr x => Ok x | _ => Err TypeError end in
      raise (ValueError "workload profile ids must be unique short names") when negb (short_name identifier) || mem identifier ids ;;
      let* c := carrier_check identifier p in
      let* mode := or_raise KeyError (dget CONTROLS c) in
      let* tp := match jget p "transport" with
        | JStr x => if mem x ["tcp"; "udp"] then Ok x else Err (ValueError "transport must be tcp or udp")
        | _ => Err (ValueError "transport must be tcp or udp")
        end in
      let* values := mapM_res (profile_number identifier p) number_checks in
      let rate := default 0 (values !! 0%nat) in
      let prio := default 0 (values !! 3%nat) in
      let* flows' := foldM (make_flow s gateways p identifier c mode tp rate prio (Z.of_nat profile_index)) flows (seqZ 0 (copies s)) in
      Ok (flows', ids ++ [identifier])
  | _ => Err AttributeError
  end.

Definition total_rate (flows : list flow) : Z := foldr (fun f a => rate_bps f + a) 0 flows.

Definition catalog (config : list (string * json)) (gateways : list string) : res (list flow) :=
  let* on := match py_eq_int (jget config "schema_version") 1, jget config "enabled" with
    | true, JBool b => Ok b
    | _, _ => Err (ValueError "workload schema_version=1 and boolean enabled are required")
    end in
  if negb on then Ok [] else
  let* _ := mapM_res (interval_check config) intervals in
  raise (ValueError "workloads require at least two gateways") when (len gateways <? 2) ;;
  let* n := match exact_int (jget_or config "copies_per_profile" (JInt 4)) with
    | Some v => if (1 <=? v) && (v <=? 64) then Ok v else Err (ValueError "copies_per_profile must be 1..64")
    | None => Err (ValueError "copies_per_profile must be 1..64")
    end in
  let* mesh := match jget_or config "pairing" (JStr "ring") with
    | JStr x => if String.eqb x "ring" then Ok false else if String.eqb x "balanced_mesh" then Ok true
                else Err (ValueError "pairing must be ring or balanced_mesh")
    | _ => Err (ValueError "pairing must be ring or balanced_mesh")
    end in
  raise (ValueError "gateway ids must be unique") when negb (bool_decide (NoDup gateways)) ;;
  let raw_scale := jget_or config "rate_scale" (JInt 1) in
  raise (ValueError "rate_scale must be finite and within 0.01..20") when negb (in_range raw_scale (1 # 100) 20) ;;
  let sc := match number raw_scale with Some q => q | None => 1%Q end in
  let* profiles := match jget_or config "profiles" (JList []) with
    | JList l => if (1 <=? len l) && (len l <=? 16) then Ok l else Err (ValueError "supply 1..16 workload profiles")
    | _ => Err (ValueError "supply 1..16 workload profiles")
    end in
  let* (flows, _) := foldM (add_profile (Settings n mesh sc (len profiles)) gateways) ([], []) (enumerate profiles) in
  raise (ValueError "aggregate offered payload is limited to 500 Mbit/s per SIL run") when (500000000 <? total_rate flows) ;;
  Ok flows.

(** ** Directions and intents *)

Record direction := Direction { d_id : string; d_node : string; d_remote : string; d_source : string; d_target : string }.

Definition directions (f : flow) : list direction :=
  [Direction (id f +:+ "-forward") (source f) (destination f) (source_address f) (destination_address f);
   Direction (id f +:+ "-reverse") (destination f) (source f) (destination_address f) (source_address f)].

Record intent := Intent { i_id : string; i_source : string; i_destination : string; destination_prefix : string;
  i_policy : string; redundancy : Z; demand_bps : Z; i_priority : Z; class : string; i_labels : list (string * string) }.

Definition controller_intents (flows : list flow) : list intent :=
  concat (map (fun f => if String.eqb (control f) "distributed" then [] else
    map (fun d => Intent ("work-" +:+ d_id d) (d_node d) (d_remote d) (d_target d +:+ "/32") "latency" 1 (rate_bps f) (priority f)
                    (id f) [("workload", id f); ("carrier", carrier f)]) (directions f)) flows).

Record gateway_use := GatewayUse { originating : Z; terminating : Z; peers : list string }.
Record summary_t := Summary { streams : Z; offered_payload_bps : Z; controller_intent_count : Z; gateway_count : Z;
  gateway_pairs : Z; gateway_distribution : list (string * gateway_use); control_modes : list (string * Z) }.

Definition count {A} (p : A -> bool) (l : list A) : Z := len (List.filter p l).

Definition gateway_row (flows : list flow) (node : string) : string * gateway_use :=
  (node, GatewayUse (count (fun f => String.eqb (source f) node) flows) (count (fun f => String.eqb (destination f) node) flows)
    (sorted_strings (set_of (map (fun f => if String.eqb (source f) node then destination f else source f)
       (List.filter (fun f => mem node [source f; destination f]) flows))))).

Definition summary (flows : list flow) : summary_t :=
  let gateways := sorted_strings (set_of (concat (map (fun f => [source f; destination f]) flows))) in
  Summary (len flows) (total_rate flows) (len (controller_intents flows)) (len gateways)
    (len (set_of (map (fun f => Fabric.sorted_pair (source f) (destination f)) flows)))
    (map (gateway_row flows) gateways)
    (map (fun mode => (mode, count (fun f => String.eqb (control f) mode) flows)) (set_of (map snd CONTROLS))).

(** ** Addresses *)

Lemma ipv4_not_ipv6 v w : 0 <= w < 2 ^ 128 -> ipv4_str v <> ipv6_str w.
Proof.
  intros Hw E. assert (ipv6_parse (ipv4_str v) = Ok w) as H by (rewrite E; by apply ipv6_parse_str).
  unfold ipv6_parse in H. rewrite (split_on_lacks colon) in H by (apply ipv4_str_lacks; by left).
  destruct (String.eqb (ipv4_str v) ""); done.
Qed.

Lemma ip6_Ok base v o a : ipv6_parse base = Ok v -> ip6 base o = Ok a -> a = ipv6_str (v + o) /\ 0 <= v + o < 2 ^ 128.
Proof. intros Hv. unfold ip6. rewrite Hv. simpl_res. split_guard. intros [= <-]. bool_to_prop. done. Qed.

Lemma workload_base4 : ipv4_parse "198.18.0.0" = Ok 3323068416.
Proof. by vm_compute. Qed.

Lemma workload_base6 : ipv6_parse "fd42:5354::" = Ok 336639064621409768754995744488204271616.
Proof. by vm_compute. Qed.

Lemma address_inj b o b' o' a : address b o = Ok a -> address b' o' = Ok a -> b = b' /\ o = o'.
Proof.
  unfold address. destruct b, b'.
  - intros [-> H]%(ip6_Ok _ _ _ _ workload_base6) [E H']%(ip6_Ok _ _ _ _ workload_base6). split; [done|].
    apply (f_equal ipv6_parse) in E. rewrite !ipv6_parse_str in E by done. injection E. lia.
  - intros [-> H]%(ip6_Ok _ _ _ _ workload_base6) [E _]%(Fabric.ip_Ok _ _ _ _ workload_base4). symmetry in E. by apply ipv4_not_ipv6 in E.
  - intros [-> _]%(Fabric.ip_Ok _ _ _ _ workload_base4) [E H]%(ip6_Ok _ _ _ _ workload_base6). by apply ipv4_not_ipv6 in E.
  - intros H H'. split; [done|]. pose proof (Fabric.ip_same _ _ _ _ _ _ _ workload_base4 workload_base4 H H'). lia.
Qed.

(** ** Placement *)

Lemma placement_offset s n pi i : 2 <= n -> 1 <= copies s -> 1 <= profile_count s -> 1 <= (placement s n pi i).2 < n.
Proof.
  intros Hn Hc Hp. unfold placement. destruct (balanced s); simpl; [|lia].
  destruct (Z.ltb_spec (profile_count s * copies s) n); [nia|].
  pose proof (Z.mod_pos_bound (pi * ((copies s + n - 1) / n) + i / n) (n - 1)). lia.
Qed.

Lemma gateway_at_in gateways i g : gateway_at gateways i = Ok g -> g ∈ gateways.
Proof. intros H%or_raise_Ok. by eapply list_elem_of_lookup_2. Qed.

Lemma gateway_at_inj gateways i j g : NoDup gateways -> 2 <= len gateways -> gateway_at gateways i = Ok g -> gateway_at gateways j = Ok g ->
  i mod len gateways = j mod len gateways.
Proof.
  intros Hn Hl Hi Hj. apply or_raise_Ok in Hi, Hj. pose proof (NoDup_lookup _ _ _ _ Hn Hi Hj).
  pose proof (Z.mod_pos_bound i (len gateways)). pose proof (Z.mod_pos_bound j (len gateways)). lia.
Qed.

Lemma distinct_ends gateways i off a b : NoDup gateways -> 2 <= len gateways -> 1 <= off < len gateways ->
  gateway_at gateways i = Ok a -> gateway_at gateways (i + off) = Ok b -> a <> b.
Proof.
  intros Hn Hl Ho Ha Hb ->. pose proof (gateway_at_inj _ _ _ _ Hn Hl Ha Hb) as E.
  assert ((i + off - i) mod len gateways = 0) as Hz.
  { rewrite Zminus_mod, <- E, Z.sub_diag. by apply Z.mod_0_l; lia. }
  replace (i + off - i) with off in Hz by lia. rewrite Z.mod_small in Hz by lia. lia.
Qed.

(** ** The flows *)

Record flow_ok (gateways : list string) (i : nat) (f : flow) : Prop := {
  fo_number : f_number f = Z.of_nat i + 1;
  fo_ports : port f = 20000 + f_number f /\ table f = 10000 + f_number f /\ binding_sid f = 30000 + f_number f /\ pcep_color f = 10000 + f_number f;
  fo_ends : source f ∈ gateways /\ destination f ∈ gateways /\ source f <> destination f;
  fo_source : address (String.eqb (carrier f) "ospf6") (2 * f_number f) = Ok (source_address f);
  fo_target : address (String.eqb (carrier f) "ospf6") (2 * f_number f + 1) = Ok (destination_address f);
  fo_control : dget CONTROLS (carrier f) = Some (control f) }.

Definition flows_ok (gateways : list string) (flows : list flow) : Prop := forall i f, flows !! i = Some f -> flow_ok gateways i f.

Lemma make_flow_ok s gateways p identifier c mode tp rate prio pi flows i flows' :
  NoDup gateways -> 2 <= len gateways -> 1 <= copies s -> 1 <= profile_count s -> dget CONTROLS c = Some mode ->
  flows_ok gateways flows -> make_flow s gateways p identifier c mode tp rate prio pi flows i = Ok flows' ->
  flows_ok gateways flows' /\ len flows' = len flows + 1.
Proof.
  intros Hn Hl Hc Hp Hm Hf. unfold make_flow. pose proof (placement_offset s (len gateways) pi i Hl Hc Hp) as Ho.
  destruct (placement s (len gateways) pi i) as [si off]; simpl in Ho. rewrite bind_Ok. intros (src & Hs & H).
  apply bind_Ok in H as (dst & Hd & H). apply bind_Ok in H as (a0 & Ha0 & H). apply bind_Ok in H as (a1 & Ha1 & [= <-]).
  split; [|by rewrite len_app]. intros j f Hj. apply lookup_app_Some in Hj as [Hj|[Hge Hj]]; [by apply Hf|].
  apply list_lookup_singleton_Some in Hj as [Hj <-]. constructor; simpl; try done.
  - unfold len. lia.
  - split_and!; [by eapply gateway_at_in..|by eapply distinct_ends].
Qed.

Lemma make_flows_ok s gateways p identifier c mode tp rate prio pi flows ks flows' :
  NoDup gateways -> 2 <= len gateways -> 1 <= copies s -> 1 <= profile_count s -> dget CONTROLS c = Some mode ->
  flows_ok gateways flows -> foldM (make_flow s gateways p identifier c mode tp rate prio pi) flows ks = Ok flows' ->
  flows_ok gateways flows' /\ len flows' = len flows + len ks.
Proof.
  intros Hn Hl Hc Hp Hm. revert flows. induction ks as [|i ks IH]; intros flows Hf; cbn [foldM].
  - intros [= <-]. rewrite len_nil. split; [done|lia].
  - rewrite bind_Ok. intros (f1 & H1 & H2). destruct (make_flow_ok _ _ _ _ _ _ _ _ _ _ _ _ _ Hn Hl Hc Hp Hm Hf H1) as [Hf1 E1].
    destruct (IH _ Hf1 H2) as [Hf2 E2]. split; [done|]. rewrite len_cons. lia.
Qed.

Lemma carrier_check_Ok identifier p c : carrier_check identifier p = Ok c -> exists mode, dget CONTROLS c = Some mode.
Proof.
  unfold carrier_check. destruct (jget p "carrier"); try done. destruct (dget CONTROLS s) eqn:E; [|done].
  destruct (jget p "control"); try done. destruct (String.eqb _ _); [|done]. intros [= <-]. by eexists.
Qed.

Lemma add_profile_ok s gateways st item st' :
  NoDup gateways -> 2 <= len gateways -> 1 <= copies s -> 1 <= profile_count s ->
  flows_ok gateways st.1 -> add_profile s gateways st item = Ok st' -> flows_ok gateways st'.1 /\ len st'.1 = len st.1 + copies s.
Proof.
  intros Hn Hl Hc Hp Hf. destruct st as [flows ids], item as [pi raw]. unfold add_profile. destruct raw; try done.
  rewrite bind_Ok. intros (identifier & _ & H). revert H. split_guard. rewrite bind_Ok. intros (c & _ & H).
  apply bind_Ok in H as (mode & Hm%or_raise_Ok & H). apply bind_Ok in H as (tp & _ & H). apply bind_Ok in H as (values & _ & H).
  apply bind_Ok in H as (flows' & H & [= <-]). simpl in *.
  destruct (make_flows_ok _ _ _ _ _ _ _ _ _ _ _ _ _ Hn Hl Hc Hp Hm Hf H) as [? E]. split; [done|].
  rewrite E. unfold len at 2. rewrite length_seqZ. lia.
Qed.

Lemma add_profiles_ok s gateways items st st' :
  NoDup gateways -> 2 <= len gateways -> 1 <= copies s -> 1 <= profile_count s ->
  flows_ok gateways st.1 -> foldM (add_profile s gateways) st items = Ok st' ->
  flows_ok gateways st'.1 /\ len st'.1 = len st.1 + len items * copies s.
Proof.
  intros Hn Hl Hc Hp. revert st. induction items as [|x items IH]; intros st Hf; cbn [foldM].
  - intros [= <-]. split; [done|]. unfold len. simpl. lia.
  - rewrite bind_Ok. intros (s1 & H1 & H2). destruct (add_profile_ok _ _ _ _ _ Hn Hl Hc Hp Hf H1) as [Hf1 E1].
    destruct (IH _ Hf1 H2) as [Hf2 E2]. split; [done|]. rewrite len_cons. lia.
Qed.

Lemma len_enumerate {A} (l : list A) : len (enumerate l) = len l.
Proof. unfold enumerate, len. rewrite length_zip, length_seq. lia. Qed.

Lemma catalog_ok config gateways flows : catalog config gateways = Ok flows ->
  flows_ok gateways flows /\ len flows <= 1024 /\ total_rate flows <= 500000000.
Proof.
  unfold catalog. rewrite bind_Ok. intros (on & _ & H). destruct on; cbn [negb] in H.
  2: { injection H as <-. split_and!; [by intros i f ?|done|done]. }
  apply bind_Ok in H as (u & _ & H). revert H. split_guard. rewrite bind_Ok. intros (n & Hn & H).
  apply bind_Ok in H as (mesh & _ & H). revert H. split_guard. split_guard. rewrite bind_Ok. intros (profiles & Hp & H).
  apply bind_Ok in H as ([fl ids] & Hf & H). revert H. split_guard. intros [= <-]. bool_to_prop.
  destruct (exact_int _); [|done]. destruct (_ && _) eqn:En in Hn; [|done]. injection Hn as ->.
  assert (1 <= len profiles <= 16) as Hlp.
  { destruct (jget_or config "profiles" (JList [])); try done. destruct (_ && _) eqn:El in Hp; [|done]. injection Hp as ->. bool_to_prop. lia. }
  bool_to_prop. eapply add_profiles_ok in Hf as [Hok Hlen]; [|done|done|simpl; lia|simpl; lia|by intros i f ?].
  rewrite len_enumerate in Hlen. cbn [fst copies] in *. split_and!; [done| |done]. rewrite Hlen, len_nil. nia.
Qed.

(** Flow names are unique: a profile's name, unique, and a two-digit copy number. *)
Definition copy_id (identifier : string) (i : Z) : string := identifier +:+ ("-" +:+ pad2 (i + 1)).

Lemma pad2_length i : 0 <= i < 64 -> String.length (pad2 (i + 1)) = 2%nat.
Proof.
  intros H. assert (Forall (fun i => String.length (pad2 (i + 1)) = 2%nat) (seqZ 0 64)) as Ha by (apply (bool_decide_unpack _); vm_compute; exact I).
  rewrite Forall_forall in Ha. apply Ha, elem_of_seqZ. lia.
Qed.

Lemma copy_ids_nodup identifier n : n <= 64 -> NoDup (map (copy_id identifier) (seqZ 0 n)).
Proof.
  intros Hn. apply NoDup_fmap_2_strong; [|apply NoDup_seqZ]. intros i j Hi%elem_of_seqZ Hj%elem_of_seqZ E. unfold copy_id in E.
  apply (inj (String.app identifier)) in E. apply (inj (String.app "-")) in E.
  assert (NoDup (map (fun i => pad2 (i + 1)) (seqZ 0 64))) as Hd by (apply (bool_decide_unpack _); vm_compute; exact I).
  assert (forall k, 0 <= k < 64 -> map (fun i => pad2 (i + 1)) (seqZ 0 64) !! Z.to_nat k = Some (pad2 (k + 1))) as Hl.
  { intros k Hk. rewrite list_lookup_fmap, (lookup_seqZ_lt 0 64 (Z.to_nat k)) by lia. simpl. do 2 f_equal. lia. }
  pose proof (NoDup_lookup _ _ _ _ Hd (Hl i ltac:(lia)) ltac:(rewrite E; apply Hl; lia)). lia.
Qed.

Lemma make_flows_ids s gateways p identifier c mode tp rate prio pi flows ks flows' :
  foldM (make_flow s gateways p identifier c mode tp rate prio pi) flows ks = Ok flows' -> map id flows' = map id flows ++ map (copy_id identifier) ks.
Proof.
  revert flows. induction ks as [|i ks IH]; intros flows; cbn [foldM map]; [intros [= <-]; by rewrite app_nil_r|].
  rewrite bind_Ok. intros (f1 & H1 & H2). rewrite (IH _ H2). revert H1. unfold make_flow. destruct (placement _ _ _ _) as [si off].
  rewrite bind_Ok. intros (src & _ & H). apply bind_Ok in H as (dst & _ & H). apply bind_Ok in H as (a0 & _ & H). apply bind_Ok in H as (a1 & _ & [= <-]).
  rewrite map_app, <- app_assoc. done.
Qed.

(** The names so far come from the profiles so far. *)
Definition named (st : list flow * list string) : Prop :=
  NoDup (map id st.1) /\ forall x, x ∈ map id st.1 -> exists identifier i, identifier ∈ st.2 /\ 0 <= i < 64 /\ x = copy_id identifier i.

Lemma add_profile_named s gateways st item st' : copies s <= 64 -> named st -> add_profile s gateways st item = Ok st' -> named st'.
Proof.
  intros Hc [Hn Hf]. destruct st as [flows ids], item as [pi raw]. unfold add_profile. destruct raw; try done.
  rewrite bind_Ok. intros (identifier & _ & H). revert H. split_guard. rewrite bind_Ok. intros (c & _ & H).
  apply bind_Ok in H as (mode & _ & H). apply bind_Ok in H as (tp & _ & H). apply bind_Ok in H as (values & _ & H).
  apply bind_Ok in H as (flows' & H & [= <-]). apply make_flows_ids in H. unfold named. cbn [fst snd] in *. rewrite H.
  match goal with H : _ || _ = false |- _ => apply orb_false_elim in H as [_ Hnew] end. unfold mem in Hnew. apply bool_decide_eq_false in Hnew.
  split.
  - apply NoDup_app. split_and!; [done| |by apply copy_ids_nodup]. intros x (identifier' & i & Hin & Hi & ->)%Hf Hx.
    apply list_elem_of_In, in_map_iff in Hx as (j & Hx & Hj%list_elem_of_In%elem_of_seqZ). unfold copy_id in Hx.
    apply append_inj in Hx as [<- _]; [done|]. rewrite !append_length, !pad2_length by lia. done.
  - intros x [Hx|Hx]%elem_of_app.
    + destruct (Hf _ Hx) as (y & i & ? & ? & ?). exists y, i. split_and!; [set_solver|lia|lia|done].
    + apply list_elem_of_In, in_map_iff in Hx as (j & <- & Hj%list_elem_of_In%elem_of_seqZ). exists identifier, j. split_and!; [set_solver|lia|lia|done].
Qed.

Lemma catalog_ids config gateways flows : catalog config gateways = Ok flows -> NoDup (map id flows).
Proof.
  unfold catalog. rewrite bind_Ok. intros (on & _ & H). destruct on; cbn [negb] in H.
  2: { injection H as <-. constructor. }
  apply bind_Ok in H as (u & _ & H). revert H. split_guard. rewrite bind_Ok. intros (n & Hn & H).
  apply bind_Ok in H as (mesh & _ & H). revert H. split_guard. split_guard. rewrite bind_Ok. intros (profiles & Hp & H).
  apply bind_Ok in H as ([fl ids] & Hf & H). revert H. split_guard. intros [= <-].
  destruct (exact_int _); [|done]. destruct (_ && _) eqn:En in Hn; [|done]. injection Hn as ->. bool_to_prop.
  apply (foldM_inv named) in Hf as [Hnd _]; [done| |by split; [constructor|set_solver]].
  intros st x st' _. by apply add_profile_named.
Qed.

(** Every flow of an accepted catalog runs between two different gateways; no two
    flows share an address, a port, a routing table, a binding SID or a PCEP color, over
    both address families; there are at most 1024 flows and they offer at most 500 Mbit/s. *)
Theorem catalog_flows config gateways flows : catalog config gateways = Ok flows ->
  len flows <= 1024 /\ total_rate flows <= 500000000 /\
  (forall i f, flows !! i = Some f -> source f ∈ gateways /\ destination f ∈ gateways /\ source f <> destination f /\
     source_address f <> destination_address f) /\
  forall i j f g, flows !! i = Some f -> flows !! j = Some g ->
    port f = port g \/ table f = table g \/ binding_sid f = binding_sid g \/ pcep_color f = pcep_color g \/
    (exists a, a ∈ [source_address f; destination_address f] /\ a ∈ [source_address g; destination_address g]) -> i = j.
Proof.
  intros (Hok & Hl & Hr)%catalog_ok. split_and!; [done|done| |].
  - intros i f Hf. destruct (Hok _ _ Hf) as [_ _ (? & ? & ?) Hs Ht _]. split_and!; try done.
    intros E. rewrite E in Hs. destruct (address_inj _ _ _ _ _ Hs Ht). lia.
  - intros i j f g Hf Hg. destruct (Hok _ _ Hf) as [Nf (P1 & P2 & P3 & P4) _ Sf Tf _], (Hok _ _ Hg) as [Ng (Q1 & Q2 & Q3 & Q4) _ Sg Tg _].
    intros [?|[?|[?|[?|(a & Ha & Hb)]]]]; [lia..|].
    rewrite !elem_of_cons in Ha, Hb.
    destruct Ha as [->|[->|[]%not_elem_of_nil]], Hb as [E|[E|[]%not_elem_of_nil]]; rewrite E in *;
      match goal with H1 : address _ _ = Ok ?x, H2 : address _ _ = Ok ?x |- _ => destruct (address_inj _ _ _ _ _ H1 H2); lia end.
Qed.

Lemma controls_ospf6 mode : dget CONTROLS "ospf6" = Some mode -> mode = "distributed".
Proof. by intros [= <-]. Qed.

(** The controller gets two intents for each flow that is not distributed, one per
    direction, and none for the others; every one of them is for an IPv4 endpoint of its
    flow, so that the /32 prefix is right. *)
Theorem controller_intents_v4 config gateways flows : catalog config gateways = Ok flows ->
  len (controller_intents flows) = 2 * count (fun f => negb (String.eqb (control f) "distributed")) flows /\
  forall t, t ∈ controller_intents flows -> exists f d, f ∈ flows /\ d ∈ directions f /\ class t = id f /\
    i_source t = d_node d /\ i_destination t = d_remote d /\ destination_prefix t = d_target d +:+ "/32" /\
    exists v, ipv4_parse (d_target d) = Ok v.
Proof.
  intros (Hok & _ & _)%catalog_ok. split.
  - clear Hok. unfold controller_intents, count. induction flows as [|f flows IH]; [done|].
    cbn [map concat List.filter]. rewrite len_app, IH. destruct (String.eqb (control f) "distributed"); simpl; rewrite ?len_cons, ?len_nil; lia.
  - intros t Ht. unfold controller_intents in Ht. apply list_elem_of_In, in_concat in Ht as (l & Hl & Ht).
    apply in_map_iff in Hl as (f & <- & Hf). apply list_elem_of_In in Hf. destruct (String.eqb (control f) "distributed") eqn:Ec; [done|].
    apply in_map_iff in Ht as (d & <- & Hd). apply list_elem_of_In in Hd. exists f, d. split_and!; try done.
    apply list_elem_of_lookup in Hf as (i & Hi). destruct (Hok _ _ Hi) as [_ _ _ Hs Ht Hc].
    assert (String.eqb (carrier f) "ospf6" = false) as E6.
    { apply String.eqb_neq. intros E. rewrite E in Hc. apply controls_ospf6 in Hc. by rewrite Hc in Ec. }
    rewrite E6 in Hs, Ht. unfold directions in Hd. rewrite !elem_of_cons in Hd.
    destruct Hd as [->|[->|[]%not_elem_of_nil]]; simpl.
    + apply (Fabric.ip_Ok _ _ _ _ workload_base4) in Ht as [-> Hb]. rewrite ipv4_parse_str by done. by eexists.
    + apply (Fabric.ip_Ok _ _ _ _ workload_base4) in Hs as [-> Hb]. rewrite ipv4_parse_str by done. by eexists.
Qed.

(** A catalog of two profiles over three gateways. *)
Definition example_profile (name c mode : string) : json :=
  JDict [("id", JStr name); ("carrier", JStr c); ("control", JStr mode); ("transport", JStr "udp"); ("rate_bps", JInt 64000);
         ("payload_bytes", JInt 400); ("dscp", JInt 46); ("priority", JInt 100); ("max_rtt_ms", JInt 900)].

Definition example_config : list (string * json) :=
  [("schema_version", JInt 1); ("enabled", JBool true); ("copies_per_profile", JInt 2); ("pairing", JStr "balanced_mesh");
   ("rate_scale", JFloat (3 # 2)); ("profiles", JList [example_profile "voice" "ospf6" "distributed"; example_profile "bulk" "srv6" "hybrid"])].

Definition example_flows : list flow := Live.or_else [] (catalog example_config ["gw-a"; "gw-b"; "gw-c"]).

Lemma example_catalog : catalog example_config ["gw-a"; "gw-b"; "gw-c"] = Ok example_flows.
Proof. vm_compute. reflexivity. Qed.

Lemma catalog_flows_witness : len example_flows = 4 /\ total_rate example_flows = 384000 /\
  (forall i f, example_flows !! i = Some f -> source f ∈ ["gw-a"; "gw-b"; "gw-c"] /\ destination f ∈ ["gw-a"; "gw-b"; "gw-c"] /\
     source f <> destination f /\ source_address f <> destination_address f).
Proof.
  split_and!; [vm_compute; reflexivity..|].
  apply (catalog_flows example_config ["gw-a"; "gw-b"; "gw-c"] example_flows). vm_compute. reflexivity.
Defined.

Lemma controller_intents_v4_witness :
  len (controller_intents example_flows) = 2 * count (fun f => negb (String.eqb (control f) "distributed")) example_flows.
Proof. apply (controller_intents_v4 example_config ["gw-a"; "gw-b"; "gw-c"]). vm_compute. reflexivity. Defined.

End Workload.
