(* ===== verification/ContactPlan.v ===== *)
(** * ContactPlan: contact windows compiled into a scenario timeline (tools/contactplan.py)

    A CSV row is the dictionary [csv.DictReader] yields for a complete line.  [py_int] and
    [py_float] are Python's [int] and [float] of a string; a float is the decimal number
    written, before its rounding to binary. *)

From S2P Require Import Prelude Bytes Text Channel.

(** ** Numbers in text *)

Definition is_space (c : ascii) : bool := ((9 <=? code c) && (code c <=? 13)) || ((28 <=? code c) && (code c <=? 32)).

Fixpoint lstrip (s : string) : string :=
  match s with "" => "" | String c s' => if is_space c then lstrip s' else s end.

Fixpoint rstrip (s : string) : string :=
  match s with
  | "" => ""
  | String c s' => let r := rstrip s' in if String.eqb r "" && is_space c then "" else String c r
  end.

(** [s.strip()] *)
Definition strip (s : string) : string := rstrip (lstrip s).

(** Digits, single underscores allowed between them: the value and the number of digits. *)
Fixpoint digit_run (s : string) (digit_before : bool) (acc : Z) (count : nat) : option (Z * nat) :=
  match s with
  | "" => if digit_before then Some (acc, count) else None
  | String c s' =>
      if is_digit c then digit_run s' true (acc * 10 + (code c - 48)) (S count)
      else if Ascii.eqb c (ch 95) && digit_before then digit_run s' false acc count
      else None
  end.

Definition split_sign (s : string) : Z * string :=
  match s with
  | String c s' => if Ascii.eqb c (ch 45) then (-1, s') else if Ascii.eqb c (ch 43) then (1, s') else (1, s)
  | "" => (1, "")
  end.

(** [int(s)] *)
Definition py_int (s : string) : res Z :=
  let '(sign, body) := split_sign (strip s) in
  match digit_run body false 0 0 with
  | Some (v, _) => Ok (sign * v)
  | None => Err (ValueError "invalid literal for int() with base 10")
  end.

Lemma digits_strip s : all_chars is_digit s = true -> strip s = s.
Proof.
  intros Hs. unfold strip. assert (forall c, is_digit c = true -> is_space c = false) as Hd.
  { intros c. unfold is_digit, is_space. intros [H1 H2]%andb_true_iff. apply orb_false_iff. split; apply andb_false_iff; lia. }
  assert (lstrip s = s) as ->. { destruct s as [|c s]; [done|]. simpl in *. apply andb_true_iff in Hs as [Hc _]. by rewrite (Hd c Hc). }
  induction s as [|c s IH]; [done|]. simpl in *. apply andb_true_iff in Hs as [Hc Hs]. by rewrite IH, (Hd c Hc), andb_false_r.
Qed.

Lemma digit_run_digits s b acc n : all_chars is_digit s = true -> s <> "" \/ b = true -> exists m, digit_run s b acc n = Some (dec_fold s acc, m).
Proof.
  revert b acc n. induction s as [|c s IH]; intros b acc n Hs Hb; simpl in *; [destruct Hb as [?| ->]; [done|by eexists]|].
  apply andb_true_iff in Hs as [Hc Hs]. rewrite Hc. apply IH; [done|by right].
Qed.

(** [int(str(n)) == n] *)
Lemma py_int_pretty (n : Z) : 0 <= n -> py_int (pretty n) = Ok n.
Proof.
  intros Hn. unfold py_int. pose proof (pretty_digits n Hn) as Hd. rewrite digits_strip by done.
  assert (split_sign (pretty n) = (1, pretty n)) as ->.
  { pose proof (pretty_nonempty n) as Hne. destruct (pretty n) as [|c s]; [done|]. simpl in *. apply andb_true_iff in Hd as [Hc _].
    destruct (Ascii.eqb_spec c (ch 45)) as [->|_]; [by vm_compute in Hc|]. destruct (Ascii.eqb_spec c (ch 43)) as [->|_]; [by vm_compute in Hc|done]. }
  destruct (digit_run_digits (pretty n) false 0 0 Hd) as [m ->]; [left; apply pretty_nonempty|]. rewrite dec_fold_pretty by done. f_equal. lia.
Qed.

Definition lower_char (c : ascii) : ascii := if (65 <=? code c) && (code c <=? 90) then ch (code c + 32) else c.

Fixpoint lower (s : string) : string := match s with "" => "" | String c s' => String (lower_char c) (lower s') end.

Definition pow10Q (e : Z) : Q := if 0 <=? e then inject_Z (10 ^ e) else 1 # Z.to_pos (10 ^ (- e)).

Definition float_error : exn := ValueError "could not convert string to float".

(** The mantissa: digits with an optional point, at least one digit. *)
Definition mantissa (s : string) : option Q :=
  match split_on dot s with
  | [a] => match digit_run a false 0 0 with Some (v, _) => Some (inject_Z v) | None => None end
  | [a; b] =>
      let whole := if String.eqb a "" then Some 0 else match digit_run a false 0 0 with Some (v, _) => Some v | None => None end in
      let part := if String.eqb b "" then Some (0, 0%nat) else digit_run b false 0 0 in
      match whole, part with
      | Some w, Some (f, n) => if String.eqb a "" && String.eqb b "" then None else Some (inject_Z w + inject_Z f * pow10Q (- Z.of_nat n))%Q
      | _, _ => None
      end
  | _ => None
  end.

(** [float(s)] *)
Definition py_float (s : string) : res json :=
  let '(sign, body) := split_sign (lower (strip s)) in
  if mem body ["inf"; "infinity"; "nan"] then Ok JNonFinite else
  match split_on (ch 101) body with
  | [m] => match mantissa m with Some q => Ok (JFloat (inject_Z sign * q)%Q) | None => Err float_error end
  | [m; e] =>
      let '(esign, digits) := split_sign e in
      match mantissa m, digit_run digits false 0 0 with
      | Some q, Some (x, _) => Ok (JFloat (inject_Z sign * q * pow10Q (esign * x))%Q)
      | _, _ => Err float_error
      end
  | _ => Err float_error
  end.

Module Plan.

(** ** Data *)

Definition row : Type := list (string * string).

Record plan_link := PlanLink { id : string; source : string; target : string; admin_up : bool; operational_up : bool;
  latency_us : Z; capacity_bps : Z; link_type : string; range_km : json; doppler_hz : json; risk_groups : list string }.

Inductive event_type := link_down | link_up.

#[global] Instance event_type_eq_dec : EqDecision event_type.
Proof. solve_decision. Defined.

Record action := Action { at_ms : Z; kind : event_type; link_ids : list string; reconcile : bool }.

Record base := Base { nodes : list string; links : list plan_link; timeline : list action }.

Definition REQUIRED : list string := ["link_id"; "source"; "target"; "start_ms"; "end_ms"; "latency_us"; "capacity_bps"].

(** ** Operations *)

Definition field (r : row) (k : string) : res string := or_raise KeyError (dget r k).

Definition positive (r : row) (key : string) (allow_zero : bool) : res Z :=
  let* s := field r key in
  let* v := py_int s in
  raise (ValueError (key +:+ (" must be " +:+ (if allow_zero then "non-negative" else "positive")))) when
    (v <? 0) || ((v =? 0) && negb allow_zero) ;;
  Ok v.

(** [float(row.get(key) or 0)] *)
Definition optional_float (r : row) (key : string) : res json :=
  match dget r key with
  | Some s => if String.eqb s "" then Ok (JFloat 0) else py_float s
  | None => Ok (JFloat 0)
  end.

(** [sorted({v.strip() for v in (row.get('risk_groups') or '').split(';') if v.strip()})] *)
Definition groups (r : row) : list string :=
  sorted_strings (set_of (List.filter (fun s => negb (String.eqb s ""))
    (map strip (split_on (ch 59) (match dget r "risk_groups" with Some s => s | None => "" end))))).

Definition candidate (r : row) (link_id src dst : string) : res plan_link :=
  let* latency := positive r "latency_us" true in
  let* capacity := positive r "capacity_bps" false in
  let* range := optional_float r "range_km" in
  let* doppler := optional_float r "doppler_hz" in
  Ok (PlanLink link_id src dst true false latency capacity (match dget r "link_type" with Some s => s | None => "" end) range doppler (groups r)).

Record state := State { s_links : list (string * plan_link); topology : list plan_link;
  actions : list ((Z * event_type) * list string); windows : list (string * list (Z * Z)) }.

Definition overlaps (s e : Z) (w : Z * Z) : bool := (s <? w.2) && (w.1 <? e).

(** [d[key].append(x)] of a [defaultdict(list)] *)
Definition dappend {K V} `{EqDecision K} (d : list (K * list V)) (k : K) (x : V) : list (K * list V) :=
  dset d k (match dget d k with Some l => l ++ [x] | None => [x] end).

(** The body of [for row in rows]. *)
Definition add_row (ns : list string) (st : state) (r : row) : res state :=
  raise (ValueError "missing columns") when existsb (fun k => negb (dhas r k)) REQUIRED ;;
  let* src := field r "source" in
  let* dst := field r "target" in
  raise (ValueError "contact references unknown node") when negb (mem src ns) || negb (mem dst ns) ;;
  let* start := positive r "start_ms" true in
  let* stop := positive r "end_ms" false in
  raise (ValueError "end_ms must be after start_ms") when (stop <=? start) ;;
  let* link_id := field r "link_id" in
  let previous := match dget (windows st) link_id with Some l => l | None => [] end in
  raise (ValueError ("overlapping windows for " +:+ link_id)) when existsb (overlaps start stop) previous ;;
  let* c := candidate r link_id src dst in
  let ws := dappend (windows st) link_id (start, stop) in
  let acts := dappend (dappend (actions st) (start, link_up) link_id) (stop, link_down) link_id in
  match dget (s_links st) link_id with
  | Some old =>
      raise (ValueError ("link id reused with different endpoints: " +:+ link_id)) when
        negb (String.eqb (source old) src && String.eqb (target old) dst) ;;
      Ok (State (s_links st) (topology st) acts ws)
  | None => Ok (State (dset (s_links st) link_id c) (topology st ++ [c]) acts ws)
  end.

(** The order of [(at_ms, type)]: ["link_down" < "link_up"]. *)
Definition event_leb (a b : (Z * event_type) * list string) : bool :=
  (a.1.1 <? b.1.1) || ((a.1.1 =? b.1.1) && match a.1.2, b.1.2 with link_up, link_down => false | _, _ => true end).

Definition generated (acts : list ((Z * event_type) * list string)) : list action :=
  map (fun a => Action a.1.1 a.1.2 (sorted_strings a.2) true) (sort_by event_leb acts).

Definition compile_plan (b : base) (rows : list row) : res base :=
  let st := State (dict_of (map (fun l => (id l, l)) (links b))) (links b) [] [] in
  let* st := foldM (add_row (nodes b)) st rows in
  Ok (Base (nodes b) (topology st) (sort_by (fun x y => at_ms x <=? at_ms y) (timeline b ++ generated (actions st)))).

(** ** What the timeline says *)

(** The contact window a row asks for, of the link it names. *)
Definition row_window (r : row) : option (string * (Z * Z)) :=
  match field r "link_id", positive r "start_ms" true, positive r "end_ms" false with
  | Ok l, Ok s, Ok e => Some (l, (s, e))
  | _, _, _ => None
  end.

Definition row_windows (rows : list row) (l : string) : list (Z * Z) :=
  omap (fun r => match row_window r with Some (l', w) => if String.eqb l' l then Some w else None | None => None end) rows.

(** Whether a link is up after every action until [t], from [up] at the start. *)
Definition link_state (acts : list action) (l : string) (t : Z) (up : bool) : bool :=
  fold_left (fun up a => if (at_ms a <=? t) && mem l (link_ids a) then bool_decide (kind a = link_up) else up) acts up.

Definition inside (t : Z) (w : Z * Z) : bool := (w.1 <=? t) && (t <? w.2).

(** ** Sorted folds *)

Lemma sort_by_id {A} (leb : A -> A -> bool) l : StronglySorted (fun a b => leb a b = true) l -> sort_by leb l = l.
Proof.
  induction 1 as [|x l _ IH Hf]; simpl; [done|]. rewrite IH. destruct Hf as [|y l Hy _]; simpl; [done|]. by rewrite Hy.
Qed.

(** The last relevant element of a sorted list decides the fold. *)
Lemma fold_last {A} (leb : A -> A -> bool) (rel val : A -> bool) l b : (forall x, leb x x = true) ->
  StronglySorted (fun a b => leb a b = true) l ->
  (fold_left (fun b a => if rel a then val a else b) l b = b /\ forall a, a ∈ l -> rel a = false) \/
  exists a, a ∈ l /\ rel a = true /\ (forall a', a' ∈ l -> rel a' = true -> leb a' a = true) /\
    fold_left (fun b a => if rel a then val a else b) l b = val a.
Proof.
  intros Hr. induction l as [|x l IH] using rev_ind; intros Hs; [left; split; [done|by intros a ?%not_elem_of_nil]|].
  apply StronglySorted_app in Hs as (Hcross & Hl & _).
  assert (forall y, y ∈ l -> leb y x = true) as Hx.
  { intros y Hy. apply Hcross; [done|left]. }
  rewrite fold_left_app. simpl. destruct (rel x) eqn:Ex.
  - right. exists x. split_and!; [set_solver|done| |done]. intros a' [?| ->%list_elem_of_singleton]%elem_of_app; auto.
  - destruct (IH Hl) as [[E Hn]|(a & Ha & Hra & Hmax & E)].
    + left. split; [done|]. intros a [?| ->%list_elem_of_singleton]%elem_of_app; auto.
    + right. exists a. split_and!; [set_solver|done| |done]. intros a' [?| ->%list_elem_of_singleton]%elem_of_app; [auto|congruence].
Qed.

Lemma event_leb_total a b : event_leb a b = true \/ event_leb b a = true.
Proof. destruct a as [[ta [|]] la], b as [[tb [|]] lb]; unfold event_leb; simpl; lia. Qed.

Lemma event_leb_trans a b c : event_leb a b = true -> event_leb b c = true -> event_leb a c = true.
Proof. destruct a as [[ta [|]] la], b as [[tb [|]] lb], c as [[tc [|]] lc]; unfold event_leb; simpl; lia. Qed.

Lemma event_leb_time a b : event_leb a b = true -> a.1.1 <= b.1.1.
Proof. unfold event_leb. lia. Qed.

(** ** The loop *)

Definition wins (st : state) (l : string) : list (Z * Z) := default [] (dget (windows st) l).
Definition events (st : state) (k : Z * event_type) : list string := default [] (dget (actions st) k).

Record plan_ok (st : state) : Prop := {
  po_actions : d_ok (actions st);
  po_up t l : l ∈ events st (t, link_up) <-> exists e, (t, e) ∈ wins st l;
  po_down t l : l ∈ events st (t, link_down) <-> exists s, (s, t) ∈ wins st l;
  po_window l s e : (s, e) ∈ wins st l -> s < e;
  po_apart l : StronglySorted (fun w w' => overlaps w.1 w.2 w' = false) (wins st l) }.

Lemma default_dappend {K V} `{EqDecision K} (d : list (K * list V)) k x k' :
  default [] (dget (dappend d k x) k') = if decide (k' = k) then default [] (dget d k') ++ [x] else default [] (dget d k').
Proof. unfold dappend. rewrite dget_dset. case_decide; [|done]. subst. by destruct (dget d k). Qed.

Lemma overlaps_sym w w' : overlaps w.1 w.2 w' = overlaps w'.1 w'.2 w.
Proof. unfold overlaps. apply andb_comm. Qed.

(** Pairwise facts of a list, by position. *)
Lemma pairwise_lookup {A} (R : A -> A -> Prop) l i j x y : StronglySorted R l -> (i < j)%nat -> l !! i = Some x -> l !! j = Some y -> R x y.
Proof.
  intros H. revert i j. induction H as [|z l _ IH Hf]; intros [|i] [|j] Hij; try done; try lia; simpl.
  - intros [= <-] Hj. by apply (Forall_lookup_1 _ _ _ _ Hf Hj).
  - apply IH. lia.
Qed.

Lemma po_disjoint st l w w' : plan_ok st -> w ∈ wins st l -> w' ∈ wins st l -> w = w' \/ overlaps w.1 w.2 w' = false.
Proof.
  intros P [i Hi]%list_elem_of_lookup [j Hj]%list_elem_of_lookup. destruct (lt_eq_lt_dec i j) as [[Hij| ->]|Hij]; [right|left; congruence|right].
  - by apply (pairwise_lookup _ _ _ _ _ _ (po_apart _ P l) Hij).
  - rewrite overlaps_sym. by apply (pairwise_lookup _ _ _ _ _ _ (po_apart _ P l) Hij).
Qed.

(** What an accepted row adds. *)
Lemma add_row_inv ns st r st' : add_row ns st r = Ok st' ->
  exists l s e, row_window r = Some (l, (s, e)) /\ s < e /\ existsb (overlaps s e) (wins st l) = false /\
    windows st' = dappend (windows st) l (s, e) /\
    actions st' = dappend (dappend (actions st) (s, link_up) l) (e, link_down) l.
Proof.
  unfold add_row. split_guard. rewrite bind_Ok. intros (src & _ & H). apply bind_Ok in H as (dst & _ & H). revert H. split_guard.
  rewrite bind_Ok. intros (s & Hs & H). apply bind_Ok in H as (e & He & H). revert H. split_guard. rewrite bind_Ok.
  intros (l & Hl & H). revert H. split_guard. rewrite bind_Ok. intros (c & _ & H). bool_to_prop.
  exists l, s, e. unfold row_window. rewrite Hl, Hs, He. split_and!; try done.
  - destruct (dget (s_links st) l); revert H; [split_guard|]; intros [= <-]; done.
  - destruct (dget (s_links st) l); revert H; [split_guard|]; intros [= <-]; done.
Qed.

Lemma add_row_topology ns st r st' : add_row ns st r = Ok st' -> topology st' = topology st \/ exists c, topology st' = topology st ++ [c] /\ operational_up c = false.
Proof.
  unfold add_row. split_guard. rewrite bind_Ok. intros (src & _ & H). apply bind_Ok in H as (dst & _ & H). revert H. split_guard.
  rewrite bind_Ok. intros (s & _ & H). apply bind_Ok in H as (e & _ & H). revert H. split_guard. rewrite bind_Ok.
  intros (l & _ & H). revert H. split_guard. rewrite bind_Ok. intros (c & Hc & H).
  destruct (dget (s_links st) l); revert H; [split_guard; intros [= <-]; by left|]. intros [= <-]. right. exists c. split; [done|]. revert Hc.
  unfold candidate. rewrite bind_Ok. intros (x1 & _ & H). apply bind_Ok in H as (x2 & _ & H). apply bind_Ok in H as (x3 & _ & H). apply bind_Ok in H as (x4 & _ & [= <-]). done.
Qed.

Lemma add_row_ok ns st r st' : plan_ok st -> add_row ns st r = Ok st' ->
  plan_ok st' /\ forall l, wins st' l = wins st l ++ row_windows [r] l.
Proof.
  intros [P1 P2 P3 P4 P5] (l0 & s0 & e0 & Hr & Hlt & Ho & Hw & Ha)%add_row_inv.
  assert (forall l, wins st' l = wins st l ++ row_windows [r] l) as Hwins.
  { intros l. unfold wins, row_windows. rewrite Hw, default_dappend. simpl. rewrite Hr.
    destruct (String.eqb_spec l0 l) as [->|Hne]; [by rewrite decide_True|]. rewrite decide_False by congruence. by rewrite app_nil_r. }
  assert (forall l w, w ∈ wins st' l <-> w ∈ wins st l \/ (l = l0 /\ w = (s0, e0))) as Hin.
  { intros l w. unfold wins. rewrite Hw, default_dappend. case_decide; [|naive_solver].
    rewrite elem_of_app, list_elem_of_singleton. naive_solver. }
  split; [|done]. constructor.
  - rewrite Ha. unfold dappend. by repeat apply d_ok_dset.
  - intros t l. unfold events. rewrite Ha, !default_dappend. rewrite decide_False by done.
    fold (events st (t, link_up)). setoid_rewrite Hin. case_decide as E.
    + injection E as ->. rewrite elem_of_app, list_elem_of_singleton, P2. naive_solver.
    + rewrite P2. naive_solver.
  - intros t l. unfold events. rewrite Ha, !default_dappend. rewrite (decide_False (P := (t, link_down) = (s0, link_up))) by done.
    fold (events st (t, link_down)). setoid_rewrite Hin. case_decide as E.
    + injection E as ->. rewrite elem_of_app, list_elem_of_singleton, P3. naive_solver.
    + rewrite P3. naive_solver.
  - intros l s e. rewrite Hin. intros [?|[-> [= -> ->]]]; [by eapply P4|done].
  - intros l. unfold wins. rewrite Hw, default_dappend. case_decide; [|apply P5]. subst l. apply StronglySorted_app. split_and!; [|apply P5|repeat constructor].
    intros w v Hv ->%list_elem_of_singleton. rewrite overlaps_sym. apply not_true_iff_false. intros E. apply not_true_iff_false in Ho. apply Ho, existsb_exists. exists w. split; [by apply list_elem_of_In|done].
Qed.

Lemma add_rows_ok ns rows st st' : plan_ok st -> foldM (add_row ns) st rows = Ok st' ->
  plan_ok st' /\ forall l, wins st' l = wins st l ++ row_windows rows l.
Proof.
  revert st. induction rows as [|r rows IH]; intros st P; cbn [foldM].
  - intros [= <-]. split; [done|]. intros l. by rewrite app_nil_r.
  - rewrite bind_Ok. intros (s1 & H1 & H2). destruct (add_row_ok _ _ _ _ P H1) as [P1 W1]. destruct (IH _ P1 H2) as [P2 W2].
    split; [done|]. intros l. rewrite W2, W1, <- app_assoc. f_equal. unfold row_windows. simpl.
    by destruct (match row_window r with Some _ => _ | None => _ end).
Qed.

(** ** The replay *)

Lemma generated_sorted acts : StronglySorted (fun x y => (at_ms x <=? at_ms y) = true) (generated acts).
Proof.
  unfold generated. assert (StronglySorted (fun a b => event_leb a b = true) (sort_by event_leb acts)) as H.
  { apply sort_by_sorted; [apply event_leb_total|apply event_leb_trans]. }
  induction H as [|x l _ IH Hf]; simpl; constructor; [done|]. apply Forall_map. eapply Forall_impl; [exact Hf|].
  intros y Hy%event_leb_time. simpl. lia.
Qed.

Lemma generated_state acts l t up :
  link_state (generated acts) l t up =
  fold_left (fun up a => if (a.1.1 <=? t) && mem l a.2 then bool_decide (a.1.2 = link_up) else up) (sort_by event_leb acts) up.
Proof.
  unfold link_state, generated. generalize (sort_by event_leb acts). intros s. revert up.
  induction s as [|a s IH]; intros up; simpl; [done|]. rewrite IH. do 2 f_equal.
  unfold mem. rewrite (bool_decide_ext (l ∈ sorted_strings a.2) (l ∈ a.2)); [done|]. by rewrite sorted_strings_perm.
Qed.

Lemma event_elem st k l : plan_ok st -> l ∈ events st k <-> exists ls, (k, ls) ∈ actions st /\ l ∈ ls.
Proof.
  intros P. unfold events. split.
  - destruct (dget (actions st) k) as [ls|] eqn:E; simpl; [|by intros ?%not_elem_of_nil]. intros H. exists ls. split; [by apply dget_Some_in|done].
  - intros (ls & Hk & Hl). by rewrite (dget_in_ok _ _ _ (po_actions _ P) Hk).
Qed.

Definition started (t : Z) (w : Z * Z) : bool := w.1 <=? t.

Lemma replay_windows st l t up : plan_ok st ->
  link_state (generated (actions st)) l t up = if existsb (started t) (wins st l) then existsb (inside t) (wins st l) else up.
Proof.
  intros P. rewrite generated_state.
  destruct (fold_last event_leb (fun a => (a.1.1 <=? t) && mem l a.2) (fun a => bool_decide (a.1.2 = link_up))
    (sort_by event_leb (actions st)) up) as [[E Hn]|(a & Ha & Hrel & Hmax & E)].
  { intros [[x [|]] y]; unfold event_leb; simpl; lia. }
  { apply sort_by_sorted; [apply event_leb_total|apply event_leb_trans]. }
  - rewrite E. assert (existsb (started t) (wins st l) = false) as ->; [|done]. apply not_true_iff_false. rewrite existsb_exists. intros ([s e] & Hw & Hi). apply list_elem_of_In in Hw.
    assert (l ∈ events st (s, link_up)) as Hup by (apply (po_up _ P); by exists e).
    apply (event_elem _ _ _ P) in Hup as (ls & Hk & Hl). unfold started in Hi. simpl in Hi. bool_to_prop.
    assert (((s, link_up), ls) ∈ sort_by event_leb (actions st)) as Hin by by rewrite sort_by_perm.
    apply Hn in Hin. simpl in Hin. unfold mem in Hin. rewrite bool_decide_true in Hin by done. lia.
  - rewrite E. destruct a as [[u k] ls]. simpl in *. rewrite sort_by_perm in Ha. bool_to_prop.
    assert (l ∈ ls) as Hl by (unfold mem in *; by bool_to_prop).
    assert (forall u' k' ls', ((u', k'), ls') ∈ actions st -> u' <= t -> l ∈ ls' -> event_leb ((u', k'), ls') ((u, k), ls) = true) as Hlast.
    { intros u' k' ls' Hin Hu Hl'. apply Hmax; [by rewrite sort_by_perm|]. simpl. unfold mem. rewrite bool_decide_true by done. lia. }
    assert (existsb (started t) (wins st l) = true) as ->.
    { apply existsb_exists. unfold started. assert (l ∈ events st (u, k)) as Hk by (apply (event_elem _ _ _ P); by exists ls).
      destruct k; [apply (po_down _ P) in Hk as (s & Hw)|apply (po_up _ P) in Hk as (e & Hw)]; pose proof (po_window _ P _ _ _ Hw); eexists; (split; [by apply list_elem_of_In|simpl; lia]). }
    destruct k; simpl.
    + symmetry. apply not_true_iff_false. rewrite existsb_exists. intros ([s e] & Hw & Hi). apply list_elem_of_In in Hw. unfold inside in Hi. simpl in Hi. bool_to_prop.
      assert (l ∈ events st (u, link_down)) as (s' & Hw')%(po_down _ P) by (apply (event_elem _ _ _ P); by exists ls).
      assert (l ∈ events st (s, link_up)) as (ls' & Hk & Hl')%(event_elem _ _ _ P) by (apply (po_up _ P); by exists e).
      pose proof (Hlast _ _ _ Hk ltac:(lia) Hl') as Hle. unfold event_leb in Hle. simpl in Hle.
      pose proof (po_window _ P _ _ _ Hw'). destruct (po_disjoint _ _ _ _ P Hw Hw') as [[= -> ->]|Ho]; [lia|]. unfold overlaps in Ho. simpl in Ho. lia.
    + symmetry. apply existsb_exists. assert (l ∈ events st (u, link_up)) as (e & Hw)%(po_up _ P) by (apply (event_elem _ _ _ P); by exists ls).
      exists (u, e). split; [by apply list_elem_of_In|]. unfold inside. simpl. destruct (Z.ltb_spec t e); [lia|].
      assert (l ∈ events st (e, link_down)) as (ls' & Hk & Hl')%(event_elem _ _ _ P) by (apply (po_down _ P); by exists u).
      pose proof (Hlast _ _ _ Hk ltac:(lia) Hl') as Hle. pose proof (po_window _ P _ _ _ Hw). unfold event_leb in Hle. simpl in Hle. lia.
Qed.

Lemma plan_initial ls top : plan_ok (State ls top [] []).
Proof. constructor; unfold wins, events; simpl; try (intros; set_solver); [apply d_ok_nil|constructor]. Qed.

(** Actions that do not name the link do not change its state. *)
Lemma link_state_filter acts l t up : link_state acts l t up = link_state (List.filter (fun a => mem l (link_ids a)) acts) l t up.
Proof.
  unfold link_state. revert up. induction acts as [|a acts IH]; intros up; simpl; [done|]. destruct (mem l (link_ids a)) eqn:E; simpl; rewrite ?E; [apply IH|by rewrite andb_false_r].
Qed.

(** The actions of a timeline that is merged in, and that never names the link, do not change it either. *)
Lemma merged_state base acts l t up : (forall a, a ∈ base -> l ∉ link_ids a) ->
  link_state (sort_by (fun x y => at_ms x <=? at_ms y) (base ++ generated acts)) l t up = link_state (generated acts) l t up.
Proof.
  intros Hb. rewrite link_state_filter, sort_by_filter by (intros; lia). rewrite List.filter_app.
  assert (List.filter (fun a => mem l (link_ids a)) base = []) as ->.
  { induction base as [|a base IH]; simpl; [done|]. unfold mem at 1. rewrite bool_decide_false by (apply Hb; left). apply IH. intros a' Ha'. apply Hb. by right. }
  simpl. rewrite <- sort_by_filter by (intros; lia). rewrite (sort_by_id _ (generated acts)) by apply generated_sorted. by rewrite <- link_state_filter.
Qed.

(** A link the plan adds is down in the topology. *)
Lemma add_rows_topology ns rows st st' : foldM (add_row ns) st rows = Ok st' -> forall k, k ∈ topology st' -> k ∈ topology st \/ operational_up k = false.
Proof.
  revert st. induction rows as [|r rows IH]; intros st; cbn [foldM]; [intros [= <-]; by left|]. rewrite bind_Ok. intros (s1 & H1 & H2) k Hk.
  destruct (IH _ H2 k Hk) as [Hk1|?]; [|by right]. destruct (add_row_topology _ _ _ _ H1) as [E|(c & E & Hc)]; rewrite E in Hk1; [by left|].
  apply elem_of_app in Hk1 as [?| ->%list_elem_of_singleton]; [by left|by right].
Qed.

(** C32.  What an accepted contact plan schedules, for every link, every time and every state [up] the link starts in.  The windows of one link, whatever the order of the rows, are non-empty and never overlap (one may
    begin at the millisecond another ends).  Replaying the generated timeline puts the link up exactly during its windows: once its first window has begun it is up if and only if some row of the link has
    [start_ms <= t < end_ms]; before that it is as it started.  A link the plan adds to the topology is down there.  The replay is stated for a link no action of the base timeline names: those actions are
    merged in and do not disturb it. *)
Theorem compile_plan_windows b rows b' : compile_plan b rows = Ok b' ->
  (forall l i j w w', i <> j -> row_windows rows l !! i = Some w -> row_windows rows l !! j = Some w' -> w.2 <= w'.1 \/ w'.2 <= w.1) /\
  (forall l w, w ∈ row_windows rows l -> w.1 < w.2) /\
  (forall k, k ∈ links b' -> k ∈ links b \/ operational_up k = false) /\
  forall l t up, (forall a, a ∈ timeline b -> l ∉ link_ids a) ->
    link_state (timeline b') l t up = if existsb (fun w => w.1 <=? t) (row_windows rows l) then existsb (fun w => (w.1 <=? t) && (t <? w.2)) (row_windows rows l) else up.
Proof.
  unfold compile_plan. rewrite bind_Ok. intros (st & Hst & [= <-]). destruct (add_rows_ok _ _ _ _ (plan_initial _ _) Hst) as [P W]. split_and!; cbn [links timeline].
  - intros l i j w w' Hij Hi Hj. pose proof (po_apart _ P l) as Ho. rewrite W in Ho. cbn in Ho.
    assert (w.1 < w.2 /\ w'.1 < w'.2) as [].
    { split; [apply (po_window _ P l)|apply (po_window _ P l)]; rewrite <- surjective_pairing, W; cbn; by eapply list_elem_of_lookup_2. }
    destruct (lt_eq_lt_dec i j) as [[Hlt|?]|Hlt]; [|done|]; pose proof (pairwise_lookup _ _ _ _ _ _ Ho Hlt ltac:(eassumption) ltac:(eassumption)) as H'; unfold overlaps in H'; lia.
  - intros l w Hw. apply (po_window _ P l). rewrite <- surjective_pairing, W. done.
  - apply (add_rows_topology _ _ _ _ Hst).
  - intros l t up Hb. rewrite merged_state by done. by rewrite (replay_windows _ _ _ _ P), W.
Qed.

(** Two windows of one link, back to back. *)
Definition example_row (start stop : string) : row :=
  [("link_id", "l1"); ("source", "sat"); ("target", "gw"); ("start_ms", start); ("end_ms", stop); ("latency_us", "4000");
   ("capacity_bps", "1000000"); ("risk_groups", " site:b ; site:a")].

Definition example_rows : list row := [example_row "2000" "3000"; example_row "0" "2000"].

Definition example_plan : base := Base ["sat"; "gw"] [] [Action 1500 link_down ["other"] true].

Definition example_base : base := match compile_plan example_plan example_rows with Ok b => b | Err _ => Base [] [] [] end.

Lemma compile_plan_windows_witness :
  (forall t up, link_state (timeline example_base) "l1" t up = if existsb (fun w => w.1 <=? t) (row_windows example_rows "l1") then existsb (fun w => (w.1 <=? t) && (t <? w.2)) (row_windows example_rows "l1") else up) /\
  map (fun t => link_state (timeline example_base) "l1" t false) [-1; 0; 1999; 2000; 2999; 3000] = [false; true; true; true; true; false].
Proof.
  split; [|vm_compute; reflexivity]. intros t up. apply (compile_plan_windows example_plan example_rows); [vm_compute; reflexivity|].
  intros a ->%list_elem_of_singleton. cbn. by intros [=]%list_elem_of_singleton.
Defined.

End Plan.
