(* ===== verification/Ephemeris.v ===== *)
(** * Ephemeris: geometry and contact windows (tools/ephemeris_contacts.py)

    Times are microseconds since the Unix epoch, the resolution of [datetime].  Lengths,
    angles and rates are rationals; [Math] stands for the [math] functions whose values are
    not rational.  A negative zero prints as zero. *)

From S2P Require Import Prelude Bytes Text Channel ShortestPath Fabric LiveModel.

(** The transcendental functions of Python's [math] module in use. *)
Class Math := { m_sqrt : Q -> Q; m_sin : Q -> Q; m_cos : Q -> Q; m_asin : Q -> Q; m_radians : Q -> Q; m_degrees : Q -> Q;
  m_log2 : Q -> Q; m_exp10 : Q -> Q }.

Module Ephemeris.

(** ** Data *)

Definition EARTH_RADIUS_KM : Q := 6378137 # 1000.
Definition WGS84_FLATTENING : Q := 1000000000 # 298257223563.
Definition WGS84_ECCENTRICITY_SQUARED : Q := WGS84_FLATTENING * (2 - WGS84_FLATTENING).
Definition EARTH_ROTATION_RAD_S : Q := 72921150 # 1000000000000.
Definition LIGHT_KM_S : Q := 299792458 # 1000.

Definition vec : Type := Q * Q * Q.

Record sample := Sample { at_us : Z; position : vec; velocity : vec }.

Record station := Station { st_id : string; latitude_deg : Q; longitude_deg : Q; altitude_m : option Q }.

(** [(b - a).total_seconds()] *)
Definition seconds_between (a b : Z) : Q := inject_Z (b - a) / 1000000.

Definition Qmin_ (a b : Q) : Q := if Qle_bool a b then a else b.
Definition Qmax_ (a b : Q) : Q := if Qle_bool b a then a else b.

(** ** Vectors *)

Definition dot (a b : vec) : Q := let '(x, y, z) := a in let '(u, v, w) := b in x * u + y * v + z * w.
Definition subtract (a b : vec) : vec := let '(x, y, z) := a in let '(u, v, w) := b in (x - u, y - v, z - w)%Q.

Section Geometry.
Context `{M : Math}.

Definition norm (v : vec) : Q := m_sqrt (dot v v).

Definition julian_date (at_ : Z) : Q := inject_Z at_ / 1000000 / 86400 + (24405875 # 10).

(** [q % 360.0] *)
Definition mod360 (q : Q) : Q := q - 360 * inject_Z (Qfloor (q / 360)).

Definition greenwich_mean_sidereal_time (at_ : Z) : Q :=
  let jd := julian_date at_ in
  let centuries : Q := ((jd - 2451545) / 36525)%Q in
  let degrees : Q := ((28046061837 # 100000000) + (36098564736629 # 100000000000) * (jd - 2451545)
                 + (387933 # 1000000000) * centuries * centuries - centuries * centuries * centuries / 38710000)%Q in
  m_radians (mod360 degrees).

Definition rotate_ecef_to_teme (v : vec) (angle : Q) : vec :=
  let '(x, y, z) := v in
  let cosine := m_cos angle in
  let sine := m_sin angle in
  (cosine * x - sine * y, sine * x + cosine * y, z)%Q.

Definition ground_teme (s : station) (at_ : Z) : vec * vec * vec :=
  let lat := m_radians (latitude_deg s) in
  let lon := m_radians (longitude_deg s) in
  let altitude_km : Q := (match altitude_m s with Some a => a / 1000 | None => 0 end)%Q in
  let prime_vertical : Q := (EARTH_RADIUS_KM / m_sqrt (1 - WGS84_ECCENTRICITY_SQUARED * (m_sin lat * m_sin lat)))%Q in
  let ecef : vec := ((prime_vertical + altitude_km) * m_cos lat * m_cos lon,
                     (prime_vertical + altitude_km) * m_cos lat * m_sin lon,
                     (prime_vertical * (1 - WGS84_ECCENTRICITY_SQUARED) + altitude_km) * m_sin lat)%Q in
  let up_ecef : vec := (m_cos lat * m_cos lon, m_cos lat * m_sin lon, m_sin lat)%Q in
  let angle := greenwich_mean_sidereal_time at_ in
  let pos := rotate_ecef_to_teme ecef angle in
  let up := rotate_ecef_to_teme up_ecef angle in
  let '(px, py, _) := pos in
  (pos, (- EARTH_ROTATION_RAD_S * py, EARTH_ROTATION_RAD_S * px, 0)%Q, up).

Definition ground_eci (s : station) (at_ : Z) : vec * vec := let '(p, v, _) := ground_teme s at_ in (p, v).

(** [math.asin] raises outside [-1, 1]. *)
Definition asin_checked (x : Q) : res Q :=
  raise (ValueError "math domain error") when Qltb x (-1) || Qltb 1 x ;; Ok (m_asin x).

(** [a / b] *)
Definition divide (a b : Q) : res Q := raise ZeroDivisionError when Qeq_bool b 0 ;; Ok (a / b)%Q.

Definition elevation_deg (satellite ground : vec) (up : option vec) : res Q :=
  let line := subtract satellite ground in
  let zenith := match up with Some u => u | None => ground end in
  let* ratio := divide (dot line zenith) (norm line * norm zenith) in
  let* angle := asin_checked ratio in
  Ok (m_degrees angle).

Definition intersat_visible (a b : vec) (clearance_km : Q) : bool :=
  let direction := subtract b a in
  let denominator := dot direction direction in
  if Qeq_bool denominator 0 then false else
  let parameter := Qmax_ 0 (Qmin_ 1 (- dot a direction / denominator)) in
  let '(x, y, z) := a in
  let '(dx, dy, dz) := direction in
  Qltb (EARTH_RADIUS_KM + clearance_km) (norm (x + parameter * dx, y + parameter * dy, z + parameter * dz)%Q).

Definition measurement (a : sample) (b_position b_velocity : vec) (carrier_hz : Q) : res (Q * Z * Q) :=
  let delta := subtract (position a) b_position in
  let relative_velocity := subtract (velocity a) b_velocity in
  let distance := norm delta in
  let* range_rate := divide (dot delta relative_velocity) distance in
  Ok (distance, Qceiling (distance / LIGHT_KM_S * 1000000), - range_rate / LIGHT_KM_S * carrier_hz)%Q.

(** ** Contact windows *)

Record record := Record_ { r_at : Z; visible : bool; range_km : Q; latency_us : Z; doppler_hz : Q }.
Record window := Window { w_at : Z; w_end : Z; max_range_km : Q; max_abs_doppler_hz : Q; max_latency_us : Z }.

Definition Qabs_ (q : Q) : Q := if Qle_bool 0 q then q else - q.

(** The updates of [active] with a visible record. *)
Definition extend (w : window) (r : record) : window :=
  Window (w_at w) (r_at r) (Qmax_ (max_range_km w) (range_km r)) (Qmax_ (max_abs_doppler_hz w) (Qabs_ (doppler_hz r)))
    (Z.max (max_latency_us w) (latency_us r)).

(** [dict(record)], before its maxima exist: [get] gives 0 for them. *)
Definition fresh (r : record) : window := Window (r_at r) (r_at r) 0 0 0.

Definition contiguous_step (step : Q) (st : list window * option window) (r : record) : list window * option window :=
  let (windows, active) := st in
  if visible r then
    match active with
    | None => (windows, Some (extend (fresh r) r))
    | Some w =>
        if Qltb (step * (3 # 2)) (seconds_between (w_end w) (r_at r))
        then (windows ++ [w], Some (extend (fresh r) r))
        else (windows, Some (extend w r))
    end
  else
    match active with
    | Some w => (windows ++ [w], None)
    | None => (windows, None)
    end.

Definition contiguous (records : list record) (step : Q) : list window :=
  let (windows, active) := fold_left (contiguous_step step) records ([], None) in
  windows ++ match active with Some w => [w] | None => [] end.

(** ** The contact table *)

Record crow := CRow { link_id : string; source : string; target : string; start_ms : Z; end_ms : Z; c_latency_us : Z;
  capacity_bps : Z; c_range_km : string; c_doppler_hz : string; link_type : string; risk_groups : string }.

Record arguments := Arguments_ { minimum_elevation_deg : Q; intersat_clearance_km : Q; carrier_hz : Q; a_capacity_bps : Z }.

(** [min(gaps, default=1.0)] *)
Definition min_gap (times : list Z) : Q :=
  match map (fun ab => seconds_between ab.1 ab.2) (zip times (drop 1 times)) with
  | [] => 1
  | g :: gs => fold_left Qmin_ gs g
  end.

Definition window_row (args : arguments) (start : Z) (step : Q) (kind groups : string) (w : window) (src dst : string) : crow :=
  CRow (src +:+ ("-" +:+ dst)) src dst (Qtrunc (seconds_between start (w_at w) * 1000))
    (Qtrunc (seconds_between start (w_end w) * 1000 + step * 1000)) (max_latency_us w) (a_capacity_bps args)
    (fixed3 (max_range_km w)) (fixed3 (max_abs_doppler_hz w)) kind groups.

Definition both_rows (args : arguments) (start : Z) (step : Q) (kind groups : string) (a b : string) (w : window) : list crow :=
  [window_row args start step kind groups w a b; window_row args start step kind groups w b a].

Definition ground_record (args : arguments) (s : station) (x : sample) : res record :=
  let '(pos, vel, up) := ground_teme s (at_us x) in
  let* (distance, latency, doppler) := measurement x pos vel (carrier_hz args) in
  let* e := elevation_deg (position x) pos (Some up) in
  Ok (Record_ (at_us x) (Qle_bool (minimum_elevation_deg args) e) distance latency doppler).

Definition ground_rows (args : arguments) (start : Z) (sat : string) (samples : list sample) (s : station) : res (list crow) :=
  let step := min_gap (map at_us samples) in
  let* records := mapM_res (ground_record args s) samples in
  Ok (concat (map (both_rows args start step "sat-ground" ("ground-site:" +:+ st_id s) sat (st_id s)) (contiguous records step))).

Definition Zsort : list Z -> list Z := sort_by Z.leb.

Definition intersat_record (args : arguments) (ab : sample * sample) : res record :=
  let (a, b) := ab in
  let* (distance, latency, doppler) := measurement a (position b) (velocity b) (carrier_hz args) in
  Ok (Record_ (at_us a) (intersat_visible (position a) (position b) (intersat_clearance_km args)) distance latency doppler).

Definition by_time (l : list sample) : list (Z * sample) := dict_of (map (fun s => (at_us s, s)) l).

Definition intersat_rows (args : arguments) (start : Z) (left right : string) (ls rs : list sample) : res (list crow) :=
  let l := by_time ls in
  let r := by_time rs in
  let common := Zsort (List.filter (fun t => dhas r t) (dkeys l)) in
  let step := min_gap common in
  let* pairs := mapM_res (fun t => let* a := or_raise KeyError (dget l t) in let* b := or_raise KeyError (dget r t) in Ok (a, b)) common in
  let* records := mapM_res (intersat_record args) pairs in
  Ok (concat (map (both_rows args start step "oisl" "" left right) (contiguous records step))).

(** The pairs [(left, right)] of the nested loops over the sorted names. *)
Fixpoint name_pairs {A} (l : list A) : list (A * A) := match l with [] => [] | x :: l' => map (pair x) l' ++ name_pairs l' end.

Definition crow_leb (a b : crow) : bool :=
  (start_ms a <? start_ms b) || ((start_ms a =? start_ms b) && String.leb (link_id a) (link_id b)).

(** [main] between reading its inputs and writing the table. *)
Definition contact_rows (args : arguments) (ephemerides : list (string * list sample)) (stations : list station) : res (list crow) :=
  let times := concat (map (fun kv => map at_us kv.2) ephemerides) in
  let* start := match times with [] => Err (ValueError "min() arg is an empty sequence") | t :: ts => Ok (fold_left Z.min ts t) end in
  let named := sort_by (fun a b : string * list sample => String.leb a.1 b.1) ephemerides in
  let* ground := mapM_res (fun kv => mapM_res (ground_rows args start kv.1 kv.2) stations) named in
  let* inter := mapM_res (fun ab : (string * list sample) * (string * list sample) => intersat_rows args start ab.1.1 ab.2.1 ab.1.2 ab.2.2) (name_pairs named) in
  Ok (sort_by crow_leb (concat (map (@concat crow) ground) ++ concat inter)).

End Geometry.

(** ** The windows *)

(** The window of a run of records. *)
Definition window_of (r : record) (rs : list record) : window := fold_left extend rs (extend (fresh r) r).

(** Successive records of a run are at most one and a half steps apart. *)
Fixpoint close (step : Q) (r : record) (rs : list record) : Prop :=
  match rs with
  | [] => True
  | r' :: rs' => (seconds_between (r_at r) (r_at r') <= step * (3 # 2))%Q /\ close step r' rs'
  end.

Definition run_window (step : Q) (run : list record) (w : window) : Prop :=
  exists r rs, run = r :: rs /\ close step r rs /\ w = window_of r rs.

Lemma window_end r rs : w_end (window_of r rs) = r_at (List.last rs r).
Proof.
  unfold window_of. rewrite <- (rev_involutive rs). destruct (rev rs) as [|x l]; [done|]. simpl.
  rewrite fold_left_app, last_last. done.
Qed.

Lemma last_nonempty {A} (a b : A) (l : list A) : l <> [] -> List.last l a = List.last l b.
Proof. induction l as [|x [|y l] IH]; intros H; [done|done|]. by apply IH. Qed.

Lemma close_snoc step r rs x : close step r rs -> (seconds_between (r_at (List.last rs r)) (r_at x) <= step * (3 # 2))%Q -> close step r (rs ++ [x]).
Proof.
  revert r. induction rs as [|r' rs IH]; intros r; simpl; [by split|]. intros [H1 H2] H. split; [done|]. apply IH; [done|].
  destruct rs as [|y rs]; [done|]. rewrite (last_nonempty r' r) by done. exact H.
Qed.

(** What the loop has found: the closed windows and, if a run is open, its window. *)
Definition found (step : Q) (seen : list record) (st : list window * option window) : Prop :=
  exists runs, Forall2 (run_window step) runs (st.1 ++ match st.2 with Some w => [w] | None => [] end) /\
    concat runs = List.filter visible seen.

Lemma contiguous_found step seen r st : found step seen st -> found step (seen ++ [r]) (contiguous_step step st r).
Proof.
  destruct st as [ws act]. intros (runs & Hruns & Hc). unfold found, contiguous_step. rewrite List.filter_app. simpl in *.
  destruct (visible r) eqn:Ev; [destruct act as [w|]|].
  - apply Forall2_app_inv_r in Hruns as (runs1 & runs2 & H1 & H2 & ->). inversion H2 as [|run ? l ? Hr H2']; subst.
    inversion H2'; subst. destruct Hr as (r0 & rs & -> & Hcl & ->). destruct (Qltb _ _) eqn:Eg.
    + exists ((runs1 ++ [r0 :: rs]) ++ [[r]]). split; [|rewrite concat_app, Hc; by simpl].
      apply Forall2_app; [apply Forall2_app; [done|]|]; constructor; try constructor; [by exists r0, rs|by exists r, []].
    + exists (runs1 ++ [r0 :: rs ++ [r]]). split.
      * apply Forall2_app; [done|]. constructor; [|constructor]. exists r0, (rs ++ [r]). split_and!; [done| |].
        -- apply close_snoc; [done|]. rewrite window_end in Eg. apply Qnot_lt_le. intros Hlt. apply Clock.Qltb_true in Hlt. congruence.
        -- unfold window_of. by rewrite fold_left_app.
      * rewrite concat_app in *. simpl in *. rewrite app_nil_r in *. rewrite <- Hc, <- app_assoc. done.
  - rewrite app_nil_r in Hruns. exists (runs ++ [[r]]). split; [|by rewrite concat_app, Hc].
    apply Forall2_app; [done|]. constructor; [by exists r, []|constructor].
  - exists runs. split; [|by rewrite app_nil_r]. destruct act; simpl; [|done]. by rewrite app_nil_r.
Qed.

(** [contiguous] cuts the visible records, in order and without losing or repeating
    one, into runs of samples at most one and a half steps apart, and gives for each run the
    window from its first to its last sample with the greatest range, Doppler shift and
    latency seen in it. *)
Theorem contiguous_runs records step :
  exists runs, concat runs = List.filter visible records /\ Forall2 (run_window step) runs (contiguous records step).
Proof.
  assert (found step records (fold_left (contiguous_step step) records ([], None))) as H.
  { induction records as [|r records IH] using rev_ind; [by exists []|]. rewrite fold_left_app. by apply contiguous_found. }
  unfold contiguous. destruct (fold_left _ _ _) as [ws act]. destruct H as (runs & Hr & Hc). by exists runs.
Qed.

End Ephemeris.
