(* ===== verification/Feeder.v ===== *)
(** * Feeder: the max-min terminal allocation of the physical constellation
    (tools/physical_constellation.py, [Contacts.feeder_pairs])

    The dictionaries of sets are finite maps of finite sets.  [allocate] follows augmenting
    paths: its recursion is bounded by the satellites it has not visited, so that one more
    than their number is enough fuel.  [visited] is one mutable set shared by the whole
    search and is threaded through it. *)

From S2P Require Import Prelude.
From Stdlib Require Export QArith.
#[global] Open Scope Z_scope.
#[global] Open Scope list_scope.

Module Feeder.

(** ** State *)

(** [assigned[gw]] and [owners[sat]] *)
Record alloc := Alloc { assigned : gmap string (gset string); owners : gmap string (gset string) }.

(** [sat] and [gw] of the pairs chosen by the previous frame, with the time each was chosen. *)
Definition selection : Type := list ((string * string) * Q).

Section Feeder.
Context (choices : list (string * list string)) (selected : selection) (limit terminals : Z).
Context (acquisition : Q) (offset : option Q).

Definition choices_of (gw : string) : list string := match dget choices gw with Some l => l | None => [] end.

Definition size_of (m : gmap string (gset string)) (k : string) : Z := Z.of_nat (size (m !!! k)).

(** [owners[sat].add(gw); assigned[gw].add(sat)] *)
Definition give (st : alloc) (gw sat : string) : alloc :=
  Alloc (<[gw := {[sat]} ∪ assigned st !!! gw]> (assigned st)) (<[sat := {[gw]} ∪ owners st !!! sat]> (owners st)).

(** [owners[sat].remove(gw); assigned[gw].remove(sat)] *)
Definition take_back (st : alloc) (gw sat : string) : res alloc :=
  if decide (gw ∈ owners st !!! sat) then
    if decide (sat ∈ assigned st !!! gw) then
      Ok (Alloc (<[gw := assigned st !!! gw ∖ {[sat]}]> (assigned st)) (<[sat := owners st !!! sat ∖ {[gw]}]> (owners st)))
    else Err KeyError
  else Err KeyError.

Definition locked (sat gw : string) : bool :=
  match dget selected (sat, gw) with
  | None => false
  | Some since => match offset with None => true | Some now => Qle_bool acquisition (now - since) end
  end.

(** [sum(locked(s, gw) for s in assigned[gw])] *)
Definition locked_count (st : alloc) (gw : string) : Z :=
  len (List.filter (fun s => locked s gw) (elements (assigned st !!! gw))).

(** [sorted(owners[sat], key=lambda n: (-len(choices[n]), n))] *)
Definition scarce_leb (a b : string) : bool :=
  (len (choices_of b) <? len (choices_of a)) || ((len (choices_of a) =? len (choices_of b)) && String.leb a b).

Definition displaceable (st : alloc) (sat : string) : list string := sort_by scarce_leb (elements (owners st !!! sat)).

(** ** Augmenting paths *)

Definition outcome : Type := bool * gset string * alloc.

Section Allocate.
Context (recurse : string -> gset string -> alloc -> res outcome).

(** [for other in sorted(owners[sat], ...)]: frees [sat] by moving one of its owners. *)
Fixpoint displace (gw sat : string) (others : list string) (visited : gset string) (st : alloc) : res outcome :=
  match others with
  | [] => Ok (false, visited, st)
  | other :: others' =>
      if dhas selected (sat, other) && (locked_count st other <=? 2) then displace gw sat others' visited st else
      let* st1 := take_back st other sat in
      let* (moved, visited', st2) := recurse other visited st1 in
      if (moved : bool) then Ok (true, visited', give st2 gw sat)
      else displace gw sat others' visited' (give st2 other sat)
  end.

(** [for sat in choices[gw]] *)
Fixpoint each (gw : string) (sats : list string) (visited : gset string) (st : alloc) : res outcome :=
  match sats with
  | [] => Ok (false, visited, st)
  | sat :: sats' =>
      if decide (sat ∈ assigned st !!! gw) then each gw sats' visited st else
      if decide (sat ∈ visited) then each gw sats' visited st else
      let visited := {[sat]} ∪ visited in
      if size_of (owners st) sat <? limit then Ok (true, visited, give st gw sat) else
      let* (done, visited', st') := displace gw sat (displaceable st sat) visited st in
      if (done : bool) then Ok (true, visited', st') else each gw sats' visited' st'
  end.

End Allocate.

Fixpoint allocate (fuel : nat) (gw : string) (visited : gset string) (st : alloc) : res outcome :=
  match fuel with
  | O => Err OutOfFuel
  | S fuel' => each (allocate fuel') gw (choices_of gw) visited st
  end.

(** Every satellite some gateway can choose. *)
Definition satellites : gset string := list_to_set (concat (dvalues choices)).

Definition search_fuel : nat := S (size satellites).

(** ** The passes of [feeder_pairs] *)

Definition names : list string := sorted_strings (dkeys choices).

(** Keeps an established assignment that is still visible. *)
Definition keep_pair (gw : string) (st : alloc) (sat : string) : alloc :=
  if dhas selected (sat, gw) && (size_of (assigned st) gw <? terminals) && (size_of (owners st) sat <? limit)
  then give st gw sat else st.

Definition keep_gateway (st : alloc) (gw : string) : alloc := fold_left (keep_pair gw) (choices_of gw) st.

(** [sorted(choices, key=lambda n: (len(choices[n]), n))] *)
Definition round_order : list string :=
  sort_by (fun a b => (len (choices_of a) <? len (choices_of b)) || ((len (choices_of a) =? len (choices_of b)) && String.leb a b)) (dkeys choices).

(** The first satellite with an owner that can spare a terminal: [donor] yields it to [gw]. *)
Fixpoint borrow (count : Z) (gw : string) (sats : list string) (st : alloc) : res alloc :=
  match sats with
  | [] => Ok st
  | sat :: sats' =>
      if decide (sat ∈ assigned st !!! gw) then borrow count gw sats' st else
      match List.find (fun n => Z.max 2 (count + 1) <? size_of (assigned st) n) (sorted_strings (elements (owners st !!! sat))) with
      | Some donor =>
          if String.eqb donor "" then borrow count gw sats' st else
          let* st1 := take_back st donor sat in Ok (give st1 gw sat)
      | None => borrow count gw sats' st
      end
  end.

Definition serve (count : Z) (st : alloc) (gw : string) : res alloc :=
  if size_of (assigned st) gw <=? count then
    let* (found, _, st') := allocate search_fuel gw ∅ st in
    if (found : bool) then Ok st' else borrow count gw (choices_of gw) st'
  else Ok st.

Definition one_round (st : alloc) (count : Z) : res alloc := foldM (serve count) st round_order.

(** Acquires a successor before a predicted departure. *)
Definition renew (expiring : list (string * string)) (st : alloc) (gw : string) : res alloc :=
  if locked_count st gw <? 3 then Ok st else
  match List.find (fun s => bool_decide (s ∈ assigned st !!! gw) && mem (s, gw) expiring) (choices_of gw) with
  | None => Ok st
  | Some old =>
      let* st1 := take_back st gw old in
      let* (found, _, st2) := allocate search_fuel gw (list_to_set (List.filter (fun s => mem (s, gw) expiring) (choices_of gw))) st1 in
      Ok (if (found : bool) then st2 else give st2 gw old)
  end.

(** [{(sat, gw) for gw, sats in assigned.items() for sat in sats}] *)
Definition pairs_of (st : alloc) : list (string * string) :=
  concat (map (fun gw => map (fun sat => (sat, gw)) (elements (assigned st !!! gw))) (dkeys choices)).

Definition feeder_pairs (expiring : list (string * string)) : res (list (string * string)) :=
  let st := fold_left keep_gateway names (Alloc ∅ ∅) in
  let* st := foldM one_round st (seqZ 0 terminals) in
  let* st := foldM (renew expiring) st names in
  Ok (pairs_of st).

(** ** The invariant of the allocation *)

Record inv (st : alloc) : Prop := {
  inv_dual gw sat : sat ∈ assigned st !!! gw <-> gw ∈ owners st !!! sat;
  inv_choice gw sat : sat ∈ assigned st !!! gw -> sat ∈ choices_of gw;
  inv_limit sat : size_of (owners st) sat <= limit }.

Lemma total_insert (m : gmap string (gset string)) k v k' : <[k := v]> m !!! k' = if decide (k' = k) then v else m !!! k'.
Proof. rewrite !lookup_total_alt, lookup_insert. repeat case_decide; naive_solver. Qed.

Lemma size_add (X : gset string) x : x ∉ X -> Z.of_nat (size ({[x]} ∪ X)) = Z.of_nat (size X) + 1.
Proof. intros. rewrite size_union by set_solver. rewrite size_singleton. lia. Qed.

Lemma size_remove (X : gset string) x : x ∈ X -> Z.of_nat (size (X ∖ {[x]})) = Z.of_nat (size X) - 1.
Proof.
  intros. rewrite size_difference by set_solver. rewrite size_singleton.
  assert (size X <> 0)%nat by (apply size_non_empty_iff; set_solver). lia.
Qed.

Lemma give_assigned st gw sat g : assigned (give st gw sat) !!! g = if decide (g = gw) then {[sat]} ∪ assigned st !!! gw else assigned st !!! g.
Proof. unfold give; simpl. apply total_insert. Qed.

Lemma give_owners st gw sat s : owners (give st gw sat) !!! s = if decide (s = sat) then {[gw]} ∪ owners st !!! sat else owners st !!! s.
Proof. unfold give; simpl. apply total_insert. Qed.

Lemma give_inv st gw sat : inv st -> sat ∉ assigned st !!! gw -> sat ∈ choices_of gw -> size_of (owners st) sat < limit ->
  inv (give st gw sat) /\ forall g, size_of (assigned (give st gw sat)) g = size_of (assigned st) g + (if decide (g = gw) then 1 else 0).
Proof.
  intros [A B C] Hn Hc Hs. assert (gw ∉ owners st !!! sat) as Hn' by (by rewrite <- A). split.
  - constructor.
    + intros g s. rewrite give_assigned, give_owners. pose proof (A g s). pose proof (A gw s). pose proof (A g sat).
      repeat case_decide; subst; set_solver.
    + intros g s. rewrite give_assigned. case_decide; [subst|apply B]. rewrite elem_of_union, elem_of_singleton. intros [->|?]; auto.
    + intros s. unfold size_of. rewrite give_owners. case_decide; [subst|apply C]. rewrite size_add by done. unfold size_of in Hs. lia.
  - intros g. unfold size_of. rewrite give_assigned. case_decide; [subst; by rewrite size_add|lia].
Qed.

Lemma take_back_inv st gw sat : inv st -> sat ∈ assigned st !!! gw ->
  exists st1, take_back st gw sat = Ok st1 /\ inv st1 /\ give st1 gw sat = st /\
    (forall g, size_of (assigned st1) g = size_of (assigned st) g - (if decide (g = gw) then 1 else 0)) /\
    (forall s, owners st1 !!! s = if decide (s = sat) then owners st !!! sat ∖ {[gw]} else owners st !!! s) /\
    (forall g, assigned st1 !!! g = if decide (g = gw) then assigned st !!! gw ∖ {[sat]} else assigned st !!! g).
Proof.
  intros [A B C] Hin. assert (gw ∈ owners st !!! sat) as Ho by (by apply A). unfold take_back. rewrite !decide_True by done.
  eexists; split; [done|]. set (st1 := Alloc _ _).
  assert (forall s, owners st1 !!! s = if decide (s = sat) then owners st !!! sat ∖ {[gw]} else owners st !!! s) as Eo by (intros; apply total_insert).
  assert (forall g, assigned st1 !!! g = if decide (g = gw) then assigned st !!! gw ∖ {[sat]} else assigned st !!! g) as Ea by (intros; apply total_insert).
  split_and!; try done.
  - constructor.
    + intros g s. rewrite Ea, Eo. pose proof (A g s). pose proof (A gw s). pose proof (A g sat). repeat case_decide; subst; set_solver.
    + intros g s. rewrite Ea. case_decide; [subst|apply B]. rewrite elem_of_difference. intros [? _]. auto.
    + intros s. unfold size_of. rewrite Eo. case_decide; [subst|apply C]. rewrite size_remove by done. pose proof (C sat). unfold size_of in *. lia.
  - unfold give. rewrite (Ea gw), (Eo sat), !decide_True by done. unfold st1. simpl. rewrite !insert_insert_eq.
    rewrite <- (union_difference_L {[sat]} (assigned st !!! gw)) by set_solver.
    rewrite <- (union_difference_L {[gw]} (owners st !!! sat)) by set_solver.
    rewrite !insert_id; [by destruct st| |].
    + apply lookup_lookup_total. destruct (owners st !! sat) eqn:E; [by eexists|]. rewrite lookup_total_alt, E in Ho. set_solver.
    + apply lookup_lookup_total. destruct (assigned st !! gw) eqn:E; [by eexists|]. rewrite lookup_total_alt, E in Hin. set_solver.
  - intros g. unfold size_of. rewrite Ea. case_decide; [subst; by rewrite size_remove|lia].
Qed.

(** What a search from [gw] promises: it keeps the invariant and the owners of [P]; a
    failed one changes nothing, a successful one gives [gw] one more satellite and leaves
    every other gateway as many as it had. *)
Definition good (P : gset string) (gw : string) (visited : gset string) (st : alloc) (r : res outcome) : Prop :=
  match r with
  | Ok (found, visited', st') =>
      inv st' /\ visited ⊆ visited' /\ (forall s, s ∈ P -> owners st' !!! s = owners st !!! s) /\
      (if found then forall g, size_of (assigned st') g = size_of (assigned st) g + (if decide (g = gw) then 1 else 0) else st' = st)
  | Err _ => False
  end.

Lemma unvisited_mono (v v' : gset string) : v ⊆ v' -> (size (satellites ∖ v') <= size (satellites ∖ v))%nat.
Proof. intros. apply subseteq_size. set_solver. Qed.

Section Search.
Context (recurse : string -> gset string -> alloc -> res outcome) (n : nat).
Hypothesis recurse_good : forall gw visited st, inv st -> (size (satellites ∖ visited) < n)%nat -> good visited gw visited st (recurse gw visited st).

Lemma displace_good P gw sat others visited st :
  inv st -> P ⊆ visited -> sat ∉ P -> sat ∈ visited -> sat ∈ choices_of gw -> gw ∉ owners st !!! sat ->
  (forall o, o ∈ others -> o ∈ owners st !!! sat) -> (size (satellites ∖ visited) < n)%nat ->
  good P gw visited st (displace recurse gw sat others visited st).
Proof.
  intros I HP HnP Hv Hc Hgw. revert visited HP Hv. induction others as [|o others IH]; intros visited HP Hv Ho Hn; simpl; [done|].
  assert (forall o, o ∈ others -> o ∈ owners st !!! sat) as Ho' by (intros; apply Ho; by right).
  destruct (dhas selected (sat, o) && _); [by apply IH|].
  assert (sat ∈ assigned st !!! o) as Hin by (apply (inv_dual _ I), Ho; left).
  destruct (take_back_inv st o sat I Hin) as (st1 & -> & I1 & Hback & Hsz & How & Has). simpl_res.
  pose proof (recurse_good o visited st1 I1 Hn) as G. destruct (recurse o visited st1) as [[[moved v'] st2]|]; [|done].
  destruct G as (I2 & Hsub & Hown & Hres). destruct moved.
  - assert (owners st2 !!! sat = owners st !!! sat ∖ {[o]}) as E2 by (rewrite Hown, How, decide_True; done).
    destruct (give_inv st2 gw sat I2) as (I3 & Hsz3).
    + rewrite (inv_dual _ I2), E2. set_solver.
    + done.
    + unfold size_of. rewrite E2, size_remove by (apply Ho; left). pose proof (inv_limit _ I sat). unfold size_of in *. lia.
    + split_and!; [done|done| |].
      * intros s Hs. rewrite give_owners. case_decide; [subst; done|]. rewrite Hown by set_solver. rewrite How. by rewrite decide_False.
      * intros g. rewrite Hsz3, Hres, Hsz. repeat case_decide; lia.
  - subst st2. rewrite Hback. pose proof (unvisited_mono _ _ Hsub).
    assert (good P gw v' st (displace recurse gw sat others v' st)) as G by (apply IH; [set_solver|set_solver|done|lia]).
    destruct (displace recurse gw sat others v' st) as [[[f v''] st'']|]; [|done]. destruct G as (? & ? & ? & ?).
    split_and!; [done|set_solver|done|done].
Qed.

Lemma each_good P gw sats visited st :
  inv st -> P ⊆ visited -> (forall s, s ∈ sats -> s ∈ choices_of gw) -> (size (satellites ∖ visited) < S n)%nat ->
  good P gw visited st (each recurse gw sats visited st).
Proof.
  intros I HP Hs. revert visited HP. induction sats as [|sat sats IH]; intros visited HP Hn; simpl; [done|].
  assert (forall s, s ∈ sats -> s ∈ choices_of gw) as Hs' by (intros; apply Hs; by right).
  assert (sat ∈ choices_of gw) as Hc by (apply Hs; left). destruct (decide (sat ∈ assigned st !!! gw)) as [|Hna]; [by apply IH|].
  destruct (decide (sat ∈ visited)) as [|Hnv]; [by apply IH|].
  destruct (Z.ltb_spec (size_of (owners st) sat) limit) as [Hlt|Hge].
  - destruct (give_inv st gw sat I Hna Hc Hlt) as [I' Hsz]. split_and!; [done|set_solver| |done].
    intros s Hsp. rewrite give_owners. case_decide; [set_solver|done].
  - assert (size (satellites ∖ ({[sat]} ∪ visited)) < size (satellites ∖ visited))%nat as Hlt.
    { apply subset_size. split; [set_solver|]. intros H. assert (sat ∈ satellites ∖ visited) as Hsat; [|apply H in Hsat; set_solver].
      apply elem_of_difference. split; [|done]. unfold satellites. apply elem_of_list_to_set, list_elem_of_In, in_concat.
      unfold choices_of in Hc. destruct (dget choices gw) as [l|] eqn:E; [|set_solver]. exists l. split; [|by apply list_elem_of_In].
      apply dget_Some_in in E. apply in_map_iff. exists (gw, l). split; [done|by apply list_elem_of_In]. }
    assert (good P gw ({[sat]} ∪ visited) st (displace recurse gw sat (displaceable st sat) ({[sat]} ∪ visited) st)) as G.
    { apply displace_good; try done; [set_solver|set_solver|set_solver| | |lia].
      - by rewrite <- (inv_dual _ I).
      - intros o. unfold displaceable. rewrite sort_by_perm. apply elem_of_elements. }
    destruct (displace _ _ _ _ _ _) as [[[f v'] st']|]; [|done]. destruct G as (I' & Hsub & Hown & Hres). simpl_res. destruct f.
    + split_and!; [done|set_solver|done|done].
    + subst st'. pose proof (unvisited_mono _ _ Hsub).
      assert (good P gw v' st (each recurse gw sats v' st)) as G by (apply IH; [done|set_solver|lia]).
      destruct (each recurse gw sats v' st) as [[[f v''] st'']|]; [|done]. destruct G as (? & ? & ? & ?).
      split_and!; [done|set_solver|done|done].
Qed.

End Search.

Lemma allocate_good fuel gw visited st : inv st -> (size (satellites ∖ visited) < fuel)%nat ->
  good visited gw visited st (allocate fuel gw visited st).
Proof.
  revert gw visited st. induction fuel as [|fuel IH]; intros gw visited st I Hf; [lia|]. simpl.
  apply (each_good _ fuel); [intros; by apply IH|done|done|done|done].
Qed.

Lemma allocate_enough gw visited st : inv st -> good visited gw visited st (allocate search_fuel gw visited st).
Proof.
  intros. apply allocate_good; [done|]. unfold search_fuel. assert (size (satellites ∖ visited) <= size satellites)%nat; [|lia].
  apply subseteq_size. set_solver.
Qed.

(** ** The passes *)

Definition within (st : alloc) : Prop := inv st /\ forall g, size_of (assigned st) g <= terminals.

Lemma keep_gateway_within gw st : within st -> within (keep_gateway st gw).
Proof.
  unfold keep_gateway. intros W. apply fold_left_inv; [|done]. intros s sat Hin [I T]. unfold keep_pair.
  destruct (_ && _ && _) eqn:E; [|done]. bool_to_prop. destruct (decide (sat ∈ assigned s !!! gw)) as [Ha|Hn].
  - replace (give s gw sat) with s; [done|]. assert (gw ∈ owners s !!! sat) as Ho by (by apply (inv_dual _ I)). unfold give.
    rewrite (subseteq_union_1_L {[sat]}), (subseteq_union_1_L {[gw]}) by set_solver. rewrite !insert_id; [by destruct s| |].
    + apply lookup_lookup_total. destruct (owners s !! sat) eqn:E; [by eexists|]. rewrite lookup_total_alt, E in Ho. set_solver.
    + apply lookup_lookup_total. destruct (assigned s !! gw) eqn:E; [by eexists|]. rewrite lookup_total_alt, E in Ha. set_solver.
  - destruct (give_inv s gw sat I Hn Hin ltac:(done)) as [I' S']. split; [done|]. intros g. rewrite S'. specialize (T g).
    case_decide; [subst|]; lia.
Qed.

Lemma borrow_within count gw sats st : within st -> size_of (assigned st) gw < terminals -> (forall s, s ∈ sats -> s ∈ choices_of gw) ->
  exists st', borrow count gw sats st = Ok st' /\ within st'.
Proof.
  intros [I T] Hlt. induction sats as [|sat sats IH]; intros Hs; simpl; [by exists st|].
  assert (forall s, s ∈ sats -> s ∈ choices_of gw) as Hs' by (intros; apply Hs; by right).
  destruct (decide (sat ∈ assigned st !!! gw)) as [|Hn]; [by apply IH|]. destruct (List.find _ _) as [donor|] eqn:Ef; [|by apply IH].
  destruct (String.eqb donor ""); [by apply IH|]. apply find_some in Ef as [Hd _]. apply list_elem_of_In in Hd.
  rewrite sorted_strings_perm, elem_of_elements in Hd. assert (sat ∈ assigned st !!! donor) as Hin by (by apply (inv_dual _ I)).
  destruct (take_back_inv st donor sat I Hin) as (st1 & -> & I1 & _ & Hsz & How & Has). simpl_res.
  assert (gw <> donor) as Hne by (intros ->; done).
  destruct (give_inv st1 gw sat I1) as [I2 S2].
  - rewrite Has. by rewrite decide_False.
  - apply Hs. left.
  - unfold size_of. rewrite How, decide_True by done. rewrite size_remove by done. pose proof (inv_limit _ I sat). unfold size_of in *. lia.
  - eexists; split; [done|]. split; [done|]. intros g. rewrite S2, Hsz. specialize (T g). repeat case_decide; subst; lia.
Qed.

Lemma serve_within count st gw : count < terminals -> within st -> exists st', serve count st gw = Ok st' /\ within st'.
Proof.
  intros Hc [I T]. unfold serve. destruct (Z.leb_spec (size_of (assigned st) gw) count); [|by exists st].
  pose proof (allocate_enough gw ∅ st I) as G. destruct (allocate _ _ _ _) as [[[f v] st']|]; [|done].
  destruct G as (I' & _ & _ & Hres). simpl_res. destruct f.
  - exists st'. split; [done|]. split; [done|]. intros g. rewrite Hres. specialize (T g). case_decide; subst; lia.
  - subst st'. apply borrow_within; [done|lia|done].
Qed.

(** A loop whose body keeps the bounds and does not raise. *)
Lemma foldM_total {A S} (P : S -> Prop) (f : S -> A -> res S) l s :
  (forall s x, x ∈ l -> P s -> exists s', f s x = Ok s' /\ P s') -> P s -> exists s', foldM f s l = Ok s' /\ P s'.
Proof.
  revert s. induction l as [|x l IH]; intros s Hf Hs; simpl; [by exists s|].
  destruct (Hf s x ltac:(left) Hs) as (s1 & -> & H1). simpl_res. apply IH; [|done]. intros; apply Hf; [by right|done].
Qed.

Lemma renew_within expiring st gw : within st -> exists st', renew expiring st gw = Ok st' /\ within st'.
Proof.
  intros [I T]. unfold renew. destruct (locked_count st gw <? 3); [by exists st|]. destruct (List.find _ _) as [old|] eqn:Ef; [|by exists st].
  apply find_some in Ef as [Hold Hb]. bool_to_prop. destruct (take_back_inv st gw old I ltac:(done)) as (st1 & -> & I1 & Hback & Hsz & _ & _).
  unfold mbind, res_bind. match goal with |- context [allocate search_fuel gw ?v st1] => pose proof (allocate_enough gw v st1 I1) as G end.
  destruct (allocate _ _ _ _) as [[[f v] st2]|]; [|done]. destruct G as (I2 & _ & _ & Hres). eexists; split; [done|]. destruct f.
  - split; [done|]. intros g. rewrite Hres, Hsz. specialize (T g). repeat case_decide; subst; lia.
  - subst st2. by rewrite Hback.
Qed.

Lemma empty_within : 0 <= limit -> 0 <= terminals -> within (Alloc ∅ ∅).
Proof.
  intros. assert (forall k, (∅ : gmap string (gset string)) !!! k = ∅) as E by (intros; by rewrite lookup_total_empty).
  split; [constructor|]; unfold size_of; simpl; intros; rewrite ?E in *; rewrite ?size_empty; set_solver || lia.
Qed.

Lemma passes_within expiring : 0 <= limit -> 0 <= terminals ->
  exists st, feeder_pairs expiring = Ok (pairs_of st) /\ within st.
Proof.
  intros Hl Ht. unfold feeder_pairs. assert (within (fold_left keep_gateway names (Alloc ∅ ∅))) as W.
  { apply fold_left_inv; [|by apply empty_within]. intros. by apply keep_gateway_within. }
  destruct (foldM_total within one_round (seqZ 0 terminals) (fold_left keep_gateway names (Alloc ∅ ∅))) as (st1 & -> & W1); [|done|].
  { intros s count Hc%elem_of_seqZ Hs. apply foldM_total; [|done]. intros. apply serve_within; [lia|done]. }
  simpl_res. destruct (foldM_total within (renew expiring) names st1) as (st2 & -> & W2); [intros; by apply renew_within|done|].
  by exists st2.
Qed.

(** ** Budgets of the result *)

Lemma NoDup_concat_map {A B} (f : A -> list B) l : NoDup l -> (forall a, a ∈ l -> NoDup (f a)) ->
  (forall a a' b, b ∈ f a -> b ∈ f a' -> a = a') -> NoDup (concat (map f l)).
Proof.
  intros Hl Hf Hd. induction Hl as [|a l Ha Hl IH]; simpl; [constructor|]. apply NoDup_app. split_and!.
  - apply Hf. left.
  - intros b Hb Hb'. apply list_elem_of_In, in_concat in Hb' as (x & Hx & Hb'). apply in_map_iff in Hx as (a' & <- & Ha').
    apply list_elem_of_In in Ha', Hb'. by rewrite (Hd _ _ _ Hb Hb') in Ha.
  - apply IH. intros; apply Hf. by right.
Qed.

Lemma bounded_by_set {A} (f : A -> string) (l : list A) (X : gset string) :
  NoDup l -> (forall x y, x ∈ l -> y ∈ l -> f x = f y -> x = y) -> (forall x, x ∈ l -> f x ∈ X) -> (length l <= size X)%nat.
Proof.
  intros Hl Hf HX. assert (NoDup (f <$> l)) as Hn by (apply NoDup_fmap_2_strong; [|done]; intros; by apply Hf).
  rewrite <- (length_fmap f l), <- (size_list_to_set (C := gset string) (f <$> l)) by done.
  apply subseteq_size. intros s Hs. apply elem_of_list_to_set, list_elem_of_fmap in Hs as (x & -> & Hx). by apply HX.
Qed.

Lemma elem_of_pairs st sat gw : (sat, gw) ∈ pairs_of st <-> gw ∈ dkeys choices /\ sat ∈ assigned st !!! gw.
Proof.
  unfold pairs_of. rewrite list_elem_of_In, in_concat. split.
  - intros (l & Hl & Hin). apply in_map_iff in Hl as (g & <- & Hg). apply in_map_iff in Hin as (s & [= <- <-] & Hs).
    split; [by apply list_elem_of_In|]. by apply elem_of_elements, list_elem_of_In.
  - intros [Hg Hs]. exists (map (fun s => (s, gw)) (elements (assigned st !!! gw))). split.
    + apply in_map_iff. exists gw. split; [done|by apply list_elem_of_In].
    + apply in_map_iff. exists sat. split; [done|]. by apply list_elem_of_In, elem_of_elements.
Qed.

Lemma pairs_nodup st : d_ok choices -> NoDup (pairs_of st).
Proof.
  intros Hd. apply NoDup_concat_map; [done| |].
  - intros gw _. change (map ?f ?l) with (f <$> l). apply NoDup_fmap_2; [intros x y [= <-]; done|]. apply NoDup_elements.
  - intros g g' [s h] H H'. apply list_elem_of_In, in_map_iff in H as (? & [= _ <-] & _).
    apply list_elem_of_In, in_map_iff in H' as (? & [= _ <-] & _). done.
Qed.

(** The pairs of a gateway, and those of a satellite. *)
Definition of_gateway (gw : string) (ps : list (string * string)) : list (string * string) := List.filter (fun p => String.eqb p.2 gw) ps.
Definition of_satellite (sat : string) (ps : list (string * string)) : list (string * string) := List.filter (fun p => String.eqb p.1 sat) ps.

Lemma filter_nodup {A} (p : A -> bool) l : NoDup l -> NoDup (List.filter p l).
Proof. intros. apply NoDup_ListNoDup, List.NoDup_filter. by apply NoDup_ListNoDup. Qed.

Lemma pairs_budgets st : d_ok choices -> within st ->
  (forall gw, len (of_gateway gw (pairs_of st)) <= terminals) /\ (forall sat, len (of_satellite sat (pairs_of st)) <= limit).
Proof.
  intros Hd [I T]. pose proof (pairs_nodup st Hd) as Hn. split.
  - intros gw. etrans; [|apply (T gw)]. unfold len, size_of. apply inj_le. apply (bounded_by_set fst); [by apply filter_nodup| |].
    + intros [s g] [s' g'] H H'. apply list_elem_of_In, filter_In in H as [_ H]. apply list_elem_of_In, filter_In in H' as [_ H'].
      apply String.eqb_eq in H, H'. simpl in *. congruence.
    + intros [s g] H. apply list_elem_of_In, filter_In in H as [H E]. apply String.eqb_eq in E. simpl in *. subst.
      by apply list_elem_of_In, elem_of_pairs in H as [_ ?].
  - intros sat. etrans; [|apply (inv_limit _ I sat)]. unfold len, size_of. apply inj_le. apply (bounded_by_set snd); [by apply filter_nodup| |].
    + intros [s g] [s' g'] H H'. apply list_elem_of_In, filter_In in H as [_ H]. apply list_elem_of_In, filter_In in H' as [_ H'].
      apply String.eqb_eq in H, H'. simpl in *. congruence.
    + intros [s g] H. apply list_elem_of_In, filter_In in H as [H E]. apply String.eqb_eq in E. simpl in *. subst.
      apply list_elem_of_In, elem_of_pairs in H as [_ ?]. by apply (inv_dual _ I).
Qed.

End Feeder.

(** C29.  The feeder allocation always ends with a result, whatever contacts are held,
    acquired or expiring: augmenting paths terminate and no set operation misses its
    element.  The pairs it chooses are visible candidates, no gateway uses more than its
    terminals and no satellite more than its feeder terminals. *)
Theorem feeder_pairs_budgets choices selected limit terminals acquisition offset expiring :
  d_ok choices -> 0 <= limit -> 0 <= terminals ->
  exists ps, feeder_pairs choices selected limit terminals acquisition offset expiring = Ok ps /\ NoDup ps /\
    (forall sat gw, (sat, gw) ∈ ps -> sat ∈ choices_of choices gw) /\
    (forall gw, len (of_gateway gw ps) <= terminals) /\ (forall sat, len (of_satellite sat ps) <= limit).
Proof.
  intros Hd Hl Ht. destruct (passes_within choices selected limit terminals acquisition offset expiring Hl Ht) as (st & Hps & W).
  exists (pairs_of choices st). destruct (pairs_budgets _ _ _ _ Hd W) as [B1 B2]. split_and!; [done|by apply pairs_nodup| |done|done].
  intros sat gw [_ Hin]%elem_of_pairs. by apply (inv_choice _ _ _ (proj1 W)).
Qed.

(** Two sites that see the same two satellites, one terminal each: the second site is
    served by moving the first one to its alternative. *)
Lemma feeder_pairs_budgets_witness :
  (exists ps, feeder_pairs [("gw-a", ["s1"; "s2"]); ("gw-b", ["s1"])] [(("s1", "gw-a"), 0%Q)] 1 1 5 None [] = Ok ps /\ NoDup ps /\
    (forall sat gw, (sat, gw) ∈ ps -> sat ∈ choices_of [("gw-a", ["s1"; "s2"]); ("gw-b", ["s1"])] gw) /\
    (forall gw, len (of_gateway gw ps) <= 1) /\ (forall sat, len (of_satellite sat ps) <= 1)) /\
  feeder_pairs [("gw-a", ["s1"; "s2"]); ("gw-b", ["s1"])] [] 1 1 5 None [] = Ok [("s2", "gw-a"); ("s1", "gw-b")].
Proof.
  split; [|vm_compute; reflexivity].
  apply (feeder_pairs_budgets [("gw-a", ["s1"; "s2"]); ("gw-b", ["s1"])] [(("s1", "gw-a"), 0%Q)] 1 1 5 None []); [|lia|lia].
  apply (bool_decide_unpack _). vm_compute. exact I.
Defined.

End Feeder.
