(* ===== verification/Constellation.v ===== *)
(** * Constellation: physical contacts of a satellite constellation
    (tools/physical_constellation.py)

    [Config] is the validation of the physical configuration, on JSON.  [Orbits] holds the
    ephemeris interpolation; propagation with SGP4 is the parameter [Propagator].  [Contacts]
    is the terminal scheduler: candidates from the geometry of [Ephemeris], the feeder
    allocation of [Feeder], and the selection under terminal budgets.  Offsets and lengths
    are rationals. *)

From S2P Require Import Prelude Bytes Text Channel ShortestPath Fabric LiveModel WorkloadModel Ephemeris Feeder.

(** [utc(value)] without its check: the instant and whether an offset was written. *)
Class Calendar := { fromisoformat : string -> res (Z * bool) }.

(** [tools.tle_to_oem.propagate] of the record of a satellite. *)
Class Propagator := { propagate : string -> Z -> res (Ephemeris.vec * Ephemeris.vec) }.

Module Config.

Definition dict : Type := list (string * json).

(** ** JSON access *)

(** [d[k]] *)
Definition item (d : dict) (k : string) : res json := or_raise KeyError (dget d k).

Definition as_dict (v : json) : res dict := match v with JDict d => Ok d | _ => Err TypeError end.
Definition as_list (v : json) : res (list json) := match v with JList l => Ok l | _ => Err TypeError end.
Definition as_str (v : json) : res string := match v with JStr s => Ok s | _ => Err TypeError end.

Definition sub (d : dict) (k : string) : res dict := let* v := item d k in as_dict v.

(** ** Validation *)

Definition finite (v : json) (name : string) (lo hi : Q) : res Q :=
  match number v with
  | Some q => if Qle_bool lo q && Qle_bool q hi then Ok q else Err (ValueError (name +:+ " must be finite and within its bounds"))
  | None => Err (ValueError (name +:+ " must be finite and within its bounds"))
  end.

Section Load.
Context `{Cal : Calendar} (read_catalog : string -> res json).

Definition utc (s : string) : res Z :=
  let* (at_, aware) := fromisoformat s in
  raise (ValueError "physical epoch must specify a UTC offset") when negb aware ;; Ok at_.

Definition check_field (d : dict) (item_ : string * Q * Q) : res unit :=
  let '(key, lo, hi) := item_ in
  let* v := item d key in
  let* _ := finite v key lo hi in
  Ok tt.

Definition check_fields (d : dict) (l : list (string * Q * Q)) : res unit := let* _ := mapM_res (check_field d) l in Ok tt.

(** [int(v) != v] *)
Definition whole (v : json) : bool := match integral v with Some _ => true | None => false end.

Definition check_count (links : dict) (key : string) (lo hi : Q) : res unit :=
  let* v := item links key in
  let* _ := finite v key lo hi in
  raise (ValueError (key +:+ " must be an integer")) when negb (whole v) ;; Ok tt.

Definition station_fields : list (string * Q * Q) :=
  [("latitude_deg", (-90)%Q, 90%Q); ("longitude_deg", (-180)%Q, 180%Q); ("altitude_m", (-500)%Q, 10000%Q)].

Definition link_fields : list (string * Q * Q) :=
  [("minimum_elevation_deg", 0%Q, 90%Q); ("earth_clearance_km", 0%Q, 1000%Q); ("max_isl_range_km", 1%Q, 100000%Q);
   ("max_feeder_range_km", 1%Q, 100000%Q); ("acquisition_seconds", 0%Q, 600%Q); ("processing_delay_us", 0%Q, 1000000%Q);
   ("packet_loss_ppm", 0%Q, 1000000%Q); ("queue_limit_packets", 1%Q, 1000000%Q)].

Definition budget_fields : list (string * Q * Q) :=
  [("carrier_hz", 1%Q, inject_Z (10 ^ 16)); ("reference_range_km", 1%Q, 100000%Q); ("snr_at_reference_db", (-100)%Q, 100%Q);
   ("bandwidth_hz", 1%Q, inject_Z (10 ^ 12)); ("efficiency", (1 # 1000)%Q, 1%Q); ("max_capacity_bps", 1%Q, inject_Z (10 ^ 12))].

Definition station_id (s : json) : res (string * json) :=
  let* d := as_dict s in let* v := item d "id" in let* i := as_str v in Ok (i, s).

(** The stations of the gateways, in their order. *)
Definition choose_stations (config : dict) (gateway_ids : list string) : res (list json) :=
  let* raw := item config "ground_stations" in
  let* stations := as_list raw in
  let* named := mapM_res station_id stations in
  let by_id := dict_of named in
  raise (ValueError "duplicate ground station id") when negb (len by_id =? len stations) ;;
  raise (ValueError "missing geographic coordinates for gateways") when existsb (fun g => negb (dhas by_id g)) gateway_ids ;;
  mapM_res (fun g => or_raise KeyError (dget by_id g)) gateway_ids.

(** [math.ceil(q)] *)
Definition budget_frames (duration step : Q) : Z := Qceiling (duration / step) + 2.

Definition check_walker (orbit : dict) (satellites : Z) : res unit :=
  let* _ := check_fields orbit [("altitude_km", 200%Q, 20000%Q); ("inclination_deg", 0%Q, 180%Q); ("phasing", 0%Q, inject_Z satellites);
                                ("raan_offset_deg", 0%Q, 360%Q); ("mean_anomaly_offset_deg", 0%Q, 360%Q)] in
  let* v := item orbit "phasing" in
  raise (ValueError "Walker phasing must be an integer") when negb (whole v) ;; Ok tt.

(** The catalog of a TLE or OEM orbit names every satellite once. *)
Definition check_catalog (catalog : json) (satellite_ids : list string) : res (list json) :=
  match catalog with
  | JList l =>
      let* named := mapM_res station_id l in
      raise (ValueError "orbit catalog must have unique satellite ids") when negb (len (set_of (dkeys named)) =? len l) ;;
      raise (ValueError "orbit catalog must match every configured satellite exactly") when
        existsb (fun s => negb (mem s satellite_ids)) (dkeys named) || existsb (fun s => negb (mem s (dkeys named))) satellite_ids ;;
      Ok l
  | _ => Err (ValueError "orbit catalog must have unique satellite ids")
  end.

(** The configuration with its stations chosen and, for a catalog orbit, its records; the
    digest of the catalog file and the absolute paths of its entries are left out. *)
Definition load_config (config : dict) (satellite_ids gateway_ids : list string) : res dict :=
  raise (ValueError "physical config schema_version must be 1") when negb (Workload.py_eq_int (jget config "schema_version") 1) ;;
  let* e := item config "epoch" in
  let* epoch := as_str e in
  let* _ := utc epoch in
  let* d := item config "duration_seconds" in
  let* duration := finite d "duration_seconds" 1 86400 in
  let* s := item config "step_seconds" in
  let* step := finite s "step_seconds" (1 # 10) 300 in
  raise (ValueError "duration must include at least one complete simulation step") when Qltb duration step ;;
  let frames := budget_frames duration step in
  let n := len satellite_ids in
  raise (ValueError "physical compilation budget exceeded; shorten the horizon or increase the sampling step") when
    (2000000 <? frames * n) || (500000000 <? frames * (n * n)) ;;
  let* stations := choose_stations config gateway_ids in
  let* _ := mapM_res (fun st => let* d := as_dict st in check_fields d station_fields) stations in
  let* links := sub config "links" in
  let* _ := check_fields links link_fields in
  let* _ := mapM_res (fun k => check_count links k 1 1000000)
    ["isl_terminals_per_satellite"; "feeder_terminals_per_satellite"; "gateway_terminals"; "queue_limit_packets"] in
  let* t := item links "isl_terminals_per_satellite" in
  let* _ := check_count links "same_plane_isl_terminals" 0 (match number t with Some q => q | None => 0%Q end) in
  let* _ := mapM_res (fun kind => let* budget := sub links kind in check_fields budget budget_fields) ["isl"; "feeder"] in
  let* orbit := sub config "orbit" in
  let* src := item orbit "source" in
  let config := dset config "ground_stations" (JList stations) in
  match src with
  | JStr "walker_sgp4" => let* _ := check_walker orbit n in Ok config
  | JStr "tle" | JStr "oem" =>
      let* p := item orbit "catalog" in
      let* path := as_str p in
      let* catalog := read_catalog path in
      let* records := check_catalog catalog satellite_ids in
      Ok (dset config "orbit" (JDict (dset orbit "records" (JList records))))
  | _ => Err (ValueError "orbit.source must be walker_sgp4, tle, or oem")
  end.

End Load.
End Config.

Module Orbits.
Import Ephemeris.

(** ** [Orbits.states] *)

(** The record of a satellite: one SGP4 propagates, or the samples of an OEM file. *)
Inductive orbit := Satrec | Samples (l : list sample).

Record orbits := Orbits_ { epoch : Z; records : list (string * orbit) }.

(** [bisect.bisect_left] in the strictly increasing sample times *)
Definition bisect_left (l : list sample) (t : Z) : nat := length (List.filter (fun s => at_us s <? t) l).

Definition vmap2 (f : Q -> Q -> Q -> Q -> Q) (a va b vb : vec) : vec :=
  let '(ax, ay, az) := a in let '(vx, vy, vz) := va in let '(bx, by_, bz) := b in let '(wx, wy, wz) := vb in
  (f ax vx bx wx, f ay vy by_ wy, f az vz bz wz).

(** The cubic Hermite polynomial at [u], and its derivative. *)
Definition hermite (dt u pa va pb vb : Q) : Q :=
  (2*u*u*u - 3*u*u + 1) * pa + (u*u*u - 2*u*u + u) * dt * va + (-(2)*u*u*u + 3*u*u) * pb + (u*u*u - u*u) * dt * vb.

Definition hermite_rate (dt u pa va pb vb : Q) : Q :=
  (6*u*u - 6*u) / dt * pa + (3*u*u - 4*u + 1) * va + (-(6)*u*u + 6*u) / dt * pb + (3*u*u - 2*u) * vb.

Definition interpolate (a b : sample) (t : Z) : vec * vec :=
  let dt := seconds_between (at_us a) (at_us b) in
  let u := (seconds_between (at_us a) t / dt)%Q in
  (vmap2 (fun pa va pb vb => hermite dt u pa va pb vb) (position a) (velocity a) (position b) (velocity b),
   vmap2 (fun pa va pb vb => hermite_rate dt u pa va pb vb) (position a) (velocity a) (position b) (velocity b)).

(** The state an OEM gives at [t]. *)
Definition oem_state (name : string) (l : list sample) (t : Z) : res (vec * vec) :=
  let i := bisect_left l t in
  match l !! i with
  | Some s =>
      if at_us s =? t then Ok (position s, velocity s) else
      match i with
      | O => Err (ValueError ("OEM for " +:+ (name +:+ " does not cover its instant")))
      | S j => match l !! j with Some a => Ok (interpolate a s t) | None => Err IndexError end
      end
  | None => Err (ValueError ("OEM for " +:+ (name +:+ " does not cover its instant")))
  end.

Definition state_of `{Propagator} (t : Z) (item : string * orbit) : res (string * sample) :=
  let (name, o) := item in
  let* (p, v) := match o with Satrec => propagate name t | Samples l => oem_state name l t end in
  Ok (name, Sample t p v).

(** [self.epoch + timedelta(seconds=offset)] *)
Definition instant (o : orbits) (offset : Q) : Z := epoch o + round_even (offset * 1000000).

Definition states `{Propagator} (o : orbits) (offset : Q) : res (list (string * sample)) :=
  mapM_res (state_of (instant o offset)) (records o).

(** [any(b.at <= a.at for a, b in zip(values, values[1:]))] *)
Definition increasing (l : list sample) : bool := forallb (fun ab : sample * sample => at_us ab.1 <? at_us ab.2) (zip l (drop 1 l)).

End Orbits.

Module Contacts.
Import Ephemeris.

(** ** Data *)

Record budget := Budget { carrier_hz : Q; reference_range_km : Q; snr_at_reference_db : Q; bandwidth_hz : Q; efficiency : Q; max_capacity_bps : Q }.

(** [config['links']] *)
Record policy := Policy { minimum_elevation_deg : Q; earth_clearance_km : Q; max_isl_range_km : Q; max_feeder_range_km : Q;
  acquisition_seconds : Q; processing_delay_us : Q; packet_loss_ppm : Q; isl_terminals_per_satellite : Z;
  feeder_terminals_per_satellite : Z; gateway_terminals : Z; same_plane_isl_terminals : Z; isl_budget : budget; feeder_budget : budget }.

Record contacts := Contacts_ { links_policy : policy; ground_stations : list station; planes : list (string * option string);
  selected : Feeder.selection }.

Inductive kind := feeder | isl.

#[global] Instance kind_eq_dec : EqDecision kind.
Proof. solve_decision. Defined.

Record candidate := Candidate { c_kind : kind; c_a : string; c_b : string; c_distance : Q; c_delay : Z; c_doppler : Q; preference : Z }.

(** A link of a frame: the fields the fabric reads, and the others. *)
Record flink := FLink { fl : Fabric.Fabric.link; reliability_ppm : Z; fl_range_km : Q; fl_doppler_hz : Q; fl_risk_groups : list string }.

Record frame_t := Frame { offset_seconds : Q; at_time : Z; f_states : list (string * sample); f_links : list flink;
  eligible_pairs : Z; selected_pairs : Z; active_pairs : Z }.

Section Contacts.
Context `{M : Math}.

Definition capacity (distance : Q) (b : budget) : Z :=
  let ratio := (reference_range_km b / Qmax_ distance (1 # 1000))%Q in
  let snr := (m_exp10 (snr_at_reference_db b / 10) * (ratio * ratio))%Q in
  Z.max 1 (Qtrunc (Qmin_ (max_capacity_bps b) (efficiency b * bandwidth_hz b * m_log2 (1 + snr)))).

(** ** Candidates *)

(** [sum((x-y)**2 for x, y in zip(a, b)) < 1e-12] *)
Definition coincident (a b : vec) : bool := let d := subtract a b in Qltb (dot d d) (1 # 1000000000000).

Definition isl_candidate (c : contacts) (ab : (string * sample) * (string * sample)) : res (list candidate) :=
  let '((a, x), (b, y)) := ab in
  let p := links_policy c in
  raise (ValueError ("coincident satellite states: " +:+ (a +:+ (", " +:+ (b +:+ "; check orbit identity and phasing"))))) when
    coincident (position x) (position y) ;;
  let* (distance, delay, doppler) := measurement x (position y) (velocity y) (carrier_hz (isl_budget p)) in
  if Qltb (max_isl_range_km p) distance || negb (intersat_visible (position x) (position y) (earth_clearance_km p)) then Ok [] else
  let* pa := or_raise KeyError (dget (planes c) a) in
  let* same := match pa with
    | None => Ok false
    | Some plane => let* pb := or_raise KeyError (dget (planes c) b) in Ok (bool_decide (pb = Some plane))
    end in
  Ok [Candidate isl a b distance delay doppler (if (same : bool) then 0 else 1)].

Definition feeder_candidate (c : contacts) (st : station) (item : string * sample) : res (list candidate) :=
  let (name, state) := item in
  let p := links_policy c in
  let '(pos, vel, up) := ground_teme st (at_us state) in
  let* (distance, delay, doppler) := measurement state pos vel (carrier_hz (feeder_budget p)) in
  if negb (Qle_bool distance (max_feeder_range_km p)) then Ok [] else
  let* e := elevation_deg (position state) pos (Some up) in
  Ok (if Qle_bool (minimum_elevation_deg p) e then [Candidate feeder name (st_id st) distance delay doppler 0] else []).

(** The key of [candidates.sort]: kind, preference, not selected, distance, ends. *)
Definition kind_rank (k : kind) : Z := match k with feeder => 0 | isl => 1 end.

Definition lex {A} (eqb ltb : A -> A -> bool) (x y : A) (rest : bool) : bool := ltb x y || (eqb x y && rest).

Definition string_ltb (a b : string) : bool := negb (String.leb b a).

Definition cand_leb (sel : Feeder.selection) (x y : candidate) : bool :=
  let fresh c := if dhas sel (c_a c, c_b c) then 0 else 1 in
  lex Z.eqb Z.ltb (kind_rank (c_kind x)) (kind_rank (c_kind y)) (
  lex Z.eqb Z.ltb (preference x) (preference y) (
  lex Z.eqb Z.ltb (fresh x) (fresh y) (
  lex Qeq_bool Qltb (c_distance x) (c_distance y) (
  lex String.eqb string_ltb (c_a x) (c_a y) (String.leb (c_b x) (c_b y)))))).

Definition state_leb (a b : string * sample) : bool := String.leb a.1 b.1.

Definition candidates (c : contacts) (states : list (string * sample)) : res (list candidate) :=
  let* isls := mapM_res (isl_candidate c) (name_pairs (sort_by state_leb states)) in
  let* feeders := mapM_res (fun st => mapM_res (feeder_candidate c st) states) (ground_stations c) in
  Ok (sort_by (cand_leb (selected c)) (concat isls ++ concat (map (@concat candidate) feeders))).

(** [choices[gw].append(sat)] over the feeder candidates *)
Definition choices_of_candidates (l : list candidate) : list (string * list string) :=
  fold_left (fun d c => match c_kind c with
    | feeder => dset d (c_b c) (match dget d (c_b c) with Some sats => sats ++ [c_a c] | None => [c_a c] end)
    | isl => d
    end) l [].

(** Whether a held contact is predicted to leave the coverage of its station. *)
Definition departing (p : policy) (future : list (string * sample)) (st : station) (key : string * string) : res bool :=
  let* state := or_raise KeyError (dget future key.1) in
  let '(pos, _, up) := ground_teme st (at_us state) in
  let distance := norm (subtract (position state) pos) in
  if Qltb (max_feeder_range_km p) distance then Ok true else
  let* e := elevation_deg (position state) pos (Some up) in
  Ok (Qltb e (minimum_elevation_deg p)).

Definition expiring_pairs (c : contacts) (future : option (list (string * sample))) : res (list (string * string)) :=
  match future with
  | None | Some [] => Ok []
  | Some f =>
      let* per := mapM_res (fun st =>
          Fabric.Fabric.filterM (departing (links_policy c) f st)
            (List.filter (fun key : string * string => String.eqb key.2 (st_id st)) (dkeys (selected c)))) (ground_stations c) in
      Ok (concat per)
  end.

(** ** Selection under terminal budgets *)

Inductive slot := terminal (k : kind) | same_plane.

#[global] Instance slot_eq_dec : EqDecision slot.
Proof. solve_decision. Defined.

Definition counter : Type := list ((slot * string) * Z).
Definition used (c : counter) (k : slot * string) : Z := match dget c k with Some v => v | None => 0 end.

(** [counts.update(keys)] *)
Definition tally (c : counter) (keys : list (slot * string)) : counter := fold_left (fun c k => dset c k (used c k + 1)) keys c.

Record choice := Choice { counts : counter; chosen : Feeder.selection; flinks : list flink }.

Definition round_to (places : Z) (q : Q) : Q := (inject_Z (round_even (q * inject_Z (10 ^ places))) / inject_Z (10 ^ places))%Q.

Definition kind_name (k : kind) : string := match k with isl => "oisl" | feeder => "feeder" end.

Definition frame_link (p : policy) (x : candidate) (acquired : bool) (src dst : string) : flink :=
  FLink (Fabric.Fabric.Link (src +:+ ("--" +:+ dst)) src dst (kind_name (c_kind x)) (Some (c_delay x + Qtrunc (processing_delay_us p)))
           (Some (capacity (c_distance x) (match c_kind x with isl => isl_budget p | feeder => feeder_budget p end)))
           (Some (Qtrunc (packet_loss_ppm p))) (Some true) (Some acquired) (Some (if acquired then "locked" else "acquiring")))
    (1000000 - Qtrunc (packet_loss_ppm p)) (round_to 6 (c_distance x)) (round_to 3 (c_doppler x)) [].

Definition limits (p : policy) (k : kind) : Z * Z :=
  match k with
  | isl => (isl_terminals_per_satellite p, isl_terminals_per_satellite p)
  | feeder => (feeder_terminals_per_satellite p, gateway_terminals p)
  end.

(** The body of the selection loop. *)
Definition select (p : policy) (sel : Feeder.selection) (feeders : list (string * string)) (offset : Q) (st : choice) (x : candidate) : choice :=
  let a := c_a x in
  let b := c_b x in
  let k := c_kind x in
  if bool_decide (k = feeder) && negb (mem (a, b) feeders) then st else
  if (( (limits p k).1 <=? used (counts st) (terminal k, a)) || ((limits p k).2 <=? used (counts st) (terminal k, b))) then st else
  let planar := bool_decide (k = isl) && (preference x =? 0) in
  if planar && ((same_plane_isl_terminals p <=? used (counts st) (same_plane, a)) || (same_plane_isl_terminals p <=? used (counts st) (same_plane, b)))
  then st else
  let c1 := if planar then tally (counts st) [(same_plane, a); (same_plane, b)] else counts st in
  let since := match dget sel (a, b) with Some s => s | None => offset end in
  let acquired := Qle_bool (acquisition_seconds p) (offset - since) in
  Choice (tally c1 [(terminal k, a); (terminal k, b)]) (dset (chosen st) (a, b) since)
    (flinks st ++ [frame_link p x acquired a b; frame_link p x acquired b a]).

Definition up (l : flink) : bool := match Fabric.Fabric.operational_up (fl l) with Some b => b | None => false end.

Definition frame (c : contacts) (states : list (string * sample)) (offset : Q) (future : option (list (string * sample))) :
    res (contacts * frame_t) :=
  let p := links_policy c in
  let* cands := candidates c states in
  let* expiring := expiring_pairs c future in
  let* feeders := Feeder.feeder_pairs (choices_of_candidates cands) (selected c) (feeder_terminals_per_satellite p) (gateway_terminals p)
    (acquisition_seconds p) (Some offset) expiring in
  let st := fold_left (select p (selected c) feeders offset) cands (Choice [] [] []) in
  let* first := or_raise StopIteration (states !! 0%nat) in
  Ok (Contacts_ p (ground_stations c) (planes c) (chosen st),
      Frame offset (at_us first.2) states
        (sort_by (fun x y => String.leb (Fabric.Fabric.link_id (fl x)) (Fabric.Fabric.link_id (fl y))) (flinks st))
        (len cands) (len (chosen st)) (len (List.filter up (flinks st)) / 2)).

(** ** Budgets *)

(** The number of links of a kind out of a node. *)
Definition degree (k : kind) (n : string) (l : list flink) : Z :=
  len (List.filter (fun x => String.eqb (Fabric.Fabric.source (fl x)) n && String.eqb (Fabric.Fabric.link_type (fl x)) (kind_name k)) l).

Lemma used_tally2 c s n n' k :
  used (tally c [(s, n); (s, n')]) k = used c k + (if decide (k = (s, n)) then 1 else 0) + (if decide (k = (s, n')) then 1 else 0).
Proof.
  unfold tally. cbn [fold_left]. unfold used at 1. rewrite dget_dset. case_decide as E1.
  - subst. unfold used at 1. rewrite dget_dset. repeat case_decide; simplify_eq; unfold used; lia.
  - unfold used at 1. rewrite dget_dset. repeat case_decide; simplify_eq; unfold used; lia.
Qed.

Lemma kind_name_inj k k' : String.eqb (kind_name k) (kind_name k') = bool_decide (k = k').
Proof. by destruct k, k'. Qed.

Lemma degree_app k n l l' : degree k n (l ++ l') = degree k n l + degree k n l'.
Proof. unfold degree. by rewrite List.filter_app, len_app. Qed.

Lemma degree_pair p x acquired k n :
  degree k n [frame_link p x acquired (c_a x) (c_b x); frame_link p x acquired (c_b x) (c_a x)] =
  (if decide ((terminal k, n) = (terminal (c_kind x), c_a x)) then 1 else 0) + (if decide ((terminal k, n) = (terminal (c_kind x), c_b x)) then 1 else 0).
Proof.
  unfold degree, frame_link. simpl. rewrite kind_name_inj.
  destruct (String.eqb_spec (c_a x) n), (String.eqb_spec (c_b x) n); case_bool_decide; simpl; repeat case_decide; simplify_eq;
    rewrite ?len_cons, ?len_nil; first [done|lia|congruence].
Qed.

Section Budgets.
Context (p : policy) (sel : Feeder.selection) (feeders : list (string * string)) (offset : Q) (sats : list string).

(** Inter-satellite links join two satellites, feeders a satellite and a station. *)
Definition cand_ok (x : candidate) : Prop :=
  c_a x <> c_b x /\ c_a x ∈ sats /\ match c_kind x with isl => c_b x ∈ sats | feeder => c_b x ∉ sats end.

Record budgets_ok (st : choice) : Prop := {
  bo_degree k n : degree k n (flinks st) = used (counts st) (terminal k, n);
  bo_isl n : used (counts st) (terminal isl, n) <= Z.max 0 (isl_terminals_per_satellite p);
  bo_feeder n : n ∈ sats -> used (counts st) (terminal feeder, n) <= Z.max 0 (feeder_terminals_per_satellite p);
  bo_gateway n : n ∉ sats -> used (counts st) (terminal feeder, n) <= Z.max 0 (gateway_terminals p);
  bo_plane n : used (counts st) (same_plane, n) <= Z.max 0 (same_plane_isl_terminals p) }.

Lemma select_budgets st x : cand_ok x -> budgets_ok st -> budgets_ok (select p sel feeders offset st x).
Proof.
  intros (Hne & Ha & Hb) B. pose proof B as [D I F G P]. unfold select. cbv zeta.
  destruct (bool_decide _ && negb _); [done|]. destruct (_ || _) eqn:El; [done|]. bool_to_prop.
  set (planar := bool_decide (c_kind x = isl) && (preference x =? 0)).
  destruct (planar && _) eqn:Ep; [done|]. set (c1 := if planar then _ else _).
  assert (forall k n, used c1 (terminal k, n) = used (counts st) (terminal k, n)) as U1.
  { intros k n. unfold c1. destruct planar; [|done]. rewrite used_tally2, !decide_False by done. lia. }
  assert (forall n, used c1 (same_plane, n) <= Z.max 0 (same_plane_isl_terminals p)) as U2.
  { intros n. unfold c1. destruct planar; [|apply P]. simpl in Ep. bool_to_prop. rewrite used_tally2. specialize (P n).
    repeat case_decide; simplify_eq; lia. }
  constructor; cbn [flinks counts].
  - intros k n. rewrite degree_app, D, degree_pair, used_tally2, U1. lia.
  - intros n. rewrite used_tally2, U1. specialize (I n). destruct (c_kind x); simpl in *; repeat case_decide; simplify_eq; lia.
  - intros n Hn. rewrite used_tally2, U1. specialize (F n Hn). destruct (c_kind x); simpl in *; repeat case_decide; simplify_eq; try lia; done.
  - intros n Hn. rewrite used_tally2, U1. specialize (G n Hn). destruct (c_kind x); simpl in *; repeat case_decide; simplify_eq; try lia; done.
  - intros n. rewrite used_tally2, !decide_False by done. specialize (U2 n). lia.
Qed.

Lemma choice_budgets l : Forall cand_ok l -> budgets_ok (fold_left (select p sel feeders offset) l (Choice [] [] [])).
Proof.
  intros Hl. rewrite Forall_forall in Hl. apply fold_left_inv; [intros; apply select_budgets; auto|].
  constructor; unfold used, degree; simpl; intros; rewrite ?len_nil; lia.
Qed.

End Budgets.

(** ** Candidates join what they should *)

Lemma elem_of_name_pairs {A B} (l : list (A * B)) x y :
  (x, y) ∈ name_pairs l -> x ∈ l /\ y ∈ l /\ (NoDup (map fst l) -> x.1 <> y.1).
Proof.
  induction l as [|z l IH]; simpl; [by intros ?%not_elem_of_nil|]. rewrite elem_of_app. intros [H|H].
  - apply list_elem_of_In, in_map_iff in H as (w & [= <- <-] & Hw). apply list_elem_of_In in Hw. split_and!; [left|by right|].
    intros [Hn _]%NoDup_cons E. apply Hn. rewrite E. apply list_elem_of_In, in_map. by apply list_elem_of_In.
  - destruct (IH H) as (? & ? & Hd). split_and!; [by right|by right|]. intros [_ Hn]%NoDup_cons. by apply Hd.
Qed.

Lemma mapM_res_concat {A B} (h : A -> res (list B)) l ys y : mapM_res h l = Ok ys -> y ∈ concat ys -> exists x r, x ∈ l /\ h x = Ok r /\ y ∈ r.
Proof.
  rewrite mapM_res_Ok. induction 1 as [|x r l ys Hx _ IH]; simpl; [by intros ?%not_elem_of_nil|].
  rewrite elem_of_app. intros [Hy|Hy]; [exists x, r; split_and!; [left|done|done]|].
  destruct (IH Hy) as (x' & r' & ? & ? & ?). exists x', r'. split_and!; [by right|done|done].
Qed.

Lemma isl_candidate_ends c a sa b sb r x : isl_candidate c ((a, sa), (b, sb)) = Ok r -> x ∈ r -> c_kind x = isl /\ c_a x = a /\ c_b x = b.
Proof.
  unfold isl_candidate. split_guard. rewrite bind_Ok. intros ([[d e] f] & _ & H). destruct (_ || _); [injection H as <-; by intros ?%not_elem_of_nil|].
  apply bind_Ok in H as (pa & _ & H). apply bind_Ok in H as (same & _ & [= <-]). by intros ->%list_elem_of_singleton.
Qed.

Lemma feeder_candidate_ends c s n st r x : feeder_candidate c s (n, st) = Ok r -> x ∈ r -> c_kind x = feeder /\ c_a x = n /\ c_b x = st_id s.
Proof.
  unfold feeder_candidate. destruct (ground_teme s (at_us st)) as [[pos vel] upv]. rewrite bind_Ok. intros ([[d e] f] & _ & H).
  destruct (negb _); [injection H as <-; by intros ?%not_elem_of_nil|]. apply bind_Ok in H as (ev & _ & [= <-]).
  destruct (Qle_bool _ _); [by intros ->%list_elem_of_singleton|by intros ?%not_elem_of_nil].
Qed.

Lemma candidates_ok c states l : d_ok states -> (forall s, s ∈ ground_stations c -> st_id s ∉ dkeys states) ->
  candidates c states = Ok l -> Forall (cand_ok (dkeys states)) l.
Proof.
  intros Hd Hs. unfold candidates. rewrite bind_Ok. intros (isls & Hi & H). apply bind_Ok in H as (feeders & Hf & [= <-]).
  apply Forall_forall. intros x. rewrite sort_by_perm, elem_of_app. intros [Hx|Hx].
  - destruct (mapM_res_concat _ _ _ _ Hi Hx) as ([[a sa] [b sb]] & r & Hp & Hr & Hxr).
    destruct (isl_candidate_ends _ _ _ _ _ _ _ Hr Hxr) as (Ek & Ea & Eb). destruct (elem_of_name_pairs _ _ _ Hp) as (Ha & Hb & Hne).
    rewrite sort_by_perm in Ha, Hb. unfold cand_ok. rewrite Ek, Ea, Eb. split_and!.
    + apply Hne. by rewrite sort_by_perm.
    + by apply list_elem_of_In, (in_map fst), list_elem_of_In in Ha.
    + by apply list_elem_of_In, (in_map fst), list_elem_of_In in Hb.
  - apply list_elem_of_In, in_concat in Hx as (y & Hy & Hx). apply in_map_iff in Hy as (z & <- & Hz). apply list_elem_of_In in Hz, Hx.
    apply mapM_res_Ok in Hf. destruct (list_elem_of_lookup_1 _ _ Hz) as (i & Hiz). destruct (Forall2_lookup_r _ _ _ _ _ Hf Hiz) as (s & His & Hsz).
    destruct (mapM_res_concat _ _ _ _ Hsz Hx) as ([n st] & r & Hp & Hr & Hxr).
    destruct (feeder_candidate_ends _ _ _ _ _ _ Hr Hxr) as (Ek & Ea & Eb). unfold cand_ok. rewrite Ek, Ea, Eb.
    apply list_elem_of_lookup_2 in His. pose proof (Hs _ His). apply list_elem_of_In, (in_map fst), list_elem_of_In in Hp. simpl in Hp.
    split_and!; [by intros ->|done|done].
Qed.

(** A frame never uses a terminal twice: each satellite has at most its terminals for
    inter-satellite links and for feeders, each ground station at most its own, for every
    geometry, history and forecast. *)
Theorem frame_budgets c states offset future c' fr : d_ok states ->
  (forall s, s ∈ ground_stations c -> st_id s ∉ dkeys states) -> frame c states offset future = Ok (c', fr) ->
  (forall n, degree isl n (f_links fr) <= Z.max 0 (isl_terminals_per_satellite (links_policy c))) /\
  (forall n, n ∈ dkeys states -> degree feeder n (f_links fr) <= Z.max 0 (feeder_terminals_per_satellite (links_policy c))) /\
  (forall n, n ∉ dkeys states -> degree feeder n (f_links fr) <= Z.max 0 (gateway_terminals (links_policy c))).
Proof.
  intros Hd Hs. unfold frame. rewrite bind_Ok. intros (cands & Hc & H). apply bind_Ok in H as (expiring & _ & H).
  apply bind_Ok in H as (feeders & _ & H). apply bind_Ok in H as (first & _ & [= _ <-]). cbn [f_links].
  pose proof (choice_budgets (links_policy c) (selected c) feeders offset _ _ (candidates_ok _ _ _ Hd Hs Hc)) as [D I F G P].
  set (st := fold_left _ _ _) in *. assert (forall k n l, degree k n (sort_by l (flinks st)) = degree k n (flinks st)) as E.
  { intros k n l. unfold degree, len. f_equal. by apply Permutation_length, filter_perm, sort_by_perm. }
  split_and!; intros; rewrite E, D; auto.
Qed.

(** ** Acquisition *)

(** Since when a pair is selected: as long as the previous frame had it, or from now. *)
Definition since_of (sel : Feeder.selection) (offset : Q) (key : string * string) : Q :=
  match dget sel key with Some s => s | None => offset end.

(** A link of a selected pair, up exactly when the pair has been held long enough. *)
Definition acquired_link (p : policy) (sel : Feeder.selection) (offset : Q) (ch : Feeder.selection) (l : flink) : Prop :=
  exists a b, dget ch (a, b) = Some (since_of sel offset (a, b)) /\
    ((Fabric.Fabric.source (fl l), Fabric.Fabric.target (fl l)) = (a, b) \/ (Fabric.Fabric.source (fl l), Fabric.Fabric.target (fl l)) = (b, a)) /\
    Fabric.Fabric.operational_up (fl l) = Some (Qle_bool (acquisition_seconds p) (offset - since_of sel offset (a, b))).

Record acquired_ok (p : policy) (sel : Feeder.selection) (offset : Q) (st : choice) : Prop := {
  ao_since key s : dget (chosen st) key = Some s -> s = since_of sel offset key;
  ao_links l : l ∈ flinks st -> acquired_link p sel offset (chosen st) l }.

Lemma select_acquired p sel feeders offset st x : acquired_ok p sel offset st -> acquired_ok p sel offset (select p sel feeders offset st x).
Proof.
  intros A. pose proof A as [S L]. unfold select. cbv zeta. destruct (bool_decide _ && negb _); [done|]. destruct (_ || _); [done|].
  destruct (_ && _ && _); [done|]. fold (since_of sel offset (c_a x, c_b x)). constructor; cbn [chosen flinks].
  - intros key s. rewrite dget_dset. case_decide; [|apply S]. intros [= <-]. by subst.
  - assert (forall a b, dget (chosen st) (a, b) = Some (since_of sel offset (a, b)) ->
      dget (dset (chosen st) (c_a x, c_b x) (since_of sel offset (c_a x, c_b x))) (a, b) = Some (since_of sel offset (a, b))) as Hk.
    { intros a b H. rewrite dget_dset. case_decide as E; [by injection E as -> ->|done]. }
    intros l. rewrite elem_of_app, !elem_of_cons. intros [Hl|[->|[->|[]%not_elem_of_nil]]].
    + destruct (L l Hl) as (a & b & H1 & H2 & H3). exists a, b. auto.
    + exists (c_a x), (c_b x). rewrite dget_dset_eq. split_and!; [done|by left|done].
    + exists (c_a x), (c_b x). rewrite dget_dset_eq. split_and!; [done|by right|done].
Qed.

(** A link of a frame is up exactly when its pair has been selected, without a break,
    for the acquisition time: the selection keeps the start of a pair the previous one held
    and starts a new pair at the frame's offset. *)
Theorem frame_acquisition c states offset future c' fr : frame c states offset future = Ok (c', fr) ->
  (forall key s, dget (selected c') key = Some s -> s = since_of (selected c) offset key) /\
  (forall l, l ∈ f_links fr -> acquired_link (links_policy c) (selected c) offset (selected c') l).
Proof.
  unfold frame. rewrite bind_Ok. intros (cands & Hc & H). apply bind_Ok in H as (expiring & _ & H).
  apply bind_Ok in H as (feeders & _ & H). apply bind_Ok in H as (first & _ & [= <- <-]). cbn [f_links selected].
  assert (acquired_ok (links_policy c) (selected c) offset (fold_left (select (links_policy c) (selected c) feeders offset) cands (Choice [] [] []))) as [S L].
  { apply fold_left_inv; [intros; by apply select_acquired|]. constructor; simpl; [done|]. by intros l ?%not_elem_of_nil. }
  split; [done|]. intros l. rewrite sort_by_perm. apply L.
Qed.

End Contacts.
End Contacts.

(** The live clock drives the physical model through its interface. *)
#[global] Instance physical_contacts `{Math} `{Propagator} (o : Orbits.orbits) :
    ContactModel (list (string * Ephemeris.sample)) Contacts.contacts Contacts.frame_t :=
  {| LiveModel.states := Orbits.states o; LiveModel.frame := Contacts.frame |}.

Module Compile.
Import Ephemeris Contacts.

(** ** Connected components *)

Definition graph : Type := gmap string (gset string).

(** [graph[source].add(target)] of the links that are up. *)
Definition build_graph (nodes : list string) (links : list flink) : res graph :=
  foldM (fun (g : graph) l =>
      if up l then
        let* peers := or_raise KeyError (g !! Fabric.Fabric.source (fl l)) in
        Ok (<[Fabric.Fabric.source (fl l) := {[Fabric.Fabric.target (fl l)]} ∪ peers]> g)
      else Ok g)
    (list_to_map (map (fun n => (n, ∅)) nodes)) links.

(** [while todo: ...]; [todo] is a stack with its top first. *)
Fixpoint explore (fuel : nat) (g : graph) (seen : gset string) (todo : list string) : res (gset string) :=
  match fuel with
  | O => Err OutOfFuel
  | S fuel' =>
      match todo with
      | [] => Ok seen
      | n :: todo' =>
          if decide (n ∈ seen) then explore fuel' g seen todo' else
          let* peers := or_raise KeyError (g !! n) in
          let seen' := {[n]} ∪ seen in
          explore fuel' g seen' (elements (peers ∖ seen') ++ todo')
      end
  end.

(** A turn for the first node, one for each edge, and the last test. *)
Definition explore_fuel (g : graph) : nat := (2 + map_fold (fun _ peers n => size peers + n)%nat 0%nat g)%nat.

(** [min(remaining)] *)
Definition smallest (s : gset string) : option string := head (sorted_strings (elements s)).

Fixpoint groups (fuel : nat) (g : graph) (remaining : gset string) : res (list (list string)) :=
  match fuel with
  | O => Err OutOfFuel
  | S fuel' =>
      match smallest remaining with
      | None => Ok []
      | Some n =>
          let* seen := explore (explore_fuel g) g ∅ [n] in
          let* rest := groups fuel' g (remaining ∖ seen) in
          Ok (sorted_strings (elements seen) :: rest)
      end
  end.

Definition components (nodes : list string) (links : list flink) : res (list (list string)) :=
  let* g := build_graph nodes links in
  groups (S (size (dom g))) g (dom g).

(** ** The compiled scenario *)

Section Scenario.
Context `{M : Math} `{P : Propagator}.

Record compiled := Compiled { k_links : list Fabric.Fabric.link; k_frames : list frame_t; connectivity : list (Q * list (list string)); warmup_seconds : Q }.

(** [max(step, math.ceil(acquisition / step) * step)] *)
Definition warmup (step acquisition : Q) : Q := Qmax_ step (inject_Z (Qceiling (acquisition / step)) * step).

(** [while offset <= duration + 1e-9]: the frames from zero on, and the contacts after them. *)
Fixpoint sample_frames (fuel : nat) (o : Orbits.orbits) (c : contacts) (step duration offset : Q) (frames : list frame_t) : res (contacts * list frame_t) :=
  match fuel with
  | O => Err OutOfFuel
  | S fuel' =>
      if Qle_bool offset (duration + (1 # 1000000000)) then
        let* states := Orbits.states o offset in
        let* r := Contacts.frame c states offset None in
        sample_frames fuel' o r.1 step duration (round_to 9 (offset + step)) (if Qle_bool 0 offset then frames ++ [r.2] else frames)
      else Ok (c, frames)
  end.

(** Rounding an offset to nine places moves it by less than half of a step of at least 0.1 s. *)
Definition sample_fuel (step duration wm : Q) : nat := S (Z.to_nat (Qceiling ((duration + wm + 1) / (step / 2)))).

(** The link of the first frame, or the last one seen, down. *)
Definition initial_link (first : list (string * flink)) (item : string * flink) : Fabric.Fabric.link :=
  match dget first item.1 with Some l => fl l | None => Live.down (fl item.2) end.

Definition by_id (l : list flink) : list (string * flink) := dict_of (map (fun x => (Fabric.Fabric.link_id (fl x), x)) l).

Definition compile_scenario (o : Orbits.orbits) (c : contacts) (nodes : list string) (step duration : Q) : res compiled :=
  let wm := warmup step (acquisition_seconds (links_policy c)) in
  let* (c1, frames) := sample_frames (sample_fuel step duration wm) o c step duration (- wm) [] in
  let* final := or_raise IndexError (last frames) in
  let* frames := if Qltb (offset_seconds final) duration then
      let* states := Orbits.states o duration in
      let* r := Contacts.frame c1 states duration None in
      Ok (frames ++ [r.2])
    else Ok frames in
  let universe := by_id (concat (map f_links frames)) in
  let* first := or_raise IndexError (head frames) in
  let ordered := sort_by (fun a b : string * flink => String.leb a.1 b.1) universe in
  let* conn := mapM_res (fun f => let* g := components nodes (f_links f) in Ok (offset_seconds f, g)) frames in
  Ok (Compiled (map (initial_link (by_id (f_links first))) ordered) frames conn wm).

End Scenario.
End Compile.

(** ** A frame over one station and two satellites *)

Module Example.
Import Ephemeris Contacts.

(** Square roots to a micrometre and a flat sky: enough to evaluate a frame. *)
Definition coarse_math : Math :=
  {| m_sqrt := fun q => (inject_Z (Z.sqrt (Qfloor (q * inject_Z (10 ^ 18)))) / inject_Z (10 ^ 9))%Q;
     m_sin := fun _ => 0%Q; m_cos := fun _ => 1%Q; m_asin := fun x => x; m_radians := fun x => x;
     m_degrees := fun x => (x * 57)%Q; m_log2 := fun x => x; m_exp10 := fun _ => 10%Q |}.

Definition example_budget : budget := Budget 20000000000 1000 10 1000000 1 100000000.
Definition example_policy : policy := Policy 10 80 5000 3000 3 100 0 2 1 2 1 example_budget example_budget.
Definition example_states (t : Z) : list (string * sample) :=
  [("s2", Sample t (7000, 1000, 0)%Q (0, 0, 0)%Q); ("s1", Sample t (7000, 0, 0)%Q (0, 0, 0)%Q)].
Definition example_contacts : contacts :=
  Contacts_ example_policy [Station "gw" 0 0 None] [("s1", Some "1"); ("s2", Some "1")] [(("s1", "gw"), 0%Q)].

Definition example_frame : contacts * frame_t :=
  match frame (M := coarse_math) example_contacts (example_states 0) 10 None with
  | Ok r => r
  | Err _ => (example_contacts, Frame 0 0 [] [] 0 0 0)
  end.

Definition example_ups : list (string * option bool) :=
  map (fun l => (Fabric.Fabric.link_id (fl l), Fabric.Fabric.operational_up (fl l))) (f_links example_frame.2).

Lemma frame_budgets_witness :
  (forall n, degree isl n (f_links example_frame.2) <= 2) /\
  example_ups = [("gw--s1", Some true); ("gw--s2", Some false); ("s1--gw", Some true); ("s1--s2", Some false); ("s2--gw", Some false); ("s2--s1", Some false)].
Proof.
  split; [|vm_compute; reflexivity].
  apply (@frame_budgets coarse_math example_contacts (example_states 0) 10 None example_frame.1 example_frame.2).
  - apply (bool_decide_unpack _). vm_compute. exact I.
  - intros s ->%list_elem_of_singleton. apply (bool_decide_unpack _). vm_compute. exact I.
  - vm_compute. reflexivity.
Defined.

Lemma frame_acquisition_witness :
  (forall l, l ∈ f_links example_frame.2 -> acquired_link example_policy (selected example_contacts) 10 (selected example_frame.1) l) /\
  selected example_frame.1 = [(("s1", "gw"), 0%Q); (("s2", "gw"), 10%Q); (("s1", "s2"), 10%Q)].
Proof.
  split; [|vm_compute; reflexivity].
  apply (@frame_acquisition coarse_math example_contacts (example_states 0) 10 None example_frame.1 example_frame.2).
  vm_compute. reflexivity.
Defined.

End Example.
