(* ===== verification/Handover.v ===== *)
(** * Handover: a contact handover compiled into the live topology
    (lab/orbit-closed-loop/compile_replay.py)

    A CSV row keeps the dictionary it was read as beside its converted columns, so a missing
    column raises where the code reads it.  Times are offsets in milliseconds from the epoch;
    the ISO texts of the same instants and the file digests are left out. *)

From S2P Require Import Prelude Bytes Text Channel Fabric ContactPlan.

Module Handover.
Import Fabric.Fabric(filterM, andM).

(** ** Data *)

Definition GROUND_A : string := "ground-a".
Definition GROUND_B : string := "ground-b".
Definition REPLAY_PRIMARY : string := "r2".
Definition REPLAY_BACKUP : string := "r3".

Record row := Row { raw : Plan.row; start_ms : Z; end_ms : Z; latency_us : Z; capacity_bps : Z; range_km : json; doppler_hz : json }.

(** The tuple of a handover, in the order it is sorted by. *)
Record candidate := Candidate { handover_ms : Z; primary : string; backup : string; sample_ms : Z;
  primary_path_latency_us : Z; backup_path_latency_us : Z }.

(** ** The rows *)

Definition text (r : row) (k : string) : res string := or_raise KeyError (dget (raw r) k).

Definition int_column (raw : Plan.row) (k : string) : res Z := let* s := Plan.field raw k in py_int s.
Definition float_column (raw : Plan.row) (k : string) : res json := let* s := Plan.field raw k in py_float s.

Definition load_row (raw : Plan.row) : res row :=
  let* s := int_column raw "start_ms" in
  let* e := int_column raw "end_ms" in
  let* l := int_column raw "latency_us" in
  let* c := int_column raw "capacity_bps" in
  let* range := float_column raw "range_km" in
  let* doppler := float_column raw "doppler_hz" in
  raise (ValueError "invalid contact interval") when (e <=? s) ;;
  Ok (Row raw s e l c range doppler).

Definition load_rows (raws : list Plan.row) : res (list row) :=
  let* output := mapM_res load_row raws in
  raise (ValueError "contact CSV is empty") when (len output =? 0) ;;
  Ok output.

(** [row[k] == v] *)
Definition column_is (k v : string) (r : row) : res bool := let* s := text r k in Ok (String.eqb s v).

(** [row["source"] == source and row["target"] == target] *)
Definition joins (source target : string) (r : row) : res bool := andM (column_is "source" source r) (column_is "target" target r).

(** ** Windows of a satellite over both ground stations *)

(** [start, end = max(..), min(..)], kept when it is not empty. *)
Definition overlap (a b : row) : list (Z * Z) :=
  let s := Z.max (start_ms a) (start_ms b) in
  let e := Z.min (end_ms a) (end_ms b) in
  if s <? e then [(s, e)] else [].

Definition window_leb (x y : Z * Z) : bool := (x.1 <? y.1) || ((x.1 =? y.1) && (x.2 <=? y.2)).

Definition interval_intersections (rows : list row) (satellite : string) : res (list (Z * Z)) :=
  let* lefts := filterM (joins satellite GROUND_A) rows in
  let* rights := filterM (joins satellite GROUND_B) rows in
  Ok (sort_by window_leb (set_of (concat (map (fun a => concat (map (overlap a) rights)) lefts)))).

(** The only contact from one object to another at an instant. *)
Definition active (rows : list row) (source target : string) (at_ms : Z) : res row :=
  let* candidates := filterM (fun r => andM (joins source target r) (Ok ((start_ms r <=? at_ms) && (at_ms <? end_ms r)))) rows in
  match candidates with
  | [r] => Ok r
  | _ => Err (ValueError ("expected one " +:+ (source +:+ ("->" +:+ (target +:+ (" contact at " +:+ pretty at_ms))))))
  end.

(** ** Selection *)

(** The contacts read inside the [try] block. *)
Record contacts := Contacts { ingress : row; egress : row; backup_ground : row; optical : row }.

Definition contacts_at (rows : list row) (primary backup : string) (sample : Z) : res contacts :=
  let* i := active rows GROUND_A primary sample in
  let* e := active rows primary GROUND_B sample in
  let* g := active rows backup GROUND_B sample in
  let* o := active rows primary backup sample in
  Ok (Contacts i e g o).

(** The egress contact ends at the handover, the three others at least ten seconds later. *)
Definition hands_over (c : contacts) (end_ : Z) : bool :=
  negb (end_ms (ingress c) <? end_ + 10000) && (end_ms (egress c) =? end_) &&
  negb ((end_ms (backup_ground c) <? end_ + 10000) || (end_ms (optical c) <? end_ + 10000)).

Definition examine (rows : list row) (p b : string) (w : Z * Z) : res (option candidate) :=
  let (start, end_) := w in
  let sample := end_ - 1000 in
  if sample <? start then Ok None else
  match contacts_at rows p b sample with
  | Err (ValueError _) => Ok None
  | Err e => Err e
  | Ok c =>
      if hands_over c end_ then
        Ok (Some (Candidate end_ p b sample (latency_us (ingress c) + latency_us (egress c))
                    (latency_us (ingress c) + latency_us (optical c) + latency_us (backup_ground c))))
      else Ok None
  end.

Definition option_list {A} (o : option A) : list A := match o with Some a => [a] | None => [] end.

Definition pair_candidates (rows : list row) (p b : string) : res (list candidate) :=
  if String.eqb p b then Ok [] else
  let* ws := interval_intersections rows p in
  let* found := mapM_res (examine rows p b) ws in
  Ok (concat (map option_list found)).

Definition all_candidates (rows : list row) (satellites : list string) : res (list candidate) :=
  let* found := mapM_res (fun p => let* l := mapM_res (pair_candidates rows p) satellites in Ok (concat l)) satellites in
  Ok (concat found).

Definition lex {A} (eqb leb : A -> A -> bool) (x y : A) (rest : bool) : bool := if eqb x y then rest else leb x y.

(** The order of the tuples. *)
Definition cand_leb (x y : candidate) : bool :=
  lex Z.eqb Z.leb (handover_ms x) (handover_ms y) (
  lex String.eqb String.leb (primary x) (primary y) (
  lex String.eqb String.leb (backup x) (backup y) (
  lex Z.eqb Z.leb (sample_ms x) (sample_ms y) (
  lex Z.eqb Z.leb (primary_path_latency_us x) (primary_path_latency_us y) (
  Z.leb (backup_path_latency_us x) (backup_path_latency_us y)))))).

Definition select_handover (rows : list row) (satellites : list string) : res candidate :=
  let* cs := all_candidates rows satellites in
  match sort_by cand_leb cs with
  | [] => Err (ValueError "no overlapping handover where the ending contact is the active latency path")
  | c :: _ => Ok c
  end.

(** ** The scenario, the events and the selection report *)

Record link := Link { id : string; source : string; target : string; link_type : string; admin_up : bool; operational_up : bool;
  l_latency_us : Z; l_capacity_bps : Z; l_range_km : json; l_doppler_hz : json; risk_groups : list string }.

(** [row.get("risk_groups", "")]: a column a complete line of the CSV may not have *)
Definition mapped_link (r : row) (link_id src dst : string) : res link :=
  let groups := List.filter (fun v => negb (String.eqb v "")) (split_on (ch 59) (default "" (dget (raw r) "risk_groups"))) in
  let* t := text r "link_type" in
  Ok (Link link_id src dst t true true (latency_us r) (capacity_bps r) (range_km r) (doppler_hz r) groups).

Record source_link := SourceLink { contact_link_id : string; s_latency_us : Z; s_range_km : json; max_abs_doppler_hz : json;
  contact_start_ms : Z; contact_end_ms : Z }.

Record event := Event { event_id : string; subject : string; sequence : Z; type_ : string; event_link : string;
  orbital_object : string; contact_end : Z }.

Record node := Node { n_id : string; kind : string; loopback : string; labels : list (string * string); enabled : bool }.

Record intent := Intent { i_id : string; i_source : string; i_destination : string; destination_prefix : string; policy : string;
  demand_bps : Z; class_ : string; priority : Z }.

Record replay := Replay { selected : candidate; mapping : list (string * string); nodes : list node; links : list link; intents : list intent;
  source_links : list (string * source_link); event_forward : event; event_reverse : event;
  initial_network_path : list string; predicted_network_path : list string; total : Z; inventory : list (string * Z) }.

Definition definitions (c : candidate) : list (string * string * string) :=
  [(GROUND_A, primary c, "r1-r2"); (primary c, GROUND_A, "r2-r1"); (primary c, GROUND_B, "r2-r4"); (GROUND_B, primary c, "r4-r2");
   (primary c, backup c, "r2-r3"); (backup c, primary c, "r3-r2"); (backup c, GROUND_B, "r3-r4"); (GROUND_B, backup c, "r4-r3")].

Definition scenario_nodes (c : candidate) : list node :=
  [Node "r1" "gateway" "10.255.0.1" [("frr_container", "clab-sf-phase1-r1"); ("probe_target", "10.255.0.1"); ("orbital_object", GROUND_A)] true;
   Node "r2" "satellite" "10.255.0.2" [("frr_container", "clab-sf-phase1-r2"); ("orbital_object", primary c)] true;
   Node "r3" "satellite" "10.255.0.3" [("frr_container", "clab-sf-phase1-r3"); ("orbital_object", backup c)] true;
   Node "r4" "gateway" "10.255.0.4" [("frr_container", "clab-sf-phase1-r4"); ("probe_target", "10.255.0.4"); ("orbital_object", GROUND_B)] true].

Definition scenario_intents : list intent :=
  [Intent "n3-forward" "r1" "r4" "198.51.100.0/24" "hops" 10000000 "orbit-derived-transport" 100;
   Intent "n3-reverse" "r4" "r1" "192.0.2.0/24" "hops" 10000000 "orbit-derived-transport" 100].

Definition define_link (rows : list row) (m : list (string * string)) (sample : Z) (d : string * string * string) : res (link * (string * source_link)) :=
  let '(src, dst, link_id) := d in
  let* r := active rows src dst sample in
  let* a := or_raise KeyError (dget m src) in
  let* b := or_raise KeyError (dget m dst) in
  let* l := mapped_link r link_id a b in
  let* contact := text r "link_id" in
  Ok (l, (link_id, SourceLink contact (latency_us r) (range_km r) (doppler_hz r) (start_ms r) (end_ms r))).

(** [Counter(..)], sorted by key *)
Definition count_types (types : list string) : list (string * Z) :=
  sort_by (fun x y => String.leb x.1 y.1) (fold_left (fun d t => dset d t (default 0 (dget d t) + 1)) types []).

Definition catalog_id (item : json) : res string :=
  match item with
  | JDict d => match dget d "id" with Some (JStr s) => Ok s | Some _ => Err TypeError | None => Err KeyError end
  | _ => Err TypeError
  end.

Definition compile (raws : list Plan.row) (catalog : list json) : res replay :=
  let* rows := load_rows raws in
  let* ids := mapM_res catalog_id catalog in
  let* c := select_handover rows (sorted_strings ids) in
  let m := dict_of [(GROUND_A, "r1"); (primary c, REPLAY_PRIMARY); (backup c, REPLAY_BACKUP); (GROUND_B, "r4")] in
  let* ls := mapM_res (define_link rows m (sample_ms c)) (definitions c) in
  let event name subject := Event name subject 1 "link_down" subject (primary c) (handover_ms c) in
  let* types := mapM_res (fun r => text r "link_type") rows in
  Ok (Replay c m (scenario_nodes c) (map fst ls) scenario_intents (dict_of (map snd ls))
        (event "orbit-contact-end-forward-1" "r1-r2") (event "orbit-contact-end-reverse-1" "r2-r1")
        ["r1"; "r2"; "r4"] ["r1"; "r2"; "r3"; "r4"] (len rows) (count_types types)).

(** ** What a handover is *)

Definition joinsb (src dst : string) (r : row) : bool :=
  bool_decide (dget (raw r) "source" = Some src) && bool_decide (dget (raw r) "target" = Some dst).

Definition carriesb (src dst : string) (at_ms : Z) (r : row) : bool :=
  joinsb src dst r && ((start_ms r <=? at_ms) && (at_ms <? end_ms r)).

(** [r] is the only contact of the table from [src] to [dst] at the instant. *)
Definition sole (rows : list row) (src dst : string) (at_ms : Z) (r : row) : Prop := List.filter (carriesb src dst at_ms) rows = [r].

(** A window in which a satellite sees both ground stations. *)
Definition window (rows : list row) (sat : string) (w : Z * Z) : Prop :=
  exists a b, a ∈ rows /\ b ∈ rows /\ joinsb sat GROUND_A a = true /\ joinsb sat GROUND_B b = true /\
    w = (Z.max (start_ms a) (start_ms b), Z.min (end_ms a) (end_ms b)) /\ w.1 < w.2.

Record held (rows : list row) (p b : string) (at_ms : Z) (k : contacts) : Prop := {
  held_ingress : sole rows GROUND_A p at_ms (ingress k);
  held_egress : sole rows p GROUND_B at_ms (egress k);
  held_backup : sole rows b GROUND_B at_ms (backup_ground k);
  held_optical : sole rows p b at_ms (optical k) }.

(** The handover of [p] to [b] at the end of a window: one second before it the four contacts
    are up, the egress ends with the window and the others survive it by ten seconds. *)
Definition handover_of (rows : list row) (p b : string) (w : Z * Z) (c : candidate) : Prop :=
  exists k, held rows p b (w.2 - 1000) k /\ w.1 <= w.2 - 1000 /\
    end_ms (egress k) = w.2 /\ w.2 + 10000 <= end_ms (ingress k) /\ w.2 + 10000 <= end_ms (backup_ground k) /\ w.2 + 10000 <= end_ms (optical k) /\
    c = Candidate w.2 p b (w.2 - 1000) (latency_us (ingress k) + latency_us (egress k))
          (latency_us (ingress k) + latency_us (optical k) + latency_us (backup_ground k)).

Definition valid (rows : list row) (satellites : list string) (c : candidate) : Prop :=
  primary c ∈ satellites /\ backup c ∈ satellites /\ primary c <> backup c /\
  exists w, window rows (primary c) w /\ handover_of rows (primary c) (backup c) w c.

(** The only exception besides [ValueError]: a row without a column the search reads. *)
Definition missing (rows : list row) : Prop :=
  exists r, r ∈ rows /\ (dget (raw r) "source" = None \/ dget (raw r) "target" = None).

Definition keyed {A} (rows : list row) (m : res A) (P : A -> Prop) : Prop :=
  match m with Ok a => P a | Err e => e = KeyError /\ missing rows end.

(** ** Lemmas *)

Section Search.
Context (rows : list row).

Lemma keyed_bind {A B} (m : res A) (f : A -> res B) P Q :
  keyed rows m P -> (forall a, P a -> keyed rows (f a) Q) -> keyed rows (mbind f m) Q.
Proof. destruct m; simpl_res; auto. Qed.

Lemma keyed_impl {A} (m : res A) (P Q : A -> Prop) : (forall a, P a -> Q a) -> keyed rows m P -> keyed rows m Q.
Proof. destruct m; simpl; auto. Qed.

Lemma keyed_mapM {A B} (f : A -> res B) (P : A -> B -> Prop) l :
  (forall x, x ∈ l -> keyed rows (f x) (P x)) -> keyed rows (mapM_res f l) (Forall2 P l).
Proof.
  induction l as [|x l IH]; intros H; simpl; [constructor|].
  eapply keyed_bind; [apply H; left|]. intros y Hy. eapply keyed_bind; [apply IH; intros; apply H; by right|].
  intros ys Hys. simpl. by constructor.
Qed.

Lemma keyed_filterM {A} (q : A -> res bool) (p : A -> bool) l :
  (forall x, x ∈ l -> keyed rows (q x) (fun b => b = p x)) -> keyed rows (filterM q l) (fun r => r = List.filter p l).
Proof.
  induction l as [|x l IH]; intros H; simpl; [done|].
  eapply keyed_bind; [apply H; left|]. intros b ->. eapply keyed_bind; [apply IH; intros; apply H; by right|]. by intros r ->.
Qed.

(** Elements of the lists a comprehension concatenates. *)
Lemma elem_of_concat_Forall2 {A B} (Q : A -> B -> Prop) l ys :
  Forall2 (fun x y => forall c, c ∈ y <-> Q x c) l ys -> forall c, c ∈ concat ys <-> exists x, x ∈ l /\ Q x c.
Proof.
  induction 1 as [|x y l ys Hxy _ IH]; intros c; simpl; [set_solver|].
  rewrite elem_of_app, IH, Hxy. set_solver.
Qed.

Lemma joins_keyed src dst r : r ∈ rows -> keyed rows (joins src dst r) (fun b => b = joinsb src dst r).
Proof.
  intros Hr. unfold joins, column_is, text, joinsb, andM. destruct (dget (raw r) "source") as [s|] eqn:Es; simpl_res.
  - destruct (String.eqb_spec s src) as [->|Hne].
    + destruct (dget (raw r) "target") as [t|] eqn:Et; simpl_res; [|split; [done|exists r; auto]].
      rewrite bool_decide_eq_true_2 by done. destruct (String.eqb_spec t dst); case_bool_decide; simpl; congruence.
    + rewrite bool_decide_eq_false_2 by congruence. done.
  - split; [done|]. exists r; auto.
Qed.

Lemma active_cases src dst at_ms :
  (exists r, active rows src dst at_ms = Ok r /\ sole rows src dst at_ms r) \/
  (exists m, active rows src dst at_ms = Err (ValueError m) /\ forall r, ~ sole rows src dst at_ms r) \/
  (active rows src dst at_ms = Err KeyError /\ missing rows).
Proof.
  unfold active, sole. set (q := fun r => andM _ _).
  assert (keyed rows (filterM q rows) (fun r => r = List.filter (carriesb src dst at_ms) rows)) as Hk.
  { apply keyed_filterM. intros r Hr. unfold q, carriesb, andM. eapply keyed_bind; [by apply joins_keyed|].
    intros b ->. by destruct (joinsb src dst r). }
  destruct (filterM q rows) as [l|e]; simpl in *; simpl_res.
  - subst l. destruct (List.filter _ rows) as [|r [|r' l]]; [right; left|left|right; left]; eexists; (split; [done|]); congruence.
  - right; right. by destruct Hk as [-> ?].
Qed.

Lemma contacts_cases p b at_ms :
  (exists k, contacts_at rows p b at_ms = Ok k /\ held rows p b at_ms k) \/
  (exists m, contacts_at rows p b at_ms = Err (ValueError m) /\ forall k, ~ held rows p b at_ms k) \/
  (contacts_at rows p b at_ms = Err KeyError /\ missing rows).
Proof.
  unfold contacts_at.
  destruct (active_cases GROUND_A p at_ms) as [(i & -> & Hi)|[(m & -> & Hm)|[-> Hm]]]; simpl_res;
    [|by right; left; exists m; split; [|intros k []; naive_solver]|by auto].
  destruct (active_cases p GROUND_B at_ms) as [(e & -> & He)|[(m & -> & Hm)|[-> Hm]]]; simpl_res;
    [|by right; left; exists m; split; [|intros k []; naive_solver]|by auto].
  destruct (active_cases b GROUND_B at_ms) as [(g & -> & Hg)|[(m & -> & Hm)|[-> Hm]]]; simpl_res;
    [|by right; left; exists m; split; [|intros k []; naive_solver]|by auto].
  destruct (active_cases p b at_ms) as [(o & -> & Ho)|[(m & -> & Hm)|[-> Hm]]]; simpl_res;
    [|by right; left; exists m; split; [|intros k []; naive_solver]|by auto].
  left. eexists; split; [done|]. by split.
Qed.

Lemma held_unique p b at_ms k k' : held rows p b at_ms k -> held rows p b at_ms k' -> k = k'.
Proof. destruct k, k'. unfold sole. intros [] []. unfold sole in *. simpl in *. congruence. Qed.

Lemma examine_keyed p b w : keyed rows (examine rows p b w) (fun o => forall c, c ∈ option_list o <-> handover_of rows p b w c).
Proof.
  destruct w as [s e]. unfold examine, handover_of. simpl. destruct (e - 1000 <? s) eqn:Hs; bool_to_prop.
  { simpl. intros c. split; [set_solver|]. intros (k & _ & H & _). lia. }
  destruct (contacts_cases p b (e - 1000)) as [(k & -> & Hk)|[(m & -> & Hm)|[-> Hm]]].
  - destruct (hands_over k e) eqn:Hh; simpl; intros c; unfold hands_over in Hh.
    + bool_to_prop. rewrite list_elem_of_singleton. split.
      * intros ->. exists k. split_and!; try done; lia.
      * intros (k' & Hk' & _ & _ & _ & _ & _ & ->). by rewrite (held_unique _ _ _ _ _ Hk Hk').
    + split; [set_solver|]. intros (k' & Hk' & _ & H1 & H2 & H3 & H4 & _). exfalso.
      rewrite (held_unique _ _ _ _ _ Hk Hk') in Hh. revert Hh. rewrite H1, Z.eqb_refl.
      repeat match goal with |- context [?a <? ?b] => replace (a <? b) with false by (symmetry; apply Z.ltb_ge; lia) end. done.
  - simpl. intros c. split; [set_solver|]. intros (k & Hk & _). by destruct (Hm k).
  - by split.
Qed.

Lemma elem_of_concat_map {A B} (f : A -> list B) l c : c ∈ concat (map f l) <-> exists x, x ∈ l /\ c ∈ f x.
Proof. induction l as [|x l IH]; simpl; [set_solver|]. rewrite elem_of_app, IH. set_solver. Qed.

Lemma elem_of_set_of {A} `{EqDecision A} (l : list A) x : x ∈ set_of l <-> x ∈ l.
Proof.
  unfold set_of. assert (forall s, x ∈ fold_left (fun s x => if mem x s then s else s ++ [x]) l s <-> x ∈ s \/ x ∈ l) as H.
  { induction l as [|y l IH]; intros s; simpl; [set_solver|]. rewrite IH. unfold mem. case_bool_decide; set_solver. }
  rewrite H. set_solver.
Qed.

Lemma elem_of_filter_b {A} (p : A -> bool) l x : x ∈ List.filter p l <-> x ∈ l /\ p x = true.
Proof. by rewrite !list_elem_of_In, filter_In. Qed.

Lemma intervals_keyed sat : keyed rows (interval_intersections rows sat) (fun ws => forall w, w ∈ ws <-> window rows sat w).
Proof.
  unfold interval_intersections.
  eapply keyed_bind; [apply (keyed_filterM _ (joinsb sat GROUND_A)); intros; by apply joins_keyed|]. intros ? ->.
  eapply keyed_bind; [apply (keyed_filterM _ (joinsb sat GROUND_B)); intros; by apply joins_keyed|]. intros ? ->.
  simpl. intros w. rewrite (sort_by_perm window_leb), elem_of_set_of, elem_of_concat_map. unfold window, overlap.
  setoid_rewrite elem_of_concat_map. setoid_rewrite elem_of_filter_b. split.
  - intros (a & [Ha Ha'] & b & [Hb Hb'] & Hw). exists a, b. destruct (_ <? _) eqn:E; [|set_solver].
    apply list_elem_of_singleton in Hw as ->. bool_to_prop. done.
  - intros (a & b & Ha & Hb & Ha' & Hb' & -> & Hlt). exists a; split; [done|]. exists b; split; [done|].
    simpl in Hlt. rewrite (proj2 (Z.ltb_lt _ _) Hlt). by apply list_elem_of_singleton.
Qed.

Lemma pair_candidates_keyed p b : keyed rows (pair_candidates rows p b)
  (fun l => forall c, c ∈ l <-> p <> b /\ exists w, window rows p w /\ handover_of rows p b w c).
Proof.
  unfold pair_candidates. destruct (String.eqb_spec p b) as [->|Hne]; [simpl; set_solver|].
  eapply keyed_bind; [apply intervals_keyed|]. intros ws Hws.
  eapply keyed_bind; [apply keyed_mapM; intros w _; apply examine_keyed|]. intros found Hf. simpl. intros c.
  rewrite (elem_of_concat_Forall2 (handover_of rows p b) ws); [|by apply Forall2_fmap_r].
  split; [intros (w & Hw%Hws & Hh); eauto|intros (_ & w & Hw%Hws & Hh); eauto].
Qed.

Lemma all_candidates_keyed sats : keyed rows (all_candidates rows sats) (fun l => forall c, c ∈ l <-> valid rows sats c).
Proof.
  unfold all_candidates. eapply keyed_bind.
  { apply (keyed_mapM _ (fun p l => forall c, c ∈ l <-> exists b, b ∈ sats /\ (p <> b /\ exists w, window rows p w /\ handover_of rows p b w c))).
    intros p _. eapply keyed_bind; [apply keyed_mapM; intros b _; apply pair_candidates_keyed|].
    intros l Hl. simpl. by apply elem_of_concat_Forall2. }
  intros found Hf. simpl. intros c. rewrite (elem_of_concat_Forall2 _ _ _ Hf). unfold valid. split.
  - intros (p & Hp & b & Hb & Hne & w & Hw & Hh). pose proof Hh as (k & _ & _ & _ & _ & _ & _ & ->). simpl. eauto 10.
  - intros (Hp & Hb & Hne & w & Hw & Hh). eauto 10.
Qed.

End Search.

(** The order of the tuples is total and transitive. *)
Section Lex.
Context {A : Type} (eqb leb : A -> A -> bool).
Context (eqb_eq : forall x y, eqb x y = true <-> x = y) (leb_total : forall x y, leb x y = true \/ leb y x = true).
Context (leb_trans : forall x y z, leb x y = true -> leb y z = true -> leb x z = true).
Context (leb_antisym : forall x y, leb x y = true -> leb y x = true -> x = y).

Lemma lex_total x y r r' : r = true \/ r' = true -> lex eqb leb x y r = true \/ lex eqb leb y x r' = true.
Proof using eqb_eq leb_total.
  clear leb_trans leb_antisym. intros H. unfold lex. destruct (eqb x y) eqn:E, (eqb y x) eqn:E'; auto.
  - assert (x = y) as -> by (by apply eqb_eq). congruence.
  - assert (y = x) as -> by (by apply eqb_eq). congruence.
Qed.

Lemma lex_trans x y z r1 r2 r3 : (r1 = true -> r2 = true -> r3 = true) ->
  lex eqb leb x y r1 = true -> lex eqb leb y z r2 = true -> lex eqb leb x z r3 = true.
Proof using eqb_eq leb_trans leb_antisym.
  clear leb_total. intros H. unfold lex. destruct (eqb x y) eqn:E1.
  { assert (x = y) as -> by (by apply eqb_eq). destruct (eqb y z); auto. }
  destruct (eqb y z) eqn:E2.
  { assert (y = z) as <- by (by apply eqb_eq). by rewrite E1. }
  intros H1 H2. destruct (eqb x z) eqn:E3; [|by eapply leb_trans].
  apply eqb_eq in E3 as ->. assert (z = y) as -> by auto. by rewrite (proj2 (eqb_eq y y) eq_refl) in E1.
Qed.
End Lex.

Lemma cand_leb_total x y : cand_leb x y = true \/ cand_leb y x = true.
Proof.
  unfold cand_leb. repeat apply lex_total; intros;
    rewrite ?Z.eqb_eq, ?String.eqb_eq, ?Z.leb_le; try done; try lia; apply String.leb_total.
Qed.

Lemma cand_leb_trans x y z : cand_leb x y = true -> cand_leb y z = true -> cand_leb x z = true.
Proof.
  unfold cand_leb.
  repeat (first [apply (lex_trans Z.eqb Z.leb)|apply (lex_trans String.eqb String.leb)]);
    try (intros *; rewrite ?Z.leb_le, ?Z.eqb_eq; lia);
    try apply String.eqb_eq; try apply string_leb_trans; try apply String.leb_antisym.
Qed.

(** The first of the sorted candidates is the least. *)
Lemma head_least l c rest : sort_by cand_leb l = c :: rest -> forall c', c' ∈ l -> cand_leb c c' = true.
Proof.
  intros Hs c' Hin. rewrite <- (sort_by_perm cand_leb), Hs in Hin.
  pose proof (sort_by_sorted cand_leb cand_leb_total cand_leb_trans l) as Hsorted. rewrite Hs in Hsorted.
  apply StronglySorted_inv in Hsorted as [_ Hall]. rewrite Forall_forall in Hall.
  apply elem_of_cons in Hin as [->|Hin]; [|by apply Hall]. by destruct (cand_leb_total c c).
Qed.

(** ** Theorems *)

(** The search decides every input. *)
Lemma select_handover_cases rows satellites :
  match select_handover rows satellites with
  | Ok c => valid rows satellites c /\ forall c', valid rows satellites c' -> cand_leb c c' = true
  | Err (ValueError _) => forall c, ~ valid rows satellites c
  | Err e => e = KeyError /\ missing rows
  end.
Proof.
  pose proof (all_candidates_keyed rows satellites) as H. unfold select_handover.
  destruct (all_candidates rows satellites) as [l|e]; simpl in H; simpl_res; [|by destruct H as [-> ?]].
  destruct (sort_by cand_leb l) as [|c rest] eqn:E.
  - intros c Hc%H. rewrite <- (sort_by_perm cand_leb), E in Hc. set_solver.
  - split.
    + apply H. rewrite <- (sort_by_perm cand_leb), E. left.
    + intros c' Hc'%H. by eapply head_least.
Qed.

(** C33.  [select_handover] decides the search on every input: it returns the least valid handover
    in the order of the tuples (the earliest, then by names), it raises [ValueError] exactly
    when no pair of satellites hands over, and any other exception is the [KeyError] of a row
    without a source or a target column. *)
Theorem select_handover_least rows satellites :
  match select_handover rows satellites with
  | Ok c => valid rows satellites c /\ forall c', valid rows satellites c' -> cand_leb c c' = true
  | Err (ValueError _) => forall c, ~ valid rows satellites c
  | Err e => e = KeyError /\ missing rows
  end.
Proof. apply select_handover_cases. Qed.

(** What the links of the compiled scenario are made of. *)
Lemma compile_links raws catalog rep : compile raws catalog = Ok rep ->
  exists rows satellites ls, select_handover rows satellites = Ok (selected rep) /\
    mapM_res (define_link rows (mapping rep) (sample_ms (selected rep))) (definitions (selected rep)) = Ok ls /\
    links rep = map fst ls /\ source_links rep = dict_of (map snd ls) /\
    mapping rep = dict_of [(GROUND_A, "r1"); (primary (selected rep), REPLAY_PRIMARY); (backup (selected rep), REPLAY_BACKUP); (GROUND_B, "r4")] /\
    event_link (event_forward rep) = "r1-r2" /\ event_link (event_reverse rep) = "r2-r1".
Proof.
  unfold compile. rewrite bind_Ok. intros (rows & _ & H). apply bind_Ok in H as (ids & _ & H).
  apply bind_Ok in H as (c & Hc & H). apply bind_Ok in H as (ls & Hls & H). apply bind_Ok in H as (types & _ & [= <-]).
  by exists rows, (sorted_strings ids), ls.
Qed.

Lemma define_link_Ok rows m sample src dst i l : define_link rows m sample (src, dst, i) = Ok l ->
  exists r s, active rows src dst sample = Ok r /\ l.2 = (i, s) /\ contact_end_ms s = end_ms r /\ id l.1 = i /\
    dget m src = Some (source l.1) /\ dget m dst = Some (target l.1).
Proof.
  unfold define_link, mapped_link. rewrite bind_Ok. intros (r & Hr & H). apply bind_Ok in H as (a & Ha%or_raise_Ok & H).
  apply bind_Ok in H as (b & Hb%or_raise_Ok & H). apply bind_Ok in H as (l' & Hl & H). apply bind_Ok in Hl as (t & _ & [= <-]).
  apply bind_Ok in H as (contact & _ & [= <-]). simpl. eauto 10.
Qed.

(** Only the first ground station is replayed as r1. *)
Lemma mapped_r1 p b src : dget (dict_of [(GROUND_A, "r1"); (p, REPLAY_PRIMARY); (b, REPLAY_BACKUP); (GROUND_B, "r4")]) src = Some "r1" ->
  src = GROUND_A /\ p <> GROUND_A /\ b <> GROUND_A.
Proof.
  unfold dict_of, fold_left, fst, snd. rewrite !dget_dset. repeat case_decide; naive_solver.
Qed.

Lemma sole_active rows src dst at_ms r r' : sole rows src dst at_ms r -> active rows src dst at_ms = Ok r' -> r' = r.
Proof.
  intros Hs Ha. destruct (active_cases rows src dst at_ms) as [(x & Hx & Hsx)|[(m & Hm & _)|[Hm _]]]; unfold sole in *; congruence.
Qed.

(** The contact behind a link of the scenario. *)
Lemma compiled_link rows c m ls src dst i :
  mapM_res (define_link rows m (sample_ms c)) (definitions c) = Ok ls -> (src, dst, i) ∈ definitions c ->
  exists r s, active rows src dst (sample_ms c) = Ok r /\ dget (dict_of (map snd ls)) i = Some s /\ contact_end_ms s = end_ms r.
Proof.
  intros Hls%mapM_res_Ok Hin.
  assert (dkeys (map snd ls) = map snd (definitions c)) as Hk.
  { unfold dkeys. clear Hin. induction Hls as [|[[a b] j] l ds ls' Hl _ IH]; simpl; [done|].
    apply define_link_Ok in Hl as (r & s & _ & -> & _). simpl. by rewrite IH. }
  apply list_elem_of_lookup in Hin as [n Hn]. destruct (Forall2_lookup_l _ _ _ _ _ Hls Hn) as (l & Hl & Hd).
  apply define_link_Ok in Hd as (r & s & Hr & Hs & He & _). exists r, s. split_and!; [done| |done].
  rewrite dict_of_id by (unfold d_ok; rewrite Hk; repeat constructor; set_solver).
  apply dget_in_ok; [unfold d_ok; rewrite Hk; repeat constructor; set_solver|].
  apply list_elem_of_lookup. exists n. rewrite list_lookup_fmap, Hl. simpl. by rewrite Hs.
Qed.

(** The events written for the selected contact end take down r1-r2 and r2-r1, the link to the first
    ground station, whose contact outlives the handover by at least ten seconds; the contact
    that does end is replayed as r2-r4.  No other link of the scenario leaves r1, so applying the
    events isolates r1 instead of moving traffic to the predicted path r1, r2, r3, r4. *)
Theorem events_name_surviving_contact raws catalog rep : compile raws catalog = Ok rep ->
  event_link (event_forward rep) = "r1-r2" /\ event_link (event_reverse rep) = "r2-r1" /\
  (exists s, dget (source_links rep) "r1-r2" = Some s /\ handover_ms (selected rep) + 10000 <= contact_end_ms s) /\
  (exists s, dget (source_links rep) "r2-r4" = Some s /\ contact_end_ms s = handover_ms (selected rep)) /\
  (forall l, l ∈ links rep -> source l = "r1" -> id l = "r1-r2").
Proof.
  intros (rows & sats & ls & Hsel & Hls & -> & -> & Hm & Hf & Hr)%compile_links. split_and!; [done|done|..].
  3:{ intros l Hin Hl. apply list_elem_of_In, in_map_iff in Hin as (x & <- & Hx%list_elem_of_In).
      apply mapM_res_Ok in Hls. apply list_elem_of_lookup in Hx as [n Hn].
      destruct (Forall2_lookup_r _ _ _ _ _ Hls Hn) as ([[a b] i] & Hi & Hd). apply define_link_Ok in Hd as (r & s & _ & _ & _ & -> & Ha & _).
      rewrite Hl, Hm in Ha. apply mapped_r1 in Ha as (-> & Hp & Hb).
      apply list_elem_of_lookup_2 in Hi. revert Hi. unfold definitions. rewrite !elem_of_cons, elem_of_nil. naive_solver. }
  all: pose proof (select_handover_cases rows sats) as Hv; rewrite Hsel in Hv.
  all: destruct Hv as [(_ & _ & _ & w & _ & k & Hheld & _ & He & Hi & _ & _ & Hc) _].
  - destruct (compiled_link _ _ _ _ GROUND_A (primary (selected rep)) "r1-r2" Hls) as (r & s & Ha & Hs & Hend); [left|].
    exists s. split; [done|]. rewrite Hc in Ha |- *. simpl in *. rewrite Hend, (sole_active _ _ _ _ _ _ (held_ingress _ _ _ _ _ Hheld) Ha). lia.
  - destruct (compiled_link _ _ _ _ (primary (selected rep)) GROUND_B "r2-r4" Hls) as (r & s & Ha & Hs & Hend); [by right; right; left|].
    exists s. split; [done|]. rewrite Hc in Ha |- *. simpl in *. rewrite Hend, (sole_active _ _ _ _ _ _ (held_egress _ _ _ _ _ Hheld) Ha). lia.
Qed.

(** ** Example *)

Definition example_contact (src dst start end_ latency : string) : Plan.row :=
  [("link_id", src +:+ ("-" +:+ dst)); ("source", src); ("target", dst); ("start_ms", start); ("end_ms", end_); ("latency_us", latency);
   ("capacity_bps", "1000000"); ("range_km", "1200.5"); ("doppler_hz", "120.25"); ("link_type", "sat-ground")].

(** orbit-a leaves ground-b at 60 s; orbit-b and the optical link stay up. *)
Definition example_contacts : list Plan.row :=
  [example_contact "ground-a" "orbit-a" "0" "90000" "4000"; example_contact "orbit-a" "ground-a" "0" "90000" "4000";
   example_contact "orbit-a" "ground-b" "0" "60000" "5000"; example_contact "ground-b" "orbit-a" "0" "60000" "5000";
   example_contact "orbit-b" "ground-b" "0" "95000" "6000"; example_contact "ground-b" "orbit-b" "0" "95000" "6000";
   example_contact "orbit-a" "orbit-b" "0" "99000" "3000"; example_contact "orbit-b" "orbit-a" "0" "99000" "3000"].

Definition example_catalog : list json := [JDict [("id", JStr "orbit-b")]; JDict [("id", JStr "orbit-a")]].

Example example_handover :
  (let* rows := load_rows example_contacts in select_handover rows ["orbit-a"; "orbit-b"]) = Ok (Candidate 60000 "orbit-a" "orbit-b" 59000 9000 13000).
Proof. vm_compute. reflexivity. Qed.

Definition compiles (raws : list Plan.row) (catalog : list json) : bool := match compile raws catalog with Ok _ => true | Err _ => false end.

Lemma events_name_surviving_contact_witness :
  compiles example_contacts example_catalog = true /\
  match compile example_contacts example_catalog with
  | Ok rep => event_link (event_forward rep) = "r1-r2" /\ event_link (event_reverse rep) = "r2-r1" /\
      (exists s, dget (source_links rep) "r1-r2" = Some s /\ handover_ms (selected rep) + 10000 <= contact_end_ms s) /\
      (exists s, dget (source_links rep) "r2-r4" = Some s /\ contact_end_ms s = handover_ms (selected rep)) /\
      (forall l, l ∈ links rep -> source l = "r1" -> id l = "r1-r2")
  | Err _ => True
  end.
Proof.
  split; [vm_compute; reflexivity|]. destruct (compile example_contacts example_catalog) as [rep|] eqn:E; [|exact I].
  exact (events_name_surviving_contact _ _ rep E).
Defined.

End Handover.
