(* ===== verification/Performance.v ===== *)
(** * Performance: the real-time schedule and the ping counters
    (lab/live/performance.py, lab/live/storage.py, lab/live/summarize_performance.py)

    [Schedule] holds the slot arithmetic of the live loop and the assessment of a measured
    window; [Ping] reads the lines of [ping -D] and extends their 16-bit sequence numbers;
    [Stats] is the distribution of a list of durations.  Seconds are rationals. *)

From S2P Require Import Prelude Bytes Text Channel ContactPlan LiveModel.
From Stdlib Require Import QArith Qround Lqa.
#[local] Open Scope Z_scope.
#[local] Open Scope list_scope.

Module Schedule.

(** ** Data *)

(** A record of an applied frame; a field is [None] where the key is missing. *)
Record frame := Frame { index : Z; model_at : option Q; application_started_at : option Q; forwarding_finished_at : option Q;
  apply_seconds : option Q; slot : option Z; scheduled_to_forwarding_seconds : option Q; scheduled_to_completion_seconds : option Q;
  forwarding_verified : option bool }.

Record schedule := Schedule_ { base_epoch : Q; step_seconds : Q }.

Record assessment := Assessment { first_due_slot : Z; last_due_slot : Z; expected_slots : Z; completed_slots : Z;
  skipped_or_unfinished_slots : Z; on_time_slots : Z; pending_slots : Z; passing_fraction : Q; passed : bool }.

(** ** Operations *)

Definition next_slot (slot : Z) (elapsed step : Q) : Z * Z :=
  let following := Z.max (slot + 1) (Qfloor (elapsed / step) + 1) in
  (following, following - slot - 1).

(** [r.get(key, math.inf) <= target] *)
Definition within_target (v : option Q) (target : Q) : bool := match v with Some q => Qle_bool q target | None => false end.

Definition on_time (target : Q) (r : frame) : bool :=
  within_target (scheduled_to_forwarding_seconds r) target && within_target (scheduled_to_completion_seconds r) target &&
  default false (forwarding_verified r).

(** [{r['slot']: r for r in frames if 'slot' in r and first <= r['slot'] <= last}] *)
Definition eligible (frames : list frame) (first last : Z) : list (Z * frame) :=
  dict_of (concat (map (fun r => match slot r with Some k => if (first <=? k) && (k <=? last) then [(k, r)] else [] | None => [] end) frames)).

(** [None]: scheduler evidence missing. *)
Definition realtime_assessment (frames : list frame) (sched : option schedule) (started : option Q) (finished target : Q) : option assessment :=
  match started, sched with
  | Some started, Some (Schedule_ base step) =>
      if Qeq_bool step 0 then None else
      let first := Z.max 0 (Qceiling ((started - base) / step)) in
      let last := Qfloor ((finished - target - base) / step) in
      let expected := Z.max 0 (last - first + 1) in
      let el := eligible frames first last in
      let completed := len el in
      let good := len (List.filter (on_time target) (dvalues el)) in
      let fraction := (inject_Z good / inject_Z (Z.max 1 expected))%Q in
      Some (Assessment first last expected completed (expected - completed) good
              (Z.max 0 (Qfloor ((finished - base) / step) - Z.max last (first - 1))) fraction
              ((3 <=? expected) && Qle_bool (95 # 100) fraction))
  | _, _ => None
  end.

(** [realtime['passed']] *)
Definition realtime_passed (a : option assessment) : bool := match a with Some a => passed a | None => false end.

(** What [workloads_ready] reads of the workload manager: the status of each direction, the number of
    flows, and the N3 states with the number of expected ones when they are in use. *)
Record workloads := Workloads { states : list (string * option string); flow_count : Z; n3 : option (list (string * option string) * Z) }.

Definition all_ready (states : list (string * option string)) : bool := forallb (fun s => bool_decide (s.2 = Some "ready")) states.

Definition workloads_ready (w : option workloads) : bool :=
  match w with
  | None => true
  | Some w =>
      if negb (len (states w) =? 2 * flow_count w) || negb (all_ready (states w)) then false else
      match n3 w with
      | Some (n3_states, expected) => (len n3_states =? expected) && all_ready n3_states
      | None => true
      end
  end.

(** ** Lemmas *)

Lemma div_lt (a b c : Q) : (0 < c)%Q -> (a < b * c)%Q <-> (a / c < b)%Q.
Proof. intros Hc. split; intros H; [by apply Qlt_shift_div_r|]. apply (Qmult_lt_r _ _ _ Hc) in H. rewrite (Qmult_comm (a / c)), Qmult_div_r in H; [done|]. intros E. rewrite E in Hc. by apply Qlt_irrefl in Hc. Qed.

Lemma div_le (a b c : Q) : (0 < c)%Q -> (a <= b * c)%Q <-> (a / c <= b)%Q.
Proof. intros Hc. split; intros H; [by apply Qle_shift_div_r|]. apply (Qmult_le_r _ _ _ Hc) in H. rewrite (Qmult_comm (a / c)), Qmult_div_r in H; [done|]. intros E. rewrite E in Hc. by apply Qlt_irrefl in Hc. Qed.

Lemma le_div (a b c : Q) : (0 < c)%Q -> (b * c <= a)%Q <-> (b <= a / c)%Q.
Proof. intros Hc. split; intros H; [by apply Qle_shift_div_l|]. apply (Qmult_le_r _ _ _ Hc) in H. rewrite (Qmult_comm (a / c)), Qmult_div_r in H; [done|]. intros E. rewrite E in Hc. by apply Qlt_irrefl in Hc. Qed.

Lemma floor_le (q : Q) (k : Z) : k <= Qfloor q <-> (inject_Z k <= q)%Q.
Proof.
  split; intros H.
  - eapply Qle_trans; [|apply Qfloor_le]. by rewrite <- Zle_Qle.
  - rewrite <- (Qfloor_Z k). by apply Qfloor_resp_le.
Qed.

Lemma floor_lt (q : Q) (k : Z) : Qfloor q < k <-> (q < inject_Z k)%Q.
Proof. rewrite Z.lt_nge, floor_le. split; [apply Qnot_le_lt|apply Qlt_not_le]. Qed.

Lemma ceiling_le (q : Q) (k : Z) : Qceiling q <= k <-> (q <= inject_Z k)%Q.
Proof.
  split; intros H.
  - eapply Qle_trans; [apply Qle_ceiling|]. by rewrite <- Zle_Qle.
  - rewrite <- (Qceiling_Z k). by apply Qceiling_resp_le.
Qed.

(** A slot is due: scheduled in the window, its deadline before the end. *)
Definition due (s : schedule) (started finished target : Q) (k : Z) : Prop :=
  0 <= k /\ (started <= base_epoch s + inject_Z k * step_seconds s)%Q /\ (base_epoch s + inject_Z k * step_seconds s + target <= finished)%Q.

Lemma due_bounds s started finished target k : (0 < step_seconds s)%Q ->
  due s started finished target k <->
  Z.max 0 (Qceiling ((started - base_epoch s) / step_seconds s)) <= k <= Qfloor ((finished - target - base_epoch s) / step_seconds s).
Proof.
  intros Hs. unfold due. rewrite floor_le, <- (le_div _ _ _ Hs), Z.max_lub_iff, ceiling_le, <- (div_le _ _ _ Hs).
  split; [intros (? & ? & ?)|intros ([? ?] & ?)]; split_and!; try lra; try lia; done.
Qed.

(** The slots of the eligible records are distinct and in range, so there are at most as many as due slots. *)
Lemma eligible_bounded frames first last k : k ∈ dkeys (eligible frames first last) -> first <= k <= last.
Proof.
  unfold eligible. rewrite elem_of_dkeys_dict_of. intros H. apply list_elem_of_In, in_map_iff in H as ([k' r] & <- & H).
  apply in_concat in H as (l & Hl & Hin). apply in_map_iff in Hl as (r' & <- & _). destruct (slot r') as [k|]; [|done].
  destruct ((first <=? k) && (k <=? last)) eqn:E; [|done]. bool_to_prop. destruct Hin as [[= <- _]|[]]. simpl. lia.
Qed.

Lemma nodup_range (l : list Z) a b : NoDup l -> (forall k, k ∈ l -> a <= k <= b) -> len l <= Z.max 0 (b - a + 1).
Proof.
  intros Hn H. assert (length l <= length (seqZ a (b - a + 1)))%nat as Hle.
  { apply submseteq_length, NoDup_submseteq; [done|]. intros k Hk. apply elem_of_seqZ. specialize (H k Hk). lia. }
  rewrite length_seqZ in Hle. unfold len. lia.
Qed.

Lemma len_filter_le {A} (p : A -> bool) (l : list A) : len (List.filter p l) <= len l.
Proof. unfold len. pose proof (List.filter_length_le p l). lia. Qed.

Lemma fraction_passes good n : 0 < n -> Qle_bool (95 # 100) (inject_Z good / inject_Z n) = true <-> 19 * n <= 20 * good.
Proof.
  intros Hn. rewrite Qle_bool_iff, <- le_div by (change 0%Q with (inject_Z 0); by rewrite <- Zlt_Qlt).
  unfold Qle, Qmult, inject_Z; simpl. lia.
Qed.

(** ** Theorems *)

(** The schedule never replays stale model time: the next slot is the first one after the
    current slot whose instant lies after the elapsed time, and the slots jumped over are counted as skipped. *)
Theorem next_slot_first slot elapsed step : (0 < step)%Q ->
  let (following, skipped) := next_slot slot elapsed step in
  slot < following /\ (elapsed < inject_Z following * step)%Q /\ skipped = following - slot - 1 /\
  forall k, slot < k -> (elapsed < inject_Z k * step)%Q -> following <= k.
Proof.
  intros Hs. unfold next_slot. set (f := Z.max _ _). split_and!; [lia| |done|].
  - apply div_lt; [done|]. apply floor_lt. lia.
  - intros k Hk He. apply div_lt in He; [|done]. apply floor_lt in He. lia.
Qed.

Lemma next_slot_first_witness : (0 < 10)%Q /\ 3 < 7 /\ (66 < inject_Z 7 * 10)%Q.
Proof.
  split; [reflexivity|]. pose proof (next_slot_first 3 66 10 eq_refl) as H. vm_compute in H. destruct H as (H1 & H2 & _).
  split; [exact H1|exact H2].
Defined.

(** The real-time verdict counts every due slot, the unobserved and the skipped ones included: the
    assessed range is exactly the slots scheduled inside the window whose deadline has passed, a slot counts once, and
    the verdict is positive exactly when at least three slots were due and 95 % of them were on time. *)
Theorem realtime_counts_due_slots frames s started finished target a :
  (0 < step_seconds s)%Q -> realtime_assessment frames (Some s) (Some started) finished target = Some a ->
  (forall k, due s started finished target k <-> first_due_slot a <= k <= last_due_slot a) /\
  expected_slots a = Z.max 0 (last_due_slot a - first_due_slot a + 1) /\
  0 <= on_time_slots a <= completed_slots a /\ completed_slots a <= expected_slots a /\ 0 <= skipped_or_unfinished_slots a /\
  (passed a = true <-> 3 <= expected_slots a /\ 19 * expected_slots a <= 20 * on_time_slots a).
Proof.
  intros Hs. unfold realtime_assessment. destruct s as [base step]. cbn [base_epoch step_seconds] in *.
  destruct (Qeq_bool step 0) eqn:E. { by apply Qeq_bool_eq in E; rewrite E in Hs. }
  intros <-%(inj Some).
  cbn [first_due_slot last_due_slot expected_slots completed_slots skipped_or_unfinished_slots on_time_slots passed]. set (first := Z.max 0 (Qceiling ((started - base) / step))). set (last := Qfloor ((finished - target - base) / step)). set (el := eligible frames first last).
  assert (len el <= Z.max 0 (last - first + 1)) as Hle.
  { pose proof (nodup_range (dkeys el) first last (d_ok_dict_of _)) as H. unfold dkeys in H at 2. rewrite len_map in H.
    apply H. intros k. apply eligible_bounded. }
  pose proof (len_filter_le (on_time target) (dvalues el)) as Hg. unfold dvalues in Hg at 2. rewrite len_map in Hg.
  pose proof (len_nonneg (List.filter (on_time target) (dvalues el))) as H0.
  split_and!; [intros k; by apply (due_bounds (Schedule_ base step))|done|lia|lia|lia|lia|].
  rewrite andb_true_iff, Z.leb_le, fraction_passes by lia. split; intros [? ?]; split; lia.
Qed.

Definition example_schedule : schedule := Schedule_ 1000 10.
Definition example_frame (k : Z) (late : Q) : frame :=
  Frame (100000 + k) (Some (1000 + inject_Z k * 10)%Q) None None (Some 4%Q) (Some k) (Some 5%Q) (Some late) (Some true).
Definition example_frames : list frame := [example_frame 2 6; example_frame 3 7; example_frame 3 8; example_frame 5 9; example_frame 6 30].

(** Slots 2 to 7 are due; slots 4 and 7 were skipped and slot 6 was late. *)
Lemma realtime_counts_due_slots_witness :
  realtime_passed (realtime_assessment example_frames (Some example_schedule) (Some 1015%Q) 1085 10) = false /\
  exists a, realtime_assessment example_frames (Some example_schedule) (Some 1015%Q) 1085 10 = Some a /\
    on_time_slots a <= completed_slots a <= expected_slots a.
Proof.
  split; [vm_compute; reflexivity|].
  destruct (realtime_assessment example_frames (Some example_schedule) (Some 1015%Q) 1085 10) as [a|] eqn:E; [|vm_compute in E; discriminate].
  exists a. split; [reflexivity|]. destruct (realtime_counts_due_slots _ example_schedule _ _ _ a eq_refl E) as (_ & _ & [_ H1] & H2 & _).
  by split.
Defined.

End Schedule.

Module Ping.

(** ** Reading a line of [ping -D] *)

(** The longest prefix of characters in a class, and the rest. *)
Fixpoint span (p : ascii -> bool) (s : string) : string * string :=
  match s with
  | "" => ("", "")
  | String c s' => if p c then let (run, rest) := span p s' in (String c run, rest) else ("", s)
  end.

(** [re.search(key + '(' + class + '+)', s)]: the run and what follows it. *)
Fixpoint search_field (key : string) (p : ascii -> bool) (s : string) : option (string * string) :=
  let found := if startswith s key then let (run, rest) := span p (drop_str (String.length key) s) in
                 if String.eqb run "" then None else Some (run, rest) else None in
  match found with
  | Some r => Some r
  | None => match s with "" => None | String _ s' => search_field key p s' end
  end.

Definition number_char (c : ascii) : bool := is_digit c || Ascii.eqb c dot.

(** The last [time[=<]([\d.]+)] of the text, the one a greedy [.*] leaves. *)
Fixpoint last_time (s : string) (best : option string) : option string :=
  let here := if startswith s "time=" || startswith s "time<" then
      let (run, _) := span number_char (drop_str 5 s) in if String.eqb run "" then best else Some run else best in
  match s with "" => here | String _ s' => last_time s' here end.

(** [re.search(r'\[([\d.]+)\].*time[=<]([\d.]+)', line)] *)
Fixpoint reply (s : string) : option (string * string) :=
  match s with
  | "" => None
  | String c s' =>
      let found := if Ascii.eqb c (ch 91) then
          let (run, rest) := span number_char s' in
          match rest with
          | String d rest' => if Ascii.eqb d (ch 93) && negb (String.eqb run "") then option_map (pair run) (last_time rest' None) else None
          | "" => None
          end else None in
      match found with Some r => Some r | None => reply s' end
  end.

(** [sub in s] *)
Fixpoint contains (sub s : string) : bool :=
  startswith s sub || match s with "" => false | String _ s' => contains sub s' end.

Definition line_seq (line : string) : option Z := option_map (fun r => dec_fold r.1 0) (search_field "icmp_seq=" is_digit line).

(** ** The counters *)

Record counters := Counters { highest : Z; received : Z; samples : list (json * Z * json) }.

Definition init : counters := Counters 0 0 [].

(** The sequence number nearest to the highest seen, modulo 65536. *)
Definition extend (highest seq : Z) : Z :=
  let extended := highest / 65536 * 65536 + seq in
  if extended <? highest - 32768 then extended + 65536
  else if highest + 32768 <? extended then extended - 65536
  else extended.

(** [consume]: the counters afterwards, and the exception of a malformed number.  A reply is counted
    before its times are converted. *)
Definition consume (p : counters) (line : string) : counters * option exn :=
  match line_seq line with
  | None => (p, None)
  | Some seq =>
      let extended := extend (highest p) seq in
      let p := Counters (Z.max (highest p) extended) (received p) (samples p) in
      match reply line with
      | Some (at_, rtt) =>
          if contains "DUP!" line then (p, None) else
          let p := Counters (highest p) (received p + 1) (samples p) in
          match py_float at_, py_float rtt with
          | Ok a, Ok r => (Counters (highest p) (received p) (last_n 1800 (samples p ++ [(a, extended, r)])), None)
          | Err e, _ | Ok _, Err e => (p, Some e)
          end
      | None => (p, None)
      end
  end.

(** [snapshot]: transmitted, received, loss in percent and the samples *)
Definition snapshot (p : counters) : Z * Z * Q * list (json * Z * json) :=
  let q := (inject_Z ((highest p - received p) * 100) / inject_Z (Z.max 1 (highest p)))%Q in
  (highest p, received p, if Qle_bool 0 q then q else 0%Q, samples p).

Definition run (p : counters) (lines : list string) : counters := fold_left (fun p line => (consume p line).1) lines p.

(** Each number is less than half a period away from the highest before it. *)
Fixpoint near (h : Z) (ns : list Z) : Prop :=
  match ns with [] => True | n :: ns' => Z.abs (n - h) < 32768 /\ near (Z.max h n) ns' end.

(** ** Lemmas *)

Lemma extend_exact h n : Z.abs (n - h) < 32768 -> extend h (n mod 65536) = n.
Proof.
  intros H. unfold extend. pose proof (Z.div_mod h 65536). pose proof (Z.div_mod n 65536).
  pose proof (Z.mod_pos_bound h 65536). pose proof (Z.mod_pos_bound n 65536).
  destruct (_ <? _) eqn:E1; bool_to_prop; [lia|]. destruct (_ <? _) eqn:E2; bool_to_prop; lia.
Qed.

Lemma consume_highest p line seq : line_seq line = Some seq -> highest (consume p line).1 = Z.max (highest p) (extend (highest p) seq).
Proof.
  intros H. unfold consume. rewrite H. destruct (reply line) as [[a r]|]; [|done].
  destruct (contains "DUP!" line); [done|]. by destruct (py_float a), (py_float r).
Qed.

Lemma consume_samples p line : len (samples p) <= 1800 -> len (samples (consume p line).1) <= 1800.
Proof.
  intros H. unfold consume. destruct (line_seq line) as [seq|]; [|done]. destruct (reply line) as [[a r]|]; [|done].
  destruct (contains "DUP!" line); [done|]. destruct (py_float a); [|done]. destruct (py_float r); [|done].
  cbn [fst samples]. unfold last_n, len. rewrite length_drop. lia.
Qed.

(** ** Theorems *)

(** The 16-bit ICMP sequence numbers are extended exactly: along any stream of lines, malformed and duplicated replies
    included, in which each packet is less than half a period from the highest one before it, the transmitted count is the
    highest true packet number; the sample window keeps at most 1800 replies. *)
Theorem ping_extends_exactly p lines ns : len (samples p) <= 1800 ->
  Forall2 (fun line n => line_seq line = Some (n mod 65536)) lines ns -> near (highest p) ns ->
  (snapshot (run p lines)).1.1.1 = fold_left Z.max ns (highest p) /\ len (samples (run p lines)) <= 1800.
Proof.
  intros Hs H. revert p Hs. unfold run. induction H as [|line n lines ns Hl _ IH]; intros p Hs; cbn [fold_left near]; [done|].
  intros [Hn Hnear]. pose proof (consume_highest p line _ Hl) as Hh. rewrite extend_exact in Hh by done. rewrite <- Hh in Hnear |- *.
  apply IH; [by apply consume_samples|done].
Qed.

Definition example_lines : list string :=
  ["[1756000000.123456] 64 bytes from 10.45.0.1: icmp_seq=65535 ttl=63 time=12.5 ms";
   "[1756000001.123456] 64 bytes from 10.45.0.1: icmp_seq=2 ttl=63 time=11.5 ms";
   "[1756000001.623456] 64 bytes from 10.45.0.1: icmp_seq=1 ttl=63 time=9.25 ms (DUP!)";
   "no answer yet for icmp_seq=3"].

Example example_snapshot : (snapshot (run (Counters 65530 65530 []) example_lines)).1 =
  (65539, 65532, (inject_Z 700 / inject_Z 65539)%Q).
Proof. vm_compute. reflexivity. Qed.

Lemma ping_extends_exactly_witness :
  near 65530 [65535; 65538; 65537; 65539] /\ (snapshot (run (Counters 65530 65530 []) example_lines)).1.1.1 = 65539.
Proof.
  split; [simpl; lia|]. apply (ping_extends_exactly (Counters 65530 65530 []) example_lines [65535; 65538; 65537; 65539]).
  - vm_compute. discriminate.
  - repeat constructor.
  - simpl. lia.
Defined.

End Ping.

Module Stats.

(** ** [distribution] *)

Record distribution_t := Distribution { count : Z; mean : Q; median : Q; p95_nearest_rank : Q; max_ : Q }.

Definition sum (l : list Q) : Q := foldr Qplus 0%Q l.

(** [statistics.median] of sorted values *)
Definition median_of (l : list Q) : Q :=
  let n := length l in
  let at_ i := nth i l 0%Q in
  if Nat.odd n then at_ (n / 2)%nat else ((at_ (n / 2 - 1)%nat + at_ (n / 2)%nat) / 2)%Q.

(** [None] where the result is [{'count': 0}] *)
Definition distribution (values : list Q) : option distribution_t :=
  let l := sort_by Qle_bool values in
  match l with
  | [] => None
  | _ => Some (Distribution (len l) (sum l / inject_Z (len l)) (median_of l)
                 (nth (Z.to_nat ((19 * len l + 19) / 20 - 1)) l 0%Q) (nth (length l - 1) l 0%Q))
  end.

Lemma sorted_below (l : list Q) i x : StronglySorted (fun a b => Qle_bool a b = true) l -> l !! i = Some x ->
  (i < length (List.filter (fun y => Qle_bool y x) l))%nat.
Proof.
  intros Hs Hi. assert (take (S i) l `sublist_of` List.filter (fun y => Qle_bool y x) l) as H.
  { revert i Hi. induction Hs as [|y l Hs IH Hall]; intros i Hi; [done|]. destruct i as [|i]; simpl in Hi.
    - injection Hi as <-. simpl. rewrite (proj2 (Qle_bool_iff y y) (Qle_refl y)). rewrite take_0. constructor. apply sublist_nil_l.
    - simpl. rewrite Forall_forall in Hall. rewrite (Hall x) by (by eapply list_elem_of_lookup_2). constructor. by apply IH. }
  apply sublist_length in H. rewrite length_take in H. apply lookup_lt_Some in Hi. lia.
Qed.

Lemma Qle_bool_total a b : Qle_bool a b = true \/ Qle_bool b a = true.
Proof. rewrite !Qle_bool_iff. destruct (Qlt_le_dec a b); [left; by apply Qlt_le_weak|by right]. Qed.

Lemma Qle_bool_trans a b c : Qle_bool a b = true -> Qle_bool b c = true -> Qle_bool a c = true.
Proof. rewrite !Qle_bool_iff. apply Qle_trans. Qed.

(** The reported 95th percentile is a value of the sample that at least 95 % of the
    values do not exceed, and it is reported for every sample that is not empty. *)
Theorem p95_covers values : values <> [] -> exists d, distribution values = Some d /\ p95_nearest_rank d ∈ values /\
  19 * len values <= 20 * len (List.filter (fun v => Qle_bool v (p95_nearest_rank d)) values).
Proof.
  intros Hne. unfold distribution. set (l := sort_by Qle_bool values). pose proof (sort_by_perm Qle_bool values) as Hp. fold l in Hp.
  pose proof (sort_by_sorted Qle_bool Qle_bool_total Qle_bool_trans values) as Hs. fold l in Hs. clearbody l.
  assert (len l = len values) as Hl by (unfold len; by rewrite Hp).
  destruct l as [|x l'] eqn:E; [by apply Permutation_nil_l in Hp|]. rewrite <- E in *. clear E x l'.
  assert (0 < len values) as H0 by (destruct values; [done|rewrite len_cons; pose proof (len_nonneg values); lia]).
  eexists. split; [reflexivity|]. cbn [p95_nearest_rank].
  set (i := Z.to_nat ((19 * len l + 19) / 20 - 1)). assert (19 * len l <= 20 * Z.of_nat (S i)) as Hi.
  { unfold i. pose proof (Z.div_mod (19 * len l + 19) 20). pose proof (Z.mod_pos_bound (19 * len l + 19) 20). lia. }
  assert (i < length l)%nat as Hlt.
  { unfold i. pose proof (Z.div_mod (19 * len l + 19) 20). pose proof (Z.mod_pos_bound (19 * len l + 19) 20). unfold len in *. lia. }
  destruct (lookup_lt_is_Some_2 l i Hlt) as [x Hx]. rewrite (nth_lookup_Some _ _ _ _ Hx). split.
  - rewrite <- Hp. by eapply list_elem_of_lookup_2.
  - assert (len (List.filter (fun v => Qle_bool v x) values) = len (List.filter (fun v => Qle_bool v x) l)) as ->.
    { unfold len. f_equal. apply Permutation_length. apply filter_perm. by symmetry. }
    pose proof (sorted_below l i x Hs Hx). unfold len in *. lia.
Qed.

End Stats.
