(* ===== verification/Capacity.v ===== *)
(** * Capacity: the capacity trial and its clocks
    (lab/live/capacity.py, lab/live/performance.py)

    [AckGaps] reads the acknowledgement gaps a traffic worker ([Traffic]) publishes;
    [Tail] is the incremental reader of the frame log; [Schedule] counts the due slots of the
    real-time schedule; [Trial] is the monitor loop with its acceptance.  Wall-clock and
    monotonic instants are microseconds, as in [Traffic]; files a poll reads are the fields of
    its observation. *)

From S2P Require Import Prelude Bytes Text Traffic Fabric LiveModel Performance.
From Stdlib Require Import QArith Qround.
#[local] Open Scope Z_scope.
#[local] Open Scope list_scope.

Module AckGaps.
Import Traffic.

(** ** Data *)

(** The metrics of a flow, as the worker publishes them; a field is [None] where the key is missing
    or null. *)
Record metrics := Metrics { counter_id : option string; ack_snapshot_at : option Z; ack_snapshot_mono : option Z;
  ack_gap_events : option (list ack_gap); m_ack_gap_sequence : option Z; m_last_ack_mono : option Z; first_sent_mono : option Z;
  m_tx_packets : option Z; m_acked_packets : option Z; m_acked_bytes : option Z; m_goodput_bps : option Q }.

Record tracker := Tracker { t_counter_id : option string; event_id : Z; started : Z; maximum : Z }.

Definition with_event (t : tracker) (i m : Z) : tracker := Tracker (t_counter_id t) i (started t) m.

(** ** Operations *)

Definition init (baseline : metrics) (started : Z) : tracker :=
  Tracker (counter_id baseline) (default 0 (m_ack_gap_sequence baseline)) started 0.

(** [max(0, end - max(start, start_mono))]: the part of a gap after the start of the measurement *)
Definition clipped (start_mono start end_ : Z) : Z := Z.max 0 (end_ - Z.max start start_mono).

(** The [for] loop; the events before a missing one are already counted when it raises. *)
Fixpoint consume (start_mono : Z) (t : tracker) (events : list ack_gap) : tracker * option exn :=
  match events with
  | [] => (t, None)
  | e :: events' =>
      if negb (gap_id e =? event_id t + 1) then (t, Some (ValueError "ACK gap events missing or out of order")) else
      consume start_mono (with_event t (gap_id e) (Z.max (maximum t) (clipped start_mono (Traffic.start_mono e) (end_mono e)))) events'
  end.

(** 20 s *)
Definition freshness : Z := 20000000.

Definition truthy (o : option string) : bool := match o with Some s => negb (String.eqb s "") | None => false end.

(** [update]: the tracker afterwards, and the maximum or the exception. *)
Definition update (t : tracker) (m : metrics) (now : Z) : tracker * res Z :=
  if negb (truthy (t_counter_id t)) || negb (bool_decide (counter_id m = t_counter_id t))
  then (t, Err (ValueError "ACK counter identity missing or restarted")) else
  match ack_snapshot_at m, ack_snapshot_mono m with
  | Some stamp, Some mono =>
      if negb ((0 <=? now - stamp) && (now - stamp <=? freshness)) then (t, Err (ValueError "ACK telemetry missing or stale")) else
      let events := List.filter (fun e => event_id t <? gap_id e) (default [] (ack_gap_events m)) in
      if match events with e :: _ => negb (gap_id e =? event_id t + 1) | [] => false end
      then (t, Err (ValueError "ACK gap event history overflowed")) else
      let start_mono := mono - (stamp - started t) in
      match consume start_mono t events with
      | (t, Some e) => (t, Err e)
      | (t, None) =>
          if negb (bool_decide (m_ack_gap_sequence m = Some (event_id t))) then (t, Err (ValueError "ACK gap events missing")) else
          let t := match (match m_last_ack_mono m with Some p => Some p | None => first_sent_mono m end) with
            | Some p => with_event t (event_id t) (Z.max (maximum t) (clipped start_mono p mono))
            | None => t
            end in
          (t, Ok (maximum t))
      end
  | _, _ => (t, Err (ValueError "ACK telemetry missing or stale"))
  end.

(** ** What a worker publishes *)

Definition published (identity : string) (wall mono : Z) (c : counters) : metrics :=
  Metrics (Some identity) (Some wall) (Some mono) (Some (ack_gaps c)) (Some (ack_gap_sequence c)) (last_ack_mono c) (first_sent c)
    (Some (tx_packets (vals c))) (Some (acked_packets (vals c))) (Some (acked_bytes (vals c))) (Some (goodput_bps (snapshot mono c).2)).

(** ** The event ring of the worker *)

(** The ring holds the last events under consecutive identifiers, at most 256 of them; an event is
    missing from it only when 256 newer ones are there. *)
Record ring_ok (c : counters) : Prop := {
  ring_len : len (ack_gaps c) = Z.min 256 (ack_gap_sequence c);
  ring_id : forall i g, ack_gaps c !! i = Some g -> gap_id g = ack_gap_sequence c - len (ack_gaps c) + 1 + Z.of_nat i }.

Lemma ring_init now : ring_ok (Traffic.init now).
Proof. split; [done|]. intros i g H. done. Qed.

Lemma last_n_le {A} (n : nat) (l : list A) : (length l <= n)%nat -> last_n n l = l.
Proof. intros H. unfold last_n. replace (length l - n)%nat with 0%nat by lia. apply drop_0. Qed.

Lemma len_last_n {A} (n : nat) (l : list A) : len (last_n n l) = Z.min (Z.of_nat n) (len l).
Proof. unfold last_n, len. rewrite length_drop. lia. Qed.

Lemma ring_push c prev now sequence gap : ring_ok c ->
  let seq := ack_gap_sequence c + 1 in
  let gaps := last_n 256 (ack_gaps c ++ [AckGap seq prev now gap sequence]) in
  len gaps = Z.min 256 seq /\ forall i g, gaps !! i = Some g -> gap_id g = seq - len gaps + 1 + Z.of_nat i.
Proof.
  intros [Hl Hi]. simpl. set (l := ack_gaps c ++ _).
  assert (len l = len (ack_gaps c) + 1) as Hll by (unfold l; by rewrite len_app).
  pose proof (len_nonneg (ack_gaps c)). rewrite len_last_n, Hll. split; [lia|].
  intros i g Hg. unfold last_n in Hg. rewrite lookup_drop in Hg.
  assert (length l = S (length (ack_gaps c))) as Hlen by (unfold len in Hll; lia). rewrite Hlen in Hg. unfold l in Hg.
  apply lookup_app_Some in Hg as [Hg|[Hge Hg]].
  - apply Hi in Hg. unfold len in *. lia.
  - apply list_lookup_singleton_Some in Hg as [Hz <-]. simpl. unfold len in *. lia.
Qed.

Lemma ring_acknowledged c c' now sequence : ring_ok c -> acknowledged now sequence c = Ok c' -> ring_ok c'.
Proof.
  intros H. unfold acknowledged. destruct (dget (pending c) sequence) as [[at_ size]|]; [|intros [= <-]; by destruct H].
  rewrite bind_Ok. intros (prev & _ & [= <-]). destruct (gap_resolution <=? now - prev).
  - destruct (ring_push c prev now sequence (now - prev) H) as [H1 H2]. by split.
  - by destruct H.
Qed.

Lemma ring_apply_op st st' o : ring_ok st.1 -> apply_op st o = Ok st' -> ring_ok st'.1.
Proof.
  destruct st as [c n]. intros H. destruct o as [now size|size|now q|m|now]; simpl.
  - intros [= <-]. by destruct H.
  - intros [= <-]. by destruct H.
  - rewrite bind_Ok. intros (c1 & Hc & [= <-]). by eapply ring_acknowledged.
  - intros [= <-]. by destruct H.
  - intros [= <-]. unfold snapshot. destruct (previous c) as [[a t] r]. by destruct H.
Qed.

Lemma ring_reachable now ops st : foldM apply_op (Traffic.init now, 0) ops = Ok st -> ring_ok st.1.
Proof.
  apply (foldM_inv (fun st => ring_ok st.1)); [|apply ring_init]. intros s o s' _. apply ring_apply_op.
Qed.

(** An event stays in the ring until 256 newer ones replace it. *)
Lemma ring_lookup c g : ring_ok c -> ack_gap_sequence c - len (ack_gaps c) < gap_id g <= ack_gap_sequence c ->
  (exists g', gap_id g' = gap_id g /\ g' ∈ ack_gaps c).
Proof.
  intros [Hl Hi] Hg. destruct (ack_gaps c !! Z.to_nat (gap_id g - (ack_gap_sequence c - len (ack_gaps c) + 1))) as [g'|] eqn:E.
  - exists g'. split; [apply Hi in E; lia|]. apply list_elem_of_lookup. eauto.
  - apply lookup_ge_None in E. unfold len in *. lia.
Qed.

Lemma elem_of_last_n {A} (n : nat) (l : list A) i x : l !! i = Some x -> (length l - n <= i)%nat -> x ∈ last_n n l.
Proof.
  intros H Hi. apply list_elem_of_lookup. exists (i - (length l - n))%nat. unfold last_n. rewrite lookup_drop. rewrite <- H. f_equal. lia.
Qed.

Lemma ring_keeps_ack c c' now q g : ring_ok c -> acknowledged now q c = Ok c' -> g ∈ ack_gaps c ->
  ack_gap_sequence c' < gap_id g + 256 -> g ∈ ack_gaps c'.
Proof.
  intros [Hl Hi]. unfold acknowledged. destruct (dget (pending c) q) as [[at_ size]|]; [|by intros [= <-]].
  rewrite bind_Ok. intros (prev & _ & [= <-]) Hg. destruct (gap_resolution <=? now - prev); simpl; [|done]. intros Hseq.
  apply list_elem_of_lookup in Hg as [i Hg]. pose proof (Hi _ _ Hg) as Hid. pose proof (lookup_lt_Some _ _ _ Hg).
  eapply (elem_of_last_n _ _ i); [by apply lookup_app_l_Some|]. rewrite length_app. simpl. unfold len in *. lia.
Qed.

(** ** Time *)

Definition op_time (o : op) : option Z := match o with Send n _ | Ack n _ | Sample n => Some n | _ => None end.

(** The clock readings of the calls do not go back, from [t] to [t']. *)
Fixpoint timed (t : Z) (ops : list op) (t' : Z) : Prop :=
  match ops with
  | [] => t <= t'
  | o :: ops' => match op_time o with Some n => t <= n /\ timed n ops' t' | None => timed t ops' t' end
  end.

(** The events since [seq0] at time [m], the first of which may have started before it. *)
Definition paced (seq0 m t : Z) (c : counters) : Prop :=
  seq0 <= ack_gap_sequence c /\ m <= t /\
  (seq0 < ack_gap_sequence c ->
   exists l, last_ack_mono c = Some l /\ l <= t /\ (ack_gap_sequence c - seq0 - 1) * gap_resolution <= l - m).

Lemma paced_later seq0 m t t' c : paced seq0 m t c -> t <= t' -> paced seq0 m t' c.
Proof. intros (H1 & H2 & H3) Ht. split_and!; [done|lia|]. intros H. destruct (H3 H) as (l & ? & ? & ?). exists l. split_and!; [done|lia|done]. Qed.

Lemma paced_ack seq0 m t c c' now q : paced seq0 m t c -> t <= now -> acknowledged now q c = Ok c' -> paced seq0 m now c'.
Proof.
  intros (H1 & H2 & H3) Ht. unfold acknowledged. destruct (dget (pending c) q) as [[at_ size]|].
  2:{ intros [= <-]. eapply paced_later; [|exact Ht]. by split_and!. }
  rewrite bind_Ok. intros (prev & Hprev & [= <-]). unfold paced, gap_resolution in *; simpl.
  destruct (100000 <=? now - prev) eqn:E; bool_to_prop; (split_and!; [lia|lia|]); intros Hlt; exists now; (split_and!; [done|lia|]).
  - destruct (decide (seq0 = ack_gap_sequence c)) as [<-|Hne]; [lia|]. destruct H3 as (l & Hl & ? & ?); [lia|].
    rewrite Hl in Hprev. injection Hprev as <-. lia.
  - destruct H3 as (l & Hl & ? & ?); [lia|]. lia.
Qed.

Lemma paced_run seq0 m t t' st st' ops : timed t ops t' -> foldM apply_op st ops = Ok st' -> paced seq0 m t st.1 -> paced seq0 m t' st'.1.
Proof.
  revert t st. induction ops as [|o ops IH]; intros t [c n] Ht; simpl.
  { intros [= <-] H. by eapply paced_later. }
  rewrite bind_Ok. intros (st1 & H1 & H) Hp. destruct o as [now size|size|now q|msg|now]; simpl in *.
  - destruct Ht as [Hle Ht]. eapply IH; [exact Ht|exact H|]. injection H1 as <-. by apply (paced_later _ _ t).
  - eapply IH; [exact Ht|exact H|]. by injection H1 as <-.
  - destruct Ht as [Hle Ht]. apply bind_Ok in H1 as (c1 & Hc & [= <-]). eapply IH; [exact Ht|exact H|]. by eapply paced_ack.
  - eapply IH; [exact Ht|exact H|]. by injection H1 as <-.
  - destruct Ht as [Hle Ht]. eapply IH; [exact Ht|exact H|]. injection H1 as <-. unfold snapshot.
    destruct (previous c) as [[a tx] r]. by apply (paced_later _ _ t).
Qed.

Lemma timed_le t ops t' : timed t ops t' -> t <= t'.
Proof. revert t. induction ops as [|o ops IH]; intros t; simpl; [done|]. destruct (op_time o); [intros [? ?%IH]; lia|apply IH]. Qed.

(** Within 25.6 s, no more than 256 events. *)
Lemma events_bounded st st' ops m m' : timed m ops m' -> foldM apply_op st ops = Ok st' -> m' - m < 256 * gap_resolution ->
  ack_gap_sequence st.1 <= ack_gap_sequence st'.1 <= ack_gap_sequence st.1 + 256.
Proof.
  intros Ht H Hm. destruct (paced_run (ack_gap_sequence st.1) m m m' st st' ops Ht H) as (H1 & _ & H3); [split_and!; lia|].
  split; [done|]. destruct (decide (ack_gap_sequence st.1 = ack_gap_sequence st'.1)) as [->|Hne]; [lia|].
  destruct H3 as (l & _ & Hl & Hb); [lia|]. unfold gap_resolution in *. lia.
Qed.

(** ** The reader *)

(** The events are numbered from [b]. *)
Definition numbered (b : Z) (l : list ack_gap) : Prop := forall i g, l !! i = Some g -> gap_id g = b + Z.of_nat i.

Lemma numbered_cons b g l : numbered b (g :: l) -> gap_id g = b /\ numbered (b + 1) l.
Proof. intros H. split; [specialize (H 0%nat g eq_refl); lia|]. intros i g' Hi. specialize (H (S i) g' Hi). lia. Qed.

Lemma filter_newer x b l : numbered b l -> List.filter (fun e => x <? gap_id e) l = drop (Z.to_nat (x + 1 - b)) l.
Proof.
  revert b. induction l as [|g l IH]; intros b H; [by rewrite drop_nil|].
  apply numbered_cons in H as [Hg H]. cbn [List.filter]. rewrite Hg, (IH _ H). destruct (x <? b) eqn:E; bool_to_prop.
  - replace (Z.to_nat (x + 1 - b)) with 0%nat by lia. replace (Z.to_nat (x + 1 - (b + 1))) with 0%nat by lia. by rewrite !drop_0.
  - replace (Z.to_nat (x + 1 - b)) with (S (Z.to_nat (x + 1 - (b + 1)))) by lia. done.
Qed.

Lemma numbered_drop b n l : numbered b l -> numbered (b + Z.of_nat n) (drop n l).
Proof. intros H i g Hi. rewrite lookup_drop in Hi. apply H in Hi. lia. Qed.

(** The largest clipped gap of the events and of what was seen before. *)
Definition peak (start_mono m : Z) (l : list ack_gap) : Z :=
  fold_left (fun m e => Z.max m (clipped start_mono (Traffic.start_mono e) (end_mono e))) l m.

Lemma peak_le s m l : m <= peak s m l.
Proof. revert m. induction l as [|g l IH]; intros m; simpl; [lia|]. etrans; [|apply IH]. lia. Qed.

Lemma peak_elem s m l g : g ∈ l -> clipped s (Traffic.start_mono g) (end_mono g) <= peak s m l.
Proof.
  revert m. induction l as [|g' l IH]; intros m; [set_solver|]. intros [->|Hg]%elem_of_cons; simpl; [|by apply IH].
  etrans; [|apply peak_le]. lia.
Qed.

Lemma consume_numbered s t l : numbered (event_id t + 1) l ->
  consume s t l = (with_event t (event_id t + len l) (peak s (maximum t) l), None).
Proof.
  revert t. induction l as [|g l IH]; intros t H; cbn [consume].
  { rewrite len_nil, Z.add_0_r. by destruct t. }
  apply numbered_cons in H as [Hg H]. rewrite Hg, Z.eqb_refl. cbn [negb]. rewrite IH by done.
  unfold with_event. simpl. rewrite len_cons. do 2 f_equal. lia.
Qed.

(** Reading a worker whose ring still holds every event since the last reading. *)
Lemma update_published c t identity wall mono now :
  ring_ok c -> t_counter_id t = Some identity -> identity <> "" -> 0 <= now - wall <= freshness ->
  0 <= event_id t -> event_id t <= ack_gap_sequence c <= event_id t + 256 ->
  exists t', update t (published identity wall mono c) now = (t', Ok (maximum t')) /\
    event_id t' = ack_gap_sequence c /\ t_counter_id t' = Some identity /\ started t' = started t /\ maximum t <= maximum t' /\
    (forall g, g ∈ ack_gaps c -> event_id t < gap_id g -> clipped (mono - (wall - started t)) (Traffic.start_mono g) (end_mono g) <= maximum t').
Proof.
  intros Hr Hid Hne Hfresh H0 Hseq. unfold update. rewrite Hid. cbn [truthy]. apply String.eqb_neq in Hne. rewrite Hne. cbn [negb orb].
  rewrite bool_decide_eq_true_2 by done. cbn [negb orb published ack_snapshot_at ack_snapshot_mono ack_gap_events default].
  unfold freshness in *. rewrite (proj2 (Z.leb_le _ _)) by lia. rewrite (proj2 (Z.leb_le (now - wall) _)) by lia. cbn [negb andb id].
  set (b := ack_gap_sequence c - len (ack_gaps c) + 1). assert (numbered b (ack_gaps c)) as Hn by (intros i g Hg; apply (ring_id _ Hr) in Hg; lia).
  rewrite (filter_newer _ b _ Hn). set (k := Z.to_nat (event_id t + 1 - b)).
  pose proof (ring_len _ Hr) as Hlen. pose proof (len_nonneg (ack_gaps c)).
  pose proof (numbered_drop b k _ Hn) as Hd. replace (b + Z.of_nat k) with (event_id t + 1) in Hd by (unfold k, b; lia).
  destruct (match drop k (ack_gaps c) with [] => false | e :: _ => negb (gap_id e =? event_id t + 1) end) eqn:E.
  { destruct (drop k (ack_gaps c)) as [|g l]; [done|]. apply numbered_cons in Hd as [Hg _]. by rewrite Hg, Z.eqb_refl in E. }
  rewrite (consume_numbered _ _ _ Hd). set (p := peak _ _ _).
  assert (len (drop k (ack_gaps c)) = ack_gap_sequence c - event_id t) as Hlk.
  { unfold len in *. rewrite length_drop. unfold k, b. lia. }
  rewrite Hlk. replace (event_id t + (ack_gap_sequence c - event_id t)) with (ack_gap_sequence c) by lia.
  cbn [m_ack_gap_sequence with_event event_id]. rewrite bool_decide_eq_true_2 by done. cbn [negb].
  assert (forall g, g ∈ ack_gaps c -> event_id t < gap_id g -> clipped (mono - (wall - started t)) (Traffic.start_mono g) (end_mono g) <= p) as Hp.
  { intros g Hg Hlt. apply peak_elem. unfold k. rewrite <- (filter_newer _ b _ Hn). apply list_elem_of_In, filter_In. split; [by apply list_elem_of_In|]. by apply Z.ltb_lt. }
  pose proof (peak_le (mono - (wall - started t)) (maximum t) (drop k (ack_gaps c))) as Hle. fold p in Hle.
  eexists; split; [reflexivity|].
  destruct (match m_last_ack_mono _ with Some p => Some p | None => _ end); simpl; (split_and!; [done..|lia|]); intros g Hg Hlt; specialize (Hp g Hg Hlt); lia.
Qed.

(** ** Polling a running worker *)

Lemma sequence_grows st st' o : apply_op st o = Ok st' -> ack_gap_sequence st.1 <= ack_gap_sequence st'.1.
Proof.
  destruct st as [c n]. destruct o as [now size|size|now q|m|now]; simpl; try (by intros [= <-]).
  - rewrite bind_Ok. intros (c1 & Hc & [= <-]). simpl. revert Hc. unfold acknowledged.
    destruct (dget (pending c) q) as [[at_ size]|]; [|by intros [= <-]]. rewrite bind_Ok. intros (prev & _ & [= <-]). simpl.
    destruct (gap_resolution <=? now - prev); lia.
  - intros [= <-]. unfold snapshot. by destruct (previous c) as [[a t] r].
Qed.

Lemma sequence_grows_run st st' ops : foldM apply_op st ops = Ok st' -> ack_gap_sequence st.1 <= ack_gap_sequence st'.1.
Proof.
  revert st. induction ops as [|o ops IH]; intros st; simpl; [by intros [= <-]|].
  rewrite bind_Ok. intros (st1 & H1%sequence_grows & H2%IH). lia.
Qed.

Lemma ring_keeps_op st st' o g : ring_ok st.1 -> apply_op st o = Ok st' -> g ∈ ack_gaps st.1 -> ack_gap_sequence st'.1 < gap_id g + 256 -> g ∈ ack_gaps st'.1.
Proof.
  destruct st as [c n]. intros Hr. destruct o as [now size|size|now q|m|now]; simpl; try (by intros [= <-]).
  - rewrite bind_Ok. intros (c1 & Hc & [= <-]). by apply (ring_keeps_ack _ _ _ _ _ Hr Hc).
  - intros [= <-]. unfold snapshot. by destruct (previous c) as [[a t] r].
Qed.

Lemma ring_keeps st st' ops g : ring_ok st.1 -> foldM apply_op st ops = Ok st' -> g ∈ ack_gaps st.1 -> ack_gap_sequence st'.1 < gap_id g + 256 -> g ∈ ack_gaps st'.1.
Proof.
  revert st. induction ops as [|o ops IH]; intros st Hr; simpl; [by intros [= <-]|].
  rewrite bind_Ok. intros (st1 & H1 & H2) Hg Hs. eapply IH; [by eapply ring_apply_op|exact H2| |done].
  apply (ring_keeps_op _ _ _ _ Hr H1 Hg). apply sequence_grows_run in H2. lia.
Qed.

(** The instant the next acknowledgement gap counts from. *)
Definition gap_origin (c : counters) : option Z := match last_ack_mono c with Some t => Some t | None => first_sent c end.

(** An acknowledgement that ends an outage of [prev] to [at_]. *)
Definition ends_outage (c : counters) (q prev at_ : Z) : Prop :=
  dhas (pending c) q = true /\ gap_origin c = Some prev /\ gap_resolution <= at_ - prev.

Lemma outage_recorded st st' q prev at_ : ring_ok st.1 -> ends_outage st.1 q prev at_ -> apply_op st (Ack at_ q) = Ok st' ->
  exists g, g ∈ ack_gaps st'.1 /\ gap_id g = ack_gap_sequence st.1 + 1 /\ Traffic.start_mono g = prev /\ end_mono g = at_.
Proof.
  destruct st as [c n]. intros Hr (Hp & Ho & Hg). cbn [apply_op fst] in *. rewrite bind_Ok. intros (c1 & Hc & [= <-]). revert Hc. unfold acknowledged, dhas in *.
  destruct (dget (pending c) q) as [[sent_ size]|]; [|done]. fold (gap_origin c). rewrite Ho. cbn [or_raise]. intros [= <-]. simpl.
  rewrite (proj2 (Z.leb_le _ _) Hg). exists (AckGap (ack_gap_sequence c + 1) prev at_ (at_ - prev) q). split; [|done].
  eapply (elem_of_last_n _ _ (length (ack_gaps c))); [by apply list_lookup_middle|]. rewrite length_app. simpl. lia.
Qed.

(** C21.  The capacity monitor misses no outage of a running worker: a tracker up to date at [mono]
    that polls the same worker less than 25.6 s later, with telemetry at most 20 s old, never
    raises; it is up to date again, its maximum does not shrink, and it covers every
    acknowledgement gap of 100 ms or more that ended since, counted from the start of the
    measurement, however many calls the worker handled in between. *)
Theorem polls_miss_no_outage start ops st ops' st' t identity mono mono' wall now :
  foldM apply_op (Traffic.init start, 0) ops = Ok st -> foldM apply_op st ops' = Ok st' ->
  timed mono ops' mono' -> mono' - mono < 256 * gap_resolution ->
  t_counter_id t = Some identity -> identity <> "" -> event_id t = ack_gap_sequence st.1 -> 0 <= now - wall <= freshness ->
  exists t', update t (published identity wall mono' st'.1) now = (t', Ok (maximum t')) /\
    event_id t' = ack_gap_sequence st'.1 /\ maximum t <= maximum t' /\
    forall pre q at_ post st1 prev, ops' = pre ++ Ack at_ q :: post -> foldM apply_op st pre = Ok st1 -> ends_outage st1.1 q prev at_ ->
      clipped (mono' - (wall - started t)) prev at_ <= maximum t'.
Proof.
  intros Hrun Hrun' Htimed Hwin Hid Hne Hev Hfresh. pose proof (ring_reachable _ _ _ Hrun) as Hr.
  assert (ring_ok st'.1) as Hr'.
  { apply (foldM_inv (fun s => ring_ok s.1) _ _ _ _ (fun s o s' _ => ring_apply_op s s' o) Hr Hrun'). }
  pose proof (events_bounded _ _ _ _ _ Htimed Hrun' Hwin) as Hb. rewrite <- Hev in Hb.
  assert (0 <= event_id t) as H0. { rewrite Hev. pose proof (sequence_grows_run _ _ _ Hrun) as H. done. }
  destruct (update_published _ _ _ wall mono' now Hr' Hid Hne Hfresh H0 Hb) as (t' & Hu & He & _ & _ & Hm & Hall).
  exists t'. split_and!; [done..|]. intros pre q at_ post st1 prev -> Hpre Hout.
  rewrite foldM_app, Hpre in Hrun'. apply bind_Ok in Hrun' as (x & [= <-] & Hrun'). apply bind_Ok in Hrun' as (st2 & H2 & Hpost).
  assert (ring_ok st1.1) as Hr1. { apply (foldM_inv (fun s => ring_ok s.1) _ _ _ _ (fun s o s' _ => ring_apply_op s s' o) Hr Hpre). }
  destruct (outage_recorded _ _ _ _ _ Hr1 Hout H2) as (g & Hg & Hgid & <- & <-).
  pose proof (sequence_grows_run _ _ _ Hpre). apply Hall; [|lia].
  apply (ring_keeps _ _ _ _ (ring_apply_op _ _ _ Hr1 H2) Hpost Hg). lia.
Qed.

(** A worker that sends two packets and hears nothing for 12 s. *)
Definition example_start : list op := [Send 1000000 100; Send 1200000 100; Ack 1210000 1].
Definition example_outage : list op := [Sample 2000000; Ack 13210000 2].

Lemma polls_miss_no_outage_witness :
  exists st st' t', foldM apply_op (Traffic.init 0, 0) example_start = Ok st /\ foldM apply_op st example_outage = Ok st' /\
    update (Tracker (Some "w") (ack_gap_sequence st.1) 1500000 0) (published "w" 14000000 14000000 st'.1) 15000000 = (t', Ok (maximum t')) /\
    11710000 <= maximum t'.
Proof.
  destruct (foldM apply_op (Traffic.init 0, 0) example_start) as [st|e] eqn:E1; [|vm_compute in E1; discriminate].
  destruct (foldM apply_op st example_outage) as [st'|e] eqn:E2; [|vm_compute in E1; injection E1 as <-; vm_compute in E2; discriminate].
  destruct (polls_miss_no_outage 0 example_start st example_outage st' (Tracker (Some "w") (ack_gap_sequence st.1) 1500000 0)
    "w" 1500000 14000000 14000000 15000000 E1 E2) as (t' & Hu & _ & _ & Hall);
    [simpl; lia|unfold gap_resolution; lia|reflexivity|discriminate|reflexivity|unfold freshness; lia|].
  exists st, st', t'. split_and!; [reflexivity|exact E2|exact Hu|].
  destruct (foldM apply_op st [Sample 2000000]) as [st1|] eqn:E3; [|vm_compute in E1; injection E1 as <-; vm_compute in E3; discriminate].
  specialize (Hall [Sample 2000000] 2 13210000 [] st1 1210000 eq_refl E3). etrans; [|apply Hall].
  - vm_compute. discriminate.
  - vm_compute in E1. injection E1 as <-. vm_compute in E3. injection E3 as <-. split_and!; [vm_compute; reflexivity|vm_compute; reflexivity|vm_compute; discriminate].
Defined.

End AckGaps.

Module Tail.

(** ** [completed_records]: complete lines of a growing file *)

Section Tail.
Context {R : Type} (loads : list byte -> res R).

Definition newline : byte := x0a.

(** [stream.readline()]: up to and including the newline, or what is left *)
Fixpoint readline (s : list byte) : list byte * list byte :=
  match s with
  | [] => ([], [])
  | c :: s' => if decide (c = newline) then ([c], s') else let (line, rest) := readline s' in (c :: line, rest)
  end.

Definition complete (line : list byte) : bool := match last line with Some c => bool_decide (c = newline) | None => false end.

(** The [while] loop; [fuel] bounds the number of lines. *)
Fixpoint read_lines (fuel : nat) (s : list byte) (offset : Z) (records : list R) : res (list R * Z) :=
  match fuel with
  | O => Err OutOfFuel
  | S fuel' =>
      let (raw, rest) := readline s in
      if (len raw =? 0) || negb (complete raw) then Ok (records, offset) else
      let* r := loads raw in
      read_lines fuel' rest (offset + len raw) (records ++ [r])
  end.

(** [None]: the file does not exist. *)
Definition completed_records (file : option (list byte)) (offset : Z) : res (list R * Z) :=
  match file with
  | None => Ok ([], offset)
  | Some s => let rest := from s offset in read_lines (S (length rest)) rest offset []
  end.

(** ** Specification: the complete lines of a text *)

Fixpoint lines (acc s : list byte) : list (list byte) :=
  match s with
  | [] => []
  | c :: s' => if decide (c = newline) then (acc ++ [c]) :: lines [] s' else lines (acc ++ [c]) s'
  end.

(** The text of the complete lines. *)
Definition complete_text (s : list byte) : list byte := concat (lines [] s).

Lemma readline_app s : (readline s).1 ++ (readline s).2 = s.
Proof. induction s as [|c s IH]; simpl; [done|]. case_decide; [done|]. destruct (readline s) as [l r]. simpl in *. by rewrite IH. Qed.

Lemma readline_lines acc s :
  if complete (readline s).1 then lines acc s = (acc ++ (readline s).1) :: lines [] (readline s).2 else lines acc s = [].
Proof.
  revert acc. induction s as [|c s IH]; intros acc; [done|]. cbn [readline]. destruct (decide (c = newline)) as [->|Hc].
  - done.
  - specialize (IH (acc ++ [c])). destruct (readline s) as [l r]. cbn [fst snd] in *.
    replace (complete (c :: l)) with (complete l).
    + cbn [lines]. rewrite decide_False by done. destruct (complete l); [|done]. by rewrite IH, <- app_assoc.
    + unfold complete. destruct l as [|d l]; [simpl; by rewrite bool_decide_eq_false_2|done].
Qed.

Lemma readline_nil s : (readline s).1 = [] -> s = [].
Proof. destruct s as [|c s]; [done|]. simpl. case_decide; [done|]. by destruct (readline s). Qed.

Lemma read_lines_spec fuel s offset records : (length s < fuel)%nat ->
  read_lines fuel s offset records =
    let* rs := mapM_res loads (lines [] s) in Ok (records ++ rs, offset + len (complete_text s)).
Proof.
  revert s offset records. induction fuel as [|fuel IH]; intros s offset records Hf; [lia|]. cbn [read_lines].
  pose proof (readline_lines [] s) as Hl. pose proof (readline_app s) as Ha. pose proof (readline_nil s) as Hn.
  unfold complete_text. destruct (readline s) as [raw rest]. cbn [fst snd] in *.
  destruct (complete raw) eqn:Ec.
  2:{ rewrite Hl, orb_true_r. simpl_res. by rewrite len_nil, Z.add_0_r, app_nil_r. }
  destruct (len raw =? 0) eqn:E0; bool_to_prop. { apply len_zero in E0. by rewrite E0 in Ec. }
  cbn [orb negb]. rewrite Hl. cbn [mapM_res concat app]. destruct (loads raw) as [r|e]; [|done]. simpl_res.
  rewrite IH. 2:{ rewrite <- Ha, length_app in Hf. unfold len in E0. lia. }
  destruct (mapM_res loads (lines [] rest)) as [rs|e]; [|done]. simpl_res. unfold complete_text.
  rewrite len_app, <- app_assoc. simpl. do 2 f_equal. lia.
Qed.

Lemma lines_line pre acc t : newline ∉ acc -> lines pre (acc ++ newline :: t) = (pre ++ acc ++ [newline]) :: lines [] t.
Proof.
  revert pre. induction acc as [|c acc IH]; intros pre Hn; cbn [lines app]; [by rewrite decide_True|].
  apply not_elem_of_cons in Hn as [Hc Hn]. rewrite decide_False by done. rewrite IH by done. by rewrite <- app_assoc.
Qed.

(** Reading again from the end of the complete lines finds the rest. *)
Lemma lines_resume acc s : newline ∉ acc ->
  exists p, acc ++ s = concat (lines acc s) ++ p /\ forall t, lines [] (concat (lines acc s) ++ t) = lines acc s ++ lines [] t.
Proof.
  revert acc. induction s as [|c s IH]; intros acc Hn; cbn [lines].
  - exists acc. split; [by rewrite app_nil_r|done].
  - case_decide as Hc.
    + subst c. destruct (IH [] (not_elem_of_nil _)) as (p & Hp & Ht). exists p. cbn [concat]. split.
      * rewrite <- !app_assoc. f_equal. simpl. f_equal. exact Hp.
      * intros t. rewrite <- !app_assoc. cbn [app]. rewrite lines_line by done. cbn [app]. f_equal. apply Ht.
    + destruct (IH (acc ++ [c])) as (p & Hp & Ht); [set_solver|]. exists p. split; [|done]. by rewrite <- app_assoc in Hp.
Qed.

Lemma completed_records_spec s offset :
  completed_records (Some s) offset = let* rs := mapM_res loads (lines [] (from s offset)) in Ok (rs, offset + len (complete_text (from s offset))).
Proof. unfold completed_records. rewrite read_lines_spec by lia. done. Qed.

(** Tailing loses and repeats nothing: reading a file of complete records and a partial line, and
    later reading on from the returned offset after the file has grown, whatever was appended, gives the same
    records, in the same order, and the same offset as one reading of the grown file from its start. *)
Theorem tail_incremental s more records offset :
  completed_records (Some s) 0 = Ok (records, offset) ->
  completed_records (Some (s ++ more)) 0 =
    let* (later, offset') := completed_records (Some (s ++ more)) offset in Ok (records ++ later, offset').
Proof.
  rewrite !completed_records_spec. rewrite !from_zero. rewrite bind_Ok. intros (rs & Hrs & [= <- <-]).
  destruct (lines_resume [] s (not_elem_of_nil _)) as (p & Hp & Ht). cbn [app] in Hp. fold (complete_text s) in Hp, Ht.
  assert (s ++ more = complete_text s ++ (p ++ more)) as -> by (rewrite Hp at 1; by rewrite <- app_assoc).
  rewrite (from_at (complete_text s) (p ++ more)) by done. unfold complete_text at 1. rewrite Ht, mapM_res_app, Hrs.
  cbn [mbind res_bind]. destruct (mapM_res loads (lines [] (p ++ more))) as [later|e]; [|done].
  cbn [mbind res_bind]. rewrite concat_app, len_app. fold (complete_text s) (complete_text (p ++ more)). done.
Qed.

End Tail.

(** A log of two records and the start of a third, which is completed later. *)
Definition example_log : list byte := [x61; x0a; x62; x63; x0a; x64].
Definition example_more : list byte := [x65; x0a; x66].

Lemma tail_incremental_witness :
  let loads raw := Ok (len raw) in
  completed_records loads (Some example_log) 0 = Ok ([2; 3], 5) /\
  completed_records loads (Some (example_log ++ example_more)) 0 =
    let* (later, offset') := completed_records loads (Some (example_log ++ example_more)) 5 in Ok ([2; 3] ++ later, offset').
Proof. split; [reflexivity|]. apply tail_incremental. reflexivity. Defined.

End Tail.

Module Snapshot.
Import AckGaps.

(** ** Files of a run (lab/live/workload_snapshot.py) *)

(** A workload flow with its counters and its evidence, as [observe] reports it. *)
Record flow := Flow { id : string; fresh : bool; evidence_fresh : bool; f_metrics : metrics; evidence_at : option Q;
  forward : Z; reverse : Z; directions : list (string * option string); rate_scale : option Q; rate_bps : Q }.

Record workloads := Workloads_ { flows : list flow; gateways : option Z }.

(** The forwarding state of a direction, as far as evidence depends on it. *)
Record direction_state := DirectionState { nodes : list string; status : option string; steering : option string; route_source : option string }.

Definition no_state : direction_state := DirectionState [] None None None.

(** A flow of the snapshot the controller wrote. *)
Record base_flow := BaseFlow { b_id : string; b_source : string; b_destination : string; b_control : string;
  b_directions : list (string * direction_state); b_rate_bps : Q }.

Record sampling := Sampling { sample_seconds : option Q; capture_interval_seconds : option Q }.

Record snapshot := Snapshot_ { s_run_id : string; s_sampling : sampling; s_flows : list base_flow; s_gateways : option Z }.

(** The identity every file of a run carries. *)
Record identity := Identity { i_run_id : option string; i_token : option string }.

Record metrics_file := MetricsFile { observed_at : option Q; mf_rate_scale : option Q; mf_flows : list (string * metrics) }.
Record capture_file := CaptureFile { finished_at : option Q; cf_flows : list (string * (Z * Z)); signatures : list (string * string) }.

(** The directory: each file that exists and parses, with its identity. *)
Record folder := Folder { catalog : option identity; metrics_of : string -> option (identity * metrics_file);
  capture_latest : option (identity * capture_file); rates : option (identity * option Q) }.

Section Observe.
(** SHA-256 over the JSON of the selected states *)
Context (forwarding_signature : list direction_state -> string).

Definition truthy_str (o : option string) : bool := match o with Some s => negb (String.eqb s "") | None => false end.

(** [read(name)]: a file is used only when it belongs to the run and carries the token of the catalog. *)
Definition read {A} (s : snapshot) (f : folder) (v : option (identity * A)) : option A :=
  match catalog f, v with
  | Some c, Some (i, a) =>
      if bool_decide (i_run_id c = Some (s_run_id s)) && truthy_str (i_token c) &&
         bool_decide (i_run_id i = Some (s_run_id s)) && bool_decide (i_token i = i_token c) then Some a else None
  | _, _ => None
  end.

(** [0 <= now - t < limit] *)
Definition recent (now limit t : Q) : bool := Qle_bool 0 (now - t) && Qltb (now - t) limit.

Definition no_metrics : metrics := Metrics None None None None None None None None None None None.

Definition observe_flow (s : snapshot) (f : folder) (now : Q) (b : base_flow) : flow :=
  let source := read s f (metrics_of f (b_source b)) in
  let destination := read s f (metrics_of f (b_destination b)) in
  let proof := read s f (capture_latest f) in
  let limit := (3 * default 5%Q (sample_seconds (s_sampling s)) + 5)%Q in
  let up m := recent now limit (default 0%Q (observed_at m)) in
  let fresh := match source, destination with Some a, Some c => up a && up c | _, _ => false end in
  let counts := match proof with Some p => default (0, 0) (dget (cf_flows p) (b_id b)) | None => (0, 0) end in
  let captured := match proof with
    | Some p => recent now (2 * default 30%Q (capture_interval_seconds (s_sampling s)) + 10) (default 0%Q (finished_at p))
    | None => false end in
  let states := map (fun d => default no_state (dget (b_directions b) (b_id b +:+ ("-" +:+ d)))) ["forward"; "reverse"] in
  let same := bool_decide (match proof with Some p => dget (signatures p) (b_id b) | None => None end = Some (forwarding_signature states)) in
  Flow (b_id b) fresh (if String.eqb (b_control b) "distributed" then captured else captured && same)
    (match source with Some m => default no_metrics (dget (mf_flows m) (b_id b)) | None => no_metrics end)
    (match proof with Some p => finished_at p | None => None end) counts.1 counts.2
    (map (fun d => (d.1, status d.2)) (b_directions b))
    (match source with Some m => mf_rate_scale m | None => None end) (b_rate_bps b).

(** [observe] of an enabled snapshot: the flows and the rate scale of the run. *)
Definition observe (s : snapshot) (f : folder) (now : Q) : workloads * Q :=
  (Workloads_ (map (observe_flow s f now) (s_flows s)) (s_gateways s),
   default 1%Q (match read s f (rates f) with Some scale => scale | None => None end)).

(** ** Evidence belongs to the run *)

Lemma read_identity {A} s f (v : option (identity * A)) a : read s f v = Some a ->
  exists c i, catalog f = Some c /\ v = Some (i, a) /\ i_run_id i = Some (s_run_id s) /\ i_token i = i_token c /\ truthy_str (i_token c) = true.
Proof.
  unfold read. destruct (catalog f) as [c|]; [|done]. destruct v as [[i b]|]; [|done].
  destruct (_ && _) eqn:E; [|done]. intros [= <-]. bool_to_prop. eauto 10.
Qed.

End Observe.
End Snapshot.

Module Trial.
Import Schedule AckGaps Snapshot.

(** ** What a poll reads *)

Record service_status := Status { r_run_id : option string; s_phase : option string; s_active : bool; s_error : string }.

(** One turn of the loop: the clock at its test, at its start and after the files were read; the files. *)
Record observation := Observation { o_test : Q; o_now : Q; o_status : service_status; o_progress : option Q;
  o_snapshot : list frame; o_records : list frame; o_workloads : option workloads; o_end : Q }.

Definition microseconds (q : Q) : Z := Qfloor (q * 1000000).

(** ** The monitor *)

Record settings := Settings { run_id : string; streams : Z; window : Q; warmup : Q; outage : Q }.

Record monitor := Monitor { observed_frames : list (Z * frame); initial_proofs : list string; dynamic_proofs : list (string * Z);
  phase_names : list (Q * option string); failures : list string; last_phase : option string; dynamic_started : option Q;
  measured_started : option Q; baseline : list (string * metrics); gap_trackers : list (string * tracker);
  max_gap : list (string * Z); current : workloads }.

Definition start : monitor := Monitor [] [] [] [] [] None None None [] [] [] (Workloads_ [] None).

Definition fail (m : monitor) (msg : string) : monitor :=
  Monitor (observed_frames m) (initial_proofs m) (dynamic_proofs m) (phase_names m) (failures m ++ [msg]) (last_phase m) (dynamic_started m)
    (measured_started m) (baseline m) (gap_trackers m) (max_gap m) (current m).

Definition verified (f : flow) (since : Q) : bool :=
  fresh f && evidence_fresh f && negb (Qle_bool (default 0%Q (m_goodput_bps (f_metrics f))) 0) &&
  Qle_bool since (default 0%Q (evidence_at f)) && (0 <? forward f) && (0 <? reverse f) &&
  (len (directions f) =? 2) && forallb (fun d => bool_decide (d.2 = Some "ready")) (directions f).

(** [{**old, **new}] *)
Definition merge (old new : frame) : frame :=
  let pick {A} (n o : option A) := match n with Some _ => n | None => o end in
  Frame (index new) (pick (model_at new) (model_at old)) (pick (application_started_at new) (application_started_at old))
    (pick (forwarding_finished_at new) (forwarding_finished_at old)) (pick (apply_seconds new) (apply_seconds old)) (pick (slot new) (slot old))
    (pick (scheduled_to_forwarding_seconds new) (scheduled_to_forwarding_seconds old))
    (pick (scheduled_to_completion_seconds new) (scheduled_to_completion_seconds old)) (pick (forwarding_verified new) (forwarding_verified old)).

Definition observe_frames (d : list (Z * frame)) (snapshot records : list frame) : list (Z * frame) :=
  let d := fold_left (fun d r => if 100000 <? index r then dset d (index r) (match dget d (index r) with Some o => merge o r | None => r end) else d) snapshot d in
  fold_left (fun d r => dset d (index r) r) records d.

(** [max(observed_frames.values(), key=lambda r: r['index'], default={})] *)
Definition newest (d : list (Z * frame)) : option frame :=
  fold_left (fun best r => match best with None => Some r | Some b => if index b <? index r then Some r else best end) (dvalues d) None.

Definition since_of (r : frame) : res Q :=
  let* started := or_raise KeyError (application_started_at r) in
  Ok (default started (forwarding_finished_at r)).

Definition ended (s : service_status) : bool :=
  match s_phase s with Some p => mem p ["failed"; "stopped"; "interrupted"] | None => false end || negb (s_active s).

(** [any(f.get('fresh') and f.get('rate_scale') != .25 for f in flows)] *)
Definition rate_changed (fs : list flow) : bool :=
  existsb (fun f => fresh f && negb (match rate_scale f with Some q => Qeq_bool q (1 # 4) | None => false end)) fs.

(** The dictionary of initial proofs, by its keys. *)
Definition add_key (l : list string) (k : string) : list string := if mem k l then l else l ++ [k].

Definition dynamic_proof (proofs : list string) (index : Z) (d : list (string * Z)) (f : flow) : res (list (string * Z)) :=
  if mem (id f) proofs then Ok (dset d (id f) index) else Err KeyError.

(** The body of the loop over the flows once the measurement runs. *)
Definition track (outage_us now : Z) (m : monitor) (f : flow) : res monitor :=
  let* t := or_raise KeyError (dget (gap_trackers m) (id f)) in
  let (t', r) := update t (f_metrics f) now in
  let m := Monitor (observed_frames m) (initial_proofs m) (dynamic_proofs m) (phase_names m) (failures m) (last_phase m) (dynamic_started m)
    (measured_started m) (baseline m) (dset (gap_trackers m) (id f) t') (max_gap m) (current m) in
  match r with
  | Err (ValueError e) => Ok (fail m (id f +:+ (": " +:+ e)))
  | Err e => Err e
  | Ok gap =>
      let m := Monitor (observed_frames m) (initial_proofs m) (dynamic_proofs m) (phase_names m) (failures m) (last_phase m) (dynamic_started m)
        (measured_started m) (baseline m) (gap_trackers m) (dset (max_gap m) (id f) gap) (current m) in
      Ok (if outage_us <? gap then fail m (id f +:+ ": ACK receive-event gap exceeded") else m)
  end.

Definition is_nil {A} (l : list A) : bool := match l with [] => true | _ => false end.

(** The verification of the flows against the newest frame. *)
Definition prove (m : monitor) (o : observation) : res (monitor * Z) :=
  let frames := observe_frames (observed_frames m) (o_snapshot o) (o_records o) in
  let cur := default (current m) (o_workloads o) in
  let fs := flows cur in
  let* dynamic := match newest frames with
    | None => Ok None
    | Some r => let* since := since_of r in Ok (Some (index r, List.filter (fun f => verified f since) fs))
    end in
  let good := List.filter (fun f => verified f 0) fs in
  let initial := fold_left (fun l f => add_key l (id f)) good (initial_proofs m) in
  let dynamic_good := match dynamic with Some (_, l) => l | None => [] end in
  let* proofs := match dynamic with Some (i, l) => foldM (dynamic_proof initial i) (dynamic_proofs m) l | None => Ok (dynamic_proofs m) end in
  let phase := s_phase (o_status o) in
  let changed := negb (bool_decide (phase = last_phase m)) in
  Ok (Monitor frames initial proofs (if changed then phase_names m ++ [(o_now o, phase)] else phase_names m) (failures m) phase
        (match dynamic_started m with None => o_progress o | s => s end) (measured_started m) (baseline m) (gap_trackers m) (max_gap m) cur,
      len dynamic_good).

(** The start of the measurement, when every flow is verified on a dynamic frame. *)
Definition begin_measurement (s : settings) (m : monitor) (o : observation) (dynamic_good : Z) : monitor :=
  let fs := flows (current m) in
  match measured_started m with
  | None =>
      if (dynamic_good =? streams s) && bool_decide (s_phase (o_status o) = Some "running") then
        Monitor (observed_frames m) (initial_proofs m) (dynamic_proofs m) (phase_names m) (failures m) (last_phase m) (dynamic_started m)
          (Some (o_end o)) (dict_of (map (fun f => (id f, f_metrics f)) fs))
          (dict_of (map (fun f => (id f, init (f_metrics f) (microseconds (o_end o)))) fs)) (dict_of (map (fun f => (id f, 0)) fs)) (current m)
      else m
  | Some _ => m
  end.

Definition measure (s : settings) (m : monitor) (o : observation) : res monitor :=
  match measured_started m with
  | None => Ok m
  | Some _ =>
      let* m := foldM (track (microseconds (outage s)) (microseconds (o_end o))) m (flows (current m)) in
      Ok (if bool_decide (s_phase (o_status o) = Some "degraded") then fail m ("controller degraded in measurement: " +:+ s_error (o_status o)) else m)
  end.

Definition elapsed (m : monitor) (now : Q) : Q := match measured_started m with Some t => (now - t)%Q | None => 0%Q end.

(** How a turn ends: [break] before the report is updated, [break] after it, or the next turn. *)
Inductive verdict := Early | Finished | Next.

Definition turn (s : settings) (m : monitor) (o : observation) : res (monitor * verdict) :=
  if negb (bool_decide (r_run_id (o_status o) = Some (run_id s))) then Ok (fail m "owned run identity changed", Early) else
  if ended (o_status o) then Ok (fail m ("runtime ended: " +:+ s_error (o_status o)), Early) else
  let* (m, dynamic_good) := prove m o in
  let fs := flows (current m) in
  if negb (is_nil fs) && negb (len fs =? streams s) then Ok (fail m "catalog changed", Early) else
  if negb (is_nil fs) && negb (bool_decide (gateways (current m) = Some 24)) then Ok (fail m "workloads do not exercise all 24 gateways", Early) else
  if rate_changed fs then Ok (fail m "sending rate changed during the fixed-rate trial", Early) else
  let* m := measure s (begin_measurement s m o dynamic_good) o in
  if negb (is_nil (failures m)) || Qle_bool (window s) (elapsed m (o_end o)) then Ok (m, Finished) else
  match dynamic_started m, measured_started m with
  | Some d, None => if Qltb (warmup s) (o_end o - d) then Ok (fail m "flows did not become verified on a dynamic frame", Finished) else Ok (m, Next)
  | _, _ => Ok (m, Next)
  end.

(** The loop, until a turn ends it or the 3000 s of the trial are over: the monitor and the instant of the last
    report, or [None] when the observations end first. *)
Fixpoint loop (s : settings) (started : Q) (m : monitor) (observed_at : option Q) (l : list observation) : res (option (monitor * option Q)) :=
  match l with
  | [] => Ok None
  | o :: l' =>
      if negb (Qltb (o_test o - started) 3000) then Ok (Some (fail m "trial wall-clock timeout before a complete measurement window", observed_at)) else
      let* (m, v) := turn s m o in
      match v with
      | Early => Ok (Some (m, observed_at))
      | Finished => Ok (Some (m, Some (o_end o)))
      | Next => loop s started m (Some (o_end o)) l'
      end
  end.

(** ** The result *)

Record flow_result := FlowResult { r_tx : Z; r_acked : Z; ack_fraction : Q; average_goodput_bps : Q; target_bps : Q; target_fraction : Q; maximum_gap : Z }.

Record acceptance_t := Acceptance { functional_passed : bool; realtime_passed : bool; overall_passed : bool }.

Definition acceptance (failures : list string) (realtime : option assessment) : acceptance_t :=
  let functional := is_nil failures in
  let timely := Schedule.realtime_passed realtime in
  Acceptance functional timely (functional && timely).

Definition Qmax1 (q : Q) : Q := if Qle_bool q 1 then 1%Q else q.

Definition flow_outcome (m : monitor) (seconds : Q) (f : flow) : res flow_result :=
  let* b := or_raise KeyError (dget (baseline m) (id f)) in
  let delta (g : metrics -> option Z) := default 0 (g (f_metrics f)) - default 0 (g b) in
  let tx := delta m_tx_packets in
  let ack := delta m_acked_packets in
  let goodput := (inject_Z (delta m_acked_bytes * 8) / Qmax1 seconds)%Q in
  let target := (rate_bps f * (1 # 4))%Q in
  raise ZeroDivisionError when Qeq_bool target 0 ;;
  let* gap := or_raise KeyError (dget (max_gap m) (id f)) in
  Ok (FlowResult tx ack (inject_Z ack / inject_Z (Z.max 1 tx)) goodput target (goodput / target) gap).

Definition below_threshold (r : flow_result) : bool := Qltb (ack_fraction r) (95 # 100) || Qltb (target_fraction r) (8 # 10).

Definition add_result (m : monitor) (seconds : Q) (st : list (string * flow_result) * list string) (f : flow) : res (list (string * flow_result) * list string) :=
  let* r := flow_outcome m seconds f in
  Ok (dset st.1 (id f) r, if below_threshold r then st.2 ++ [id f +:+ ": delivery/throughput threshold not met"] else st.2).

(** [[r for r in observed_frames.values() if measured_started and seconds(r['model_at']) >= measured_started]] *)
Definition measured_frames (m : monitor) : res (list frame) :=
  match measured_started m with
  | None => Ok []
  | Some t => Fabric.Fabric.filterM (fun r => let* at_ := or_raise KeyError (model_at r) in Ok (Qle_bool t at_)) (dvalues (observed_frames m))
  end.

(** The failure of a criterion that is not met. *)
Definition unless (ok : bool) (msg : string) (l : list string) : list string := if ok then l else l ++ [msg].

Record report := Report { r_failures : list string; r_acceptance : acceptance_t; measured_seconds : Q; flow_results : list (string * flow_result);
  r_dynamic_proofs : list (string * Z); r_measured_frames : list frame; realtime_assessment_ : option assessment; completed_apply_passing_fraction : Q }.

Definition conclude (s : settings) (m : monitor) (observed_at : option Q) (finished : Q) (source_unchanged : option bool) (sched : option schedule) : res report :=
  let seconds := elapsed m finished in
  let* (results, fs) := match measured_started m with
    | Some _ => foldM (add_result m seconds) ([], failures m) (flows (current m))
    | None => Ok ([], failures m)
    end in
  let* frames := measured_frames m in
  let fs := unless (Qle_bool (window s) seconds) "full measurement window not completed" fs in
  let fs := unless (3 <=? len frames) "fewer than three dynamic frames during measurement" fs in
  let fs := unless (len (dynamic_proofs m) =? streams s) "not every flow has post-transition bidirectional packet evidence" fs in
  let fs := unless (negb (bool_decide (source_unchanged = Some false))) "source changed since runtime startup; performance baseline is not reproducible" fs in
  let realtime := realtime_assessment (dvalues (observed_frames m)) sched (measured_started m) (default finished observed_at) 10 in
  let* quick := Fabric.Fabric.filterM (fun r => let* a := or_raise KeyError (apply_seconds r) in Ok (Qle_bool a 10)) frames in
  Ok (Report fs (acceptance fs realtime) seconds results (dynamic_proofs m) frames realtime (inject_Z (len quick) / inject_Z (Z.max 1 (len frames)))).

Definition run_trial (s : settings) (started : Q) (l : list observation) (finished : Q) (source_unchanged : option bool) (sched : option schedule) : res (option report) :=
  let* final := loop s started start None l in
  match final with
  | None => Ok None
  | Some (m, observed_at) => let* r := conclude s m observed_at finished source_unchanged sched in Ok (Some r)
  end.

(** ** What a trial observed *)

(** The workloads that are current after the polls [h]. *)
Definition latest (h : list observation) : workloads := fold_left (fun cur o => default cur (o_workloads o)) h (current start).

(** Some poll of [h] read a record of frame [i] with the value [t] in a field. *)
Definition recorded (h : list observation) (g : frame -> option Q) (i : Z) (t : Q) : Prop :=
  exists o r, o ∈ h /\ r ∈ o_snapshot o ++ o_records o /\ index r = i /\ g r = Some t.

(** Packets were captured in both directions of a flow that is ready and delivering, and not before [since]. *)
Definition evident (f : flow) (since : Q) : Prop :=
  fresh f = true /\ evidence_fresh f = true /\ (0 < default 0%Q (m_goodput_bps (f_metrics f)))%Q /\ (since <= default 0%Q (evidence_at f))%Q /\
  0 < forward f /\ 0 < reverse f /\ len (directions f) = 2 /\ Forall (fun d => d.2 = Some "ready") (directions f).

(** When frame [i] was forwarded: the time of its record, or else of its application. *)
Definition forwarded (h : list observation) (i : Z) (since : Q) : Prop :=
  recorded h forwarding_finished_at i since \/ recorded h application_started_at i since.

(** A poll showed flow [k] with evidence from after frame [i] was forwarded. *)
Definition proven (h : list observation) (k : string) (i : Z) : Prop :=
  exists h1 h2 f since, h = h1 ++ h2 /\ f ∈ flows (latest h1) /\ id f = k /\ evident f since /\ forwarded h1 i since.

(** The metrics of flow [k] in the polls [h], which find the workloads [cur]. *)
Fixpoint samples (k : string) (cur : workloads) (h : list observation) : list (metrics * Z) :=
  match h with
  | [] => []
  | o :: h =>
      let cur := default cur (o_workloads o) in
      map (fun f => (f_metrics f, microseconds (o_end o))) (List.filter (fun f => String.eqb (id f) k) (flows cur)) ++ samples k cur h
  end.

(** A tracker that was fed these metrics, none of which it refused, and the gap it came to. *)
Inductive tracked (t0 : tracker) : list (metrics * Z) -> tracker -> Z -> Prop :=
| tracked_start : tracked t0 [] t0 0
| tracked_poll l t g x now t' g' : tracked t0 l t g -> update t x now = (t', Ok g') -> tracked t0 (l ++ [(x, now)]) t' g'.

(** What a counter gained since [x0]. *)
Definition gained (g : metrics -> option Z) (x x0 : metrics) : Z := default 0 (g x) - default 0 (g x0).

Definition metrics_by_id (w : workloads) : list (string * metrics) := dict_of (map (fun f => (id f, f_metrics f)) (flows w)).

(** ** Lemmas *)

Lemma latest_snoc h o : latest (h ++ [o]) = default (latest h) (o_workloads o).
Proof. unfold latest. by rewrite fold_left_app. Qed.

Lemma polled_samples_app k cur h1 h2 : samples k cur (h1 ++ h2) = samples k cur h1 ++ samples k (fold_left (fun cur o => default cur (o_workloads o)) h1 cur) h2.
Proof. revert cur. induction h1 as [|o h1 IH]; intros cur; [done|]. cbn [samples app fold_left]. by rewrite IH, app_assoc. Qed.

Lemma recorded_app h h' g i t : recorded h g i t -> recorded (h ++ h') g i t.
Proof. intros (o & r & Ho & H). exists o, r. split; [|done]. apply elem_of_app. by left. Qed.

Lemma proven_app h h' k i : proven h k i -> proven (h ++ h') k i.
Proof. intros (h1 & h2 & f & since & -> & H). exists h1, (h2 ++ h'), f, since. by rewrite app_assoc. Qed.

Lemma verified_evident f since : verified f since = true -> evident f since.
Proof.
  unfold verified, evident. intros H. repeat (apply andb_prop in H as [H ?]). bool_to_prop. repeat match goal with H : Qle_bool _ _ = true |- _ => apply Qle_bool_iff in H end. split_and!; try done.
  - apply Qnot_le_lt. intros Hle%Qle_bool_iff. congruence.
  - apply Forall_forall. intros d Hd%list_elem_of_In. rewrite forallb_forall in H0. specialize (H0 d Hd). by apply bool_decide_eq_true in H0.
Qed.

(** *** Frames *)

(** The values of a frame of the monitor are those of records it read. *)
Definition sourced (h : list observation) (i : Z) (r : frame) : Prop :=
  index r = i /\ Forall (fun g => forall t, g r = Some t -> recorded h g i t) [model_at; application_started_at; forwarding_finished_at].

Definition frames_ok (h : list observation) (d : list (Z * frame)) : Prop := d_ok d /\ Forall (fun kr => sourced h kr.1 kr.2) d.

Lemma sourced_read h o r : r ∈ o_snapshot o ++ o_records o -> sourced (h ++ [o]) (index r) r.
Proof.
  intros Hr. assert (forall g : frame -> option Q, forall t, g r = Some t -> recorded (h ++ [o]) g (index r) t) as H.
  { intros g t Hg. exists o, r. split; [|done]. apply elem_of_app. right. by apply list_elem_of_singleton. }
  split; [done|]. repeat (constructor; [by apply H|]). constructor.
Qed.

Lemma sourced_merge h i old r : sourced h i old -> sourced h i r -> sourced h i (merge old r).
Proof.
  intros [_ H1] [E H2]. split; [done|]. repeat (apply Forall_cons in H1 as [? H1]). repeat (apply Forall_cons in H2 as [? H2]).
  repeat (constructor; [intros t; cbn [merge model_at application_started_at forwarding_finished_at]; case_match; naive_solver|]). constructor.
Qed.

Lemma sourced_app h h' i r : sourced h i r -> sourced (h ++ h') i r.
Proof. intros [E H]. split; [done|]. eapply Forall_impl; [exact H|]. intros g Hg t Ht. by apply recorded_app, Hg. Qed.

Lemma frames_ok_step h d o : frames_ok h d -> frames_ok (h ++ [o]) (observe_frames d (o_snapshot o) (o_records o)).
Proof.
  intros [Hd Hs]. unfold observe_frames.
  assert (frames_ok (h ++ [o]) d) as H0 by (split; [done|]; eapply Forall_impl; [exact Hs|]; intros; by apply sourced_app).
  apply fold_left_inv.
  - intros d' r Hr [H1 H2]. split; [by apply d_ok_dset|]. apply Forall_dset; [done|]. apply sourced_read, elem_of_app. by right.
  - apply fold_left_inv; [|done]. intros d' r Hr [H1 H2]. destruct (100000 <? index r); [|done]. split; [by apply d_ok_dset|]. apply Forall_dset; [done|].
    assert (sourced (h ++ [o]) (index r) r) as Hr' by (apply sourced_read, elem_of_app; by left). cbn [fst snd].
    destruct (dget d' (index r)) as [old|] eqn:E; [|done]. apply sourced_merge; [|done]. apply dget_Some_in in E. rewrite Forall_forall in H2. by apply (H2 _ E).
Qed.

Lemma newest_in d r : newest d = Some r -> r ∈ dvalues d.
Proof.
  unfold newest. assert (forall l b, fold_left (fun best r => match best with None => Some r | Some b => if index b <? index r then Some r else best end) l b = Some r -> b = Some r \/ r ∈ l) as H.
  { induction l as [|x l IH]; intros b; cbn [fold_left]; [by left|]. intros [E|Hin]%IH; [|right; by right]. destruct b as [b|]; [|injection E as <-; right; left].
    destruct (index b <? index x); [injection E as <-; right; left|by left]. }
  intros [?|?]%H; done.
Qed.

Lemma newest_forwarded h d r since : frames_ok h d -> newest d = Some r -> since_of r = Ok since -> forwarded h (index r) since.
Proof.
  intros [_ Hs] Hn%newest_in. apply list_elem_of_fmap in Hn as ([i r'] & -> & Hin). rewrite Forall_forall in Hs. destruct (Hs _ Hin) as [E H]. cbn [fst snd] in *.
  repeat (apply Forall_cons in H as [? H]). unfold since_of. rewrite bind_Ok. intros (t & Ht%or_raise_Ok & [= <-]). unfold forwarded. rewrite E.
  destruct (forwarding_finished_at r') as [x|] eqn:Ef; cbn [default]; [left|right]; auto.
Qed.

Lemma List_filter_sublist {A} (p : A -> bool) (l : list A) : List.filter p l `sublist_of` l.
Proof. induction l as [|x l IH]; cbn [List.filter]; [constructor|]. destruct (p x); by constructor. Qed.

(** *** One poll *)

Definition proofs_ok (h : list observation) (d : list (string * Z)) : Prop := d_ok d /\ Forall (fun ki => proven h ki.1 ki.2) d.

Lemma prove_ok h m o m' n : frames_ok h (observed_frames m) -> proofs_ok h (dynamic_proofs m) -> current m = latest h -> prove m o = Ok (m', n) ->
  frames_ok (h ++ [o]) (observed_frames m') /\ proofs_ok (h ++ [o]) (dynamic_proofs m') /\ current m' = latest (h ++ [o]) /\
  (0 < n -> exists i since good, forwarded (h ++ [o]) i since /\ good `sublist_of` flows (current m') /\ len good = n /\ Forall (fun f => evident f since) good) /\
  failures m' = failures m /\ measured_started m' = measured_started m /\ baseline m' = baseline m /\ gap_trackers m' = gap_trackers m /\ max_gap m' = max_gap m.
Proof.
  intros Hf [Hp1 Hp2] Hc. pose proof (frames_ok_step _ _ o Hf) as Hf'. unfold prove. rewrite bind_Ok. intros (d & Hd & E). apply bind_Ok in E as (ps & Hps & [= <- <-]).
  cbn [observed_frames dynamic_proofs current failures measured_started baseline gap_trackers max_gap]. rewrite latest_snoc, <- Hc. set (cur := default (current m) (o_workloads o)) in *.
  assert (forall i good, d = Some (i, good) -> exists since, forwarded (h ++ [o]) i since /\ good = List.filter (fun f => verified f since) (flows cur)) as Hgood.
  { intros i good ->. destruct (newest _) as [r|] eqn:En; [|done]. apply bind_Ok in Hd as (since & Hs & [= <- <-]). exists since. split; [by eapply newest_forwarded|done]. }
  assert (forall i good f, d = Some (i, good) -> f ∈ good -> proven (h ++ [o]) (id f) i) as Hproven.
  { intros i good f Ed Hin. destruct (Hgood _ _ Ed) as (since & Hw & ->). apply list_elem_of_In, filter_In in Hin as [Hin Hv]. exists (h ++ [o]), [], f, since.
    split; [by rewrite app_nil_r|]. split; [rewrite latest_snoc, <- Hc; by apply list_elem_of_In|]. split; [done|]. split; [by apply verified_evident|done]. }
  split_and!; try done.
  - destruct d as [[i good]|]; [|injection Hps as <-; split; [done|]; eapply Forall_impl; [exact Hp2|]; intros; by apply proven_app].
    refine (foldM_inv (proofs_ok (h ++ [o])) _ _ _ _ _ _ Hps); [|split; [done|]; eapply Forall_impl; [exact Hp2|]; intros; by apply proven_app].
    intros d' f d'' Hin [H1 H2]. unfold dynamic_proof. destruct (mem _ _); [|done]. intros [= <-]. split; [by apply d_ok_dset|]. apply Forall_dset; [done|]. by apply (Hproven i good).
  - intros Hn. destruct d as [[i good]|]; [|done]. destruct (Hgood _ _ eq_refl) as (since & Hw & ->). exists i, since, (List.filter (fun f => verified f since) (flows cur)). split_and!; [done|apply List_filter_sublist|done|].
    apply Forall_forall. intros f Hin. apply list_elem_of_In, filter_In in Hin as [_ Hv]. by apply verified_evident.
Qed.

Lemma dget_dict_of_map {A B} (h : A -> B) (k : string) (l : list (string * A)) : dget (dict_of (map (fun x => (x.1, h x.2)) l)) k = h <$> dget (dict_of l) k.
Proof.
  unfold dict_of. induction l as [|[k' v] l IH] using rev_ind; [done|]. rewrite map_app, !fold_left_app. cbn [map fold_left fst snd]. rewrite !dget_dset. by case_decide.
Qed.

(** What the monitor knows of a measured flow: its tracker has seen every poll, and the gap is within the limit. *)
Definition gaps_ok (limit : Z) (at_ : Z) (seen : string -> list (metrics * Z)) (m : monitor) : Prop :=
  forall k x0, dget (baseline m) k = Some x0 -> exists t g, dget (gap_trackers m) k = Some t /\ dget (max_gap m) k = Some g /\ tracked (init x0 at_) (seen k) t g /\ g <= limit.

Lemma track_ok limit at_ now seen m f m' : gaps_ok limit at_ seen m -> track limit now m f = Ok m' -> failures m' = [] ->
  gaps_ok limit at_ (fun k => seen k ++ if String.eqb (id f) k then [(f_metrics f, now)] else []) m' /\ failures m = [] /\
  baseline m' = baseline m /\ observed_frames m' = observed_frames m /\ dynamic_proofs m' = dynamic_proofs m /\ current m' = current m /\ measured_started m' = measured_started m.
Proof.
  intros Hg. unfold track. rewrite bind_Ok. intros (t & Ht%or_raise_Ok & E) Hf. destruct (update t (f_metrics f) now) as [t' [gap|e]] eqn:Eu.
  2: { destruct e; try discriminate E. injection E as <-. simpl in Hf. by destruct (failures m). }
  destruct (limit <? gap) eqn:G; injection E as <-; [simpl in Hf; by destruct (failures m)|]. bool_to_prop. split_and!; try done.
  intros k x0 Hb. cbn [baseline] in Hb. destruct (Hg k x0 Hb) as (tk & g & H1 & H2 & H3 & H4). cbn [gap_trackers max_gap]. rewrite !dget_dset. destruct (String.eqb_spec (id f) k) as [<-|Hne].
  - rewrite !decide_True by done. exists t', gap. rewrite Ht in H1. injection H1 as <-. split_and!; try done. by eapply tracked_poll.
  - rewrite !decide_False by done. exists tk, g. by rewrite app_nil_r.
Qed.

(** A failure stays. *)
Lemma track_failures limit now fs m m' : foldM (track limit now) m fs = Ok m' -> failures m' = [] -> failures m = [].
Proof.
  intros H Hf. destruct (failures m) as [|x l] eqn:E; [done|]. exfalso. assert (failures m' <> []) as Hne; [|done].
  eapply (foldM_inv (fun m => failures m <> [])); [|rewrite E; discriminate|exact H]. clear. intros m f m' _ Hne. unfold track. rewrite bind_Ok. intros (t & _ & E). destruct (update _ _ _) as [t' [gap|e]].
  - destruct (_ <? _); injection E as <-; [|done]. simpl. by destruct (failures m).
  - destruct e; try done. injection E as <-. simpl. by destruct (failures m).
Qed.

Lemma track_all limit at_ now fs seen m m' : gaps_ok limit at_ seen m -> foldM (track limit now) m fs = Ok m' -> failures m' = [] ->
  gaps_ok limit at_ (fun k => seen k ++ map (fun f => (f_metrics f, now)) (List.filter (fun f => String.eqb (id f) k) fs)) m' /\ failures m = [] /\
  baseline m' = baseline m /\ observed_frames m' = observed_frames m /\ dynamic_proofs m' = dynamic_proofs m /\ current m' = current m /\ measured_started m' = measured_started m.
Proof.
  revert seen m. induction fs as [|f fs IH]; intros seen m Hg; cbn [foldM].
  - intros [= <-] Hf. split_and!; try done. intros k x0 Hb. destruct (Hg k x0 Hb) as (t & g & H). exists t, g. cbn [List.filter map]. by rewrite app_nil_r.
  - rewrite bind_Ok. intros (m1 & H1 & H2) Hf. assert (failures m1 = []) as Hf1.
    { by eapply track_failures. }
    destruct (track_ok _ _ _ _ _ _ _ Hg H1 Hf1) as (G1 & F1 & B1 & O1 & D1 & C1 & S1). destruct (IH _ _ G1 H2 Hf) as (G2 & F2 & B2 & O2 & D2 & C2 & S2).
    split_and!; try congruence. intros k x0 Hb. destruct (G2 k x0 Hb) as (t & g & E1 & E2 & E3 & E4). exists t, g. split_and!; try done. rewrite <- app_assoc in E3. cbn [List.filter]. by destruct (String.eqb (id f) k).
Qed.

(** A poll without a failure. *)
Lemma turn_clean s m o m' v : turn s m o = Ok (m', v) -> failures m' = [] -> r_run_id (o_status o) = Some (run_id s) /\ ended (o_status o) = false /\
  exists m1 n, prove m o = Ok (m1, n) /\ measure s (begin_measurement s m1 o n) o = Ok m'.
Proof.
  assert (forall (m0 m1 : monitor) msg (v0 v1 : verdict), (Ok (fail m0 msg, v0) : res (monitor * verdict)) = Ok (m1, v1) -> failures m1 = [] -> False) as Hno.
  { intros m0 m1 msg v0 v1 [= <- _] H. simpl in H. by destruct (failures m0). }
  unfold turn. destruct (negb (bool_decide _)) eqn:Er; [intros ? ?; exfalso; by eapply Hno|]. destruct (ended (o_status o)); [intros ? ?; exfalso; by eapply Hno|].
  rewrite bind_Ok. intros ([m1 n] & H1 & E) Hf. split; [by apply negb_false_iff, bool_decide_eq_true in Er|]. split; [done|]. exists m1, n. split; [done|].
  do 3 (destruct (_ : bool) in E; [exfalso; by eapply Hno|]). apply bind_Ok in E as (m2 & H2 & E). rewrite H2. f_equal.
  destruct (_ || _); [by injection E as <- _|]. destruct (dynamic_started m2), (measured_started m2); try by injection E as <- _.
  destruct (Qltb _ _); [exfalso; by eapply Hno|]. by injection E as <- _.
Qed.

Lemma turn_failures s m o m' v : turn s m o = Ok (m', v) -> failures m' = [] -> failures m = [].
Proof.
  intros Ht Hf. destruct (turn_clean _ _ _ _ _ Ht Hf) as (_ & _ & m1 & n & H1 & H2).
  assert (failures (begin_measurement s m1 o n) = failures m) as <-.
  { revert H1. unfold prove. rewrite bind_Ok. intros (d & _ & E). apply bind_Ok in E as (ps & _ & [= <- <-]). unfold begin_measurement. cbn [measured_started]. destruct (measured_started m); [done|]. by destruct (_ && _). }
  revert H2. unfold measure. destruct (measured_started _); [|by intros [= ->]]. rewrite bind_Ok. intros (m2 & H2 & [= <-]). eapply track_failures; [exact H2|].
  destruct (bool_decide _); [|done]. simpl in Hf. by destruct (failures m2).
Qed.

Lemma loop_failures s started m seen l m' seen' : loop s started m seen l = Ok (Some (m', seen')) -> failures m' = [] -> failures m = [].
Proof.
  revert m seen. induction l as [|o l IH]; intros m seen; cbn [loop]; [done|]. destruct (negb _); [intros [= <- _] H; simpl in H; by destruct (failures m)|].
  rewrite bind_Ok. intros ([m1 v] & H1 & E) Hf. eapply turn_failures; [exact H1|]. destruct v; [by injection E as <- _|by injection E as <- _|by eapply IH].
Qed.

(** *** All polls *)

Section Polls.
Context (s : settings).
Hypothesis streams_positive : 0 < streams s.
Hypothesis outage_limit : 0 <= microseconds (outage s).

(** The measurement began with poll [o0], after the polls [before]. *)
Definition began (before : list observation) (o0 : observation) (after : list observation) (m : monitor) : Prop :=
  measured_started m = Some (o_end o0) /\ baseline m = metrics_by_id (latest (before ++ [o0])) /\ s_phase (o_status o0) = Some "running" /\
  Forall (fun o => s_phase (o_status o) <> Some "degraded") (o0 :: after) /\
  (exists i since good, forwarded (before ++ [o0]) i since /\ good `sublist_of` flows (latest (before ++ [o0])) /\ len good = streams s /\ Forall (fun f => evident f since) good) /\
  gaps_ok (microseconds (outage s)) (microseconds (o_end o0)) (fun k => samples k (latest before) (o0 :: after)) m.

Record observed (h : list observation) (m : monitor) : Prop := {
  ob_frames : frames_ok h (observed_frames m);
  ob_proofs : proofs_ok h (dynamic_proofs m);
  ob_current : current m = latest h;
  ob_session : Forall (fun o => r_run_id (o_status o) = Some (run_id s) /\ ended (o_status o) = false) h;
  ob_measured : measured_started m = None \/ exists before o0 after, h = before ++ o0 :: after /\ began before o0 after m }.

Lemma observed_start : observed [] start.
Proof. split; try done; [split; [apply NoDup_nil_2|done]|split; [apply NoDup_nil_2|done]|by left]. Qed.

Lemma measured_clean m o m' seen at_ : measured_started m <> None -> gaps_ok (microseconds (outage s)) at_ seen m -> measure s m o = Ok m' -> failures m' = [] ->
  gaps_ok (microseconds (outage s)) at_ (fun k => seen k ++ map (fun f => (f_metrics f, microseconds (o_end o))) (List.filter (fun f => String.eqb (id f) k) (flows (current m)))) m' /\
  s_phase (o_status o) <> Some "degraded" /\ failures m = [] /\
  baseline m' = baseline m /\ observed_frames m' = observed_frames m /\ dynamic_proofs m' = dynamic_proofs m /\ current m' = current m /\ measured_started m' = measured_started m.
Proof.
  intros Hst Hg. unfold measure. destruct (measured_started m) as [t|] eqn:Est; [|done]. rewrite bind_Ok. intros (m1 & H1 & E) Hf. destruct (bool_decide_reflect (s_phase (o_status o) = Some "degraded")) as [_|Hd].
  { injection E as <-. simpl in Hf. by destruct (failures m1). }
  injection E as <-. destruct (track_all _ _ _ _ _ _ _ Hg H1 Hf) as (G & F & B & O & D & C & S). split_and!; try done. congruence.
Qed.

(** The measurement begins: the trackers and the gaps are those of the baseline. *)
Lemma begun_gaps w at_ : gaps_ok (microseconds (outage s)) at_ (fun _ => [])
  (Monitor [] [] [] [] [] None None None (metrics_by_id w) (dict_of (map (fun f => (id f, init (f_metrics f) at_)) (flows w))) (dict_of (map (fun f => (id f, 0)) (flows w))) w).
Proof.
  intros k x0 Hb. cbn [baseline gap_trackers max_gap] in *. exists (init x0 at_), 0.
  assert (forall B (h : metrics -> B), dget (dict_of (map (fun f => (id f, h (f_metrics f))) (flows w))) k = Some (h x0)) as H.
  { intros B h. rewrite <- (map_map (fun f => (id f, f_metrics f)) (fun x => (x.1, h x.2))), dget_dict_of_map. unfold metrics_by_id in Hb. by rewrite Hb. }
  split_and!; [apply (H _ (fun x => init x at_))|apply (H _ (fun _ => 0))|constructor|done].
Qed.

Lemma observed_turn h m o m' v : observed h m -> turn s m o = Ok (m', v) -> failures m' = [] -> observed (h ++ [o]) m' /\ failures m = [].
Proof.
  intros [Hf Hp Hc Hs Hm] Ht Hno. destruct (turn_clean _ _ _ _ _ Ht Hno) as (Hr & He & m1 & n & H1 & H2).
  destruct (prove_ok _ _ _ _ _ Hf Hp Hc H1) as (Hf' & Hp' & Hc' & Hgood & Efail & Est & Eb & Et & Eg).
  assert (Forall (fun o => r_run_id (o_status o) = Some (run_id s) /\ ended (o_status o) = false) (h ++ [o])) as Hs' by (apply Forall_app_2; [done|by constructor]).
  destruct Hm as [Hm|(before & o0 & after & -> & B1 & B2 & B3 & B4 & B5 & B6)].
  - rewrite Hm in Est. unfold begin_measurement in H2. rewrite Est in H2. destruct (_ && _) eqn:Eb'.
    + apply andb_true_iff in Eb' as [En%Z.eqb_eq Eph%bool_decide_eq_true]. set (mb := Monitor _ _ _ _ _ _ _ _ _ _ _ _) in H2.
      assert (gaps_ok (microseconds (outage s)) (microseconds (o_end o)) (fun _ => []) mb) as Hg0 by (intros k x0 Hb; exact (begun_gaps (current m1) (microseconds (o_end o)) k x0 Hb)).
      destruct (measured_clean mb o m' _ _ ltac:(done) Hg0 H2 Hno) as (G & Hd & F & B & O & D & C & S). cbn [mb failures baseline observed_frames dynamic_proofs current measured_started] in *.
      split; [|congruence]. split; rewrite ?O, ?D, ?C; try done. right. exists h, o, []. split; [done|]. unfold began. rewrite S, B, <- Hc'. split_and!; try done.
      * by constructor.
      * subst n. destruct (Hgood streams_positive) as (i & since & good & G1 & G2 & G3 & G4). by exists i, since, good.
      * intros k x0 Hb. destruct (G k x0 Hb) as (t & g & T1 & T2 & T3 & T4). exists t, g. split_and!; try done. cbn [samples]. rewrite app_nil_r. rewrite Hc', latest_snoc in T3. exact T3.
    + unfold measure in H2. rewrite Est in H2. injection H2 as <-. split; [|congruence]. split; try done. by left.
  - unfold begin_measurement in H2. rewrite B1 in Est. rewrite Est in H2.
    destruct (measured_clean m1 o m' (fun k => samples k (latest before) (o0 :: after)) (microseconds (o_end o0)) ltac:(congruence)) as (G & Hd & F & B & O & D & C & S); try done.
    { intros k x0 Hb. rewrite Eb in Hb. rewrite Et, Eg. by apply B6. }
    split; [|congruence]. split; rewrite ?O, ?D, ?C; try done. right. exists before, o0, (after ++ [o]). split; [by rewrite <- app_assoc|]. unfold began. rewrite S, B, Est, Eb. split_and!; try done.
    + change (o0 :: after ++ [o]) with ((o0 :: after) ++ [o]). apply Forall_app_2; [done|]. by constructor.
    + intros k x0 Hb. rewrite B in Hb. destruct (G k x0) as (t & g & T1 & T2 & T3 & T4); [by rewrite B|]. exists t, g. split_and!; try done.
      change (o0 :: after ++ [o]) with ((o0 :: after) ++ [o]). rewrite polled_samples_app. cbn [samples]. rewrite app_nil_r. rewrite Hc', latest_snoc in T3.
      unfold latest in T3 |- *. rewrite fold_left_app in T3. exact T3.
Qed.

Lemma observed_loop started m seen l m' seen' h : observed h m -> loop s started m seen l = Ok (Some (m', seen')) -> failures m' = [] ->
  exists used rest, l = used ++ rest /\ observed (h ++ used) m'.
Proof.
  revert m seen h. induction l as [|o l IH]; intros m seen h Ho; cbn [loop]; [done|]. destruct (negb _); [intros [= <- _] H; simpl in H; by destruct (failures m)|].
  rewrite bind_Ok. intros ([m1 v] & H1 & E) Hf.
  destruct v; [injection E as <- _; exists [o], l; split; [done|]; by eapply observed_turn..|].
  assert (failures m1 = []) as Hf1 by (by eapply loop_failures).
  destruct (observed_turn _ _ _ _ _ Ho H1 Hf1) as [Ho1 _]. destruct (IH _ _ _ Ho1 E Hf) as (used & rest & -> & H). exists (o :: used), rest. split; [done|]. by rewrite <- app_assoc in H.
Qed.

End Polls.

Lemma unless_nil ok msg l : unless ok msg l = [] <-> ok = true /\ l = [].
Proof. unfold unless. destruct ok; [naive_solver|]. split; [by destruct l|by intros [? _]]. Qed.

Lemma add_results_ok m seconds fs st st' : foldM (add_result m seconds) st fs = Ok st' -> st'.2 = [] ->
  st.2 = [] /\ Forall (fun f => exists r, flow_outcome m seconds f = Ok r /\ below_threshold r = false) fs.
Proof.
  revert st. induction fs as [|f fs IH]; intros st; cbn [foldM]; [by intros [= <-]|]. rewrite bind_Ok. intros (st1 & H1 & H2) Hn. destruct (IH _ H2 Hn) as [Hn1 Hall].
  revert H1. unfold add_result. rewrite bind_Ok. intros (r & Hr & [= <-]). cbn [snd] in Hn1. destruct (below_threshold r) eqn:E; [by destruct st.2|]. split; [done|]. constructor; [|done]. by exists r.
Qed.

Lemma filterM_sublist {A} (p : A -> res bool) l l' : Fabric.Fabric.filterM p l = Ok l' -> l' `sublist_of` l /\ Forall (fun x => p x = Ok true) l'.
Proof.
  revert l'. induction l as [|x l IH]; intros l'; cbn [Fabric.Fabric.filterM]; [by intros [= <-]|]. rewrite bind_Ok. intros (b & Hb & H). apply bind_Ok in H as (r & Hr & [= <-]). destruct (IH _ Hr) as [H1 H2].
  destruct b; split; [by constructor|by constructor|by constructor|done].
Qed.

(** What a passed trial had of one flow: [x0] are its metrics when the measurement began. *)
Definition delivered (seconds : Q) (f : flow) (x0 : metrics) : Prop :=
  (95 # 100 <= inject_Z (gained m_acked_packets (f_metrics f) x0) / inject_Z (Z.max 1 (gained m_tx_packets (f_metrics f) x0)))%Q /\
  (8 # 10 <= inject_Z (gained m_acked_bytes (f_metrics f) x0 * 8) / Qmax1 seconds / (rate_bps f * (1 # 4)))%Q.

Lemma outcome_delivered m seconds f r x0 : flow_outcome m seconds f = Ok r -> below_threshold r = false -> dget (baseline m) (id f) = Some x0 -> delivered seconds f x0.
Proof.
  unfold flow_outcome. rewrite bind_Ok. intros (b & Hb%or_raise_Ok & E). revert E. split_guard. rewrite bind_Ok. intros (gap & _ & [= <-]) Ht Hx. rewrite Hb in Hx. injection Hx as ->.
  revert Ht. unfold below_threshold, Qltb. rewrite orb_false_iff, !negb_false_iff, !Qle_bool_iff. done.
Qed.

(** ** Theorems *)

(** C26.  A trial reported as passed is one.  Whatever the polls read, a functional pass means that there was a poll [o0] of a running session, in which as many flows as there are streams
    had packets captured in both directions after a frame was forwarded, and that: every poll up to the end saw the same run, active, and none from [o0] on saw it degraded;
    the window has passed since [o0]; at least three frames whose model time is not before [o0] were read; as many flows as there are streams have such packet evidence from some poll; every flow of the last poll has
    delivered 95 % of the packets it sent since [o0], at 80 % of a quarter of its configured rate; and its acknowledgement gap, tracked over
    all the polls since [o0], is within the limit.  The sources are not known to have changed, and the overall verdict also needs the real-time one. *)
Theorem passed_trial s started l finished same sched r :
  0 < streams s -> (0 < window s)%Q -> (0 <= outage s)%Q -> run_trial s started l finished same sched = Ok (Some r) -> functional_passed (r_acceptance r) = true ->
  exists before o0 after rest, l = (before ++ o0 :: after) ++ rest /\
    Forall (fun o => r_run_id (o_status o) = Some (run_id s) /\ ended (o_status o) = false) (before ++ o0 :: after) /\
    s_phase (o_status o0) = Some "running" /\ Forall (fun o => s_phase (o_status o) <> Some "degraded") (o0 :: after) /\
    (exists i since good, forwarded (before ++ [o0]) i since /\ good `sublist_of` flows (latest (before ++ [o0])) /\ len good = streams s /\ Forall (fun f => evident f since) good) /\
    (window s <= finished - o_end o0)%Q /\
    (exists frames, NoDup (map fst frames) /\ 3 <= len frames /\ Forall (fun it => recorded (before ++ o0 :: after) model_at it.1 it.2 /\ (o_end o0 <= it.2)%Q) frames) /\
    (exists proofs, NoDup (map fst proofs) /\ len proofs = streams s /\ Forall (fun ki => proven (before ++ o0 :: after) ki.1 ki.2) proofs) /\
    (forall f, f ∈ flows (latest (before ++ o0 :: after)) -> exists x0 t g, dget (metrics_by_id (latest (before ++ [o0]))) (id f) = Some x0 /\ delivered (finished - o_end o0) f x0 /\
       tracked (init x0 (microseconds (o_end o0))) (samples (id f) (latest before) (o0 :: after)) t g /\ g <= microseconds (outage s)) /\
    same <> Some false /\ overall_passed (r_acceptance r) = Schedule.realtime_passed (realtime_assessment_ r).
Proof.
  intros Hst Hw Ho. unfold run_trial. rewrite bind_Ok. intros ([[m seen]|] & Hloop & E) Hpass; [|done]. apply bind_Ok in E as (r' & Hr & [= <-]).
  unfold conclude in Hr. rewrite bind_Ok in Hr. destruct Hr as ([results fs] & Hres & E). apply bind_Ok in E as (frames & Hfr & E). apply bind_Ok in E as (quick & _ & [= <-]).
  cbn [r_acceptance acceptance functional_passed overall_passed realtime_assessment_] in *. rewrite Hpass.
  assert (forall l : list string, is_nil l = true -> l = []) as Hn by (by intros []). apply Hn in Hpass.
  apply unless_nil in Hpass as [Hsame Hnil]. apply unless_nil in Hnil as [Hp Hnil]. apply unless_nil in Hnil as [H3 Hnil]. apply unless_nil in Hnil as [Hwin Hfs]. bool_to_prop. apply Qle_bool_iff in Hwin.
  unfold elapsed in *. destruct (measured_started m) as [t0|] eqn:Em; [|exfalso; by apply (Qlt_not_le _ _ Hw)]. destruct (add_results_ok _ _ _ _ _ Hres Hfs) as [Hfail Hall]. cbn [snd] in Hfail.
  assert (0 <= microseconds (outage s)) as Hlim by (unfold microseconds; apply (Qfloor_resp_le 0); apply Qmult_le_0_compat; [done|discriminate]).
  destruct (observed_loop s Hst Hlim _ _ _ _ _ _ [] (observed_start s) Hloop Hfail) as (used & rest & -> & Hob). cbn [app] in Hob.
  destruct Hob as [Of Op Oc Os [Om|(before & o0 & after & -> & B1 & B2 & B3 & B4 & B5 & B6)]]; [congruence|].
  rewrite Em in B1. injection B1 as ->. exists before, o0, after, rest. split_and!; try done.
  - unfold measured_frames in Hfr. rewrite Em in Hfr. apply filterM_sublist in Hfr as [Hsub Hok]. destruct Of as [Hd Hsrc].
    exists (map (fun r => (index r, default 0%Q (model_at r))) frames). rewrite map_map, len_map. cbn [fst]. split; [|split; [done|]].
    + apply (sublist_NoDup _ (map index (dvalues (observed_frames m)))); [|by apply (fmap_sublist index)]. unfold d_ok, dkeys, dvalues in *. rewrite map_map.
      replace (map (fun x => index x.2) (observed_frames m)) with (map fst (observed_frames m)); [done|]. apply map_ext_in. intros x Hx%list_elem_of_In. rewrite Forall_forall in Hsrc. by destruct (Hsrc _ Hx) as [-> _].
    + apply Forall_forall. intros x Hx. apply list_elem_of_fmap in Hx as (fr & -> & Hin). rewrite Forall_forall in Hok. specialize (Hok _ Hin). apply bind_Ok in Hok as (at_ & Hat%or_raise_Ok & [= Hle%Qle_bool_iff]).
      cbn [fst snd]. rewrite Hat. cbn [default]. split; [|done]. apply (elem_of_sublist _ _ _ Hin) in Hsub. apply list_elem_of_fmap in Hsub as ([i fr'] & -> & Hin'). rewrite Forall_forall in Hsrc.
      destruct (Hsrc _ Hin') as [Ei Hg]. cbn [fst snd] in *. rewrite Ei. apply Forall_inv in Hg. by apply Hg.
  - destruct Op as [Hd Hpr]. by exists (dynamic_proofs m).
  - intros f Hf. rewrite <- Oc in Hf. rewrite Forall_forall in Hall. destruct (Hall f Hf) as (fr & Hout & Hb).
    assert (exists x0, dget (baseline m) (id f) = Some x0) as [x0 Hx0] by (revert Hout; unfold flow_outcome; rewrite bind_Ok; intros (b & Hb'%or_raise_Ok & _); by exists b).
    destruct (B6 _ _ Hx0) as (t & g & T1 & T2 & T3 & T4). exists x0, t, g. rewrite <- B2. split_and!; try done. by eapply outcome_delivered.
Qed.

(** A flow is verified only on evidence of its own run that is recent and matches how it is forwarded now: the
    counters of both ends and the capture carry the run's identity and token, the capture counts packets both ways, it is no older than
    two capture intervals and ten seconds nor than [since], and for a flow that is not distributed its signature is that
    of the present states. *)
Theorem verified_evidence sha s f now b since : verified (observe_flow sha s f now b) since = true ->
  exists c src dst cap, catalog f = Some c /\ truthy_str (i_token c) = true /\
    (forall i, i ∈ [src.1; dst.1; cap.1] -> i_run_id i = Some (s_run_id s) /\ i_token i = i_token c) /\
    metrics_of f (b_source b) = Some src /\ metrics_of f (b_destination b) = Some dst /\ capture_latest f = Some cap /\
    (exists fwd rev, dget (cf_flows cap.2) (b_id b) = Some (fwd, rev) /\ 0 < fwd /\ 0 < rev) /\
    (0 <= now - default 0 (finished_at cap.2))%Q /\ (now - default 0 (finished_at cap.2) < 2 * default 30%Q (capture_interval_seconds (s_sampling s)) + 10)%Q /\
    (since <= default 0 (finished_at cap.2))%Q /\
    (b_control b <> "distributed" -> dget (signatures cap.2) (b_id b) =
      Some (sha (map (fun d => default no_state (dget (b_directions b) (b_id b +:+ ("-" +:+ d)))) ["forward"; "reverse"]))).
Proof.
  unfold verified, observe_flow. cbn [fresh evidence_fresh f_metrics evidence_at forward reverse directions]. intros H. bool_to_prop.
  match goal with H : (if String.eqb _ _ then _ else _) = true |- _ => rename H into Hev end.
  match goal with H : Qle_bool since _ = true |- _ => rename H into Hsince end.
  destruct (read s f (metrics_of f (b_source b))) as [ms|] eqn:E1; [|done].
  destruct (read s f (metrics_of f (b_destination b))) as [md|] eqn:E2; [|done].
  destruct (read s f (capture_latest f)) as [p|] eqn:E3; [|by destruct (String.eqb _ _)].
  apply read_identity in E1 as (c & i1 & Hc & H1' & Hr1 & Ht1 & Htok). apply read_identity in E2 as (c2 & i2 & Hc2 & H2' & Hr2 & Ht2 & _).
  apply read_identity in E3 as (c3 & i3 & Hc3 & H3' & Hr3 & Ht3 & _). rewrite Hc in Hc2, Hc3. injection Hc2 as <-. injection Hc3 as <-.
  exists c, (i1, ms), (i2, md), (i3, p). cbn [fst snd].
  assert (recent now (2 * default 30%Q (capture_interval_seconds (s_sampling s)) + 10) (default 0%Q (finished_at p)) = true) as Hrec.
  { destruct (String.eqb _ _); [done|]. by apply andb_prop in Hev as [? _]. }
  unfold recent, Qltb in Hrec. apply andb_prop in Hrec as [Hr0 Hr4]. apply Qle_bool_iff in Hr0, Hsince.
  apply negb_true_iff, not_true_iff_false in Hr4. rewrite Qle_bool_iff in Hr4. apply Qnot_le_lt in Hr4.
  split_and!; try done.
  - intros i. rewrite !elem_of_cons, elem_of_nil. naive_solver.
  - destruct (dget (cf_flows p) (b_id b)) as [[fwd rev]|]; [|simpl in *; lia]. by exists fwd, rev.
  - intros Hd. apply String.eqb_neq in Hd. rewrite Hd in Hev. apply andb_prop in Hev as [_ Hev]. by bool_to_prop.
Qed.

Definition example_identity : identity := Identity (Some "sf-unified-1") (Some "token").

Definition example_base : base_flow :=
  BaseFlow "web-1" "gw-a" "gw-b" "controller" [("web-1-forward", DirectionState ["gw-a"; "gw-b"] (Some "ready") None None);
                                               ("web-1-reverse", DirectionState ["gw-b"; "gw-a"] (Some "ready") None None)] 800000.

Definition example_snapshot : snapshot := Snapshot_ "sf-unified-1" (Sampling (Some 5%Q) None) [example_base] (Some 24).

Definition example_folder : folder :=
  let file := MetricsFile (Some 98%Q) (Some (1 # 4)%Q)
    [("web-1", Metrics (Some "w") (Some 98000000) (Some 98000000) (Some []) (Some 0) None None None None None (Some 190000%Q))] in
  Folder (Some example_identity) (fun _ => Some (example_identity, file))
    (Some (example_identity, CaptureFile (Some 95%Q) [("web-1", (4, 3))] [("web-1", "2")])) None.

(** A stand-in for the digest: the number of states. *)
Definition example_sha (l : list direction_state) : string := pretty (len l).

Lemma verified_evidence_witness :
  verified (observe_flow example_sha example_snapshot example_folder 100 example_base) 90 = true /\
  exists cap, capture_latest example_folder = Some cap /\ (90 <= default 0 (finished_at cap.2))%Q.
Proof.
  assert (verified (observe_flow example_sha example_snapshot example_folder 100 example_base) 90 = true) as H by (vm_compute; reflexivity).
  split; [exact H|]. destruct (verified_evidence _ _ _ _ _ _ H) as (c & src & dst & cap & _ & _ & _ & _ & _ & Hcap & _ & _ & _ & Hs & _).
  exists cap. split; [exact Hcap|exact Hs].
Defined.

(** ** Example: one flow, three frames in a window of one minute *)

Definition example_settings : settings := Settings "sf-unified-1" 1 60 60 10.

Definition example_metrics (t tx acked bytes : Z) : metrics :=
  Metrics (Some "w") (Some t) (Some t) (Some []) (Some 0) (Some (t - 50000)) (Some 0) (Some tx) (Some acked) (Some bytes) (Some 190000%Q).

Definition example_flow (t tx acked bytes : Z) (evidence : Q) : flow :=
  Flow "web-1" true true (example_metrics t tx acked bytes) (Some evidence) 5 5 [("web-1-forward", Some "ready"); ("web-1-reverse", Some "ready")]
    (Some (1 # 4)%Q) 800000.

Definition example_frame (k : Z) (at_ : Q) : frame :=
  Frame (100000 + k) (Some at_) (Some at_) (Some (at_ + 4)%Q) (Some 5%Q) (Some k) (Some 4%Q) (Some 6%Q) (Some true).

Definition example_status : service_status := Status (Some "sf-unified-1") (Some "running") true "".

Definition example_observations : list observation :=
  [Observation 100 100 example_status (Some 90%Q) [] [example_frame 9 90] (Some (Workloads_ [example_flow 101000000 100 99 10000 98] (Some 24))) 101;
   Observation 165 165 example_status (Some 90%Q) [] [example_frame 12 120; example_frame 13 130; example_frame 14 140]
     (Some (Workloads_ [example_flow 166000000 1100 1090 1510000 150] (Some 24))) 166].

Definition functional (r : res (option report)) : bool := match r with Ok (Some r) => functional_passed (r_acceptance r) | _ => false end.

Lemma passed_trial_witness :
  functional (run_trial example_settings 99 example_observations 167 (Some true) (Some (Schedule_ 0 10))) = true /\
  exists r, (run_trial example_settings 99 example_observations 167 (Some true) (Some (Schedule_ 0 10))) = Ok (Some r) /\
  exists before o0 after rest, example_observations = (before ++ o0 :: after) ++ rest /\ s_phase (o_status o0) = Some "running" /\
  exists frames, NoDup (map fst frames) /\ 3 <= len frames /\ Forall (fun it => recorded (before ++ o0 :: after) model_at it.1 it.2 /\ (o_end o0 <= it.2)%Q) frames.
Proof.
  assert (functional (run_trial example_settings 99 example_observations 167 (Some true) (Some (Schedule_ 0 10))) = true) as Hf by (vm_compute; reflexivity). split; [exact Hf|]. revert Hf.
  destruct (run_trial example_settings 99 example_observations 167 (Some true) (Some (Schedule_ 0 10))) as [[r|]|e] eqn:E; intros Hf; [|discriminate Hf|discriminate Hf].
  exists r. split; [reflexivity|].
  destruct (passed_trial example_settings 99 example_observations 167 (Some true) (Some (Schedule_ 0 10)) r eq_refl eq_refl ltac:(discriminate) E Hf) as (before & o0 & after & rest & H1 & _ & H2 & _ & _ & _ & H & _).
  exists before, o0, after, rest. split; [exact H1|]. split; [exact H2|exact H].
Defined.

End Trial.
