(* ===== verification/Workloads.v ===== *)
(** * Workloads: per-service steering on the live fabric (lab/live/workloads.py)

    The manager decides, at every tick, the route of each direction of each workload flow from
    the committed plan, the fabric and what the routers report, and writes it into the policy table
    of the flow in the namespace of its gateway.  What a tick reads (router output, RIB files, the
    PCE's replies, clocks, whether a configuration command succeeds) is its [inputs]; [kernel] records the
    last command [wire.execute] ran for each slot (process, table, destination); it is not a model of the kernel's routing. *)

From S2P Require Import Prelude Bytes Text Channel Fabric LiveModel WorkloadModel.
From Stdlib Require Import QArith.
#[local] Open Scope Z_scope.
#[local] Open Scope list_scope.

Module Workloads.
Import Fabric.Fabric(fabric, andM, active, locator, loopback, svi, hop, interface, sid, service, pid_of).
Import Workload(flow, direction, directions, carrier, control, table, binding_sid, pcep_color, family, prefix_length, id,
  d_id, d_node, d_remote, d_source, d_target, f_number).

(** ** Data *)

Record path := Path { path_nodes : list string }.

(** A committed plan: its identifier and, for an intent, its paths. *)
Record plan := Plan { plan_id : string; paths : list (string * list path) }.

Record rib_route := RibRoute { peer : string; rib_sid : string }.
Record rib := Rib { rib_run_id : option string; rib_observed_at : option Q; rib_stopped : bool; rib_routes : list (string * rib_route) }.

Record route_entry := RouteEntry { protocol : string; re_installed : bool; re_selected : bool }.

Record lfib_hop := LfibHop { lh_installed : bool; lh_type : string; outLabelStack : list Z; lh_nexthop : option string; lh_interface : option string }.
Record lfib_entry := LfibEntry { le_installed : bool; le_nexthops : list lfib_hop }.

(** The output of a [vtysh] query: OSPF routes, LDP bindings or the MPLS table. *)
Inductive observation := Routes (d : list (string * list route_entry)) | Bindings (text : string) | Lfib (d : list (string * lfib_entry)).

(** A reply of the PCE: the intent and the nodes of its path. *)
Record response := Response { r_intent : string; r_nodes : list string }.

(** The published state of a direction. *)
Record state := State { status : string; error : option string; s_plan_id : option string; s_nodes : option (list string);
  backup_nodes : list string; steering : option (list string); route_source : option string }.

Definition pending_state : state := State "pending" None None None [] None None.

Record job := Job { job_pid : Z; job_args : list string }.

Record env := Env { fab : fabric; flows : list flow; pids : list (string * Z); run_id : string; step : Q; n3_evpn : bool; evpn_nodes : list string }.

Record manager := Manager { bgp_edges : list (string * string); bgp_observed_at : Q; installed : list (string * list string);
  states : list (string * state); pcep_policy : list (string * list string); pcep_requested_at : list (string * Q);
  evpn_ribs : list (string * rib); n3_states : list (string * state) }.

(** What one tick reads. *)
Record inputs := Inputs { now : Q; mono : Q; vty : string -> string -> res observation; edges_read : res (list (string * string));
  ribs_read : string -> option rib; responses : list response; configure : string -> option exn }.

(** ** Routes of the carriers *)

Definition item {A} (l : list A) (i : nat) : res A := or_raise IndexError (l !! i).

(** [zip(nodes, nodes[1:])] *)
Definition hops {A} (nodes : list A) : list (A * A) := zip nodes (drop 1 nodes).

(** [all(p(a, b) for a, b in ..)] *)
Fixpoint allM {A} (p : A -> res bool) (l : list A) : res bool :=
  match l with [] => Ok true | x :: l' => andM (p x) (allM p l') end.

(** [any(..)] *)
Fixpoint anyM {A} (p : A -> res bool) (l : list A) : res bool :=
  match l with [] => Ok false | x :: l' => let* b := p x in if (b : bool) then Ok true else anyM p l' end.

(** [line.split()] *)
Definition split_ws (s : string) : list string :=
  List.filter (fun w => negb (String.eqb w "")) (split_on (ch 32) (Live.replace (String (ch 9) "") " " (Live.replace (String (ch 13) "") " " s))).

Definition mpls_table : string := "show mpls table json".
Definition ldp_bindings : string := "show mpls ldp ipv4 binding".

(** The queries of a tick, each made once. *)
Definition ospf_query (f : flow) : string := if family f =? 6 then "show ipv6 route ospf6 json" else "show ip route ospf json".

Definition intent_of (d : direction) : string := "work-" +:+ d_id d.

Definition in_plan (p : option plan) (d : direction) : bool := match p with Some p => dhas (paths p) (intent_of d) | None => false end.

Definition queries (flows : list flow) (p : option plan) : list (string * string) :=
  set_of (concat (map (fun f => concat (map (fun d =>
    if String.eqb (control f) "distributed" then [(d_node d, ospf_query f)]
    else if in_plan p d then
      if String.eqb (carrier f) "ldp" then [(d_node d, ldp_bindings)]
      else if String.eqb (carrier f) "pcep" then [(d_node d, mpls_table)] else []
    else []) (directions f))) flows)).

(** [observation(node, query)]: a failed query raises [RuntimeError] where it is used. *)
Definition observation_of (e : env) (p : option plan) (i : inputs) (n q : string) : res observation :=
  if mem (n, q) (queries (flows e) p) then match vty i n q with Ok o => Ok o | Err x => Err (RuntimeError (exn_str x)) end else Err KeyError.

(** The label of [line.split()] for a remote and its next hop. *)
Definition ldp_label (remote first : string) (line : string) : option string :=
  match split_ws line with
  | a :: b :: c :: _ :: l :: _ => if String.eqb a "ipv4" && String.eqb b (remote +:+ "/32") && String.eqb c first && isdigit l then Some l else None
  | _ => None
  end.

Fixpoint first_some {A B} (f : A -> option B) (l : list A) : option B :=
  match l with [] => None | x :: l' => match f x with Some y => Some y | None => first_some f l' end end.

Definition rib_route_of (m : manager) (n dst : string) : option rib_route := match dget (evpn_ribs m) n with Some r => dget (rib_routes r) dst | None => None end.

(** The service SID of a remote gateway, for the static and the EVPN carriers. *)
Definition service_sid (e : env) (m : manager) (f : flow) (d : direction) : res string :=
  let* l := locator (fab e) (d_remote d) in
  if String.eqb (carrier f) "evpn-srv6" then
    match rib_route_of m (d_node d) (d_target d +:+ "/32") with
    | Some r => if String.eqb (peer r) (l +:+ "ffff") then Ok (rib_sid r)
                else Err (ValueError "EVPN Type-5 route with live SRv6 Service SID not received")
    | None => Err (ValueError "EVPN Type-5 route with live SRv6 Service SID not received")
    end
  else Ok (l +:+ "d").

(** [nodes[1:-1]] *)
Definition inner {A} (l : list A) : list A := removelast (drop 1 l).

Definition segments (e : env) (nodes : list string) (last : string) : res (list string) :=
  let* l := mapM_res (fun n => let* x := locator (fab e) n in Ok (x +:+ "1")) (inner nodes) in
  Ok (l ++ [last]).

Definition route (e : env) (p : option plan) (i : inputs) (m : manager) (f : flow) (d : direction) (nodes : list string) : res (list string) :=
  let args := ["ip"; "route"; "replace"; "table"; pretty (table f); d_target d +:+ "/32"] in
  let* first := item nodes 1 in
  let* iface := interface (fab e) (d_node d) first in
  let* h := hop (fab e) (d_node d) first in
  if String.eqb (carrier f) "evpn" then let* s := svi (fab e) (d_remote d) in Ok (args ++ ["via"; s; "dev"; "br100"]) else
  if mem (carrier f) ["srv6"; "evpn-srv6"] then
    let* s := service_sid e m f d in
    let* segs := segments e nodes s in
    raise (ValueError "SRv6 workload path exceeds configured 16-segment bound") when (16 <? len segs) ;;
    Ok (args ++ ["encap"; "seg6"; "mode"; "encap"; "segs"; join "," segs; "dev"; "sr0"])
  else if String.eqb (carrier f) "pcep" then Ok (args ++ ["encap"; "mpls"; pretty (binding_sid f); "dev"; "lo"]) else
  let* labels :=
    if String.eqb (carrier f) "ldp" then
      let* o := observation_of e p i (d_node d) ldp_bindings in
      let* remote := loopback (fab e) (d_remote d) in
      let* via := loopback (fab e) first in
      match o with
      | Bindings text => or_raise (ValueError "LDP label for the next hop is not ready") (first_some (ldp_label remote via) (split_on (ch 10) text))
      | _ => Err AttributeError
      end
    else
      let* sids := mapM_res (sid (fab e)) (drop 2 nodes) in
      let labels := join "/" (map pretty sids) in
      raise (ValueError "SR-MPLS workload path has unsupported label depth") when String.eqb labels "" || (32 <? len nodes) ;;
      Ok labels in
  Ok (args ++ ["encap"; "mpls"; labels; "via"; "inet"; h; "dev"; iface]).

(** ** PCEP policies *)

Definition hop_installed (e : env) (d : direction) (nodes : list string) (expected : list Z) (n : lfib_hop) : res bool :=
  if lh_installed n && String.eqb (lh_type n) "SR-TE" && bool_decide (outLabelStack n = expected) then
    let* first := item nodes 1 in
    let* h := hop (fab e) (d_node d) first in
    if bool_decide (lh_nexthop n = Some h) then let* iface := interface (fab e) (d_node d) first in Ok (bool_decide (lh_interface n = Some iface)) else Ok false
  else Ok false.

Definition pcep_installed (e : env) (rs : list response) (f : flow) (d : direction) (nodes : list string) (lfib : list (string * lfib_entry)) : res bool :=
  let* expected := mapM_res (sid (fab e)) (drop 2 nodes) in
  let answered := existsb (fun r => String.eqb (r_intent r) (intent_of d) && bool_decide (r_nodes r = nodes)) (rev rs) in
  match dget lfib (pretty (binding_sid f)) with
  | Some entry => if answered && le_installed entry then anyM (hop_installed e d nodes expected) (le_nexthops entry) else Ok false
  | None => Ok false
  end.

Definition with_pcep (m : manager) (policy : list (string * list string)) (at_ : list (string * Q)) : manager :=
  Manager (bgp_edges m) (bgp_observed_at m) (installed m) (states m) policy at_ (evpn_ribs m) (n3_states m).

(** [ensure_pcep]: a new or a stale request is configured again, and is not yet installed. *)
Definition ensure_pcep (e : env) (i : inputs) (m : manager) (f : flow) (d : direction) (nodes : list string) (lfib : list (string * lfib_entry)) : manager * res bool :=
  let key := d_id d in
  match pcep_installed e (responses i) f d nodes lfib with
  | Err x => (m, Err x)
  | Ok present =>
      let stale := Qltb 20 (mono i - default 0%Q (dget (pcep_requested_at m) key)) in
      if negb (bool_decide (dget (pcep_policy m) key = Some nodes)) || (negb present && stale) then
        match configure i (d_node d) with
        | Some x => (m, Err x)
        | None => (with_pcep m (dset (pcep_policy m) key nodes) (dset (pcep_requested_at m) key (mono i)), Ok false)
        end
      else (m, Ok present)
  end.

(** ** One direction of a tick *)

(** [edges()]: the BGP-LS edges, while they are recent. *)
Definition edges (e : env) (i : inputs) (m : manager) : list (string * string) :=
  let limit := (if Qle_bool (3 * step e) 30 then 30 else 3 * step e)%Q in
  if Qltb (now i - bgp_observed_at m) limit then bgp_edges m else [].

Definition with_error (s : state) (msg : string) : state :=
  State "pending" (Some msg) (s_plan_id s) (s_nodes s) (backup_nodes s) (steering s) (route_source s).

(** The route of a distributed flow, read from its router. *)
Definition distributed_route (e : env) (p : option plan) (i : inputs) (f : flow) (d : direction) : res string :=
  let* o := observation_of e p i (d_node d) (ospf_query f) in
  match o with
  | Routes routes =>
      let entries := default [] (dget routes (d_target d +:+ ("/" +:+ pretty (prefix_length f)))) in
      let name := if family f =? 6 then "ospf6" else "ospf" in
      raise (ValueError (name +:+ " service route is not installed")) when
        negb (existsb (fun r => String.eqb (protocol r) name && (re_installed r || re_selected r)) entries) ;;
      Ok name
  | _ => Err AttributeError
  end.

(** The command that installs a route which is not installed yet. *)
Definition install (e : env) (m : manager) (f : flow) (d : direction) (args : list string) : res (list job) :=
  if negb (bool_decide (dget (installed m) (d_id d) = Some args)) || String.eqb (carrier f) "evpn-srv6"
  then let* pid := pid_of (pids e) (d_node d) in Ok [Job pid args] else Ok [].

Definition not_converged (bgp_error : option string) : string :=
  match bgp_error with Some x => if String.eqb x "" then "path has not converged in live BGP-LS" else x | None => "path has not converged in live BGP-LS" end.

Definition waiting : string := "waiting for PCRep and installed binding SID matching the path".

(** The checks of a committed path, and the PCEP request. *)
Definition check_path (e : env) (p : option plan) (i : inputs) (bgp_error : option string) (m : manager) (f : flow) (d : direction) (nodes : list string) :
    manager * res unit :=
  match allM (fun ab => active (fab e) ab.1 ab.2) (hops nodes) with
  | Err x => (m, Err x)
  | Ok false => (m, Err (ValueError "committed path contains an inactive contact"))
  | Ok true =>
      if mem (carrier f) ["sr-mpls"; "pcep"] && negb (forallb (fun ab => mem ab (edges e i m)) (hops nodes))
      then (m, Err (ValueError (not_converged bgp_error))) else
      if String.eqb (carrier f) "pcep" then
        match observation_of e p i (d_node d) mpls_table with
        | Ok (Lfib lfib) => let (m, r) := ensure_pcep e i m f d nodes lfib in (m, let* b := r in if (b : bool) then Ok tt else Err (ValueError waiting))
        | Ok _ => (m, Err AttributeError)
        | Err x => (m, Err x)
        end
      else (m, Ok tt)
  end.

(** The [try] block: the manager and the state as they are when it ends, and the commands. *)
Definition resolve (e : env) (p : option plan) (i : inputs) (bgp_error : option string) (m : manager) (f : flow) (d : direction) :
    manager * state * res (list job) :=
  if String.eqb (control f) "distributed" then
    match distributed_route e p i f d with
    | Ok name => (m, State "ready" None None None [] None (Some name), Ok [])
    | Err x => (m, pending_state, Err x)
    end
  else
    match p with
    | None => (m, pending_state, Err (ValueError "controller has no committed service path"))
    | Some pl =>
        match dget (paths pl) (intent_of d) with
        | None => (m, pending_state, Err (ValueError "controller has no committed service path"))
        | Some [] => (m, pending_state, Err IndexError)
        | Some (first :: others) =>
            let nodes := path_nodes first in
            let backup := match others with b :: _ => path_nodes b | [] => [] end in
            let described status steering := State status None (Some (plan_id pl)) (Some nodes) backup steering None in
            let (m, checked) := check_path e p i bgp_error m f d nodes in
            match checked with
            | Err x => (m, described "pending" None, Err x)
            | Ok _ =>
                if String.eqb (carrier f) "native" then (m, described "ready" None, Ok []) else
                match (let* args := route e p i m f d nodes in let* l := install e m f d args in Ok (args, l)) with
                | Err x => (m, described "pending" None, Err x)
                | Ok (args, l) => (m, described "ready" (Some args), Ok l)
                end
            end
        end
    end.

(** [except (ValueError, RuntimeError, OSError, KeyError, IndexError)] *)
Definition caught (x : exn) : bool :=
  match x with ValueError _ | RuntimeError _ | OSError _ | KeyError | IndexError | ConnectionError _ | TimeoutError | InterruptedError _ => true | _ => false end.

(** What a tick accumulates: the commands, and what each leaves installed. *)
Record batch := Batch { b_manager : manager; operations : list job; applied : list (string * option (list string)) }.

Definition with_state (m : manager) (key : string) (s : state) : manager :=
  Manager (bgp_edges m) (bgp_observed_at m) (installed m) (dset (states m) key s) (pcep_policy m) (pcep_requested_at m) (evpn_ribs m) (n3_states m).

(** The exact destination of the workload, made unreachable. *)
Definition unreachable (f : flow) (d : direction) : list string :=
  ["ip"; "route"; "replace"; "unreachable"; d_target d +:+ "/32"; "table"; pretty (table f)].

Definition update_direction (e : env) (p : option plan) (i : inputs) (bgp_error : option string) (b : batch) (fd : flow * direction) : res batch :=
  let (f, d) := fd in
  let key := d_id d in
  let '(m, s, r) := resolve e p i bgp_error (b_manager b) f d in
  match r with
  | Ok l => Ok (Batch (with_state m key s) (operations b ++ l) (applied b ++ map (fun j => (key, Some (job_args j))) l))
  | Err x =>
      if caught x then
        let s := with_error s (str_tail 300 (exn_str x)) in
        if dhas (installed m) key then
          let* pid := pid_of (pids e) (d_node d) in
          Ok (Batch (with_state m key s) (operations b ++ [Job pid (unreachable f d)]) (applied b ++ [(key, None)]))
        else Ok (Batch (with_state m key s) (operations b) (applied b))
      else Err x
  end.

(** ** Writing the routes *)

(** The last route command run for each slot: process, table and destination. *)
Definition kernel : Type := list ((Z * string * string) * list string).

(** The table and the destination a [ip route replace] command writes. *)
Definition route_key (args : list string) : option (string * string) :=
  match args with
  | _ :: _ :: _ :: x :: y :: z :: rest =>
      if String.eqb x "unreachable" then match rest with t :: _ => Some (t, y) | [] => None end
      else if String.eqb x "table" then Some (y, z)
      else Some (z, x)
  | _ => None
  end.

Definition execute_one (k : kernel) (j : job) : kernel :=
  match route_key (job_args j) with Some (t, dst) => dset k (job_pid j, t, dst) (job_args j) | None => k end.

(** [wire.execute]: [None] when every command succeeds; at [Some n] the [n]-th fails, after the ones before it took effect. *)
Definition jobs (k : kernel) (ops : list job) (failure : option nat) : kernel * res unit :=
  match ops, failure with
  | [], _ => (k, Ok tt)
  | _, None => (fold_left execute_one ops k, Ok tt)
  | _, Some n => (fold_left execute_one (take n ops) k, Err (RuntimeError "wire operation failed"))
  end.

Definition set_installed (m : manager) (l : list (string * list string)) : manager :=
  Manager (bgp_edges m) (bgp_observed_at m) l (states m) (pcep_policy m) (pcep_requested_at m) (evpn_ribs m) (n3_states m).

Definition record_applied (l : list (string * list string)) (ka : string * option (list string)) : list (string * list string) :=
  match ka.2 with Some args => dset l ka.1 args | None => dpop l ka.1 end.

Definition steering_failed (msg : string) (m : manager) (ka : string * option (list string)) : manager :=
  match dget (states m) ka.1 with
  | Some s => with_state m ka.1 (State "error" (Some ("steering write failed: " +:+ str_tail 250 msg)) (s_plan_id s) (s_nodes s) (backup_nodes s) (steering s) (route_source s))
  | None => m
  end.

Definition apply_steering (m : manager) (k : kernel) (ops : list job) (ap : list (string * option (list string))) (failure : option nat) : manager * kernel * res unit :=
  let (k, r) := jobs k ops failure in
  match r with
  | Err x => (fold_left (steering_failed (exn_str x)) ap m, k, Err x)
  | Ok _ => (set_installed m (fold_left record_applied ap (installed m)), k, Ok tt)
  end.

(** ** The N3 service *)

Definition n3_route (e : env) (p : option plan) (m : manager) (item : string * string * string * string) : res (list string * list string) :=
  let '(node, remote, target, intent) := item in
  let* pl := or_raise TypeError p in
  let* ps := or_raise KeyError (dget (paths pl) intent) in
  let* first := or_raise IndexError (head ps) in
  let nodes := path_nodes first in
  let* up := allM (fun ab => active (fab e) ab.1 ab.2) (hops nodes) in
  raise (ValueError "inactive N3 contact") when negb up ;;
  let* l := locator (fab e) remote in
  let* r := match rib_route_of m node (target +:+ "/32") with
    | Some r => if String.eqb (peer r) (l +:+ "ffff") then Ok r else Err (ValueError "N3 EVPN route absent")
    | None => Err (ValueError "N3 EVPN route absent")
    end in
  let* segs := segments e nodes (rib_sid r) in
  raise (ValueError "N3 SRH exceeds 16 segments") when (16 <? len segs) ;;
  Ok (nodes, ["ip"; "route"; "replace"; target +:+ "/32"; "table"; "300"; "encap"; "seg6"; "mode"; "encap"; "segs"; join "," segs; "dev"; "sr0"]).

(** [except (ValueError, KeyError, TypeError, IndexError)] *)
Definition n3_caught (x : exn) : bool := match x with ValueError _ | KeyError | TypeError | IndexError => true | _ => false end.

Definition with_n3 (m : manager) (l : list (string * state)) : manager :=
  Manager (bgp_edges m) (bgp_observed_at m) (installed m) (states m) (pcep_policy m) (pcep_requested_at m) (evpn_ribs m) l.

Definition n3_step (e : env) (p : option plan) (st : manager * list job) (item : string * string * string * string) : res (manager * list job) :=
  let (m, ops) := st in
  let '(node, _, target, intent) := item in
  let* (s, args) := match n3_route e p m item with
    | Ok (nodes, args) => Ok (State "ready" None None (Some nodes) [] (Some args) None, args)
    | Err x => if n3_caught x then Ok (with_error pending_state (exn_str x), ["ip"; "route"; "replace"; "unreachable"; target +:+ "/32"; "table"; "300"]) else Err x
    end in
  let* pid := pid_of (pids e) node in
  Ok (with_n3 m (dset (n3_states m) intent s), ops ++ [Job pid args]).

Definition update_n3 (e : env) (p : option plan) (m : manager) (k : kernel) (failure : option nat) : manager * kernel * res unit :=
  if negb (n3_evpn e) then (m, k, Ok tt) else
  match foldM (n3_step e p) (m, []) (service (fab e)) with
  | Err x => (m, k, Err x)
  | Ok (m, ops) => let (k, r) := jobs k ops failure in (m, k, r)
  end.

(** ** Waiting for the binding SIDs *)

(** One turn of [settle_pcep]: the MPLS tables, the replies so far, and the write. *)
Record poll := Poll { tables : string -> list (string * lfib_entry); p_responses : list response; p_failure : option nat }.

Definition settled (e : env) (p : option plan) (i : inputs) (q : poll) (m : manager) (fd : flow * direction) : res (list (flow * direction * job)) :=
  let (f, d) := fd in
  let* s := or_raise KeyError (dget (states m) (d_id d)) in
  let* nodes := or_raise KeyError (s_nodes s) in
  let* present := pcep_installed e (p_responses q) f d nodes (tables q (d_node d)) in
  if (present : bool) then
    let* args := route e p i m f d nodes in
    let* pid := pid_of (pids e) (d_node d) in
    Ok [(f, d, Job pid args)]
  else Ok [].

Definition mark_ready (m : manager) (r : flow * direction * job) : manager :=
  let key := d_id r.1.2 in
  match dget (states m) key with
  | Some s => with_state m key (State "ready" None (s_plan_id s) (s_nodes s) (backup_nodes s) (Some (job_args r.2)) (route_source s))
  | None => m
  end.

Definition settle_once (e : env) (p : option plan) (i : inputs) (q : poll) (m : manager) (k : kernel) (pend : list (flow * direction)) :
    manager * kernel * res (list (flow * direction)) :=
  match mapM_res (settled e p i q m) pend with
  | Err x => (m, k, Err x)
  | Ok found =>
      let ready := concat found in
      match ready with
      | [] => (m, k, Ok pend)
      | _ =>
          let '(m, k, r) := apply_steering m k (map snd ready) (map (fun r => (d_id r.1.2, Some (job_args r.2))) ready) (p_failure q) in
          match r with
          | Err x => (m, k, Err x)
          | Ok _ => (fold_left mark_ready ready m, k, Ok (List.filter (fun fd => negb (mem (d_id fd.2) (map (fun r => d_id r.1.2) ready))) pend))
          end
      end
  end.

Fixpoint settle_pcep (e : env) (p : option plan) (i : inputs) (polls : list poll) (m : manager) (k : kernel) (pend : list (flow * direction)) : manager * kernel * res unit :=
  match pend, polls with
  | [], _ | _, [] => (m, k, Ok tt)
  | _, q :: polls' =>
      let '(m, k, r) := settle_once e p i q m k pend in
      match r with Err x => (m, k, Err x) | Ok pend => settle_pcep e p i polls' m k pend end
  end.

Definition all_directions (fs : list flow) : list (flow * direction) := concat (map (fun f => map (pair f) (directions f)) fs).

(** The directions that wait for their binding SID. *)
Definition waiting_directions (e : env) (m : manager) : list (flow * direction) :=
  List.filter (fun fd => String.eqb (carrier fd.1) "pcep" &&
    match dget (states m) (d_id fd.2) with Some s => bool_decide (error s = Some waiting) | None => false end) (all_directions (flows e)).

(** ** A tick *)

Definition read_evpn_ribs (e : env) (i : inputs) : list (string * rib) :=
  concat (map (fun n => match ribs_read i n with
    | Some r => if bool_decide (rib_run_id r = Some (run_id e)) &&
                   match rib_observed_at r with Some t => Qle_bool 0 (now i - t) && Qltb (now i - t) 15 | None => false end && negb (rib_stopped r)
                then [(n, r)] else []
    | None => [] end) (evpn_nodes e)).

(** The failures of the writes of a tick, and the polls of its last phase. *)
Record writes := Writes { steering_write : option nat; n3_write : option nat; polls : list poll }.

(** [except (ValueError, RuntimeError, OSError)] *)
Definition edges_caught (x : exn) : bool :=
  match x with ValueError _ | RuntimeError _ | OSError _ | ConnectionError _ | TimeoutError | InterruptedError _ => true | _ => false end.

Definition refresh (e : env) (i : inputs) (m : manager) : res (manager * option string) :=
  let ribs := read_evpn_ribs e i in
  let with_edges es at_ := Manager es at_ (installed m) (states m) (pcep_policy m) (pcep_requested_at m) ribs (n3_states m) in
  match edges_read i with
  | Ok es => Ok (with_edges es (now i), None)
  | Err x => if edges_caught x then Ok (with_edges [] (bgp_observed_at m), Some (exn_str x)) else Err x
  end.

(** One tick.  An exception the loop over the directions does not catch ends the tick, and the model keeps the manager as the loop found it. *)
Definition update (e : env) (p : option plan) (i : inputs) (w : writes) (m : manager) (k : kernel) : manager * kernel * res unit :=
  match refresh e i m with
  | Err x => (m, k, Err x)
  | Ok (m, bgp_error) =>
      match foldM (update_direction e p i bgp_error) (Batch m [] []) (all_directions (flows e)) with
      | Err x => (m, k, Err x)
      | Ok b =>
          let '(m, k, r) := apply_steering (b_manager b) k (operations b) (applied b) (steering_write w) in
          match r with
          | Err x => (m, k, Err x)
          | Ok _ =>
              let '(m, k, r) := update_n3 e p m k (n3_write w) in
              match r with
              | Err x => (m, k, Err x)
              | Ok _ => settle_pcep e p i (polls w) m k (waiting_directions e m)
              end
          end
      end
  end.

(** ** The kernel mirrors what the manager believes *)

(** A route that carries no traffic: the table's blackhole default applies, or the destination is unreachable. *)
Definition closed (x : option (list string)) : Prop := match x with None => True | Some args => args !! 3%nat = Some "unreachable" end.

Definition slot (pid : Z) (f : flow) (d : direction) : Z * string * string := (pid, pretty (table f), d_target d +:+ "/32").

(** The flows have their own tables, the directions their own names and targets; no table is that of the N3 service. *)
Record distinct (fs : list flow) : Prop := {
  di_ids : NoDup (map (fun fd => d_id fd.2) (all_directions fs));
  di_slots : forall fd fd', fd ∈ all_directions fs -> fd' ∈ all_directions fs -> pretty (table fd.1) = pretty (table fd'.1) -> d_target fd.2 = d_target fd'.2 -> fd = fd';
  di_n3 : forall fd, fd ∈ all_directions fs -> pretty (table fd.1) <> "300" }.

(** Every installed route is in the kernel, and a direction without one is closed. *)
Definition mirror (e : env) (inst : list (string * list string)) (k : kernel) : Prop :=
  forall fd pid, fd ∈ all_directions (flows e) -> pid_of (pids e) (d_node fd.2) = Ok pid ->
    match dget inst (d_id fd.2) with
    | Some args => dget k (slot pid fd.1 fd.2) = Some args
    | None => closed (dget k (slot pid fd.1 fd.2))
    end.

(** A command and its bookkeeping, for one direction. *)
Definition about (e : env) (x : job * (string * option (list string))) : Prop :=
  exists fd, fd ∈ all_directions (flows e) /\ pid_of (pids e) (d_node fd.2) = Ok (job_pid x.1) /\ x.2.1 = d_id fd.2 /\
    route_key (job_args x.1) = Some (pretty (table fd.1), d_target fd.2 +:+ "/32") /\
    match x.2.2 with Some args => args = job_args x.1 | None => closed (Some (job_args x.1)) end.

Section Mirror.
Context (e : env) (Hd : distinct (flows e)).

Lemma ids_inj fd fd' : fd ∈ all_directions (flows e) -> fd' ∈ all_directions (flows e) -> d_id fd.2 = d_id fd'.2 -> fd = fd'.
Proof using Hd.
  intros H H' E. apply list_elem_of_lookup in H as [i Hi], H' as [j Hj]. assert (i = j) as ->; [|congruence].
  apply (NoDup_lookup _ _ _ (d_id fd.2) (di_ids _ Hd)); rewrite list_lookup_fmap; [by rewrite Hi|by rewrite Hj, E].
Qed.

Lemma slot_inj fd fd' pid pid' : fd ∈ all_directions (flows e) -> fd' ∈ all_directions (flows e) ->
  slot pid fd.1 fd.2 = slot pid' fd'.1 fd'.2 -> fd = fd'.
Proof using Hd. intros H H' [= _ Ht Hg]. apply append_inj_r in Hg. by apply (di_slots _ Hd). Qed.

Lemma mirror_step inst k x : about e x -> mirror e inst k -> mirror e (record_applied inst x.2) (execute_one k x.1).
Proof using Hd.
  destruct x as [[pid args] [key v]]. unfold about. cbn [fst snd job_pid job_args].
  intros (fd & Hin & Hpid & -> & Hkey & Hv) Hm fd' pid' Hin' Hpid'.
  unfold execute_one. cbn [job_args job_pid]. rewrite Hkey. fold (slot pid fd.1 fd.2). unfold record_applied. cbn [fst snd].
  destruct (decide (d_id fd'.2 = d_id fd.2)) as [Hk|Hk].
  - apply ids_inj in Hk as ->; [|done..]. rewrite Hpid in Hpid'. injection Hpid' as <-. rewrite dget_dset_eq. destruct v as [a|]; [by rewrite dget_dset_eq; subst|].
    rewrite dget_dpop, decide_True by done. done.
  - specialize (Hm fd' pid' Hin' Hpid'). 
    assert (slot pid' fd'.1 fd'.2 <> slot pid fd.1 fd.2) as Hs by (intros E; by rewrite (slot_inj _ _ _ _ Hin' Hin E) in Hk).
    rewrite (dget_dset_ne _ _ _ _ Hs). destruct v; [by rewrite dget_dset_ne|]. rewrite dget_dpop, decide_False by done. done.
Qed.

Lemma mirror_apply l inst k : Forall (about e) l -> mirror e inst k ->
  mirror e (fold_left record_applied (map snd l) inst) (fold_left execute_one (map fst l) k).
Proof using Hd.
  intros H. revert inst k. induction H as [|x l Hx _ IH]; intros inst k Hm; [done|]. cbn [map fold_left]. by apply IH, mirror_step.
Qed.

End Mirror.

Lemma sublist_map {A B} (g : A -> B) (l l' : list A) : sublist l l' -> sublist (map g l) (map g l').
Proof. induction 1; simpl; by constructor. Qed.

Lemma sublist_filter_b {A} (q : A -> bool) (l : list A) : sublist (List.filter q l) l.
Proof. induction l as [|x l IH]; simpl; [done|]. destruct (q x); by constructor. Qed.

(** What the bookkeeping leaves under a key. *)
Lemma applied_other ap inst key : key ∉ map fst ap -> dget (fold_left record_applied ap inst) key = dget inst key.
Proof.
  revert inst. induction ap as [|[k v] ap IH]; intros inst; [done|]. cbn [map fold_left]. intros [Hne Hn]%not_elem_of_cons.
  rewrite IH by done. unfold record_applied. simpl in *. destruct v; [by rewrite dget_dset_ne|]. by rewrite dget_dpop, decide_False.
Qed.

Lemma applied_own ap inst key v : NoDup (map fst ap) -> (key, v) ∈ ap -> dget (fold_left record_applied ap inst) key = v.
Proof.
  revert inst. induction ap as [|[k u] ap IH]; intros inst; [set_solver|]. cbn [map fold_left]. intros [Hn Hnd]%NoDup_cons Hin.
  apply elem_of_cons in Hin as [[= -> ->]|Hin]; [|by apply IH].
  rewrite applied_other by done. unfold record_applied. simpl. destruct u; [apply dget_dset_eq|]. by rewrite dget_dpop, decide_True.
Qed.

(** ** The routes of a carrier *)

Lemma route_shape e p i m f d nodes args : route e p i m f d nodes = Ok args ->
  exists rest, args = ["ip"; "route"; "replace"; "table"; pretty (table f); d_target d +:+ "/32"] ++ rest.
Proof.
  unfold route. rewrite bind_Ok. intros (first & _ & H). apply bind_Ok in H as (iface & _ & H). apply bind_Ok in H as (h & _ & H).
  destruct (String.eqb (carrier f) "evpn"). { apply bind_Ok in H as (s & _ & [= <-]). by eexists. }
  destruct (mem (carrier f) _).
  { apply bind_Ok in H as (s & _ & H). apply bind_Ok in H as (segs & _ & H). destruct (16 <? len segs); [done|]. injection H as <-. by eexists. }
  destruct (String.eqb (carrier f) "pcep"). { injection H as <-. by eexists. }
  apply bind_Ok in H as (labels & _ & [= <-]). by eexists.
Qed.

Lemma route_key_route e p i m f d nodes args : route e p i m f d nodes = Ok args ->
  route_key args = Some (pretty (table f), d_target d +:+ "/32").
Proof. by intros [rest ->]%route_shape. Qed.

(** The flows that have a route of their own. *)
Definition steered (f : flow) : bool := negb (String.eqb (control f) "distributed") && negb (String.eqb (carrier f) "native").

Definition same_routes (m m' : manager) : Prop := installed m' = installed m /\ states m' = states m.

Lemma ensure_pcep_frame e i m f d nodes lfib : same_routes m (ensure_pcep e i m f d nodes lfib).1.
Proof. unfold ensure_pcep. destruct (pcep_installed _ _ _ _ _ _); [|done]. destruct (_ || _); [|done]. by destruct (configure i _). Qed.

Lemma check_path_frame e p i be m f d nodes : same_routes m (check_path e p i be m f d nodes).1.
Proof.
  unfold check_path. destruct (allM _ _) as [[]|]; [|done..]. destruct (_ && _); [done|]. destruct (String.eqb _ _); [|done].
  destruct (observation_of _ _ _ _ _) as [[]|]; try done. pose proof (ensure_pcep_frame e i m f d nodes d0) as H.
  by destruct (ensure_pcep e i m f d nodes d0).
Qed.

(** What the [try] block of a direction ends with. *)
Definition resolved (e : env) (m : manager) (f : flow) (d : direction) (s : state) (r : res (list job)) : Prop :=
  match r with
  | Ok l => status s = "ready" /\
      (if steered f then exists args, steering s = Some args /\ route_key args = Some (pretty (table f), d_target d +:+ "/32") /\
        ((exists pid, pid_of (pids e) (d_node d) = Ok pid /\ l = [Job pid args]) \/ (l = [] /\ dget (installed m) (d_id d) = Some args))
      else l = [])
  | Err _ => True
  end.

Lemma resolve_cases e p i be m f d :
  let '(m', s, r) := resolve e p i be m f d in (same_routes m m' /\ resolved e m f d s r).
Proof.
  unfold resolve, resolved, steered. destruct (String.eqb (control f) "distributed").
  { destruct (distributed_route e p i f d); by simpl. }
  destruct p as [pl|]; [|done]. destruct (dget (paths pl) (intent_of d)) as [[|first others]|]; [done| |done].
  pose proof (check_path_frame e (Some pl) i be m f d (path_nodes first)) as [Hf Hs].
  destruct (check_path e (Some pl) i be m f d (path_nodes first)) as [m' [u|x]]; [|done]. cbn [fst] in *.
  destruct (String.eqb (carrier f) "native"); [done|]. cbn [negb andb].
  destruct (route e (Some pl) i m' f d (path_nodes first)) as [args|x] eqn:Er; [|done]. simpl_res. apply route_key_route in Er.
  unfold install. rewrite Hf. destruct (negb (bool_decide (dget (installed m) (d_id d) = Some args)) || String.eqb (carrier f) "evpn-srv6") eqn:E.
  - destruct (pid_of (pids e) (d_node d)) as [pid|] eqn:Ep; [|done]. simpl. split; [done|]. split; [done|]. exists args. eauto 10.
  - simpl. apply orb_false_elim in E as [E _]. bool_to_prop. split; [done|]. split; [done|]. exists args. eauto 10.
Qed.

(** How a direction came out of the loop: ready on a route that is being written or is there already, or pending with its
    route being closed or without one. *)
Definition decided (inst : list (string * list string)) (ap : list (string * option (list string))) (fd : flow * direction) (s : state) : Prop :=
  (status s = "ready" /\ (steered fd.1 = true -> exists args, steering s = Some args /\
     ((d_id fd.2, Some args) ∈ ap \/ ((d_id fd.2 ∉ map fst ap) /\ dget inst (d_id fd.2) = Some args)))) \/
  (status s = "pending" /\ ((d_id fd.2, None) ∈ ap \/ ((d_id fd.2 ∉ map fst ap) /\ dget inst (d_id fd.2) = None))).

Lemma decided_later inst ap a fd s : d_id fd.2 ∉ map fst a -> decided inst ap fd s -> decided inst (ap ++ a) fd s.
Proof.
  intros Hn [[H1 H2]|[H1 H2]]; [left|right]; (split; [done|]).
  - intros Hs. destruct (H2 Hs) as (args & ? & [?|[? ?]]); exists args; (split; [done|]); [left; set_solver|right].
    rewrite map_app. set_solver.
  - destruct H2 as [?|[? ?]]; [left; set_solver|right]. rewrite map_app. set_solver.
Qed.

Record batch_ok (e : env) (m : manager) (ds : list (flow * direction)) (b : batch) : Prop := {
  bo_pairs : exists l, operations b = map fst l /\ applied b = map snd l /\ Forall (about e) l;
  bo_keys : map fst (applied b) `sublist_of` map (fun fd => d_id fd.2) ds;
  bo_installed : installed (b_manager b) = installed m;
  bo_states : forall fd, fd ∈ ds -> exists s, dget (states (b_manager b)) (d_id fd.2) = Some s /\ decided (installed m) (applied b) fd s }.

(** One more direction: at most one command, for its own key. *)
Lemma batch_ok_step e m ds b fd m' s (o : option (job * option (list string))) :
  batch_ok e m ds b -> fd ∈ all_directions (flows e) -> d_id fd.2 ∉ map (fun fd => d_id fd.2) ds -> same_routes (b_manager b) m' ->
  (forall j v, o = Some (j, v) -> about e (j, (d_id fd.2, v))) ->
  decided (installed m) (match o with Some (_, v) => [(d_id fd.2, v)] | None => [] end) fd s ->
  batch_ok e m (ds ++ [fd]) (Batch (with_state m' (d_id fd.2) s) (operations b ++ (match o with Some (j, _) => [j] | None => [] end))
    (applied b ++ (match o with Some (_, v) => [(d_id fd.2, v)] | None => [] end))).
Proof.
  intros [(l & Ho & Ha & Hl) Hk Hi Hs] Hin Hnew [Hi' Hs'] Habout Hdec. set (ap := match o with Some (_, v) => [(d_id fd.2, v)] | None => [] end) in *.
  assert (d_id fd.2 ∉ map fst (applied b)) as Hfresh. { intros H. apply Hnew. by apply (elem_of_sublist _ _ _ H Hk). }
  assert (map fst ap `sublist_of` [d_id fd.2]) as Hap. { unfold ap. destruct o as [[j v]|]; simpl; [done|apply sublist_nil_l]. }
  split; simpl.
  - destruct o as [[j v]|]; unfold ap.
    + exists (l ++ [(j, (d_id fd.2, v))]). rewrite !map_app, <- Ho, <- Ha. split_and!; [done|done|]. apply Forall_app. split; [done|].
      constructor; [by apply Habout|constructor].
    + exists l. rewrite !app_nil_r. done.
  - rewrite !map_app. by apply sublist_app.
  - by rewrite Hi'.
  - intros fd' [Hin'|Hin']%elem_of_app.
    + destruct (Hs fd' Hin') as (s' & Hg & Hd'). assert (d_id fd'.2 <> d_id fd.2) as Hne.
      { intros E. apply Hnew. rewrite <- E. by apply (list_elem_of_fmap_2 (fun fd => d_id fd.2)). }
      exists s'. rewrite Hs', dget_dset_ne by done. split; [done|]. apply decided_later; [|done].
      intros H. pose proof (elem_of_sublist _ _ _ H Hap). set_solver.
    + apply list_elem_of_singleton in Hin' as ->. exists s. rewrite dget_dset_eq. split; [done|].
      destruct Hdec as [[H1 H2]|[H1 H2]]; [left|right]; (split; [done|]).
      * intros Hst. destruct (H2 Hst) as (args & ? & [?|[? ?]]); exists args; (split; [done|]); [left; set_solver|right].
        rewrite map_app. set_solver.
      * destruct H2 as [?|[? ?]]; [left; set_solver|right]. rewrite map_app. set_solver.
Qed.

Lemma batch_ok_direction e p i be m ds b b' fd :
  batch_ok e m ds b -> fd ∈ all_directions (flows e) -> d_id fd.2 ∉ map (fun fd => d_id fd.2) ds ->
  update_direction e p i be b fd = Ok b' -> batch_ok e m (ds ++ [fd]) b'.
Proof.
  intros Hb Hin Hnew. pose proof (bo_installed _ _ _ _ Hb) as Hi. destruct fd as [f d]. unfold update_direction.
  pose proof (resolve_cases e p i be (b_manager b) f d) as Hr. destruct (resolve e p i be (b_manager b) f d) as [[m' s] r].
  destruct Hr as [Hsame Hr]. destruct r as [l|x]; cbn [resolved] in Hr.
  - destruct Hr as [Hst Hr]. intros [= <-]. destruct (steered f) eqn:Es.
    + destruct Hr as (args & Hsteer & Hkey & [(pid & Hpid & ->)|[-> Hinst]]).
      * apply (batch_ok_step e m ds b (f, d) m' s (Some (Job pid args, Some args)) Hb Hin Hnew Hsame).
        -- intros j v [= <- <-]. exists (f, d). by split_and!.
        -- left. split; [done|]. intros _. exists args. split; [done|]. left. set_solver.
      * apply (batch_ok_step e m ds b (f, d) m' s None Hb Hin Hnew Hsame); [done|].
        left. split; [done|]. intros _. exists args. split; [done|]. right. split; [set_solver|]. by rewrite <- Hi.
    + subst l. apply (batch_ok_step e m ds b (f, d) m' s None Hb Hin Hnew Hsame); [done|]. left. split; [done|]. simpl. congruence.
  - destruct (caught x); [|done]. unfold dhas. destruct Hsame as [Hi' Hs']. rewrite Hi', Hi. destruct (dget (installed m) (d_id d)) as [args|] eqn:Eg.
    + rewrite bind_Ok. intros (pid & Hpid & [= <-]).
      apply (batch_ok_step e m ds b (f, d) m' _ (Some (Job pid (unreachable f d), None)) Hb Hin Hnew); [by split| |].
      * intros j v [= <- <-]. exists (f, d). by split_and!.
      * right. split; [done|]. left. set_solver.
    + intros [= <-]. rewrite <- (app_nil_r (operations b)), <- (app_nil_r (applied b)).
      apply (batch_ok_step e m ds b (f, d) m' _ None Hb Hin Hnew); [by split|done|]. right. split; [done|]. right. split; [set_solver|done].
Qed.

Lemma batch_ok_all e p i be m ds b : (forall fd, fd ∈ ds -> fd ∈ all_directions (flows e)) -> NoDup (map (fun fd => d_id fd.2) ds) ->
  foldM (update_direction e p i be) (Batch m [] []) ds = Ok b -> batch_ok e m ds b.
Proof.
  revert b. induction ds as [|fd ds IH] using rev_ind; intros b Hin Hnd.
  - intros [= <-]. split; simpl; [exists []; by split_and!|done|done|set_solver].
  - rewrite foldM_app, bind_Ok. intros (b1 & H1 & H2). rewrite map_app in Hnd. apply NoDup_app in Hnd as (Hnd & Hdis & _).
    cbn [foldM] in H2. apply bind_Ok in H2 as (b2 & H2 & [= <-]).
    apply (batch_ok_direction e p i be m ds b1); [| | |done].
    + apply IH; [intros; apply Hin; set_solver|done|done].
    + apply Hin. set_solver.
    + intros H. apply (Hdis _ H). set_solver.
Qed.

(** ** The invariant of a tick *)

(** The state of every steered direction tells what its table holds. *)
Definition truthful (e : env) (m : manager) : Prop := forall fd, fd ∈ all_directions (flows e) ->
  exists s, dget (states m) (d_id fd.2) = Some s /\
    (status s = "ready" -> steered fd.1 = true -> exists args, steering s = Some args /\ dget (installed m) (d_id fd.2) = Some args) /\
    (status s <> "ready" -> dget (installed m) (d_id fd.2) = None).

Lemma jobs_Ok k ops failure k' : jobs k ops failure = (k', Ok tt) -> k' = fold_left execute_one ops k.
Proof. unfold jobs. destruct ops; [by intros [= <-]|]. destruct failure; [done|]. by intros [= <-]. Qed.

Lemma decided_truthful (e : env) m ap : NoDup (map fst ap) ->
  (forall fd, fd ∈ all_directions (flows e) -> exists s, dget (states m) (d_id fd.2) = Some s /\ decided (installed m) ap fd s) ->
  truthful e (set_installed m (fold_left record_applied ap (installed m))).
Proof.
  intros Hnd H fd Hin. destruct (H fd Hin) as (s & Hs & Hdec). exists s. split; [done|]. cbn [installed set_installed].
  destruct Hdec as [[H1 H2]|[H1 H2]]; rewrite H1; split; try done.
  - intros _ Hst. destruct (H2 Hst) as (args & ? & [Ha|[Hn Ha]]); exists args; (split; [done|]);
      [by apply applied_own|by rewrite applied_other].
  - intros _. destruct H2 as [Ha|[Hn Ha]]; [by apply applied_own|by rewrite applied_other].
Qed.

Lemma apply_steering_Ok m k ops ap failure m' k' : apply_steering m k ops ap failure = (m', k', Ok tt) ->
  m' = set_installed m (fold_left record_applied ap (installed m)) /\ k' = fold_left execute_one ops k.
Proof.
  unfold apply_steering. destruct (jobs k ops failure) as [k1 [[]|x]] eqn:E; [|done]. intros [= <- <-]. apply jobs_Ok in E. done.
Qed.

(** The steering phase of a tick. *)
Lemma steering_phase e p i be m k b failure m' k' : distinct (flows e) -> mirror e (installed m) k ->
  foldM (update_direction e p i be) (Batch m [] []) (all_directions (flows e)) = Ok b ->
  apply_steering (b_manager b) k (operations b) (applied b) failure = (m', k', Ok tt) ->
  mirror e (installed m') k' /\ truthful e m'.
Proof.
  intros Hd Hm Hb%batch_ok_all; [|done|apply (di_ids _ Hd)]. intros [-> ->]%apply_steering_Ok.
  destruct Hb as [(l & Ho & Ha & Hl) Hk Hi Hs]. split.
  - cbn [installed set_installed]. rewrite Hi, Ho, Ha. by apply mirror_apply.
  - apply decided_truthful; [by eapply sublist_NoDup; [apply (di_ids _ Hd)|]|]. by rewrite Hi.
Qed.

(** *** The N3 phase writes another table *)

Definition n3_job (j : job) : Prop := exists dst, route_key (job_args j) = Some ("300", dst).

Lemma mirror_n3 e inst k ops : distinct (flows e) -> Forall n3_job ops -> mirror e inst k -> mirror e inst (fold_left execute_one ops k).
Proof.
  intros Hd H. revert k. induction H as [|j ops [dst Hj] _ IH]; intros k Hm; [done|]. cbn [fold_left]. apply IH.
  intros fd pid Hin Hpid. specialize (Hm fd pid Hin Hpid). unfold execute_one. rewrite Hj.
  rewrite dget_dset_ne; [done|]. unfold slot. intros [= _ E _]. by apply (di_n3 _ Hd fd Hin).
Qed.

Lemma n3_route_job e p m node remote target intent nodes args : target +:+ "/32" <> "unreachable" -> target +:+ "/32" <> "table" ->
  n3_route e p m (node, remote, target, intent) = Ok (nodes, args) -> route_key args = Some ("300", target +:+ "/32").
Proof.
  intros H1 H2. unfold n3_route. rewrite bind_Ok. intros (pl & _ & H). apply bind_Ok in H as (ps & _ & H). apply bind_Ok in H as (first & _ & H).
  apply bind_Ok in H as (up & _ & H). revert H. split_guard. rewrite bind_Ok. intros (l & _ & H). apply bind_Ok in H as (r & _ & H).
  apply bind_Ok in H as (segs & _ & H). revert H. split_guard. intros [= _ <-]. simpl.
  apply String.eqb_neq in H1, H2. by rewrite H1, H2.
Qed.

Lemma n3_step_frame e p m ops item m' ops' : item ∈ service (fab e) -> Forall n3_job ops ->
  n3_step e p (m, ops) item = Ok (m', ops') -> same_routes m m' /\ Forall n3_job ops'.
Proof.
  intros Hin Hf. destruct item as [[[node remote] target] intent]. unfold n3_step. rewrite bind_Ok. intros ([s args] & Hr & H).
  apply bind_Ok in H as (pid & _ & [= <- <-]). split; [done|]. apply Forall_app. split; [done|]. constructor; [|constructor].
  exists (target +:+ "/32"). cbn [job_args]. destruct (n3_route e p m (node, remote, target, intent)) as [[nodes a]|x] eqn:E.
  - injection Hr as _ <-. eapply n3_route_job; [| |exact E].
    all: unfold service in Hin; destruct (Fabric.Fabric.pair (fab e)); rewrite !elem_of_cons, elem_of_nil in Hin; naive_solver.
  - destruct (n3_caught x); [|done]. by injection Hr as _ <-.
Qed.

Lemma n3_steps_frame e p m m' ops : foldM (n3_step e p) (m, []) (service (fab e)) = Ok (m', ops) -> same_routes m m' /\ Forall n3_job ops.
Proof.
  intros E. apply (foldM_inv (fun st : manager * list job => same_routes m st.1 /\ Forall n3_job st.2)) in E; [done| |split; [done|constructor]].
  intros [m2 o2] it [m3 o3] Hin [[H1 H2] Hf] H. destruct (n3_step_frame _ _ _ _ _ _ _ Hin Hf H) as [[H3 H4] H5].
  split; [|done]. split; simpl in *; congruence.
Qed.

Lemma update_n3_frame e p m k failure m' k' : distinct (flows e) -> update_n3 e p m k failure = (m', k', Ok tt) ->
  mirror e (installed m) k -> same_routes m m' /\ mirror e (installed m') k'.
Proof.
  intros Hd. unfold update_n3. destruct (negb (n3_evpn e)); [by intros [= <- <-]|].
  destruct (foldM (n3_step e p) (m, []) (service (fab e))) as [[m1 ops]|x] eqn:E; [|done].
  destruct (jobs k ops failure) as [k1 r] eqn:Ej. intros [= <- <- ->] Hm. apply jobs_Ok in Ej as ->.
  apply n3_steps_frame in E as [Hs Hf]. split; [done|]. destruct Hs as [-> _]. by apply mirror_n3.
Qed.

Lemma update_n3_states e p m k failure m' k' r : update_n3 e p m k failure = (m', k', r) -> states m' = states m.
Proof.
  unfold update_n3. destruct (negb (n3_evpn e)); [by intros [= <- <- <-]|].
  destruct (foldM (n3_step e p) (m, []) (service (fab e))) as [[m1 ops]|x] eqn:E; [|by intros [= <- <- <-]].
  destruct (jobs k ops failure) as [k1 r1]. intros [= <- <- <-]. by apply n3_steps_frame in E as [[_ ?] _].
Qed.

(** *** Waiting for binding SIDs *)

Definition ready_key (r : flow * direction * job) : string := d_id r.1.2.

Lemma settled_list e p i q m pend found : mapM_res (settled e p i q m) pend = Ok found -> (forall fd, fd ∈ pend -> fd ∈ all_directions (flows e)) ->
  Forall (fun r => about e (r.2, (ready_key r, Some (job_args r.2))) /\ r.1 ∈ all_directions (flows e) /\ is_Some (dget (states m) (ready_key r))) (concat found) /\
  sublist (map ready_key (concat found)) (map (fun fd => d_id fd.2) pend).
Proof.
  revert found. induction pend as [|[f d] pend IH]; intros found; cbn [mapM_res]; [intros [= <-] _; simpl; split; [constructor|done]|].
  rewrite bind_Ok. intros (l & Hl & H) Hin. apply bind_Ok in H as (found' & Hf & [= <-]). destruct (IH _ Hf) as [H1 H2]; [intros; apply Hin; by right|].
  cbn [concat map]. rewrite map_app. revert Hl. unfold settled. rewrite bind_Ok. intros (s & Hs%or_raise_Ok & H).
  apply bind_Ok in H as (nodes & _ & H). apply bind_Ok in H as (present & _ & H). destruct present.
  - apply bind_Ok in H as (args & Ha & H). apply bind_Ok in H as (pid & Hp & [= <-]). cbn [app]. split; [|by apply sublist_skip].
    constructor; [|done]. apply route_key_route in Ha. split_and!; [|apply Hin; left|unfold ready_key; simpl; by rewrite Hs].
    exists (f, d). split_and!; try done. apply Hin. left.
  - injection H as <-. cbn [app]. split; [done|]. by apply sublist_cons.
Qed.

Lemma mark_ready_other l m key : key ∉ map ready_key l -> dget (states (fold_left mark_ready l m)) key = dget (states m) key.
Proof.
  revert m. induction l as [|r l IH]; intros m; [done|]. cbn [map fold_left]. intros [Hne Hn]%not_elem_of_cons. rewrite IH by done.
  unfold mark_ready. destruct (dget (states m) (d_id r.1.2)); [|done]. simpl. by rewrite dget_dset_ne.
Qed.

Lemma mark_ready_own l m r : NoDup (map ready_key l) -> r ∈ l -> is_Some (dget (states m) (ready_key r)) ->
  exists s, dget (states (fold_left mark_ready l m)) (ready_key r) = Some s /\ status s = "ready" /\ steering s = Some (job_args r.2).
Proof.
  revert m. induction l as [|r' l IH]; intros m; [set_solver|]. cbn [map fold_left]. intros [Hn Hnd]%NoDup_cons [->|Hin]%elem_of_cons [s Hs].
  - rewrite mark_ready_other by done. unfold mark_ready. fold (ready_key r'). rewrite Hs. cbn [states with_state]. rewrite dget_dset_eq. by eexists.
  - apply IH; [done|done|]. assert (ready_key r <> ready_key r') as Hne.
    { intros E. apply Hn. rewrite <- E. by apply list_elem_of_fmap_2. }
    unfold mark_ready. destruct (dget (states m) (d_id r'.1.2)); [|by rewrite Hs]. cbn [states with_state]. fold (ready_key r'). rewrite dget_dset_ne by done. by rewrite Hs.
Qed.

Lemma mark_ready_installed l m : installed (fold_left mark_ready l m) = installed m.
Proof. revert m. induction l as [|r l IH]; intros m; [done|]. cbn [fold_left]. rewrite IH. unfold mark_ready. by destruct (dget (states m) _). Qed.

Lemma settle_once_ok e p i q m k pend m' k' pend' : distinct (flows e) -> (forall fd, fd ∈ pend -> fd ∈ all_directions (flows e)) ->
  NoDup (map (fun fd => d_id fd.2) pend) -> mirror e (installed m) k -> truthful e m ->
  settle_once e p i q m k pend = (m', k', Ok pend') -> mirror e (installed m') k' /\ truthful e m' /\ sublist pend' pend.
Proof.
  intros Hd Hin Hnd Hm Ht. unfold settle_once. destruct (mapM_res (settled e p i q m) pend) as [found|x] eqn:E; [|done].
  destruct (settled_list _ _ _ _ _ _ _ E Hin) as [Hall Hsub]. set (ready := concat found) in *. clearbody ready.
  destruct ready as [|r0 rest] eqn:Er; [by intros [= <- <- <-]|]. rewrite <- Er in *. clear Er.
  destruct (apply_steering m k _ _ (p_failure q)) as [[m1 k1] [[]|x]] eqn:Ea; [|done]. intros [= <- <- <-].
  apply apply_steering_Ok in Ea as [-> ->]. rewrite mark_ready_installed. cbn [installed set_installed].
  set (ap := map (fun r => (d_id r.1.2, Some (job_args r.2))) ready).
  assert (map fst ap = map ready_key ready) as Hap by (unfold ap; by rewrite map_map).
  assert (NoDup (map ready_key ready)) as Hndr by (by eapply sublist_NoDup).
  split_and!; [| |apply sublist_filter_b].
  - set (l := map (fun r : flow * direction * job => (r.2, (ready_key r, Some (job_args r.2)))) ready).
    replace (map snd ready) with (map fst l) by (unfold l; by rewrite map_map). replace ap with (map snd l) by (unfold l, ap; by rewrite map_map).
    apply mirror_apply; [done| |done]. unfold l. apply Forall_fmap. eapply Forall_impl; [exact Hall|]. by intros r (? & _).
  - intros fd Hfd. rewrite mark_ready_installed. cbn [installed set_installed]. destruct (decide (d_id fd.2 ∈ map ready_key ready)) as [Hk|Hk].
    + apply list_elem_of_In, in_map_iff in Hk as (r & Hk & Hr%list_elem_of_In). rewrite Forall_forall in Hall. destruct (Hall _ Hr) as (_ & Hrin & Hst).
      destruct (mark_ready_own ready (set_installed m (fold_left record_applied ap (installed m))) r Hndr Hr Hst) as (s & Hs & H1 & H2).
      rewrite <- Hk. exists s. split; [done|]. split; [|done]. intros _ _. exists (job_args r.2). split; [done|].
      apply applied_own; [by rewrite Hap|]. unfold ap. apply (list_elem_of_fmap_2 (fun r => (d_id r.1.2, Some (job_args r.2)))). done.
    + rewrite mark_ready_other by done. cbn [states set_installed]. rewrite applied_other by (by rewrite Hap). by apply Ht.
Qed.

Lemma settle_pcep_ok e p i polls m k pend m' k' : distinct (flows e) -> (forall fd, fd ∈ pend -> fd ∈ all_directions (flows e)) ->
  NoDup (map (fun fd => d_id fd.2) pend) -> mirror e (installed m) k -> truthful e m ->
  settle_pcep e p i polls m k pend = (m', k', Ok tt) -> mirror e (installed m') k' /\ truthful e m'.
Proof.
  intros Hd. revert m k pend. induction polls as [|q polls IH]; intros m k pend Hin Hnd Hm Ht; cbn [settle_pcep].
  { destruct pend; by intros [= <- <-]. }
  destruct pend as [|fd pend'] eqn:Ep; [by intros [= <- <-]|]. rewrite <- Ep in *. clear Ep.
  destruct (settle_once e p i q m k pend) as [[m1 k1] [pend1|x]] eqn:E; [|done].
  destruct (settle_once_ok _ _ _ _ _ _ _ _ _ _ Hd Hin Hnd Hm Ht E) as (Hm1 & Ht1 & Hsub). apply IH; [|by eapply sublist_NoDup, sublist_map|done|done].
  intros fd' H'. apply Hin. by eapply elem_of_sublist.
Qed.

(** A tick that ends normally keeps the invariant. *)
Lemma update_ok e p i w m k m' k' : distinct (flows e) -> mirror e (installed m) k -> update e p i w m k = (m', k', Ok tt) ->
  mirror e (installed m') k' /\ truthful e m'.
Proof.
  intros Hd Hm. unfold update. destruct (refresh e i m) as [[m0 be]|x] eqn:Er; [|done].
  assert (installed m0 = installed m) as Hi0.
  { revert Er. unfold refresh. destruct (edges_read i); [by intros [= <- _]|]. destruct (edges_caught e0); [|done]. by intros [= <- _]. }
  rewrite <- Hi0 in Hm. destruct (foldM _ (Batch m0 [] []) _) as [b|x] eqn:Eb; [|done].
  destruct (apply_steering (b_manager b) k (operations b) (applied b) (steering_write w)) as [[m1 k1] [[]|x]] eqn:Ea; [|done].
  destruct (steering_phase _ _ _ _ _ _ _ _ _ _ Hd Hm Eb Ea) as [Hm1 Ht1].
  destruct (update_n3 e p m1 k1 (n3_write w)) as [[m2 k2] [[]|x]] eqn:En; [|done].
  destruct (update_n3_frame _ _ _ _ _ _ _ Hd En Hm1) as [[Hi2 Hs2] Hm2].
  apply settle_pcep_ok; [done| | |done|].
  - intros fd H. unfold waiting_directions in H. by apply list_elem_of_In, filter_In in H as [H%list_elem_of_In _].
  - eapply sublist_NoDup; [apply (di_ids _ Hd)|]. apply sublist_map, sublist_filter_b.
  - intros fd Hfd. rewrite Hi2, Hs2. by apply Ht1.
Qed.

(** *** The paths of the ready directions *)

(** A direction that is ready, or waits only for its binding SID, has a path of active contacts. *)
Definition walkable (e : env) (s : state) : Prop :=
  status s = "ready" \/ error s = Some waiting -> exists nodes, s_nodes s = Some nodes /\ allM (fun ab => active (fab e) ab.1 ab.2) (hops nodes) = Ok true.

Definition walkable_states (e : env) (m : manager) (ds : list (flow * direction)) : Prop :=
  forall fd s, fd ∈ ds -> control fd.1 <> "distributed" -> dget (states m) (d_id fd.2) = Some s -> walkable e s.

Lemma allM_active_Err f l x : allM (fun ab : string * string => active f ab.1 ab.2) l = Err x -> x = KeyError.
Proof.
  induction l as [|ab l IH]; cbn [allM]; [done|]. unfold active at 1. destruct (dget _ _) as [k|]; simpl_res; [|by intros [= <-]].
  by destruct (_ && _ && _).
Qed.

Lemma resolve_walkable e p i be m f d : control f <> "distributed" ->
  let '(_, s, r) := resolve e p i be m f d in walkable e (match r with Ok _ => s | Err x => with_error s (str_tail 300 (exn_str x)) end).
Proof.
  intros Hc%String.eqb_neq. unfold resolve. rewrite Hc. destruct p as [pl|]; [|by intros [|]]. destruct (dget (paths pl) (intent_of d)) as [[|first others]|]; [by intros [|]| |by intros [|]].
  destruct (check_path e (Some pl) i be m f d (path_nodes first)) as [m' r] eqn:E. revert E. unfold check_path.
  destruct (allM _ (hops (path_nodes first))) as [[]|x] eqn:Ea; [|by intros [= <- <-] [|]|intros [= <- <-]; apply allM_active_Err in Ea as ->; by intros [|]].
  intros _. assert (forall s, s_nodes s = Some (path_nodes first) -> walkable e s) as Hw by (intros s Hs _; by exists (path_nodes first)).
  destruct r; [|by apply Hw]. destruct (String.eqb (carrier f) "native"); [by apply Hw|]. destruct (route e (Some pl) i m' f d (path_nodes first)) as [args|x]; [|by apply Hw]. simpl_res.
  destruct (install e m' f d args); by apply Hw.
Qed.

Lemma update_direction_walkable e p i be b fd b' ds : update_direction e p i be b fd = Ok b' -> walkable_states e (b_manager b) ds -> d_id fd.2 ∉ map (fun fd => d_id fd.2) ds ->
  walkable_states e (b_manager b') (ds ++ [fd]).
Proof.
  destruct fd as [f d]. unfold update_direction. pose proof (resolve_walkable e p i be (b_manager b) f d) as Hw. pose proof (resolve_cases e p i be (b_manager b) f d) as Hr.
  destruct (resolve e p i be (b_manager b) f d) as [[m' s] r]. destruct Hr as [[_ Hs] _]. intros H Hds Hn.
  set (s' := match r with Ok _ => s | Err x => with_error s (str_tail 300 (exn_str x)) end) in *.
  assert (states (b_manager b') = dset (states (b_manager b)) (d_id d) s') as Hst.
  { destruct r as [l|x]; [injection H as <-; simpl; by rewrite Hs|]. destruct (caught x); [|done]. destruct (dhas _ _).
    - apply bind_Ok in H as (pid & _ & [= <-]). simpl. by rewrite Hs.
    - injection H as <-. simpl. by rewrite Hs. }
  intros fd' s0 [Hin| ->%list_elem_of_singleton]%elem_of_app Hc; rewrite Hst.
  - rewrite dget_dset_ne; [by apply Hds|]. intros E. cbn [snd] in Hn. apply Hn. rewrite <- E. by apply (list_elem_of_fmap_2 (fun fd => d_id fd.2)).
  - cbn [snd]. rewrite dget_dset_eq. intros [= <-]. by apply Hw.
Qed.

Lemma update_directions_walkable e p i be m ds b : NoDup (map (fun fd => d_id fd.2) ds) -> foldM (update_direction e p i be) (Batch m [] []) ds = Ok b -> walkable_states e (b_manager b) ds.
Proof.
  revert b. induction ds as [|fd ds IH] using rev_ind; intros b Hnd; [intros _ fd s H; by apply not_elem_of_nil in H|]. rewrite foldM_app, bind_Ok. intros (b1 & H1 & H2).
  rewrite map_app in Hnd. apply NoDup_app in Hnd as (Hnd & Hdis & _). cbn [foldM] in H2. apply bind_Ok in H2 as (b2 & H2 & [= <-]).
  eapply update_direction_walkable; [exact H2|by apply IH|]. intros H. apply (Hdis _ H). set_solver.
Qed.

Lemma mark_ready_nodes l m key : (s_nodes <$> dget (states (fold_left mark_ready l m)) key) = (s_nodes <$> dget (states m) key).
Proof.
  revert m. induction l as [|r l IH]; intros m; [done|]. cbn [fold_left]. rewrite IH. unfold mark_ready. destruct (dget (states m) (d_id r.1.2)) as [s|] eqn:E; [|done].
  cbn [states with_state]. destruct (decide (key = d_id r.1.2)) as [->|Hne]; [by rewrite dget_dset_eq, E|by rewrite dget_dset_ne].
Qed.

Definition awaiting (m : manager) (fd : flow * direction) : Prop := exists s, dget (states m) (d_id fd.2) = Some s /\ error s = Some waiting.

Lemma settle_once_walkable e p i q m k pend m' k' pend' : (forall fd, fd ∈ pend -> fd ∈ all_directions (flows e)) -> Forall (awaiting m) pend ->
  walkable_states e m (all_directions (flows e)) -> settle_once e p i q m k pend = (m', k', Ok pend') -> walkable_states e m' (all_directions (flows e)) /\ Forall (awaiting m') pend'.
Proof.
  intros Hin Hw Hst. unfold settle_once. destruct (mapM_res (settled e p i q m) pend) as [found|x] eqn:E; [|done].
  destruct (settled_list _ _ _ _ _ _ _ E Hin) as [_ Hsub]. set (ready := concat found) in *. clearbody ready.
  destruct ready as [|r0 rest] eqn:Er; [by intros [= <- <- <-]|]. rewrite <- Er in *. clear Er.
  destruct (apply_steering m k _ _ (p_failure q)) as [[m1 k1] [[]|x]] eqn:Ea; [|done]. intros [= <- <- <-]. apply apply_steering_Ok in Ea as [Hm1 _].
  assert (states m1 = states m) as Hs1 by (by rewrite Hm1). split.
  - intros fd s Hfd Hc Hs Hr. destruct (decide (d_id fd.2 ∈ map ready_key ready)) as [Hk|Hk].
    + pose proof (mark_ready_nodes ready m1 (d_id fd.2)) as Hn. rewrite Hs, Hs1 in Hn. destruct (dget (states m) (d_id fd.2)) as [s0|] eqn:E0; [|done]. injection Hn as Hn.
      rewrite Hn. apply (Hst fd s0 Hfd Hc E0). right. apply (elem_of_sublist _ _ _ Hk) in Hsub. apply list_elem_of_In, in_map_iff in Hsub as (fd2 & Hk2 & Hfd2%list_elem_of_In).
      rewrite Forall_forall in Hw. destruct (Hw _ Hfd2) as (s2 & Hs2 & He). rewrite Hk2 in Hs2. congruence.
    + rewrite mark_ready_other in Hs by done. rewrite Hs1 in Hs. by apply (Hst fd s Hfd Hc Hs).
  - rewrite Forall_forall in Hw |- *. intros fd Hfd. apply list_elem_of_In, filter_In in Hfd as [Hfd%list_elem_of_In Hn]. destruct (Hw _ Hfd) as (s & Hs & He). exists s. split; [|done].
    rewrite mark_ready_other, Hs1; [done|]. apply negb_true_iff in Hn. by apply bool_decide_eq_false in Hn.
Qed.

Lemma settle_once_sublist e p i q m k pend m' k' pend' : settle_once e p i q m k pend = (m', k', Ok pend') -> sublist pend' pend.
Proof.
  unfold settle_once. destruct (mapM_res _ pend) as [found|x]; [|done]. destruct (concat found); [by intros [= <- <- <-]|].
  destruct (apply_steering _ _ _ _ _) as [[m1 k1] [u|x]]; [|done]. intros [= <- <- <-]. apply sublist_filter_b.
Qed.

Lemma settle_pcep_walkable e p i polls m k pend m' k' : (forall fd, fd ∈ pend -> fd ∈ all_directions (flows e)) -> Forall (awaiting m) pend ->
  walkable_states e m (all_directions (flows e)) -> settle_pcep e p i polls m k pend = (m', k', Ok tt) -> walkable_states e m' (all_directions (flows e)).
Proof.
  revert m k pend. induction polls as [|q polls IH]; intros m k pend Hin Hw Hst; cbn [settle_pcep]; [destruct pend; by intros [= <- <-]|].
  destruct pend as [|fd pend0] eqn:Ep; [by intros [= <- <-]|]. rewrite <- Ep in *. clear Ep.
  destruct (settle_once e p i q m k pend) as [[m1 k1] [pend1|x]] eqn:E; [|done]. pose proof (settle_once_sublist _ _ _ _ _ _ _ _ _ _ E) as Hsub.
  destruct (settle_once_walkable _ _ _ _ _ _ _ _ _ _ Hin Hw Hst E) as [H1 H2]. apply IH; [|done..]. intros fd' H'. apply Hin. by eapply elem_of_sublist.
Qed.

(** A tick that ends normally leaves every ready direction on a path of active contacts. *)
Lemma update_walkable e p i w m k m' k' : distinct (flows e) -> update e p i w m k = (m', k', Ok tt) -> walkable_states e m' (all_directions (flows e)).
Proof.
  intros Hd. unfold update. destruct (refresh e i m) as [[m0 be]|x]; [|done]. destruct (foldM _ (Batch m0 [] []) _) as [b|x] eqn:Eb; [|done].
  apply update_directions_walkable in Eb; [|apply (di_ids _ Hd)].
  destruct (apply_steering (b_manager b) k (operations b) (applied b) (steering_write w)) as [[m1 k1] [[]|x]] eqn:Ea; [|done]. apply apply_steering_Ok in Ea as [-> _].
  destruct (update_n3 e p _ k1 (n3_write w)) as [[m2 k2] [[]|x]] eqn:En; [|done]. apply update_n3_states in En. apply settle_pcep_walkable.
  - intros fd H. unfold waiting_directions in H. by apply list_elem_of_In, filter_In in H as [H%list_elem_of_In _].
  - apply Forall_forall. intros fd H. unfold waiting_directions in H. apply list_elem_of_In, filter_In in H as [_ [_ H]%andb_true_iff].
    unfold awaiting. destruct (dget (states m2) (d_id fd.2)) as [s|]; [|done]. exists s. by bool_to_prop.
  - intros fd s Hfd Hc. rewrite En. by apply Eb.
Qed.

(** ** Any number of ticks *)

(** A tick sees the fabric of its own frame. *)
Record tick := Tick { t_fabric : fabric; t_plan : option plan; t_inputs : inputs; t_writes : writes }.

Definition env_at (e : env) (f : fabric) : env := Env f (flows e) (pids e) (run_id e) (step e) (n3_evpn e) (evpn_nodes e).

Definition initial : manager := Manager [] 0 [] [] [] [] [] [].

Definition run_tick (e : env) (st : manager * kernel) (t : tick) : res (manager * kernel) :=
  let '(m, k, r) := update (env_at e (t_fabric t)) (t_plan t) (t_inputs t) (t_writes t) st.1 st.2 in let* _ := r in Ok (m, k).

Definition run (e : env) (ticks : list tick) : res (manager * kernel) := foldM (run_tick e) (initial, []) ticks.

(** The table of a steered direction, next to its published state. *)
Definition honest (e : env) (m : manager) (k : kernel) : Prop :=
  forall f d pid, (f, d) ∈ all_directions (flows e) -> steered f = true -> pid_of (pids e) (d_node d) = Ok pid ->
    exists s, dget (states m) (d_id d) = Some s /\
      (status s = "ready" -> exists args, steering s = Some args /\ dget k (slot pid f d) = Some args) /\
      (status s <> "ready" -> closed (dget k (slot pid f d))).

Lemma honest_ok e m k : mirror e (installed m) k -> truthful e m -> honest e m k.
Proof.
  intros Hm Ht f d pid Hin Hst Hpid. destruct (Ht _ Hin) as (s & Hs & H1 & H2). specialize (Hm _ _ Hin Hpid). cbn [fst snd] in *.
  exists s. split_and!; [done| |].
  - intros H. destruct (H1 H Hst) as (args & Ha & Hi). exists args. by rewrite Hi in Hm.
  - intros H. by rewrite (H2 H) in Hm.
Qed.

Lemma run_ok e ticks m k : distinct (flows e) -> run e ticks = Ok (m, k) -> mirror e (installed m) k /\ (ticks <> [] -> truthful e m).
Proof.
  intros Hd. unfold run. revert m k. induction ticks as [|t ticks IH] using rev_ind; intros m k.
  { intros [= <- <-]. split; [|done]. intros fd pid _ _. done. }
  rewrite foldM_app, bind_Ok. intros ([m1 k1] & H1 & H). cbn [foldM] in H. apply bind_Ok in H as ([m2 k2] & H2 & [= <- <-]).
  destruct (IH _ _ H1) as [Hm _]. revert H2. unfold run_tick. cbn [fst snd].
  destruct (update (env_at e (t_fabric t)) (t_plan t) (t_inputs t) (t_writes t) m1 k1) as [[m3 k3] [[]|x]] eqn:E; [|done]. intros [= <- <-].
  destruct (update_ok (env_at e (t_fabric t)) _ _ _ _ _ _ _ Hd Hm E) as [H1' H2']. by split.
Qed.

(** The flows of a catalog are distinct in this sense. *)
Lemma elem_of_all_directions fs fd : fd ∈ all_directions fs <-> exists i, fs !! i = Some fd.1 /\ fd.2 ∈ directions fd.1.
Proof.
  unfold all_directions. rewrite list_elem_of_In, in_concat. split.
  - intros (l & Hl & Hin). apply in_map_iff in Hl as (f & <- & Hf). apply in_map_iff in Hin as (d & <- & Hd). simpl.
    apply list_elem_of_In, list_elem_of_lookup in Hf as [i Hi]. exists i. split; [done|]. by apply list_elem_of_In.
  - intros (i & Hi & Hd). destruct fd as [f d]. exists (map (pair f) (directions f)). split.
    + apply in_map_iff. exists f. split; [done|]. apply list_elem_of_In, list_elem_of_lookup. eauto.
    + apply in_map_iff. exists d. split; [done|]. by apply list_elem_of_In.
Qed.

Lemma direction_ids fs : NoDup (map id fs) -> NoDup (map (fun fd => d_id fd.2) (all_directions fs)).
Proof.
  unfold all_directions. induction fs as [|f fs IH]; intros Hn; [constructor|]. apply NoDup_cons in Hn as [Hf Hn].
  cbn [map concat]. rewrite map_app. apply NoDup_app. split_and!; [| |by apply IH].
  - cbn [directions map snd d_id]. apply NoDup_cons. split; [|apply NoDup_singleton]. intros H. apply list_elem_of_singleton in H.
    apply (inj (String.app (id f))) in H. done.
  - intros x Hx Hx'. apply Hf. fold (all_directions fs) in Hx'. apply list_elem_of_In, in_map_iff in Hx' as ([g d] & <- & Hg%list_elem_of_In).
    apply elem_of_all_directions in Hg as (i & Hi & Hd). cbn [fst snd] in *. cbn [directions map snd d_id] in Hx.
    assert (id f = id g) as ->; [|apply list_elem_of_In, in_map_iff; exists g; split; [done|]; apply list_elem_of_In, list_elem_of_lookup; by exists i].
    unfold directions in Hd. rewrite !elem_of_cons in Hd. rewrite !elem_of_cons in Hx.
    destruct Hx as [Hx|[Hx|[]%not_elem_of_nil]], Hd as [->|[->|[]%not_elem_of_nil]]; cbn [d_id] in Hx; try (by apply append_inj_r in Hx).
    all: exfalso; apply append_inj in Hx as [_ Hx]; [done|reflexivity].
Qed.

Lemma catalog_distinct config gateways fs : Workload.catalog config gateways = Ok fs -> distinct fs.
Proof.
  intros Hc. destruct (Workload.catalog_ok _ _ _ Hc) as (Hok & _ & _). split.
  - by apply direction_ids, (Workload.catalog_ids _ _ _ Hc).
  - intros [f d] [f' d'] (i & Hi & Hd)%elem_of_all_directions (j & Hj & Hd')%elem_of_all_directions Ht Hg. cbn [fst snd] in *.
    apply (inj pretty) in Ht. destruct (Hok _ _ Hi) as [N1 (_ & T1 & _) _ S1 D1 _], (Hok _ _ Hj) as [N2 (_ & T2 & _) _ S2 D2 _].
    assert (i = j) as -> by lia. rewrite Hi in Hj. injection Hj as <-. f_equal.
    assert (Workload.source_address f <> Workload.destination_address f) as Hne.
    { intros E. rewrite E in S1. destruct (Workload.address_inj _ _ _ _ _ S1 D1). lia. }
    unfold directions in Hd, Hd'. rewrite !elem_of_cons in Hd, Hd'.
    destruct Hd as [->|[->|[]%not_elem_of_nil]], Hd' as [->|[->|[]%not_elem_of_nil]]; simpl in Hg; congruence.
  - intros [f d] (i & Hi & Hd)%elem_of_all_directions. destruct (Hok _ _ Hi) as [N1 (_ & T1 & _) _ _ _ _]. cbn [fst].
    intros E. assert (table f = 300) as E3 by (by apply (inj pretty)). simpl in *. lia.
Qed.

(** C6.  Steering is fail-closed: after any number of ticks that ended normally, each with the fabric of its own frame, whatever the routers, the PCE, the plan and the contacts
    said, a direction published as ready has exactly its published route in its table, and a direction that is not ready
    has none that carries traffic: its destination is unreachable or left to the table's blackhole. *)
Theorem steering_fail_closed config gateways e ticks m k : Workload.catalog config gateways = Ok (flows e) ->
  ticks <> [] -> run e ticks = Ok (m, k) -> honest e m k.
Proof. intros Hd%catalog_distinct Hne [Hm Ht]%run_ok; [|done]. apply honest_ok; auto. Qed.

(** ** Example: one SRv6 flow over the three-node fabric *)

Definition example_config : list (string * json) :=
  [("schema_version", JInt 1); ("enabled", JBool true); ("copies_per_profile", JInt 1); ("profiles", JList [Workload.example_profile "bulk" "srv6" "hybrid"])].

Definition example_env : env :=
  Env Fabric.Fabric.example_fabric (Live.or_else [] (Workload.catalog example_config (Fabric.Fabric.gateways Fabric.Fabric.example_fabric)))
    [("gw-a", 101); ("gw-b", 102); ("sat", 103)] "sf-unified-1" 10 false [].

Definition example_plan : plan :=
  Plan "p1" [("work-bulk-01-forward", [Path ["gw-a"; "sat"; "gw-b"]]); ("work-bulk-01-reverse", [Path ["gw-b"; "sat"; "gw-a"]])].

Definition example_inputs : inputs := Inputs 100 100 (fun _ _ => Err (RuntimeError "no query")) (Ok []) (fun _ => None) [] (fun _ => None).

(** The fabric when every contact is down. *)
Definition example_outage : fabric :=
  Live.or_else Fabric.Fabric.example_fabric (Fabric.Fabric.set_links Fabric.Fabric.example_fabric (map Live.down (dvalues (Fabric.Fabric.directed Fabric.Fabric.example_fabric)))).

Definition good : tick := Tick (fab example_env) (Some example_plan) example_inputs (Writes None None []).
Definition no_plan : tick := Tick (fab example_env) None example_inputs (Writes None None []).
Definition outage : tick := Tick example_outage (Some example_plan) example_inputs (Writes None None []).

Definition example_slot : Z * string * string := (101, "10001", "198.18.0.3/32").

(** The route is installed, and closed when the plan is gone. *)
Example example_run :
  (let* st := run example_env [good] in Ok (dget st.2 example_slot)) =
    Ok (Some ["ip"; "route"; "replace"; "table"; "10001"; "198.18.0.3/32"; "encap"; "seg6"; "mode"; "encap"; "segs"; "fc00:0:3::1,fc00:0:2::d"; "dev"; "sr0"]) /\
  (let* st := run example_env [good; no_plan] in Ok (dget st.2 example_slot)) =
    Ok (Some ["ip"; "route"; "replace"; "unreachable"; "198.18.0.3/32"; "table"; "10001"]) /\
  (let* st := run example_env [good; outage] in Ok (dget st.2 example_slot)) =
    Ok (Some ["ip"; "route"; "replace"; "unreachable"; "198.18.0.3/32"; "table"; "10001"]).
Proof. vm_compute. split_and!; reflexivity. Qed.

Definition runs (e : env) (ticks : list tick) : bool := match run e ticks with Ok _ => true | Err _ => false end.

Lemma steering_fail_closed_witness :
  Workload.catalog example_config (Fabric.Fabric.gateways (fab example_env)) = Ok (flows example_env) /\
  exists m k, run example_env [good; outage; good; no_plan] = Ok (m, k) /\ honest example_env m k.
Proof.
  assert (Workload.catalog example_config (Fabric.Fabric.gateways (fab example_env)) = Ok (flows example_env)) as Hc by (vm_compute; reflexivity).
  split; [exact Hc|]. assert (runs example_env [good; outage; good; no_plan] = true) as Hr by (vm_compute; reflexivity). revert Hr. unfold runs.
  destruct (run example_env [good; outage; good; no_plan]) as [[m k]|x] eqn:E; intros Hr; [|discriminate Hr].
  exists m, k. split; [reflexivity|]. apply (steering_fail_closed example_config (Fabric.Fabric.gateways (fab example_env)) example_env [good; outage; good; no_plan] m k Hc); [discriminate|exact E].
Defined.

Definition example_key : string := "bulk-01-forward".

(** A failed write opens a gap in the fail-closed rule: when the second command of the first tick fails, the first route is
    in the kernel but not recorded as installed, so when the plan disappears the next tick publishes the direction as pending, writes nothing, and
    leaves the stale encapsulation in place. *)
Theorem partial_write_leaves_stale_route :
  exists m1 k1 m2 k2 s args,
    update example_env (Some example_plan) example_inputs (Writes (Some 1%nat) None []) initial [] = (m1, k1, Err (RuntimeError "wire operation failed")) /\
    update example_env None example_inputs (Writes None None []) m1 k1 = (m2, k2, Ok tt) /\
    dget k1 example_slot = Some args /\ dget (installed m1) example_key = None /\ k2 = k1 /\
    dget (states m2) example_key = Some s /\ status s = "pending" /\ dget k2 example_slot = Some args /\ ~ closed (Some args).
Proof.
  destruct (update example_env (Some example_plan) example_inputs (Writes (Some 1%nat) None []) initial []) as [[m1 k1] r1] eqn:E1.
  destruct (update example_env None example_inputs (Writes None None []) m1 k1) as [[m2 k2] r2] eqn:E2.
  vm_compute in E1. injection E1 as <- <- <-. vm_compute in E2. injection E2 as <- <- <-.
  do 6 eexists. split_and!; [reflexivity|reflexivity|vm_compute; reflexivity|reflexivity|reflexivity|vm_compute; reflexivity|reflexivity|vm_compute; reflexivity|]. done.
Qed.

End Workloads.
