(* ===== verification/WorkloadSetup.v ===== *)
(** * WorkloadSetup: endpoints, Ethernet services and speakers of the workloads (lab/live/workloads.py)

    [setup] gives the commands that create the endpoints and the policy rules; [setup_l2] the customer bridges of each
    EVPN instance; [setup_evpn_srv6] the configuration file of each gateway's speaker, which is the
    configuration [EvpnSpeaker] starts from. *)

From S2P Require Import Prelude Bytes Text Channel Fabric LiveModel EvpnCodec EvpnL2 EvpnSpeaker WorkloadModel Workloads.
#[local] Open Scope Z_scope.
#[local] Open Scope list_scope.

Module Setup.
Import Fabric.Fabric(fabric, locator, loopback, gateways, service, pid_of, command, add, run, if_).
Import Workload(flow, direction, directions, carrier, control, table, family, prefix_length, id, d_id, d_node, d_remote, d_source, d_target, f_number, source, destination).
Import Workloads(env, fab, flows, pids, n3_evpn, all_directions).

(** ** Endpoints and rules *)

(** The gateways of distributed flows; a Python set, here in first-seen order. *)
Definition distributed_nodes (fs : list flow) : list string :=
  set_of (map (fun fd : flow * direction => d_node fd.2) (List.filter (fun fd : flow * direction => String.eqb (control fd.1) "distributed") (all_directions fs))).

Definition endpoint_commands (fd : flow * direction) : list command :=
  let (f, d) := fd in
  let t := pretty (table f) in
  [run (d_node d) ["ip"; if family f =? 6 then "-6" else "-4"; "address"; "add"; d_source d +:+ ("/" +:+ pretty (prefix_length f)); "dev";
                   if String.eqb (control f) "distributed" then "wl-igp" else "svc0"]]
  ++ if_ (negb (mem (carrier f) ["native"; "ospf"; "ospf6"]))
      [run (d_node d) ["ip"; "route"; "replace"; "blackhole"; "default"; "table"; t; "metric"; "32760"];
       run (d_node d) ["ip"; "rule"; "add"; "pref"; pretty (1000 + f_number f); "from"; d_source d +:+ "/32"; "to"; d_target d +:+ "/32"; "lookup"; t]].

Definition setup_commands (e : env) : list command :=
  concat (map (fun n => [run n ["ip"; "link"; "add"; "wl-igp"; "type"; "dummy"]; run n ["ip"; "link"; "set"; "wl-igp"; "up"]]) (distributed_nodes (flows e)))
  ++ if_ (existsb (fun f => mem (carrier f) ["srv6"; "evpn-srv6"]) (flows e))
      (map (fun n => let* l := locator (fab e) n in
         Ok (n, ["ip"; "-6"; "route"; "replace"; l +:+ "d/128"; "encap"; "seg6local"; "action"; "End.DX4"; "nh4"; "0.0.0.0"; "dev"; "svc0"])) (gateways (fab e)))
  ++ concat (map endpoint_commands (all_directions (flows e))).

(** The commands of [setup], before the EVPN services. *)
Definition setup (e : env) : res (list Fabric.Fabric.job) := mapM_res (add (pids e)) (setup_commands e).

(** ** Ethernet services *)

Record l2_service := L2Service { evi : Z; io : string; bridge : string; l2_sid : string; container : string; l2_ipv4 : string; l2_ipv6 : string }.

(** [type(e) is int and 200 <= e <= 4094], without duplicates *)
Definition check_evis (v : json) : res (list Z) :=
  let bad := ValueError "evpn_l2_evis must be unique integers 200..4094" in
  match v with
  | JList l =>
      (* [set(evis)] of an element that has no hash *)
      raise TypeError when existsb (fun x => match x with JList _ | JDict _ => true | _ => false end) l ;;
      let* evis := mapM_res (fun x => or_raise bad (exact_int x)) l in
      raise bad when (len evis =? 0) || negb (bool_decide (NoDup evis)) || existsb (fun e => negb ((200 <=? e) && (e <=? 4094))) evis ;;
      Ok evis
  | _ => Err bad
  end.

(** The commands of one service on a gateway: [gw] and [ce] are the processes of its router and of its customer. *)
Definition l2_commands (gw ce : Z) (evi ordinal : Z) (sid : string) : list Fabric.Fabric.job :=
  let n := pretty evi in
  let bridge := "evb" +:+ n in
  let access := "eva" +:+ n in
  let port := "evp" +:+ n in
  let io := "evi" +:+ n in
  let job := Fabric.Fabric.Job in
  [job gw ["ip"; "link"; "add"; bridge; "type"; "bridge"];
   job gw ["ip"; "link"; "set"; bridge; "up"];
   job gw ["ip"; "link"; "add"; access; "type"; "veth"; "peer"; "name"; "cepeer"];
   job gw ["ip"; "link"; "set"; "cepeer"; "netns"; pretty ce];
   job ce ["ip"; "link"; "set"; "cepeer"; "name"; "eth0"];
   job gw ["ip"; "link"; "add"; port; "type"; "veth"; "peer"; "name"; io]]
  ++ concat (map (fun i => [job gw ["ip"; "link"; "set"; i; "master"; bridge]; job gw ["ip"; "link"; "set"; i; "up"]]) [access; port])
  ++ [job gw ["ip"; "link"; "set"; io; "up"]]
  ++ map (fun i => job gw ["sysctl"; "-qw"; "net.ipv6.conf." +:+ (i +:+ ".disable_ipv6=1")]) [bridge; access; port; io]
  ++ [job ce ["ip"; "link"; "set"; "eth0"; "address";
              "02:53:" +:+ (hex_pad 2 (Z.shiftr evi 8) +:+ (":" +:+ (hex_pad 2 (Z.land evi 255) +:+ (":00:" +:+ hex_pad 2 ordinal))))];
      job ce ["ip"; "link"; "set"; "eth0"; "mtu"; "1280"; "up"];
      job ce ["ip"; "address"; "add"; "192.0.2." +:+ (pretty ordinal +:+ "/24"); "dev"; "eth0"];
      job ce ["ip"; "-6"; "address"; "add"; "fd42:201::" +:+ (hex_str ordinal +:+ "/64"); "dev"; "eth0"; "nodad"];
      job gw ["ip"; "-6"; "route"; "replace"; sid +:+ "/128"; "encap"; "seg6local"; "action"; "End.DX2"; "oif"; io; "dev"; "sr0"]].

Definition setup_service (e : env) (router : string -> string) (ce_pid : string -> Z) (n : string) (v : Z) : res (l2_service * list Fabric.Fabric.job) :=
  let name := router ("ce-" +:+ (pretty v +:+ ("-" +:+ n))) in
  let* gw := pid_of (pids e) n in
  let* i := Fabric.Fabric.index_of n (gateways (fab e)) in
  let ordinal := i + 1 in
  let* l := locator (fab e) n in
  let sid := l +:+ hex_str (8192 + v) in
  Ok (L2Service v ("evi" +:+ pretty v) ("evb" +:+ pretty v) sid name ("192.0.2." +:+ pretty ordinal) ("fd42:201::" +:+ hex_str ordinal),
      l2_commands gw (ce_pid name) v ordinal sid).

(** [router] names a container and [ce_pid] is its process. *)
Definition setup_l2 (e : env) (evis : json) (router : string -> string) (ce_pid : string -> Z) : res (list (string * list l2_service) * list Fabric.Fabric.job) :=
  let* evis := check_evis evis in
  let* per := mapM_res (fun n => let* l := mapM_res (setup_service e router ce_pid n) evis in Ok (n, l)) (gateways (fab e)) in
  Ok (dict_of (map (fun nl : string * list (l2_service * list Fabric.Fabric.job) => (nl.1, map fst nl.2)) per), concat (map (fun nl => concat (map snd nl.2)) per)).

(** ** Speakers *)

Definition evpn_flows (e : env) : list flow := List.filter (fun f => String.eqb (carrier f) "evpn-srv6") (flows e).

Definition speaker_nodes (e : env) (l2 : list (string * list l2_service)) : list string :=
  sorted_strings (set_of (dkeys l2 ++ concat (map (fun f => [source f; destination f]) (evpn_flows e)))).

Record policy := Policy { exports : list string; imports : list (string * Speaker.import); export_sids : list (string * string) }.

(** [exports.add(x)], a set in first-seen order *)
Definition add_export (l : list string) (x : string) : list string := if mem x l then l else l ++ [x].

Definition import_from (e : env) (remote : string) (t : Z) : res Speaker.import :=
  let* l := locator (fab e) remote in Ok (Speaker.Import (l +:+ "ffff") (l +:+ "/64") [t]).

Definition flow_policy (e : env) (n : string) (p : policy) (fd : flow * direction) : res policy :=
  let (f, d) := fd in
  if negb (String.eqb (d_node d) n) then Ok p else
  let* i := import_from e (d_remote d) (table f) in
  Ok (Policy (add_export (exports p) (d_source d +:+ "/32")) (dset (imports p) (d_target d +:+ "/32") i) (export_sids p)).

Definition n3_policy (e : env) (n : string) (p : policy) (item : string * string * string * string) : res policy :=
  let '(src, dst, target, _) := item in
  let* p := if String.eqb n dst then
      let* l := locator (fab e) n in
      Ok (Policy (add_export (exports p) (target +:+ "/32")) (imports p) (dset (export_sids p) (target +:+ "/32") (l +:+ "4")))
    else Ok p in
  if String.eqb n src then
    let* i := import_from e dst 300 in
    Ok (Policy (exports p) (dset (imports p) (target +:+ "/32") i) (export_sids p))
  else Ok p.

Definition node_policy (e : env) (n : string) : res policy :=
  let* p := foldM (flow_policy e n) (Policy [] [] []) (all_directions (evpn_flows e)) in
  if n3_evpn e then foldM (n3_policy e n) p (service (fab e)) else Ok p.

Definition ethernet_service (s : l2_service) : Ethernet.service := Ethernet.Service (evi s) (io s) (l2_sid s).

(** The configuration file of a gateway's speaker. *)
Definition speaker_config (e : env) (l2 : list (string * list l2_service)) (nodes : list string) (n : string) : res Speaker.config :=
  let* p := node_policy e n in
  let* l := locator (fab e) n in
  let* r := loopback (fab e) n in
  let* peers := mapM_res (fun m => let* x := locator (fab e) m in Ok (x +:+ "ffff")) (List.filter (fun m => negb (String.eqb m n)) nodes) in
  Ok (Speaker.Config r (l +:+ "ffff") (l +:+ "d") (sorted_strings (exports p)) (export_sids p) (imports p) peers
        (map ethernet_service (default [] (dget l2 n)))).

Definition setup_evpn_srv6 (e : env) (l2 : list (string * list l2_service)) : res (list (string * Speaker.config)) :=
  let nodes := speaker_nodes e l2 in
  mapM_res (fun n => let* c := speaker_config e l2 nodes n in Ok (n, c)) nodes.

(** ** The SIDs of the platform are canonical addresses *)

(** [fc00:0:i::x] *)
Definition sid_value (i x : Z) : Z := 64512 * 2 ^ 112 + i * 2 ^ 80 + x.

Lemma sid_hextets i x : 0 <= i < 65536 -> 0 <= x < 65536 -> hextets (sid_value i x) = [64512; 0; i; 0; 0; 0; 0; x].
Proof.
  intros Hi Hx. unfold hextets, sid_value. cbn [map].
  repeat f_equal; Z.to_euclidean_division_equations; lia.
Qed.

Lemma sid_canonical i x : 1 <= i < 65536 -> 1 <= x < 65536 -> ("fc00:0:" +:+ (hex_str i +:+ "::")) +:+ hex_str x = ipv6_str (sid_value i x).
Proof.
  intros Hi Hx. unfold ipv6_str. rewrite sid_hextets by lia. unfold compress. rewrite map_map. cbn [map].
  rewrite !hex_str_zero by lia. replace (i =? 0) with false by lia. replace (x =? 0) with false by lia. cbn -[hex_str String.app].
  rewrite !append_assoc. done.
Qed.

Lemma sid_usable i x : 1 <= i < 65536 -> 1 <= x < 65536 -> Speaker.usable_sid (("fc00:0:" +:+ (hex_str i +:+ "::")) +:+ hex_str x).
Proof.
  intros Hi Hx. exists (sid_value i x). split; [by apply sid_canonical|]. unfold sid_value, is_multicast, is_unspecified. split_and!; [lia|lia| |].
  - apply Z.eqb_neq. intros H. Z.to_euclidean_division_equations. lia.
  - apply Z.eqb_neq. lia.
Qed.

(** ** Generated configurations *)

Definition host_prefix (x : string) : Prop := exists v, x = ipv4_str v +:+ "/32" /\ 0 <= v < 2 ^ 32.

Lemma locator_form f n l : Fabric.Fabric.built f -> locator f n = Ok l -> exists i, l = "fc00:0:" +:+ (hex_str i +:+ "::") /\ 1 <= i < 65536.
Proof.
  intros (O & P)%Fabric.Fabric.built_ok_plan. unfold locator. rewrite bind_Ok. intros (i & Hi & [= <-]). exists i. split; [done|].
  pose proof (Fabric.Fabric.ordinal_facts _ _ _ O P Hi). lia.
Qed.

(** A suffix of a locator, as a SID. *)
Lemma locator_sid f n l x : Fabric.Fabric.built f -> locator f n = Ok l -> 1 <= x < 65536 -> Speaker.usable_sid (l +:+ hex_str x).
Proof. intros Hb Hl Hx. destruct (locator_form _ _ _ Hb Hl) as (i & -> & Hi). by apply sid_usable. Qed.

Lemma usable_address x : Speaker.usable_sid x -> exists v, x = ipv6_str v /\ 0 <= v < 2 ^ 128.
Proof. intros (v & H1 & H2 & _). eauto. Qed.

Lemma add_export_Forall (P : string -> Prop) l x : Forall P l -> P x -> Forall P (add_export l x).
Proof. intros Hl Hx. unfold add_export. destruct (mem x l); [done|]. apply Forall_app. by repeat constructor. Qed.

Lemma elem_of_add_export l x y : y ∈ add_export l x <-> y ∈ l \/ y = x.
Proof. unfold add_export, mem. case_bool_decide; set_solver. Qed.

(** The endpoints of an EVPN flow are IPv4. *)
Lemma evpn_endpoint gs fs f d : Workload.flows_ok gs fs -> (f, d) ∈ all_directions fs -> String.eqb (carrier f) "evpn-srv6" = true -> host_prefix (d_source d +:+ "/32").
Proof.
  intros Hok (i & Hi & Hd)%Workloads.elem_of_all_directions Hc. cbn [fst snd] in *. destruct (Hok _ _ Hi) as [_ _ _ Hs Ht _].
  apply String.eqb_eq in Hc. rewrite Hc in Hs, Ht. change (String.eqb "evpn-srv6" "ospf6") with false in Hs, Ht. cbn [Workload.address] in Hs, Ht.
  apply (Fabric.Fabric.ip_Ok _ _ _ _ Workload.workload_base4) in Hs as [Hs Hs'], Ht as [Ht Ht'].
  unfold directions in Hd. rewrite !elem_of_cons in Hd. destruct Hd as [->|[->|[]%not_elem_of_nil]]; cbn [d_source]; [rewrite Hs|rewrite Ht]; by eexists.
Qed.

Lemma evpn_directions e fd : fd ∈ all_directions (evpn_flows e) -> fd ∈ all_directions (flows e) /\ String.eqb (carrier fd.1) "evpn-srv6" = true.
Proof.
  intros (i & Hi & Hd)%Workloads.elem_of_all_directions. apply list_elem_of_lookup_2 in Hi. unfold evpn_flows in Hi.
  apply list_elem_of_In, filter_In in Hi as [Hf Hc]. split; [|done]. apply Workloads.elem_of_all_directions.
  apply list_elem_of_In, list_elem_of_lookup in Hf as [j Hj]. eauto.
Qed.

Record policy_ok (p : policy) : Prop := {
  po_exports : Forall host_prefix (exports p);
  po_sids : Forall (fun ps : string * string => Speaker.usable_sid ps.2) (export_sids p) }.

Section Generated.
Context (e : env) (config : list (string * json)).
Context (Hbuilt : Fabric.Fabric.built (fab e)) (Hcat : Workload.catalog config (gateways (fab e)) = Ok (flows e)).

Lemma flow_policy_ok n p fd p' : fd ∈ all_directions (evpn_flows e) -> policy_ok p -> flow_policy e n p fd = Ok p' -> policy_ok p'.
Proof using Hcat.
  clear Hbuilt. intros [Hin Hc]%evpn_directions [H1 H2]. destruct fd as [f d]. unfold flow_policy. destruct (negb _); [by intros [= <-]|].
  rewrite bind_Ok. intros (i & _ & [= <-]). split; [|done]. simpl. apply add_export_Forall; [done|].
  destruct (Workload.catalog_ok _ _ _ Hcat) as (Hok & _ & _). by eapply evpn_endpoint.
Qed.

Lemma n3_policy_ok n p item p' : item ∈ service (fab e) -> policy_ok p -> n3_policy e n p item = Ok p' -> policy_ok p'.
Proof using Hbuilt.
  clear Hcat. intros Hin [H1 H2]. destruct item as [[[src dst] target] intent]. unfold n3_policy. rewrite bind_Ok. intros (p1 & Hp1 & H).
  assert (policy_ok p1) as [H3 H4].
  { destruct (String.eqb n dst); [|by injection Hp1 as <-]. apply bind_Ok in Hp1 as (l & Hl & [= <-]). split; simpl.
    - apply add_export_Forall; [done|]. unfold service in Hin. destruct (Fabric.Fabric.pair (fab e)). rewrite !elem_of_cons in Hin.
      destruct Hin as [[= -> -> -> ->]|[[= -> -> -> ->]|[]%not_elem_of_nil]]; [exists 2887122952|exists 2887122967]; (split; [vm_compute; reflexivity|lia]).
    - apply Forall_dset; [done|]. simpl. change "4" with (hex_str 4). by eapply locator_sid. }
  destruct (String.eqb n src); [|by injection H as <-]. apply bind_Ok in H as (i & _ & [= <-]). by split.
Qed.

Lemma node_policy_ok n p : node_policy e n = Ok p -> policy_ok p.
Proof using Hbuilt Hcat.
  unfold node_policy. rewrite bind_Ok. intros (p1 & H1 & H).
  apply (foldM_inv policy_ok) in H1; [|intros; by eapply flow_policy_ok|split; constructor].
  destruct (n3_evpn e); [|by injection H as <-]. apply (foldM_inv policy_ok) in H; [done|intros; by eapply n3_policy_ok|done].
Qed.

(** The services [setup_l2] creates. *)
Definition l2_ok (n : string) (s : l2_service) : Prop := 200 <= evi s <= 4094 /\ exists l, locator (fab e) n = Ok l /\ l2_sid s = l +:+ hex_str (8192 + evi s).

Lemma setup_l2_ok evis router ce_pid l2 js n s : setup_l2 e evis router ce_pid = Ok (l2, js) -> s ∈ default [] (dget l2 n) -> l2_ok n s.
Proof.
  clear Hbuilt Hcat. unfold setup_l2. rewrite bind_Ok. intros (vs & Hv & H). apply bind_Ok in H as (per & Hper & [= <- <-]).
  destruct (dget _ n) as [services|] eqn:E; [|intros []%not_elem_of_nil]. intros Hs. simpl in Hs.
  assert (forall v, v ∈ vs -> 200 <= v <= 4094) as Hrange.
  { revert Hv. unfold check_evis. destruct evis; try done. split_guard. rewrite bind_Ok. intros (l' & _ & H). revert H. split_guard. intros [= <-] v Hin.
    match goal with H : _ || _ = false |- _ => apply orb_false_elim in H as [_ He] end.
    destruct ((200 <=? v) && (v <=? 4094)) eqn:E'; [bool_to_prop; lia|]. rewrite <- not_true_iff_false, existsb_exists in He.
    destruct He. exists v. rewrite E'. split; [by apply list_elem_of_In|done]. }
  assert (Forall (fun nl : string * list l2_service => forall s, s ∈ nl.2 -> l2_ok nl.1 s)
    (map (fun nl : string * list (l2_service * list Fabric.Fabric.job) => (nl.1, map fst nl.2)) per)) as Hall.
  { clear E Hs. apply Forall_fmap. apply mapM_res_Ok in Hper. induction Hper as [|m nl ms per Hm _ IH]; [constructor|]. constructor; [|done].
    apply bind_Ok in Hm as (l & Hl & [= <-]). simpl. apply mapM_res_Ok in Hl. clear -Hl Hrange. intros s Hs.
    apply list_elem_of_In, in_map_iff in Hs as ([s' js] & <- & Hin%list_elem_of_In). apply list_elem_of_lookup in Hin as [k Hk].
    destruct (Forall2_lookup_r _ _ _ _ _ Hl Hk) as (v & Hv & Hs'). apply list_elem_of_lookup_2 in Hv. revert Hs'. unfold setup_service. rewrite bind_Ok.
    intros (gw & _ & H). apply bind_Ok in H as (i & _ & H). apply bind_Ok in H as (loc & Hloc & [= <- <-]). split; [by apply Hrange|]. by exists loc. }
  apply Forall_dict_of in Hall. rewrite Forall_forall in Hall. apply dget_Some_in in E. by apply (Hall _ E).
Qed.

(** Every configuration file the platform writes for a speaker is in the form the speaker's guarantees need: canonical router
    identifier and session address, usable unicast SIDs for the gateway, for its N3 exports and for its Ethernet services, IPv4 host prefixes and EVIs
    that fit their field. *)
Theorem speaker_configs_ok evis router ce_pid l2 js cs n c :
  setup_l2 e evis router ce_pid = Ok (l2, js) -> setup_evpn_srv6 e l2 = Ok cs -> (n, c) ∈ cs -> Speaker.config_ok c.
Proof using Hbuilt Hcat.
  intros Hl2 Hcs Hin. apply mapM_res_Ok in Hcs. apply list_elem_of_lookup in Hin as [k Hk].
  destruct (Forall2_lookup_r _ _ _ _ _ Hcs Hk) as (m & _ & Hm). apply bind_Ok in Hm as (c' & Hc & [= -> ->]).
  revert Hc. unfold speaker_config. rewrite bind_Ok. intros (p & Hp%node_policy_ok & H). apply bind_Ok in H as (l & Hl & H).
  apply bind_Ok in H as (r & Hr & H). apply bind_Ok in H as (peers & _ & [= <-]). destruct Hp as [He Hs]. split; simpl.
  - unfold loopback, Fabric.Fabric.loopback_in in Hr. apply bind_Ok in Hr as (i & _ & Hr).
    apply (Fabric.Fabric.ip_Ok "10.255.0.0" 184483840) in Hr as [-> Hb]; [|vm_compute; reflexivity]. by eexists.
  - apply usable_address. change "ffff" with (hex_str 65535). by eapply locator_sid.
  - change "d" with (hex_str 13). by eapply locator_sid.
  - done.
  - by rewrite sorted_strings_perm.
  - apply Forall_fmap, Forall_forall. intros s Hin. destruct (setup_l2_ok _ _ _ _ _ _ _ Hl2 Hin) as (Hr' & l' & Hl' & Hsid). simpl. split; [lia|].
    rewrite Hsid. eapply locator_sid; [done|done|lia].
Qed.

(** *** Imports and exports match *)

(** Gateway [m] announces [prefix]. *)
Definition announces (m prefix : string) : Prop :=
  (exists fd, fd ∈ all_directions (evpn_flows e) /\ d_node fd.2 = m /\ d_source fd.2 +:+ "/32" = prefix) \/
  (n3_evpn e = true /\ exists src target intent, (src, m, target, intent) ∈ service (fab e) /\ target +:+ "/32" = prefix).

Lemma flow_exports n ds p p' x : foldM (flow_policy e n) p ds = Ok p' ->
  x ∈ exports p \/ (exists fd, fd ∈ ds /\ d_node fd.2 = n /\ d_source fd.2 +:+ "/32" = x) -> x ∈ exports p'.
Proof.
  clear Hbuilt Hcat. revert p. induction ds as [|[f d] ds IH]; intros p; cbn [foldM]; [intros [= <-]; set_solver|].
  rewrite bind_Ok. intros (p1 & H1 & H2) Hx. apply (IH _ H2). revert H1. unfold flow_policy.
  destruct (String.eqb_spec (d_node d) n) as [Hn|Hn]; cbn [negb].
  - rewrite bind_Ok. intros (i & _ & [= <-]). simpl. rewrite elem_of_add_export. destruct Hx as [Hx|(fd & Hfd & Hx)]; [auto|].
    apply elem_of_cons in Hfd as [->|Hfd]; [destruct Hx as [_ Hx]; auto|]. right. eauto.
  - intros [= <-]. destruct Hx as [Hx|(fd & Hfd & Hm & Hx)]; [auto|]. apply elem_of_cons in Hfd as [->|Hfd]; [done|]. right. eauto.
Qed.

Lemma n3_exports n items p p' x : foldM (n3_policy e n) p items = Ok p' ->
  x ∈ exports p \/ (exists src target intent, (src, n, target, intent) ∈ items /\ target +:+ "/32" = x) -> x ∈ exports p'.
Proof.
  clear Hbuilt Hcat. revert p. induction items as [|[[[src dst] target] intent] items IH]; intros p; cbn [foldM]; [intros [= <-]; set_solver|].
  rewrite bind_Ok. intros (p1 & H1 & H2) Hx. apply (IH _ H2). revert H1. unfold n3_policy. rewrite bind_Ok. intros (p2 & Hp2 & H).
  assert (exports p1 = exports p2) as ->. { destruct (String.eqb n src); [|by injection H as <-]. by apply bind_Ok in H as (i & _ & [= <-]). }
  destruct (String.eqb_spec n dst) as [->|Hn].
  - apply bind_Ok in Hp2 as (l & _ & [= <-]). simpl. rewrite elem_of_add_export. destruct Hx as [Hx|(a & b & c & Hin & Hx)]; [auto|].
    apply elem_of_cons in Hin as [[= -> -> ->]|Hin]; [auto|]. right. eauto 10.
  - injection Hp2 as <-. destruct Hx as [Hx|(a & b & c & Hin & Hx)]; [auto|]. apply elem_of_cons in Hin as [[= -> -> -> ->]|Hin]; [done|]. right. eauto 10.
Qed.

Lemma announces_exported m prefix p : announces m prefix -> node_policy e m = Ok p -> prefix ∈ exports p.
Proof.
  clear Hbuilt Hcat. intros Ha. unfold node_policy. rewrite bind_Ok. intros (p1 & H1 & H). destruct (n3_evpn e) eqn:E.
  - apply (n3_exports _ _ _ _ _ H). destruct Ha as [Ha|[_ Ha]]; [left; eapply (flow_exports _ _ _ _ _ H1); by right|by right].
  - injection H as <-. destruct Ha as [Ha|[? _]]; [|congruence]. eapply (flow_exports _ _ _ _ _ H1). by right.
Qed.

(** Where an import comes from. *)
Definition matched (n prefix : string) (i : Speaker.import) : Prop :=
  exists m l, m <> n /\ announces m prefix /\ locator (fab e) m = Ok l /\ Speaker.i_peer i = l +:+ "ffff" /\ Speaker.locator i = l +:+ "/64".

Context (Hpair : (Fabric.Fabric.pair (fab e)).1 <> (Fabric.Fabric.pair (fab e)).2).

Lemma import_matched n m prefix t i : m <> n -> announces m prefix -> import_from e m t = Ok i -> matched n prefix i.
Proof. intros Hne Ha. unfold import_from. rewrite bind_Ok. intros (l & Hl & [= <-]). exists m, l. by split_and!. Qed.

Lemma opposite f d : (f, d) ∈ all_directions (evpn_flows e) -> d_remote d <> d_node d /\ announces (d_remote d) (d_target d +:+ "/32").
Proof using Hcat.
  clear Hbuilt Hpair. intros Hin. pose proof Hin as [(i & Hi & Hd)%Workloads.elem_of_all_directions _]%evpn_directions.
  destruct (Workload.catalog_ok _ _ _ Hcat) as (Hok & _ & _). destruct (Hok _ _ Hi) as [_ _ (_ & _ & Hne) _ _ _]. cbn [fst snd] in *.
  apply Workloads.elem_of_all_directions in Hin as (j & Hj & _). cbn [fst] in Hj.
  assert (forall d', d' ∈ directions f -> (f, d') ∈ all_directions (evpn_flows e)) as Hother.
  { intros d' Hd'. apply Workloads.elem_of_all_directions. eauto. }
  unfold directions in Hd, Hother. rewrite !elem_of_cons in Hd. destruct Hd as [->|[->|[]%not_elem_of_nil]]; simpl; (split; [congruence|]); left.
  - eexists (f, _). split; [apply Hother; right; left|done].
  - eexists (f, _). split; [apply Hother; left|done].
Qed.

Lemma flow_policy_matched n p fd p' : fd ∈ all_directions (evpn_flows e) -> Forall (fun xi => matched n xi.1 xi.2) (imports p) ->
  flow_policy e n p fd = Ok p' -> Forall (fun xi => matched n xi.1 xi.2) (imports p').
Proof using Hcat.
  clear Hbuilt Hpair. intros Hin Hp. destruct fd as [f d]. unfold flow_policy. destruct (String.eqb_spec (d_node d) n) as [<-|Hn]; cbn [negb]; [|by intros [= <-]].
  rewrite bind_Ok. intros (i & Hi & [= <-]). simpl. apply Forall_dset; [done|]. destruct (opposite _ _ Hin) as [Hne Ha]. by eapply import_matched.
Qed.

Lemma n3_policy_matched n p item p' : n3_evpn e = true -> item ∈ service (fab e) -> Forall (fun xi => matched n xi.1 xi.2) (imports p) ->
  n3_policy e n p item = Ok p' -> Forall (fun xi => matched n xi.1 xi.2) (imports p').
Proof using Hpair.
  clear Hbuilt Hcat. intros Hn3 Hin Hp. destruct item as [[[src dst] target] intent]. unfold n3_policy. rewrite bind_Ok. intros (p2 & Hp2 & H).
  assert (imports p2 = imports p) as E. { destruct (String.eqb n dst); [|by injection Hp2 as <-]. by apply bind_Ok in Hp2 as (l & _ & [= <-]). }
  destruct (String.eqb_spec n src) as [->|Hn]; [|injection H as <-; by rewrite E]. apply bind_Ok in H as (i & Hi & [= <-]). simpl. rewrite E.
  apply Forall_dset; [done|]. simpl. eapply import_matched; [| |exact Hi].
  - unfold service in Hin. destruct (Fabric.Fabric.pair (fab e)) as [a b]. simpl in Hpair. rewrite !elem_of_cons, elem_of_nil in Hin. naive_solver.
  - right. split; [done|]. eauto 10.
Qed.

Lemma node_policy_matched n p : node_policy e n = Ok p -> Forall (fun xi => matched n xi.1 xi.2) (imports p).
Proof using Hcat Hpair.
  clear Hbuilt. unfold node_policy. rewrite bind_Ok. intros (p1 & H1 & H).
  apply (foldM_inv (fun p => Forall (fun xi => matched n xi.1 xi.2) (imports p))) in H1; [|intros; by eapply flow_policy_matched|constructor].
  destruct (n3_evpn e) eqn:E; [|by injection H as <-].
  apply (foldM_inv (fun p => Forall (fun xi => matched n xi.1 xi.2) (imports p))) in H; [done|intros; by eapply n3_policy_matched|done].
Qed.

(** The speakers' configurations fit together: whatever a gateway may import has, among the speakers, a gateway that announces it; the
    import names the session address of that gateway and its locator, and the session is configured. *)
Theorem speakers_agree l2 cs n c prefix imp :
  setup_evpn_srv6 e l2 = Ok cs -> (n, c) ∈ cs -> dget (Speaker.imports c) prefix = Some imp ->
  (forall m, announces m prefix -> m ∈ speaker_nodes e l2) ->
  exists m c' l, (m, c') ∈ cs /\ m <> n /\ prefix ∈ Speaker.c_exports c' /\ Speaker.address c' = Speaker.i_peer imp /\
    Speaker.i_peer imp ∈ Speaker.peers c /\ locator (fab e) m = Ok l /\ Speaker.locator imp = l +:+ "/64".
Proof using Hcat Hpair.
  clear Hbuilt. intros Hcs Hin Himp Hnodes. pose proof Hcs as Hall. apply mapM_res_Ok in Hall. apply list_elem_of_lookup in Hin as [k Hk].
  destruct (Forall2_lookup_r _ _ _ _ _ Hall Hk) as (n' & _ & Hn). apply bind_Ok in Hn as (c0 & Hc & [= -> ->]).
  revert Hc. unfold speaker_config. rewrite bind_Ok. intros (p & Hp & H). apply bind_Ok in H as (l0 & _ & H).
  apply bind_Ok in H as (r & _ & H). apply bind_Ok in H as (ps & Hps & [= <-]). simpl in *.
  pose proof (node_policy_matched _ _ Hp) as Hm. rewrite Forall_forall in Hm. apply dget_Some_in, Hm in Himp as (m & l & Hne & Ha & Hl & Hpeer & Hloc). simpl in *.
  destruct (Fabric.Fabric.mapM_res_elem _ _ _ m Hcs (Hnodes m Ha)) as ([m' c'] & Hc' & Hin'). apply bind_Ok in Hc' as (c1 & Hc1 & [= <- <-]).
  exists m, c1, l. revert Hc1. unfold speaker_config. rewrite bind_Ok. intros (p' & Hp' & H'). apply bind_Ok in H' as (l1 & Hl1 & H').
  apply bind_Ok in H' as (r' & _ & H'). apply bind_Ok in H' as (ps' & _ & [= <-]). simpl. rewrite Hl in Hl1. injection Hl1 as <-. split_and!; try done.
  - rewrite sorted_strings_perm. by eapply announces_exported.
  - rewrite Hpeer. destruct (Fabric.Fabric.mapM_res_elem _ _ _ m Hps) as (y & Hy & Hyin).
    { apply list_elem_of_In, filter_In. split; [by apply list_elem_of_In, Hnodes|]. apply negb_true_iff. by apply String.eqb_neq. }
    rewrite Hl in Hy. simpl_res. by injection Hy as <-.
Qed.

End Generated.

(** ** Example: one EVPN flow and one Ethernet service *)

Definition example_config : list (string * json) :=
  [("schema_version", JInt 1); ("enabled", JBool true); ("copies_per_profile", JInt 1); ("profiles", JList [Workload.example_profile "site" "evpn-srv6" "hybrid"])].

Definition example_env : env :=
  Workloads.Env Fabric.Fabric.example_fabric (Live.or_else [] (Workload.catalog example_config (gateways Fabric.Fabric.example_fabric)))
    [("gw-a", 101); ("gw-b", 102); ("sat", 103)] "sf-unified-1" 10 true [].

Definition example_l2 : res (list (string * list l2_service) * list Fabric.Fabric.job) :=
  setup_l2 example_env (JList [JInt 201]) (fun n => "sf-" +:+ n) (fun _ => 900).

Definition l2_table : list (string * list l2_service) := match example_l2 with Ok (t, _) => t | Err _ => [] end.

Definition l2_jobs : list Fabric.Fabric.job := match example_l2 with Ok (_, js) => js | Err _ => [] end.

Definition example_speaker : Speaker.config :=
  Speaker.Config "10.255.0.1" "fc00:0:1::ffff" "fc00:0:1::d" ["172.22.0.23/32"; "198.18.0.2/32"] [("172.22.0.23/32", "fc00:0:1::4")]
    [("198.18.0.3/32", Speaker.Import "fc00:0:2::ffff" "fc00:0:2::/64" [10001]); ("172.22.0.8/32", Speaker.Import "fc00:0:2::ffff" "fc00:0:2::/64" [300])]
    ["fc00:0:2::ffff"] [Ethernet.Service 201 "evi201" "fc00:0:1::20c9"].

Definition example_speakers : list (string * Speaker.config) := Live.or_else [] (setup_evpn_srv6 example_env l2_table).

Lemma speaker_configs_ok_witness :
  setup_evpn_srv6 example_env l2_table = Ok example_speakers /\ dget example_speakers "gw-a" = Some example_speaker /\ Speaker.config_ok example_speaker.
Proof.
  assert (setup_evpn_srv6 example_env l2_table = Ok example_speakers) as Hs by (vm_compute; reflexivity).
  assert (dget example_speakers "gw-a" = Some example_speaker) as Hg by (vm_compute; reflexivity).
  split; [exact Hs|]. split; [exact Hg|].
  apply (speaker_configs_ok example_env example_config Fabric.Fabric.example_built ltac:(vm_compute; reflexivity)
    (JList [JInt 201]) (fun n => "sf-" +:+ n) (fun _ => 900) l2_table l2_jobs example_speakers "gw-a").
  - vm_compute. reflexivity.
  - exact Hs.
  - by apply dget_Some_in.
Defined.

Lemma speakers_agree_witness :
  exists m c' l, (m, c') ∈ example_speakers /\ m <> "gw-a" /\ "198.18.0.3/32" ∈ Speaker.c_exports c' /\ Speaker.address c' = "fc00:0:2::ffff" /\
    "fc00:0:2::ffff" ∈ Speaker.peers example_speaker /\ locator (fab example_env) m = Ok l /\ "fc00:0:2::/64" = l +:+ "/64".
Proof.
  apply (speakers_agree example_env example_config ltac:(vm_compute; reflexivity) ltac:(vm_compute; discriminate)
    l2_table example_speakers "gw-a" example_speaker "198.18.0.3/32" (Speaker.Import "fc00:0:2::ffff" "fc00:0:2::/64" [10001])).
  - vm_compute. reflexivity.
  - apply dget_Some_in. vm_compute. reflexivity.
  - vm_compute. reflexivity.
  - intros m [(fd & Hfd & <- & _)|[_ (src & target & intent & Hin & _)]].
    + apply (bool_decide_unpack (d_node fd.2 ∈ speaker_nodes example_env l2_table)).
      revert fd Hfd. apply Forall_forall. vm_compute. repeat constructor.
    + assert (Forall (fun it : string * string * string * string => bool_decide (it.1.1.2 ∈ speaker_nodes example_env l2_table)) (service (fab example_env))) as Hall
        by (vm_compute; repeat constructor).
      rewrite Forall_forall in Hall. exact (bool_decide_unpack _ (Hall _ Hin)).
Defined.

End Setup.
