(* ===== verification/Regex.v ===== *)
(** * Regex: [re.fullmatch] by derivatives

    The guards of the worker and of the bridge are regular expressions over ASCII: literals, character
    classes, alternatives, optional and repeated parts.  [fullmatch] decides the language that [matches] defines. *)

From S2P Require Import Prelude Bytes Text.
#[local] Open Scope Z_scope.

Module Regex.

(** ** Syntax *)

Inductive re :=
| Void
| Eps
| Chr (p : ascii -> bool)
| Cat (r s : re)
| Alt (r s : re)
| Star (r : re).

Inductive matches : re -> string -> Prop :=
| m_eps : matches Eps ""
| m_chr p c : p c = true -> matches (Chr p) (String c "")
| m_cat r s x y : matches r x -> matches s y -> matches (Cat r s) (x +:+ y)
| m_left r s x : matches r x -> matches (Alt r s) x
| m_right r s x : matches s x -> matches (Alt r s) x
| m_stop r : matches (Star r) ""
| m_more r x y : matches r x -> matches (Star r) y -> matches (Star r) (x +:+ y).

#[local] Hint Constructors matches : core.

(** [(?:r)?], [r+], a literal, [(?:a|b|..)] *)
Definition opt (r : re) : re := Alt r Eps.
Definition plus (r : re) : re := Cat r (Star r).

Fixpoint lit (s : string) : re :=
  match s with "" => Eps | String c s' => Cat (Chr (Ascii.eqb c)) (lit s') end.

Fixpoint alts (l : list string) : re := match l with [] => Void | s :: l' => Alt (lit s) (alts l') end.

(** The concatenation of a list of parts. *)
Fixpoint cats (l : list re) : re := match l with [] => Eps | r :: l' => Cat r (cats l') end.

(** ** Derivatives *)

Fixpoint nullable (r : re) : bool :=
  match r with
  | Void | Chr _ => false
  | Eps | Star _ => true
  | Cat r s => nullable r && nullable s
  | Alt r s => nullable r || nullable s
  end.

Definition cat (r s : re) : re := match r with Void => Void | Eps => s | _ => match s with Void => Void | _ => Cat r s end end.

Definition alt (r s : re) : re := match r, s with Void, _ => s | _, Void => r | _, _ => Alt r s end.

Fixpoint deriv (c : ascii) (r : re) : re :=
  match r with
  | Void | Eps => Void
  | Chr p => if p c then Eps else Void
  | Cat r s => let d := cat (deriv c r) s in if nullable r then alt d (deriv c s) else d
  | Alt r s => alt (deriv c r) (deriv c s)
  | Star r => cat (deriv c r) (Star r)
  end.

(** [re.fullmatch(r, s) is not None] *)
Fixpoint fullmatch (r : re) (s : string) : bool :=
  match s with "" => nullable r | String c s' => fullmatch (deriv c r) s' end.

(** ** [fullmatch] decides [matches] *)

Lemma nullable_matches r : nullable r = true <-> matches r "".
Proof.
  induction r as [| |p|r IHr s IHs|r IHr s IHs|r IHr]; simpl.
  - split; [done|]. inversion 1.
  - split; auto.
  - split; [done|]. inversion 1.
  - rewrite andb_true_iff, IHr, IHs. split; [intros [Hr Hs]; by apply (m_cat _ _ _ _ Hr Hs)|].
    inversion 1 as [| |? ? x y Hx Hy E| | | |]; subst. destruct x, y; try discriminate. done.
  - rewrite orb_true_iff, IHr, IHs. split; [intros []; auto|]. inversion 1; subst; auto.
  - split; auto.
Qed.

Lemma cat_matches r s x : matches (cat r s) x <-> matches (Cat r s) x.
Proof.
  destruct r; simpl; try (destruct s; simpl; try done; split; [by inversion 1|inversion 1 as [| |? ? y z Hy Hz| | | |]; subst; inversion Hz]).
  - split; [by inversion 1|]. inversion 1 as [| |? ? y z Hy Hz| | | |]; subst. inversion Hy.
  - split; [intros H; by apply (m_cat Eps s "" x)|]. inversion 1 as [| |? ? y z Hy Hz| | | |]; subst. by inversion Hy.
Qed.

Lemma alt_matches r s x : matches (alt r s) x <-> matches (Alt r s) x.
Proof.
  destruct r; simpl; try (destruct s; simpl; try done; split; [auto|inversion 1 as [| | | |? ? ? H'| |]; subst; [done|inversion H']]).
  split; [auto|]. inversion 1 as [| | |? ? ? H'| | |]; subst; [inversion H'|done].
Qed.

(** A word of a repetition that is not empty has a first part that is not empty. *)
Lemma star_cons r c x : matches (Star r) (String c x) <-> exists y z, x = y +:+ z /\ matches r (String c y) /\ matches (Star r) z.
Proof.
  split; [|intros (y & z & -> & Hy & Hz); by apply (m_more _ (String c y) z)].
  remember (Star r) as t eqn:Et. remember (String c x) as w eqn:Ew. intros H. revert c x Ew Et.
  induction H as [| | | | | |r' y z Hy _ Hz IHz]; intros c1 x1 Ew Et; try discriminate. injection Et as ->.
  destruct y as [|c' y]; [by apply IHz|]. injection Ew as -> <-. by exists y, z.
Qed.

Lemma deriv_matches c r x : matches (deriv c r) x <-> matches r (String c x).
Proof.
  revert x. induction r as [| |p|r IHr s IHs|r IHr s IHs|r IHr]; intros x; simpl.
  - split; inversion 1.
  - split; inversion 1.
  - destruct (p c) eqn:E; split; inversion 1; subst; auto. congruence.
  - assert (matches (Cat r s) (String c x) <-> matches (Cat (deriv c r) s) x \/ nullable r = true /\ matches (deriv c s) x) as ->.
    { split.
      - intros H. remember (String c x) as w eqn:E. inversion H as [| |? ? y z Hy Hz| | | |]; subst. destruct y as [|c' y].
        + right. rewrite nullable_matches, IHs. match goal with E : _ +:+ z = _ |- _ => rewrite <- E end. by split.
        + left. match goal with E : _ +:+ z = _ |- _ => injection E as -> <- end. constructor; [by apply IHr|done].
      - intros [H|[Hn H]].
        + inversion H as [| |? ? y z Hy Hz E| | | |]; subst. apply IHr in Hy. by apply (m_cat _ _ (String c y) z).
        + apply nullable_matches in Hn. apply IHs in H. by apply (m_cat _ _ "" (String c x)). }
    destruct (nullable r).
    + rewrite alt_matches. split.
      * inversion 1; subst; [left; by apply cat_matches|by right].
      * intros [H|[_ H]]; [apply m_left; by apply cat_matches|by apply m_right].
    + rewrite cat_matches. intuition congruence.
  - rewrite alt_matches. split; inversion 1; subst; [apply m_left; by apply IHr|apply m_right; by apply IHs|apply m_left; by apply IHr|apply m_right; by apply IHs].
  - rewrite cat_matches, star_cons. split.
    + inversion 1 as [| |? ? y z Hy Hz| | | |]; subst. exists y, z. by rewrite <- IHr.
    + intros (y & z & -> & Hy & Hz). constructor; [by apply IHr|done].
Qed.

(** The matcher of the guards decides the regular language: it terminates on every string and accepts exactly the strings of the
    expression. *)
Theorem fullmatch_decides r s : fullmatch r s = true <-> matches r s.
Proof. revert r. induction s as [|c s IH]; intros r; simpl; [apply nullable_matches|]. by rewrite IH, deriv_matches. Qed.

(** ** Words of the parts *)

Lemma fullmatch_ok r s : matches r s -> fullmatch r s = true.
Proof. revert r. induction s as [|c s IH]; intros r H; simpl; [by apply nullable_matches|]. by apply IH, deriv_matches. Qed.

Lemma fullmatch_inv r s : fullmatch r s = true -> matches r s.
Proof. revert r. induction s as [|c s IH]; intros r; simpl; [apply nullable_matches|]. intros H%IH. by apply deriv_matches. Qed.

Lemma lit_matches s : matches (lit s) s.
Proof. induction s as [|c s IH]; simpl; [done|]. apply (m_cat _ _ (String c "") s); [constructor; apply Ascii.eqb_refl|done]. Qed.

Lemma alts_matches l s : s ∈ l -> matches (alts l) s.
Proof. induction 1; simpl; [apply m_left, lit_matches|by apply m_right]. Qed.

Lemma star_class p s : all_chars p s = true -> matches (Star (Chr p)) s.
Proof.
  induction s as [|c s IH]; simpl; [done|]. intros [Hc Hs]%andb_true_iff.
  apply (m_more _ (String c "") s); auto.
Qed.

Lemma plus_class p s : s <> "" -> all_chars p s = true -> matches (plus (Chr p)) s.
Proof.
  destruct s as [|c s]; [done|]. intros _. simpl. intros [Hc Hs]%andb_true_iff.
  apply (m_cat _ _ (String c "") s); [auto|by apply star_class].
Qed.

Lemma opt_none r : matches (opt r) "".
Proof. by apply m_right. Qed.

Lemma opt_some r s : matches r s -> matches (opt r) s.
Proof. by apply m_left. Qed.

(** The characters an expression can read. *)
Fixpoint reads (p : ascii -> bool) (r : re) : Prop :=
  match r with
  | Void | Eps => True
  | Chr q => forall c, q c = true -> p c = true
  | Cat r s | Alt r s => reads p r /\ reads p s
  | Star r => reads p r
  end.

Lemma matches_reads p r s : reads p r -> matches r s -> all_chars p s = true.
Proof.
  intros Hr H. induction H as [|q c Hc|r s x y _ IHr _ IHs|r s x _ IH|r s x _ IH|r|r x y _ IHr _ IHs]; simpl in Hr; try done.
  - simpl. rewrite (Hr c Hc). done.
  - rewrite all_chars_app, IHr, IHs by tauto. done.
  - apply IH. tauto.
  - apply IH. tauto.
  - rewrite all_chars_app, IHr, IHs by done. done.
Qed.

Lemma reads_lit p s : all_chars p s = true -> reads p (lit s).
Proof.
  induction s as [|c s IH]; simpl; [done|]. intros [Hc Hs]%andb_true_iff. split; [|by apply IH]. intros c' H%Ascii.eqb_eq. by subst.
Qed.

Lemma reads_cats p l : Forall (reads p) l -> reads p (cats l).
Proof. by induction 1. Qed.

Lemma reads_opt p r : reads p r -> reads p (opt r).
Proof. done. Qed.

Lemma reads_plus p q : (forall c, q c = true -> p c = true) -> reads p (plus (Chr q)).
Proof. by intros H. Qed.

Lemma reads_alts p l : Forall (fun s => all_chars p s = true) l -> reads p (alts l).
Proof. induction 1; simpl; [done|]. split; [by apply reads_lit|done]. Qed.

(** The parts of a word, one after the other. *)
Lemma cats_nil : matches (cats []) "".
Proof. constructor. Qed.

Lemma cats_cons r l x y : matches r x -> matches (cats l) y -> matches (cats (r :: l)) (x +:+ y).
Proof. by constructor. Qed.

Lemma cats_lit s l y : matches (cats l) y -> matches (cats (lit s :: l)) (s +:+ y).
Proof. intros H. apply cats_cons; [apply lit_matches|done]. Qed.

Lemma cats_class p l x y : x <> "" -> all_chars p x = true -> matches (cats l) y -> matches (cats (plus (Chr p) :: l)) (x +:+ y).
Proof. intros Hne Hx H. apply cats_cons; [by apply plus_class|done]. Qed.

Lemma cats_skip r l y : matches (cats l) y -> matches (cats (opt r :: l)) y.
Proof. intros H. by apply (cats_cons _ _ "" y (opt_none r)). Qed.

Lemma cats_take r l x y : matches r x -> matches (cats l) y -> matches (cats (opt r :: l)) (x +:+ y).
Proof. intros Hx H. apply cats_cons; [by apply opt_some|done]. Qed.

End Regex.
