(* ===== verification/PhysicsJobs.v ===== *)
(** * PhysicsJobs: channel operations of the fleet (lab/platform/physics_jobs.py)

    [apply] runs the commands of one node, neighbouring [tc qdisc] and [ip link set] commands as one [-batch] call;
    [execute] runs the nodes in parallel, with a barrier between withdrawals, shaping, activations and readings.
    What a program answers is the argument [outcome]; a parallel phase is any interleaving of the nodes' commands. *)

From S2P Require Import Prelude Bytes Text Channel.
#[local] Open Scope Z_scope.
#[local] Open Scope list_scope.

Module Jobs.

Definition words : Type := list string.

(** ** Phases *)

(** [args[:len(p)] == p] *)
Definition starts (p a : words) : bool := bool_decide (take (length p) a = p).

Definition observation (a : words) : bool := starts ["tc"; "-j"; "-s"] a || starts ["ip"; "-j"; "link"; "show"] a || starts ["sysctl"; "-n"] a.

Inductive phase := Down | Shape | Up | Read.

#[global] Instance phase_eq : EqDecision phase.
Proof. solve_decision. Defined.

Definition phase_of (a : words) : phase :=
  if observation a then Read
  else if starts ["ip"; "link"; "set"] a then
    match list.last a with
    | Some w => if String.eqb w "down" then Down else if String.eqb w "up" then Up else Shape
    | None => Shape
    end
  else Shape.

(** ** One node *)

Record job := Job { name : string; pid : Z; commands : list words }.

(** A program started in the namespace of a process, with its standard input. *)
Record call := Call { c_pid : Z; c_args : words; c_payload : option string }.

(** The commands that are batched, by their prefix. *)
Definition batch_prefix (a : words) : option words :=
  if starts ["tc"; "qdisc"] a || starts ["ip"; "link"; "set"] a
  then Some (if String.eqb (hd "" a) "tc" then ["tc"; "qdisc"] else ["ip"; "link"; "set"]) else None.

Definition newline : string := String (ch 10) "".

Definition batch_text (l : list words) : string := join newline (map (join " ") l) +:+ newline.

(** The longest prefix of [l] that satisfies [p], and the rest. *)
Fixpoint span {A} (p : A -> bool) (l : list A) : list A * list A :=
  match l with
  | [] => ([], [])
  | x :: l' => if p x then let (a, b) := span p l' in (x :: a, b) else ([], l)
  end.

(** The loop over [commands]: each turn takes one command, or a run of them. *)
Fixpoint calls_go (fuel : nat) (p : Z) (cs : list words) : list call :=
  match fuel, cs with
  | S fuel', a :: rest =>
      match batch_prefix a with
      | Some prefix =>
          let (run, rest') := span (starts prefix) rest in
          Call p [hd "" a; "-batch"; "-"] (Some (batch_text (map (drop 1) (a :: run)))) :: calls_go fuel' p rest'
      | None => Call p a None :: calls_go fuel' p rest
      end
  | _, _ => []
  end.

Definition calls (p : Z) (cs : list words) : list call := calls_go (length cs) p cs.

(** What the calls read back from an interface. *)
Record record := Record_ { interface : string; qdisc : option json; link : option json; rp_filter : option json }.

(** [json.loads(..)[0]] of a list *)
Definition first_item (v : json) : res json :=
  match v with JList (x :: _) => Ok x | JList [] => Err IndexError | JDict _ => Err KeyError | _ => Err TypeError end.

(** [args[-1].split('.')[-2]] *)
Definition sysctl_interface (w : string) : res string :=
  let parts := split_on dot w in
  match rev parts with _ :: i :: _ => Ok i | _ => Err IndexError end.

Definition fresh (i : string) : record := Record_ i None None None.

(** [records.setdefault(i, {'interface': i})[..] = ..] *)
Definition update (rs : list (string * record)) (i : string) (f : record -> record) : list (string * record) :=
  dset rs i (f (default (fresh i) (dget rs i))).

(** [v] is the parsed output of the program. *)
Definition record_of (rs : list (string * record)) (a : words) (v : json) : res (list (string * record)) :=
  let last := default "" (list.last a) in
  let rs := if starts ["tc"; "-j"; "-s"] a then update rs last (fun r => Record_ (interface r) (Some v) (link r) (rp_filter r)) else rs in
  let* rs := if starts ["ip"; "-j"; "link"; "show"] a
    then let* x := first_item v in Ok (update rs last (fun r => Record_ (interface r) (qdisc r) (Some x) (rp_filter r))) else Ok rs in
  if starts ["sysctl"; "-n"] a
  then let* i := sysctl_interface last in Ok (update rs i (fun r => Record_ (interface r) (qdisc r) (link r) (Some v)))
  else Ok rs.

(** A call succeeds with its parsed output, or fails after some of the lines of its batch took effect. *)
Inductive result := Done (v : json) | Failed (x : exn) (lines : nat).

(** The words of a line, and the commands of a call: those of its batch, or the call itself. *)
Definition line_words (s : string) : words := List.filter (fun w => negb (String.eqb w "")) (split_on (ch 32) s).

Definition expand (c : call) : list (Z * words) :=
  match c_payload c with
  | None => [(c_pid c, c_args c)]
  | Some text => map (fun line => (c_pid c, hd "" (c_args c) :: line_words line)) (List.filter (fun l => negb (String.eqb l "")) (split_on (ch 10) text))
  end.

(** The calls of a node: the commands that took effect, and the records. *)
Fixpoint run_calls (outcome : call -> result) (rs : list (string * record)) (cs : list call) : list (Z * words) * res (list (string * record)) :=
  match cs with
  | [] => ([], Ok rs)
  | c :: cs' =>
      match outcome c with
      | Failed x n => (take n (expand c), Err x)
      | Done v =>
          match record_of rs (c_args c) v with
          | Err x => (expand c, Err x)
          | Ok rs' => let (t, r) := run_calls outcome rs' cs' in (expand c ++ t, r)
          end
      end
  end.

Definition apply (outcome : call -> result) (j : job) : list (Z * words) * res (string * list record) :=
  let (t, r) := run_calls outcome [] (calls (pid j) (commands j)) in
  (t, let* rs := r in Ok (name j, dvalues rs)).

(** ** The fleet *)

(** [t] interleaves the lists [ts]. *)
Inductive merge {A} : list (list A) -> list A -> Prop :=
| merge_done ts : Forall (fun l => l = []) ts -> merge ts []
| merge_step ts i x l t : ts !! i = Some (x :: l) -> merge (<[i := l]> ts) t -> merge ts (x :: t).

(** [pool.map] of works that each perform commands and return or raise.  The first exception, in the order of the works, is
    raised; the works before it have returned, and each one after it has run or was cancelled. *)
Inductive pool {A} : list (list (Z * words) * res A) -> list (Z * words) -> res (list A) -> Prop :=
| pool_all works t rs : Forall2 (fun w r => w.2 = Ok r) works rs -> merge (map fst works) t -> pool works t (Ok rs)
| pool_failed before l x after ran t :
    Forall (fun w => exists r, w.2 = Ok r) before -> Forall2 (fun s w => s = [] \/ s = w.1) ran after ->
    merge (map fst before ++ [l] ++ ran) t -> pool (before ++ (l, Err x) :: after) t (Err x).

Definition select (p : words -> bool) (js : list job) : list job :=
  map (fun j => Job (name j) (pid j) (List.filter p (commands j))) js.

Definition in_phase (p : phase) (a : words) : bool := bool_decide (phase_of a = p).

(** One barrier step: the nodes that have commands of the phase. *)
Definition step (outcome : phase -> call -> result) (p : phase) (js : list job) (t : list (Z * words)) (r : res (list (string * list record))) : Prop :=
  pool (map (apply (outcome p)) (List.filter (fun j => negb (bool_decide (commands j = []))) (select (in_phase p) js))) t r.

Inductive phases (outcome : phase -> call -> result) (js : list job) : list phase -> list (Z * words) -> res unit -> Prop :=
| ph_end : phases outcome js [] [] (Ok tt)
| ph_next p ps t rs t' r : step outcome p js t (Ok rs) -> phases outcome js ps t' r -> phases outcome js (p :: ps) (t ++ t') r
| ph_failed p ps t x : step outcome p js t (Err x) -> phases outcome js (p :: ps) t (Err x).

Inductive execute (outcome : phase -> call -> result) (js : list job) : list (Z * words) -> res (list (string * list record)) -> Prop :=
| ex_failed t x : phases outcome js [Down; Shape; Up] t (Err x) -> execute outcome js t (Err x)
| ex_reads t t' r : phases outcome js [Down; Shape; Up] t (Ok tt) ->
    pool (map (apply (outcome Read)) (select observation js)) t' r ->
    execute outcome js (t ++ t') (let* rs := r in Ok (dict_of rs)).

(** ** Batches *)

(** A word with no batch syntax; a command with such words and at least one argument. *)
Definition plain_word (w : string) : Prop := w <> "" /\ lacks (ch 32) w = true /\ lacks (ch 10) w = true.

Definition plain (c : words) : Prop := Forall plain_word c /\ (2 <= length c)%nat.

Lemma span_spec {A} (p : A -> bool) l a b : span p l = (a, b) -> l = a ++ b /\ Forall (fun x => p x = true) a.
Proof.
  revert a b. induction l as [|x l IH]; intros a b; simpl; [by intros [= <- <-]|].
  destruct (p x) eqn:E; [|by intros [= <- <-]]. destruct (span p l) as [a' b']. intros [= <- <-].
  destruct (IH a' b' eq_refl) as [-> Ha]. by split; [|constructor].
Qed.

Lemma forallb_Forall {A} (p : A -> bool) l : Forall (fun x => p x = true) l -> forallb p l = true.
Proof. induction 1 as [|x l Hx _ IH]; simpl; [done|]. by rewrite Hx. Qed.

Lemma split_words (l : words) : l <> [] -> Forall plain_word l -> split_on (ch 32) (join " " l) = l.
Proof. intros Hne Hl. apply (split_join (ch 32)); [done|]. apply forallb_Forall. eapply Forall_impl; [exact Hl|]. by intros w (_ & H & _). Qed.

Lemma filter_nonempty (l : words) : Forall (fun w => w <> "") l -> List.filter (fun w => negb (String.eqb w "")) l = l.
Proof. induction 1 as [|w l Hw _ IH]; simpl; [done|]. apply String.eqb_neq in Hw. by rewrite Hw, IH. Qed.

Lemma line_words_join (l : words) : l <> [] -> Forall plain_word l -> line_words (join " " l) = l.
Proof.
  intros Hne Hl. unfold line_words. rewrite split_words by done. apply filter_nonempty. eapply Forall_impl; [exact Hl|]. by intros w [H _].
Qed.

Lemma split_batch (l : list string) : Forall (fun s => s <> "" /\ lacks (ch 10) s = true) l -> l <> [] ->
  List.filter (fun s => negb (String.eqb s "")) (split_on (ch 10) (join newline l +:+ newline)) = l.
Proof.
  intros Hl Hne. assert (join newline l +:+ newline = join newline (l ++ [""])) as ->.
  { clear Hl. induction l as [|x [|y l] IH]; [done|done|].
    change (join newline (x :: y :: l)) with (x +:+ (newline +:+ join newline (y :: l))).
    change (join newline ((x :: y :: l) ++ [""])) with (x +:+ (newline +:+ join newline ((y :: l) ++ [""]))).
    by rewrite !append_assoc, IH. }
  rewrite (split_join (ch 10)); [|by destruct l|].
  - rewrite List.filter_app. simpl. rewrite app_nil_r. apply filter_nonempty. eapply Forall_impl; [exact Hl|]. by intros s [H _].
  - rewrite forallb_app. simpl. rewrite andb_true_r. apply forallb_Forall. eapply Forall_impl; [exact Hl|]. by intros s [_ H].
Qed.

Lemma join_plain (l : words) : l <> [] -> Forall plain_word l -> join " " l <> "" /\ lacks (ch 10) (join " " l) = true.
Proof.
  intros Hne Hl. split.
  - intros E. pose proof (split_words l Hne Hl) as H. rewrite E in H. simpl in H. subst. inversion Hl as [|? ? [Hw _]]. by subst.
  - apply join_lacks; [done|]. apply forallb_Forall. eapply Forall_impl; [exact Hl|]. by intros w (_ & _ & H).
Qed.

Lemma plain_tail c : plain c -> drop 1 c <> [] /\ Forall plain_word (drop 1 c).
Proof. intros [Hc Hlen]. destruct c as [|w [|w' c]]; simpl in *; [lia|lia|]. split; [done|]. by inversion Hc. Qed.

Lemma expand_batch p prog cs : cs <> [] -> Forall plain cs -> Forall (fun c => hd "" c = prog) cs ->
  expand (Call p [prog; "-batch"; "-"] (Some (batch_text (map (drop 1) cs)))) = map (pair p) cs.
Proof.
  intros Hne Hp Hh. unfold expand, batch_text. cbn [c_payload c_pid c_args hd]. rewrite split_batch.
  - rewrite !map_map. apply map_ext_in. intros c Hc%list_elem_of_In. rewrite Forall_forall in Hp, Hh.
    pose proof (Hp _ Hc) as Hpc. destruct (plain_tail _ Hpc) as [Hd Hw]. rewrite line_words_join by done.
    rewrite <- (Hh _ Hc). destruct c; [|done]. destruct Hpc as [_ Hlen]. simpl in Hlen. lia.
  - rewrite map_map. apply Forall_fmap. eapply Forall_impl; [exact Hp|]. intros c [Hd Hw]%plain_tail. by apply join_plain.
  - by destruct cs.
Qed.

Lemma starts_hd prefix a : prefix <> [] -> starts prefix a = true -> hd "" a = hd "" prefix.
Proof. unfold starts. intros Hne H%bool_decide_eq_true. by destruct prefix, a; simplify_eq/=. Qed.

Lemma batch_prefix_hd a prefix : batch_prefix a = Some prefix -> prefix <> [] /\ hd "" prefix = hd "" a.
Proof.
  unfold batch_prefix. destruct (starts ["tc"; "qdisc"] a) eqn:E1; simpl.
  - apply starts_hd in E1; [|done]. rewrite E1. simpl. by intros [= <-].
  - destruct (starts ["ip"; "link"; "set"] a) eqn:E2; [|done]. apply starts_hd in E2; [|done]. rewrite E2. simpl. by intros [= <-].
Qed.

Lemma calls_go_expand fuel p cs : (length cs <= fuel)%nat -> Forall plain cs -> concat (map expand (calls_go fuel p cs)) = map (pair p) cs.
Proof.
  revert cs. induction fuel as [|fuel IH]; intros [|a cs] Hf Hp; [done|simpl in Hf; lia|done|].
  simpl in Hf. inversion Hp as [|? ? Ha Hcs]; subst. cbn [calls_go].
  destruct (batch_prefix a) as [prefix|] eqn:E.
  - apply batch_prefix_hd in E as [Hne Hhd]. destruct (span (starts prefix) cs) as [run rest] eqn:Es. apply span_spec in Es as [-> Hrun].
    rewrite length_app in Hf. apply Forall_app in Hcs as [Hr Hrest].
    rewrite (List.map_cons expand), List.concat_cons, expand_batch; [| done | by constructor | constructor; [done|]].
    + rewrite IH by (lia || done). by rewrite <- map_app.
    + eapply Forall_impl; [exact Hrun|]. intros c Hc%starts_hd; [|done]. congruence.
  - cbn [map concat]. rewrite IH by (lia || done). done.
Qed.

(** The batched calls of a node perform its commands, each once and in their order: a run of [tc qdisc] or [ip link set] commands sent as one
    [-batch] text has, line by line and word by word, exactly the commands of the run, provided that no word is empty or has a blank or a line break. *)
Theorem batching_equivalent p cs : Forall plain cs -> concat (map expand (calls p cs)) = map (pair p) cs.
Proof. by apply calls_go_expand. Qed.

(** ** Interleavings *)

Lemma merge_perm {A} (ts : list (list A)) t : merge ts t -> t ≡ₚ concat ts.
Proof.
  induction 1 as [ts H|ts i x l t Hi _ IH].
  - induction H as [|l ts -> _ IH]; simpl; [done|exact IH].
  - rewrite IH. clear IH. revert i Hi. induction ts as [|l0 ts IHts]; intros [|i] Hi; simplify_eq/=; [done|].
    rewrite <- (IHts _ Hi). apply Permutation_middle.
Qed.

Lemma merge_one {A} (q : A -> bool) ts t i l : merge ts t -> ts !! i = Some l ->
  (forall k l', ts !! k = Some l' -> k <> i -> List.filter q l' = []) -> List.filter q t = List.filter q l.
Proof.
  intros H. revert l. induction H as [ts H|ts k x l' t Hk _ IH]; intros l Hi Hother.
  - rewrite Forall_forall in H. by rewrite (H _ (list_elem_of_lookup_2 _ _ _ Hi)).
  - destruct (decide (k = i)) as [->|Hne].
    + rewrite Hk in Hi. injection Hi as <-. simpl. rewrite (IH l'); [done| |].
      * apply list_lookup_insert_eq. by eapply lookup_lt_Some.
      * intros k l0 Hl0 Hk'. rewrite list_lookup_insert_ne in Hl0 by done. by eapply Hother.
    + pose proof (Hother _ _ Hk Hne) as Hx. simpl in Hx. simpl. destruct (q x); [done|].
      apply IH; [by rewrite list_lookup_insert_ne|]. intros k' l0 Hl0 Hk'. destruct (decide (k = k')) as [<-|].
      * rewrite list_lookup_insert_eq in Hl0 by (by eapply lookup_lt_Some). by injection Hl0 as <-.
      * rewrite list_lookup_insert_ne in Hl0 by done. by eapply Hother.
Qed.

Lemma merge_none {A} (q : A -> bool) ts t : merge ts t -> Forall (fun l => List.filter q l = []) ts -> List.filter q t = [].
Proof.
  intros H%merge_perm Hts. apply (filter_perm q) in H. rewrite <- concat_filter_map in H.
  assert (concat (map (List.filter q) ts) = []) as E by (clear H; induction Hts as [|l ts Hl _ IH]; simpl; [done|by rewrite Hl]).
  rewrite E in H. by apply Permutation_nil_r in H.
Qed.

(** ** What a node performs *)

Lemma run_calls_prefix outcome rs cs : (run_calls outcome rs cs).1 `prefix_of` concat (map expand cs) /\
  (forall r, (run_calls outcome rs cs).2 = Ok r -> (run_calls outcome rs cs).1 = concat (map expand cs)).
Proof.
  revert rs. induction cs as [|c cs IH]; intros rs; cbn [run_calls map concat]; [done|]. destruct (outcome c) as [v|x n].
  - destruct (record_of rs (c_args c) v) as [rs'|x]; [|split; [by apply prefix_app_r|done]]. specialize (IH rs').
    destruct (run_calls outcome rs' cs) as [t r]. simpl in *. destruct IH as [Hp Heq]. split; [by apply prefix_app|].
    intros r' Hr. by rewrite (Heq _ Hr).
  - split; [|done]. simpl. apply prefix_app_r. exists (drop n (expand c)). by rewrite take_drop.
Qed.

(** The commands of a job, with its process. *)
Definition owned (j : job) : list (Z * words) := map (pair (pid j)) (commands j).

Lemma apply_prefix outcome j : Forall plain (commands j) -> (apply outcome j).1 `prefix_of` owned j /\
  (forall r, (apply outcome j).2 = Ok r -> (apply outcome j).1 = owned j).
Proof.
  intros Hp. unfold apply. pose proof (run_calls_prefix outcome [] (calls (pid j) (commands j))) as [H1 H2].
  unfold calls in H1, H2 at 3. rewrite calls_go_expand in H1 by done.
  destruct (run_calls _ _ _) as [t r]. simpl in *. split; [done|]. intros r' Hr. destruct r as [rs|]; [|done].
  rewrite (H2 _ eq_refl). by apply calls_go_expand.
Qed.

(** The traces a pool interleaves: a prefix of each job's commands, all of them when it returns. *)
Lemma pool_traces outcome js t r : Forall (fun j => Forall plain (commands j)) js -> pool (map (apply outcome) js) t r ->
  exists ts, merge ts t /\ Forall2 prefix ts (map owned js) /\ (forall rs, r = Ok rs -> ts = map owned js).
Proof.
  intros Hp Hpool. inversion Hpool as [works t' rs Hall Hm|before l x after ran t' Hb Hr Hm E]; subst; clear Hpool.
  - exists (map fst (map (apply outcome) js)). split; [done|]. assert (map fst (map (apply outcome) js) = map owned js) as ->.
    { clear Hm. revert rs Hall. induction Hp as [|j js Hj _ IH]; intros rs; inversion 1 as [|? r ? rs' Hr Hrest]; subst; simpl; [done|].
      f_equal; [by eapply apply_prefix|by eapply IH]. }
    split; [|done]. apply Forall2_same_length_lookup_2; [done|]. intros i a b Ha Hb. by rewrite Ha in Hb; injection Hb as ->.
  - exists (map fst before ++ [l] ++ ran). split; [done|]. split; [|done].
    assert (Forall2 (fun s w => s = [] \/ s = w.1) (map fst before ++ [l] ++ ran) (map (apply outcome) js)) as HF.
    { rewrite <- E. apply Forall2_app; [clear; induction before; constructor; auto|]. constructor; [by right|done]. }
    clear -HF Hp. revert HF. generalize (map fst before ++ [l] ++ ran). induction Hp as [|j js Hj _ IH]; intros ts HF; simpl in HF; inversion HF as [|s ? ts' ? Hs Hts]; subst; [constructor|].
    constructor; [|by apply IH]. destruct Hs as [->| ->]; [apply prefix_nil|by apply apply_prefix].
Qed.

Lemma filter_prefix {A} (q : A -> bool) l k : l `prefix_of` k -> List.filter q l `prefix_of` List.filter q k.
Proof. intros [z ->]. rewrite List.filter_app. by exists (List.filter q z). Qed.

Lemma NoDup_map_filter {A B} (h : A -> B) (q : A -> bool) l : NoDup (map h l) -> NoDup (map h (List.filter q l)).
Proof.
  induction l as [|x l IH]; simpl; [done|]. intros [Hx Hl]%NoDup_cons. destruct (q x); simpl; [|by apply IH].
  apply NoDup_cons. split; [|by apply IH]. rewrite list_elem_of_In, in_map_iff in *. intros (y & Hy & [Hin _]%filter_In). destruct Hx. by exists y.
Qed.

Section One.
Context (j : job) (q : Z * words -> bool) (Hq : forall x, q x = true -> x.1 = pid j).

Lemma other_owned k : pid k <> pid j -> List.filter q (owned k) = [].
Proof.
  intros Hne. unfold owned. induction (commands k) as [|c cs IH]; simpl; [done|]. destruct (q (pid k, c)) eqn:E; [|done].
  by apply Hq in E.
Qed.

Lemma pool_one outcome js t r : Forall (fun j => Forall plain (commands j)) js -> NoDup (map pid js) -> j ∈ js ->
  pool (map (apply outcome) js) t r -> List.filter q t `prefix_of` List.filter q (owned j) /\ (forall rs, r = Ok rs -> List.filter q t = List.filter q (owned j)).
Proof using Hq.
  intros Hp Hnd Hj (ts & Hm & Hts & Hok)%pool_traces; [|done]. apply list_elem_of_lookup in Hj as [i Hi].
  assert (map owned js !! i = Some (owned j)) as Ho by (by rewrite list_lookup_fmap, Hi).
  destruct (Forall2_lookup_r _ _ _ _ _ Hts Ho) as (l & Hl & Hpre). assert (List.filter q t = List.filter q l) as ->.
  { eapply merge_one; [exact Hm|exact Hl|]. intros k l' Hk Hne. destruct (Forall2_lookup_l _ _ _ _ _ Hts Hk) as (o & Hko & Hpre').
    rewrite list_lookup_fmap in Hko. destruct (js !! k) as [j'|] eqn:Ej; [|done]. injection Hko as <-. apply (filter_prefix q) in Hpre'.
    rewrite other_owned in Hpre'; [by apply prefix_nil_inv in Hpre'|]. intros Heq. apply Hne.
    eapply (NoDup_lookup (map pid js)); [done| |]; rewrite list_lookup_fmap; [by rewrite Ej|]. simpl. rewrite Hi, Heq. done. }
  split; [by apply filter_prefix|]. intros rs Hr. rewrite (Hok _ Hr), Ho in Hl. by injection Hl as <-.
Qed.

Lemma pool_absent outcome js t r : Forall (fun j => Forall plain (commands j)) js -> (forall k, k ∈ js -> pid k <> pid j) ->
  pool (map (apply outcome) js) t r -> List.filter q t = [].
Proof using Hq.
  intros Hp Hk (ts & Hm & Hts & _)%pool_traces; [|done]. eapply merge_none; [exact Hm|]. apply Forall_forall. intros l [i Hl]%list_elem_of_lookup.
  destruct (Forall2_lookup_l _ _ _ _ _ Hts Hl) as (o & Ho & Hpre). rewrite list_lookup_fmap in Ho. destruct (js !! i) as [k|] eqn:E; [|done].
  injection Ho as <-. apply (filter_prefix q) in Hpre. rewrite other_owned in Hpre; [by apply prefix_nil_inv in Hpre|].
  apply Hk. by eapply list_elem_of_lookup_2.
Qed.

End One.

Section Node.
Context (j : job) (q : Z * words -> bool) (Hq : forall x, q x = true -> x.1 = pid j).
Context (js : list job) (Hplain : Forall (fun j => Forall plain (commands j)) js) (Hpids : NoDup (map pid js)) (Hj : j ∈ js).

Definition kept (p : words -> bool) : list (Z * words) := map (pair (pid j)) (List.filter p (commands j)).

Lemma select_plain p : Forall (fun j => Forall plain (commands j)) (select p js).
Proof using Hplain. apply Forall_fmap. eapply Forall_impl; [exact Hplain|]. intros k Hk. simpl. by apply Forall_filter. Qed.

Lemma select_pids p : map pid (select p js) = map pid js.
Proof. unfold select. rewrite map_map. by apply map_ext. Qed.

Lemma step_one outcome p t r : step outcome p js t r ->
  List.filter q t `prefix_of` List.filter q (kept (in_phase p)) /\ (forall rs, r = Ok rs -> List.filter q t = List.filter q (kept (in_phase p))).
Proof using Hq Hplain Hpids Hj.
  unfold step. intros Hpool. set (j' := Job (name j) (pid j) (List.filter (in_phase p) (commands j))).
  assert (j' ∈ select (in_phase p) js) as Hj' by (apply list_elem_of_In, in_map_iff; exists j; split; [done|by apply list_elem_of_In]).
  set (busy := List.filter _ _) in Hpool.
  assert (Forall (fun j => Forall plain (commands j)) busy) as Hb by apply Forall_filter, select_plain.
  destruct (List.filter (in_phase p) (commands j)) as [|c cs] eqn:E.
  - unfold kept. rewrite E. simpl. rewrite (pool_absent j q Hq (outcome p) busy t r Hb); [done| |exact Hpool]. intros k Hk Heq.
    apply list_elem_of_In, filter_In in Hk as [Hk%list_elem_of_In Hne]. assert (k = j') as ->.
    { apply list_elem_of_lookup in Hk as [a Ha], Hj' as [b Hb']. assert (a = b) as ->; [|congruence].
      eapply (NoDup_lookup (map pid (select (in_phase p) js))); [by rewrite select_pids| |]; rewrite list_lookup_fmap; [rewrite Ha|rewrite Hb']; simpl; [done|].
      by rewrite Heq. }
    unfold j' in Hne. simpl in Hne. done.
  - assert (owned j' = kept (in_phase p)) as <- by (unfold owned, kept; by rewrite E).
    destruct (pool_one j' q Hq (outcome p) busy t r Hb) as [H1 H2]; [| |exact Hpool|].
    + apply NoDup_map_filter. by rewrite select_pids.
    + apply list_elem_of_In, filter_In. split; [by apply list_elem_of_In|done].
    + done.
Qed.

(** The commands of the node in the order of the phases. *)
Definition sequence (ps : list phase) : list (Z * words) := concat (map (fun p => kept (in_phase p)) ps).

Lemma phases_one outcome ps t r : phases outcome js ps t r ->
  List.filter q t `prefix_of` List.filter q (sequence ps) /\ (r = Ok tt -> List.filter q t = List.filter q (sequence ps)).
Proof using Hq Hplain Hpids Hj.
  unfold sequence. induction 1 as [|p ps t rs t' r Hs _ IH|p ps t x Hs]; cbn [map concat]; rewrite ?List.filter_app.
  - done.
  - apply step_one in Hs as [_ Hs]. rewrite (Hs _ eq_refl). destruct IH as [IH1 IH2]. split; [by apply prefix_app|]. intros Hr. by rewrite IH2.
  - apply step_one in Hs as [Hs _]. split; [by apply prefix_app_r|done].
Qed.

Lemma execute_one outcome t r : execute outcome js t r ->
  List.filter q t `prefix_of` List.filter q (sequence [Down; Shape; Up] ++ kept observation) /\
  (forall rs, r = Ok rs -> List.filter q t = List.filter q (sequence [Down; Shape; Up] ++ kept observation)).
Proof using Hq Hplain Hpids Hj.
  rewrite List.filter_app. inversion 1 as [t' x Hph|t1 t2 r' Hph Hr]; subst.
  - apply phases_one in Hph as [H1 _]. split; [by apply prefix_app_r|done].
  - apply phases_one in Hph as [_ H1]. rewrite List.filter_app, (H1 eq_refl).
    set (j' := Job (name j) (pid j) (List.filter observation (commands j))).
    destruct (pool_one j' q Hq (outcome Read) (select observation js) t2 r' (select_plain observation)) as [H2 H3].
    + by rewrite select_pids.
    + apply list_elem_of_In, in_map_iff. exists j. split; [done|by apply list_elem_of_In].
    + done.
    + change (owned j') with (kept observation) in *. split; [by apply prefix_app|]. intros rs Hrs. destruct r'; [|done]. by rewrite (H3 _ eq_refl).
Qed.

Lemma step_absent outcome p t r : (forall k, k ∈ js -> pid k <> pid j) -> step outcome p js t r -> List.filter q t = [].
Proof using Hq Hplain.
  intros Hk Hs. eapply (pool_absent j q Hq); [by apply Forall_filter, (select_plain (in_phase p))| |exact Hs].
  intros k [Hin _]%list_elem_of_In%filter_In. apply in_map_iff in Hin as (k' & <- & Hin%list_elem_of_In). exact (Hk k' Hin).
Qed.

Lemma execute_absent outcome t r : (forall k, k ∈ js -> pid k <> pid j) -> execute outcome js t r -> List.filter q t = [].
Proof using Hq Hplain.
  intros Hk. assert (forall ps t r, phases outcome js ps t r -> List.filter q t = []) as Hph.
  { induction 1 as [|p ps t0 rs t' r0 Hs _ IH|p ps t0 x Hs]; [done| |by eapply step_absent]. rewrite List.filter_app, IH, (step_absent _ _ _ _ Hk Hs). done. }
  inversion 1 as [t' x H'|t1 t2 r' H' Hr]; subst; [exact (Hph _ _ _ H')|]. rewrite List.filter_app, (Hph _ _ _ H'). simpl.
  eapply (pool_absent j q Hq); [by apply select_plain| |exact Hr]. intros k Hin%list_elem_of_In. apply in_map_iff in Hin as (k' & <- & Hin%list_elem_of_In). exact (Hk k' Hin).
Qed.

End Node.

(** ** Barriers *)

(** The commands of the fleet that satisfy [p]. *)
Definition commands_in (p : words -> bool) (js : list job) : list (Z * words) :=
  concat (map (fun j => map (pair (pid j)) (List.filter p (commands j))) js).

Lemma pool_all_commands outcome js t r : Forall (fun j => Forall plain (commands j)) js -> pool (map (apply outcome) js) t r ->
  (forall x, x ∈ t -> x ∈ concat (map owned js)) /\ (forall rs, r = Ok rs -> t ≡ₚ concat (map owned js)).
Proof.
  intros Hp (ts & Hm%merge_perm & Hts & Hok)%pool_traces; [|done]. split; [|intros rs Hr; by rewrite Hm, (Hok _ Hr)].
  intros x Hx. rewrite Hm in Hx. clear Hm Hok. revert Hx. induction Hts as [|l o ts os Hl _ IH]; simpl; [done|].
  rewrite !elem_of_app. intros [Hx|Hx]; [left|right; by apply IH]. destruct Hl as [z ->]. apply elem_of_app. by left.
Qed.

Lemma busy_commands p js : concat (map owned (List.filter (fun j => negb (bool_decide (commands j = []))) (select p js))) = commands_in p js.
Proof.
  unfold commands_in. induction js as [|j js IH]; simpl; [done|]. destruct (List.filter p (commands j)) eqn:E; simpl; [done|].
  rewrite IH. f_equal.
Qed.

Lemma step_all outcome p js t r : Forall (fun j => Forall plain (commands j)) js -> step outcome p js t r ->
  (forall x, x ∈ t -> x ∈ commands_in (in_phase p) js) /\ (forall rs, r = Ok rs -> t ≡ₚ commands_in (in_phase p) js).
Proof.
  intros Hp Hs. rewrite <- busy_commands. eapply pool_all_commands; [|exact Hs]. by apply Forall_filter, select_plain.
Qed.

Lemma commands_in_phase p js x : x ∈ commands_in p js -> p x.2 = true.
Proof.
  unfold commands_in. rewrite list_elem_of_In, in_concat. intros (l & Hl & Hx). apply in_map_iff in Hl as (j & <- & _).
  apply in_map_iff in Hx as (c & <- & Hc). by apply filter_In in Hc as [_ Hc].
Qed.

Lemma select_commands p js : concat (map owned (select p js)) = commands_in p js.
Proof. unfold commands_in, select. by rewrite map_map. Qed.

(** The readings are a phase of their own. *)
Lemma read_commands js : commands_in observation js = commands_in (in_phase Read) js.
Proof.
  unfold commands_in. f_equal. apply map_ext. intros j. f_equal. apply filter_ext. intros a. unfold in_phase, phase_of. destruct (observation a); [done|].
  repeat case_match; done.
Qed.

(** The phases a trace is made of: those before the last one are complete. *)
Lemma phases_parts outcome js ps t r : Forall (fun j => Forall plain (commands j)) js -> phases outcome js ps t r ->
  exists parts, t = concat parts /\ Forall2 (fun p part => forall x, x ∈ part -> phase_of x.2 = p) ps parts /\
    (forall i k part p', parts !! i = Some part -> part <> [] -> (k < i)%nat -> ps !! k = Some p' ->
       exists done_, parts !! k = Some done_ /\ done_ ≡ₚ commands_in (in_phase p') js) /\
    (r = Ok tt -> Forall2 (fun p part => part ≡ₚ commands_in (in_phase p) js) ps parts).
Proof.
  intros Hp. induction 1 as [|p ps t rs t' r Hs _ IH|p ps t x Hs].
  - exists []. split_and!; [done|constructor|by intros [|i]|constructor].
  - destruct IH as (parts & -> & Hph & Hdone & Hok). apply step_all in Hs as [Hin Hall]; [|done]. exists (t :: parts). split_and!.
    + done.
    + constructor; [|done]. intros x Hx%Hin%commands_in_phase. by apply bool_decide_eq_true in Hx.
    + intros [|i] k part p' Hi Hne Hk Hps; [lia|]. destruct k as [|k]; simplify_eq/=; [exists t; split; [done|by eapply Hall]|].
      eapply Hdone; [exact Hi|done|lia|done].
    + intros Hr. constructor; [by eapply Hall|by apply Hok].
  - apply step_all in Hs as [Hin _]; [|done]. exists (t :: replicate (length ps) []). split_and!.
    + simpl. rewrite <- (app_nil_r t) at 1. f_equal. induction (length ps) as [|m IHm]; [done|exact IHm].
    + constructor; [intros y Hy%Hin%commands_in_phase; by apply bool_decide_eq_true in Hy|].
      clear. induction ps; simpl; constructor; [by intros y []%not_elem_of_nil|done].
    + intros [|i] k part p' Hi Hne; [lia|]. simpl in Hi. apply lookup_replicate in Hi as [-> _]. done.
    + done.
Qed.

(** What a command does, whatever [execute] calls it: [ip link set ... down] withdraws an interface, [ip link set ... up] enables one, the three kinds of
    readings observe, and everything else changes a queue or an address. *)
Definition withdraws (a : words) : Prop := exists mid, a = ["ip"; "link"; "set"] ++ mid ++ ["down"].
Definition enables (a : words) : Prop := exists mid, a = ["ip"; "link"; "set"] ++ mid ++ ["up"].
Definition observes (a : words) : Prop := exists rest, a = ["tc"; "-j"; "-s"] ++ rest \/ a = ["ip"; "-j"; "link"; "show"] ++ rest \/ a = ["sysctl"; "-n"] ++ rest.

Definition does (p : phase) (a : words) : Prop :=
  match p with
  | Down => withdraws a
  | Up => enables a
  | Read => observes a
  | Shape => ~ withdraws a /\ ~ enables a /\ ~ observes a
  end.

Lemma starts_app p a : starts p a = true <-> exists rest, a = p ++ rest.
Proof.
  unfold starts. rewrite bool_decide_eq_true. split; [intros <-; exists (drop (length p) a); by rewrite take_drop|]. intros [rest ->]. by rewrite take_app_length.
Qed.

Lemma observation_observes a : observation a = true <-> observes a.
Proof. unfold observation, observes. rewrite !orb_true_iff, !starts_app. naive_solver. Qed.

Lemma link_set_last a w : w <> "set" -> starts ["ip"; "link"; "set"] a = true -> list.last a = Some w <-> exists mid, a = ["ip"; "link"; "set"] ++ mid ++ [w].
Proof.
  intros Hw [rest ->]%starts_app. destruct rest as [|x rest _] using rev_ind.
  - split; [intros [= E]; by destruct Hw|]. intros [mid H]. apply app_inv_head in H. by destruct mid.
  - rewrite app_assoc, last_snoc. split.
    + intros [= ->]. exists rest. by rewrite app_assoc.
    + intros [mid H]. rewrite !app_assoc in H. by apply app_inj_tail in H as [_ ->].
Qed.

(** The classification of [execute] is the right one. *)
Lemma phase_does p a : phase_of a = p <-> does p a.
Proof.
  assert (forall w, (exists mid, a = ["ip"; "link"; "set"] ++ mid ++ [w]) -> starts ["ip"; "link"; "set"] a = true /\ ~ observes a) as Hset.
  { intros w [mid E]. split; [apply starts_app; by eexists|]. intros [rest [H|[H|H]]]; rewrite H in E; discriminate. }
  assert (does (phase_of a) a) as H1.
  { unfold phase_of. destruct (observation a) eqn:Eo; [by apply observation_observes|]. assert (~ observes a) as Ho by (rewrite <- observation_observes; by rewrite Eo).
    destruct (starts ["ip"; "link"; "set"] a) eqn:Es.
    - pose proof (link_set_last a "down" ltac:(done) Es) as Hd. pose proof (link_set_last a "up" ltac:(done) Es) as Hu.
      destruct (list.last a) as [w|]; [|split_and!; [intros ?%Hd|intros ?%Hu|]; done].
      destruct (String.eqb_spec w "down") as [->|]; [by apply Hd|]. destruct (String.eqb_spec w "up") as [->|]; [by apply Hu|].
      split_and!; [intros ?%Hd|intros ?%Hu|]; congruence.
    - split_and!; [| |done]; intros H%Hset; destruct H as [H _]; congruence. }
  split; [by intros <-|]. intros H2. destruct (phase_of a), p; try done; cbn [does] in *; exfalso; try tauto.
  all: repeat match goal with H : withdraws _ |- _ => pose proof (Hset _ H) as [_ ?]; destruct H as [? ->] | H : enables _ |- _ => pose proof (Hset _ H) as [_ ?]; destruct H as [? H] end; try tauto.
  all: apply app_inv_head in H2 || apply app_inv_head in H1; (apply app_inj_tail in H2 || apply app_inj_tail in H1); naive_solver.
Qed.

#[global] Instance does_dec p a : Decision (does p a).
Proof. refine (cast_if (decide (phase_of a = p))); by rewrite <- phase_does. Defined.

(** A phase is complete when every command of the fleet that belongs to it has run, as often as it was asked for. *)
Definition complete (js : list job) (p : phase) (part : list (Z * words)) : Prop := part ≡ₚ filter (fun x => does p x.2) (concat (map owned js)).

Lemma commands_in_does p js : commands_in (in_phase p) js = filter (fun x => does p x.2) (concat (map owned js)).
Proof.
  unfold commands_in. induction js as [|j js IH]; [done|]. cbn [map concat]. rewrite filter_app, IH. f_equal. unfold owned. induction (commands j) as [|a l IHl]; [done|].
  cbn [List.filter map]. unfold in_phase at 1. rewrite filter_cons. cbn [snd]. destruct (bool_decide_reflect (phase_of a = p)) as [H|H].
  - rewrite decide_True by (by apply phase_does). cbn [map]. by rewrite IHl.
  - by rewrite decide_False by (by rewrite <- phase_does).
Qed.

(** C16.  However the nodes' commands interleave, and also when some command fails, the trace of an update is the withdrawals, then the shaping, then
    the activations, then the readings: no queue changes before every withdrawal of the fleet has run, no interface is enabled before the whole fleet is withdrawn and
    shaped, nothing is read before everything has changed, and an update that succeeds has run every command.  The commands have at least one argument and no words with batch syntax (blanks, newlines, nothing at all),
    as the generated ones do. *)
Theorem fleet_barrier outcome js t r : Forall (fun j => Forall plain (commands j)) js -> execute outcome js t r ->
  exists down shape up read, t = down ++ shape ++ up ++ read /\
    Forall (fun x => withdraws x.2) down /\ Forall (fun x => enables x.2) up /\ Forall (fun x => observes x.2) read /\
    Forall (fun x => ~ withdraws x.2 /\ ~ enables x.2 /\ ~ observes x.2) shape /\
    (shape <> [] -> complete js Down down) /\
    (up <> [] -> complete js Down down /\ complete js Shape shape) /\
    (read <> [] -> complete js Down down /\ complete js Shape shape /\ complete js Up up) /\
    (forall rs, r = Ok rs -> complete js Down down /\ complete js Shape shape /\ complete js Up up /\ complete js Read read).
Proof.
  assert (forall p (part : list (Z * words)), (forall x, x ∈ part -> phase_of x.2 = p) -> Forall (fun x => does p x.2) part) as Hdo.
  { intros p part H. apply Forall_forall. intros x Hx. by apply phase_does, H. }
  intros Hp. inversion 1 as [t' x Hph|t1 t2 r' Hph Hr]; subst.
  - apply phases_parts in Hph as (parts & -> & Hparts & Hdone & _); [|done].
    inversion Hparts as [|? d ? l1 Hd H1]; subst. inversion H1 as [|? s ? l2 Hs H2]; subst. inversion H2 as [|? u ? l3 Hu H3]; subst. inversion H3; subst.
    exists d, s, u, []. cbn [concat]. split; [by rewrite app_nil_r|]. unfold complete. rewrite <- !commands_in_does.
    split; [by apply (Hdo Down)|]. split; [by apply (Hdo Up)|]. split; [constructor|]. split; [by apply (Hdo Shape)|].
    split; [|split]; [| |done].
    + intros Hne. by destruct (Hdone 1%nat 0%nat s Down eq_refl Hne ltac:(lia) eq_refl) as (? & [= <-] & ?).
    + intros Hne. destruct (Hdone 2%nat 0%nat u Down eq_refl Hne ltac:(lia) eq_refl) as (? & [= <-] & ?).
      by destruct (Hdone 2%nat 1%nat u Shape eq_refl Hne ltac:(lia) eq_refl) as (? & [= <-] & ?).
  - apply phases_parts in Hph as (parts & -> & Hparts & _ & Hok); [|done]. specialize (Hok eq_refl).
    inversion Hparts as [|? d ? l1 Hd H1]; subst. inversion H1 as [|? s ? l2 Hs H2]; subst. inversion H2 as [|? u ? l3 Hu H3]; subst. inversion H3; subst.
    inversion Hok as [|? ? ? ? Cd C1]; subst. inversion C1 as [|? ? ? ? Cs C2]; subst. inversion C2 as [|? ? ? ? Cu _]; subst.
    apply pool_all_commands in Hr as [Hin Hall]; [|by apply select_plain]. rewrite select_commands in Hin, Hall.
    exists d, s, u, t2. cbn [concat]. split; [by rewrite app_nil_r, <- !app_assoc|]. unfold complete. rewrite <- !commands_in_does.
    split; [by apply (Hdo Down)|]. split; [by apply (Hdo Up)|]. split; [apply (Hdo Read); intros x Hx%Hin%commands_in_phase; unfold phase_of; by rewrite Hx|]. split; [by apply (Hdo Shape)|].
    split_and!; try done. intros rs Hrs. split_and!; try done. destruct r' as [rs'|]; [|done]. by rewrite (Hall _ eq_refl), read_commands.
Qed.

(** ** Example: a contact moves from one satellite to another *)

Lemma merge_in_order {A} (ts : list (list A)) : merge ts (concat ts).
Proof.
  induction ts as [|l ts IH]; [by constructor|]. induction l as [|x l IHl]; simpl.
  - clear -IH. revert IH. generalize (concat ts). intros t H. induction H as [ts H|ts i x l t Hi _ IH]; [by repeat constructor|].
    by apply (merge_step _ (S i) x l).
  - by apply (merge_step _ 0 x l).
Qed.

Lemma pool_in_order {A} (works : list (list (Z * words) * res A)) t rs :
  map snd works = map Ok rs -> t = concat (map fst works) -> pool works t (Ok rs).
Proof.
  intros Hr ->. apply pool_all; [|apply merge_in_order]. revert rs Hr. induction works as [|w works IH]; intros [|r rs]; try done.
  intros [= Hw Hrest]. constructor; auto.
Qed.

(** One schedule: the nodes one after the other, when every call succeeds. *)
Definition all_ok {A} (works : list (list (Z * words) * res A)) : option (list A) := mapM (fun w => match w.2 with Ok r => Some r | Err _ => None end) works.

Definition step_in_order (outcome : phase -> call -> result) (p : phase) (js : list job) : option (list (Z * words)) :=
  let works := map (apply (outcome p)) (List.filter (fun j => negb (bool_decide (commands j = []))) (select (in_phase p) js)) in
  _ ← all_ok works; Some (concat (map fst works)).

Definition run_in_order (outcome : phase -> call -> result) (js : list job) : option (list (Z * words) * list (string * list record)) :=
  d ← step_in_order outcome Down js; s ← step_in_order outcome Shape js; u ← step_in_order outcome Up js;
  let works := map (apply (outcome Read)) (select observation js) in
  rs ← all_ok works; Some ((d ++ s ++ u ++ []) ++ concat (map fst works), dict_of rs).

Lemma all_ok_pool {A} (works : list (list (Z * words) * res A)) rs : all_ok works = Some rs -> pool works (concat (map fst works)) (Ok rs).
Proof.
  intros H. apply pool_in_order; [|done]. revert rs H. unfold all_ok. induction works as [|[t r] works IH]; intros rs; simpl; [by intros [= <-]|].
  destruct r as [r|]; [|done]. simpl. destruct (mapM _ works) as [rs'|]; [|done]. intros [= <-]. simpl. f_equal. by apply IH.
Qed.

Lemma step_in_order_step outcome p js t : step_in_order outcome p js = Some t -> exists rs, step outcome p js t (Ok rs).
Proof. unfold step_in_order, step. destruct (all_ok _) as [rs|] eqn:E; [|done]. intros [= <-]. exists rs. by apply all_ok_pool. Qed.

Lemma run_in_order_execute outcome js t rs : run_in_order outcome js = Some (t, rs) -> execute outcome js t (Ok rs).
Proof.
  unfold run_in_order. destruct (step_in_order outcome Down js) as [d|] eqn:Ed; [|done]. destruct (step_in_order outcome Shape js) as [s|] eqn:Es; [|done].
  destruct (step_in_order outcome Up js) as [u|] eqn:Eu; [|done]. simpl. destruct (all_ok _) as [rs'|] eqn:Er; [|done]. intros [= <- <-].
  apply step_in_order_step in Ed as [? ?], Es as [? ?], Eu as [? ?]. apply (ex_reads outcome js (d ++ s ++ u ++ []) _ (Ok rs')); [|by apply all_ok_pool].
  repeat (eapply ph_next; [eassumption|]). constructor.
Qed.

Definition accepted : phase -> call -> result := fun _ _ => Done (JList [JNull]).

Definition example_jobs : list job :=
  [Job "gw-a" 11 [["ip"; "link"; "set"; "sf1"; "down"]; ["tc"; "qdisc"; "change"; "dev"; "sf2"; "root"; "netem"]; ["ip"; "link"; "set"; "sf2"; "up"];
                  ["tc"; "-j"; "-s"; "qdisc"; "show"; "dev"; "sf2"]];
   Job "sat-1" 12 [["ip"; "link"; "set"; "sf2"; "up"]; ["tc"; "qdisc"; "change"; "dev"; "sf2"; "root"; "netem"]]].

Definition example_trace : list (Z * words) :=
  [(11, ["ip"; "link"; "set"; "sf1"; "down"]); (11, ["tc"; "qdisc"; "change"; "dev"; "sf2"; "root"; "netem"]);
   (12, ["tc"; "qdisc"; "change"; "dev"; "sf2"; "root"; "netem"]); (11, ["ip"; "link"; "set"; "sf2"; "up"]);
   (12, ["ip"; "link"; "set"; "sf2"; "up"]); (11, ["tc"; "-j"; "-s"; "qdisc"; "show"; "dev"; "sf2"])].

Definition example_records : list (string * list record) := [("gw-a", [Record_ "sf2" (Some (JList [JNull])) None None]); ("sat-1", [])].

Lemma plain_example : Forall (fun j => Forall plain (commands j)) example_jobs.
Proof. repeat (constructor; simpl; try lia; try discriminate). Qed.

Lemma example_execute : execute accepted example_jobs example_trace (Ok example_records).
Proof. apply run_in_order_execute. vm_compute. reflexivity. Qed.

Lemma fleet_barrier_witness :
  exists down shape up read, example_trace = down ++ shape ++ up ++ read /\ Forall (fun x => withdraws x.2) down /\ Forall (fun x => enables x.2) up /\
    complete example_jobs Down down /\ complete example_jobs Shape shape /\ complete example_jobs Up up /\ complete example_jobs Read read.
Proof.
  destruct (fleet_barrier accepted example_jobs example_trace (Ok example_records) plain_example example_execute) as (d & s & u & r & H1 & H2 & H3 & _ & _ & _ & _ & _ & H4).
  exists d, s, u, r. split; [exact H1|]. split; [exact H2|]. split; [exact H3|]. by apply (H4 example_records).
Defined.

Lemma batching_equivalent_witness :
  concat (map expand (calls 11 (commands (hd (Job "" 0 []) example_jobs)))) = map (pair 11) (commands (hd (Job "" 0 []) example_jobs)) /\
  length (calls 11 (commands (hd (Job "" 0 []) example_jobs))) = 4%nat.
Proof. split; [|vm_compute; reflexivity]. apply (batching_equivalent 11). apply (Forall_inv plain_example). Defined.

End Jobs.
