(* ===== verification/Replay.v ===== *)
(** * Replay: contacts of a physical frame in the packet network (lab/platform/physics_runtime.py)

    [channels] turns the links of a frame into the commands of each node, which [PhysicsJobs] executes; [verify_readback] compares
    what the interfaces report with the links.  A command trace is read through [ask]: what the commands last asked of an interface. *)

From S2P Require Import Prelude Bytes Text Channel Fabric LiveModel PhysicsJobs.
From Stdlib Require Import QArith Qabs.
#[local] Open Scope Z_scope.
#[local] Open Scope list_scope.

Module Replay.
Import Fabric.Fabric(fabric, link, pair_t, link_id, source, target, latency_us, capacity_bps, loss_ppm, operational_up, admin_up, acquisition_state,
  interface, active, directed, nodes, queue_limit, adjacency, set_links, direct, sorted_pair, link_json, pid_of, peers_of).
Import Jobs(plain_word, words, job, Job, pid, commands, plain, execute, phase, phase_of, in_phase, Down, Shape, Up, Read).

(** ** Frames *)

(** [dict(link, operational_up=False, acquisition_state='unavailable')] is [Live.down]. *)
Definition snapshot_links (frame previous : list link) : res (list link) :=
  let current := dict_of (map (fun l => (link_id l, l)) frame) in
  let unknown := List.filter (fun i => negb (mem i (map link_id previous))) (dkeys current) in
  raise (ValueError ("physical frame has links outside provisioned horizon: [" +:+
    (join ", " (map (fun i => "'" +:+ (i +:+ "'")) (sorted_strings unknown)) +:+ "]"))) when negb (len unknown =? 0) ;;
  Ok (map (fun l => default (Live.down l) (dget current (link_id l))) previous).

(** ** The commands of a frame *)

(** The driver: the fabric, the pairs whose state has changed and the number of queue updates. *)
Record replay := Replay_ { fab : fabric; changed_pairs : list pair_t; channel_updates : Z }.

(** [jobs[n]['commands'].append(c)] *)
Definition append_command (js : list (string * job)) (n : string) (c : words) : res (list (string * job)) :=
  let* j := or_raise KeyError (dget js n) in
  Ok (dset js n (Job (Jobs.name j) (pid j) (commands j ++ [c]))).

(** [set.add], in first-seen order *)
Definition add_pair (l : list pair_t) (p : pair_t) : list pair_t := if mem p l then l else l ++ [p].

Definition link_set (i state : string) : words := ["ip"; "link"; "set"; i; state].

(** The first loop: withdrawals. *)
Definition withdraw (f : fabric) (st : list (string * job) * list pair_t) (item : pair_t * link) : res (list (string * job) * list pair_t) :=
  let '((a, b), l) := item in
  let (js, changed) := st in
  let* i := interface f a b in
  let* _ := or_raise KeyError (dget (directed f) (a, b)) in
  let* was_up := active f a b in
  let* is_up := or_raise KeyError (operational_up l) in
  let changed := if negb (Bool.eqb was_up is_up) then add_pair changed (sorted_pair a b) else changed in
  if negb is_up && was_up then let* js := append_command js a (link_set i "down") in Ok (js, changed) else Ok (js, changed).

(** [any(link.get(k, 0) != old.get(k, 0) for k in ('latency_us', 'capacity_bps', 'loss_ppm'))] *)
Definition reshaped (l old : link) : bool :=
  existsb (fun k : link -> option Z => negb (default 0 (k l) =? default 0 (k old))) [latency_us; capacity_bps; loss_ppm].

Definition readings (i : string) : list words :=
  [["tc"; "-j"; "-s"; "qdisc"; "show"; "dev"; i]; ["ip"; "-j"; "link"; "show"; "dev"; i]; ["sysctl"; "-n"; "net.ipv4.conf." +:+ (i +:+ ".rp_filter")]].

(** The second loop: queue updates, activations and readings.  [first] is [index == 0]. *)
Definition shape (f : fabric) (first readback : bool) (st : list (string * job) * Z) (item : pair_t * link) : res (list (string * job) * Z) :=
  let '((a, b), l) := item in
  let (js, updates) := st in
  let* i := interface f a b in
  let* old := or_raise KeyError (dget (directed f) (a, b)) in
  let* (js, updates) := if reshaped l old || first then
      let* q := Channel.qdisc_command i (link_json l) (JInt (queue_limit f)) "change" in
      let* js := append_command js a q in Ok (js, updates + 1)
    else Ok (js, updates) in
  let* is_up := or_raise KeyError (operational_up l) in
  let* js := if (is_up : bool) then
      let* was_up := active f a b in
      if (was_up : bool) then Ok js else append_command js a (link_set i "up")
    else Ok js in
  let* js := if readback then foldM (fun js c => append_command js a c) js (readings i) else Ok js in
  Ok (js, updates).

(** The jobs of a frame, before they run; the driver that the run leaves when it succeeds. *)
Definition channel_jobs (d : replay) (pids : list (string * Z)) (ls : list link) (first readback : bool) : res (list job * list pair_t * Z) :=
  let f := fab d in
  let desired := direct ls in
  let* js := mapM_res (fun n => let* p := pid_of pids n in Ok (n, Job n p [])) (dkeys (nodes f)) in
  let* (js, changed) := foldM (withdraw f) (dict_of js, changed_pairs d) desired in
  let* (js, updates) := foldM (shape f first readback) (js, channel_updates d) desired in
  Ok (List.filter (fun j => negb (bool_decide (commands j = []))) (dvalues js), changed, updates).

(** What a node reports of an interface: [netem] options are the delay in seconds, the rate in bytes per second and the loss as a ratio. *)
Record netem := Netem { delay : Q; rate : Z; rate64 : option Z; loss : option Q }.
Record report := Report { r_interface : string; rp_filter : Z; flags : list string; netems : list netem }.

Definition Qdiffer (a b tolerance : Q) : bool := Qltb tolerance (Qabs (a - b)).

(** One direction: its report agrees with the link, or the assertion that fails. *)
Definition check_report (l : link) (r : report) : res unit :=
  raise (AssertionError "physical interface still filters asymmetric service sources") when negb (rp_filter r =? 0) ;;
  let* up := or_raise KeyError (operational_up l) in
  raise (AssertionError "kernel interface differs from physical contact") when
    negb (Bool.eqb (mem "UP" (flags r)) up) || up && negb (mem "LOWER_UP" (flags r)) ;;
  let* q := or_raise StopIteration (head (netems r)) in
  let* us := or_raise KeyError (latency_us l) in
  raise (AssertionError "kernel delay differs from physical model") when Qdiffer (delay q * 1000000) (inject_Z us) 2 ;;
  let* bps := or_raise KeyError (capacity_bps l) in
  raise (AssertionError "kernel rate differs from physical model") when (8 <? Z.abs (default (rate q) (rate64 q) * 8 - bps)) ;;
  raise (AssertionError "kernel loss differs from physical model") when
    Qdiffer (default 0%Q (loss q)) (inject_Z (default 0 (loss_ppm l)) / 1000000) (1 # 100000000) ;;
  Ok tt.

(** [verify_readback]: the number of directions checked is that of the fabric. *)
Definition verify_node (f : fabric) (records : list (string * list report)) (checked : Z) (n : string) : res Z :=
  let* rs := or_raise KeyError (dget records n) in
  let by_interface := dict_of (map (fun r => (r_interface r, r)) rs) in
  let* peers := peers_of f n in
  foldM (fun checked p =>
    let* l := or_raise KeyError (dget (directed f) (n, p)) in
    let* i := interface f n p in
    let* r := or_raise KeyError (dget by_interface i) in
    let* _ := check_report l r in Ok (checked + 1)) checked (dkeys peers).

Definition verify_readback (f : fabric) (records : list (string * list report)) : res unit :=
  let* checked := foldM (verify_node f records) 0 (dkeys (nodes f)) in
  raise (AssertionError "missing physical link readbacks") when negb (checked =? len (directed f)) ;;
  Ok tt.

(** ** What the loops append *)

(** [js'] has the jobs of [js], each with the commands [g] of its node appended. *)
Definition extends (js js' : list (string * job)) (g : string -> list words) : Prop :=
  dkeys js' = dkeys js /\ forall n j, dget js n = Some j -> dget js' n = Some (Job (Jobs.name j) (pid j) (commands j ++ g n)).

Definition at_ (a : string) (l : list words) (n : string) : list words := if String.eqb n a then l else [].

Lemma extends_refl js : extends js js (fun _ => []).
Proof. split; [done|]. intros n [nm p cs] H. simpl. by rewrite app_nil_r. Qed.

Lemma extends_trans js1 js2 js3 g h : extends js1 js2 g -> extends js2 js3 h -> extends js1 js3 (fun n => g n ++ h n).
Proof. intros [K1 E1] [K2 E2]. split; [congruence|]. intros n j Hj. apply E1, E2 in Hj. simpl in Hj. by rewrite <- app_assoc in Hj. Qed.

Lemma extends_ext js js' g h : (forall n, g n = h n) -> extends js js' g -> extends js js' h.
Proof. intros E [K H]. split; [done|]. intros n j Hj. rewrite <- E. by apply H. Qed.

Lemma append_extends js a c js' : append_command js a c = Ok js' -> extends js js' (at_ a [c]).
Proof.
  unfold append_command. rewrite bind_Ok. intros (j & Hj%or_raise_Ok & [= <-]). split.
  - rewrite dkeys_dset, decide_True; [done|]. apply dget_is_Some. by eexists.
  - intros n j0 Hn. unfold at_. rewrite dget_dset. destruct (String.eqb_spec n a) as [->|Hne].
    + rewrite decide_True by done. congruence.
    + rewrite decide_False by done. rewrite app_nil_r. by destruct j0.
Qed.

Lemma appends_extends js a cs js' : foldM (fun js c => append_command js a c) js cs = Ok js' -> extends js js' (at_ a cs).
Proof.
  revert js. induction cs as [|c cs IH]; intros js; cbn [foldM].
  - intros [= <-]. eapply extends_ext; [|apply extends_refl]. intros n. unfold at_. by destruct (String.eqb n a).
  - rewrite bind_Ok. intros (js1 & H1%append_extends & H2%IH). eapply extends_ext; [|by eapply extends_trans].
    intros n. unfold at_. by destruct (String.eqb n a).
Qed.

Lemma fold_extends {S} (proj : S -> list (string * job)) (st : S -> pair_t * link -> res S) (g : pair_t * link -> list words) items s s' :
  (forall s it s', st s it = Ok s' -> extends (proj s) (proj s') (at_ it.1.1 (g it))) -> foldM st s items = Ok s' ->
  extends (proj s) (proj s') (fun n => concat (map (fun it => at_ it.1.1 (g it) n) items)).
Proof.
  intros Hst. revert s. induction items as [|it items IH]; intros s; cbn [foldM map concat]; [intros [= <-]; apply extends_refl|].
  rewrite bind_Ok. intros (s1 & H1%Hst & H2%IH). by eapply (extends_trans _ _ _ (at_ it.1.1 (g it))).
Qed.

(** The commands of one direction. *)
Definition withdraw_commands (f : fabric) (it : pair_t * link) : list words :=
  match interface f it.1.1 it.1.2, active f it.1.1 it.1.2, operational_up it.2 with Ok i, Ok true, Some false => [link_set i "down"] | _, _, _ => [] end.

Definition queue_commands (f : fabric) (first : bool) (it : pair_t * link) : list words :=
  match interface f it.1.1 it.1.2, dget (directed f) it.1 with
  | Ok i, Some old => if reshaped it.2 old || first then
      match Channel.qdisc_command i (link_json it.2) (JInt (queue_limit f)) "change" with Ok q => [q] | Err _ => [] end else []
  | _, _ => []
  end.

Definition activate_commands (f : fabric) (it : pair_t * link) : list words :=
  match interface f it.1.1 it.1.2, active f it.1.1 it.1.2, operational_up it.2 with Ok i, Ok false, Some true => [link_set i "up"] | _, _, _ => [] end.

Definition read_commands (f : fabric) (readback : bool) (it : pair_t * link) : list words :=
  match interface f it.1.1 it.1.2 with Ok i => if readback then readings i else [] | Err _ => [] end.

Lemma withdraw_extends f st it st' : withdraw f st it = Ok st' -> extends st.1 st'.1 (at_ it.1.1 (withdraw_commands f it)).
Proof.
  destruct it as [[a b] l], st as [js changed]. unfold withdraw, withdraw_commands. cbn [fst snd]. rewrite bind_Ok. intros (i & Hi & H). rewrite Hi.
  apply bind_Ok in H as (_ & _ & H). apply bind_Ok in H as (was & Hw & H). rewrite Hw. apply bind_Ok in H as (is_ & Hs%or_raise_Ok & H). rewrite Hs.
  destruct is_, was; simpl in H; try (injection H as <-; eapply extends_ext; [|apply extends_refl]; intros n; unfold at_; by destruct (String.eqb n a)).
  apply bind_Ok in H as (js' & H%append_extends & [= <-]). done.
Qed.

Lemma shape_extends f first readback st it st' : shape f first readback st it = Ok st' ->
  extends st.1 st'.1 (at_ it.1.1 (queue_commands f first it ++ activate_commands f it ++ read_commands f readback it)).
Proof.
  destruct it as [[a b] l], st as [js updates]. unfold shape, queue_commands, activate_commands, read_commands. cbn [fst snd]. rewrite bind_Ok.
  intros (i & Hi & H). rewrite Hi. apply bind_Ok in H as (old & Hold%or_raise_Ok & H). rewrite Hold. apply bind_Ok in H as ([js1 u1] & H1 & H).
  apply bind_Ok in H as (is_ & Hs%or_raise_Ok & H). rewrite Hs. apply bind_Ok in H as (js2 & H2 & H). apply bind_Ok in H as (js3 & H3 & [= <-]). cbn [fst].
  assert (extends js js1 (at_ a (if reshaped l old || first then
      match Channel.qdisc_command i (link_json l) (JInt (queue_limit f)) "change" with Ok q => [q] | Err _ => [] end else []))) as E1.
  { destruct (reshaped l old || first); [|injection H1 as <- <-; eapply extends_ext; [|apply extends_refl]; intros n; unfold at_; by destruct (String.eqb n a)].
    apply bind_Ok in H1 as (q & Hq & H1). rewrite Hq. apply bind_Ok in H1 as (js' & H1%append_extends & [= <- <-]). done. }
  assert (extends js1 js2 (at_ a (match active f a b with Ok false => if is_ then [link_set i "up"] else [] | _ => [] end))) as E2.
  { destruct is_; [apply bind_Ok in H2 as (was & Hw & H2); rewrite Hw; destruct was; [|by apply append_extends]|];
      injection H2 as <-; (eapply extends_ext; [|apply extends_refl]); intros n; unfold at_; destruct (String.eqb n a); try done; by destruct (active f a b) as [[]|]. }
  assert (extends js2 js3 (at_ a (if readback then readings i else []))) as E3.
  { destruct readback; [by apply appends_extends|]. injection H3 as <-. eapply extends_ext; [|apply extends_refl]. intros n. unfold at_. by destruct (String.eqb n a). }
  eapply extends_ext; [|eapply extends_trans; [exact E1|eapply extends_trans; [exact E2|exact E3]]].
  intros n. unfold at_. destruct (String.eqb n a); [|done]. by destruct (active f a b) as [[]|], is_.
Qed.

(** ** What the commands ask of an interface *)

(** The state the last commands asked for, and the parameters of the last queue command. *)
Record ask := Ask { asked_up : bool; asked_queue : option words }.

(** [x] changes interface [i] of process [p]. *)
Definition about (p : Z) (i : string) (x : Z * words) : bool :=
  (x.1 =? p) && (Jobs.starts ["ip"; "link"; "set"] x.2 && bool_decide (x.2 !! 3%nat = Some i) || Jobs.starts ["tc"; "qdisc"] x.2 && bool_decide (x.2 !! 4%nat = Some i)).

Definition answer (p : Z) (i : string) (s : ask) (x : Z * words) : ask :=
  if about p i x then
    if Jobs.starts ["tc"; "qdisc"] x.2 then Ask (asked_up s) (Some (drop 5 x.2))
    else if bool_decide (x.2 !! 4%nat = Some "up") then Ask true (asked_queue s)
    else if bool_decide (x.2 !! 4%nat = Some "down") then Ask false (asked_queue s) else s
  else s.

Definition ask_after (p : Z) (i : string) (s : ask) (t : list (Z * words)) : ask := fold_left (answer p i) t s.

(** The parameters of the queue of a link. *)
Definition queue_words (f : fabric) (l : link) : words :=
  ["root"; "handle"; "10:"; "netem"; "limit"; pretty (queue_limit f); "delay"; pretty (default 0 (latency_us l)) +:+ "us";
   "rate"; pretty (default 0 (capacity_bps l)) +:+ "bit"; "loss"; Channel.loss_percent (default 0 (loss_ppm l))].

Lemma ask_filter p i s t : ask_after p i s t = ask_after p i s (List.filter (about p i) t).
Proof.
  unfold ask_after. revert s. induction t as [|x t IH]; intros s; simpl; [done|]. rewrite IH. destruct (about p i x) eqn:E; simpl; [done|].
  unfold answer at 2. by rewrite E.
Qed.

Lemma about_link_set p i p' j st : about p i (p', link_set j st) = (p' =? p) && bool_decide (j = i).
Proof.
  unfold about, link_set. cbn [fst snd]. change (Jobs.starts ["ip"; "link"; "set"] ["ip"; "link"; "set"; j; st]) with true.
  change (Jobs.starts ["tc"; "qdisc"] ["ip"; "link"; "set"; j; st]) with false. simpl. rewrite orb_false_r. f_equal.
  apply bool_decide_ext. split; [by intros [=]|by intros ->].
Qed.

Lemma int_parameter name z v : Channel.integer_parameter name (JInt z) = Ok v -> v = z.
Proof.
  unfold Channel.integer_parameter. rewrite bind_Ok. intros (u & _ & H%or_raise_Ok). revert H. unfold integral. cbn [number Qnum Qden inject_Z]. rewrite Z.div_1_r.
  replace (Qeq_bool (inject_Z z) (inject_Z z)) with true by (symmetry; by apply Qeq_bool_iff). by intros [= <-].
Qed.

Lemma qdisc_words i l f op q : Channel.qdisc_command i (link_json l) (JInt (queue_limit f)) op = Ok q ->
  q = ["tc"; "qdisc"; op; "dev"; i] ++ queue_words f l.
Proof.
  unfold Channel.qdisc_command, Channel.parameters. rewrite bind_Ok. intros (ps & Hps & H). revert H. split_guard. intros [= <-].
  apply bind_Ok in Hps as (dl & Hdl%or_raise_Ok & H). apply bind_Ok in H as (rt & Hrt%or_raise_Ok & H). revert H. unfold link_json, jget_or in *.
  unfold queue_words. destruct (latency_us l) as [us|]; [|by destruct (capacity_bps l), (loss_ppm l)]. destruct (capacity_bps l) as [bps|]; [|by destruct (loss_ppm l)].
  injection Hdl as <-. injection Hrt as <-. set (ls := dget _ "loss_ppm").
  assert (match ls with Some x => x | None => JInt 0 end = JInt (default 0 (loss_ppm l))) as -> by (unfold ls; by destruct (loss_ppm l)).
  rewrite bind_Ok. intros (v1 & ->%int_parameter & H). apply bind_Ok in H as (v2 & ->%int_parameter & H). apply bind_Ok in H as (v3 & ->%int_parameter & H). apply bind_Ok in H as (v4 & ->%int_parameter & H).
  revert H. split_guard. split_guard. by intros [= <-].
Qed.

(** ** The commands of a frame are plain *)

Lemma plain_word_app v w : plain_word v -> lacks (ch 32) w = true -> lacks (ch 10) w = true -> plain_word (v +:+ w).
Proof. intros (Hne & H1 & H2) W1 W2. split; [by destruct v|]. unfold lacks in *. by rewrite !all_chars_app, H1, H2, W1, W2. Qed.

Lemma digits_lack c s : is_digit c = false -> all_chars is_digit s = true -> lacks c s = true.
Proof.
  intros Hc. unfold lacks. induction s as [|a s IH]; simpl; [done|]. intros [Ha Hs]%andb_true_iff. rewrite IH, andb_true_r by done.
  apply negb_true_iff, Ascii.eqb_neq. congruence.
Qed.

Lemma plain_pretty (n : Z) : plain_word (pretty n).
Proof.
  split; [apply pretty_nonempty|]. assert (forall c, is_digit c = false -> c <> ch 45 -> lacks c (pretty n) = true) as H.
  { intros c Hc Hm. apply pretty_lacks; [|done]. intros d Hd E. rewrite <- E, <- (N2Z.id d) in Hc.
    by rewrite (below_cases (fun z => is_digit (pretty_N_char (Z.to_N z))) 10 ltac:(done) (Z.of_N d) ltac:(lia)) in Hc. }
  by split; apply H.
Qed.

Lemma queue_words_plain f l : Forall plain_word (queue_words f l).
Proof.
  unfold queue_words. repeat (apply Forall_cons; split); try apply Forall_nil; try done; try (by apply plain_word_app; [apply plain_pretty|..]).
  - apply plain_pretty.
  - unfold Channel.loss_percent. apply plain_word_app; [apply plain_pretty|..]; unfold lacks; cbn [all_chars String.append]; rewrite all_chars_app; apply andb_true_intro; (split; [done|]);
      rewrite all_chars_app; apply andb_true_intro; (split; [|done]); by apply digits_lack, Channel.digits_digit.
Qed.

Lemma interface_plain lv n p i : Live.live_built lv -> interface (Live.base lv) n p = Ok i -> plain_word i.
Proof.
  intros L (k & _ & ->)%Live.live_interface; [|done]. destruct (plain_pretty k) as (_ & H1 & H2). by apply (plain_word_app "sf").
Qed.

Lemma link_set_plain i st : plain_word i -> plain_word st -> plain (link_set i st).
Proof. intros Hi Hs. split; [|simpl; lia]. by repeat (apply Forall_cons; split). Qed.

Lemma readings_plain i : plain_word i -> Forall plain (readings i).
Proof.
  intros Hi. pose proof Hi as (_ & H1 & H2). repeat (apply Forall_cons; split); try apply Forall_nil; try done; (split; [|simpl; lia]); repeat (apply Forall_cons; split); try apply Forall_nil; try done.
  apply (plain_word_app "net.ipv4.conf."); [done|..]; unfold lacks in *; by rewrite all_chars_app, ?H1, ?H2.
Qed.

Section Frame.
Context (lv : Live.live) (L : Live.live_built lv).
#[local] Abbreviation f := (Live.base lv).
Context (pids : list (string * Z)) (Hpids : forall n m p, pid_of pids n = Ok p -> pid_of pids m = Ok p -> n = m).
Context (changed0 : list pair_t) (updates0 : Z) (ls : list link) (first readback : bool) (js : list job) (changed : list pair_t) (updates : Z).
Context (Hjobs : channel_jobs (Replay_ f changed0 updates0) pids ls first readback = Ok (js, changed, updates)).

Definition shape_commands (it : pair_t * link) : list words := queue_commands f first it ++ activate_commands f it ++ read_commands f readback it.

Definition node_commands (n : string) : list words :=
  concat (map (fun it => at_ it.1.1 (withdraw_commands f it) n) (direct ls)) ++ concat (map (fun it => at_ it.1.1 (shape_commands it) n) (direct ls)).

Lemma commands_plain it : Forall plain (withdraw_commands f it) /\ Forall plain (shape_commands it).
Proof using L.
  clear Hjobs Hpids. unfold shape_commands, withdraw_commands, queue_commands, activate_commands, read_commands.
  destruct (interface f it.1.1 it.1.2) as [i|] eqn:Hi; [|done]. apply interface_plain in Hi; [|done]. split.
  - destruct (active f it.1.1 it.1.2) as [[]|], (operational_up it.2) as [[]|]; try done. by constructor; [apply link_set_plain|].
  - repeat apply Forall_app_2.
    + destruct (dget (directed f) it.1); [|done]. destruct (_ || first); [|done]. destruct (Channel.qdisc_command _ _ _ _) as [q|] eqn:Hq; [|done].
      apply qdisc_words in Hq as ->. constructor; [|done]. split; [|simpl; lia]. apply Forall_app. split; [by repeat (apply Forall_cons; split)|apply queue_words_plain].
    + destruct (active f it.1.1 it.1.2) as [[]|], (operational_up it.2) as [[]|]; try done. by constructor; [apply link_set_plain|].
    + destruct readback; [by apply readings_plain|done].
Qed.

Lemma node_commands_plain n : Forall plain (node_commands n).
Proof using L.
  clear Hjobs Hpids. assert (forall g : pair_t * link -> list words, (forall it, Forall plain (g it)) -> Forall plain (concat (map (fun it => at_ it.1.1 (g it) n) (direct ls)))) as H.
  { intros g Hg. apply Forall_concat, Forall_fmap, Forall_forall. intros it _. unfold compose, at_. destruct (String.eqb n it.1.1); [apply Hg|constructor]. }
  apply Forall_app. split; apply H; intros it; apply commands_plain.
Qed.

(** The jobs before the empty ones are left out. *)
Lemma jobs_spec : exists all, js = List.filter (fun j => negb (bool_decide (commands j = []))) (dvalues all) /\ d_ok all /\
  (forall n, n ∈ dkeys (nodes f) -> is_Some (dget all n)) /\
  forall n j, dget all n = Some j -> pid_of pids n = Ok (pid j) /\ commands j = node_commands n.
Proof using Hjobs.
  clear Hpids L. revert Hjobs. unfold channel_jobs. cbn [fab changed_pairs channel_updates]. rewrite bind_Ok. intros (js0 & H0 & H).
  apply bind_Ok in H as ([js1 c1] & H1 & H). apply bind_Ok in H as ([js2 u2] & H2 & [= <- _ _]).
  apply (fold_extends fst _ (withdraw_commands f)) in H1; [|apply withdraw_extends]. apply (fold_extends fst _ shape_commands) in H2; [|apply shape_extends].
  cbn [fst] in H1, H2. destruct (extends_trans _ _ _ _ _ H1 H2) as [Hk He]. exists js2. split; [done|].
  assert (map fst js0 = dkeys (nodes f) /\ Forall (fun kj : string * job => pid_of pids kj.1 = Ok (pid kj.2) /\ commands kj.2 = []) js0) as [Hn Hf].
  { apply mapM_res_Ok in H0. clear -H0. induction H0 as [|n kj ns js0 Hkj _ [IH1 IH2]]; [done|]. apply bind_Ok in Hkj as (p & Hp & [= <-]).
    simpl. split; [by f_equal|by constructor]. }
  split; [unfold d_ok; rewrite Hk; apply d_ok_dict_of|].
  assert (forall n, n ∈ dkeys js2 <-> n ∈ dkeys (nodes f)) as Hin by (intros n; by rewrite Hk, elem_of_dkeys_dict_of, Hn).
  split; [intros n H%Hin; by apply dget_is_Some|]. intros n j Hj. assert (is_Some (dget (dict_of js0) n)) as [j0 Hj0].
  { apply dget_is_Some. rewrite <- Hk. apply dget_is_Some. by eexists. }
  pose proof (He _ _ Hj0) as E. rewrite Hj in E. injection E as ->. apply Forall_dict_of in Hf. rewrite Forall_forall in Hf.
  apply dget_Some_in, Hf in Hj0 as [Hp Hc]. simpl in *. by rewrite Hc.
Qed.

Lemma jobs_plain : Forall (fun j => Forall plain (commands j)) js.
Proof using L Hjobs.
  clear Hpids. destruct jobs_spec as (all & -> & Hall & _ & Hs). apply Forall_filter, Forall_fmap, Forall_forall. intros [n j] Hin. simpl.
  apply dget_in_ok in Hin; [|done]. destruct (Hs _ _ Hin) as [_ ->]. apply node_commands_plain.
Qed.

Lemma jobs_pids : NoDup (map pid js).
Proof using Hjobs Hpids.
  clear L. destruct jobs_spec as (all & -> & Hall & _ & Hs). apply Jobs.NoDup_map_filter.
  assert (forall n j, (n, j) ∈ all -> pid_of pids n = Ok (pid j)) as Hp by (intros n j H%dget_in_ok; [by apply Hs|done]).
  clear Hs Hjobs. unfold dvalues. induction all as [|[n j] all IH]; simpl; [constructor|]. apply NoDup_cons in Hall as [Hn Hall]. simpl in Hn. constructor.
  - rewrite list_elem_of_In, in_map_iff. intros (j' & E & Hj'). apply in_map_iff in Hj' as ([n' j''] & <- & Hin%list_elem_of_In). simpl in E.
    apply Hn. assert (n' = n) as <-; [|apply list_elem_of_In, in_map_iff; exists (n', j''); split; [done|by apply list_elem_of_In]].
    eapply Hpids; [|apply (Hp n j); left]. rewrite <- E. apply Hp. by right.
  - apply IH; [done|]. intros n' j' Hin. apply Hp. by right.
Qed.

(** *** One direction *)

Context (a b : string) (l : link) (i : string) (p : Z).
Context (Hl : dget (direct ls) (a, b) = Some l) (Hi : interface f a b = Ok i) (Hp : pid_of pids a = Ok p) (Ha : a ∈ dkeys (nodes f)).

Definition mine (c : words) : bool := about p i (p, c).

Lemma mine_link_set j st : mine (link_set j st) = bool_decide (j = i).
Proof. unfold mine. by rewrite about_link_set, Z.eqb_refl. Qed.

Lemma mine_queue j l' q : Channel.qdisc_command j (link_json l') (JInt (queue_limit f)) "change" = Ok q -> mine q = bool_decide (j = i).
Proof.
  intros ->%qdisc_words. unfold mine, about. cbn [fst snd]. rewrite Z.eqb_refl. simpl. apply bool_decide_ext. split; [by intros [=]|by intros ->].
Qed.

Lemma mine_readings j : List.filter mine (readings j) = [].
Proof. unfold readings, mine, about. cbn [List.filter fst snd]. rewrite Z.eqb_refl. done. Qed.

Lemma filter_mine_link_set j st : List.filter mine [link_set j st] = if decide (j = i) then [link_set j st] else [].
Proof. cbn [List.filter]. rewrite mine_link_set. by case_decide; [rewrite bool_decide_true|rewrite bool_decide_false]. Qed.

(** The commands of another direction of the node are not about this interface; those of the direction itself are, but for the readings. *)
Lemma direction_commands b' l' :
  List.filter mine (withdraw_commands f ((a, b'), l')) = (if decide (b' = b) then withdraw_commands f ((a, b'), l') else []) /\
  List.filter mine (shape_commands ((a, b'), l')) = (if decide (b' = b) then queue_commands f first ((a, b'), l') ++ activate_commands f ((a, b'), l') else []).
Proof using L Hi.
  clear Hjobs Hpids Hl Hp Ha. unfold shape_commands, withdraw_commands, queue_commands, activate_commands, read_commands. cbn [fst snd].
  destruct (interface f a b') as [j|] eqn:Hj; [|by case_decide].
  assert ((j = i) <-> b' = b) as Hji.
  { split; [intros ->; by eapply Live.live_interface_inj|]. intros ->. congruence. }
  rewrite !List.filter_app. assert (List.filter mine (if readback then readings j else []) = []) as -> by (destruct readback; [apply mine_readings|done]).
  rewrite app_nil_r. split.
  - destruct (active f a b') as [[]|], (operational_up l') as [[]|]; try (by case_decide). rewrite filter_mine_link_set.
    by repeat case_decide; try tauto.
  - assert (forall x y : list words, (if decide (b' = b) then x ++ y else []) = (if decide (b' = b) then x else []) ++ (if decide (b' = b) then y else [])) as -> by (intros; by case_decide).
    f_equal.
    + destruct (dget (directed f) (a, b')) as [old|]; [|by case_decide]. destruct (reshaped l' old || first); [|by case_decide].
      destruct (Channel.qdisc_command _ _ _ _) as [q|] eqn:Hq; [|by case_decide]. cbn [List.filter]. rewrite (mine_queue _ _ _ Hq).
      case_decide; [rewrite bool_decide_true by tauto|rewrite bool_decide_false by tauto]; done.
    + destruct (active f a b') as [[]|], (operational_up l') as [[]|]; try (by case_decide). rewrite filter_mine_link_set.
      by repeat case_decide; try tauto.
Qed.

(** Of the directions of a frame, only this one contributes. *)
Lemma only_direction (g : pair_t * link -> list words) (items : list (pair_t * link)) : d_ok items -> ((a, b), l) ∈ items ->
  (forall b' l', b' <> b -> List.filter mine (g ((a, b'), l')) = []) ->
  List.filter mine (concat (map (fun it => at_ it.1.1 (g it) a) items)) = List.filter mine (g ((a, b), l)).
Proof.
  clear Hjobs Hpids Hl Hp Ha Hi L. intros Hd Hin Hg. assert (forall items, (a, b) ∉ dkeys items -> List.filter mine (concat (map (fun it => at_ it.1.1 (g it) a) items)) = []) as Hnone.
  { clear Hd Hin items. induction items as [|[[a' b'] l'] items IH]; simpl; [done|]. intros [Hne Hn]%not_elem_of_cons. rewrite List.filter_app, IH by done.
    unfold at_. destruct (String.eqb_spec a a') as [<-|]; [|done]. rewrite Hg; [done|congruence]. }
  induction items as [|[[a' b'] l'] items IH]; [by apply not_elem_of_nil in Hin|]. apply NoDup_cons in Hd as [Hn Hd]. simpl in Hn. cbn [map concat fst].
  rewrite List.filter_app. apply elem_of_cons in Hin as [[= <- <- <-]|Hin].
  - rewrite Hnone by done. unfold at_. by rewrite String.eqb_refl, app_nil_r.
  - rewrite IH by done. unfold at_. destruct (String.eqb_spec a a') as [<-|]; [|done]. rewrite Hg; [done|]. intros ->. apply Hn. apply list_elem_of_In, in_map_iff.
    exists ((a, b), l). split; [done|by apply list_elem_of_In].
Qed.

Lemma node_commands_mine : List.filter mine (node_commands a) =
  withdraw_commands f ((a, b), l) ++ queue_commands f first ((a, b), l) ++ activate_commands f ((a, b), l).
Proof using L Hi Hl.
  clear Hjobs Hpids Hp Ha. unfold node_commands. rewrite List.filter_app. apply dget_Some_in in Hl. f_equal.
  - rewrite (only_direction (withdraw_commands f) (direct ls) (d_ok_dict_of _) Hl).
    + destruct (direction_commands b l) as [-> _]. by rewrite decide_True.
    + intros b' l' Hne. destruct (direction_commands b' l') as [-> _]. by rewrite decide_False.
  - rewrite (only_direction shape_commands (direct ls) (d_ok_dict_of _) Hl).
    + destruct (direction_commands b l) as [_ ->]. by rewrite decide_True.
    + intros b' l' Hne. destruct (direction_commands b' l') as [_ ->]. by rewrite decide_False.
Qed.

(** *** The trace, seen from the interface *)

Lemma observation_phase c : Jobs.observation c = in_phase Read c.
Proof.
  unfold in_phase, phase_of. destruct (Jobs.observation c); [done|]. symmetry. apply bool_decide_eq_false. destruct (Jobs.starts _ c); [|done].
  destruct (list.last c) as [w|]; [|done]. by destruct (String.eqb w "down"), (String.eqb w "up").
Qed.

Lemma filter_in_phase ph ph' cs : Forall (fun c => phase_of c = ph') cs -> List.filter (in_phase ph) cs = if decide (ph' = ph) then cs else [].
Proof.
  induction 1 as [|c cs Hc _ IH]; simpl; [by case_decide|]. unfold in_phase at 1. rewrite Hc, IH.
  by case_decide; [rewrite bool_decide_true|rewrite bool_decide_false].
Qed.

Lemma filter_mine_kept q cs : List.filter (about p i) (map (pair p) (List.filter q cs)) = map (pair p) (List.filter q (List.filter mine cs)).
Proof.
  clear Hjobs Hpids Hl Hp Ha Hi L. induction cs as [|c cs IH]; simpl; [done|]. unfold mine at 1. destruct (q c) eqn:E, (about p i (p, c)) eqn:E'; simpl; rewrite ?E, ?E', ?IH; done.
Qed.

Definition asks : list words := withdraw_commands f ((a, b), l) ++ queue_commands f first ((a, b), l) ++ activate_commands f ((a, b), l).

Lemma asks_phases : Forall (fun c => phase_of c = Down) (withdraw_commands f ((a, b), l)) /\
  Forall (fun c => phase_of c = Shape) (queue_commands f first ((a, b), l)) /\ Forall (fun c => phase_of c = Up) (activate_commands f ((a, b), l)).
Proof.
  clear Hjobs Hpids Hl Hp Ha Hi L. unfold withdraw_commands, queue_commands, activate_commands. cbn [fst snd]. destruct (interface f a b) as [j|]; [|done]. split_and!.
  - destruct (active f a b) as [[]|], (operational_up l) as [[]|]; repeat constructor.
  - destruct (dget (directed f) (a, b)); [|done]. destruct (_ || first); [|done]. destruct (Channel.qdisc_command _ _ _ _) as [q|] eqn:Hq; [|done].
    apply qdisc_words in Hq as ->. repeat constructor.
  - destruct (active f a b) as [[]|], (operational_up l) as [[]|]; repeat constructor.
Qed.

Lemma trace_mine outcome t r : execute outcome js t r ->
  List.filter (about p i) t `prefix_of` map (pair p) asks /\ (forall rs, r = Ok rs -> List.filter (about p i) t = map (pair p) asks).
Proof using All.
  intros Hex. destruct jobs_spec as (all & Ejs & Hall & Hnodes & Hs). destruct (Hnodes _ Ha) as [j Hj]. destruct (Hs _ _ Hj) as [Hpj Hcj].
  rewrite Hp in Hpj. injection Hpj as Ep. assert (forall x, about p i x = true -> x.1 = pid j) as Hq.
  { intros x [H _]%andb_true_iff. lia. }
  destruct (decide (commands j = [])) as [Hnil|Hne].
  - unfold asks. rewrite <- node_commands_mine, <- Hcj, Hnil. simpl.
    rewrite (Jobs.execute_absent j (about p i) Hq js jobs_plain outcome t r); [done| |exact Hex].
    intros k Hk Ek. rewrite Ejs in Hk. apply list_elem_of_In, filter_In in Hk as [Hk Hne]. apply in_map_iff in Hk as ([n k'] & <- & Hk%list_elem_of_In). simpl in *.
    apply dget_in_ok in Hk; [|done]. destruct (Hs _ _ Hk) as [Hpk _]. rewrite Ek, <- Ep in Hpk. rewrite (Hpids _ _ _ Hpk Hp), Hj in Hk. injection Hk as <-.
    by rewrite Hnil in Hne.
  - assert (j ∈ js) as Hin.
    { rewrite Ejs. apply list_elem_of_In, filter_In. split; [|by rewrite bool_decide_false]. apply in_map_iff. exists (a, j). split; [done|]. by apply list_elem_of_In, dget_Some_in. }
    pose proof (Jobs.execute_one j (about p i) Hq js jobs_plain jobs_pids Hin outcome t r Hex) as H.
    assert (List.filter (about p i) (Jobs.sequence j [Down; Shape; Up] ++ Jobs.kept j Jobs.observation) = map (pair p) asks) as E; [|by rewrite E in H].
    unfold Jobs.sequence, Jobs.kept. cbn [map concat]. rewrite app_nil_r, !List.filter_app, <- Ep, !filter_mine_kept, Hcj, node_commands_mine.
    destruct asks_phases as (H1 & H2 & H3). unfold asks.
    rewrite (filter_ext _ _ observation_phase), !List.filter_app. rewrite !(filter_in_phase _ _ _ H1), !(filter_in_phase _ _ _ H2), !(filter_in_phase _ _ _ H3).
    simpl. by rewrite !app_nil_r, !map_app.
Qed.

(** *** The interface is shaped before it is enabled *)

Lemma answer_up s : answer p i s (p, link_set i "up") = Ask true (asked_queue s).
Proof. unfold answer. by rewrite about_link_set, Z.eqb_refl, bool_decide_true. Qed.

Lemma answer_down s : answer p i s (p, link_set i "down") = Ask false (asked_queue s).
Proof. unfold answer. by rewrite about_link_set, Z.eqb_refl, bool_decide_true. Qed.

Lemma answer_queue s w : answer p i s (p, "tc" :: "qdisc" :: "change" :: "dev" :: i :: w) = Ask (asked_up s) (Some w).
Proof. unfold answer, about. cbn [fst snd]. rewrite Z.eqb_refl. simpl. by rewrite bool_decide_true. Qed.

Lemma prefix_cases {A} (x : A) u v : u `prefix_of` x :: v -> u = [] \/ exists u', u = x :: u' /\ u' `prefix_of` v.
Proof. destruct u as [|y u]; [by left|]. intros H. right. exists u. split; [by rewrite (prefix_cons_inv_1 _ _ _ _ H)|by eapply prefix_cons_inv_2]. Qed.

Lemma prefix_of_app {A} (u v w : list A) : w `prefix_of` u ++ v -> w `prefix_of` u \/ exists w', w = u ++ w' /\ w' `prefix_of` v.
Proof.
  revert w. induction u as [|x u IH]; intros w; simpl; [right; by exists w|]. intros [->|(w' & -> & H)]%prefix_cases; [left; apply prefix_nil|].
  destruct (IH _ H) as [H'|(w2 & -> & H')]; [left; by apply prefix_cons|right; by exists w2].
Qed.

(** The prefixes of a list that is given by its elements. *)
Ltac enumerate H :=
  lazymatch type of H with
  | _ `prefix_of` [] => apply prefix_nil_inv in H as ->
  | _ `prefix_of` _ :: _ => let u := fresh "u" in apply prefix_cases in H as [->|(u & -> & H)]; [|enumerate H]
  end.

Lemma prefix_map_inv {A B} (h : A -> B) u v : u `prefix_of` map h v -> exists w, u = map h w /\ w `prefix_of` v.
Proof.
  revert u. induction v as [|x v IH]; intros u; simpl; [intros ->%prefix_nil_inv; by exists []|].
  intros [->|(u' & -> & (w & -> & Hw)%IH)]%prefix_cases; [by exists []; split; [|apply prefix_nil]|]. exists (x :: w). split; [done|]. by apply prefix_cons.
Qed.

Lemma not_reshaped l' old : reshaped l' old = false -> queue_words f l' = queue_words f old.
Proof.
  clear Hjobs Hpids Hl Hp Ha Hi L. unfold reshaped, queue_words. simpl. rewrite !orb_false_iff, !negb_false_iff, !Z.eqb_eq. by intros (-> & -> & -> & _).
Qed.

Context (old : link) (up : bool) (Hold : dget (directed f) (a, b) = Some old) (Hup : operational_up l = Some up).

Lemma queue_spec : queue_commands f first ((a, b), l) = if reshaped l old || first then ["tc" :: "qdisc" :: "change" :: "dev" :: i :: queue_words f l] else [].
Proof using Hjobs Hl Hi Hold.
  clear Hpids Hp Ha L. unfold queue_commands. cbn [fst snd]. rewrite Hi, Hold. destruct (reshaped l old || first) eqn:E; [|done].
  revert Hjobs. unfold channel_jobs. rewrite bind_Ok. intros (js0 & _ & H). apply bind_Ok in H as ([js1 c1] & _ & H). apply bind_Ok in H as ([js2 u2] & H2 & _).
  apply dget_Some_in in Hl. destruct (foldM_each _ _ _ _ _ H2 Hl) as ([s1 u1] & s2 & H). revert H. unfold shape. cbn [fab]. rewrite Hi. simpl_res. rewrite Hold. simpl_res. rewrite E.
  destruct (Channel.qdisc_command _ _ _ _) as [q|] eqn:Hq; [|done]. intros _. by apply qdisc_words in Hq as ->.
Qed.

Lemma asks_spec was : active f a b = Ok was ->
  asks = (if was && negb up then [link_set i "down"] else []) ++ queue_commands f first ((a, b), l) ++ (if negb was && up then [link_set i "up"] else []).
Proof using Hi Hup. clear Hjobs Hpids Hl Hp Ha Hold L. intros Hw. unfold asks, withdraw_commands, activate_commands. cbn [fst snd]. rewrite Hi, Hw, Hup. by destruct was, up. Qed.

Lemma contact_safe s u : active f a b = Ok (asked_up s) -> (first = false -> asked_queue s = Some (queue_words f old)) ->
  u `prefix_of` asks -> asked_up (ask_after p i s (map (pair p) u)) = true ->
  asked_up s = true \/ asked_queue (ask_after p i s (map (pair p) u)) = Some (queue_words f l).
Proof using Hjobs Hl Hi Hold Hup.
  clear Hpids Hp Ha L. intros Hw Hs Hu. rewrite (asks_spec _ Hw), queue_spec in Hu. destruct s as [was queue]. simpl in *. destruct was; [by left|]. simpl in Hu.
  unfold ask_after. destruct (reshaped l old || first) eqn:E.
  - cbn [app] in Hu. apply prefix_cases in Hu as [->|(u1 & -> & Hu)]; [done|]. cbn [map fold_left].
    rewrite answer_queue. destruct up; [|apply prefix_nil_inv in Hu as ->; done].
    apply prefix_cases in Hu as [->|(u2 & -> & ->%prefix_nil_inv)]; [done|]. cbn [map fold_left]. rewrite answer_up. by right.
  - apply orb_false_iff in E as [E Hf]. rewrite (Hs Hf), (not_reshaped _ _ E). destruct up; [|apply prefix_nil_inv in Hu as ->; done].
    apply prefix_cases in Hu as [->|(u2 & -> & ->%prefix_nil_inv)]; [done|]. cbn [map fold_left]. rewrite answer_up. by right.
Qed.

(** The same commands again, after any part of them has run: the second run is as safe as the first and ends the same way. *)
Lemma contact_retry s u v : active f a b = Ok (asked_up s) -> asked_queue s = Some (queue_words f old) -> u `prefix_of` asks -> v `prefix_of` asks ->
  (asked_up (ask_after p i s (map (pair p) u ++ map (pair p) v)) = true ->
    asked_up s = true /\ asked_queue (ask_after p i s (map (pair p) u ++ map (pair p) v)) = Some (queue_words f old) \/
    up = true /\ asked_queue (ask_after p i s (map (pair p) u ++ map (pair p) v)) = Some (queue_words f l)) /\
  (v = asks -> ask_after p i s (map (pair p) u ++ map (pair p) v) = Ask up (Some (queue_words f l))).
Proof using Hjobs Hl Hi Hold Hup.
  clear Hpids Hp Ha L. intros Hw Hs. rewrite (asks_spec _ Hw), queue_spec. destruct s as [was queue]. simpl in Hs, Hw |- *. subst queue. unfold ask_after. rewrite !fold_left_app.
  destruct (reshaped l old || first) eqn:E; [|apply orb_false_iff in E as [E _]; rewrite (not_reshaped _ _ E)]; destruct was, up; simpl; intros Hu Hv; enumerate Hu; enumerate Hv;
    cbn [map fold_left]; rewrite ?answer_up, ?answer_down, ?answer_queue, ?answer_up, ?answer_down, ?answer_queue; cbn [asked_up asked_queue]; naive_solver.
Qed.

(** While it is up, an interface has the queue of the link it had or that of a new link that is up. *)
Lemma contact_strong s u : active f a b = Ok (asked_up s) -> asked_queue s = Some (queue_words f old) ->
  u `prefix_of` asks -> asked_up (ask_after p i s (map (pair p) u)) = true ->
  asked_up s = true /\ asked_queue (ask_after p i s (map (pair p) u)) = Some (queue_words f old) \/
  up = true /\ asked_queue (ask_after p i s (map (pair p) u)) = Some (queue_words f l).
Proof using Hjobs Hl Hi Hold Hup.
  intros Hw Hs Hu. exact (proj1 (contact_retry s [] u Hw Hs (prefix_nil _) Hu)).
Qed.

Lemma contact_final s : active f a b = Ok (asked_up s) -> (first = false -> asked_queue s = Some (queue_words f old)) ->
  ask_after p i s (map (pair p) asks) = Ask up (Some (queue_words f l)).
Proof using Hjobs Hl Hi Hold Hup.
  clear Hpids Hp Ha L. intros Hw Hs. rewrite (asks_spec _ Hw), queue_spec. destruct s as [was queue]. simpl in *. unfold ask_after. rewrite !map_app, !fold_left_app.
  destruct (reshaped l old || first) eqn:E.
  - destruct was, up; cbn [andb negb map fold_left]; rewrite ?answer_down, ?answer_up, answer_queue, ?answer_up; done.
  - apply orb_false_iff in E as [E Hf]. rewrite (Hs Hf), (not_reshaped _ _ E). destruct was, up; cbn [andb negb map fold_left]; rewrite ?answer_down, ?answer_up; done.
Qed.

End Frame.

(** What a run of the jobs does to one interface, moment by moment and at its end. *)
Lemma contact_trace lv pids changed0 updates0 ls first readback js changed updates outcome t r a b l i p old up s :
  Live.live_built lv -> (forall n m p, pid_of pids n = Ok p -> pid_of pids m = Ok p -> n = m) ->
  channel_jobs (Replay_ (Live.base lv) changed0 updates0) pids ls first readback = Ok (js, changed, updates) -> execute outcome js t r ->
  dget (direct ls) (a, b) = Some l -> interface (Live.base lv) a b = Ok i -> pid_of pids a = Ok p -> a ∈ dkeys (nodes (Live.base lv)) ->
  dget (directed (Live.base lv)) (a, b) = Some old -> operational_up l = Some up ->
  active (Live.base lv) a b = Ok (asked_up s) -> asked_queue s = Some (queue_words (Live.base lv) old) ->
  (forall t', t' `prefix_of` t -> asked_up (ask_after p i s t') = true ->
     asked_up s = true /\ asked_queue (ask_after p i s t') = Some (queue_words (Live.base lv) old) \/
     up = true /\ asked_queue (ask_after p i s t') = Some (queue_words (Live.base lv) l)) /\
  (forall rs, r = Ok rs -> ask_after p i s t = Ask up (Some (queue_words (Live.base lv) l))).
Proof.
  intros L Hpids Hjobs Hex Hl Hi Hp Ha Hold Hup Hw Hs. eapply trace_mine in Hex as [Hpre Heq]; try done. split.
  - intros t' Ht'. rewrite ask_filter. apply (Jobs.filter_prefix (about p i)) in Ht'. assert (List.filter (about p i) t' `prefix_of` map (pair p) (asks lv first a b l)) as Hu by (by etrans).
    apply prefix_map_inv in Hu as (u & -> & Hu). by eapply contact_strong.
  - intros rs Hr. rewrite ask_filter, (Heq _ Hr). by eapply contact_final.
Qed.

(** The same for a run, however it ended, and the run of the same jobs that follows it. *)
Lemma contact_trace_retry lv pids changed0 updates0 ls first readback js changed updates outcome outcome' t r0 t2 r a b l i p old up s :
  Live.live_built lv -> (forall n m p, pid_of pids n = Ok p -> pid_of pids m = Ok p -> n = m) ->
  channel_jobs (Replay_ (Live.base lv) changed0 updates0) pids ls first readback = Ok (js, changed, updates) -> execute outcome js t r0 -> execute outcome' js t2 r ->
  dget (direct ls) (a, b) = Some l -> interface (Live.base lv) a b = Ok i -> pid_of pids a = Ok p -> a ∈ dkeys (nodes (Live.base lv)) ->
  dget (directed (Live.base lv)) (a, b) = Some old -> operational_up l = Some up ->
  active (Live.base lv) a b = Ok (asked_up s) -> asked_queue s = Some (queue_words (Live.base lv) old) ->
  (forall t', t' `prefix_of` t2 -> asked_up (ask_after p i s (t ++ t')) = true ->
     asked_up s = true /\ asked_queue (ask_after p i s (t ++ t')) = Some (queue_words (Live.base lv) old) \/
     up = true /\ asked_queue (ask_after p i s (t ++ t')) = Some (queue_words (Live.base lv) l)) /\
  (forall rs, r = Ok rs -> ask_after p i s (t ++ t2) = Ask up (Some (queue_words (Live.base lv) l))).
Proof.
  intros L Hpids Hjobs Hex Hex2 Hl Hi Hp Ha Hold Hup Hw Hs. eapply trace_mine in Hex as [Hu _]; try done. eapply trace_mine in Hex2 as [Hpre Heq]; try done.
  apply prefix_map_inv in Hu as (u & Eu & Hu). split.
  - intros t' Ht'. rewrite ask_filter, List.filter_app, Eu. apply (Jobs.filter_prefix (about p i)) in Ht'.
    assert (List.filter (about p i) t' `prefix_of` map (pair p) (asks lv first a b l)) as Hv by (by etrans). apply prefix_map_inv in Hv as (v & -> & Hv). by eapply contact_retry.
  - intros rs Hr. rewrite ask_filter, List.filter_app, Eu, (Heq _ Hr). by eapply contact_retry.
Qed.

(** C5.  No unshaped forwarding window: take any frame applied to a live fabric, any interleaving of the nodes' commands and any failure among
    them.  At every moment of the run an interface that was down and has been enabled already has the queue of its new link; and when the run
    succeeds every interface is up exactly if its contact is, with the delay, rate and loss of the frame. *)
Theorem channels_realise lv pids changed0 updates0 ls first readback js changed updates outcome t r a b l i p old up s :
  Live.live_built lv -> (forall n m p, pid_of pids n = Ok p -> pid_of pids m = Ok p -> n = m) ->
  channel_jobs (Replay_ (Live.base lv) changed0 updates0) pids ls first readback = Ok (js, changed, updates) -> execute outcome js t r ->
  dget (direct ls) (a, b) = Some l -> interface (Live.base lv) a b = Ok i -> pid_of pids a = Ok p -> a ∈ dkeys (nodes (Live.base lv)) ->
  dget (directed (Live.base lv)) (a, b) = Some old -> operational_up l = Some up ->
  active (Live.base lv) a b = Ok (asked_up s) -> (first = false -> asked_queue s = Some (queue_words (Live.base lv) old)) ->
  (forall t', t' `prefix_of` t -> asked_up (ask_after p i s t') = true ->
     asked_up s = true \/ asked_queue (ask_after p i s t') = Some (queue_words (Live.base lv) l)) /\
  (forall rs, r = Ok rs -> ask_after p i s t = Ask up (Some (queue_words (Live.base lv) l))).
Proof.
  intros L Hpids Hjobs Hex Hl Hi Hp Ha Hold Hup Hw Hs. eapply trace_mine in Hex as [Hpre Heq]; try done. split.
  - intros t' Ht'. rewrite ask_filter. apply (Jobs.filter_prefix (about p i)) in Ht'. assert (List.filter (about p i) t' `prefix_of` map (pair p) (asks lv first a b l)) as Hu by (by etrans).
    apply prefix_map_inv in Hu as (u & -> & Hu). by eapply contact_safe.
  - intros rs Hr. rewrite ask_filter, (Heq _ Hr). by eapply contact_final.
Qed.

(** ** Readback *)

Record agrees (l : link) (r : report) : Prop := {
  ag_filter : rp_filter r = 0;
  ag_up up : operational_up l = Some up -> ("UP" ∈ flags r <-> up = true) /\ (up = true -> "LOWER_UP" ∈ flags r);
  ag_queue : exists q us bps, head (netems r) = Some q /\ latency_us l = Some us /\ capacity_bps l = Some bps /\
    (Qabs (delay q * 1000000 - inject_Z us) <= 2)%Q /\ Z.abs (default (rate q) (rate64 q) * 8 - bps) <= 8 /\
    (Qabs (default 0 (loss q) - inject_Z (default 0%Z (loss_ppm l)) / 1000000) <= 1 # 100000000)%Q }.

Lemma Qdiffer_false x y tol : Qdiffer x y tol = false -> (Qabs (x - y) <= tol)%Q.
Proof. unfold Qdiffer, Qltb. rewrite negb_false_iff. apply Qle_bool_iff. Qed.

Lemma check_report_agrees l r : check_report l r = Ok tt -> agrees l r.
Proof.
  unfold check_report. split_guard. rewrite bind_Ok. intros (up & Hup%or_raise_Ok & H). revert H. split_guard. rewrite bind_Ok. intros (q & Hq%or_raise_Ok & H).
  apply bind_Ok in H as (us & Hus%or_raise_Ok & H). revert H. split_guard. rewrite bind_Ok. intros (bps & Hbps%or_raise_Ok & H). revert H. split_guard. split_guard. intros _.
  match goal with H : negb (Bool.eqb _ _) || _ = false |- _ => apply orb_false_elim in H as [Hu Hlow] end.
  repeat match goal with H : Qdiffer _ _ _ = false |- _ => apply Qdiffer_false in H end.
  constructor.
  - match goal with H : negb (rp_filter r =? 0) = false |- _ => apply negb_false_iff in H end. lia.
  - intros up' E. rewrite Hup in E. injection E as <-. apply negb_false_iff, eqb_prop in Hu. unfold mem in Hu, Hlow. split.
    + rewrite <- Hu. by rewrite bool_decide_eq_true.
    + intros ->. simpl in Hlow. apply negb_false_iff in Hlow. by apply bool_decide_eq_true in Hlow.
  - exists q, us, bps. split_and!; try done. lia.
Qed.

(** A readback that verifies has looked at every direction of every node: each neighbour's interface reported, with reverse-path filtering off, up and
    with carrier exactly if its contact is up, and with delay, rate and loss of its link within two microseconds, one byte per second and 1e-8. *)
Theorem readback_sound f records n peers p : verify_readback f records = Ok tt -> n ∈ dkeys (nodes f) -> dget (adjacency f) n = Some peers -> p ∈ dkeys peers ->
  exists l i rs r, dget (directed f) (n, p) = Some l /\ interface f n p = Ok i /\ dget records n = Some rs /\ r ∈ rs /\ r_interface r = i /\ agrees l r.
Proof.
  unfold verify_readback. rewrite bind_Ok. intros (checked & Hc & _) Hn Hpeers Hp.
  destruct (foldM_each _ _ _ _ _ Hc Hn) as (c1 & c2 & H). revert H. unfold verify_node. rewrite bind_Ok. intros (rs & Hrs%or_raise_Ok & H).
  apply bind_Ok in H as (ps & Hps%or_raise_Ok & H). rewrite Hpeers in Hps. injection Hps as <-.
  destruct (foldM_each _ _ _ _ _ H Hp) as (c3 & c4 & Hs). apply bind_Ok in Hs as (l & Hl%or_raise_Ok & Hs). apply bind_Ok in Hs as (i & Hi & Hs).
  apply bind_Ok in Hs as (r & Hr%or_raise_Ok & Hs). apply bind_Ok in Hs as ([] & Hc'%check_report_agrees & _).
  exists l, i, rs, r. assert (Forall (fun ir : string * report => ir.2 ∈ rs /\ r_interface ir.2 = ir.1) (dict_of (map (fun r => (r_interface r, r)) rs))) as Hall.
  { apply Forall_dict_of, Forall_fmap, Forall_forall. intros r0 Hr0. by split. }
  rewrite Forall_forall in Hall. by destruct (Hall _ (dget_Some_in _ _ _ Hr)).
Qed.

(** ** Example: a new contact between the gateways *)

Definition up_link (a b : string) (us : Z) : link := Fabric.Fabric.Link (a +:+ ("-" +:+ b)) a b "oisl" (Some us) (Some 1000000000) None None (Some true) None.

Definition example_frame : list link :=
  [up_link "gw-a" "sat" 5000; up_link "sat" "gw-a" 6000; up_link "sat" "gw-b" 5000; up_link "gw-b" "sat" 5000; up_link "gw-a" "gw-b" 7000; up_link "gw-b" "gw-a" 5000].

Definition example_pids : list (string * Z) := [("gw-a", 101); ("gw-b", 102); ("sat", 103)].

Definition example_jobs : list job := match channel_jobs (Replay_ (Live.base Live.live1) [] 0) example_pids example_frame false false with Ok (js, _, _) => js | Err _ => [] end.

Definition example_trace : list (Z * words) := match Jobs.run_in_order Jobs.accepted example_jobs with Some (t, _) => t | None => [] end.

Definition example_before : ask := Ask false (Some (queue_words (Live.base Live.live1) (up_link "gw-a" "gw-b" 5000))).

Lemma channels_realise_witness :
  (forall t', t' `prefix_of` example_trace -> asked_up (ask_after 101 "sf1" example_before t') = true ->
     asked_up example_before = true \/ asked_queue (ask_after 101 "sf1" example_before t') = Some (queue_words (Live.base Live.live1) (up_link "gw-a" "gw-b" 7000))) /\
  ask_after 101 "sf1" example_before example_trace = Ask true (Some (queue_words (Live.base Live.live1) (up_link "gw-a" "gw-b" 7000))).
Proof.
  destruct (channels_realise Live.live1 example_pids [] 0 example_frame false false example_jobs [("gw-a", "gw-b")] 2 Jobs.accepted example_trace
    (Ok [("gw-b", []); ("gw-a", []); ("sat", [])]) "gw-a" "gw-b" (up_link "gw-a" "gw-b" 7000) "sf1" 101 (Live.down (Fabric.Fabric.example_link "gw-a" "gw-b")) true example_before) as [H1 H2].
  - apply Live.live1_built.
  - intros n m p. unfold pid_of, example_pids. simpl. repeat case_decide; simpl; congruence.
  - vm_compute. reflexivity.
  - apply Jobs.run_in_order_execute. vm_compute. reflexivity.
  - vm_compute. reflexivity.
  - vm_compute. reflexivity.
  - vm_compute. reflexivity.
  - apply (bool_decide_unpack _). vm_compute. exact I.
  - vm_compute. reflexivity.
  - vm_compute. reflexivity.
  - vm_compute. reflexivity.
  - intros _. vm_compute. reflexivity.
  - split; [exact H1|exact (H2 _ eq_refl)].
Defined.

Definition example_fabric : fabric := Live.or_else (Live.base Live.live1) (set_links (Live.base Live.live1) example_frame).

Definition example_report (i : string) (us : Z) : report := Report i 0 ["BROADCAST"; "UP"; "LOWER_UP"] [Netem (us # 1000000) 125000000 None None].

Definition example_reports : list (string * list report) :=
  [("gw-a", [example_report "sf1" 7000; example_report "sf2" 5000]); ("gw-b", [example_report "sf1" 5000; example_report "sf3" 5000]);
   ("sat", [example_report "sf2" 6000; example_report "sf3" 5000])].

Lemma readback_sound_witness :
  exists l i rs r, dget (directed example_fabric) ("gw-a", "gw-b") = Some l /\ interface example_fabric "gw-a" "gw-b" = Ok i /\ dget example_reports "gw-a" = Some rs /\
    r ∈ rs /\ r_interface r = i /\ agrees l r.
Proof.
  apply (readback_sound example_fabric example_reports "gw-a" (default [] (dget (adjacency example_fabric) "gw-a")) "gw-b").
  - vm_compute. reflexivity.
  - apply (bool_decide_unpack _). vm_compute. exact I.
  - vm_compute. reflexivity.
  - apply (bool_decide_unpack _). vm_compute. exact I.
Defined.

End Replay.
