(* ===== verification/Namespace.v ===== *)
(** * Namespace: what the privileged workers accept (lab/platform/frr_agent.py, frr_executor.py, namespace_jobs.py)

    The bridge and the executor run route operations and probes in a router; the worker applies manifests of contact
    configurations, channel updates and wiring.  Each accepts only the processes of the run, with the identity they had at start, and only
    the commands of a fixed grammar.  A request is the [json] value it is decoded from; [identity] is the start time [/proc] shows for a process. *)

From S2P Require Import Prelude Bytes Text Channel Regex Fabric LiveModel ContactPlan.
#[local] Open Scope Z_scope.
#[local] Open Scope list_scope.

Module Namespace.
Import Regex(re, Chr, Alt, cats, opt, plus, lit, alts, fullmatch).

(** ** Route operations and probes *)

Definition is_hex (c : ascii) : bool :=
  is_digit c || ((97 <=? code c) && (code c <=? 102)) || ((65 <=? code c) && (code c <=? 70)).

(** [[0-9a-fA-F:./]] and [[0-9a-fA-F:.]] *)
Definition prefix_char (c : ascii) : bool := is_hex c || Ascii.eqb c colon || Ascii.eqb c dot || Ascii.eqb c slash.
Definition address_char (c : ascii) : bool := is_hex c || Ascii.eqb c colon || Ascii.eqb c dot.

Definition route_re : re :=
  cats [opt (lit "no "); alts ["ip"; "ipv6"]; lit " route "; plus (Chr prefix_char); lit " "; plus (Chr address_char); opt (cats [lit " "; plus (Chr is_digit)])].

Definition fixed : list string := ["show version"; "show ip route static json"; "show ipv6 route static json"; "configure terminal"; "end"].

Definition percent : ascii := ch 37.

(** [ipaddress.ip_address(s)]: IPv4, or IPv6 with an optional scope that is not empty. *)
Definition ip_address (s : string) : res unit :=
  match ipv4_parse s with
  | Ok _ => Ok tt
  | Err _ =>
      let bad := ValueError "does not appear to be an IPv4 or IPv6 address" in
      if has_char slash s then Err bad else
      match split_on percent s with
      | [a] => match ipv6_parse a with Ok _ => Ok tt | Err _ => Err bad end
      | [a; scope] => if String.eqb scope "" then Err bad else match ipv6_parse a with Ok _ => Ok tt | Err _ => Err bad end
      | _ => Err bad
      end
  end.

(** The arguments as strings, of at most 512 characters each. *)
Definition short_string (v : json) : option string :=
  match v with JStr s => if (String.length s <=? 512)%nat then Some s else None | _ => None end.

Definition argument_list (v : json) : res (list string) :=
  let bad := ValueError "invalid argument list" in
  match v with
  | JList l =>
      raise bad when (len l =? 0) || (4096 <? len l) ;;
      mapM_res (fun a => or_raise bad (short_string a)) l
  | _ => Err bad
  end.

(** [args[0::2]] and [args[1::2]] *)
Fixpoint evens {A} (l : list A) : list A := match l with x :: l' => x :: match l' with _ :: l'' => evens l'' | [] => [] end | [] => [] end.
Definition odds {A} (l : list A) : list A := evens (drop 1 l).

(** [v == s] *)
Definition is_str (v : json) (s : string) : bool := match v with JStr x => String.eqb x s | _ => false end.

Definition route_command (v : string) : bool := mem v fixed || fullmatch route_re v.

(** The arguments, when the program may run with them. *)
Definition validate (program args : json) : res (list string) :=
  let* a := argument_list args in
  if is_str program "ping" then
    raise (ValueError "only one-packet probes are allowed") when
      negb (mem (removelast a) [["-n"; "-c"; "1"; "-W"; "1"]; ["-n"; "-c"; "1"; "-W"; "1"; "-6"]]) ;;
    let* _ := ip_address (List.last a "") in
    Ok a
  else if is_str program "vtysh" then
    raise (ValueError "only vtysh -c commands are allowed") when
      negb (len a mod 2 =? 0) || existsb (fun x => negb (String.eqb x "-c")) (evens a) ;;
    raise (ValueError "unsupported FRR adapter command") when existsb (fun v => negb (route_command v)) (odds a) ;;
    Ok a
  else Err (ValueError "unsupported executable").

(** ** The executor *)

Record target := Target { t_pid : Z; t_identity : string }.

(** The processes of the run are frozen at start. *)
Definition freeze (identity : Z -> res string) (nodes : list (string * Z)) : res (list (string * target)) :=
  let* l := mapM_res (fun np : string * Z => let* i := identity np.2 in Ok (np.1, Target np.2 i)) nodes in
  Ok (dict_of l).

Definition same_process (identity : Z -> res string) (t : target) : res unit :=
  let* i := identity (t_pid t) in
  raise (ValueError "router process identity changed") when negb (String.eqb i (t_identity t)) ;;
  Ok tt.

(** [body[k]] of a JSON value *)
Definition field (body : json) (k : string) : res json :=
  match body with JDict d => or_raise KeyError (dget d k) | _ => Err TypeError end.

(** [node not in nodes]: a list or a dictionary has no hash. *)
Definition owned_node {A} (nodes : list (string * A)) (node : json) : res A :=
  match node with
  | JStr n => or_raise (ValueError "node is not owned by this run") (dget nodes n)
  | JList _ | JDict _ => Err TypeError
  | _ => Err (ValueError "node is not owned by this run")
  end.

(** The prefix that enters the mount and network namespaces of a process. *)
Definition enter (pid : Z) : list string :=
  ["nsenter"; "--target"; pretty pid; "--mount"; "--net"; "--root=/proc/" +:+ (pretty pid +:+ "/root"); "--wd=/"].

Definition program_name (v : json) : string := match v with JStr s => s | _ => "" end.

(** [frr_executor.execute]: the command it starts. *)
Definition execute_request (identity : Z -> res string) (nodes : list (string * target)) (request : json) : res (list string) :=
  let* node := field request "node" in
  let* program := field request "program" in
  let* args := field request "args" in
  let* t := owned_node nodes node in
  let* a := validate program args in
  let* _ := same_process identity t in
  Ok (enter (t_pid t) ++ program_name program :: a).

(** ** Contact configuration *)

Definition contact_fixed : list string :=
  ["exit"; "mpls ldp"; "address-family ipv4"; "exit-address-family"; "ip router isis SF"; "ipv6 router isis SF"; "isis network point-to-point";
   "ip ospf area 0.0.0.0"; "ip ospf network point-to-point"; "ipv6 ospf6 area 0.0.0.0"; "ipv6 ospf6 network point-to-point"; "link-params"; "exit-link-params"].

Definition interface_re : re := cats [opt (lit "no "); lit "interface sf"; plus (Chr is_digit)].

Definition numeric_re : re :=
  cats [Alt (cats [lit "isis "; alts ["hello-interval"; "hello-multiplier"; "metric level-2"]])
            (cats [alts ["ip ospf"; "ipv6 ospf6"]; lit " "; alts ["hello-interval"; "dead-interval"; "cost"]]);
        lit " "; plus (Chr is_digit)].

Definition sign_char (c : ascii) : bool := Ascii.eqb c (ch 43) || Ascii.eqb c (ch 45).

Definition max_bw_re : re :=
  cats [lit "max-bw "; plus (Chr is_digit); opt (cats [lit "."; plus (Chr is_digit)]); opt (cats [lit "e"; opt (Chr sign_char); plus (Chr is_digit)])].

Definition contact_command (v : json) : bool :=
  match v with
  | JStr s => mem s contact_fixed || fullmatch interface_re s || fullmatch numeric_re s || fullmatch max_bw_re s
  | _ => false
  end.

(** [for x in v] *)
Definition iterate (v : json) : res (list json) :=
  match v with
  | JList l => Ok l
  | JStr s => Ok (map (fun c => JStr (String c "")) (String.list_ascii_of_string s))
  | JDict d => Ok (map JStr (dkeys d))
  | _ => Err TypeError
  end.

Definition contact_commands (v : json) : res unit :=
  let* cs := iterate v in
  raise (ValueError "unsupported contact configuration") when negb (forallb contact_command cs) ;;
  Ok tt.

(** ** The dispatcher *)

(** [self.pids] *)
Definition by_pid (nodes : list (string * target)) : list (Z * target) := dict_of (map (fun nt => (t_pid nt.2, nt.2)) nodes).

Definition check_target (identity : Z -> res string) (nodes : list (string * target)) (pid : json) : res unit :=
  match exact_int pid with
  | Some p => let* t := or_raise (ValueError "namespace is not owned by this run") (dget (by_pid nodes) p) in same_process identity t
  | None => Err (ValueError "namespace is not owned by this run")
  end.

(** [Path(filename).name == filename] *)
Definition local_name (s : string) : bool := lacks slash s && negb (String.eqb s ".").

(** The directory of the evidence: where a name resolves to, and the manifests it has. *)
Record evidence := Evidence { escapes : string -> bool; manifest : string -> res json }.

Definition newline : ascii := ch 10.

(** The words of a namespace command. *)
Definition namespace_command (v : json) : res (list string) :=
  let bad := ValueError "unsupported namespace command" in
  match v with
  | JList l =>
      let* a := mapM_res (fun x => or_raise bad (as_string x)) l in
      raise bad when negb (mem (hd "" a) ["ip"; "tc"; "sysctl"]) || existsb (has_char newline) a ;;
      Ok a
  | _ => Err bad
  end.

(** [args[args.index('netns')+1]], if ['netns'] is there *)
Fixpoint after_netns (a : list string) : option (res string) :=
  match a with
  | [] => None
  | x :: a' => if String.eqb x "netns" then Some (or_raise IndexError (head a')) else after_netns a'
  end.

Definition check_command (identity : Z -> res string) (nodes : list (string * target)) (v : json) : res (list string) :=
  let* a := namespace_command v in
  let* _ := match after_netns a with
    | None => Ok tt
    | Some w => let* w := w in let* p := py_int w in check_target identity nodes (JInt p)
    end in
  Ok a.

(** A job: its process and its commands. *)
Record job := Job { j_pid : Z; j_commands : list (list string) }.

Definition check_job (identity : Z -> res string) (nodes : list (string * target)) (channels : bool) (v : json) : res job :=
  let* p := field v "pid" in
  let* _ := check_target identity nodes p in
  let* cs := if channels then let* c := field v "commands" in iterate c else let* a := field v "args" in Ok [a] in
  let* cs := mapM_res (check_command identity nodes) cs in
  Ok (Job (default 0 (exact_int p)) cs).

(** The [vtysh] call of a node. *)
Definition configure_call (pid : Z) (commands : list string) : list string :=
  enter pid ++ "vtysh" :: concat (map (fun v => ["-c"; v]) ("configure terminal" :: commands ++ ["end"])).

Definition check_configure (identity : Z -> res string) (nodes : list (string * target)) (item : string * json) : res (list string) :=
  let* t := or_raise KeyError (dget nodes item.1) in
  let* _ := check_target identity nodes (JInt (t_pid t)) in
  let* _ := contact_commands item.2 in
  let* cs := iterate item.2 in
  Ok (configure_call (t_pid t) (map program_name cs)).

(** What a request starts, after every check. *)
Inductive action := Configure (calls : list (list string)) | Channels (jobs : list job) | Wire (groups : list (list job)).

Definition workers (body : json) : res Z :=
  let v := match body with JDict d => jget_or d "workers" (JInt 8) | _ => JNull end in
  match exact_int v with
  | Some w => raise (ValueError "invalid worker count") when negb ((1 <=? w) && (w <=? 32)) ;; Ok w
  | None => Err (ValueError "invalid worker count")
  end.

(** [Dispatcher.execute], up to the processes it starts. *)
Definition dispatch (identity : Z -> res string) (nodes : list (string * target)) (ev : evidence) (body : json) : res action :=
  let* filename := field body "manifest" in
  match filename with
  | JStr name =>
      raise (ValueError "manifest must be a local evidence filename") when negb (local_name name) ;;
      raise (ValueError "manifest escapes evidence directory") when escapes ev name ;;
      let* payload := manifest ev name in
      let* mode := field body "mode" in
      raise (ValueError "unsupported manifest mode") when negb (existsb (is_str mode) ["configure"; "channels"; "wire"]) ;;
      let* _ := workers body in
      if is_str mode "configure" then
        match payload with
        | JDict items => let* calls := mapM_res (check_configure identity nodes) items in Ok (Configure calls)
        | _ => Err AttributeError
        end
      else if is_str mode "channels" then let* js := iterate payload in let* js := mapM_res (check_job identity nodes true) js in Ok (Channels js)
      else
        let* groups := iterate payload in
        let* groups := mapM_res iterate groups in
        let* groups := mapM_res (mapM_res (check_job identity nodes false)) groups in
        Ok (Wire groups)
  | _ => Err (ValueError "manifest must be a local evidence filename")
  end.

(** ** The executor is confined *)

(** The characters of the accepted router commands: none that a shell or the router's command line could read as syntax. *)
Definition safe_char (c : ascii) : bool := prefix_char c || ((97 <=? code c) && (code c <=? 122)) || Ascii.eqb c (ch 32).

Lemma route_re_reads : Regex.reads safe_char route_re.
Proof.
  assert (forall c, prefix_char c = true -> safe_char c = true) as H1 by (intros c H; unfold safe_char; by rewrite H).
  assert (forall c, address_char c = true -> safe_char c = true) as H2.
  { intros c H. apply H1. revert H. unfold address_char, prefix_char. intros ->. done. }
  assert (forall c, is_digit c = true -> safe_char c = true) as H3 by (intros c H; apply H1; unfold prefix_char, is_hex; by rewrite H).
  unfold route_re. apply Regex.reads_cats. repeat (apply Forall_cons; split); try apply Forall_nil; try done; try (by apply Regex.reads_lit); try (by apply Regex.reads_plus).
  - by apply Regex.reads_opt, Regex.reads_lit.
  - apply Regex.reads_alts. by repeat constructor.
  - apply Regex.reads_opt, Regex.reads_cats. constructor; [by apply Regex.reads_lit|]. constructor; [by apply Regex.reads_plus|constructor].
Qed.

Lemma fixed_safe v : v ∈ fixed -> all_chars safe_char v = true.
Proof. revert v. apply Forall_forall. repeat constructor. Qed.

Lemma route_command_safe v : route_command v = true -> all_chars safe_char v = true.
Proof.
  unfold route_command, mem. rewrite orb_true_iff, bool_decide_eq_true. intros [H|H%Regex.fullmatch_inv]; [by apply fixed_safe|].
  by eapply Regex.matches_reads, H; apply route_re_reads.
Qed.

(** A list of even length whose even places are all [x]. *)
Lemma alternate (a : list string) x : len a mod 2 = 0 -> existsb (fun y => negb (String.eqb y x)) (evens a) = false ->
  a = concat (map (fun v => [x; v]) (odds a)).
Proof.
  assert (forall n a, (length a <= n)%nat -> len a mod 2 = 0 -> existsb (fun y => negb (String.eqb y x)) (evens a) = false ->
    a = concat (map (fun v => [x; v]) (odds a))) as H; [|by apply (H (length a))].
  clear a. induction n as [|n IH]; intros [|y [|z a]] Hn Hlen Hev; simpl in Hn; try done; [lia|].
  cbn [evens existsb] in Hev. apply orb_false_iff in Hev as [Hy Hev]. apply negb_false_iff, String.eqb_eq in Hy as ->.
  assert (odds (x :: z :: a) = z :: odds a) as -> by (by destruct a). cbn [map concat app]. do 2 f_equal. apply IH; [lia| |done].
  rewrite !len_cons in Hlen. rewrite <- Hlen. symmetry. replace (1 + (1 + len a)) with (len a + 1 * 2) by lia. apply Z_mod_plus_full.
Qed.

(** What may follow the namespace prefix. *)
Inductive permitted : list string -> Prop :=
| may_ping v6 address : ip_address address = Ok tt -> permitted ("ping" :: ["-n"; "-c"; "1"; "-W"; "1"] ++ (if v6 : bool then ["-6"] else []) ++ [address])
| may_vtysh cs : Forall (fun v => route_command v = true /\ all_chars safe_char v = true) cs -> permitted ("vtysh" :: concat (map (fun v => ["-c"; v]) cs)).

Lemma validate_permitted program args a : validate program args = Ok a -> permitted (program_name program :: a).
Proof.
  unfold validate. rewrite bind_Ok. intros (a' & _ & H). revert H. unfold is_str. destruct program as [| | | | |s| |]; try done.
  destruct (String.eqb_spec s "ping") as [->|_].
  - split_guard. rename Heqb into H. rewrite bind_Ok. intros ([] & Hip & [= ->]). apply negb_false_iff in H. unfold mem in H. apply bool_decide_eq_true in H.
    assert (a <> []) as Hne. { intros ->. simpl in H. by repeat (apply elem_of_cons in H as [H|H]; [done|]). }
    rewrite (app_removelast_last "" Hne). simpl program_name. rewrite !elem_of_cons in H. destruct H as [->|[->|[]%not_elem_of_nil]]; [by apply (may_ping false)|by apply (may_ping true)].
  - destruct (String.eqb_spec s "vtysh") as [->|_]; [|done]. split_guard. rename Heqb into H. split_guard. rename Heqb into H0. intros [= <-].
    apply orb_false_iff in H as [Hlen Hev]. apply negb_false_iff in Hlen. simpl. rewrite (alternate a' "-c") by (lia || done). apply may_vtysh.
    apply Forall_forall. intros v Hv. destruct (route_command v) eqn:E; [split; [done|by apply route_command_safe]|].
    rewrite <- not_true_iff_false, existsb_exists in H0. destruct H0. exists v. rewrite E. split; [by apply list_elem_of_In|done].
Qed.

(** What the executor starts: the program and arguments of the request in the process of its node. *)
Lemma execute_request_Ok identity nodes request cmd : execute_request identity nodes request = Ok cmd ->
  exists n t program args a, field request "node" = Ok (JStr n) /\ field request "program" = Ok program /\ field request "args" = Ok args /\
    dget nodes n = Some t /\ validate program args = Ok a /\ identity (t_pid t) = Ok (t_identity t) /\ cmd = enter (t_pid t) ++ program_name program :: a.
Proof.
  unfold execute_request. rewrite bind_Ok. intros (node & Hn & H). apply bind_Ok in H as (program & Hp & H). apply bind_Ok in H as (args & Hargs & H).
  apply bind_Ok in H as (t & Ht & H). apply bind_Ok in H as (a & Ha & H). apply bind_Ok in H as ([] & Hid & [= <-]).
  unfold owned_node in Ht. destruct node as [| | | | |n| |]; try done. apply or_raise_Ok in Ht. unfold same_process in Hid.
  apply bind_Ok in Hid as (i & Hi & H). revert H. split_guard. apply negb_false_iff, String.eqb_eq in Heqb as ->. intros _.
  by exists n, t, program, args, a.
Qed.

(** ** The dispatcher is confined *)

Section Dispatcher.
Context (identity : Z -> res string) (nodes : list (string * target)).

(** [p] is a process of the run, and still the same one. *)
Definition unchanged (p : Z) : Prop := exists n t, (n, t) ∈ nodes /\ t_pid t = p /\ identity p = Ok (t_identity t).

Lemma check_target_unchanged v : check_target identity nodes v = Ok tt -> exists p, v = JInt p /\ unchanged p.
Proof.
  unfold check_target. destruct v as [| |p| | | | |]; try done. simpl. rewrite bind_Ok. intros (t & Ht%or_raise_Ok & H). exists p. split; [done|].
  unfold by_pid in Ht. assert (Forall (fun pt : Z * target => exists n, (n, pt.2) ∈ nodes /\ t_pid pt.2 = pt.1) (dict_of (map (fun nt => (t_pid nt.2, nt.2)) nodes))) as Hall.
  { apply Forall_dict_of, Forall_fmap, Forall_forall. intros [n t'] Hin. by exists n. }
  rewrite Forall_forall in Hall. destruct (Hall _ (dget_Some_in _ _ _ Ht)) as (n & Hin & Hp). simpl in *. exists n, t. split_and!; try done.
  revert H. unfold same_process. rewrite bind_Ok. intros (i & Hi & H). revert H. split_guard. apply negb_false_iff, String.eqb_eq in Heqb as ->. by rewrite Hp in Hi.
Qed.

(** A command a job may have. *)
Record command_ok (a : list string) : Prop := {
  co_program : exists prog rest, a = prog :: rest /\ prog ∈ ["ip"; "tc"; "sysctl"];
  co_line : Forall (fun w => lacks newline w = true) a;
  co_netns w : after_netns a = Some (Ok w) -> exists p, py_int w = Ok p /\ unchanged p }.

Lemma check_command_ok v a : check_command identity nodes v = Ok a -> command_ok a.
Proof.
  unfold check_command. rewrite bind_Ok. intros (a' & Ha & H). apply bind_Ok in H as ([] & Hn & [= <-]). revert Ha. unfold namespace_command.
  destruct v as [| | | | | |l|]; try done. rewrite bind_Ok. intros (a & _ & H). revert H. split_guard. intros [= <-]. apply orb_false_iff in Heqb as [Hp Hl]. constructor.
  - apply negb_false_iff in Hp. unfold mem in Hp. apply bool_decide_eq_true in Hp. destruct a as [|prog rest]; [|by exists prog, rest].
    simpl in Hp. rewrite !elem_of_cons in Hp. by destruct Hp as [|[|[|[]%not_elem_of_nil]]].
  - apply Forall_forall. intros w Hw. destruct (lacks newline w) eqn:E; [done|]. rewrite <- not_true_iff_false, existsb_exists in Hl. destruct Hl. exists w.
    split; [by apply list_elem_of_In|]. unfold has_char. unfold lacks in E. by rewrite E.
  - intros w Hw. rewrite Hw in Hn. simpl_res. destruct (py_int w) as [p|] eqn:E; [|done]. simpl in Hn. apply check_target_unchanged in Hn as (p' & [= <-] & Hu). by exists p.
Qed.

(** A job in an owned namespace, with such commands; a configuration call in one, with commands of the contact grammar. *)
Definition job_ok (j : job) : Prop := unchanged (j_pid j) /\ Forall command_ok (j_commands j).

Definition call_ok (call : list string) : Prop :=
  exists p cs, unchanged p /\ call = configure_call p cs /\ Forall (fun v => contact_command (JStr v) = true) cs.

Definition confined (act : action) : Prop :=
  match act with Configure calls => Forall call_ok calls | Channels js => Forall job_ok js | Wire groups => Forall (Forall job_ok) groups end.

Lemma mapM_res_Forall {A B} (h : A -> res B) (P : B -> Prop) l ys : (forall x y, h x = Ok y -> P y) -> mapM_res h l = Ok ys -> Forall P ys.
Proof. intros Hh H%mapM_res_Ok. induction H; constructor; eauto. Qed.

Lemma check_job_ok channels v j : check_job identity nodes channels v = Ok j -> job_ok j.
Proof.
  unfold check_job. rewrite bind_Ok. intros (p & _ & H). apply bind_Ok in H as ([] & Ht & H). apply check_target_unchanged in Ht as (q & -> & Hq).
  apply bind_Ok in H as (cs & _ & H). apply bind_Ok in H as (cs' & Hc & [= <-]). split; [done|]. simpl. eapply mapM_res_Forall; [|exact Hc]. apply check_command_ok.
Qed.

Lemma check_configure_ok item call : check_configure identity nodes item = Ok call -> call_ok call.
Proof.
  unfold check_configure. rewrite bind_Ok. intros (t & _ & H). apply bind_Ok in H as ([] & Ht & H). apply check_target_unchanged in Ht as (p & [= <-] & Hu).
  apply bind_Ok in H as ([] & Hc & H). apply bind_Ok in H as (cs & Hcs & [= <-]). exists (t_pid t), (map program_name cs). split_and!; try done.
  revert Hc. unfold contact_commands. rewrite Hcs. simpl_res. split_guard. intros _. apply negb_false_iff in Heqb. rewrite forallb_forall in Heqb.
  apply Forall_fmap, Forall_forall. intros v Hv%list_elem_of_In%Heqb. by destruct v.
Qed.

Lemma dispatched_confined ev body act : dispatch identity nodes ev body = Ok act -> confined act.
Proof.
  unfold dispatch. rewrite bind_Ok. intros (fn & _ & H). destruct fn as [| | | | |name| |]; try done. revert H. split_guard. split_guard.
  rewrite bind_Ok. intros (payload & _ & H). apply bind_Ok in H as (mode & _ & H). revert H. split_guard. rewrite bind_Ok. intros (w & _ & H).
  destruct (is_str mode "configure"); [|destruct (is_str mode "channels")].
  - destruct payload; try done. apply bind_Ok in H as (calls & Hc & [= <-]). eapply mapM_res_Forall; [|exact Hc]. apply check_configure_ok.
  - apply bind_Ok in H as (vs & _ & H). apply bind_Ok in H as (js & Hj & [= <-]). eapply mapM_res_Forall; [|exact Hj]. apply check_job_ok.
  - apply bind_Ok in H as (vs & _ & H). apply bind_Ok in H as (gs & _ & H). apply bind_Ok in H as (groups & Hg & [= <-]). simpl.
    eapply mapM_res_Forall; [|exact Hg]. intros g js Hjs. eapply mapM_res_Forall; [|exact Hjs]. apply check_job_ok.
Qed.

End Dispatcher.

(** The contact grammar has no line breaks. *)
Lemma contact_command_line v : contact_command (JStr v) = true -> lacks newline v = true.
Proof.
  simpl. unfold mem. rewrite !orb_true_iff, bool_decide_eq_true. set (ok := fun c => negb (Ascii.eqb c newline)).
  assert (forall c, is_digit c = true -> ok c = true) as Hd by (intros c H; apply negb_true_iff, Ascii.eqb_neq; intros ->; by vm_compute in H).
  assert (Regex.reads ok interface_re /\ Regex.reads ok numeric_re /\ Regex.reads ok max_bw_re) as (R1 & R2 & R3).
  { assert (forall c, sign_char c = true -> ok c = true) as Hs by (intros c H; apply negb_true_iff, Ascii.eqb_neq; intros ->; by vm_compute in H).
    unfold interface_re, numeric_re, max_bw_re, Regex.opt. split_and!; apply Regex.reads_cats; repeat (apply Forall_cons; split); try apply Forall_nil; try done;
      try (by apply Regex.reads_lit); try (by apply Regex.reads_plus); split; try done; try (by apply Regex.reads_lit);
      apply Regex.reads_cats; repeat (apply Forall_cons; split); try apply Forall_nil; try done;
      try (by apply Regex.reads_lit); try (by apply Regex.reads_plus); try (apply Regex.reads_alts; by repeat constructor). }
  intros [[[H|H%Regex.fullmatch_inv]|H%Regex.fullmatch_inv]|H%Regex.fullmatch_inv]; [|eapply Regex.matches_reads; [|exact H]; done..].
  revert v H. apply Forall_forall. by repeat constructor.
Qed.

(** ** Example *)

Definition example_nodes : list (string * target) := [("sat-1", Target 4242 "98765")].

Definition example_identity (p : Z) : res string := if p =? 4242 then Ok "98765" else Err (OSError "no such process").

Definition example_request : json :=
  JDict [("node", JStr "sat-1"); ("program", JStr "vtysh");
         ("args", JList [JStr "-c"; JStr "configure terminal"; JStr "-c"; JStr "no ip route 172.22.0.8/32 10.128.0.5 20"; JStr "-c"; JStr "end"])].

Definition example_body : json := JDict [("mode", JStr "wire"); ("manifest", JStr "jobs.json")].

Definition example_evidence : evidence :=
  Evidence (fun _ => false) (fun _ => Ok (JList [JList [JDict [("pid", JInt 4242); ("args", JList [JStr "ip"; JStr "link"; JStr "set"; JStr "p1"; JStr "netns"; JStr "4242"])]]])).

Definition example_action : action := Wire [[Job 4242 [["ip"; "link"; "set"; "p1"; "netns"; "4242"]]]].

Lemma example_dispatched : dispatch example_identity example_nodes example_evidence example_body = Ok example_action.
Proof. vm_compute. reflexivity. Qed.

End Namespace.
