(* ===== verification/Provision.v ===== *)
(** * Provision: contacts created and retired by the live runtime (lab/live/runtime.py)

    [provision] registers the new pairs of a frame and writes the manifests that wire and configure them; [retire] those that remove the
    pairs that have long been down.  The privileged worker of [Namespace] checks the manifests before it runs them. *)

From S2P Require Import Prelude Bytes Text Channel Regex Fabric LiveModel ContactPlan PhysicsJobs Replay Namespace.
#[local] Open Scope Z_scope.
#[local] Open Scope list_scope.

Module Provision.
Import Fabric.Fabric(fabric, link, pair_t, interface, wiring, pid_of, enabled, nodes, links, Job, job, ifname, cost, index, endpoints, binding_of, port_capacity, selected_interface,
  if_, isis_lines, ospf_lines, bandwidth_lines, add, command, link_commands, end_commands, capacity_bps, link_json, queue_limit, directed).
Import Live(live, base, register, expired, forget, interface_commands, live_built).
Import Namespace(action, Configure, Wire, dispatch, evidence, target, contact_command, freeze, check_target, unchanged, configure_call).

(** ** New contacts *)

(** [sorted(pairs)] *)
Definition pair_leb (p q : pair_t) : bool := if String.eqb p.1 q.1 then String.leb p.2 q.2 else String.leb p.1 q.1.

(** [commands.setdefault(n, []).extend(cs)] *)
Definition extend (d : list (string * list string)) (n : string) (cs : list string) : list (string * list string) := dset d n (default [] (dget d n) ++ cs).

Record manifests := Manifests { groups : list (list job); commands : list (string * list string) }.

(** Both ends of a pair. *)
Definition pair_commands (lv : live) (d : list (string * list string)) (p : pair_t) : res (list (string * list string)) :=
  let (a, b) := p in
  let* ca := interface_commands lv a b in
  let d := extend d a ca in
  let* cb := interface_commands lv b a in
  Ok (extend d b cb).

(** The new pairs are a Python set; [order] is the order in which the loop of the configuration iterates over it, one of its enumerations. *)
Definition provision (order : list pair_t -> list pair_t) (lv : live) (pids : list (string * Z)) (frame : list link) (tick : Q) : res (live * option manifests) :=
  let* (lv', pairs) := register lv frame tick in
  match pairs with
  | [] => Ok (lv', None)
  | _ =>
      let* gs := mapM_res (fun p => wiring (base lv') pids (Some [p])) (sort_by pair_leb pairs) in
      let* cs := foldM (pair_commands lv') [] (order pairs) in
      Ok (lv', Some (Manifests gs cs))
  end.

(** The configuration is tried three times; [run] gives the worker's answer to an attempt and [stopped] tells whether the pause after it is interrupted. *)
Fixpoint attempts_from (attempt left : nat) (run : nat -> res unit) (stopped : nat -> bool) : res unit :=
  match left with
  | O => Ok tt
  | S left' =>
      match run attempt with
      | Ok _ => Ok tt
      | Err (RuntimeError _ as x) | Err (TimeoutExpired as x) =>
          if (attempt =? 2)%nat then Err x
          else if stopped attempt then Err (InterruptedError "stopped during contact configuration")
          else attempts_from (S attempt) left' run stopped
      | Err x => Err x
      end
  end.

Definition configure_attempts : (nat -> res unit) -> (nat -> bool) -> res unit := attempts_from 0 3.

(** ** Retired contacts *)

Definition retire_pair (lv : live) (pids : list (string * Z)) (st : list job * list (string * list string)) (p : pair_t) : res (list job * list (string * list string)) :=
  let (a, b) := p in
  let* i := interface (base lv) a b in
  let* pid := pid_of pids a in
  let cs := (if enabled (base lv) "ldp" then ["mpls ldp"; "address-family ipv4"; "no interface " +:+ i; "exit-address-family"; "exit"] else []) ++ ["no interface " +:+ i] in
  Ok (st.1 ++ [Job pid ["ip"; "link"; "del"; i]], extend (extend st.2 a cs) b cs).

(** [retire] and the manifests it runs, before [forget]. *)
Definition retire (lv : live) (pids : list (string * Z)) (tick : Q) : res (live * option manifests) :=
  let* pairs := expired lv tick 120 in
  let* (jobs, configurations) := foldM (retire_pair lv pids) ([], []) pairs in
  match pairs with
  | [] => Ok (lv, None)
  | _ =>
      let* lv' := forget lv pairs in
      Ok (lv', Some (Manifests (map (fun j => [j]) jobs) configurations))
  end.

(** ** The files the worker reads *)

Definition job_json (j : job) : json := JDict [("pid", JInt (Fabric.Fabric.pid j)); ("args", JList (map JStr (Fabric.Fabric.args j)))].

Definition groups_json (gs : list (list job)) : json := JList (map (fun g => JList (map job_json g)) gs).

Definition commands_json (d : list (string * list string)) : json := JDict (map (fun nc => (nc.1, JList (map JStr nc.2))) d).

Definition request (mode file : string) : json := JDict [("mode", JStr mode); ("manifest", JStr file); ("workers", JInt 8)].

(** ** The contact grammar covers the contact configuration *)

Lemma interface_accepted no k : 0 <= k -> contact_command (JStr ((if no : bool then "no interface sf" else "interface sf") +:+ pretty k)) = true.
Proof.
  intros Hk. unfold contact_command. assert (Regex.fullmatch Namespace.interface_re ((if no then "no interface sf" else "interface sf") +:+ pretty k) = true) as ->;
    [|by rewrite orb_true_r].
  apply Regex.fullmatch_ok. rewrite <- (append_nil_r (pretty k)).
  assert (Regex.matches (Regex.cats [Regex.lit "interface sf"; Regex.plus (Regex.Chr is_digit)]) ("interface sf" +:+ (pretty k +:+ ""))) as H.
  { apply Regex.cats_lit, Regex.cats_class; [apply pretty_nonempty|by apply pretty_digits|apply Regex.cats_nil]. }
  destruct no; [|by apply Regex.cats_skip]. exact (Regex.cats_take _ _ "no " _ (Regex.lit_matches "no ") H).
Qed.

(** A line that ends in a number. *)
Lemma numeric_accepted s n : s ∈ ["isis hello-interval"; "isis hello-multiplier"; "isis metric level-2"; "ip ospf hello-interval"; "ip ospf dead-interval"; "ip ospf cost";
    "ipv6 ospf6 hello-interval"; "ipv6 ospf6 dead-interval"; "ipv6 ospf6 cost"] -> 0 <= n -> contact_command (JStr (s +:+ (" " +:+ pretty n))) = true.
Proof.
  intros Hs Hn. unfold contact_command. assert (Regex.fullmatch Namespace.numeric_re (s +:+ (" " +:+ pretty n)) = true) as ->; [|by rewrite orb_true_r].
  apply Regex.fullmatch_ok. rewrite <- (append_nil_r (pretty n)). apply Regex.cats_cons.
  - apply Regex.fullmatch_inv. revert s Hs. apply Forall_forall. repeat (apply Forall_cons; split; [vm_compute; reflexivity|]). by apply Forall_nil.
  - apply Regex.cats_lit, Regex.cats_class; [apply pretty_nonempty|by apply pretty_digits|apply Regex.cats_nil].
Qed.

Lemma fixed_accepted s : s ∈ Namespace.contact_fixed -> contact_command (JStr s) = true.
Proof. intros Hs. simpl. unfold mem. by rewrite bool_decide_true. Qed.

(** A decimal number, as both formats print it. *)
Lemma bandwidth_accepted a d : a <> "" -> all_chars is_digit a = true -> all_chars is_digit d = true -> d <> "" ->
  contact_command (JStr ("max-bw " +:+ a)) = true /\ contact_command (JStr ("max-bw " +:+ (a +:+ ("." +:+ d)))) = true.
Proof.
  intros Ha Hda Hd Hne. unfold contact_command.
  assert (Regex.fullmatch Namespace.max_bw_re ("max-bw " +:+ a) = true /\ Regex.fullmatch Namespace.max_bw_re ("max-bw " +:+ (a +:+ ("." +:+ d))) = true) as [-> ->];
    [|by rewrite !orb_true_r].
  split; apply Regex.fullmatch_ok, Regex.cats_lit.
  - rewrite <- (append_nil_r a). apply Regex.cats_class; [done|done|]. apply Regex.cats_skip, Regex.cats_skip, Regex.cats_nil.
  - apply Regex.cats_class; [done|done|]. rewrite <- (append_nil_r ("." +:+ d)). apply Regex.cats_take; [|apply Regex.cats_skip, Regex.cats_nil].
    rewrite <- (append_nil_r d). apply Regex.cats_lit, Regex.cats_class; [done|done|apply Regex.cats_nil].
Qed.

(** *** The formats of the bandwidth *)

Lemma snoc_cases s : s = "" \/ exists s' c, s = s' +:+ String c "".
Proof.
  induction s as [|c s IH]; [by left|]. right. destruct IH as [->|(s' & c' & ->)]; [by exists "", c|by exists (String c s'), c'].
Qed.

Lemma endswith_snoc s c d : endswith (s +:+ String c "") (String d "") = Ascii.eqb c d.
Proof.
  unfold endswith, str_tail. rewrite append_length. cbn [String.length]. replace (String.length s + 1 - 1)%nat with (String.length s) by lia.
  assert (drop_str (String.length s) (s +:+ String c "") = String c "") as ->; [|simpl; by destruct (Ascii.eqb c d)].
  induction s as [|x s IH]; [done|exact IH].
Qed.

Lemma substring_snoc s c : String.substring 0 (String.length (s +:+ String c "") - 1) (s +:+ String c "") = s.
Proof.
  rewrite append_length. cbn [String.length]. replace (String.length s + 1 - 1)%nat with (String.length s) by lia.
  induction s as [|x s IH]; [done|]. change (String x s +:+ String c "") with (String x (s +:+ String c "")). cbn [String.length String.substring]. by rewrite IH.
Qed.

Lemma strip_zeros_forms fuel a d : (String.length d < fuel)%nat -> all_chars is_digit a = true -> a <> "" -> all_chars is_digit d = true ->
  Channel.strip_zeros fuel (a +:+ ("." +:+ d)) = a \/
  exists d', Channel.strip_zeros fuel (a +:+ ("." +:+ d)) = a +:+ ("." +:+ d') /\ d' <> "" /\ all_chars is_digit d' = true.
Proof.
  revert d. induction fuel as [|fuel IH]; intros d Hf Ha Hne Hd; [lia|]. cbn [Channel.strip_zeros]. destruct (snoc_cases d) as [->|(d' & c & ->)].
  - left. rewrite append_nil_r. change "." with (String (ch 46) "") at 1 3 4. change "." with (String (ch 46) ""). rewrite !endswith_snoc. simpl. apply substring_snoc.
  - rewrite append_length in Hf. cbn [String.length] in Hf. rewrite all_chars_app in Hd. apply andb_true_iff in Hd as [Hd' Hc].
    assert (a +:+ ("." +:+ (d' +:+ String c "")) = (a +:+ ("." +:+ d')) +:+ String c "") as E by (by rewrite !append_assoc).
    assert (forall x, endswith (a +:+ ("." +:+ (d' +:+ String c ""))) (String x "") = Ascii.eqb c x) as Hend by (intros x; rewrite E; apply endswith_snoc).
    rewrite (Hend (ch 48) : endswith _ "0" = _), (Hend (ch 46) : endswith _ "." = _).
    destruct (Ascii.eqb_spec c (ch 48)) as [->|Hne0].
    + rewrite E, substring_snoc. apply IH; [lia|done..].
    + right. exists (d' +:+ String c ""). split; [|split; [by destruct d'|by rewrite all_chars_app, Hd', Hc]].
      cbn [all_chars] in Hc. destruct (Ascii.eqb_spec c (ch 46)) as [->|_]; [by vm_compute in Hc|done].
Qed.

Lemma digits_length n v : String.length (digits n v) = n.
Proof. induction n as [|n IH]; [done|]. cbn [digits String.length]. by rewrite IH. Qed.

Lemma frr_bandwidth_accepted c : 0 <= c -> contact_command (JStr ("max-bw " +:+ Channel.frr_bandwidth c)) = true.
Proof.
  intros Hc. unfold Channel.frr_bandwidth. set (places := Z.min 3 _). set (q := c * 10 ^ places / 8). set (rounded := if _ : bool then q + 1 else q).
  assert (0 <= rounded) as Hr.
  { assert (0 <= q) by (apply Z.div_pos; [|lia]; apply Z.mul_nonneg_nonneg; [done|]; destruct (Z.le_gt_cases 0 places); [apply Z.pow_nonneg; lia|rewrite Z.pow_neg_r; lia]).
    unfold rounded. destruct (_ || _); lia. }
  destruct (places =? 0).
  - apply (bandwidth_accepted _ "0"); [apply pretty_nonempty|by apply pretty_digits|done|done].
  - set (whole := rounded / 10 ^ places). assert (0 <= whole) as Hw.
    { unfold whole. destruct (Z.le_gt_cases 0 places); [apply Z.div_pos; [done|by apply Z.pow_pos_nonneg]|by rewrite Z.pow_neg_r, Z.div_0_r by done]. }
    destruct (strip_zeros_forms 4 (pretty whole) (digits (Z.to_nat places) (rounded mod 10 ^ places))) as [->|(d & -> & Hne & Hd)].
    + rewrite digits_length. lia.
    + by apply pretty_digits.
    + apply pretty_nonempty.
    + apply Channel.digits_digit.
    + apply (bandwidth_accepted _ "0"); [apply pretty_nonempty|by apply pretty_digits|done|done].
    + apply bandwidth_accepted; [apply pretty_nonempty|by apply pretty_digits|done|done].
Qed.

Lemma eighths_accepted c : 0 <= c -> contact_command (JStr ("max-bw " +:+ Live.eighths c)) = true.
Proof.
  intros Hc. unfold Live.eighths. apply bandwidth_accepted; [apply pretty_nonempty|apply pretty_digits, Z.div_pos; lia| |].
  - repeat case_match; apply Channel.digits_digit.
  - by repeat case_match.
Qed.

Definition line_ok (s : string) : Prop := contact_command (JStr s) = true.

Lemma isis_lines_ok c : 0 <= c -> Forall line_ok (isis_lines c).
Proof.
  intros Hc. unfold isis_lines. repeat (apply Forall_cons; split); [vm_compute; reflexivity..| |by apply Forall_nil]. apply (numeric_accepted "isis metric level-2"); [set_solver|done].
Qed.

Lemma ospf_lines_ok c : 0 <= c -> Forall line_ok (ospf_lines c).
Proof.
  intros Hc. unfold ospf_lines. repeat (apply Forall_cons; split); try (by apply Forall_nil); try (vm_compute; reflexivity).
  - apply (numeric_accepted "ip ospf cost"); [set_solver|done].
  - apply (numeric_accepted "ipv6 ospf6 cost"); [set_solver|done].
Qed.

Lemma if_ok {A} (P : A -> Prop) b l : Forall P l -> Forall P (if_ b l).
Proof. by destruct b. Qed.

Lemma pair_index_nonneg a b ids k : Live.pair_index a b ids = Ok k -> 0 <= k.
Proof. intros H%Live.pair_index_bounds. lia. Qed.

Lemma interface_commands_ok lv a b cs : live_built lv -> (forall c, port_capacity (base lv) a b = Ok c -> 0 <= c) ->
  interface_commands lv a b = Ok cs -> Forall line_ok cs.
Proof.
  intros L Hcap. unfold interface_commands. destruct (Fabric.Fabric.network_profile (base lv)) as [pr|].
  - rewrite bind_Ok. intros (lines & Hl & H). assert (Forall line_ok lines /\ exists k, 0 <= k /\ interface (base lv) a b = Ok ("sf" +:+ pretty k)) as [Hlines (k & Hk & Hi)].
    { revert Hl. unfold selected_interface. rewrite bind_Ok. intros (v & Hv & Hl). apply bind_Ok in Hl as (bw & Hbw & [= <-]).
      assert (interface (base lv) a b = Ok (ifname v)) as Hi by (unfold interface; by rewrite Hv). pose proof Hi as Hi'. apply Live.live_interface in Hi' as (k & Hk & Ek); [|done].
      apply pair_index_nonneg in Hk. rewrite Ek in Hi. split; [|by exists k]. assert (0 <= cost v) as Hc.
      { revert Hv. unfold binding_of. rewrite bind_Ok. intros (ps & _ & H1). apply bind_Ok in H1 as (key & _ & H1%or_raise_Ok). apply Live.live_built_cost in H1; [lia|done]. }
      rewrite Ek. apply Forall_cons_2; [|apply Forall_app_2; [|apply Forall_app_2; [|apply Forall_app_2; [|apply Forall_cons_2; [|apply Forall_nil_2]]]]].
      - by apply (interface_accepted false).
      - apply if_ok. apply Forall_cons_2; [vm_compute; reflexivity|]. apply Forall_cons_2; [vm_compute; reflexivity|]. by apply isis_lines_ok.
      - apply if_ok. by apply ospf_lines_ok.
      - destruct (enabled (base lv) "bgpls"); [|by injection Hbw as <-]. apply bind_Ok in Hbw as (c & Hc'%Hcap & [= <-]).
        apply Forall_cons_2; [vm_compute; reflexivity|]. apply Forall_cons_2; [by apply frr_bandwidth_accepted|]. apply Forall_cons_2; [vm_compute; reflexivity|apply Forall_nil_2].
      - vm_compute. reflexivity. }
    destruct (enabled (base lv) "ldp"); [|by injection H as <-]. rewrite Hi in H. simpl_res. injection H as <-. apply Forall_app_2; [done|].
    repeat apply Forall_cons_2; try apply Forall_nil_2; first [by apply (interface_accepted false)|vm_compute; reflexivity].
  - rewrite bind_Ok. intros (v & Hv%or_raise_Ok & H). apply bind_Ok in H as (c & Hc%Hcap & [= <-]).
    assert (exists k, 0 <= k /\ ifname v = "sf" +:+ pretty k) as (k & Hk & ->).
    { destruct (Live.lo_keys _ (Live.live_built_ok _ L) _ _ Hv) as (_ & w & Hw & _ & -> & _). revert Hw. unfold Live.binding_for. rewrite bind_Ok.
      intros (k & Hk%pair_index_nonneg & H). apply bind_Ok in H as (e0 & _ & H). apply bind_Ok in H as (e1 & _ & [= <-]). by exists k. }
    repeat apply Forall_app_2; repeat apply Forall_cons_2; try apply Forall_nil_2;
      first [by apply (interface_accepted false)|by apply eighths_accepted|vm_compute; reflexivity].
Qed.

(** ** The worker accepts the wiring *)

(** A word on one line that is not the word that moves an interface. *)
Definition word_ok (w : string) : Prop := lacks (ch 10) w = true /\ w <> "netns".

Lemma has_other c w : lacks c w = false -> lacks c "netns" = true -> w <> "netns".
Proof. intros H1 H2 ->. congruence. Qed.

Lemma lacks_app c v w : lacks c (v +:+ w) = lacks c v && lacks c w.
Proof. apply all_chars_app. Qed.

Lemma pretty_line (n : Z) : lacks (ch 10) (pretty n) = true.
Proof. by destruct (Replay.plain_pretty n) as (_ & _ & H). Qed.

Lemma pretty_word (n : Z) : word_ok (pretty n).
Proof.
  split; [apply pretty_line|]. intros E. assert (lacks (ch 110) (pretty n) = true) as H; [|rewrite E in H; done].
  apply pretty_lacks; [|done]. intros d Hd E'. assert (is_digit (pretty_N_char d) = true) as H; [|by rewrite E' in H].
  rewrite <- (N2Z.id d). apply (below_cases (fun z => is_digit (pretty_N_char (Z.to_N z))) 10); [done|lia].
Qed.

(** A word with a fixed beginning or end. *)
Lemma word_prefix s w : lacks (ch 10) s = true -> (forall x, s +:+ x <> "netns") -> lacks (ch 10) w = true -> word_ok (s +:+ w).
Proof. intros H1 H2 H3. split; [by rewrite lacks_app, H1, H3|apply H2]. Qed.

Lemma word_suffix c s w : lacks (ch 10) w = true -> lacks (ch 10) s = true -> lacks c s = false -> lacks c "netns" = true -> word_ok (w +:+ s).
Proof. intros H1 H2 H3 H4. split; [by rewrite lacks_app, H1, H2|]. apply (has_other c); [|done]. by rewrite lacks_app, H3, andb_false_r. Qed.

Lemma queue_words_ok f l : Forall word_ok (Replay.queue_words f l).
Proof.
  pose proof (Replay.queue_words_plain f l) as Hp. unfold Replay.queue_words in *. repeat match goal with H : Forall _ (_ :: _) |- _ => inversion H; clear H; subst end.
  repeat apply Forall_cons_2; try apply Forall_nil_2; try (by split).
  - apply pretty_word.
  - apply (word_suffix (ch 117)); [apply pretty_line|done..].
  - apply (word_suffix (ch 98)); [apply pretty_line|done..].
  - match goal with H : Jobs.plain_word (Channel.loss_percent _) |- _ => destruct H as (_ & _ & H) end. split; [done|]. apply (has_other (ch 37)); [|done].
    unfold Channel.loss_percent. rewrite !lacks_app. by rewrite !andb_false_r.
Qed.

Lemma ipv4_line v : lacks (ch 10) (ipv4_str v) = true.
Proof. apply join_lacks; [done|]. apply forallb_forall. intros s Hs. apply in_map_iff in Hs as (b & <- & _). apply pretty_line. Qed.

Lemma hex_line v : lacks (ch 10) (hex_str v) = true.
Proof. apply hex_aux_chars; [|done]. apply (below_cases (fun d => negb (Ascii.eqb (hexdigit d) (ch 10))) 16). done. Qed.

(** A command whose words are all plain, or the one that moves the end of a pair to its node. *)
Definition wire_ok (pids : list (string * Z)) (a : list string) : Prop :=
  hd "" a ∈ ["ip"; "tc"; "sysctl"] /\ Forall (fun w => lacks (ch 10) w = true) a /\
  (Forall word_ok a \/ exists q p w, pid_of pids q = Ok p /\ a = ["ip"; "link"; "set"; w; "netns"; pretty p] /\ word_ok w).

Lemma words_wire_ok pids a : hd "" a ∈ ["ip"; "tc"; "sysctl"] -> Forall word_ok a -> wire_ok pids a.
Proof. intros H1 H2. split; [done|]. split; [|by left]. eapply Forall_impl; [exact H2|]. by intros w [H _]. Qed.

(** A link object of a live fabric. *)
Lemma binding_words lv k b : live_built lv -> dget (links (base lv)) k = Some b ->
  (exists i : Z, ifname b = "sf" +:+ pretty i) /\ (forall n e, dget (endpoints b) n = Some e -> exists v, e = ipv4_str v).
Proof.
  intros L Hb. destruct (Live.lo_keys _ (Live.live_built_ok _ L) _ _ Hb) as (_ & w & Hw & _ & -> & ->). revert Hw. unfold Live.binding_for. rewrite bind_Ok.
  intros (i & _ & H). apply bind_Ok in H as (e0 & H0 & H). apply bind_Ok in H as (e1 & H1 & [= <-]). simpl. split; [by exists i|].
  apply (Fabric.Fabric.ip_Ok _ 176160768) in H0 as [-> _]; [|vm_compute; reflexivity]. apply (Fabric.Fabric.ip_Ok _ 176160768) in H1 as [-> _]; [|vm_compute; reflexivity].
  intros n e Hn%dget_Some_in. eapply (Forall_forall (fun ne : string * string => exists v, ne.2 = ipv4_str v)) in Hn; [exact Hn|].
  apply (Forall_dict_of (fun ne : string * string => exists v, ne.2 = ipv4_str v) [(_, _); (_, _)]). repeat apply Forall_cons_2; try apply Forall_nil_2; by eexists.
Qed.

Lemma end_commands_ok lv pids k b i n other m a : live_built lv -> dget (links (base lv)) k = Some b -> Ok (m, a) ∈ end_commands (base lv) b i n other -> wire_ok pids a.
Proof.
  intros L Hb. destruct (binding_words _ _ _ L Hb) as [[x Hx] He]. unfold end_commands. rewrite Hx.
  assert (forall s, lacks (ch 10) s = true -> (forall x, s +:+ x <> "netns") -> word_ok (s +:+ pretty x)) as Hsf by (intros s H1 H2; apply word_prefix; [done|done|apply pretty_line]).
  assert (word_ok ("sf" +:+ pretty x)) as Hi by (by apply Hsf).
  rewrite !elem_of_app. intros [H|[H|[H|[H|H]]]].
  - rewrite !elem_of_cons in H. destruct H as [H|[H|[H|[]%not_elem_of_nil]]].
    + symmetry in H. apply bind_Ok in H as (e & (v & ->)%or_raise_Ok%He & [= <- <-]). apply words_wire_ok; [set_solver|]. repeat apply Forall_cons_2; try apply Forall_nil_2; try (by split); [|done].
      apply (word_suffix slash); [apply ipv4_line|done..].
    + injection H as -> ->. apply words_wire_ok; [set_solver|]. repeat apply Forall_cons_2; try apply Forall_nil_2; try (by split).
      apply (word_prefix "net.ipv4.conf.sf"); [done|done|]. by rewrite lacks_app, pretty_line.
    + injection H as -> ->. apply words_wire_ok; [set_solver|]. repeat apply Forall_cons_2; try apply Forall_nil_2; try (by split); [|done].
      apply (word_prefix "2001:db8:"); [done|done|]. by rewrite !lacks_app, hex_line, pretty_line.
  - destruct (dget (directed (base lv)) (n, other)) as [d|]; [|by apply list_elem_of_singleton in H]. destruct (capacity_bps d); [|by apply not_elem_of_nil in H].
    apply list_elem_of_singleton in H. symmetry in H. apply bind_Ok in H as (q & Hq & [= <- <-]). apply Replay.qdisc_words in Hq as ->. apply words_wire_ok; [set_solver|].
    apply Forall_app_2; [|apply queue_words_ok]. repeat apply Forall_cons_2; try apply Forall_nil_2; first [done|by split].
  - apply list_elem_of_singleton in H. symmetry in H. apply bind_Ok in H as (up & _ & [= <- <-]). apply words_wire_ok; [set_solver|].
    repeat apply Forall_cons_2; try apply Forall_nil_2; try (by split); [done|]. by destruct up; split.
  - destruct (enabled (base lv) "mpls"); [|by apply not_elem_of_nil in H]. apply list_elem_of_singleton in H as [= -> ->]. apply words_wire_ok; [set_solver|].
    repeat apply Forall_cons_2; try apply Forall_nil_2; try (by split). apply (word_prefix "net.mpls.conf.sf"); [done|done|]. by rewrite lacks_app, pretty_line.
  - destruct (enabled (base lv) "srv6"); [|by apply not_elem_of_nil in H]. apply list_elem_of_singleton in H as [= -> ->]. apply words_wire_ok; [set_solver|].
    repeat apply Forall_cons_2; try apply Forall_nil_2; try (by split). apply (word_prefix "net.ipv6.conf.sf"); [done|done|]. by rewrite lacks_app, pretty_line.
Qed.

Lemma link_commands_ok lv pids k b m a : live_built lv -> dget (links (base lv)) k = Some b -> Ok (m, a) ∈ link_commands (base lv) pids (k, b) -> wire_ok pids a.
Proof.
  intros L Hb. destruct (binding_words _ _ _ L Hb) as [[x Hx] _]. destruct k as [n1 n2]. unfold link_commands. rewrite !elem_of_app. intros [H|[H|H]]; [|by eapply end_commands_ok..].
  assert (word_ok ("sf" +:+ pretty x)) as Hi by (apply word_prefix; [done|done|apply pretty_line]).
  assert (word_ok ("p" +:+ pretty (index b))) as Hp by (apply word_prefix; [done|done|apply pretty_line]).
  rewrite Hx, !elem_of_cons in H. destruct H as [H|[H|[H|[]%not_elem_of_nil]]].
  - injection H as -> ->. apply words_wire_ok; [set_solver|]. repeat apply Forall_cons_2; try apply Forall_nil_2; first [done|by split].
  - symmetry in H. apply bind_Ok in H as (p & Hpid & [= <- <-]). split; [set_solver|]. split; [|right; by exists n2, p, ("p" +:+ pretty (index b))].
    repeat apply Forall_cons_2; try apply Forall_nil_2; try done; [by destruct Hp|apply pretty_line].
  - injection H as -> ->. apply words_wire_ok; [set_solver|]. repeat apply Forall_cons_2; try apply Forall_nil_2; first [done|by split].
Qed.

Lemma wiring_ok lv pids ps js : live_built lv -> wiring (base lv) pids (Some ps) = Ok js ->
  Forall (fun j => (exists n, pid_of pids n = Ok (Fabric.Fabric.pid j)) /\ wire_ok pids (Fabric.Fabric.args j)) js.
Proof.
  intros L. unfold wiring. rewrite app_nil_r. intros H%mapM_res_Ok. apply Forall_forall. intros j [i Hi]%list_elem_of_lookup.
  destruct (Forall2_lookup_r _ _ _ _ _ H Hi) as (c & Hc & Hj). apply list_elem_of_lookup_2 in Hc. unfold add in Hj. apply bind_Ok in Hj as ([n a] & -> & Hj).
  apply bind_Ok in Hj as (p & Hp & [= <-]). simpl. split; [by exists n|]. apply list_elem_of_In, in_concat in Hc as (l & Hl & Hc). apply in_map_iff in Hl as ([k b] & <- & Hk).
  apply filter_In in Hk as [Hk _]. eapply link_commands_ok; [exact L| |by apply list_elem_of_In]. apply dget_in_ok; [apply Live.lo_links, Live.live_built_ok, L|by apply list_elem_of_In].
Qed.

(** ** Manifests of this form are accepted *)

Section Worker.
Context (pids : list (string * Z)) (Hd : d_ok pids) (Hpos : forall n p, pid_of pids n = Ok p -> 0 <= p).
Context (identity0 identity : Z -> res string) (table : list (string * target)) (Hfreeze : freeze identity0 pids = Ok table).
Context (Hsame : forall n p, pid_of pids n = Ok p -> identity p = identity0 p).

Lemma frozen n t : dget table n = Some t -> pid_of pids n = Ok (Namespace.t_pid t) /\ identity0 (Namespace.t_pid t) = Ok (Namespace.t_identity t).
Proof using Hfreeze Hd.
  revert Hfreeze. unfold freeze. rewrite bind_Ok. intros (l & Hl & [= <-]) Hn%dget_Some_in.
  eapply (Forall_forall (fun nt : string * target => pid_of pids nt.1 = Ok (Namespace.t_pid nt.2) /\ identity0 (Namespace.t_pid nt.2) = Ok (Namespace.t_identity nt.2))) in Hn; [exact Hn|].
  apply Forall_dict_of, Forall_forall. intros nt [i Hi]%list_elem_of_lookup. apply mapM_res_Ok in Hl. destruct (Forall2_lookup_r _ _ _ _ _ Hl Hi) as ([m p] & Hm & Hnt).
  apply bind_Ok in Hnt as (ident & Hid & [= <-]). simpl. split; [|done]. apply or_raise_Ok, dget_in_ok; [done|]. by eapply list_elem_of_lookup_2.
Qed.

Lemma frozen_all n p : pid_of pids n = Ok p -> exists t, dget table n = Some t /\ Namespace.t_pid t = p.
Proof using Hfreeze Hd.
  intros Hp. assert (n ∈ dkeys table) as [t Ht]%dget_is_Some.
  { revert Hfreeze. unfold freeze. rewrite bind_Ok. intros (l & Hl & [= <-]). rewrite elem_of_dkeys_dict_of. pose proof Hp as Hin%or_raise_Ok%dget_Some_in.
    destruct (Fabric.Fabric.mapM_res_elem _ _ _ _ Hl Hin) as ([m t] & Hm & Hml). apply bind_Ok in Hm as (i & _ & [= <- <-]). apply list_elem_of_In, in_map_iff.
    exists (n, Namespace.Target p i). split; [done|by apply list_elem_of_In]. }
  exists t. split; [done|]. apply frozen in Ht as [Ht _]. congruence.
Qed.

Lemma target_accepted n p : pid_of pids n = Ok p -> check_target identity table (JInt p) = Ok tt.
Proof using Hfreeze Hd Hsame.
  intros Hp. destruct (frozen_all _ _ Hp) as (t & Ht & Etp). unfold check_target, exact_int. assert (p ∈ dkeys (Namespace.by_pid table)) as [u Hu]%dget_is_Some.
  { unfold Namespace.by_pid. rewrite elem_of_dkeys_dict_of, map_map. apply list_elem_of_In, in_map_iff. exists (n, t). split; [done|by apply list_elem_of_In, dget_Some_in]. }
  rewrite Hu. simpl_res. assert (Namespace.t_pid u = p /\ identity0 p = Ok (Namespace.t_identity u)) as [Eu Hi].
  { apply dget_Some_in in Hu. eapply (Forall_forall (fun pt : Z * target => Namespace.t_pid pt.2 = pt.1 /\ identity0 pt.1 = Ok (Namespace.t_identity pt.2))) in Hu; [exact Hu|].
    unfold Namespace.by_pid. apply Forall_dict_of, Forall_fmap, Forall_forall. intros [m v] Hin. simpl. split; [done|]. apply dget_in_ok, frozen in Hin as [_ ?]; [done|].
    revert Hfreeze. unfold freeze. rewrite bind_Ok. intros (l & _ & [= <-]). apply d_ok_dict_of. }
  unfold Namespace.same_process. rewrite Eu, (Hsame _ _ Hp), Hi. simpl_res. by rewrite String.eqb_refl.
Qed.

Definition worker_job (j : job) : Namespace.job := Namespace.Job (Fabric.Fabric.pid j) [Fabric.Fabric.args j].

Lemma netns_none a : Forall word_ok a -> Namespace.after_netns a = None.
Proof. induction 1 as [|w a [_ Hw] _ IH]; simpl; [done|]. apply String.eqb_neq in Hw. by rewrite Hw. Qed.

Lemma job_accepted j : (exists n, pid_of pids n = Ok (Fabric.Fabric.pid j)) -> wire_ok pids (Fabric.Fabric.args j) ->
  Namespace.check_job identity table false (job_json j) = Ok (worker_job j).
Proof using Hfreeze Hd Hsame Hpos.
  intros [n Hn] (Hhd & Hline & Hwords). destruct j as [p a]. simpl in *. unfold Namespace.check_job. simpl_res. rewrite (target_accepted _ _ Hn). simpl_res.
  assert (Namespace.check_command identity table (JList (map JStr a)) = Ok a) as ->; [|done]. unfold Namespace.check_command, Namespace.namespace_command.
  assert (mapM_res (fun x => or_raise (ValueError "unsupported namespace command") (as_string x)) (map JStr a) = Ok a) as ->.
  { clear. induction a as [|w a IH]; [done|]. simpl. by rewrite IH. }
  simpl_res. assert (negb (mem (hd "" a) ["ip"; "tc"; "sysctl"]) || existsb (has_char Namespace.newline) a = false) as ->.
  { unfold mem. rewrite bool_decide_true by done. simpl. apply not_true_iff_false. rewrite existsb_exists. intros (w & Hw & H). rewrite Forall_forall in Hline.
    apply list_elem_of_In, Hline in Hw. unfold has_char, Namespace.newline in H. unfold lacks in Hw. by rewrite Hw in H. }
  simpl_res. destruct Hwords as [Hw|(q & r & w & Hq & -> & [_ Hne])]; [by rewrite netns_none|]. apply String.eqb_neq in Hne. simpl. rewrite Hne. simpl.
  rewrite py_int_pretty by (by eapply Hpos). simpl. by rewrite (target_accepted _ _ Hq).
Qed.

Lemma configure_accepted n cs : (exists p, pid_of pids n = Ok p) -> Forall line_ok cs ->
  exists p, pid_of pids n = Ok p /\ Namespace.check_configure identity table (n, JList (map JStr cs)) = Ok (configure_call p cs).
Proof using Hfreeze Hd Hsame.
  intros [p Hp] Hcs. exists p. split; [done|]. destruct (frozen_all _ _ Hp) as (t & Ht & <-). unfold Namespace.check_configure. cbn [fst snd]. rewrite Ht. simpl_res.
  rewrite (target_accepted _ _ Hp). simpl_res. unfold Namespace.contact_commands, Namespace.iterate. simpl_res.
  assert (forallb contact_command (map JStr cs) = true) as -> by (rewrite forallb_forall; intros v Hv; apply in_map_iff in Hv as (s & <- & Hs%list_elem_of_In); rewrite Forall_forall in Hcs; by apply Hcs).
  simpl_res. by rewrite map_map, map_id.
Qed.

(** What [provision] and [retire] guarantee of their manifests. *)
Definition manifests_ok (m : manifests) : Prop :=
  Forall (Forall (fun j => (exists n, pid_of pids n = Ok (Fabric.Fabric.pid j)) /\ wire_ok pids (Fabric.Fabric.args j))) (groups m) /\
  Forall (fun nc => (exists p, pid_of pids nc.1 = Ok p) /\ Forall line_ok nc.2) (commands m).

Lemma mapM_res_exact {A B} (h : A -> res B) (g : A -> B) l : Forall (fun x => h x = Ok (g x)) l -> mapM_res h l = Ok (map g l).
Proof. induction 1 as [|x l Hx _ IH]; simpl; [done|]. rewrite Hx. simpl. by rewrite IH. Qed.

Lemma wire_accepted ev file m : manifests_ok m -> Namespace.local_name file = true -> Namespace.escapes ev file = false -> Namespace.manifest ev file = Ok (groups_json (groups m)) ->
  dispatch identity table ev (request "wire" file) = Ok (Wire (map (map worker_job) (groups m))).
Proof using Hfreeze Hd Hsame Hpos.
  intros [Hg _] Hf He Hm. unfold dispatch, request. cbn [Namespace.field]. simpl_res. rewrite Hf, He. cbn [negb]. rewrite Hm. simpl_res. unfold groups_json. simpl.
  assert (mapM_res Namespace.iterate (map (fun g => JList (map job_json g)) (groups m)) = Ok (map (map job_json) (groups m))) as ->.
  { clear. induction (groups m) as [|g gs IH]; [done|]. simpl. by rewrite IH. }
  simpl. assert (mapM_res (mapM_res (Namespace.check_job identity table false)) (map (map job_json) (groups m)) = Ok (map (map worker_job) (groups m))) as ->; [|done].
  clear Hm. induction Hg as [|g gs Hg _ IH]; [done|]. cbn [map mapM_res]. rewrite IH. assert (mapM_res (Namespace.check_job identity table false) (map job_json g) = Ok (map worker_job g)) as ->; [|done].
  clear IH. induction Hg as [|j g [Hn Hw] _ IH]; [done|]. cbn [map mapM_res]. rewrite (job_accepted _ Hn Hw). simpl_res. by rewrite IH.
Qed.

Lemma configuration_accepted ev file m : manifests_ok m -> Namespace.local_name file = true -> Namespace.escapes ev file = false -> Namespace.manifest ev file = Ok (commands_json (commands m)) ->
  exists calls, dispatch identity table ev (request "configure" file) = Ok (Configure calls) /\
    Forall2 (fun nc call => exists p, pid_of pids nc.1 = Ok p /\ call = configure_call p nc.2) (commands m) calls.
Proof using Hfreeze Hd Hsame.
  intros [_ Hc] Hf He Hm. unfold dispatch, request. cbn [Namespace.field]. simpl_res. rewrite Hf, He. cbn [negb]. rewrite Hm. simpl_res. unfold commands_json. simpl.
  assert (exists calls, mapM_res (Namespace.check_configure identity table) (map (fun nc => (nc.1, JList (map JStr nc.2))) (commands m)) = Ok calls /\
    Forall2 (fun nc call => exists p, pid_of pids nc.1 = Ok p /\ call = configure_call p nc.2) (commands m) calls) as (calls & -> & Hcalls); [|by exists calls].
  clear Hm. induction Hc as [|[n cs] d [Hn Hcs] _ (calls & IH & Hcalls)]; [by exists []|]. simpl in *. destruct (configure_accepted n cs Hn Hcs) as (p & Hp & ->). simpl. rewrite IH.
  exists (configure_call p cs :: calls). split; [done|]. constructor; [by exists p|done].
Qed.

End Worker.

(** ** The manifests of the runtime *)

Lemma added_linked lv frame tick lv' added : register lv frame tick = Ok (lv', added) -> Forall (fun k => dhas (links (base lv')) k = true) added.
Proof.
  unfold register. rewrite bind_Ok. intros (st & Hst & [= <- <-]). simpl.
  eapply (foldM_inv (fun st => Forall (fun k => dhas (links (base (Live.r_live st))) k = true) (Live.r_added st)) _ _ (Live.Reg lv [])); [|constructor|exact Hst].
  intros s l s' _ Hs. unfold Live.register_link. rewrite bind_Ok. intros ([[ls adj] ad] & Hg & [= <-]). simpl.
  destruct (dhas (links (base (Live.r_live s))) _); [by injection Hg as <- <- <-|]. apply bind_Ok in Hg as (v & _ & Hg). apply bind_Ok in Hg as (adj' & _ & [= <- <- <-]).
  apply Forall_app_2.
  - eapply Forall_impl; [exact Hs|]. intros k Hk. rewrite Live.dhas_dset, Hk. apply orb_true_r.
  - apply Forall_cons_2; [|apply Forall_nil_2]. rewrite Live.dhas_dset. by rewrite bool_decide_true.
Qed.

(** Wiring a pair takes the processes of both ends. *)
Lemma wired_pids f pids a b js : dhas (links f) (a, b) = true -> wiring f pids (Some [(a, b)]) = Ok js -> (exists p, pid_of pids a = Ok p) /\ (exists p, pid_of pids b = Ok p).
Proof.
  intros Hk. unfold wiring. rewrite app_nil_r. intros H. apply dhas_true, dget_is_Some in Hk as [v Hv%dget_Some_in].
  assert (forall n x, Fabric.Fabric.run n x ∈ link_commands f pids ((a, b), v) -> exists p, pid_of pids n = Ok p) as Hin.
  { intros n x Hx. destruct (Fabric.Fabric.mapM_res_elem _ _ _ (Fabric.Fabric.run n x) H) as (j & Hj & _).
    - apply list_elem_of_In, in_concat. exists (link_commands f pids ((a, b), v)). split; [|by apply list_elem_of_In]. apply in_map_iff. exists ((a, b), v). split; [done|].
      apply filter_In. split; [by apply list_elem_of_In|]. unfold mem. apply bool_decide_eq_true. simpl. set_solver.
    - unfold add, Fabric.Fabric.run in Hj. simpl_res. apply bind_Ok in Hj as (p & Hp & _). by exists p. }
  split.
  - eapply Hin. unfold link_commands. left.
  - eapply Hin. unfold link_commands. right. right. left.
Qed.

Lemma extend_ok (P : string -> list string -> Prop) d n cs : (forall x y, P n x -> P n y -> P n (x ++ y)) -> P n cs ->
  Forall (fun nc => P nc.1 nc.2) d -> Forall (fun nc => P nc.1 nc.2) (extend d n cs).
Proof.
  intros Happ Hcs Hd. unfold extend. apply Forall_dset; [done|]. simpl. destruct (dget d n) as [old|] eqn:E; [|done]. simpl. apply Happ; [|done].
  rewrite Forall_forall in Hd. by apply (Hd (n, old)), dget_Some_in.
Qed.

Definition entry_ok (pids : list (string * Z)) (n : string) (cs : list string) : Prop := (exists p, pid_of pids n = Ok p) /\ Forall line_ok cs.

Lemma entry_app pids n x y : entry_ok pids n x -> entry_ok pids n y -> entry_ok pids n (x ++ y).
Proof. intros [H1 H2] [_ H3]. split; [done|]. by apply Forall_app_2. Qed.

Lemma provision_manifests order lv pids frame tick lv' m : (forall l, order l ≡ₚ l) -> live_built lv -> (forall a b c, port_capacity (base lv') a b = Ok c -> 0 <= c) ->
  provision order lv pids frame tick = Ok (lv', Some m) -> manifests_ok pids m.
Proof.
  intros Ho L Hcap. unfold provision. rewrite bind_Ok. intros ([lv1 pairs] & Hr & H). destruct pairs as [|p0 pairs0] eqn:Ep; [done|]. rewrite <- Ep in *. clear Ep.
  apply bind_Ok in H as (gs & Hgs & H). apply bind_Ok in H as (cs & Hcs & [= <- <-]). assert (live_built lv1) as L1 by (by eapply Live.live_register).
  pose proof (added_linked _ _ _ _ _ Hr) as Hadd. split; simpl.
  - apply mapM_res_Ok in Hgs. clear -Hgs L1. induction Hgs as [|p g ps gs Hg _ IH]; constructor; [|done]. by eapply wiring_ok.
  - assert (forall a b, (a, b) ∈ pairs -> (exists p, pid_of pids a = Ok p) /\ (exists p, pid_of pids b = Ok p)) as Hp.
    { intros a b Hin. destruct (Fabric.Fabric.mapM_res_elem _ _ _ (a, b) Hgs) as (g & Hg & _); [by rewrite sort_by_perm|].
      rewrite Forall_forall in Hadd. eapply wired_pids; [by apply Hadd|exact Hg]. }
    eapply (foldM_inv (fun d => Forall (fun nc => entry_ok pids nc.1 nc.2) d)); [|apply Forall_nil_2|exact Hcs]. intros d [a b] d' Hin Hd. rewrite (Ho pairs) in Hin.
    destruct (Hp _ _ Hin) as [Ha Hb]. unfold pair_commands. rewrite bind_Ok. intros (ca & Hca & H). apply bind_Ok in H as (cb & Hcb & [= <-]).
    apply (extend_ok (entry_ok pids)); [apply entry_app|split; [done|by eapply interface_commands_ok; eauto]|].
    apply (extend_ok (entry_ok pids)); [apply entry_app|split; [done|by eapply interface_commands_ok; eauto]|done].
Qed.

Lemma retire_manifests lv pids tick lv' m : live_built lv -> (forall k b, dget (links (base lv)) k = Some b -> (exists p, pid_of pids k.1 = Ok p) /\ exists p, pid_of pids k.2 = Ok p) ->
  retire lv pids tick = Ok (lv', Some m) -> manifests_ok pids m.
Proof.
  intros L Hpids. unfold retire. rewrite bind_Ok. intros (pairs & He & H). apply bind_Ok in H as ([js cs] & Hf & H). destruct pairs as [|p0 pairs0] eqn:Ep; [done|]. rewrite <- Ep in *. clear Ep.
  apply bind_Ok in H as (lv1 & _ & [= <- <-]).
  assert (forall p, p ∈ pairs -> exists b, dget (links (base lv)) p = Some b) as Hin.
  { intros p Hp. apply dget_is_Some. clear Hf. revert pairs He Hp. unfold expired. generalize (dkeys (links (base lv))). clear. intros l. induction l as [|k l IH]; intros pairs; simpl; [intros [= <-] []%not_elem_of_nil|].
    rewrite bind_Ok. intros (x & _ & H) Hp. apply bind_Ok in H as (r & Hr & [= <-]). destruct x; [apply elem_of_cons in Hp as [->|Hp]; [left|]|]; right; by eapply IH. }
  assert (Forall (fun j => (exists n, pid_of pids n = Ok (Fabric.Fabric.pid j)) /\ wire_ok pids (Fabric.Fabric.args j)) js /\ Forall (fun nc => entry_ok pids nc.1 nc.2) cs) as [Hjs Hcs].
  { eapply (foldM_inv (fun st : list job * list (string * list string) =>
      Forall (fun j => (exists n, pid_of pids n = Ok (Fabric.Fabric.pid j)) /\ wire_ok pids (Fabric.Fabric.args j)) st.1 /\ Forall (fun nc => entry_ok pids nc.1 nc.2) st.2)) in Hf; [exact Hf| |done].
    intros [js0 cs0] [a b] st' Hab [Hj Hc]. unfold retire_pair. rewrite bind_Ok. intros (i & Hi & H). apply bind_Ok in H as (p & Hp & [= <-]). simpl in *.
    apply Live.live_interface in Hi as (k & Hk%pair_index_nonneg & ->); [|done]. destruct (Hin _ Hab) as [v Hv]. destruct (Hpids _ _ Hv) as [Ha Hb]. simpl in Ha, Hb.
    assert (Forall line_ok ((if enabled (base lv) "ldp" then ["mpls ldp"; "address-family ipv4"; "no interface " +:+ ("sf" +:+ pretty k); "exit-address-family"; "exit"] else []) ++ ["no interface " +:+ ("sf" +:+ pretty k)])) as Hl.
    { apply Forall_app_2; [destruct (enabled (base lv) "ldp"); [|done]|]; repeat apply Forall_cons_2; try apply Forall_nil_2; first [by apply (interface_accepted true)|vm_compute; reflexivity]. }
    split.
    - apply Forall_app_2; [done|]. apply Forall_cons_2; [|apply Forall_nil_2]. split; [by exists a|]. apply words_wire_ok; [set_solver|].
      repeat apply Forall_cons_2; try apply Forall_nil_2; try (by split). apply word_prefix; [done|done|apply pretty_line].
    - apply (extend_ok (entry_ok pids)); [apply entry_app|by split|]. apply (extend_ok (entry_ok pids)); [apply entry_app|by split|done]. }
  split; simpl; [|exact Hcs]. clear -Hjs. induction Hjs; constructor; [by constructor|done].
Qed.

(** C9.  What the live runtime generates for new contacts is what its privileged worker accepts: for any frame registered on a reachable fabric, in both
    configuration styles and in any order of the set of new pairs, the wiring manifest is run as written, each job in a process the worker froze at start, and the configuration manifest becomes one
    call per node with exactly the node's lines, interface names, costs and bandwidths included. *)
Theorem provision_accepted order lv pids frame tick lv' m identity0 identity table ev :
  (forall l, order l ≡ₚ l) -> live_built lv -> provision order lv pids frame tick = Ok (lv', Some m) -> (forall a b c, port_capacity (base lv') a b = Ok c -> 0 <= c) ->
  d_ok pids -> (forall n p, pid_of pids n = Ok p -> 0 <= p) -> freeze identity0 pids = Ok table -> (forall n p, pid_of pids n = Ok p -> identity p = identity0 p) ->
  (forall file, Namespace.escapes ev file = false) ->
  Namespace.manifest ev "live-wiring-groups.json" = Ok (groups_json (groups m)) -> Namespace.manifest ev "live-contact-configure.json" = Ok (commands_json (commands m)) ->
  dispatch identity table ev (request "wire" "live-wiring-groups.json") = Ok (Wire (map (map worker_job) (groups m))) /\
  exists calls, dispatch identity table ev (request "configure" "live-contact-configure.json") = Ok (Configure calls) /\
    Forall2 (fun nc call => exists p, pid_of pids nc.1 = Ok p /\ call = configure_call p nc.2) (commands m) calls.
Proof.
  intros Ho L Hp Hcap Hd Hpos Hfr Hsame Hesc Hm1 Hm2. apply provision_manifests in Hp; [|done..]. split.
  - by eapply wire_accepted.
  - by eapply configuration_accepted.
Qed.

(** The same for the contacts it retires. *)
Lemma retire_accepted lv pids tick lv' m identity0 identity table ev :
  live_built lv -> retire lv pids tick = Ok (lv', Some m) ->
  (forall k b, dget (links (base lv)) k = Some b -> (exists p, pid_of pids k.1 = Ok p) /\ exists p, pid_of pids k.2 = Ok p) ->
  d_ok pids -> (forall n p, pid_of pids n = Ok p -> 0 <= p) -> freeze identity0 pids = Ok table -> (forall n p, pid_of pids n = Ok p -> identity p = identity0 p) ->
  (forall file, Namespace.escapes ev file = false) ->
  Namespace.manifest ev "live-retire-groups.json" = Ok (groups_json (groups m)) -> Namespace.manifest ev "live-retire-configure.json" = Ok (commands_json (commands m)) ->
  dispatch identity table ev (request "wire" "live-retire-groups.json") = Ok (Wire (map (map worker_job) (groups m))) /\
  exists calls, dispatch identity table ev (request "configure" "live-retire-configure.json") = Ok (Configure calls) /\
    Forall2 (fun nc call => exists p, pid_of pids nc.1 = Ok p /\ call = configure_call p nc.2) (commands m) calls.
Proof.
  intros L Hr Hlinks Hd Hpos Hfr Hsame Hesc Hm1 Hm2. apply retire_manifests in Hr; [|done..]. split.
  - by eapply wire_accepted.
  - by eapply configuration_accepted.
Qed.

(** Three attempts at most: [provision] goes on only after an attempt that succeeded, and every attempt before it was one the loop retries. *)
Lemma attempts_from_spec run stopped left attempt : (attempt + left = 3)%nat -> attempts_from attempt left run stopped = Ok tt -> (left = 0)%nat \/
  exists k, (attempt <= k < 3)%nat /\ run k = Ok tt /\ forall j, (attempt <= j < k)%nat -> stopped j = false /\ ((exists s, run j = Err (RuntimeError s)) \/ run j = Err TimeoutExpired).
Proof.
  revert attempt. induction left as [|left IH]; intros attempt Ha H; [by left|right]. simpl in H. destruct (run attempt) as [[]|x] eqn:Er.
  { exists attempt. split; [lia|]. split; [done|]. intros j Hj. lia. }
  assert (((exists s, x = RuntimeError s) \/ x = TimeoutExpired) /\ (attempt =? 2)%nat = false /\ stopped attempt = false /\ attempts_from (S attempt) left run stopped = Ok tt) as (Hx & H2 & Hs & H').
  { destruct x; try done; destruct (attempt =? 2)%nat; try done; destruct (stopped attempt); try done; split; eauto. }
  apply Nat.eqb_neq in H2. destruct (IH (S attempt)) as [?|(k & Hk & Hr & Hb)]; [lia|done|lia|]. exists k. split; [lia|]. split; [done|]. intros j Hj.
  destruct (decide (j = attempt)) as [->|]; [|apply Hb; lia]. split; [done|]. rewrite Er. destruct Hx as [[s ->]| ->]; eauto.
Qed.

Lemma configure_attempts_spec run stopped : configure_attempts run stopped = Ok tt ->
  exists k, (k < 3)%nat /\ run k = Ok tt /\ forall j, (j < k)%nat -> stopped j = false /\ ((exists s, run j = Err (RuntimeError s)) \/ run j = Err TimeoutExpired).
Proof. intros [?|(k & ? & ? & H)]%attempts_from_spec; [done| |done]. exists k. split; [lia|]. split; [done|]. intros j Hj. apply H. lia. Qed.

(** ** Example: the gateways see each other *)

Definition example_pids : list (string * Z) := [("gw-a", 101); ("gw-b", 102); ("sat", 103)].

Definition example_result : live * option manifests := Live.or_else (Live.empty_live, None) (provision id Live.live0 example_pids Live.example_frame 1).

Definition example_manifests : manifests := default (Manifests [] []) example_result.2.

Definition example_identity (p : Z) : res string := Ok (pretty (p + 7000)).

Definition example_table : list (string * target) := Live.or_else [] (freeze example_identity example_pids).

Definition example_evidence : evidence :=
  Namespace.Evidence (fun _ => false) (fun file => if String.eqb file "live-wiring-groups.json" then Ok (groups_json (groups example_manifests))
    else if String.eqb file "live-contact-configure.json" then Ok (commands_json (commands example_manifests)) else Err (OSError "no such file")).

Lemma example_commands : head (commands example_manifests) = Some ("gw-a",
  ["interface sf1"; "ip router isis SF"; "isis network point-to-point"; "isis hello-interval 5"; "isis hello-multiplier 3"; "isis metric level-2 1";
   "ip ospf area 0.0.0.0"; "ip ospf network point-to-point"; "ip ospf hello-interval 5"; "ip ospf dead-interval 15"; "ip ospf cost 1";
   "ipv6 ospf6 area 0.0.0.0"; "ipv6 ospf6 network point-to-point"; "ipv6 ospf6 hello-interval 5"; "ipv6 ospf6 dead-interval 15"; "ipv6 ospf6 cost 1";
   "link-params"; "max-bw 125000000.0"; "exit-link-params"; "exit"; "mpls ldp"; "address-family ipv4"; "interface sf1"; "exit"; "exit-address-family"; "exit"]).
Proof. vm_compute. reflexivity. Qed.

Lemma provision_accepted_witness :
  dispatch example_identity example_table example_evidence (request "wire" "live-wiring-groups.json") = Ok (Wire (map (map worker_job) (groups example_manifests))) /\
  exists calls, dispatch example_identity example_table example_evidence (request "configure" "live-contact-configure.json") = Ok (Configure calls) /\
    Forall2 (fun nc call => exists p, pid_of example_pids nc.1 = Ok p /\ call = configure_call p nc.2) (commands example_manifests) calls.
Proof.
  assert (provision id Live.live0 example_pids Live.example_frame 1 = Ok (example_result.1, Some example_manifests)) as Hp by (vm_compute; reflexivity).
  apply (provision_accepted id Live.live0 example_pids Live.example_frame 1 example_result.1 example_manifests example_identity example_identity example_table example_evidence).
  - done.
  - apply Live.live0_built.
  - exact Hp.
  - intros a b c. unfold port_capacity. rewrite bind_Ok. intros (l & Hl%or_raise_Ok%dget_Some_in & H).
    assert (Forall (fun kl : pair_t * link => bool_decide (0 <= default 1000000000 (capacity_bps kl.2))) (directed (base example_result.1))) as Hall by (vm_compute; repeat constructor).
    assert (Fabric.Fabric.physical_model (base example_result.1) = None) as Hn by (vm_compute; reflexivity). rewrite Hn in H. injection H as <-.
    rewrite Forall_forall in Hall. exact (bool_decide_unpack _ (Hall _ Hl)).
  - apply (bool_decide_unpack _). vm_compute. exact I.
  - intros n p H%or_raise_Ok%dget_Some_in. unfold example_pids in H. rewrite !elem_of_cons in H. destruct H as [[= -> ->]|[[= -> ->]|[[= -> ->]|[]%not_elem_of_nil]]]; lia.
  - vm_compute. reflexivity.
  - done.
  - done.
  - reflexivity.
  - reflexivity.
Defined.

End Provision.
