(* ===== verification/Launch.v ===== *)
(** * Launch: the validated inputs of a live run (lab/live/launch.py)

    [validate] decides which launch configurations the dashboard and the command line may
    submit; [materialize] turns one into the documents of the run.  The templates it reads
    from scenarios/constellations/ are arguments; [live_workloads] is the one the repository
    ships for the workloads.  Chinese text is kept as the bytes of its UTF-8 form. *)

From S2P Require Import Prelude Bytes Text Channel Fabric LiveModel WorkloadModel.

Module Launch.

Definition CARRIERS : list string := ["native"; "srv6"; "evpn-srv6"; "ldp"; "sr-mpls"; "pcep"; "evpn"].

Definition ALGORITHMS : list string := ["latency"; "hops"; "capacity"; "reliability"].

Definition DEFAULT : list (string * json) :=
  [("schema_version", JInt 1); ("igp", JStr "isis"); ("carriers", JList [JStr "evpn-srv6"]); ("algorithm", JStr "latency"); ("satellites", JInt 120);
   ("gateways", JInt 24); ("planes", JInt 12); ("copies_per_profile", JInt 2); ("step_seconds", JInt 10)].

(** [set(value) != set(DEFAULT)] *)
Definition same_keys (v : list (string * json)) : bool :=
  forallb (fun k => dhas v k) (dkeys DEFAULT) && forallb (fun k => dhas DEFAULT k) (dkeys v).

Definition bounds : list (string * Z * Z) :=
  [("schema_version", 1, 1); ("satellites", 4, 253); ("gateways", 2, 24); ("planes", 1, 253); ("copies_per_profile", 1, 64); ("step_seconds", 5, 60)].

Definition check_bound (v : list (string * json)) (item : string * Z * Z) : res Z :=
  let '(key, lo, hi) := item in
  let* raw := or_raise KeyError (dget v key) in
  match exact_int raw with
  | Some z => if (lo <=? z) && (z <=? hi) then Ok z else Err (ValueError (key +:+ " 必须为 " +:+ pretty lo +:+ ".." +:+ pretty hi +:+ " 的整数"))
  | None => Err (ValueError (key +:+ " 必须为 " +:+ pretty lo +:+ ".." +:+ pretty hi +:+ " 的整数"))
  end.

Definition int_of (v : list (string * json)) (k : string) : res Z :=
  match dget v k with Some (JInt z) => Ok z | Some _ => Err TypeError | None => Err KeyError end.

Definition str_in (v : json) (l : list string) : bool := match v with JStr s => mem s l | _ => false end.

(** The list of known carriers in a JSON value, when it is one. *)
Definition carrier_list (v : json) : option (list string) :=
  match v with
  | JList l => mapM (fun c => match c with JStr s => if mem s CARRIERS then Some s else None | _ => None end) l
  | _ => None
  end.

Definition validate (value : json) : res (list (string * json)) :=
  match value with
  | JDict v =>
      raise (ValueError "启动配置字段必须完整，且不能包含未知字段") when negb (same_keys v) ;;
      let* _ := mapM_res (check_bound v) bounds in
      let* satellites := int_of v "satellites" in
      let* gateways := int_of v "gateways" in
      raise (ValueError "当前实时地址池仅支持卫星与网关合计不超过 255 个节点") when (255 <? satellites + gateways) ;;
      let* planes := int_of v "planes" in
      raise (ValueError "卫星数必须能被轨道面数整除") when negb (satellites mod planes =? 0) ;;
      let* igp := or_raise KeyError (dget v "igp") in
      let* algorithm := or_raise KeyError (dget v "algorithm") in
      raise (ValueError "不支持的 IGP 或路径算法") when negb (str_in igp ["isis"; "ospf"]) || negb (str_in algorithm ALGORITHMS) ;;
      let* raw := or_raise KeyError (dget v "carriers") in
      match carrier_list raw with
      | Some (c :: cs) =>
          raise (ValueError "业务承载不能重复") when negb (bool_decide (NoDup (c :: cs))) ;;
          raise (ValueError "本平台 SR-MPLS / PCEP 的 Prefix-SID 分发需要 IS-IS")
            when negb (str_in igp ["isis"]) && (mem "sr-mpls" (c :: cs) || mem "pcep" (c :: cs)) ;;
          Ok v
      | _ => Err (ValueError "请选择至少一种已实现的业务承载")
      end
  | _ => Err (ValueError "启动配置字段必须完整，且不能包含未知字段")
  end.

(** ** The documents of a run *)

Record templates := Templates { t_constellation : list (string * json); t_physical : list (string * json); t_workloads : list (string * json) }.

Record documents := Documents { launch : list (string * json); constellation : list (string * json); physical : list (string * json); workloads : list (string * json) }.

(** [d.update({key: config[key] for key in keys})] *)
Definition copy_keys (config : list (string * json)) (d : list (string * json)) (keys : list string) : res (list (string * json)) :=
  foldM (fun d k => let* v := or_raise KeyError (dget config k) in Ok (dset d k v)) d keys.

(** One profile gets its carrier in turn, and the control mode that goes with it. *)
Definition assign_carrier (carriers : list string) (item : nat * json) : res json :=
  let (i, raw) := item in
  let* carrier := if bool_decide (carriers = []) then Err ZeroDivisionError else or_raise IndexError (carriers !! (i mod length carriers)%nat) in
  let* mode := or_raise KeyError (dget Workload.CONTROLS carrier) in
  match raw with
  | JDict p =>
      let p := dset (dset p "carrier" (JStr carrier)) "control" (JStr mode) in
      let* identifier := or_raise KeyError (dget p "id") in
      Ok (JDict (if str_in identifier ["management"] then dset p "name" (JStr "运维") else p))
  | _ => Err AttributeError
  end.

Definition materialize (value : json) (t : templates) : res documents :=
  let* config := validate value in
  let* c := copy_keys config (t_constellation t) ["satellites"; "gateways"; "planes"] in
  let* gateways := int_of config "gateways" in
  let c := dset c "flows" (JInt (2 * gateways)) in
  let* step := or_raise KeyError (dget config "step_seconds") in
  let p := dset (t_physical t) "step_seconds" step in
  let* copies := or_raise KeyError (dget config "copies_per_profile") in
  let w := dset (t_workloads t) "copies_per_profile" copies in
  let* raw := or_raise KeyError (dget w "profiles") in
  let* profiles := match raw with JList l => Ok l | _ => Err TypeError end in
  let* carriers := match dget config "carriers" with
    | Some v => or_raise TypeError (carrier_list v)
    | None => Err KeyError
    end in
  let* profiles := mapM_res (assign_carrier carriers) (Fabric.enumerate profiles) in
  Ok (Documents config c p (dset w "profiles" (JList profiles))).

(** ** The shipped templates *)

(** scenarios/constellations/live-workloads.json *)
Definition live_profiles : list json :=
  [JDict [("id", JStr "telemetry"); ("name", JStr "遥测"); ("carrier", JStr "ospf"); ("control", JStr "distributed"); ("transport", JStr "udp"); ("rate_bps", JInt 64000); ("payload_bytes", JInt 256); ("dscp", JInt 8); ("priority", JInt 100); ("max_rtt_ms", JInt 300)];
   JDict [("id", JStr "management"); ("name", JStr "IPv6 运维"); ("carrier", JStr "ospf6"); ("control", JStr "distributed"); ("transport", JStr "udp"); ("rate_bps", JInt 32000); ("payload_bytes", JInt 256); ("dscp", JInt 16); ("priority", JInt 100); ("max_rtt_ms", JInt 300)];
   JDict [("id", JStr "command"); ("name", JStr "指令"); ("carrier", JStr "native"); ("control", JStr "centralized"); ("transport", JStr "udp"); ("rate_bps", JInt 64000); ("payload_bytes", JInt 256); ("dscp", JInt 48); ("priority", JInt 180); ("max_rtt_ms", JInt 200)];
   JDict [("id", JStr "bulk"); ("name", JStr "批量传输"); ("carrier", JStr "ldp"); ("control", JStr "hybrid"); ("transport", JStr "tcp"); ("rate_bps", JInt 512000); ("payload_bytes", JInt 1024); ("dscp", JInt 0); ("priority", JInt 40); ("max_rtt_ms", JInt 1000)];
   JDict [("id", JStr "video"); ("name", JStr "视频"); ("carrier", JStr "sr-mpls"); ("control", JStr "hybrid"); ("transport", JStr "udp"); ("rate_bps", JInt 1000000); ("payload_bytes", JInt 1024); ("dscp", JInt 34); ("priority", JInt 80); ("max_rtt_ms", JInt 250)];
   JDict [("id", JStr "protected"); ("name", JStr "动态路径指令"); ("carrier", JStr "pcep"); ("control", JStr "hybrid"); ("transport", JStr "udp"); ("rate_bps", JInt 64000); ("payload_bytes", JInt 256); ("dscp", JInt 46); ("priority", JInt 180); ("max_rtt_ms", JInt 200)];
   JDict [("id", JStr "interactive"); ("name", JStr "交互"); ("carrier", JStr "srv6"); ("control", JStr "hybrid"); ("transport", JStr "udp"); ("rate_bps", JInt 128000); ("payload_bytes", JInt 512); ("dscp", JInt 26); ("priority", JInt 120); ("max_rtt_ms", JInt 250)];
   JDict [("id", JStr "enterprise"); ("name", JStr "企业互联"); ("carrier", JStr "evpn"); ("control", JStr "hybrid"); ("transport", JStr "tcp"); ("rate_bps", JInt 256000); ("payload_bytes", JInt 1024); ("dscp", JInt 18); ("priority", JInt 60); ("max_rtt_ms", JInt 500)]].

Definition live_workloads : list (string * json) :=
  [("schema_version", JInt 1); ("enabled", JBool true); ("copies_per_profile", JInt 48); ("pairing", JStr "balanced_mesh"); ("rate_scale", JFloat 1);
   ("initial_rate_fraction", JFloat (1 # 4)); ("sample_seconds", JInt 5); ("capture_seconds", JInt 2); ("capture_interval_seconds", JInt 30);
   ("profiles", JList live_profiles)].

(** ** Validated configurations *)

Record launchable (v : list (string * json)) : Prop := {
  la_step : exists n, dget v "step_seconds" = Some (JInt n) /\ 5 <= n <= 60;
  la_copies : exists n, dget v "copies_per_profile" = Some (JInt n) /\ 1 <= n <= 64;
  la_nodes : exists s g p, dget v "satellites" = Some (JInt s) /\ dget v "gateways" = Some (JInt g) /\ dget v "planes" = Some (JInt p) /\
    4 <= s /\ 2 <= g <= 24 /\ s + g <= 255 /\ 1 <= p /\ (p | s);
  la_carriers : exists raw cs, dget v "carriers" = Some raw /\ carrier_list raw = Some cs /\ cs <> [] /\ NoDup cs /\ Forall (fun c => c ∈ CARRIERS) cs }.

Lemma check_bound_Ok v key lo hi z : check_bound v (key, lo, hi) = Ok z -> dget v key = Some (JInt z) /\ lo <= z <= hi.
Proof.
  unfold check_bound. rewrite bind_Ok. intros (raw & Hr%or_raise_Ok & H). destruct raw; try done. simpl in H.
  destruct ((lo <=? z0) && (z0 <=? hi)) eqn:E; [|done]. injection H as ->. bool_to_prop. split; [done|lia].
Qed.

Lemma int_of_Ok v k z : int_of v k = Ok z <-> dget v k = Some (JInt z).
Proof. unfold int_of. destruct (dget v k) as [[]|]; naive_solver. Qed.

Lemma bounds_Ok v l : mapM_res (check_bound v) bounds = Ok l -> Forall (fun '(key, lo, hi) => exists z, dget v key = Some (JInt z) /\ lo <= z <= hi) bounds.
Proof.
  intros H%mapM_res_Ok. induction H as [|[[key lo] hi] z items zs Hz _ IH]; constructor; [|done]. exists z. by apply check_bound_Ok.
Qed.

Lemma carrier_list_known raw cs : carrier_list raw = Some cs -> Forall (fun c => c ∈ CARRIERS) cs.
Proof.
  destruct raw as [| | | | | |l|]; try done. simpl. revert cs. induction l as [|c l IH]; intros cs; simpl; [intros [= <-]; constructor|].
  destruct c as [| | | | |s| |]; try done. destruct (mem s CARRIERS) eqn:E; [|done]. simpl. destruct (mapM _ l) as [cs'|]; [|done].
  intros [= <-]. constructor; [by apply bool_decide_eq_true in E|by apply IH].
Qed.

Lemma validate_Ok value v : validate value = Ok v -> value = JDict v /\ launchable v.
Proof.
  destruct value as [| | | | | | |d]; try done. simpl. split_guard. rewrite bind_Ok. intros (l & Hb%bounds_Ok & H).
  repeat (apply Forall_cons in Hb as [? Hb]). destruct H0 as (z & Hz & Hzr), H1 as (s & Hs & Hsr), H2 as (g & Hg & Hgr), H3 as (p & Hp & Hpr), H4 as (n & Hn & Hnr), H5 as (k & Hk & Hkr).
  apply bind_Ok in H as (s' & Hs'%int_of_Ok & H). apply bind_Ok in H as (g' & Hg'%int_of_Ok & H).
  assert (s' = s) as -> by congruence. assert (g' = g) as -> by congruence. destruct (Z.ltb_spec 255 (s + g)); [done|].
  apply bind_Ok in H as (p' & Hp'%int_of_Ok & H). assert (p' = p) as -> by congruence. destruct (Z.eqb_spec (s mod p) 0) as [Hd|]; [|done]. simpl in H.
  apply bind_Ok in H as (igp & _ & H). apply bind_Ok in H as (alg & _ & H). destruct (negb _ || negb _); [done|].
  apply bind_Ok in H as (raw & Hraw%or_raise_Ok & H). destruct (carrier_list raw) as [[|c cs]|] eqn:Ec; try done.
  destruct (bool_decide (NoDup (c :: cs))) eqn:Hnd; [|done]. simpl in H. destruct (negb _ && _); [done|]. injection H as ->. split; [done|]. constructor.
  - by exists k.
  - by exists n.
  - exists s, g, p. split_and!; try done; try lia. apply Z.mod_divide; [lia|done].
  - exists raw, (c :: cs). split_and!; try done; [by apply bool_decide_eq_true in Hnd|by eapply carrier_list_known].
Qed.

(** Every carrier a launch can name is one the workload catalog knows. *)
Lemma carriers_controlled c : c ∈ CARRIERS -> exists mode, dget Workload.CONTROLS c = Some mode.
Proof.
  intros Hc. assert (Forall (fun c => is_Some (dget Workload.CONTROLS c)) CARRIERS) as H by (repeat constructor; vm_compute; by eexists).
  rewrite Forall_forall in H. destruct (H c Hc) as [m Hm]. by exists m.
Qed.

(** ** A catalog that cannot fail *)

Lemma address_total b o : 0 <= o < 65536 -> exists a, Workload.address b o = Ok a.
Proof.
  intros Ho. unfold Workload.address, Fabric.ip6, Fabric.ip. destruct b.
  - rewrite Workload.workload_base6. simpl_res. destruct (_ || _) eqn:E; [|by eexists]. bool_to_prop. lia.
  - rewrite Workload.workload_base4. simpl_res. destruct (_ || _) eqn:E; [|by eexists]. bool_to_prop. lia.
Qed.

Lemma gateway_at_total gateways i : gateways <> [] -> exists g, Workload.gateway_at gateways i = Ok g.
Proof.
  intros Hg. unfold Workload.gateway_at. destruct (lookup_lt_is_Some_2 gateways (Z.to_nat (i mod len gateways))) as [g Hl].
  - assert (0 < len gateways) by (unfold len; destruct gateways; [done|simpl; lia]). pose proof (Z.mod_pos_bound i (len gateways)). unfold len in *. lia.
  - exists g. by rewrite Hl.
Qed.

(** What a profile contributes. *)
Definition made (c : string) (rate : Z) (f : Workload.flow) : Prop := Workload.carrier f = c /\ Workload.rate_bps f = rate.

Lemma make_flow_total s gateways p identifier c mode tp rate prio pi flows i : gateways <> [] -> len flows < 30000 ->
  exists f, Workload.make_flow s gateways p identifier c mode tp rate prio pi flows i = Ok (flows ++ [f]) /\ made c (round_even (inject_Z rate * Workload.scale s)) f.
Proof.
  intros Hg Hl. unfold Workload.make_flow. destruct (Workload.placement _ _ _ _) as [si off].
  destruct (gateway_at_total gateways si Hg) as [src ->]. destruct (gateway_at_total gateways (si + off) Hg) as [dst ->]. simpl_res.
  pose proof (len_nonneg flows). destruct (address_total (String.eqb c "ospf6") (2 * (len flows + 1))) as [a0 ->]; [lia|].
  destruct (address_total (String.eqb c "ospf6") (2 * (len flows + 1) + 1)) as [a1 ->]; [lia|]. simpl_res. eexists. split; [done|by split].
Qed.

Lemma make_flows_total s gateways p identifier c mode tp rate prio pi ks flows : gateways <> [] -> len flows + len ks < 30000 ->
  exists new, foldM (Workload.make_flow s gateways p identifier c mode tp rate prio pi) flows ks = Ok (flows ++ new) /\ len new = len ks /\
    Forall (made c (round_even (inject_Z rate * Workload.scale s))) new.
Proof.
  intros Hg. revert flows. induction ks as [|k ks IH]; intros flows Hl.
  - exists []. by rewrite app_nil_r.
  - rewrite len_cons in Hl. pose proof (len_nonneg ks). destruct (make_flow_total s gateways p identifier c mode tp rate prio pi flows k Hg) as (f & Hf & Hm); [lia|].
    destruct (IH (flows ++ [f])) as (new & Hn & Hlen & Hall); [rewrite len_app, len_cons, len_nil; lia|]. exists (f :: new). cbn [foldM]. rewrite Hf. simpl_res.
    rewrite Hn, <- app_assoc. split; [done|]. split; [by rewrite !len_cons, Hlen|by constructor].
Qed.

(** A profile the catalog accepts whatever came before it, under an identifier not used yet. *)
Record acceptable (raw : json) (identifier c : string) (rate : Z) : Prop := {
  ac_dict : exists p, raw = JDict p /\ jget_or p "id" (JStr "") = JStr identifier /\ Workload.carrier_check identifier p = Ok c /\
    (exists tp, jget p "transport" = JStr tp /\ tp ∈ ["tcp"; "udp"]) /\
    exists values, mapM_res (Workload.profile_number identifier p) Workload.number_checks = Ok values /\ values !! 0%nat = Some rate;
  ac_name : Workload.short_name identifier = true }.

Lemma add_profile_total s gateways flows ids i raw identifier c rate : gateways <> [] -> 0 <= Workload.copies s -> len flows + Workload.copies s < 30000 ->
  acceptable raw identifier c rate -> identifier ∉ ids ->
  exists new, Workload.add_profile s gateways (flows, ids) (i, raw) = Ok (flows ++ new, ids ++ [identifier]) /\ len new = Workload.copies s /\
    Forall (made c (round_even (inject_Z rate * Workload.scale s))) new.
Proof.
  intros Hg Hc Hl [(p & -> & Hid & Hcc & (tp & Htp & Htpin) & values & Hv & Hr) Hn] Hids. unfold Workload.add_profile.
  destruct (Workload.carrier_check_Ok _ _ _ Hcc) as [mode Hm].
  destruct (make_flows_total s gateways p identifier c mode tp rate (default 0 (values !! 3%nat)) (Z.of_nat i) (seqZ 0 (Workload.copies s)) flows Hg) as (new & Hnew & Hlen & Hall).
  { unfold len. rewrite length_seqZ. unfold len in Hl. lia. }
  exists new. rewrite Hid. simpl_res. unfold mem at 1. rewrite Hn, (bool_decide_eq_false_2 _ Hids). cbn [negb orb]. rewrite Hcc. simpl_res. rewrite Hm. simpl_res. rewrite Htp.
  unfold mem. rewrite (bool_decide_eq_true_2 _ Htpin). simpl_res. rewrite Hv. simpl_res. rewrite Hr. simpl. rewrite Hnew. simpl_res. split; [done|].
  rewrite Hlen. unfold len. rewrite length_seqZ. split; [lia|done].
Qed.

Lemma total_rate_app l l' : Workload.total_rate (l ++ l') = Workload.total_rate l + Workload.total_rate l'.
Proof. unfold Workload.total_rate. induction l as [|f l IH]; simpl; [lia|]. rewrite IH. lia. Qed.

Lemma total_rate_made c rate l : Forall (made c rate) l -> Workload.total_rate l = len l * rate.
Proof. induction 1 as [|f l [_ Hf] _ IH]; [done|]. rewrite len_cons. unfold Workload.total_rate in *. simpl. rewrite IH, Hf. lia. Qed.

(** Identifier, carrier and rate of the profiles of a catalog. *)
Definition spec : Type := string * string * Z.

Definition offered (s : Workload.settings) (l : list spec) : Z := foldr (fun x a => round_even (inject_Z x.2 * Workload.scale s) + a) 0 l.

Lemma add_profiles_total s gateways raws specs start flows ids : gateways <> [] -> 0 <= Workload.copies s ->
  Forall2 (fun raw (x : spec) => acceptable raw x.1.1 x.1.2 x.2) raws specs -> NoDup (ids ++ map (fun x => x.1.1) specs) -> len flows + len raws * Workload.copies s < 30000 ->
  exists new ids', foldM (Workload.add_profile s gateways) (flows, ids) (zip (seq start (length raws)) raws) = Ok (flows ++ new, ids') /\
    len new = len raws * Workload.copies s /\ Forall (fun f => Workload.carrier f ∈ map (fun x => x.1.2) specs) new /\
    Workload.total_rate new = Workload.copies s * offered s specs.
Proof.
  intros Hg Hc H. revert start flows ids. induction H as [|raw [[identifier c] rate] raws specs Ha _ IH]; intros start flows ids Hn Hl.
  - exists [], ids. rewrite app_nil_r. simpl. split_and!; [done|done|constructor|]. unfold offered. simpl. unfold Workload.total_rate. simpl. lia.
  - rewrite len_cons in Hl. pose proof (len_nonneg raws). simpl in Hn, Ha. apply NoDup_app in Hn as (Hn1 & Hn2 & Hn3).
    destruct (add_profile_total s gateways flows ids start raw identifier c rate Hg Hc) as (new & Hadd & Hlen & Hall); [nia|done|by intros Hin; apply (Hn2 _ Hin); left|].
    destruct (IH (S start) (flows ++ new) (ids ++ [identifier])) as (new' & ids' & Hrest & Hlen' & Hall' & Hsum).
    { rewrite <- app_assoc. apply NoDup_app. done. }
    { rewrite len_app, Hlen. nia. }
    exists (new ++ new'), ids'. cbn [length seq zip zip_with foldM]. rewrite Hadd. simpl_res. rewrite Hrest, app_assoc. split; [done|]. split; [rewrite len_app, len_cons, Hlen, Hlen'; lia|]. split.
    + apply Forall_app_2; [|by eapply Forall_impl; [exact Hall'|intros f; simpl; apply list_elem_of_further]].
      eapply Forall_impl; [exact Hall|]. intros f [-> _]. left.
    + rewrite total_rate_app, (total_rate_made _ _ _ Hall), Hlen, Hsum. unfold offered. simpl. lia.
Qed.

(** Every shipped profile is acceptable with any carrier of the catalog. *)
Definition adaptable (raw : json) (x : string * Z) : Prop := forall i carriers c mode, carriers <> [] -> carriers !! (i mod length carriers)%nat = Some c ->
  dget Workload.CONTROLS c = Some mode -> exists raw', assign_carrier carriers (i, raw) = Ok raw' /\ acceptable raw' x.1 c x.2.

Definition live_specs : list (string * Z) :=
  [("telemetry", 64000); ("management", 32000); ("command", 64000); ("bulk", 512000); ("video", 1000000); ("protected", 64000); ("interactive", 128000); ("enterprise", 256000)].

Ltac adapt :=
  intros i carriers c mode Hne Hi Hm; unfold assign_carrier; rewrite bool_decide_eq_false_2, Hi by done; unfold or_raise, mbind, res_bind; cbv beta iota; rewrite Hm; cbv beta iota;
  eexists; split; [reflexivity|]; constructor; [|reflexivity]; eexists; split; [reflexivity|]; split; [reflexivity|]; split;
  [unfold Workload.carrier_check; change (jget _ "carrier") with (JStr c); change (jget _ "control") with (JStr mode); cbv beta iota; rewrite Hm, String.eqb_refl; reflexivity|];
  split; [eexists; split; [reflexivity|set_solver]|]; eexists; split; reflexivity.

Lemma live_adaptable : Forall2 adaptable live_profiles live_specs.
Proof. unfold live_profiles, live_specs. constructor; [adapt|]. repeat (constructor; [adapt|]). constructor. Qed.

Lemma copy_keys_total config d keys : Forall (fun k => is_Some (dget config k)) keys -> exists d', copy_keys config d keys = Ok d'.
Proof.
  intros H. revert d. unfold copy_keys. induction H as [|k keys [v Hv] _ IH]; intros d; simpl; [by eexists|]. rewrite Hv. apply IH.
Qed.

(** The carriers go round over the profiles, so every profile gets one the catalog accepts. *)
Lemma assign_total cs raws xs start : Forall (fun c => c ∈ CARRIERS) cs -> cs <> [] -> Forall2 adaptable raws xs ->
  exists raws' specs, mapM_res (assign_carrier cs) (zip (seq start (length raws)) raws) = Ok raws' /\
    Forall2 (fun raw (x : spec) => acceptable raw x.1.1 x.1.2 x.2) raws' specs /\ map (fun x : spec => (x.1.1, x.2)) specs = xs /\ Forall (fun x : spec => x.1.2 ∈ cs) specs.
Proof.
  intros Hcs Hne H. revert start. induction H as [|raw x raws xs Ha _ IH]; intros start; [by exists [], []|].
  destruct (lookup_lt_is_Some_2 cs (start mod length cs)%nat) as [c Hc]; [apply Nat.mod_upper_bound; by destruct cs|].
  pose proof (list_elem_of_lookup_2 _ _ _ Hc) as Hin. rewrite Forall_forall in Hcs. destruct (carriers_controlled c (Hcs _ Hin)) as [mode Hm].
  destruct (Ha start cs c mode Hne Hc Hm) as (raw' & Hraw & Hok). destruct (IH (S start)) as (raws' & specs & Hr & Hf & Hx & Hin').
  exists (raw' :: raws'), ((x.1, c, x.2) :: specs). cbn [length seq zip zip_with mapM_res]. rewrite Hraw. simpl_res. rewrite Hr. split; [done|]. split; [by constructor|].
  split; [by rewrite Hx; destruct x|by constructor].
Qed.

Lemma offered_map s (specs specs' : list spec) : map (fun x : spec => (x.1.1, x.2)) specs = map (fun x : spec => (x.1.1, x.2)) specs' -> offered s specs = offered s specs'.
Proof.
  revert specs'. induction specs as [|x specs IH]; intros [|y specs']; try done. intros [= _ Hr H]. unfold offered in *. simpl. by rewrite Hr, (IH _ H).
Qed.

Lemma map_ids (specs : list spec) : map (fun x => x.1.1) specs = map fst (map (fun x : spec => (x.1.1, x.2)) specs).
Proof. by rewrite map_map. Qed.

(** The rest of the shipped document passes the catalog's checks with any number of copies a launch may ask for. *)
Lemma live_catalog n raws flows ids gateways : 1 <= n <= 64 -> 2 <= len gateways -> NoDup gateways -> length raws = 8%nat ->
  foldM (Workload.add_profile (Workload.Settings n true 1 8) gateways) ([], []) (Fabric.enumerate raws) = Ok (flows, ids) -> Workload.total_rate flows <= 500000000 ->
  Workload.catalog (dset (dset live_workloads "copies_per_profile" (JInt n)) "profiles" (JList raws)) gateways = Ok flows.
Proof.
  intros Hn Hg Hnd Hlen Hf Hr. set (d := dset _ _ _). unfold Workload.catalog. assert (len raws = 8) as Hl by (unfold len; lia).
  assert (Workload.py_eq_int (jget d "schema_version") 1 = true) as -> by reflexivity. assert (jget d "enabled" = JBool true) as -> by reflexivity.
  assert (mapM_res (Workload.interval_check d) Workload.intervals = Ok [tt; tt; tt; tt]) as -> by reflexivity.
  assert (jget_or d "copies_per_profile" (JInt 4) = JInt n) as -> by reflexivity. assert (jget_or d "pairing" (JStr "ring") = JStr "balanced_mesh") as -> by reflexivity.
  assert (jget_or d "rate_scale" (JInt 1) = JFloat 1) as -> by reflexivity. assert (jget_or d "profiles" (JList []) = JList raws) as -> by reflexivity.
  simpl_res. destruct (Z.ltb_spec (len gateways) 2); [lia|]. assert ((1 <=? n) && (n <=? 64) = true) as -> by (apply andb_true_iff; split; apply Z.leb_le; lia).
  rewrite bool_decide_eq_true_2 by done. rewrite Hl. simpl. rewrite Hl, Hf. destruct (Z.ltb_spec 500000000 (Workload.total_rate flows)); [lia|done].
Qed.

(** C30.  A launch configuration that validates can be run: [materialize] writes its documents, and with the shipped workload template the catalog accepts
    them for any distinct gateways of the number asked for, with eight flows per copy, only the carriers selected, and at most 500 Mbit/s in total. *)
Theorem validated_launch_runs value config t gateways : validate value = Ok config -> t_workloads t = live_workloads ->
  NoDup gateways -> dget config "gateways" = Some (JInt (len gateways)) ->
  exists docs flows n cs raw, materialize value t = Ok docs /\ launch docs = config /\ Workload.catalog (workloads docs) gateways = Ok flows /\
    dget config "copies_per_profile" = Some (JInt n) /\ len flows = 8 * n /\ Workload.total_rate flows = 2120000 * n /\
    dget config "carriers" = Some raw /\ carrier_list raw = Some cs /\ Forall (fun f => Workload.carrier f ∈ cs) flows.
Proof.
  intros Hv Ht Hnd Hgw. pose proof (validate_Ok _ _ Hv) as [-> [(step & Hs & _) (n & Hn & Hnr) (sats & g & p & Hsat & Hg & Hp & _ & Hgr & _) (raw & cs & Hraw & Hcs & Hne & _ & Hin)]].
  rewrite Hgw in Hg. injection Hg as <-. destruct (copy_keys_total config (t_constellation t) ["satellites"; "gateways"; "planes"]) as [c Hc].
  { repeat constructor; by eexists. }
  destruct (assign_total cs live_profiles live_specs 0 Hin Hne live_adaptable) as (raws & specs & Ha & Hacc & Hx & Hcin).
  assert (length raws = 8%nat) as Hlr by (apply mapM_res_Ok, Forall2_length in Ha; by rewrite <- Ha).
  assert (len raws = 8) as Hlr' by (unfold len; lia).
  destruct (add_profiles_total (Workload.Settings n true 1 8) gateways raws specs 0 [] []) as (flows & ids & Hf & Hlen & Hcar & Hsum).
  - intros ->. rewrite len_nil in Hgr. lia.
  - simpl. lia.
  - done.
  - simpl. rewrite map_ids, Hx. apply (bool_decide_unpack _). vm_compute. exact I.
  - rewrite len_nil, Hlr'. simpl. lia.
  - assert (Workload.total_rate flows = 2120000 * n) as Htot.
    { rewrite Hsum. rewrite (offered_map _ specs (map (fun x => (x.1, "", x.2)) live_specs)); [|by rewrite Hx]. simpl. unfold offered. cbn -[round_even Z.mul].
      change (n * 2120000 = 2120000 * n). lia. }
    eexists _, flows, n, cs, raw. split.
    + unfold materialize. rewrite Hv. simpl_res. rewrite Hc. simpl_res. unfold int_of. rewrite Hgw. simpl_res. rewrite Hs. simpl_res. rewrite Hn. simpl_res. rewrite Ht. 
      change (dget (dset live_workloads "copies_per_profile" (JInt n)) "profiles") with (Some (JList live_profiles)). simpl_res. rewrite Hraw, Hcs. simpl_res.
      change (Fabric.enumerate live_profiles) with (zip (seq 0 (length live_profiles)) live_profiles). rewrite Ha. reflexivity.
    + simpl. split_and!; try done.
      * apply live_catalog with (ids := ids); try done; lia.
      * rewrite Hlen, Hlr'. simpl. lia.
      * eapply Forall_impl; [exact Hcar|]. intros f (x & <- & Hxin)%list_elem_of_In%in_map_iff. rewrite Forall_forall in Hcin. apply Hcin. by apply list_elem_of_In.
Qed.

(** ** Example: two carriers over three gateways *)

Definition example_launch : list (string * json) :=
  [("schema_version", JInt 1); ("igp", JStr "isis"); ("carriers", JList [JStr "evpn-srv6"; JStr "native"]); ("algorithm", JStr "hops"); ("satellites", JInt 60);
   ("gateways", JInt 3); ("planes", JInt 6); ("copies_per_profile", JInt 2); ("step_seconds", JInt 10)].

Definition example_templates : templates := Templates [("satellites", JInt 120); ("flows", JInt 48)] [("step_seconds", JInt 5)] live_workloads.

Lemma validated_launch_runs_witness :
  exists docs flows, materialize (JDict example_launch) example_templates = Ok docs /\ Workload.catalog (workloads docs) ["gw-a"; "gw-b"; "gw-c"] = Ok flows /\
    len flows = 16 /\ Workload.total_rate flows = 4240000.
Proof.
  destruct (validated_launch_runs (JDict example_launch) example_launch example_templates ["gw-a"; "gw-b"; "gw-c"]) as (docs & flows & n & cs & raw & Hm & _ & Hc & Hn & Hl & Hr & _).
  - vm_compute. reflexivity.
  - reflexivity.
  - apply (bool_decide_unpack _). vm_compute. exact I.
  - reflexivity.
  - exists docs, flows. vm_compute in Hn. injection Hn as <-. split; [exact Hm|]. split; [exact Hc|]. split; [exact Hl|exact Hr].
Defined.

(** Prefix segments need IS-IS, and an address pool of 255 nodes is not exceeded. *)
Lemma example_refused :
  validate (JDict (dset (dset example_launch "igp" (JStr "ospf")) "carriers" (JList [JStr "pcep"]))) = Err (ValueError "本平台 SR-MPLS / PCEP 的 Prefix-SID 分发需要 IS-IS") /\
  validate (JDict (dset (dset example_launch "satellites" (JInt 253)) "planes" (JInt 1))) = Err (ValueError "当前实时地址池仅支持卫星与网关合计不超过 255 个节点") /\
  validate (JDict (dset example_launch "gateways" (JBool true))) = Err (ValueError "gateways 必须为 2..24 的整数").
Proof. vm_compute. done. Qed.

End Launch.
