(* ===== verification/Service.v ===== *)
(** * Service: the owned live session (lab/live/service.py, lab/live/progress.py)

    The files of reports/live are the shared store: [owner.json] and [progress.json] as
    records, [status.json] and [diagnostics.json] as the dictionaries they hold.  A missing
    or unreadable file reads as an empty dictionary.  [Progress] has the checkpoints of a
    start, [Service] what clients see and the life of the supervisor, as a step relation
    over the store, the lock and the processes.  A clock reading is an argument, one per
    operation. *)

From S2P Require Import Prelude Text Channel Launch.

(** ** Checkpoints of a start *)

Module Progress.

Definition STAGES : list (string * string) :=
  [("starting_5g", "构建程序与建立 5G 会话"); ("preparing_host", "准备主机资源"); ("computing_initial_orbits", "计算初始轨道"); ("checking_resources", "检查资源容量");
   ("starting_cloud", "部署 Kubernetes 云控制平面"); ("creating_124_routers", "创建本轮全部 FRR 路由器"); ("checking_protocol_neighbors", "检查协议邻居");
   ("starting_observability", "启动监控服务"); ("starting_controller", "启动地面控制器"); ("committing_initial_routes", "提交初始路由");
   ("starting_5g_business", "启动持续 5G 业务"); ("starting_workloads", "启动并行业务与协议承载"); ("starting_120_onboard", "启动本轮全部星上实例")].

Record stage := Stage { id : string; title : string; state : string; started_at : option string; finished_at : option string; error : option string }.

Record task := Task { t_id : string; t_stage : option string; t_title : string; t_detail : string; t_timeout : json; t_state : string; t_started : string;
  t_finished : option string; t_error : option string }.

Record progress := Progress_ { session : string; p_started_at : string; stages : list stage; tasks : list task; events : list (string * string);
  p_context : list (string * json); current_stage : option string; last_progress_at : option string }.

Definition fresh (session at_ : string) : progress :=
  Progress_ session at_ (map (fun kt => Stage kt.1 kt.2 "pending" None None None) STAGES) [] [] [] None None.

(** [Progress.__init__]; [file] is what [progress.json] holds. *)
Definition init (file : option progress) (sess at_ : string) (resume : bool) : progress :=
  match (if resume then file else None) with
  | Some old => if String.eqb (session old) sess then old else fresh sess at_
  | None => fresh sess at_
  end.

(** A byte that continues a UTF-8 character, and the last [n] characters of a text. *)
Definition continues (c : ascii) : bool := (128 <=? code c) && (code c <? 192).

Fixpoint characters (s : string) : nat := match s with "" => 0 | String c s' => (if continues c then 0 else 1) + characters s' end.

Fixpoint last_characters (n : nat) (s : string) : string :=
  match s with
  | "" => ""
  | String c s' => if (characters s <=? n)%nat && negb (continues c) then s else last_characters n s'
  end.

Definition set_events (p : progress) (l : list (string * string)) (at_ : string) : progress :=
  Progress_ (session p) (p_started_at p) (stages p) (tasks p) l (p_context p) (current_stage p) (Some at_).

(** [save]: the last hundred messages are kept; the value is written to the file as it is. *)
Definition save (p : progress) (at_ : string) (message : option string) : progress :=
  match message with
  | Some m => if String.eqb m "" then set_events p (events p) at_ else set_events p (last_n 100 (events p ++ [(at_, last_characters 2500 m)])) at_
  | None => set_events p (events p) at_
  end.

Definition context (p : progress) (at_ : string) (values : list (string * json)) : progress :=
  save (Progress_ (session p) (p_started_at p) (stages p) (tasks p) (events p) (fold_left (fun d kv => dset d kv.1 kv.2) values (p_context p)) (current_stage p) (last_progress_at p)) at_ None.

Definition set_current (p : progress) (key : string) : progress :=
  Progress_ (session p) (p_started_at p) (stages p) (tasks p) (events p) (p_context p) (Some key) (last_progress_at p).

Definition set_stages (p : progress) (l : list stage) : progress :=
  Progress_ (session p) (p_started_at p) l (tasks p) (events p) (p_context p) (current_stage p) (last_progress_at p).

(** [next(s for s in stages if s['id'] == key)]: the position of the row that is updated. *)
Fixpoint find_row (l : list stage) (key : string) : option (nat * stage) :=
  match l with
  | [] => None
  | r :: l' => if String.eqb (id r) key then Some (0%nat, r) else '(i, r) ← find_row l' key; Some (S i, r)
  end.

Definition begin (p : progress) (at_ key : string) : progress * res unit :=
  let p := set_current p key in
  match find_row (stages p) key with
  | None => (p, Err StopIteration)
  | Some (i, r) =>
      let r' := Stage (id r) (title r) "running" (Some at_) (finished_at r) (error r) in
      (save (set_stages p (<[i := r']> (stages p))) at_ (Some ("开始：" +:+ title r)), Ok tt)
  end.

(** The [error] of a stage that ended: a text, or the exception, which has a text and is true even where that is empty. *)
Inductive cause := Text (s : string) | Raised (s : string).

Definition text_of (e : cause) : string := match e with Text s | Raised s => s end.

Definition is_error (err : option cause) : bool := match err with Some (Text s) => negb (String.eqb s "") | Some (Raised _) => true | None => false end.

Definition outcome (err : option cause) (cancelled : bool) : string := if cancelled then "cancelled" else if is_error err then "failed" else "done".

Definition finish (p : progress) (at_ key : string) (err : option cause) (cancelled : bool) : progress * res unit :=
  match find_row (stages p) key with
  | None => (p, Err StopIteration)
  | Some (i, r) =>
      let failed := is_error err in
      let r' := Stage (id r) (title r) (outcome err cancelled) (started_at r) (Some at_) (if failed then (fun e => last_characters 2500 (text_of e)) <$> err else error r) in
      (save (set_stages p (<[i := r']> (stages p))) at_ (Some ((if cancelled then "中止：" else if failed then "失败：" else "完成：") +:+ title r)), Ok tt)
  end.

Definition set_tasks (p : progress) (l : list task) : progress :=
  Progress_ (session p) (p_started_at p) (stages p) l (events p) (p_context p) (current_stage p) (last_progress_at p).

Definition close_task (state_ at_ : string) (err : option string) (t : task) : task :=
  Task (t_id t) (t_stage t) (t_title t) (t_detail t) (t_timeout t) state_ (t_started t) (Some at_) (match err with Some e => Some e | None => t_error t end).

(** [with progress.operation(...)]: the row stays in the list while the body runs, and it is the same row that is closed afterwards,
    wherever the body has added its own. *)
Definition operation {A} (key title_ detail : string) (timeout : json) (at_ at_end : string) (body : progress -> progress * res A) (p : progress) : progress * res A :=
  let row := Task key (current_stage p) title_ detail timeout "running" at_ None None in
  let n := length (tasks p) in
  let p := save (set_tasks p (tasks p ++ [row])) at_ (Some ("开始：" +:+ title_ +:+ (if String.eqb detail "" then "" else " · " +:+ detail))) in
  let (p, r) := body p in
  match r with
  | Err x =>
      let p := set_tasks p (alter (close_task "failed" at_end (Some (last_characters 2500 (exn_str x)))) n (tasks p)) in
      (save p at_end (Some ("失败：" +:+ title_ +:+ " · " +:+ last_characters 1500 (exn_str x))), Err x)
  | Ok a =>
      let p := set_tasks p (alter (close_task "done" at_end None) n (tasks p)) in
      (save p at_end (Some ("完成：" +:+ title_)), Ok a)
  end.

(** *** What the checkpoints keep *)

(** One row per stage, each in one of the five states, and at most a hundred messages. *)
Record ok (p : progress) : Prop := {
  ok_ids : map id (stages p) = map fst STAGES;
  ok_states : Forall (fun r => state r ∈ ["pending"; "running"; "done"; "failed"; "cancelled"]) (stages p);
  ok_events : (length (events p) <= 100)%nat }.

Lemma fresh_ok session_ at_ : ok (fresh session_ at_).
Proof. constructor; [done| |simpl; lia]. repeat constructor; set_solver. Qed.

Lemma opened_ok file session_ at_ resume : (forall p, file = Some p -> ok p) -> ok (init file session_ at_ resume).
Proof.
  intros H. unfold init. destruct resume; [|apply fresh_ok]. destruct file as [p|]; [|apply fresh_ok]. destruct (String.eqb _ _); [by apply H|apply fresh_ok].
Qed.

Lemma save_stages p at_ m : stages (save p at_ m) = stages p.
Proof. unfold save. destruct m as [m|]; [|done]. by destruct (String.eqb m ""). Qed.

Lemma save_tasks p at_ m : tasks (save p at_ m) = tasks p.
Proof. unfold save. destruct m as [m|]; [|done]. by destruct (String.eqb m ""). Qed.

Lemma save_events p at_ m : (length (events p) <= 100)%nat -> (length (events (save p at_ m)) <= 100)%nat.
Proof.
  intros H. unfold save. destruct m as [m|]; [|done]. destruct (String.eqb m ""); [done|]. cbn [set_events events]. unfold last_n. rewrite length_drop. lia.
Qed.

Lemma save_ok p at_ m : ok p -> ok (save p at_ m).
Proof. intros [H1 H2 H3]. constructor; [by rewrite save_stages..|by apply save_events]. Qed.

Lemma find_row_Some l key i r : find_row l key = Some (i, r) -> l !! i = Some r /\ id r = key.
Proof.
  revert i. induction l as [|x l IH]; intros i; simpl; [done|]. destruct (String.eqb_spec (id x) key) as [Hk|Hk].
  - intros [= <- <-]. done.
  - destruct (find_row l key) as [[j y]|]; [|done]. simpl. intros [= <- <-]. by apply IH.
Qed.

(** The row of a key after one row has been replaced by another of the same identifier. *)
Lemma find_row_insert l key i r r' key' : find_row l key = Some (i, r) -> id r' = key ->
  find_row (<[i := r']> l) key' = if decide (key' = key) then Some (i, r') else find_row l key'.
Proof.
  intros H Hid. revert i H. induction l as [|x l IH]; intros i; simpl; [done|]. destruct (String.eqb_spec (id x) key) as [Hx|Hx].
  - intros [= <- <-]. simpl. rewrite Hid, Hx. case_decide as Hk; [subst key'; by rewrite String.eqb_refl|]. by rewrite (proj2 (String.eqb_neq key key')).
  - destruct (find_row l key) as [[j y]|]; [|done]. simpl. intros [= <- <-]. simpl. rewrite (IH j eq_refl). case_decide as Hk; [subst key'; by rewrite (proj2 (String.eqb_neq _ _) Hx)|done].
Qed.

Lemma find_row_ids l key : key ∈ map id l <-> is_Some (find_row l key).
Proof.
  induction l as [|x l IH]; simpl; [split; [by intros ?%not_elem_of_nil|by intros []]|]. rewrite elem_of_cons, IH. destruct (String.eqb_spec (id x) key) as [->|Hk].
  - split; [by eexists|by left].
  - split.
    + intros [->|[[j y] ->]]; [done|by eexists].
    + intros [y Hy]. right. destruct (find_row l key); [by eexists|discriminate Hy].
Qed.

(** Replacing a row keeps the identifiers. *)
Lemma replace_ok p i r r' : ok p -> stages p !! i = Some r -> id r' = id r -> state r' ∈ ["pending"; "running"; "done"; "failed"; "cancelled"] ->
  ok (set_stages p (<[i := r']> (stages p))).
Proof.
  intros [H1 H2 H3] Hi Hid Hs. constructor; cbn [set_stages stages events]; [|by apply Forall_insert|done]. rewrite <- H1.
  change (map id) with (fmap (M := list) id). rewrite list_fmap_insert. apply list_insert_id. by rewrite list_lookup_fmap, Hi, Hid.
Qed.

Lemma begin_ok p at_ key : ok p -> ok (begin p at_ key).1.
Proof.
  intros H. unfold begin. assert (ok (set_current p key)) as H' by (by destruct H). destruct (find_row _ key) as [[i r]|] eqn:E; [|done]. cbn [fst].
  apply save_ok. apply find_row_Some in E as [E _]. eapply replace_ok; [done|exact E|done|set_solver].
Qed.

Lemma finish_ok p at_ key err cancelled : ok p -> ok (finish p at_ key err cancelled).1.
Proof.
  intros H. unfold finish. destruct (find_row _ key) as [[i r]|] eqn:E; [|done]. cbn [fst]. apply save_ok. apply find_row_Some in E as [E _].
  eapply replace_ok; [done|exact E|done|]. simpl. unfold outcome. destruct cancelled; [set_solver|]. destruct (is_error err); set_solver.
Qed.

(** The state and the error of a row. *)
Definition row (p : progress) (key : string) : option (string * option string) := (fun ir => (state ir.2, error ir.2)) <$> find_row (stages p) key.

Lemma begin_row p at_ key : is_Some (row p key) -> exists p' e, begin p at_ key = (p', Ok tt) /\ forall k, row p' k = if decide (k = key) then Some ("running", e) else row p k.
Proof.
  intros [v Hv]. unfold row in Hv. unfold begin. cbn [set_current stages]. destruct (find_row (stages p) key) as [[i r]|] eqn:E; [|done]. eexists _, (error r). split; [reflexivity|]. intros k.
  unfold row. rewrite save_stages. cbn [set_stages stages]. rewrite (find_row_insert _ _ _ _ _ _ E) by (by apply find_row_Some in E as [_ E]). by case_decide.
Qed.

Lemma finish_row_of p at_ key err cancelled : is_Some (row p key) -> exists p' e, finish p at_ key err cancelled = (p', Ok tt) /\
  (is_error err = true -> e = (fun x => last_characters 2500 (text_of x)) <$> err) /\
  forall k, row p' k = if decide (k = key) then Some (outcome err cancelled, e) else row p k.
Proof.
  intros [v Hv]. unfold row in Hv. unfold finish. destruct (find_row (stages p) key) as [[i r]|] eqn:E; [|done]. eexists _, (if is_error err then (fun x => last_characters 2500 (text_of x)) <$> err else error r). split; [reflexivity|]. split; [by intros ->|]. intros k.
  unfold row. rewrite save_stages. cbn [set_stages stages]. rewrite (find_row_insert _ _ _ _ _ _ E) by (by apply find_row_Some in E as [_ E]). by case_decide.
Qed.

Lemma stage_ids_nodup p : ok p -> NoDup (map id (stages p)).
Proof. intros [-> _ _]. apply (bool_decide_unpack _). vm_compute. exact I. Qed.

(** [finish] of a row's own key changes that row and no other. *)
Lemma finish_row p at_ i r err cancelled : ok p -> stages p !! i = Some r ->
  exists r', stages (finish p at_ (id r) err cancelled).1 = <[i := r']> (stages p) /\ state r' = outcome err cancelled /\ session (finish p at_ (id r) err cancelled).1 = session p.
Proof.
  intros Hok Hi. unfold finish. destruct (find_row (stages p) (id r)) as [[j r2]|] eqn:E.
  - apply find_row_Some in E as [Hj Hid]. assert (j = i) as ->.
    { apply (NoDup_lookup (map id (stages p)) j i (id r)); [by apply stage_ids_nodup| |].
      - change (map id) with (fmap (M := list) id). by rewrite list_lookup_fmap, Hj, <- Hid.
      - change (map id) with (fmap (M := list) id). by rewrite list_lookup_fmap, Hi. }
    cbn [fst]. rewrite save_stages. eexists. split; [reflexivity|]. split; [done|]. unfold save. by destruct (String.eqb _ "").
  - assert (id r ∈ map id (stages p)) as Hin by (apply list_elem_of_In, in_map_iff; exists r; split; [done|]; apply list_elem_of_In; by eapply list_elem_of_lookup_2).
    apply find_row_ids in Hin. rewrite E in Hin. by destruct Hin.
Qed.

Lemma context_ok p at_ values : ok p -> ok (context p at_ values).
Proof. intros H. unfold context. apply save_ok. by destruct H. Qed.

(** *** Operations *)

(** A computation on the progress that leaves the rows it found as they are. *)
Definition appends {A} (body : progress -> progress * res A) : Prop := forall p, tasks p `prefix_of` tasks (body p).1.

Lemma operation_tasks {A} key title_ detail timeout a1 a2 (body : progress -> progress * res A) p : appends body ->
  exists row rest, tasks (operation key title_ detail timeout a1 a2 body p).1 = tasks p ++ row :: rest /\ t_id row = key /\ t_started row = a1 /\ t_finished row = Some a2 /\
    t_stage row = current_stage p /\
    match (operation key title_ detail timeout a1 a2 body p).2 with
    | Ok _ => t_state row = "done"
    | Err x => t_state row = "failed" /\ t_error row = Some (last_characters 2500 (exn_str x))
    end.
Proof.
  intros Hb. unfold operation. set (p1 := save _ _ _). destruct (Hb p1) as [rest Hr]. destruct (body p1) as [p2 r] eqn:E. cbn [fst] in Hr. unfold p1 in Hr. rewrite save_tasks in Hr. cbn [set_tasks tasks] in Hr.
  rewrite <- app_assoc in Hr. destruct r as [a|x]; cbn [fst snd]; rewrite save_tasks; cbn [tasks set_tasks]; rewrite Hr;
    (rewrite alter_app_r_alt by lia; rewrite Nat.sub_diag; eexists _, rest; split_and!; [reflexivity|done..]).
Qed.

Lemma operation_appends {A} key title_ detail timeout a1 a2 (body : progress -> progress * res A) : appends body -> appends (operation key title_ detail timeout a1 a2 body).
Proof. intros Hb p. destruct (operation_tasks key title_ detail timeout a1 a2 body p Hb) as (row & rest & -> & _). by apply prefix_app_r. Qed.

Lemma operation_ok {A} key title_ detail timeout a1 a2 (body : progress -> progress * res A) p : (forall p, ok p -> ok (body p).1) -> ok p ->
  ok (operation key title_ detail timeout a1 a2 body p).1.
Proof.
  intros Hb Hp. unfold operation. set (p1 := save _ _ _). assert (ok p1) as H1 by (apply save_ok; by destruct Hp). apply Hb in H1. destruct (body p1) as [p2 r].
  cbn [fst] in H1. destruct r; cbn [fst]; apply save_ok; by destruct H1.
Qed.

End Progress.

(** ** The session *)

Module Service.

Record owner := Owner { o_pid : option Z; o_identity : option string; o_session : option string; o_launch : json; stop_requested_at : option string }.

(** What reading a missing file gives. *)
Definition no_owner : owner := Owner None None None JNull None.

Record store := Store { owner_file : option owner; status_file : option (list (string * json)); progress_file : option Progress.progress;
  diagnostics_file : option (list (string * json)); snapshot_file : bool }.

Definition stage_json (r : Progress.stage) : json :=
  JDict ([("id", JStr (Progress.id r)); ("title", JStr (Progress.title r)); ("state", JStr (Progress.state r))] ++
    match Progress.started_at r with Some t => [("started_at", JStr t)] | None => [] end ++ match Progress.finished_at r with Some t => [("finished_at", JStr t)] | None => [] end ++
    match Progress.error r with Some e => [("error", JStr e)] | None => [] end).

Definition optional (v : option string) : json := match v with Some s => JStr s | None => JNull end.

Definition task_json (t : Progress.task) : json :=
  JDict ([("id", JStr (Progress.t_id t)); ("stage", optional (Progress.t_stage t)); ("title", JStr (Progress.t_title t)); ("detail", JStr (Progress.t_detail t));
      ("timeout_seconds", Progress.t_timeout t); ("state", JStr (Progress.t_state t)); ("started_at", JStr (Progress.t_started t))] ++
    match Progress.t_error t with Some e => [("error", JStr e)] | None => [] end ++ match Progress.t_finished t with Some x => [("finished_at", JStr x)] | None => [] end).

Definition progress_json (p : Progress.progress) : list (string * json) :=
  [("session", JStr (Progress.session p)); ("started_at", JStr (Progress.p_started_at p)); ("stages", JList (map stage_json (Progress.stages p)));
   ("tasks", JList (map task_json (Progress.tasks p))); ("events", JList (map (fun e => JDict [("at", JStr e.1); ("message", JStr e.2)]) (Progress.events p)));
   ("context", JDict (Progress.p_context p)); ("current_stage", optional (Progress.current_stage p))] ++
  match Progress.last_progress_at p with Some t => [("last_progress_at", JStr t)] | None => [] end.

(** Truth value of what [status.json] and [diagnostics.json] hold under a key. *)
Definition truthy (v : json) : bool :=
  match v with
  | JNull => false
  | JBool b => b
  | JInt z => negb (z =? 0)
  | JFloat q => negb (Qeq_bool q 0)
  | JNonFinite => true
  | JStr s => negb (String.eqb s "")
  | JList l => match l with [] => false | _ => true end
  | JDict d => match d with [] => false | _ => true end
  end.

(** [x.get('session') == owner.get('session')] *)
Definition same_session (v : json) (s : option string) : bool :=
  match v, s with
  | JNull, None => true
  | JStr a, Some b => String.eqb a b
  | _, _ => false
  end.

Section Observed.
Context (identity : Z -> option string).

(** A pid alone does not own the session: the start time of the process has to be the recorded one. *)
Definition alive (o : owner) : bool :=
  match o_pid o with
  | Some p => negb (p =? 0) && bool_decide (o_identity o = identity p)
  | None => false
  end.

Definition requested (o : owner) : bool := match stop_requested_at o with Some t => negb (String.eqb t "") | None => false end.

Definition terminal (v : json) : bool := Launch.str_in v ["stopped"; "failed"].

(** The phase a client is told. *)
Definition observed (o : owner) (st : list (string * json)) : list (string * json) :=
  let st := if negb (same_session (jget st "session") (o_session o)) && negb (truthy (jget st "run_id")) then [] else st in
  let st := if negb (alive o) && negb (terminal (jget st "phase")) then dset st "phase" (JStr (match st with [] => "stopped" | _ => "interrupted" end)) else st in
  let st := if alive o && Launch.str_in (jget st "phase") ["stopped"] then dset st "phase" (JStr "stopping") else st in
  if alive o && requested o then dset st "phase" (JStr "stopping") else st.

Definition status (s : store) : list (string * json) :=
  let o := default no_owner (owner_file s) in
  let st := observed o (default [] (status_file s)) in
  let st := match progress_file s with
    | Some p => if same_session (JStr (Progress.session p)) (o_session o) && negb (String.eqb (Progress.session p) "") then dset st "startup" (JDict (progress_json p)) else st
    | None => st
    end in
  let d := default [] (diagnostics_file s) in
  let st := if same_session (jget d "session") (o_session o) && truthy (jget d "session") then dset st "diagnostics" (JDict d) else st in
  let phase := jget_or st "phase" (JStr "stopped") in
  dset (dset (dset (dset st "launch_config" (o_launch o)) "active" (JBool (alive o))) "supervisor_pid" (match o_pid o with Some p => JInt p | None => JNull end)) "phase" phase.

End Observed.

(** ** The end of a session *)

(** What the supervisor writes to [status.json] when the launcher has ended with [result]. *)
Definition final_status (stopping : bool) (result : Z) (st : list (string * json)) : list (string * json) :=
  let st := if terminal (jget st "phase") then st else
    dset (dset st "phase" (JStr (if stopping then "stopped" else "failed"))) "error"
      (if stopping then JNull else JStr ("5G/runtime launcher exited " +:+ pretty result +:+ "; see reports/live/service.log")) in
  let st := if negb (mem result [0; 143]) && Launch.str_in (jget st "phase") ["stopped"] then
    dset (dset st "phase" (JStr "failed")) "error" (JStr ("5G cleanup failed with exit " +:+ pretty result +:+ "; see reports/live/service.log")) else st in
  dset st "wrapper_exit_code" (JInt result).

(** [status.get('error') or ...]; an error is written as a text. *)
Definition final_error (st : list (string * json)) : string :=
  match jget st "error" with JStr e => if String.eqb e "" then "启动过程已结束" else e | _ => "启动过程已结束" end.

(** [for row in progress.value['stages']]: [finish] changes the rows the loop goes over. *)
Definition close_row (at_ err : string) (stopping : bool) (p : Progress.progress) (i : nat) : Progress.progress :=
  match Progress.stages p !! i with
  | Some r => if String.eqb (Progress.state r) "running" then (Progress.finish p at_ (Progress.id r) (Some (Progress.Text err)) stopping).1 else p
  | None => p
  end.

Definition close_stages (at_ err : string) (stopping : bool) (p : Progress.progress) : Progress.progress :=
  fold_left (close_row at_ err stopping) (seq 0 (length (Progress.stages p))) p.

Definition finalize (at_ session : string) (stopping : bool) (result : Z) (s : store) : store :=
  let st := final_status stopping result (default [] (status_file s)) in
  let p := Progress.init (progress_file s) session at_ true in
  Store (owner_file s) (Some st)
    (if existsb (fun r => String.eqb (Progress.state r) "running") (Progress.stages p) then Some (close_stages at_ (final_error st) stopping p) else progress_file s)
    (diagnostics_file s) (snapshot_file s).

(** *** The end leaves nothing running *)

Lemma close_row_spec at_ err stopping p i : err <> "" -> Progress.ok p -> Progress.ok (close_row at_ err stopping p i) /\ length (Progress.stages (close_row at_ err stopping p i)) = length (Progress.stages p) /\
  (forall j, j <> i -> Progress.stages (close_row at_ err stopping p i) !! j = Progress.stages p !! j) /\
  (forall r, Progress.stages (close_row at_ err stopping p i) !! i = Some r -> Progress.state r <> "running") /\ Progress.session (close_row at_ err stopping p i) = Progress.session p.
Proof.
  intros He Hok. unfold close_row. destruct (Progress.stages p !! i) as [r|] eqn:Hi; [|split_and!; try done; by rewrite Hi].
  destruct (String.eqb_spec (Progress.state r) "running") as [Hr|Hr]; [|split_and!; try done; rewrite Hi; by intros ? [= <-]].
  destruct (Progress.finish_row p at_ i r (Some (Progress.Text err)) stopping Hok Hi) as (r' & Hs & Hst & Hse). split; [by apply Progress.finish_ok|]. rewrite Hs, length_insert. split; [done|]. split.
  - intros j Hj. by rewrite list_lookup_insert_ne.
  - split; [|done]. intros r2. rewrite list_lookup_insert_eq by (by eapply lookup_lt_Some). intros [= <-]. rewrite Hst. unfold Progress.outcome, Progress.is_error.
    destruct stopping; [done|]. by destruct (String.eqb_spec err "").
Qed.

Lemma close_rows_spec at_ err stopping is_ p : err <> "" -> Progress.ok p -> let p' := fold_left (close_row at_ err stopping) is_ p in
  Progress.ok p' /\ length (Progress.stages p') = length (Progress.stages p) /\ Progress.session p' = Progress.session p /\
  (forall j r, Progress.stages p' !! j = Some r -> Progress.state r = "running" -> (j ∉ is_) /\ Progress.stages p !! j = Some r).
Proof.
  intros He. revert p. induction is_ as [|i is_ IH]; intros p Hok; simpl; [split_and!; try done; intros; split; [by apply not_elem_of_nil|done]|].
  destruct (close_row_spec at_ err stopping p i He Hok) as (H1 & H2 & H3 & H4 & H5). destruct (IH _ H1) as (G1 & G2 & G3 & G4).
  split; [done|]. split; [by rewrite G2|]. split; [by rewrite G3|]. intros j r Hj Hr. destruct (G4 j r Hj Hr) as [Hn Hp].
  assert (j <> i) as Hne by (intros ->; by apply (H4 r)). rewrite H3 in Hp by done. split; [|done]. by rewrite not_elem_of_cons.
Qed.

Lemma close_stages_spec at_ err stopping p : err <> "" -> Progress.ok p ->
  Progress.ok (close_stages at_ err stopping p) /\ Progress.session (close_stages at_ err stopping p) = Progress.session p /\
  Forall (fun r => Progress.state r <> "running") (Progress.stages (close_stages at_ err stopping p)).
Proof.
  intros He Hok. destruct (close_rows_spec at_ err stopping (seq 0 (length (Progress.stages p))) p He Hok) as (H1 & H2 & H3 & H4). split; [done|]. split; [done|].
  apply Forall_lookup. intros j r Hj Hr. destruct (H4 j r Hj Hr) as [Hn _]. apply Hn. apply elem_of_seq. apply lookup_lt_Some in Hj. unfold close_stages in Hj. rewrite H2 in Hj. lia.
Qed.

Lemma final_error_nonempty st : final_error st <> "".
Proof. unfold final_error. destruct (jget st "error"); try done. by destruct (String.eqb_spec s ""). Qed.

Lemma jget_dset_eq d k v : jget (dset d k v) k = v.
Proof. unfold jget. by rewrite dget_dset_eq. Qed.

Lemma jget_dset_ne d k k' v : k' <> k -> jget (dset d k v) k' = jget d k'.
Proof. intros H. unfold jget. by rewrite dget_dset_ne. Qed.

Lemma str_in_true v l : Launch.str_in v l = true <-> exists s, v = JStr s /\ s ∈ l.
Proof. destruct v; simpl; unfold mem; rewrite ?bool_decide_eq_true; naive_solver. Qed.

(** The phase a session ends with: failed for an exit code other than success or SIGTERM; otherwise what the runtime left, if it is
    one of the two phases of an ended session; and otherwise stopped exactly if a stop was requested. *)
Definition end_phase (stopping : bool) (result : Z) (left : json) : json :=
  if negb (mem result [0; 143]) then JStr "failed"
  else if terminal left then left else JStr (if stopping then "stopped" else "failed").

Lemma final_phase stopping result st : jget (final_status stopping result st) "phase" = end_phase stopping result (jget st "phase").
Proof.
  unfold final_status, end_phase. set (st1 := if terminal (jget st "phase") then st else _). rewrite jget_dset_ne by done.
  assert (jget st1 "phase" = if terminal (jget st "phase") then jget st "phase" else JStr (if stopping then "stopped" else "failed")) as H1.
  { unfold st1. destruct (terminal _); [done|]. by rewrite jget_dset_ne, jget_dset_eq by done. }
  destruct (mem result [0; 143]); [exact H1|]. cbn [negb andb]. rewrite H1. destruct (terminal (jget st "phase")) eqn:E.
  2: { destruct stopping; [|exact H1]. change (Launch.str_in (JStr "stopped") ["stopped"]) with true. cbn iota. by rewrite jget_dset_ne, jget_dset_eq by done. }
  apply str_in_true in E as (ph & Hph & Hin). rewrite Hph in *. apply elem_of_cons in Hin as [->|Hin%list_elem_of_singleton]; [|subst ph; exact H1].
  change (Launch.str_in (JStr "stopped") ["stopped"]) with true. cbn iota. rewrite jget_dset_ne, jget_dset_eq by done. done.
Qed.

(** The session ends as stopped or failed; an exit code other than success or SIGTERM is a failure. *)
Lemma final_status_spec stopping result st :
  terminal (jget (final_status stopping result st) "phase") = true /\ jget (final_status stopping result st) "wrapper_exit_code" = JInt result /\
  (result ∉ [0; 143] -> jget (final_status stopping result st) "phase" = JStr "failed") /\
  (stopping = false -> terminal (jget st "phase") = false -> jget (final_status stopping result st) "phase" = JStr "failed").
Proof.
  unfold final_status. set (st1 := if terminal (jget st "phase") then st else _).
  assert (terminal (jget st1 "phase") = true) as H1.
  { unfold st1. destruct (terminal (jget st "phase")) eqn:E; [done|]. rewrite jget_dset_ne, jget_dset_eq by done. by destruct stopping. }
  set (st2 := if negb _ && _ then _ else st1). rewrite jget_dset_eq, jget_dset_ne by done.
  assert (terminal (jget st2 "phase") = true /\ (result ∉ [0; 143] -> jget st2 "phase" = JStr "failed") /\ (jget st1 "phase" = JStr "failed" -> jget st2 "phase" = JStr "failed")) as (H2 & H3 & H4).
  { unfold st2. apply str_in_true in H1 as (ph & Hph & Hin). rewrite Hph. destruct (negb (mem result [0; 143])) eqn:E; simpl.
    - unfold mem. destruct (bool_decide_reflect (ph ∈ ["stopped"])) as [Hs|Hs].
      + rewrite jget_dset_ne, jget_dset_eq by done. done.
      + assert (ph = "failed") as -> by set_solver. rewrite Hph. done.
    - rewrite Hph. split_and!; [apply str_in_true; eauto| |done]. intros Hn. exfalso. apply negb_false_iff, bool_decide_eq_true in E. done. }
  split; [done|]. split; [done|]. split; [done|]. intros -> Ht. apply H4. unfold st1. rewrite Ht, jget_dset_ne, jget_dset_eq by done. done.
Qed.

(** ** Processes, the lock and the signals *)

Inductive signal := ToRuntime (pid : Z) | ToGroup.

Section Handler.
Context (identity : Z -> option string) (is_runtime : Z -> bool).

(** The SIGTERM handler of the supervisor: the first call records the request and sends one signal, to the runtime when the recorded process is
    one and otherwise to the process group of the launcher; later calls return. *)
Definition target (st : list (string * json)) : signal :=
  match jget st "pid" with
  | JInt p => if negb (p =? 0) && bool_decide (is_Some (identity p)) && is_runtime p then ToRuntime p else ToGroup
  | _ => ToGroup
  end.

Definition handler (at_ : string) (stopping : bool) (s : store) : store * bool * list signal :=
  if stopping then (s, true, []) else
  let o := default no_owner (owner_file s) in
  let s := Store (Some (Owner (o_pid o) (o_identity o) (o_session o) (o_launch o) (Some at_))) (status_file s) (progress_file s) (diagnostics_file s) (snapshot_file s) in
  (s, true, [target (default [] (status_file s))]).

End Handler.

(** A supervisor process: whether it has written [owner.json], whether it has started the launcher and installed its handler, whether it is stopping, and the teardown signals it has sent. *)
Record supervisor := Supervisor { s_pid : Z; s_start : string; s_session : string; s_owning : bool; s_running : bool; s_stopping : bool; s_signals : list signal }.

(** [past] has the pid and the start time of every process so far; the kernel does not hand out the same pair twice. *)
Record world := World { files : store; lock : option Z; procs : list (Z * string); past : list (Z * string); sups : list supervisor; ended : list supervisor; term : list Z }.

Definition identity_in (w : world) (p : Z) : option string := dget (procs w) p.

Definition w_status (w : world) : list (string * json) := status (identity_in w) (files w).

(** [start]: the lock is taken without waiting, the documents are written, and the child inherits the lock. [spawn] is the new process, or [None] when it could not be created. *)
Definition start (cfg : option json) (t : Launch.templates) (spawn : option (Z * string)) (w : world) : world * res unit :=
  match (match cfg with Some v => let* _ := Launch.validate v in Ok tt | None => Ok tt end) with
  | Err x => (w, Err x)
  | Ok _ =>
      match lock w with
      | Some _ => (w, match cfg with Some _ => Err (RuntimeError "平台正在运行或启动；请先停止，再更换启动配置") | None => Ok tt end)
      | None =>
          match (match cfg with Some v => let* _ := Launch.materialize v t in Ok tt | None => Ok tt end) with
          | Err x => (w, Err x)
          | Ok _ =>
              match spawn with
              | None => (w, Err (OSError "cannot start the supervisor"))
              | Some (p, i) =>
                  (World (files w) (Some p) (dset (procs w) p i) ((p, i) :: past w) (sups w ++ [Supervisor p i "" false false false []]) (ended w) (term w), Ok tt)
              end
          end
      end
  end.

(** [stop]: what the client gets, and the process that is sent SIGTERM. *)
Definition stop (w : world) : list (string * json) * option Z :=
  let st := w_status w in
  match jget st "active" with
  | JBool true =>
      if Launch.str_in (jget st "phase") ["stopping"; "stopped"; "failed"] then (dset st "phase" (JStr "stopping"), None)
      else (dset st "phase" (JStr "stopping"), match jget st "supervisor_pid" with JInt p => Some p | _ => None end)
  | _ => (st, None)
  end.

(** The beginning of [supervise]: first the owner record, *)
Definition take_ownership (p : Z) (i session : string) (launch : json) (f : store) : store :=
  Store (Some (Owner (Some p) (Some i) (Some session) launch None)) (status_file f) (progress_file f) (diagnostics_file f) (snapshot_file f).

(** then the files of the new session, up to the start of the launcher. *)
Definition open_session (session at_ : string) (f : store) : store :=
  Store (owner_file f) (Some [("phase", JStr "starting_5g"); ("session", JStr session); ("started_at", JStr at_); ("updated_at", JStr at_)])
    (Some (Progress.begin (Progress.init None session at_ false) at_ "starting_5g").1) None false.

Definition set_files (w : world) (f : store) : world := World f (lock w) (procs w) (past w) (sups w) (ended w) (term w).

Definition without (p : Z) (l : list (Z * string)) : list (Z * string) := dpop l p.

(** One call of a client, one block of the supervisor's program, or one change by the processes of the session.  The writes that end a session, the reads of
    [status], and the check and the kill of [stop], are one step each.  The processes of a session write its files at any time, also when their supervisor is gone. *)
Inductive step (is_runtime : Z -> bool) : world -> world -> Prop :=
| st_start cfg t p i w w' : p <> 0 -> dget (procs w) p = None -> (p, i) ∉ past w -> start cfg t (Some (p, i)) w = (w', Ok tt) -> step is_runtime w w'
| st_other p i w : dget (procs w) p = None -> (p, i) ∉ past w ->
    step is_runtime w (World (files w) (lock w) (dset (procs w) p i) ((p, i) :: past w) (sups w) (ended w) (term w))
| st_other_exit p w : Forall (fun s => s_pid s <> p) (sups w) ->
    step is_runtime w (World (files w) (lock w) (without p (procs w)) (past w) (sups w) (ended w) (term w))
| st_own pre s post session launch w : sups w = pre ++ s :: post -> s_owning s = false ->
    step is_runtime w (World (take_ownership (s_pid s) (s_start s) session launch (files w)) (lock w) (procs w) (past w)
      (pre ++ Supervisor (s_pid s) (s_start s) session true false false (s_signals s) :: post) (ended w) (term w))
| st_begin pre s post at_ w : sups w = pre ++ s :: post -> s_owning s = true -> s_running s = false ->
    step is_runtime w (World (open_session (s_session s) at_ (files w)) (lock w) (procs w) (past w)
      (pre ++ Supervisor (s_pid s) (s_start s) (s_session s) true true false (s_signals s) :: post) (ended w) (term w))
| st_runtime st p d sn w : (forall q, p = Some q -> Progress.ok q) ->
    step is_runtime w (set_files w (Store (owner_file (files w)) st p d sn))
| st_stop p w : (stop w).2 = Some p -> step is_runtime w (World (files w) (lock w) (procs w) (past w) (sups w) (ended w) (p :: term w))
| st_signal pre s post t1 t2 at_ f b sig w : sups w = pre ++ s :: post -> s_running s = true -> term w = t1 ++ s_pid s :: t2 ->
    handler (identity_in w) is_runtime at_ (s_stopping s) (files w) = (f, b, sig) -> at_ <> "" ->
    step is_runtime w (World f (lock w) (procs w) (past w) (pre ++ Supervisor (s_pid s) (s_start s) (s_session s) (s_owning s) true b (s_signals s ++ sig) :: post) (ended w) (t1 ++ t2))
| st_exit pre s post at_ result w : sups w = pre ++ s :: post -> s_running s = true ->
    step is_runtime w (World (finalize at_ (s_session s) (s_stopping s) result (files w)) None (without (s_pid s) (procs w)) (past w) (pre ++ post) (ended w ++ [s]) (term w))
| st_crash pre s post w : sups w = pre ++ s :: post ->
    step is_runtime w (World (files w) None (without (s_pid s) (procs w)) (past w) (pre ++ post) (ended w ++ [s]) (term w)).

Definition empty_store : store := Store None None None None false.

Definition world0 : world := World empty_store None [] [] [] [] [].

Inductive reachable (is_runtime : Z -> bool) : world -> Prop :=
| r_start : reachable is_runtime world0
| r_step w w' : reachable is_runtime w -> step is_runtime w w' -> reachable is_runtime w'.

(** *** The invariant *)

(** The lock and the list of supervisors: both empty, or one supervisor that holds the lock. *)
Definition held (l : option Z) (ss : list supervisor) : Prop :=
  match ss with
  | [] => l = None
  | [s] => l = Some (s_pid s) /\ s_pid s <> 0
  | _ => False
  end.

(** The files name the supervisor that took them over, and whether it was asked to stop. *)
Definition owns (f : store) (s : supervisor) : Prop :=
  exists o, owner_file f = Some o /\ o_pid o = Some (s_pid s) /\ o_identity o = Some (s_start s) /\ o_session o = Some (s_session s) /\ requested o = s_stopping s.

(** The recorded owner is a process that existed, and is alive only as the supervisor that wrote it. *)
Definition owner_ok (w : world) : Prop := forall o, owner_file (files w) = Some o -> exists p i, o_pid o = Some p /\ o_identity o = Some i /\ (p, i) ∈ past w /\
  (dget (procs w) p = Some i -> exists s, s ∈ sups w /\ s_owning s = true /\ s_pid s = p /\ s_start s = i).

(** One signal when stopping, none before. *)
Definition signalled (s : supervisor) : Prop := length (s_signals s) = (if s_stopping s then 1 else 0)%nat /\ (s_running s = false -> s_stopping s = false) /\ (s_running s = true -> s_owning s = true).

Record inv (w : world) : Prop := {
  i_lock : held (lock w) (sups w);
  i_live : Forall (fun s => dget (procs w) (s_pid s) = Some (s_start s)) (sups w);
  i_past : forall p i, dget (procs w) p = Some i -> (p, i) ∈ past w;
  i_owner : owner_ok w;
  i_owns : Forall (fun s => s_owning s = true -> owns (files w) s) (sups w);
  i_signals : Forall signalled (sups w ++ ended w);
  i_progress : forall q, progress_file (files w) = Some q -> Progress.ok q }.

Lemma held_one l pre s post : held l (pre ++ s :: post) -> pre = [] /\ post = [] /\ l = Some (s_pid s) /\ s_pid s <> 0.
Proof. destruct pre as [|x pre]; [|by destruct pre]. destruct post as [|y post]; [|done]. by intros [-> ?]. Qed.

Lemma world0_inv : inv world0.
Proof. constructor; try done; try constructor. Qed.

Lemma start_inv cfg t p i w w' : inv w -> p <> 0 -> dget (procs w) p = None -> (p, i) ∉ past w -> start cfg t (Some (p, i)) w = (w', Ok tt) -> inv w'.
Proof.
  intros Hinv Hp0 Hfree Hnew. pose proof Hinv as [H1 H2 H3 H4 H5 H6 H7]. unfold start. destruct (match cfg with Some v => _ | None => _ end) as [[]|x]; [|done].
  destruct (lock w) as [q|] eqn:El; [intros H; by injection H as -> _|]. destruct (match cfg with Some v => _ | None => _ end) as [[]|x]; [|done]. intros [= <-].
  assert (sups w = []) as Es by (destruct (sups w) as [|s [|]]; naive_solver). rewrite Es in *. constructor; simpl; try done.
  - repeat constructor. simpl. by rewrite dget_dset_eq.
  - intros q j. rewrite dget_dset. destruct (decide _) as [->|]; [intros [= ->]; left|right; by apply H3].
  - intros o Ho. destruct (H4 o Ho) as (q & j & Hq & Hj & Hin & Hl). exists q, j. split_and!; try done; [by right|]. simpl. rewrite dget_dset. destruct (decide _) as [->|].
    + by intros [= ->].
    + intros Hd. destruct (Hl Hd) as (s & Hs & _). rewrite Es in Hs. by apply not_elem_of_nil in Hs.
  - by repeat constructor.
  - constructor; [done|exact H6].
Qed.

Lemma processes_inv w ps past' : inv w -> (forall s, s ∈ sups w -> dget ps (s_pid s) = Some (s_start s)) ->
  (forall p i, dget ps p = Some i -> (p, i) ∈ past') -> (forall x, x ∈ past w -> x ∈ past') -> (forall p i, (p, i) ∈ past w -> dget ps p = Some i -> dget (procs w) p = Some i) ->
  inv (World (files w) (lock w) ps past' (sups w) (ended w) (term w)).
Proof.
  intros [H1 H2 H3 H4 H5 H6 H7] Hl Hp Hsub Hback. constructor; simpl; try done; [by apply Forall_forall|].
  intros o Ho. destruct (H4 o Ho) as (p & i & Hpo & Hi & Hin & Hs). exists p, i. split_and!; try done; [by apply Hsub|]. intros Hd. apply Hs. by apply Hback.
Qed.

Lemma leave_inv w s f : inv w -> sups w = [s] -> owner_file f = owner_file (files w) -> (forall q, progress_file f = Some q -> Progress.ok q) ->
  inv (World f None (without (s_pid s) (procs w)) (past w) [] (ended w ++ [s]) (term w)).
Proof.
  intros [H1 H2 H3 H4 H5 H6 H7] Es Ho Hq. rewrite Es in *. constructor; simpl; try done.
  - intros p i. unfold without. rewrite dget_dpop. destruct (decide _); [done|apply H3].
  - intros o Ho'. simpl in Ho'. rewrite Ho in Ho'. destruct (H4 o Ho') as (p & i & Hp & Hi & Hin & Hs). exists p, i. split_and!; try done. simpl. unfold without. rewrite dget_dpop.
    destruct (decide _) as [|Hne]; [done|]. intros Hd. destruct (Hs Hd) as (s' & Hs' & _ & Hpid & _). rewrite Es in Hs'. apply list_elem_of_singleton in Hs' as ->. done.
  - apply Forall_app_2; [|repeat constructor]; apply Forall_app in H6 as [Ha Hb]; [done|..]; by apply Forall_inv in Ha as (? & ? & ?).
Qed.

Lemma open_session_progress session at_ f q : progress_file (open_session session at_ f) = Some q -> Progress.ok q.
Proof. unfold open_session. cbn [progress_file]. intros H. apply (inj Some) in H as <-. apply Progress.begin_ok, Progress.opened_ok. done. Qed.

Lemma own_inv w s session launch : inv w -> sups w = [s] -> s_owning s = false ->
  inv (World (take_ownership (s_pid s) (s_start s) session launch (files w)) (lock w) (procs w) (past w) [Supervisor (s_pid s) (s_start s) session true false false (s_signals s)] (ended w) (term w)).
Proof.
  intros [H1 H2 H3 H4 H5 H6 H7] Es Hr. rewrite Es in *. apply Forall_inv in H2. apply Forall_cons in H6 as [(Hs1 & Hs2 & Hs3) H6].
  assert (s_running s = false) as Hrun by (destruct (s_running s); [by rewrite Hs3 in Hr|done]). rewrite (Hs2 Hrun) in Hs1. constructor; cbn [files lock procs past sups ended]; try done.
  - by repeat constructor.
  - intros o [= <-]. exists (s_pid s), (s_start s). split_and!; try done; [by apply H3|]. intros _. eexists. split; [by apply list_elem_of_singleton|done].
  - repeat constructor. intros _. by eexists.
  - by constructor.
Qed.

Lemma begin_inv w s at_ : inv w -> sups w = [s] -> s_owning s = true -> s_running s = false ->
  inv (World (open_session (s_session s) at_ (files w)) (lock w) (procs w) (past w) [Supervisor (s_pid s) (s_start s) (s_session s) true true false (s_signals s)] (ended w) (term w)).
Proof.
  intros [H1 H2 H3 H4 H5 H6 H7] Es Ho Hr. rewrite Es in *. apply Forall_inv in H2, H5. apply Forall_cons in H6 as [(Hs1 & Hs2 & Hs3) H6]. rewrite (Hs2 Hr) in Hs1.
  destruct (H5 Ho) as (o & Ho1 & Ho2 & Ho3 & Ho4 & Ho5). constructor; cbn [files lock procs past sups ended]; try done.
  - by repeat constructor.
  - intros o' Ho'. destruct (H4 o' Ho') as (p & i & Hp & Hi & Hin & Hs). exists p, i. split_and!; try done. intros Hd. destruct (Hs Hd) as (s' & Hs' & ? & ? & ?). rewrite Es in Hs'.
    apply list_elem_of_singleton in Hs' as ->. eexists. split; [by apply list_elem_of_singleton|done].
  - repeat constructor. intros _. exists o. rewrite (Hs2 Hr) in Ho5. done.
  - by constructor.
  - apply open_session_progress.
Qed.

Lemma signal_inv is_runtime w s at_ f b sig ts : inv w -> sups w = [s] -> s_running s = true -> at_ <> "" -> handler (identity_in w) is_runtime at_ (s_stopping s) (files w) = (f, b, sig) ->
  inv (World f (lock w) (procs w) (past w) [Supervisor (s_pid s) (s_start s) (s_session s) (s_owning s) true b (s_signals s ++ sig)] (ended w) ts).
Proof.
  intros [H1 H2 H3 H4 H5 H6 H7] Es Hr Hat. rewrite Es in *. apply Forall_inv in H2, H5. apply Forall_cons in H6 as [(Hs1 & Hs2 & Hs3) H6]. unfold handler.
  specialize (H5 (Hs3 Hr)).
  destruct (s_stopping s) eqn:Est; intros [= <- <- <-]; constructor; simpl; try done; try (by repeat constructor).
  - intros o Ho. destruct (H4 o Ho) as (p & i & Hp & Hi & Hin & Hs). exists p, i. split_and!; try done. intros Hd. destruct (Hs Hd) as (s' & Hs' & ? & ? & ?). rewrite Es in Hs'.
    apply list_elem_of_singleton in Hs' as ->. eexists. split; [by apply list_elem_of_singleton|done].
  - repeat constructor. intros _. destruct H5 as (o & ? & ? & ? & ? & ?). exists o. simpl. by rewrite <- Est.
  - constructor; [|done]. split_and!; simpl; [by rewrite app_nil_r|done|intros _; by apply Hs3].
  - destruct H5 as (o' & Ho' & Hp' & Hi' & Hse' & _). intros o. simpl. rewrite Ho'. simpl. intros [= <-]. exists (s_pid s), (s_start s). simpl. split_and!; try done; [by apply H3|].
    intros _. eexists. split; [by apply list_elem_of_singleton|]. by rewrite (Hs3 Hr).
  - repeat constructor. intros _. destruct H5 as (o' & Ho' & Hp' & Hi' & Hse' & _). eexists. split; [done|]. rewrite Ho'. simpl. split_and!; try done. unfold requested. simpl.
    by destruct (String.eqb_spec at_ "").
  - constructor; [|done]. split_and!; simpl; [by rewrite length_app, Hs1|done|intros _; by apply Hs3].
Qed.

Lemma step_inv is_runtime w w' : inv w -> step is_runtime w w' -> inv w'.
Proof.
  intros Hinv Hstep. destruct Hstep as [cfg t p i w w' Hp0 Hfree Hnew Hs|p i w Hfree Hnew|p w Hno|pre s post session launch w Es Hr|pre s post at_ w Es Ho Hr|st p d sn w Hp|p w Hs
    |pre s post t1 t2 at_ f b sig w Es Hr Ht Hh Hat|pre s post at_ result w Es Hr|pre s post w Es];
    try (pose proof (i_lock w Hinv) as Hl; rewrite Es in Hl; apply held_one in Hl as (-> & -> & Hl & _); simpl in Es |- * ).
  - by eapply start_inv.
  - pose proof Hinv as [_ H2 H3 _ _ _ _]. rewrite Forall_forall in H2. apply processes_inv; try done.
    + intros s Hs. rewrite dget_dset_ne; [by apply H2|]. intros E. specialize (H2 s Hs). simpl in H2. rewrite E in H2. congruence.
    + intros q j. rewrite dget_dset. destruct (decide _) as [->|]; [intros [= ->]; left|right; by apply H3].
    + intros x Hx. by right.
    + intros q j Hq. rewrite dget_dset. destruct (decide _) as [->|]; [by intros [= ->]|done].
  - pose proof Hinv as [_ H2 H3 _ _ _ _]. rewrite Forall_forall in H2, Hno. apply processes_inv; try done.
    + intros s Hs. unfold without. rewrite dget_dpop. destruct (decide _) as [E|]; [by destruct (Hno s Hs)|by apply H2].
    + intros q j. unfold without. rewrite dget_dpop. destruct (decide _); [done|apply H3].
    + intros q j _. unfold without. rewrite dget_dpop. by destruct (decide _).
  - by apply own_inv.
  - by apply begin_inv.
  - destruct Hinv as [H1 H2 H3 H4 H5 H6 H7]. by constructor.
  - destruct Hinv as [H1 H2 H3 H4 H5 H6 H7]. by constructor.
  - by eapply signal_inv.
  - apply leave_inv; try done. unfold finalize. simpl. intros q. destruct (existsb _ _); [|apply (i_progress w Hinv)]. intros [= <-].
    apply close_stages_spec; [apply final_error_nonempty|]. apply Progress.opened_ok. apply (i_progress w Hinv).
  - apply leave_inv; try done. apply (i_progress w Hinv).
Qed.

Lemma reachable_inv is_runtime w : reachable is_runtime w -> inv w.
Proof. induction 1; [apply world0_inv|by eapply step_inv]. Qed.

(** *** What clients are told *)

Lemma status_fields identity s : let o := default no_owner (owner_file s) in
  jget (status identity s) "active" = JBool (alive identity o) /\ jget (status identity s) "supervisor_pid" = match o_pid o with Some p => JInt p | None => JNull end /\
  jget (status identity s) "phase" = jget_or (observed identity o (default [] (status_file s))) "phase" (JStr "stopped").
Proof.
  intros o. unfold status. fold o. set (st1 := observed _ _ _).
  set (st2 := match progress_file s with Some p => _ | None => st1 end). assert (jget_or st2 "phase" (JStr "stopped") = jget_or st1 "phase" (JStr "stopped")) as E2.
  { unfold st2. destruct (progress_file s); [|done]. destruct (_ && _); [|done]. unfold jget_or. by rewrite dget_dset_ne. }
  set (st3 := if _ && _ then dset st2 _ _ else st2). assert (jget_or st3 "phase" (JStr "stopped") = jget_or st2 "phase" (JStr "stopped")) as E3.
  { unfold st3. destruct (_ && _); [|done]. unfold jget_or. by rewrite dget_dset_ne. }
  cbv zeta. split_and!.
  - by rewrite !jget_dset_ne, jget_dset_eq by done.
  - by rewrite jget_dset_ne, jget_dset_eq by done.
  - rewrite jget_dset_eq. by rewrite E3, E2.
Qed.

Lemma observed_dead identity o st : alive identity o = false ->
  exists ph, jget_or (observed identity o st) "phase" (JStr "stopped") = JStr ph /\ ph ∈ ["stopped"; "failed"; "interrupted"].
Proof.
  intros Ha. unfold observed. rewrite Ha. cbn [andb negb]. set (st1 := if _ && _ then [] else st). destruct (terminal (jget st1 "phase")) eqn:E; cbn [negb].
  - apply str_in_true in E as (ph & Hph & Hin). exists ph. unfold jget_or, jget in *. destruct (dget st1 "phase"); [|done]. subst. split; [done|set_solver].
  - eexists. unfold jget_or. rewrite dget_dset_eq. split; [done|]. destruct st1; set_solver.
Qed.

(** A terminal phase in the file is what clients see once the process is gone, unless the file belongs to another session. *)
Lemma observed_ended identity o st : alive identity o = false -> terminal (jget st "phase") = true ->
  exists ph, jget_or (observed identity o st) "phase" (JStr "stopped") = JStr ph /\ ph ∈ ["stopped"; "failed"].
Proof.
  intros Ha Ht. unfold observed. rewrite Ha. cbn [andb negb]. destruct (_ && _).
  - exists "stopped". split; [reflexivity|set_solver].
  - rewrite Ht. cbn [negb]. apply str_in_true in Ht as (ph & Hph & Hin). exists ph. unfold jget_or, jget in *. destruct (dget st "phase"); [|done]. by subst.
Qed.

Lemma observed_stopping identity o st : alive identity o = true -> requested o = true -> jget_or (observed identity o st) "phase" (JStr "stopped") = JStr "stopping".
Proof. intros Ha Hr. unfold observed. rewrite Ha, Hr. cbn [andb]. unfold jget_or. by rewrite dget_dset_eq. Qed.

(** A client is told of an active session exactly while its supervisor lives. *)
Lemma alive_iff w : inv w -> alive (identity_in w) (default no_owner (owner_file (files w))) = true <-> exists s, sups w = [s] /\ s_owning s = true.
Proof.
  intros [H1 H2 H3 H4 H5 H6 H7]. split.
  - destruct (owner_file (files w)) as [o|] eqn:Eo; [|done]. simpl. destruct (H4 o Eo) as (p & i & Hp & Hi & _ & Hs). unfold alive. rewrite Hp, Hi. intros H.
    apply andb_true_iff in H as [_ H%bool_decide_eq_true]. destruct (Hs (eq_sym H)) as (s & Hin & Ho & _). exists s. split; [|done].
    destruct (sups w) as [|x [|]]; [by apply not_elem_of_nil in Hin| |done]. by apply list_elem_of_singleton in Hin as ->.
  - intros (s & Es & Ho). rewrite Es in *. apply Forall_inv in H2, H5. destruct (H5 Ho) as (o & Hof & Hp & Hi & _). rewrite Hof. simpl. unfold alive. rewrite Hp, Hi.
    apply andb_true_iff. destruct H1 as [_ Hn]. split; [by apply negb_true_iff, Z.eqb_neq|]. apply bool_decide_eq_true. by rewrite <- H2.
Qed.

(** C11.  The session has one owner and clients are told the truth about it: whatever starts, stops, crashes and recycled process ids came before, at most one
    supervisor exists; a client sees an active session exactly when a supervisor that wrote the owner record is alive, under its process id; a stopping
    supervisor is reported as stopping, and without a supervisor the phase is stopped, failed or interrupted, never one of a running session. *)
Theorem status_truthful is_runtime w : reachable is_runtime w ->
  (length (sups w) <= 1)%nat /\
  (jget (w_status w) "active" = JBool true <-> exists s, sups w = [s] /\ s_owning s = true) /\
  (forall s, sups w = [s] -> s_owning s = true -> jget (w_status w) "supervisor_pid" = JInt (s_pid s) /\ (s_stopping s = true -> jget (w_status w) "phase" = JStr "stopping")) /\
  (jget (w_status w) "active" = JBool false -> exists ph, jget (w_status w) "phase" = JStr ph /\ ph ∈ ["stopped"; "failed"; "interrupted"]).
Proof.
  intros Hr%reachable_inv. destruct (status_fields (identity_in w) (files w)) as (Ea & Ep & Eph). pose proof (alive_iff w Hr) as Hal. unfold w_status. rewrite Ea. split_and!.
  - pose proof (i_lock w Hr) as H. destruct (sups w) as [|? [|]]; simpl; [lia|lia|done].
  - rewrite <- Hal. by split; [intros [= ->]|intros ->].
  - intros s Es Ho. destruct Hr as [_ _ _ _ H5 _ _]. rewrite Es in H5. apply Forall_inv in H5. destruct (H5 Ho) as (o & Hof & Hp & _ & _ & Hreq). rewrite Ep, Eph, Hof. simpl.
    rewrite Hp. split; [done|]. intros Hst. apply observed_stopping; [|by rewrite Hreq]. change o with (default no_owner (Some o)). rewrite <- Hof. apply Hal. by exists s.
  - intros [= Hd]. rewrite Eph. by apply observed_dead.
Qed.

(** However many stop requests arrive, and however they interleave with the session, a supervisor sends at most one teardown signal, and exactly one
    once it is stopping: the runtime's own teardown is not interrupted by a second signal. *)
Theorem one_teardown is_runtime w s : reachable is_runtime w -> s ∈ sups w ++ ended w -> length (s_signals s) = (if s_stopping s then 1 else 0)%nat.
Proof. intros Hr%reachable_inv Hs. pose proof (i_signals w Hr) as H. rewrite Forall_forall in H. by destruct (H s Hs). Qed.

(** C25.  A session always ends closed: when the launcher exits, with any code and whatever the runtime left in the files, clients see an inactive session that is
    stopped or failed.  The status file says failed for any exit code but success and SIGTERM; for those two it keeps a phase of stopped or failed that the runtime left,
    and otherwise says stopped if a stop was requested and failed if nobody asked for the exit.  No start stage of the session
    is left running, and the lock is free, so that the next start succeeds. *)
Theorem session_ends_closed is_runtime w pre s post at_ result t p i : reachable is_runtime w -> sups w = pre ++ s :: post -> s_running s = true ->
  let w' := World (finalize at_ (s_session s) (s_stopping s) result (files w)) None (without (s_pid s) (procs w)) (past w) (pre ++ post) (ended w ++ [s]) (term w) in
  step is_runtime w w' /\ jget (w_status w') "active" = JBool false /\ (exists ph, jget (w_status w') "phase" = JStr ph /\ ph ∈ ["stopped"; "failed"]) /\
  (exists st, status_file (files w') = Some st /\ jget st "wrapper_exit_code" = JInt result /\
     jget st "phase" = end_phase (s_stopping s) result (jget (default [] (status_file (files w))) "phase")) /\
  (forall q, progress_file (files w') = Some q -> Progress.session q = s_session s -> Forall (fun r => Progress.state r <> "running") (Progress.stages q)) /\
  (start None t (Some (p, i)) w').2 = Ok tt /\ lock (start None t (Some (p, i)) w').1 = Some p.
Proof.
  intros Hr Es Hrun w'. assert (step is_runtime w w') as Hstep by (by apply st_exit). pose proof (reachable_inv _ _ Hr) as Hi. pose proof (step_inv _ _ _ Hi Hstep) as Hi'.
  pose proof (i_lock w Hi) as Hl. rewrite Es in Hl. apply held_one in Hl as (-> & -> & _ & _).
  assert (alive (identity_in w') (default no_owner (owner_file (files w'))) = false) as Hd.
  { apply not_true_iff_false. intros (x & Hx & _)%(alive_iff w' Hi'). done. }
  destruct (final_status_spec (s_stopping s) result (default [] (status_file (files w)))) as (F1 & F2 & F3 & F4).
  destruct (status_fields (identity_in w') (files w')) as (Ea & _ & Eph). unfold w_status. rewrite Ea, Eph, Hd. split_and!; try done.
  - by apply observed_ended.
  - eexists. split; [reflexivity|]. split; [done|apply final_phase].
  - intros q. unfold w'. cbn [files finalize progress_file]. set (p0 := Progress.init _ _ _ _). destruct (existsb _ (Progress.stages p0)) eqn:E.
    + intros H _. apply (inj Some) in H as <-. apply close_stages_spec; [apply final_error_nonempty|]. apply Progress.opened_ok. apply (i_progress w Hi).
    + intros Hq Hse. assert (p0 = q) as <- by (unfold p0, Progress.init; by rewrite Hq, Hse, String.eqb_refl).
      apply Forall_forall. intros r Hin Hst. apply not_true_iff_false in E. apply E. apply existsb_exists. exists r. split; [by apply list_elem_of_In|]. by apply String.eqb_eq.
Qed.

(** ** Example: a session that is started, stopped twice and ended *)

Definition no_templates : Launch.templates := Launch.Templates [] [] [].

Definition a_runtime (p : Z) : bool := p =? 200.

Definition spawned : world := (start None no_templates (Some (100, "5001")) world0).1.

Definition owning : world :=
  World (take_ownership 100 "5001" "77" JNull empty_store) (lock spawned) (procs spawned) (past spawned) [Supervisor 100 "5001" "77" true false false []] [] [].

Definition running : world :=
  World (open_session "77" "t0" (files owning)) (lock owning) (procs owning) (past owning) [Supervisor 100 "5001" "77" true true false []] [] [].

Definition asked : world := World (files running) (lock running) (procs running) (past running) (sups running) [] [100; 100].

Definition stopping : world :=
  World (handler (identity_in asked) a_runtime "t1" false (files asked)).1.1 (lock asked) (procs asked) (past asked) [Supervisor 100 "5001" "77" true true true [ToGroup]] [] [100].

Lemma spawned_reachable : reachable a_runtime spawned.
Proof. eapply r_step; [apply r_start|]. by apply (st_start a_runtime None no_templates 100 "5001"); [|reflexivity|apply not_elem_of_nil|]. Qed.

Lemma owning_reachable : reachable a_runtime owning.
Proof. eapply r_step; [apply spawned_reachable|]. exact (st_own a_runtime [] (Supervisor 100 "5001" "" false false false []) [] "77" JNull spawned eq_refl eq_refl). Qed.

Lemma running_reachable : reachable a_runtime running.
Proof. eapply r_step; [apply owning_reachable|]. exact (st_begin a_runtime [] (Supervisor 100 "5001" "77" true false false []) [] "t0" owning eq_refl eq_refl eq_refl). Qed.

Lemma asked_reachable : reachable a_runtime asked.
Proof.
  eapply r_step; [eapply r_step; [apply running_reachable|apply (st_stop a_runtime 100); vm_compute; reflexivity]|].
  apply (st_stop a_runtime 100 (World (files running) (lock running) (procs running) (past running) (sups running) (ended running) (100 :: term running))). vm_compute. reflexivity.
Qed.

Lemma stopping_reachable : reachable a_runtime stopping.
Proof.
  eapply r_step; [apply asked_reachable|].
  exact (st_signal a_runtime [] (Supervisor 100 "5001" "77" true true false []) [] [] [100] "t1" _ true [ToGroup] asked eq_refl eq_refl eq_refl eq_refl (fun H => eq_ind "" (fun s => match s with "" => True | _ => False end) I "t1" (eq_sym H))).
Qed.

Lemma status_truthful_witness : (length (sups stopping) <= 1)%nat /\ jget (w_status stopping) "phase" = JStr "stopping" /\ jget (w_status stopping) "supervisor_pid" = JInt 100.
Proof.
  destruct (status_truthful a_runtime stopping stopping_reachable) as (H1 & _ & H3 & _). destruct (H3 _ eq_refl eq_refl) as [H4 H5]. split; [exact H1|]. split; [by apply H5|exact H4].
Defined.

Lemma one_teardown_witness : length (s_signals (Supervisor 100 "5001" "77" true true true [ToGroup])) = 1%nat.
Proof. apply (one_teardown a_runtime stopping (Supervisor 100 "5001" "77" true true true [ToGroup]) stopping_reachable). left. Defined.

Lemma session_ends_closed_witness :
  exists st, status_file (finalize "t2" "77" true 1 (files stopping)) = Some st /\ jget st "phase" = JStr "failed".
Proof.
  destruct (session_ends_closed a_runtime stopping [] (Supervisor 100 "5001" "77" true true true [ToGroup]) [] "t2" 1 no_templates 300 "9") as (_ & _ & _ & (st & Hst & _ & Hf) & _).
  - exact stopping_reachable.
  - reflexivity.
  - reflexivity.
  - exists st. split; [exact Hst|]. exact Hf.
Defined.

(** A stop that arrives while the supervisor has written the owner record and not yet its status is lost: the client is told that the active session is
    stopping, no signal is sent, and the session goes on to run. *)
Theorem early_stop_lost :
  reachable a_runtime owning /\ jget (w_status owning) "active" = JBool true /\ jget (stop owning).1 "phase" = JStr "stopping" /\ (stop owning).2 = None /\
  step a_runtime owning running /\ term running = [] /\ Forall (fun s => s_stopping s = false /\ s_running s = true) (sups running).
Proof.
  split; [apply owning_reachable|]. split; [reflexivity|]. split; [reflexivity|]. split; [reflexivity|]. split; [|split; [reflexivity|by repeat constructor]].
  exact (st_begin a_runtime [] (Supervisor 100 "5001" "77" true false false []) [] "t0" owning eq_refl eq_refl eq_refl).
Qed.

End Service.
