(* ===== verification/Http.v ===== *)
(** * Http: requests as the handlers of the standard library see them

    What [BaseHTTPRequestHandler] and [StreamRequestHandler] hand to their methods: headers, the decoded body, lines of bounded length; and
    [hmac.compare_digest] on header values, which are Latin-1, one [ascii] per character. *)

From S2P Require Import Prelude Text Channel ContactPlan.
#[local] Open Scope Z_scope.

(** [content n] is [json.loads(self.rfile.read(n))], [header] is [self.headers.get]. *)
Record http := Http { path : string; header : string -> option string; content : Z -> res json }.

Definition header_or (q : http) (name default : string) : string := match header q name with Some v => v | None => default end.

Definition content_length (q : http) : res Z := py_int (header_or q "Content-Length" "0").

(** ** [hmac.compare_digest] on strings *)

Definition is_ascii (s : string) : bool := all_chars (fun c => code c <? 128) s.

Definition compare_digest (a b : string) : res bool := if is_ascii a && is_ascii b then Ok (String.eqb a b) else Err TypeError.

(** ** Lines *)

Definition str_len (s : string) : Z := Z.of_nat (String.length s).

Definition line_end : ascii := ch 10.

(** [rfile.readline(n)] of what the peer sends *)
Fixpoint readline (n : Z) (s : string) : string :=
  match s with
  | String c s' => if n <=? 0 then "" else String c (if Ascii.eqb c line_end then "" else readline (n - 1) s')
  | "" => ""
  end.

(** A request of at most [limit] bytes, its newline included. *)
Definition bounded_line (limit : Z) (sent message : string) : res string :=
  let raw := readline (limit + 1) sent in
  if (limit <? str_len raw) || negb (endswith raw (String line_end "")) then Err (ValueError message) else Ok raw.

Lemma readline_line n s : lacks line_end s = true -> str_len s < n -> readline n (s +:+ String line_end "") = s +:+ String line_end "".
Proof.
  revert n. induction s as [|c s IH]; intros n Hl Hn; unfold str_len in Hn; simpl in *.
  - by destruct (Z.leb_spec n 0); [lia|].
  - apply andb_true_iff in Hl as [Hc Hl]. apply negb_true_iff in Hc. rewrite Hc. destruct (Z.leb_spec n 0); [lia|]. change (String c s +:+ String line_end "") with (String c (s +:+ String line_end "")). f_equal. apply IH; [done|]. unfold str_len. lia.
Qed.

Lemma readline_length n s : lacks line_end s = true -> 0 <= n -> str_len (readline n (s +:+ String line_end "")) = Z.min n (str_len s + 1).
Proof.
  unfold str_len. revert n. induction s as [|c s IH]; intros n Hl Hn; simpl in *; (destruct (Z.leb_spec n 0); [simpl; lia|]); [simpl; lia|].
  apply andb_true_iff in Hl as [Hc Hl]. apply negb_true_iff in Hc. rewrite Hc. cbn [String.length]. rewrite Nat2Z.inj_succ, IH by (done || lia). lia.
Qed.

Lemma endswith_app s t : endswith (s +:+ t) t = true.
Proof. unfold endswith, str_tail. rewrite append_length, Nat.add_sub. apply String.eqb_eq. by induction s. Qed.

(** A line is read whole, or refused for its size. *)
Lemma bounded_line_line limit s message : 0 <= limit -> lacks line_end s = true ->
  bounded_line limit (s +:+ String line_end "") message = if str_len s <? limit then Ok (s +:+ String line_end "") else Err (ValueError message).
Proof.
  intros Hlim Hl. unfold bounded_line. rewrite readline_length by (done || lia). destruct (Z.ltb_spec (str_len s) limit).
  - rewrite readline_line, endswith_app by (done || lia). destruct (Z.ltb_spec limit (Z.min (limit + 1) (str_len s + 1))); [lia|done].
  - destruct (Z.ltb_spec limit (Z.min (limit + 1) (str_len s + 1))); [done|lia].
Qed.
