(* ===== verification/Lease.v ===== *)
(** * Lease: the lease that elects a controller (lab/reliability/ha_closed_loop.py)

    The server two controllers compete at: a lease with a resource version, created once and replaced only by who names the current version.  Each handler works
    under one lock, so that concurrent requests are a sequence of handler calls; a handler that raises before its reply sends no answer and changes nothing.  Sending the reply
    is the last thing every branch does, after its writes and under the lock: a reply that is lost on the way leaves the server as one that arrives does, so the log
    holds the replies the handlers compose. *)

From S2P Require Import Prelude Text Channel ContactPlan Http.
#[local] Open Scope Z_scope.
#[local] Open Scope list_scope.

Module Lease.

Definition TOKEN : string := "starfabric-ha-lab-token".
Definition LEASE_PATH : string := "/apis/coordination.k8s.io/v1/namespaces/starfabric/leases/starfabric-controller".
Definition COLLECTION_PATH : string := "/apis/coordination.k8s.io/v1/namespaces/starfabric/leases".

Record api := Api { lease : option (list (string * json)); writes : Z; conflicts : Z }.

Definition api0 : api := Api None 0 0.

Definition authorized (q : http) : bool := bool_decide (header q "Authorization" = Some ("Bearer " +:+ TOKEN)).

Definition body (q : http) : res json := let* size := content_length q in content q size.

(** A reply, or the exception that leaves the handler. *)
Definition reply : Type := res (Z * json).

(** The answer to a request that is not for this handler. *)
Definition refused (q : http) (path_ : string) : option reply :=
  if authorized q && String.eqb (path q) path_ then None else Some (Ok (if authorized q then 404 else 401, JDict [])).

(** [value.get("metadata", {}).get("resourceVersion")] *)
Definition version_of (v : json) : res json :=
  match v with
  | JDict d => match jget_or d "metadata" (JDict []) with JDict m => Ok (jget m "resourceVersion") | _ => Err AttributeError end
  | _ => Err AttributeError
  end.

(** [value.setdefault("metadata", {})["resourceVersion"] = version] *)
Definition set_version (v : json) (version : string) : res (list (string * json)) :=
  match v with
  | JDict d => match jget_or d "metadata" (JDict []) with JDict m => Ok (dset d "metadata" (JDict (dset m "resourceVersion" (JStr version)))) | _ => Err TypeError end
  | _ => Err AttributeError
  end.

(** Equality of versions: the server's own are strings. *)
Definition same_version (a b : json) : bool := match a, b with JStr x, JStr y => String.eqb x y | JNull, JNull => true | _, _ => false end.

(** [str(int(str(expected)) + 1)] *)
Definition next_version (expected : json) : res string :=
  match expected with JStr s => let* n := py_int s in Ok (pretty (n + 1)) | JInt z => Ok (pretty (z + 1)) | _ => Err (ValueError "invalid literal for int() with base 10") end.

Definition conflict (st : api) (reason : string) : api * reply := (Api (lease st) (writes st) (conflicts st + 1), Ok (409, JDict [("reason", JStr reason)])).

Definition do_GET (q : http) (st : api) : api * reply :=
  match refused q LEASE_PATH with
  | Some r => (st, r)
  | None => (st, Ok (match lease st with None => (404, JDict [("kind", JStr "Status"); ("reason", JStr "NotFound")]) | Some d => (200, JDict d) end))
  end.

Definition do_POST (q : http) (st : api) : api * reply :=
  match refused q COLLECTION_PATH with
  | Some r => (st, r)
  | None =>
      match body q with
      | Err x => (st, Err x)
      | Ok value =>
          match lease st with
          | Some _ => conflict st "AlreadyExists"
          | None => match set_version value "1" with Ok d => (Api (Some d) (writes st + 1) (conflicts st), Ok (201, JDict d)) | Err x => (st, Err x) end
          end
      end
  end.

(** The value to write and the version it is based on. *)
Definition supplied_value (q : http) : res (json * json) := let* value := body q in let* supplied := version_of value in Ok (value, supplied).

Definition replacement (value expected : json) : res (list (string * json)) := let* version := next_version expected in set_version value version.

Definition do_PUT (q : http) (st : api) : api * reply :=
  match refused q LEASE_PATH with
  | Some r => (st, r)
  | None =>
      match supplied_value q with
      | Err x => (st, Err x)
      | Ok (value, supplied) =>
          match lease st with
          | None => conflict st "Conflict"
          | Some current =>
              match version_of (JDict current) with
              | Err x => (st, Err x)
              | Ok expected =>
                  if negb (same_version supplied expected) then conflict st "Conflict" else
                  match replacement value expected with
                  | Ok d => (Api (Some d) (writes st + 1) (conflicts st), Ok (200, JDict d))
                  | Err x => (st, Err x)
                  end
              end
          end
      end
  end.

Inductive method := Get | Post | Put.

Definition handle (m : method) : http -> api -> api * reply := match m with Get => do_GET | Post => do_POST | Put => do_PUT end.

(** Requests in the order in which they hold the lock, with their replies. *)
Definition log : Type := list (method * http * reply).

Definition serve_one (s : api * log) (q : method * http) : api * log := let '(st, r) := handle q.1 q.2 s.1 in (st, s.2 ++ [(q.1, q.2, r)]).

Definition serve (qs : list (method * http)) : api * log := fold_left serve_one qs (api0, []).

(** ** The writes form one chain of versions *)

Definition written (e : method * http * reply) : option (method * http * json) :=
  match e with (Post, q, Ok (201, v)) => Some (Post, q, v) | (Put, q, Ok (200, v)) => Some (Put, q, v) | _ => None end.

Definition writes_of (l : log) : list (method * http * json) := omap written l.

(** The specification: the [i]-th write has version [i + 1]; the first creates the lease, and every later one was made by who named the version before. *)
Definition link (i : nat) (w : method * http * json) : Prop :=
  version_of w.2 = Ok (JStr (pretty (Z.of_nat i + 1))) /\
  match w.1.1 with Post => i = 0%nat | Put => (0 < i)%nat /\ exists v, body w.1.2 = Ok v /\ version_of v = Ok (JStr (pretty (Z.of_nat i))) | Get => False end.

Record chained (s : api * log) : Prop := {
  chain_writes : writes s.1 = len (writes_of s.2);
  chain_lease : JDict <$> lease s.1 = snd <$> last (writes_of s.2);
  chain_links : forall i w, writes_of s.2 !! i = Some w -> link i w;
  chain_reads : forall k q v, s.2 !! k = Some (Get, q, Ok (200, v)) -> snd <$> last (writes_of (take k s.2)) = Some v
}.

Lemma set_version_of v version d : set_version v version = Ok d -> version_of (JDict d) = Ok (JStr version).
Proof.
  unfold set_version, version_of. destruct v; try done. destruct (jget_or d0 "metadata" (JDict [])) as [| | | | | | |m]; try done. intros [= <-]. unfold jget_or. rewrite dget_dset_eq. unfold jget. by rewrite dget_dset_eq.
Qed.

(** A request that writes nothing leaves the lease and the counter alone. *)
Lemma unwritten m q st st' r : handle m q st = (st', r) -> written (m, q, r) = None -> lease st' = lease st /\ writes st' = writes st.
Proof.
  destruct m; cbn [handle]; unfold do_GET, do_POST, do_PUT, conflict; destruct (refused _ _); try (intros [= <- <-]; done).
  - destruct (body q); [|intros [= <- <-]; done]. destruct (lease st) eqn:E; [intros [= <- <-]; done|]. destruct (set_version _ _); intros [= <- <-]; done.
  - destruct (supplied_value q) as [[value supplied]|]; [|intros [= <- <-]; done]. destruct (lease st) eqn:E; [|intros [= <- <-]; done]. destruct (version_of _); [|intros [= <- <-]; done]. destruct (negb _); [intros [= <- <-]; done|].
    destruct (replacement _ _); intros [= <- <-]; done.
Qed.

Lemma refused_unwritten m q path_ r : refused q path_ = Some r -> written (m, q, r) = None.
Proof. unfold refused. destruct (_ && _); [done|]. intros [= <-]. by destruct m, (authorized q). Qed.

(** A write: what it was made of. *)
Lemma write_made m q st st' r w : handle m q st = (st', r) -> written (m, q, r) = Some w -> exists d, w = (m, q, JDict d) /\ lease st' = Some d /\ writes st' = writes st + 1 /\
  (m = Post /\ lease st = None /\ version_of (JDict d) = Ok (JStr "1") \/
   m = Put /\ exists current v supplied expected version, lease st = Some current /\ body q = Ok v /\ version_of v = Ok supplied /\ version_of (JDict current) = Ok expected /\
     same_version supplied expected = true /\ next_version expected = Ok version /\ version_of (JDict d) = Ok (JStr version)).
Proof.
  destruct m; cbn [handle]; unfold do_POST, do_PUT, conflict; [by intros _| |].
  - destruct (refused q COLLECTION_PATH) as [x|] eqn:Er. { intros [= <- <-]. by apply refused_unwritten with (m := Post) in Er as ->. }
    destruct (body q) as [v|]; [|by intros [= <- <-]]. destruct (lease st) eqn:E; [by intros [= <- <-]|]. destruct (set_version v "1") as [d|] eqn:Ev; intros [= <- <-]; [|done]. intros [= <-]. apply set_version_of in Ev. exists d. split_and!; auto.
  - destruct (refused q LEASE_PATH) as [x|] eqn:Er. { intros [= <- <-]. by apply refused_unwritten with (m := Put) in Er as ->. }
    destruct (supplied_value q) as [[v supplied]|] eqn:Ev; [|by intros [= <- <-]]. destruct (lease st) as [current|] eqn:E; [|by intros [= <- <-]].
    destruct (version_of (JDict current)) as [expected|] eqn:Ee; [|by intros [= <- <-]]. destruct (same_version supplied expected) eqn:Esame; [|by intros [= <- <-]]. cbn [negb].
    destruct (replacement v expected) as [d|] eqn:En; intros [= <- <-]; [|done]. intros [= <-]. apply bind_Ok in Ev as (v' & Hb & (s' & Hs & [= -> ->])%bind_Ok). apply bind_Ok in En as (version & Hn & Hd%set_version_of). exists d.
    split_and!; auto. right. split; [done|]. exists current, v, supplied, expected, version. by split_and!.
Qed.

Lemma writes_of_snoc l e : writes_of (l ++ [e]) = writes_of l ++ match written e with Some w => [w] | None => [] end.
Proof. unfold writes_of. rewrite omap_app. reflexivity. Qed.

(** A new entry keeps what earlier reads returned. *)
Lemma reads_kept (l : log) m q r : (forall k q v, l !! k = Some (Get, q, Ok (200, v)) -> snd <$> last (writes_of (take k l)) = Some v) ->
  (forall v, (m, r) = (Get, Ok (200, v)) -> snd <$> last (writes_of l) = Some v) ->
  forall k q' v, (l ++ [(m, q, r)]) !! k = Some (Get, q', Ok (200, v)) -> snd <$> last (writes_of (take k (l ++ [(m, q, r)]))) = Some v.
Proof.
  unfold log, reply in *. intros Hold Hnew k q' v Hk. destruct (decide (k < length l)%nat) as [Hlt|Hge].
  - rewrite lookup_app_l in Hk by done. rewrite take_app_le by lia. by eapply Hold.
  - rewrite lookup_app_r in Hk by lia. apply list_lookup_singleton_Some in Hk as [Hk [= -> -> ->]]. assert (k = length l) as -> by lia. rewrite take_app_length. by apply Hnew.
Qed.

Lemma get_latest q st st' r v : handle Get q st = (st', r) -> r = Ok (200, v) -> JDict <$> lease st = Some v.
Proof.
  cbn [handle]. unfold do_GET. destruct (refused q LEASE_PATH) as [x|] eqn:E.
  - intros [= _ <-] ->. revert E. unfold refused. destruct (_ && _); [done|]. by destruct (authorized q).
  - intros [= _ <-]. destruct (lease st) as [d|]; [|done]. by intros [= <-].
Qed.

Lemma same_version_str a s : same_version a (JStr s) = true -> a = JStr s.
Proof. destruct a; try done. by intros ->%String.eqb_eq. Qed.

Lemma serve_one_chained s q : chained s -> chained (serve_one s q).
Proof.
  intros [H1 H2 H3 H4]. unfold serve_one. destruct (handle q.1 q.2 s.1) as [st' r] eqn:E. cbn [fst snd] in *.
  assert (forall v, (q.1, r) = (Get, Ok (200, v)) -> snd <$> last (writes_of s.2) = Some v) as Hget. { intros v [= Eq ->]. rewrite <- H2. rewrite Eq in E. by eapply get_latest. }
  destruct (written (q.1, q.2, r)) as [w|] eqn:Ew.
  - assert (writes_of (s.2 ++ [(q.1, q.2, r)]) = writes_of s.2 ++ [w]) as Hw by (by rewrite writes_of_snoc, Ew).
    destruct (write_made _ _ _ _ _ _ E Ew) as (d & -> & L1 & L2 & Hm). split; cbn [fst snd]; [rewrite Hw, len_app, L2, H1; done|by rewrite Hw, last_snoc, L1| |by apply reads_kept].
    rewrite Hw. intros i w Hi. destruct (decide (i < length (writes_of s.2))%nat) as [Hlt|Hge]; [rewrite lookup_app_l in Hi by done; by apply H3|].
    rewrite lookup_app_r in Hi by lia. apply list_lookup_singleton_Some in Hi as [Hi <-]. assert (i = length (writes_of s.2)) as -> by lia. unfold link. cbn [fst snd]. destruct Hm as [(-> & Hn & Hv)|(-> & current & v & supplied & expected & version & C1 & C2 & C3 & C4 & C5 & C6 & C7)].
    + rewrite Hn in H2. assert (writes_of s.2 = []) as ->; [|by rewrite Hv]. destruct (last (writes_of s.2)) eqn:El; [done|]. by apply last_None.
    + rewrite C1 in H2. destruct (last (writes_of s.2)) as [w|] eqn:El; [|done]. injection H2 as Hc. rewrite last_lookup in El. pose proof (H3 _ _ El) as [Hv _]. rewrite <- Hc in Hv. rewrite C4 in Hv. injection Hv as ->.
      assert (0 < length (writes_of s.2))%nat as Hpos by (apply lookup_lt_Some in El; lia). replace (Z.of_nat (pred (length (writes_of s.2))) + 1) with (Z.of_nat (length (writes_of s.2))) in * by lia.
      apply same_version_str in C5 as ->. unfold next_version in C6. rewrite py_int_pretty in C6 by lia. injection C6 as <-. split; [done|]. split; [done|]. by exists v.
  - assert (writes_of (s.2 ++ [(q.1, q.2, r)]) = writes_of s.2) as Hw by (by rewrite writes_of_snoc, Ew, app_nil_r).
    destruct (unwritten _ _ _ _ _ E Ew) as [U1 U2]. split; cbn [fst snd]; rewrite ?Hw, ?U1, ?U2; try done. by apply reads_kept.
Qed.

(** C15.  The lease has one history: whatever controllers send and however their requests interleave, the successful writes carry the versions 1, 2, 3 and so on; the first creates the lease and every later one was sent by
    a client that named exactly the version before, so that of two clients which have read the same version at most one replaces it and no update is lost; and a read returns the latest write before it. *)
Theorem lease_linear qs : chained (serve qs).
Proof. unfold serve. apply fold_left_inv; [intros s q _; apply serve_one_chained|]. split; try done. Qed.

(** ** Example: two controllers that have read the same version *)

Definition example_request (path_ : string) (v : json) : http :=
  Http path_ (fun h => if String.eqb h "Authorization" then Some "Bearer starfabric-ha-lab-token" else if String.eqb h "Content-Length" then Some "64" else None) (fun _ => Ok v).

Definition example_lease (holder version : string) : json := JDict [("spec", JDict [("holderIdentity", JStr holder)]); ("metadata", JDict [("resourceVersion", JStr version)])].

Example example_race : map (fun e => match e.2 with Ok (c, _) => c | Err _ => 0 end)
  (serve [(Get, example_request LEASE_PATH JNull); (Post, example_request COLLECTION_PATH (JDict [("spec", JDict [("holderIdentity", JStr "a")])])); (Post, example_request COLLECTION_PATH (example_lease "b" "1"));
          (Put, example_request LEASE_PATH (example_lease "b" "1")); (Put, example_request LEASE_PATH (example_lease "a" "1")); (Put, example_request LEASE_PATH (example_lease "a" "2"))]).2 = [404; 201; 409; 200; 409; 200].
Proof. vm_compute. reflexivity. Qed.

End Lease.
