(* ===== verification/Suite.v ===== *)
(** * Suite: the acceptance suite and its evidence (tools/single_pc.py)

    A suite is a list of stages with the stages they depend on, the reports they have to produce and the raw artifacts behind them.  [load_suite] checks it,
    [execute_stage] runs one command and archives what it produced, [run_suite] runs the stages of a profile and gives the verdict.  Paths are
    strings and [resolve] gives the parts of what they name, links followed; [sha256] and [json.loads] are parameters of the bytes. Fields whose type the code does not check have the type
    it relies on. *)

From S2P Require Import Prelude Effects Text Channel Namespace.
#[local] Open Scope Z_scope.
#[local] Open Scope list_scope.

Module Suite.
Import Namespace(field).

(** ** Paths *)

Section Paths.
Context (resolve : string -> list string).

Definition joined (base relative : string) : string := base +:+ "/" +:+ relative.

Definition inside (base path : list string) : bool := bool_decide (base `prefix_of` path).

Definition local_path (base relative : string) : res (list string) :=
  raise (ValueError ("not a relative artifact path: " +:+ relative)) when String.eqb relative "" || startswith relative "/" ;;
  let path := resolve (joined base relative) in
  raise (ValueError ("artifact escapes root: " +:+ relative)) when negb (inside (resolve base) path) || bool_decide (path = resolve base) ;;
  Ok path.

Lemma local_path_Ok base relative path : local_path base relative = Ok path -> path = resolve (joined base relative) /\ resolve base `prefix_of` path /\ path <> resolve base.
Proof.
  unfold local_path. split_guard. split_guard. intros [= <-]. apply orb_false_iff in Heqb0 as [H1%negb_false_iff%bool_decide_eq_true H2%bool_decide_eq_false]. done.
Qed.

End Paths.

(** ** [load_suite] *)

Record raw_stage := RawStage { raw_id : json; raw_command : json; raw_depends : list string; raw_timeout : json; raw_reports : list string; raw_artifacts : list (string * string); raw_profile : json }.

Record stage := Stage { id : string; command : list string; depends_on : list string; timeout_seconds : Z; reports : list string; artifact_reports : list (string * string); profile : string }.

Section Load.
Context (resolve : string -> list string) (root : string).

(** [s.isalnum()], for ASCII *)
Definition alnum (c : ascii) : bool := is_digit c || ((97 <=? code c) && (code c <=? 122)) || ((65 <=? code c) && (code c <=? 90)).
Definition isalnum (s : string) : bool := negb (String.eqb s "") && all_chars alnum s.

Definition identifier (v : json) (seen : list string) : option string :=
  match v with JStr s => if isalnum (remove_char (ch 45) s) && negb (mem s seen) then Some s else None | _ => None end.

Definition argv (v : json) : option (list string) :=
  match v with
  | JList [] => None
  | JList l => mapM (fun a => match a with JStr s => if String.eqb s "" then None else Some s | _ => None end) l
  | _ => None
  end.

(** [isinstance(v, int)], which a [bool] satisfies *)
Definition as_int (v : json) : option Z := match v with JInt z => Some z | JBool b => Some (if b then 1 else 0) | _ => None end.

Definition positive (v : json) : option Z := match as_int v with Some z => if z <=? 0 then None else Some z | None => None end.

Definition load_stage (seen : list string) (r : raw_stage) : res stage :=
  let* i := or_raise (ValueError "invalid or duplicate stage") (identifier (raw_id r) seen) in
  let* c := or_raise (ValueError (i +:+ ": command must be an argv array")) (argv (raw_command r)) in
  raise (ValueError (i +:+ ": dependencies must precede stage")) when existsb (fun d => negb (mem d seen)) (raw_depends r) ;;
  let* t := or_raise (ValueError (i +:+ ": positive timeout_seconds required")) (positive (raw_timeout r)) in
  let* _ := mapM_res (local_path resolve root) (raw_reports r) in
  let* _ := mapM_res (fun rp : string * string =>
    raise (ValueError (i +:+ ": artifact report has no producer: " +:+ rp.1)) when negb (mem rp.1 (raw_reports r)) ;; local_path resolve root rp.2) (raw_artifacts r) in
  let* p := or_raise (ValueError (i +:+ ": invalid profile")) (match raw_profile r with JStr s => if mem s ["core"; "full"] then Some s else None | _ => None end) in
  Ok (Stage i c (raw_depends r) t (raw_reports r) (raw_artifacts r) p).

Definition load_next (l : list stage) (r : raw_stage) : res (list stage) := let* s := load_stage (map id l) r in Ok (l ++ [s]).

(** [v == 1] *)
Definition is_one (v : json) : bool := match v with JInt z => z =? 1 | JBool b => b | JFloat q => Qeq_bool q 1 | _ => false end.

(** [required]: the reports the gates of the closure name. *)
Definition load_suite (version : json) (raws : list raw_stage) (required : list string) : res (list stage) :=
  raise (ValueError "suite must have schema_version 1 and nonempty stages") when negb (is_one version) || bool_decide (length raws = 0%nat) ;;
  let* l := foldM load_next [] raws in
  raise (ValueError "closure reports without executable producers") when existsb (fun r => negb (mem r (concat (map reports l)))) required ;;
  Ok l.

End Load.

(** ** [execute_stage] *)

Definition stamp : Type := Z * Z * Z.
Definition mtime (s : stamp) : Z := s.1.2.

Inductive completion := Exited (code : Z) | TimedOut (code : option Z) | NotStarted (x : exn).

(** A file below a directory of artifacts, as [rglob] lists it: what it is, its stamps before and after it is copied, and its bytes. *)
Record source := Source { original : string; is_file : bool; is_link : bool; target : list string; before_copy : option stamp; after_copy : option stamp; source_bytes : res string }.

(** What a stage meets: the reports before and after its command, how the command ended, and the artifact directories. *)
Record execution := Execution { started_ns : Z; before : list string -> option stamp; completed : completion; after : list string -> option stamp; read_bytes : list string -> res string;
  is_dir : list string -> bool; listing : list string -> list source; copy_error : string -> res unit }.

Record archived := Archived { a_path : string; a_sha256 : string }.

Record outcome := Outcome { o_id : string; passed : bool; o_reports : list (string * archived); o_artifact_reports : list (string * string); o_artifacts : list (string * list (string * archived)); errors : list string }.

(** The files of the run directory, by their resolved paths. *)
Definition archive : Type := list (list string * string).

Record work := Work { files : archive; outcome_of : outcome }.

Section Execute.
Context (resolve : string -> list string) (sha256 : string -> string) (loads : string -> res json) (str : exn -> string) (root run_dir : string).
Context (s : stage) (e : execution).

Definition add_error (m : string) (w : work) : work :=
  let o := outcome_of w in Work (files w) (Outcome (o_id o) (passed o) (o_reports o) (o_artifact_reports o) (o_artifacts o) (errors o ++ [m])).
Definition add_report (r : string) (a : archived) (w : work) : work :=
  let o := outcome_of w in Work (files w) (Outcome (o_id o) (passed o) (dset (o_reports o) r a) (o_artifact_reports o) (o_artifacts o) (errors o)).
Definition add_artifacts (r : string) (l : list (string * archived)) (w : work) : work :=
  let o := outcome_of w in Work (files w) (Outcome (o_id o) (passed o) (o_reports o) (o_artifact_reports o) (dset (o_artifacts o) r l) (errors o)).

(** [path.write_bytes(data)] below the run directory, and the entry with its hash. *)
Definition store (path data : string) : M work archived :=
  lift (copy_error e path);;
  modify (fun w => Work (dset (files w) (resolve (joined run_dir path)) data) (outcome_of w));;
  mret (Archived path (sha256 data)).

Definition copy_source (directory : list string) (l : list (string * archived)) (f : source) : M work (list (string * archived)) :=
  if negb (is_file f) then mret l else
  lift (if is_link f || negb (inside directory (target f)) then Err (ValueError ("artifact escapes report directory: " +:+ original f)) else Ok tt);;
  lift (match before_copy f with
    | None => Err (ValueError ("artifact was not produced by this stage: " +:+ original f))
    | Some t => if mtime t <? started_ns e then Err (ValueError ("artifact was not produced by this stage: " +:+ original f)) else Ok tt
    end);;
  data ← lift (source_bytes f);
  a ← store ("artifacts/" +:+ original f) data;
  lift (if bool_decide (after_copy f = before_copy f) then Ok tt else Err (ValueError ("artifact changed while archiving: " +:+ original f)));;
  mret (dset l (original f) a).

Fixpoint copy_sources (directory : list string) (l : list (string * archived)) (fs : list source) : M work (list (string * archived)) :=
  match fs with [] => mret l | f :: fs => l ← copy_source directory l f; copy_sources directory l fs end.

Definition archive_artifacts (relative prefix : string) (document : json) : M work unit :=
  allowed ← lift (local_path resolve root prefix);
  named ← lift (field document "artifacts");
  directory ← lift (match named with JStr d => local_path resolve root d | _ => Err (ValueError "not a relative artifact path") end);
  lift (if negb (inside allowed directory) || bool_decide (directory = allowed) || negb (is_dir e directory)
        then Err (ValueError "artifact directory must be a unique run beneath the declared artifact root") else Ok tt);;
  l ← copy_sources directory [] (listing e directory);
  lift (if bool_decide (length l = 0%nat) then Err (ValueError "report has no raw artifacts") else Ok tt);;
  modify (add_artifacts relative l).

(** [isinstance(document, dict) and document.get("success") is True] *)
Definition succeeded (v : json) : bool := match v with JDict d => match dget d "success" with Some (JBool true) => true | _ => false end | _ => false end.

Definition archive_report (relative : string) (path : list string) : M work unit :=
  data ← lift (read_bytes e path);
  document ← lift (loads data);
  modify (if succeeded document then fun w => w else add_error ("report success is not true: " +:+ relative));;
  a ← store ("evidence/" +:+ relative) data;
  modify (add_report relative a);;
  match dget (artifact_reports s) relative with Some prefix => archive_artifacts relative prefix document | None => mret tt end.

(** [except (OSError, ValueError, KeyError, TypeError)] *)
Definition report_caught (x : exn) : bool := match x with OSError _ | ConnectionError _ | TimeoutError | InterruptedError _ | ValueError _ | KeyError | TypeError => true | _ => false end.

Definition produced (path : list string) : bool :=
  match after e path with None => false | Some t => negb (bool_decide (before e path = Some t)) && negb (mtime t <? started_ns e) end.

Definition check_report (relative : string) : M work unit := fun w =>
  match local_path resolve root relative with
  | Err x => (w, Err x)
  | Ok path =>
      if negb (produced path) then (add_error ("report was not produced by this stage: " +:+ relative) w, Ok tt) else
      match archive_report relative path w with
      | (w, Ok _) => (w, Ok tt)
      | (w, Err x) => if report_caught x then (add_error ("invalid report " +:+ relative +:+ ": " +:+ str x) w, Ok tt) else (w, Err x)
      end
  end.

Definition exit_code (c : completion) : option Z := match c with Exited z => Some z | TimedOut o => o | NotStarted _ => None end.

Definition command_errors : list string :=
  match completed e with Exited _ => [] | TimedOut _ => ["timeout after " +:+ pretty (timeout_seconds s) +:+ "s"] | NotStarted x => [str x] end ++
  match exit_code (completed e) with Some 0 => [] | Some z => ["command exit_code=" +:+ pretty z] | None => ["command exit_code=None"] end.

(** [before] is a dictionary: a report that is named twice is looked at once. *)
Definition distinct_reports : list string := dkeys (dict_of (map (fun r => (r, tt)) (reports s))).

Definition verdict (o : outcome) : outcome := Outcome (o_id o) (bool_decide (errors o = [])) (o_reports o) (o_artifact_reports o) (o_artifacts o) (errors o).

Definition execute_stage (a : archive) : archive * res outcome :=
  match mapM_res (local_path resolve root) (reports s) with
  | Err x => (a, Err x)
  | Ok _ =>
      match forM check_report distinct_reports (Work a (Outcome (id s) false [] (artifact_reports s) [] command_errors)) with
      | (w, Ok _) => (files w, Ok (verdict (outcome_of w)))
      | (w, Err x) => (files w, Err x)
      end
  end.

End Execute.

(** ** [run_suite] *)

Definition blocked (s : stage) : outcome := Outcome (id s) false [] [] [] ["required preceding stage did not pass"].

Record run := Run { r_profile : string; finished : bool; source_unchanged : bool; stages : list outcome }.

Record result := Result { run_of : run; run_files : archive; system_closed : bool; success : bool }.

Section Run.
Context (resolve : string -> list string) (sha256 : string -> string) (loads : string -> res json) (str : exn -> string) (root run_dir : string).
(** What each stage meets, and the stage at which the suite is interrupted, if any. *)
Context (executions : string -> execution) (interrupted : string -> bool).

Definition passed_ids (l : list outcome) : list string := map o_id (List.filter passed l).

(** The loop: the outcomes, and whether it was interrupted. *)
Fixpoint run_stages (l : list stage) (a : archive) (done_ : list outcome) : archive * res (list outcome * bool) :=
  match l with
  | [] => (a, Ok (done_, false))
  | s :: l =>
      if existsb (fun d => negb (mem d (passed_ids done_))) (depends_on s) then run_stages l a (done_ ++ [blocked s])
      else if interrupted (id s) then (a, Ok (done_, true))
      else match execute_stage resolve sha256 loads str root run_dir s (executions (id s)) a with
           | (a, Ok o) => run_stages l a (done_ ++ [o])
           | (a, Err x) => (a, Err x)
           end
  end.

Definition selected (profile_ : string) (l : list stage) : list stage := List.filter (fun s => String.eqb profile_ "full" || String.eqb (profile s) "core") l.

(** [audit] is the exit code of the closure check over the run directory. *)
Definition run_suite (profile_ source_before source_after : string) (audit : run -> archive -> Z) (l : list stage) : res result :=
  let sel := selected profile_ l in
  match run_stages sel [] [] with
  | (_, Err x) => Err x
  | (a, Ok (done_, stopped)) =>
      let r := Run profile_ (negb stopped) (String.eqb source_before source_after) done_ in
      let all := len (passed_ids done_) =? len sel in
      let closed := String.eqb profile_ "full" && negb stopped && (audit r a =? 0) && all && source_unchanged r in
      Ok (Result r a closed (negb stopped && all && source_unchanged r && (String.eqb profile_ "core" || closed)))
  end.

End Run.

(** ** The loaded suite *)

Section Loaded.
Context (resolve : string -> list string) (root : string).

(** Every stage has an identifier of its own, depends on earlier stages only, and names reports inside the project. *)
Record well_formed (l : list stage) : Prop := {
  ids_distinct : NoDup (map id l);
  deps_precede : forall i s, l !! i = Some s -> forall d, d ∈ depends_on s -> d ∈ map id (take i l);
  reports_local : forall s, s ∈ l -> forall r, r ∈ reports s -> exists path, local_path resolve root r = Ok path;
  timeouts_positive : forall s, s ∈ l -> 0 < timeout_seconds s
}.

Lemma load_stage_Ok seen r s : load_stage resolve root seen r = Ok s -> (id s ∉ seen) /\ (forall d, d ∈ depends_on s -> d ∈ seen) /\
  (forall p, p ∈ reports s -> exists path, local_path resolve root p = Ok path) /\ 0 < timeout_seconds s.
Proof.
  unfold load_stage. rewrite bind_Ok. intros (i & Hi%or_raise_Ok & H). apply bind_Ok in H as (c & _ & H). revert H. split_guard. rewrite bind_Ok. intros (t & Ht%or_raise_Ok & H).
  apply bind_Ok in H as (ps & Hps & H). apply bind_Ok in H as (? & _ & H). apply bind_Ok in H as (p & _ & [= <-]). cbn [id depends_on reports timeout_seconds]. split_and!.
  - unfold identifier in Hi. destruct (raw_id r) as [| | | | |s| |]; try done. destruct (_ && _) eqn:E; [|done]. injection Hi as <-. apply andb_true_iff in E as [_ E%negb_true_iff]. unfold mem in E. by apply bool_decide_eq_false in E.
  - intros d Hd. rewrite <- not_true_iff_false, existsb_exists in Heqb. destruct (mem d seen) eqn:E; [unfold mem in E; by apply bool_decide_eq_true in E|]. destruct Heqb. exists d. rewrite E. by rewrite <- list_elem_of_In.
  - intros q Hq. apply mapM_res_Ok in Hps. apply list_elem_of_lookup in Hq as (k & Hk). apply Forall2_lookup_l with (i := k) (x := q) in Hps as (y & _ & Hy); [by exists y|done].
  - unfold positive in Ht. destruct (as_int _) as [z|]; [|done]. destruct (Z.leb_spec z 0); [done|]. by injection Ht as <-.
Qed.

Lemma load_next_well_formed l r l' : well_formed l -> load_next resolve root l r = Ok l' -> well_formed l'.
Proof.
  intros [H1 H2 H3 H4]. unfold load_next. rewrite bind_Ok. intros (s & Hs & [= <-]). apply load_stage_Ok in Hs as (S1 & S2 & S3 & S4). split.
  - rewrite map_app. apply NoDup_app. split_and!; [done| |apply NoDup_singleton]. intros x Hx ->%list_elem_of_singleton. done.
  - intros i x Hi d Hd. destruct (decide (i < length l)%nat) as [Hlt|Hge].
    + rewrite lookup_app_l in Hi by done. rewrite take_app_le by lia. by eapply H2.
    + rewrite lookup_app_r in Hi by lia. apply list_lookup_singleton_Some in Hi as [Hi <-]. assert (i = length l) as -> by lia. rewrite take_app_length. by apply S2.
  - intros x [Hx| ->%list_elem_of_singleton]%elem_of_app; [by apply H3|done].
  - intros x [Hx| ->%list_elem_of_singleton]%elem_of_app; [by apply H4|done].
Qed.

Lemma load_suite_well_formed version raws required l : load_suite resolve root version raws required = Ok l -> well_formed l /\ forall r, r ∈ required -> exists s, s ∈ l /\ r ∈ reports s.
Proof.
  unfold load_suite. split_guard. rewrite bind_Ok. intros (l' & Hl & H). revert H. split_guard. intros [= <-]. split.
  - eapply foldM_inv; [|shelve|exact Hl]; [intros s x s' _; apply load_next_well_formed]. Unshelve. split; [constructor|by intros i s H|intros s []%not_elem_of_nil..].
  - intros r Hr. rewrite <- not_true_iff_false, existsb_exists in Heqb0. destruct (mem r (concat (map reports l'))) eqn:E; [|destruct Heqb0; exists r; rewrite E; by rewrite <- list_elem_of_In].
    unfold mem in E. apply bool_decide_eq_true in E. apply list_elem_of_In, in_concat in E as (rs & Hrs & Hin). apply in_map_iff in Hrs as (s & <- & Hs). exists s. by rewrite !list_elem_of_In.
Qed.

End Loaded.

(** ** What a stage records *)

Section Recorded.
Context (resolve : string -> list string) (sha256 : string -> string) (loads : string -> res json) (str : exn -> string) (root run_dir : string).
Context (s : stage) (e : execution).

(** The entry of a report: the bytes the report had after the command, which produced it; and it says success where no error is recorded. *)
Definition recorded (ok : bool) (relative : string) (a : archived) : Prop :=
  exists path data document, local_path resolve root relative = Ok path /\ produced e path = true /\ read_bytes e path = Ok data /\ loads data = Ok document /\
    a = Archived ("evidence/" +:+ relative) (sha256 data) /\ (ok = true -> succeeded document = true).

Definition w_errors (w : work) : list string := errors (outcome_of w).
Definition w_reports (w : work) : list (string * archived) := o_reports (outcome_of w).

(** What archiving artifacts leaves alone. *)
Definition view (w : work) := (w_reports w, w_errors w, o_id (outcome_of w)).

Lemma store_view path data : keeps view (store resolve sha256 run_dir e path data).
Proof. unfold store. auto with keeps. Qed.

Lemma copy_source_view directory l f : keeps view (copy_source resolve sha256 run_dir e directory l f).
Proof. unfold copy_source. pose proof store_view. destruct (is_file f); simpl; auto 10 with keeps. Qed.

Lemma copy_sources_view directory fs : forall l, keeps view (copy_sources resolve sha256 run_dir e directory l fs).
Proof. induction fs as [|f fs IH]; intros l; cbn [copy_sources]; [auto with keeps|]. pose proof copy_source_view. auto with keeps. Qed.

Lemma archive_artifacts_view relative prefix document : keeps view (archive_artifacts resolve sha256 root run_dir e relative prefix document).
Proof. unfold archive_artifacts. pose proof copy_sources_view. auto 15 with keeps. Qed.

Definition same_record (w w' : work) : Prop := view w' = view w.

(** A report that is archived: the record is the one before, or has the entry of this report. *)
Lemma archive_report_view relative path w w' r : archive_report resolve sha256 loads root run_dir s e relative path w = (w', r) ->
  (same_record w w' /\ r <> Ok tt) \/
  exists data document, read_bytes e path = Ok data /\ loads data = Ok document /\ o_id (outcome_of w') = o_id (outcome_of w) /\
    w_errors w' = w_errors w ++ (if succeeded document then [] else ["report success is not true: " +:+ relative]) /\
    (w_reports w' = w_reports w /\ r <> Ok tt \/ w_reports w' = dset (w_reports w) relative (Archived ("evidence/" +:+ relative) (sha256 data))).
Proof.
  unfold archive_report. intros H. apply bind_run in H as [(data & w1 & [= <- Hd] & H)|(x & [= <- Hd] & ->)]; [|by left].
  apply bind_run in H as [(doc & w1 & [= <- Hdoc] & H)|(x & [= <- Hdoc] & ->)]; [|by left]. right. exists data, doc.
  apply bind_run in H as [([] & w1 & [= <-] & H)|(x & Hx & _)]; [|done]. set (w1 := _ : work) in *.
  assert (o_id (outcome_of w1) = o_id (outcome_of w) /\ w_reports w1 = w_reports w /\ w_errors w1 = w_errors w ++ (if succeeded doc then [] else ["report success is not true: " +:+ relative])) as (W1 & W2 & W3).
  { subst w1. destruct (succeeded doc); [by rewrite app_nil_r|done]. }
  apply bind_run in H as [(a & w2 & Hs & H)|(x & Hx & ->)].
  2: { pose proof (store_view ("evidence/" +:+ relative) data w1) as Hv. rewrite Hx in Hv. injection Hv as V1 V2 V3. rewrite V3, V2, V1, W1, W2, W3. split_and!; auto. }
  pose proof (store_view ("evidence/" +:+ relative) data w1) as Hv. rewrite Hs in Hv. injection Hv as V1 V2 V3. assert (a = Archived ("evidence/" +:+ relative) (sha256 data)) as ->.
  { revert Hs. unfold store, mbind, M_bind, lift, modify. destruct (copy_error e _); [by intros [= _ <-]|done]. }
  apply bind_run in H as [([] & w3 & [= <-] & H)|(x & Hx & _)]; [|done].
  assert (view w' = view (add_report relative (Archived ("evidence/" +:+ relative) (sha256 data)) w2)) as Hv.
  { destruct (dget (artifact_reports s) relative) as [prefix|]; [|by injection H as <-]. pose proof (archive_artifacts_view relative prefix doc (add_report relative (Archived ("evidence/" +:+ relative) (sha256 data)) w2)) as Hk.
    by rewrite H in Hk. }
  injection Hv as X1 X2 X3. rewrite X3, X2, X1. cbn [add_report outcome_of w_errors w_reports o_id o_reports errors]. unfold w_errors, w_reports in *. cbn [add_report outcome_of errors o_reports o_id]. rewrite V3, V2, V1, W1, W2, W3. split_and!; auto.
Qed.

Definition clean (w : work) : bool := bool_decide (w_errors w = []).

Lemma recorded_mono ok ok' relative a : (ok' = true -> ok = true) -> recorded ok relative a -> recorded ok' relative a.
Proof. intros H (path & data & doc & H1 & H2 & H3 & H4 & H5 & H6). exists path, data, doc. split_and!; auto. Qed.

Lemma clean_prefix w w' : w_errors w `prefix_of` w_errors w' -> clean w' = true -> clean w = true.
Proof. unfold clean. intros [l Hl] H%bool_decide_eq_true. rewrite H in Hl. apply bool_decide_eq_true. by destruct (app_nil (w_errors w) l) as [[-> _] _]. Qed.

(** One report: errors are only added, entries are kept or are the recorded one, and a report without an error has its entry. *)
Lemma check_report_run relative w w' r : check_report resolve sha256 loads str root run_dir s e relative w = (w', r) ->
  o_id (outcome_of w') = o_id (outcome_of w) /\ w_errors w `prefix_of` w_errors w' /\
  (forall k a, dget (w_reports w') k = Some a -> dget (w_reports w) k = Some a \/ k = relative /\ recorded (clean w') relative a) /\
  (forall k, is_Some (dget (w_reports w) k) -> is_Some (dget (w_reports w') k)) /\
  (clean w' = true -> r = Ok tt -> is_Some (dget (w_reports w') relative)).
Proof.
  unfold check_report. destruct (local_path resolve root relative) as [path|x] eqn:Ep; [|intros [= <- <-]; split_and!; auto; done].
  assert (forall m w, clean (add_error m w) = false) as Hdirty. { intros m w0. apply bool_decide_eq_false. unfold w_errors. cbn [add_error outcome_of errors]. by destruct (errors (outcome_of w0)). }
  destruct (produced e path) eqn:Epr; cbn [negb]; [|intros [= <- <-]; split_and!; auto; [by eexists|by rewrite Hdirty]].
  destruct (archive_report _ _ _ _ _ _ _ relative path w) as [w1 r1] eqn:Ea. apply archive_report_view in Ea.
  assert (o_id (outcome_of w1) = o_id (outcome_of w) /\ w_errors w `prefix_of` w_errors w1 /\
    (forall w2, (clean w2 = true -> clean w1 = true) -> forall k a, dget (w_reports w1) k = Some a -> dget (w_reports w) k = Some a \/ k = relative /\ recorded (clean w2) relative a) /\
    (forall k, is_Some (dget (w_reports w) k) -> is_Some (dget (w_reports w1) k)) /\ (r1 = Ok tt -> is_Some (dget (w_reports w1) relative))) as (A1 & A2 & A3 & A4 & A5).
  { destruct Ea as [[Hs Hr]|(data & doc & Hd & Hdoc & Hid & He & Hrep)].
    - injection Hs as H1 H2 H3. rewrite H3, H2, H1. split_and!; auto. done.
    - rewrite Hid, He. split_and!; [done|by eexists| | |].
      + intros w2 Hc k a. destruct Hrep as [[-> _]| ->]; [by left|]. destruct (decide (k = relative)) as [->|Hk]; [|rewrite dget_dset_ne by done; by left]. rewrite dget_dset_eq. intros [= <-]. right. split; [done|].
        exists path, data, doc. split_and!; try done. intros H%Hc%bool_decide_eq_true. rewrite He in H. destruct (succeeded doc); [done|]. by apply app_nil in H as [_ ?].
      + intros k Hk. destruct Hrep as [[-> _]| ->]; [done|]. destruct (decide (k = relative)) as [->|Hne]; [by rewrite dget_dset_eq|by rewrite dget_dset_ne].
      + intros Hr. destruct Hrep as [[_ ?]| ->]; [done|]. by rewrite dget_dset_eq. }
  destruct r1 as [[]|x]; [intros [= <- <-]; split_and!; auto|]. destruct (report_caught x); intros [= <- <-].
  - split_and!; auto; [by apply prefix_app_r| |by rewrite Hdirty]. intros k a. apply (A3 (add_error _ w1)). by rewrite Hdirty.
  - by split_and!; auto.
Qed.

Definition entries_recorded (w : work) : Prop := forall k a, dget (w_reports w) k = Some a -> recorded (clean w) k a.

Lemma check_reports_run l w w' r : forM (check_report resolve sha256 loads str root run_dir s e) l w = (w', r) -> entries_recorded w ->
  o_id (outcome_of w') = o_id (outcome_of w) /\ w_errors w `prefix_of` w_errors w' /\ entries_recorded w' /\
  (forall k, is_Some (dget (w_reports w) k) -> is_Some (dget (w_reports w') k)) /\ (clean w' = true -> r = Ok tt -> forall k, k ∈ l -> is_Some (dget (w_reports w') k)).
Proof.
  revert w. induction l as [|x l IH]; intros w H Hrec; cbn [forM] in H.
  - injection H as <- <-. split_and!; auto. by intros _ _ k ?%not_elem_of_nil.
  - apply bind_run in H as [([] & w1 & H1 & H)|(y & H1 & ->)]; apply check_report_run in H1 as (C1 & C2 & C3 & C4 & C5).
    + assert (entries_recorded w1) as Hrec1. { intros k a Hk. destruct (C3 k a Hk) as [Ho|[-> Ho]]; [|done]. eapply recorded_mono; [|by apply Hrec]. by apply clean_prefix. }
      destruct (IH _ H Hrec1) as (I1 & I2 & I3 & I4 & I5). split_and!; [congruence|by etrans|done|auto|]. intros Hc Hr k [->|Hk]%elem_of_cons; [|by apply I5]. apply I4, C5; [by eapply clean_prefix|done].
    + split_and!; auto; [|done]. intros k a Hk. destruct (C3 k a Hk) as [Ho|[-> Ho]]; [|done]. eapply recorded_mono; [|by apply Hrec]. by apply clean_prefix.
Qed.

Lemma execute_stage_run a a' o : execute_stage resolve sha256 loads str root run_dir s e a = (a', Ok o) -> o_id o = id s /\
  (forall k x, dget (o_reports o) k = Some x -> recorded (passed o) k x) /\ (passed o = true -> completed e = Exited 0 /\ forall k, k ∈ reports s -> is_Some (dget (o_reports o) k)).
Proof.
  unfold execute_stage. destruct (mapM_res _ _) as [ps|]; [|done]. destruct (forM _ _ _) as [w [[]|x]] eqn:E; [|done]. intros [= <- <-].
  apply check_reports_run in E as (H1 & H2 & H3 & _ & H5); [|by intros k x]. cbn [verdict o_id o_reports passed]. change (bool_decide _) with (clean w). split_and!; [done|done|].
  intros Hc. split.
  - apply bool_decide_eq_true in Hc. rewrite Hc in H2. destruct H2 as [l Hl]. symmetry in Hl. apply app_nil in Hl as [Hl _]. revert Hl. unfold w_errors. cbn [outcome_of errors]. unfold command_errors.
    destruct (completed e) as [z|[z|]|x]; cbn [exit_code app]; try done. by destruct z.
  - intros k Hk. apply H5; [done|done|]. unfold distinct_reports. rewrite elem_of_dkeys_dict_of, map_map. cbn [fst]. by rewrite map_id.
Qed.

End Recorded.

(** The command touched the report after it had started. *)
Lemma produced_spec e path : produced e path = true -> exists t, after e path = Some t /\ before e path <> Some t /\ started_ns e <= mtime t.
Proof.
  unfold produced. destruct (after e path) as [t|]; [|done]. intros [H1%negb_true_iff%bool_decide_eq_false H2%negb_true_iff%Z.ltb_ge]%andb_true_iff. by exists t.
Qed.

(** ** The order of the stages *)

Section Order.
Context (resolve : string -> list string) (sha256 : string -> string) (loads : string -> res json) (str : exn -> string) (root run_dir : string).
Context (executions : string -> execution) (interrupted : string -> bool).

(** A stage that was run, with the stages it depends on passed before; or one that was not, because a stage it depends on was not. *)
Definition ran (s : stage) (o : outcome) : Prop := exists a a', execute_stage resolve sha256 loads str root run_dir s (executions (id s)) a = (a', Ok o).

Definition explained (before_ : list outcome) (s : stage) (o : outcome) : Prop :=
  o_id o = id s /\ ((forall d, d ∈ depends_on s -> d ∈ passed_ids before_) /\ ran s o \/ (exists d, d ∈ depends_on s /\ d ∉ passed_ids before_) /\ o = blocked s).

Lemma run_stages_run l a done_ a' os stopped : run_stages resolve sha256 loads str root run_dir executions interrupted l a done_ = (a', Ok (os, stopped)) ->
  exists new, os = done_ ++ new /\ (length new <= length l)%nat /\ (stopped = false -> length new = length l) /\
    forall i o, new !! i = Some o -> exists s, l !! i = Some s /\ explained (done_ ++ take i new) s o.
Proof.
  revert a done_. induction l as [|s l IH]; intros a done_ H; cbn [run_stages] in H.
  - injection H as <- <- <-. exists []. rewrite app_nil_r. split_and!; try done. 
  - assert (forall o a1, run_stages resolve sha256 loads str root run_dir executions interrupted l a1 (done_ ++ [o]) = (a', Ok (os, stopped)) -> explained done_ s o ->
      exists new, os = done_ ++ new /\ (length new <= length (s :: l))%nat /\ (stopped = false -> length new = length (s :: l)) /\
      forall i o, new !! i = Some o -> exists s', (s :: l) !! i = Some s' /\ explained (done_ ++ take i new) s' o) as Hstep.
    { intros o a1 H1 Ho. apply IH in H1 as (new & -> & H2 & H3 & H4). exists (o :: new). rewrite <- app_assoc. split_and!; [done|simpl; lia|simpl; intros; by rewrite H3|].
      intros [|i] x Hx; [injection Hx as <-; exists s; by rewrite app_nil_r|]. destruct (H4 i x Hx) as (s' & Hs' & He). exists s'. split; [done|]. rewrite <- app_assoc in He. done. }
    destruct (existsb _ _) eqn:Ed.
    + apply existsb_exists in Ed as (d & Hd%list_elem_of_In & Hn%negb_true_iff%bool_decide_eq_false). eapply Hstep; [exact H|]. split; [done|]. right. split; [by exists d|done].
    + destruct (interrupted (id s)). { injection H as <- <- <-. exists []. rewrite app_nil_r. split_and!; try done. simpl. lia. }
      destruct (execute_stage _ _ _ _ _ _ s _ a) as [a1 [o|x]] eqn:Ee; [|done]. eapply Hstep; [exact H|]. split; [by apply execute_stage_run in Ee as [? _]|]. left. split; [|by eexists _, _].
      intros d Hd. destruct (mem d (passed_ids done_)) eqn:Em; [unfold mem in Em; by apply bool_decide_eq_true in Em|]. rewrite <- not_true_iff_false in Ed. destruct Ed. apply existsb_exists. exists d. rewrite Em. by rewrite <- list_elem_of_In.
Qed.

End Order.

Lemma passed_all (l : list outcome) : length (passed_ids l) = length l -> Forall (fun o => passed o = true) l.
Proof.
  unfold passed_ids. rewrite length_map. induction l as [|o l IH]; [constructor|]. cbn [List.filter]. destruct (passed o) eqn:E; cbn [length]; intros H; [constructor; [done|apply IH; lia]|].
  pose proof (filter_length_le passed l). lia.
Qed.

(** What an outcome says of its stage. *)
Definition accounted resolve sha256 loads str root run_dir executions (before_ : list outcome) (s : stage) (o : outcome) : Prop :=
  explained resolve sha256 loads str root run_dir executions before_ s o /\
  (passed o = true -> completed (executions (id s)) = Exited 0 /\ forall r, r ∈ reports s -> exists a, dget (o_reports o) r = Some a /\ recorded resolve sha256 loads root (executions (id s)) true r a) /\
  (forall r a, dget (o_reports o) r = Some a -> recorded resolve sha256 loads root (executions (id s)) (passed o) r a).

Lemma explained_accounted resolve sha256 loads str root run_dir executions before_ s o :
  explained resolve sha256 loads str root run_dir executions before_ s o -> accounted resolve sha256 loads str root run_dir executions before_ s o.
Proof.
  intros Hex. split; [done|]. destruct Hex as (Hid & [(_ & a1 & a2 & He)|(_ & ->)]); [|done].
  apply execute_stage_run in He as (_ & E2 & E3). split; [|done]. intros Hp. destruct (E3 Hp) as [E4 E5]. split; [done|]. intros r Hr. destruct (E5 r Hr) as [x Hx]. exists x. split; [done|]. rewrite <- Hp. by apply E2.
Qed.

Lemma run_suite_run resolve sha256 loads str root run_dir executions interrupted profile_ before_ after_ audit l res_ :
  run_suite resolve sha256 loads str root run_dir executions interrupted profile_ before_ after_ audit l = Ok res_ ->
  let sel := selected profile_ l in let os := stages (run_of res_) in
  (forall i o, os !! i = Some o -> exists s, sel !! i = Some s /\ accounted resolve sha256 loads str root run_dir executions (take i os) s o) /\
  (system_closed res_ = true -> audit (run_of res_) (run_files res_) = 0) /\
  (success res_ = true -> finished (run_of res_) = true /\ length os = length sel /\ Forall (fun o => passed o = true) os /\ before_ = after_ /\ (profile_ = "core" \/ system_closed res_ = true)).
Proof.
  unfold run_suite. destruct (run_stages _ _ _ _ _ _ _ _ _ _ _) as [a [[os stopped]|x]] eqn:E; [|done]. intros [= <-]. cbn [run_of run_files stages success finished system_closed source_unchanged].
  apply run_stages_run in E as (new & -> & H1 & H2 & H3). cbn [app] in *. split_and!.
  - intros i o Hi. destruct (H3 i o Hi) as (s & Hs & Hex). exists s. split; [done|]. by apply explained_accounted.
  - intros (((_ & Ha%Z.eqb_eq)%andb_true_iff & _)%andb_true_iff & _)%andb_true_iff. done.
  - intros (((Hs%negb_true_iff & Hall%Z.eqb_eq)%andb_true_iff & Hsrc%String.eqb_eq)%andb_true_iff & Hc)%andb_true_iff. rewrite Hs. subst stopped. specialize (H2 eq_refl).
    split_and!; try done; [|apply orb_true_iff in Hc as [Hc%String.eqb_eq|Hc]; auto]. apply passed_all. unfold len in Hall. lia.
Qed.

(** C24.  The suite runs in order and its verdict means what it says: the outcomes are those of the selected stages in their order; a stage was run only after every stage it depends on had passed, and otherwise it is recorded as
    blocked; a stage that passed ended with exit code 0 and every report it declares was written by its own command and says success; and a run that succeeds has passed every stage on unchanged sources. *)
Theorem suite_order resolve sha256 loads str root run_dir executions interrupted profile_ before_ after_ audit l res_ :
  run_suite resolve sha256 loads str root run_dir executions interrupted profile_ before_ after_ audit l = Ok res_ ->
  let sel := selected profile_ l in let os := stages (run_of res_) in
  (forall i o, os !! i = Some o -> exists s, sel !! i = Some s /\ explained resolve sha256 loads str root run_dir executions (take i os) s o /\
    (passed o = true -> completed (executions (id s)) = Exited 0 /\ forall r, r ∈ reports s -> exists a, dget (o_reports o) r = Some a /\ recorded resolve sha256 loads root (executions (id s)) true r a)) /\
  (success res_ = true -> finished (run_of res_) = true /\ length os = length sel /\ Forall (fun o => passed o = true) os /\ before_ = after_ /\ (profile_ = "core" \/ system_closed res_ = true)).
Proof.
  intros (H1 & _ & H3)%run_suite_run. cbn zeta in *. split; [|done]. intros i o Hi. destruct (H1 i o Hi) as (s & Hs & Hex & Hp & _). by exists s.
Qed.

(** ** Example: a build and a quality stage *)

Definition example_resolve (s : string) : list string := split_on slash s.

Definition example_loads (s : string) : res json :=
  if String.eqb s "quality" then Ok (JDict [("success", JBool true); ("checks", JDict [("go_vet", JInt 3); ("go_unit_tests", JBool true)])]) else Err (ValueError "not JSON").

Definition example_raws : list raw_stage :=
  [RawStage (JStr "build") (JList [JStr "make"; JStr "build"]) [] (JInt 900) [] [] (JStr "core");
   RawStage (JStr "core-quality") (JList [JStr "make"; JStr "quality"]) ["build"] (JInt 900) ["reports/core-quality.json"] [] (JStr "full")].

Definition example_stages : list stage :=
  [Stage "build" ["make"; "build"] [] 900 [] [] "core"; Stage "core-quality" ["make"; "quality"] ["build"] 900 ["reports/core-quality.json"] [] "full"].

Lemma example_loaded : load_suite example_resolve "/sf" (JInt 1) example_raws ["reports/core-quality.json"] = Ok example_stages.
Proof. vm_compute. reflexivity. Qed.

(** Every command ends with [code], and the quality stage rewrites its report. *)
Definition example_execution (code : Z) (i : string) : execution :=
  Execution 1000 (fun _ => Some (7, 500, 500)) (Exited code) (fun _ => Some (7, 1200, 1200)) (fun _ => Ok "quality") (fun _ => false) (fun _ => []) (fun _ => Ok tt).

Definition example_suite (code : Z) (audit : run -> archive -> Z) : res result :=
  run_suite example_resolve (fun s => s) example_loads exn_str "/sf" "/sf/reports/runs/1" (example_execution code) (fun _ => false) "full" "abc" "abc" audit example_stages.

(** The build fails: the stage after it is blocked. *)
Definition example_blocked : result :=
  Result (Run "full" true true [Outcome "build" false [] [] [] ["command exit_code=2"]; blocked (Stage "core-quality" ["make"; "quality"] ["build"] 900 ["reports/core-quality.json"] [] "full")]) [] false false.

Lemma suite_order_witness : example_suite 2 (fun _ _ => 1) = Ok example_blocked /\ forall o, stages (run_of example_blocked) !! 1%nat = Some o -> exists s, selected "full" example_stages !! 1%nat = Some s /\ o_id o = id s.
Proof.
  split; [vm_compute; reflexivity|]. intros o Ho.
  destruct (suite_order example_resolve (fun s => s) example_loads exn_str "/sf" "/sf/reports/runs/1" (example_execution 2) (fun _ => false) "full" "abc" "abc" (fun _ _ => 1) example_stages example_blocked) as [H _]; [vm_compute; reflexivity|].
  destruct (H 1%nat o Ho) as (s & Hs & (Hid & _) & _). exists s. split; [exact Hs|exact Hid].
Defined.

End Suite.
