(* ===== verification/Closure.v ===== *)
(** * Closure: the audit of the roadmap against the evidence of a run (tools/verify_single_pc_closure.py)

    Every capability of the roadmap is classified, and what is called closed has gates: a report and the checks in it that have to hold.  With a run
    directory the report is the one a passed stage of that run archived, and its hash and those of its raw artifacts are compared.  The files are an argument, by
    their resolved paths; [age] is how many seconds ago a time stamp was, [None] where it is not one with a time zone. *)

From S2P Require Import Prelude Text Channel Namespace Service Suite.
#[local] Open Scope Z_scope.
#[local] Open Scope list_scope.

Module Closure.
Import Suite(local_path, archived, a_path, a_sha256, outcome, passed, o_reports, o_artifact_reports, o_artifacts, run, r_profile, finished, source_unchanged, stages, succeeded, is_one).

(** ** Values of a report *)

Definition truthy (v : json) : res bool :=
  match v with
  | JBool b => Ok b
  | JInt _ | JFloat _ | JNonFinite => let* finite := isfinite v in Ok (finite && match number v with Some q => negb (Qle_bool q 0) | None => false end)
  | _ => Ok false
  end.

Fixpoint follow (v : json) (parts : list string) : option json :=
  match parts with
  | [] => Some v
  | p :: parts => match v with JDict d => match dget d p with Some v => follow v parts | None => None end | _ => None end
  end.

Definition value_at (document : json) (path : string) : option json := follow document (split_on dot path).

(** ** [validate_gate] *)

Section Gate.
Context (resolve : string -> list string) (sha256 : string -> string) (loads : string -> res json) (root : string).
Context (fs : list string -> option string) (age : string -> option Q) (max_age_hours : option Q) (current : option (string * run)).

Definition read_file (path : list string) : res string := or_raise (OSError "no such file") (fs path).

(** The first raw artifact whose hash is another one. *)
Fixpoint changed_artifact (dir : string) (l : list (string * archived)) : res (option string) :=
  match l with
  | [] => Ok None
  | (name, a) :: l =>
      let* path := local_path resolve dir (a_path a) in
      let* b := read_file path in
      if String.eqb (sha256 b) (a_sha256 a) then changed_artifact dir l else Ok (Some name)
  end.

(** Where the evidence is, or why it cannot be used. *)
Definition locate (identifier relative : string) : res (string + list string) :=
  let* path := local_path resolve root relative in
  match current with
  | None => Ok (inr path)
  | Some (dir, r) =>
      match last (List.filter (fun o => passed o && dhas (o_reports o) relative) (stages r)) with
      | None => Ok (inl (identifier +:+ ": no successful current-run producer for " +:+ relative))
      | Some producer =>
          let* evidence := or_raise KeyError (dget (o_reports producer) relative) in
          let* path := local_path resolve dir (a_path evidence) in
          let* b := read_file path in
          if negb (String.eqb (sha256 b) (a_sha256 evidence)) then Ok (inl (identifier +:+ ": current-run evidence hash mismatch: " +:+ relative))
          else if dhas (o_artifact_reports producer) relative then
            match dget (o_artifacts producer) relative with
            | None | Some [] => Ok (inl (identifier +:+ ": current-run raw artifacts are absent: " +:+ relative))
            | Some l =>
                let* changed := changed_artifact dir l in
                Ok (match changed with Some name => inl (identifier +:+ ": raw artifact hash mismatch: " +:+ name) | None => inr path end)
            end
          else Ok (inr path)
      end
  end.

(** [except (OSError, ValueError, KeyError)] *)
Definition evidence_caught (x : exn) : bool := match x with OSError _ | ConnectionError _ | TimeoutError | InterruptedError _ | ValueError _ | KeyError => true | _ => false end.

(** A list of nonempty strings. *)
Definition names (v : json) : option (list string) :=
  match v with JList l => mapM (fun x => match x with JStr s => if String.eqb s "" then None else Some s | _ => None end) l | _ => None end.

Definition judge (identifier relative : string) (report : json) (path : string) : res (list string) :=
  match value_at report path with
  | None => Ok [identifier +:+ ": " +:+ relative +:+ " lacks " +:+ path]
  | Some v => let* t := truthy v in Ok (if t : bool then [] else [identifier +:+ ": " +:+ relative +:+ " " +:+ path +:+ " is not truthy"])
  end.

Definition freshness (identifier relative : string) (report : list (string * json)) : list string :=
  match max_age_hours with
  | None => []
  | Some hours =>
      match jget report "generated_at" with
      | JStr generated =>
          match age generated with
          | None => [identifier +:+ ": " +:+ relative +:+ " has invalid generated_at"]
          | Some seconds =>
              (if Qle_bool (-300) seconds then [] else [identifier +:+ ": " +:+ relative +:+ " generated_at is in the future"]) ++
              (if Qle_bool seconds (hours * 3600) then [] else [identifier +:+ ": " +:+ relative +:+ " is old"])
          end
      | _ => [identifier +:+ ": " +:+ relative +:+ " lacks generated_at for freshness gate"]
      end
  end.

(** The gate against the bytes of its report; a report that is not UTF-8 raises in the code, one that is not JSON is a failure. *)
Definition judge_report (identifier relative : string) (gate : list (string * json)) (b : string) : res (list string) :=
  match loads b with
  | Err (ValueError _) => Ok [identifier +:+ ": invalid report " +:+ relative]
  | Err x => Err x
  | Ok (JDict report) =>
      match names (jget_or gate "checks" (JList [])), names (jget_or gate "paths" (JList [])) with
      | None, _ => Ok [identifier +:+ ": checks must be a list of nonempty strings"]
      | _, None => Ok [identifier +:+ ": paths must be a list of nonempty strings"]
      | Some checks, Some paths =>
          let* failed := mapM_res (judge identifier relative (JDict report)) (map (fun c => "checks." +:+ c) checks ++ paths) in
          Ok ((if succeeded (JDict report) then [] else [identifier +:+ ": " +:+ relative +:+ " success is not true"]) ++ concat failed ++ freshness identifier relative report)
      end
  | Ok _ => Ok [identifier +:+ ": report " +:+ relative +:+ " must be an object"]
  end.

Definition validate_gate (identifier : string) (gate : json) : res (list string) :=
  match gate with
  | JDict g =>
      match jget g "report" with
      | JStr relative =>
          if String.eqb relative "" then Ok [identifier +:+ ": gate has no report"] else
          match locate identifier relative with
          | Err x => if evidence_caught x then Ok [identifier +:+ ": invalid evidence " +:+ relative] else Err x
          | Ok (inl m) => Ok [m]
          | Ok (inr path) =>
              match fs path with
              | None => Ok [identifier +:+ ": missing report " +:+ relative]
              | Some b => judge_report identifier relative g b
              end
          end
      | _ => Ok [identifier +:+ ": gate has no report"]
      end
  | _ => Ok [identifier +:+ ": gate must be an object"]
  end.

(** ** [main] *)

(** [set(v)] of a list: its strings, and whether it has other values, which no roadmap technology is; a list or a dictionary in it has no hash. *)
Definition set_of (l : list json) : res (list string * bool) :=
  foldM (fun a v => match v with JStr s => Ok (a.1 ++ [s], a.2) | JList _ | JDict _ => Err TypeError | _ => Ok (a.1, true) end) ([], false) l.

Definition as_list (v : json) : option (list json) := match v with JList l => Some l | _ => None end.

Definition statuses : list string := ["closed"; "partial"; "hardware-excluded"].

(** The failures of one capability, and whether it is still open. *)
Definition classify (identifier : string) (technologies : list string) (entry : list (string * json)) : res (list string * bool) :=
  match jget entry "status" with
  | JList _ | JDict _ => Err TypeError
  | JStr status =>
      if negb (mem status statuses) then Ok ([identifier +:+ ": invalid status"], false) else
      match as_list (jget_or entry "missing" (JList [])), as_list (jget_or entry "hardware_excluded" (JList [])) with
      | Some missing, Some excluded =>
          let* (m, other_m) := set_of missing in
          let* (x, other_x) := set_of excluded in
          let unknown := other_m || other_x || existsb (fun t => negb (mem t technologies)) (m ++ x) in
          let overlap := existsb (fun t => mem t x) m in
          let sets := (if unknown then [identifier +:+ ": classifications not in roadmap technologies"] else []) ++ (if overlap then [identifier +:+ ": technologies both missing and excluded"] else []) in
          match as_list (jget_or entry "gates" (JList [])) with
          | None => Ok (sets ++ [identifier +:+ ": gates must be a list"], false)
          | Some gates =>
              let* failed := mapM_res (validate_gate identifier) gates in
              Ok (sets ++ concat failed ++
                (if String.eqb status "closed" && negb (bool_decide (length missing = 0%nat)) then [identifier +:+ ": closed entry still lists missing technologies"] else []) ++
                (if String.eqb status "partial" && bool_decide (length missing = 0%nat) then [identifier +:+ ": partial entry must name missing technologies"] else []) ++
                (if String.eqb status "hardware-excluded" && (negb (bool_decide (length missing = 0%nat)) || other_x || existsb (fun t => negb (mem t x)) technologies || existsb (fun t => negb (mem t technologies)) x
                    || negb (Service.truthy (jget entry "reason"))) then [identifier +:+ ": hardware exclusion must cover every technology and give a reason"] else []) ++
                (if String.eqb status "closed" && bool_decide (length gates = 0%nat) then [identifier +:+ ": closed entry requires at least one evidence gate"] else []),
                String.eqb status "partial")
          end
      | _, _ => Ok ([identifier +:+ ": missing/hardware_excluded must be lists"], false)
      end
  | _ => Ok ([identifier +:+ ": invalid status"], false)
  end.

(** The entries by their identifiers, and the failures for those without one of their own. *)
Definition index_entry (a : list (string * list (string * json)) * list string) (entry : list (string * json)) : list (string * list (string * json)) * list string :=
  match jget entry "id" with
  | JStr i => if dhas a.1 i then (a.1, a.2 ++ ["invalid or duplicate closure id"]) else (a.1 ++ [(i, entry)], a.2)
  | _ => (a.1, a.2 ++ ["invalid or duplicate closure id"])
  end.

Definition index (entries : list (list (string * json))) : list (string * list (string * json)) * list string := fold_left index_entry entries ([], []).

(** The run as a whole; [same_source] says that its source hash is the one of the workspace. *)
Definition run_failures (same_source : bool) : list string :=
  match current with
  | None => []
  | Some (_, r) =>
      (if String.eqb (r_profile r) "full" && finished r then [] else ["current run must be a finished full-suite execution"]) ++
      (if source_unchanged r && same_source then [] else ["current-run source hash does not match this workspace"]) ++
      (if negb (bool_decide (length (stages r) = 0%nat)) && forallb passed (stages r) then [] else ["current run has failed, blocked, or absent stages"])
  end.

Definition classify_at (roadmap : list (string * list string)) (indexed : list (string * list (string * json))) (identifier : string) : res (list string * bool) :=
  match dget roadmap identifier, dget indexed identifier with Some technologies, Some entry => classify identifier technologies entry | _, _ => Err KeyError end.

(** The failures and whether an item is open; [SystemExit] before the report is written is an exception here. *)
Definition audit (version : json) (roadmap : list (string * list string)) (entries : list (list (string * json))) (same_source : bool) : res (list string * bool) :=
  raise (RuntimeError "closure schema_version must be 1") when negb (is_one version) ;;
  let '(indexed, duplicates) := index entries in
  let missing_ids := List.filter (fun i => negb (dhas indexed i)) (dkeys roadmap) in
  let extra_ids := List.filter (fun i => negb (dhas roadmap i)) (dkeys indexed) in
  let* judged := mapM_res (classify_at roadmap indexed) (sorted_strings (List.filter (dhas indexed) (dkeys roadmap))) in
  Ok (run_failures same_source ++ duplicates ++
      (if bool_decide (length missing_ids = 0%nat) then [] else ["unclassified roadmap ids"]) ++ (if bool_decide (length extra_ids = 0%nat) then [] else ["unknown closure ids"]) ++
      concat (map fst judged), existsb snd judged).

(** [--require-complete]: 0 only without failures and open items. *)
Definition exit_status (require_complete : bool) (r : res (list string * bool)) : Z :=
  match r with
  | Err _ => 1
  | Ok (failures, open) => if negb (bool_decide (length failures = 0%nat)) || (require_complete && open) then 1 else 0
  end.

(** ** What a clean audit shows *)

Definition holds_at (report : json) (path : string) : Prop := exists v, value_at report path = Some v /\ truthy v = Ok true.

(** The gate is met by the bytes [b] at [path]. *)
Record evidenced (g : list (string * json)) (relative : string) (path : list string) (b : string) : Prop := {
  ev_named : jget g "report" = JStr relative;
  ev_located : exists i, locate i relative = Ok (inr path);
  ev_read : fs path = Some b;
  ev_judged : exists report checks paths, loads b = Ok (JDict report) /\ succeeded (JDict report) = true /\
    names (jget_or g "checks" (JList [])) = Some checks /\ names (jget_or g "paths" (JList [])) = Some paths /\
    Forall (holds_at (JDict report)) (map (fun c => "checks." +:+ c) checks ++ paths) /\ forall i, freshness i relative report = []
}.

Lemma freshness_any i i' relative report : freshness i relative report = [] -> freshness i' relative report = [].
Proof. unfold freshness. destruct max_age_hours; [|done]. destruct (jget report "generated_at"); try done. destruct (age s); [|done]. destruct (Qle_bool _ _), (Qle_bool _ _); done. Qed.

Lemma judged_holds i relative report l fs_ : mapM_res (judge i relative report) l = Ok fs_ -> concat fs_ = [] -> Forall (holds_at report) l.
Proof.
  intros H%mapM_res_Ok. induction H as [|p f l fs_ Hp _ IH]; [constructor|]. cbn [concat]. intros [-> Hc]%app_nil. constructor; [|by apply IH]. revert Hp. unfold judge, holds_at.
  destruct (value_at report p) as [v|]; [|done]. rewrite bind_Ok. intros (t & Ht & H'). exists v. by destruct t.
Qed.

Lemma validate_gate_clean i gate : validate_gate i gate = Ok [] -> exists g relative path b, gate = JDict g /\ evidenced g relative path b.
Proof.
  unfold validate_gate. destruct gate as [| | | | | | |g]; try done. destruct (jget g "report") as [| | | | |relative| |] eqn:Er; try done. destruct (String.eqb relative ""); [done|].
  destruct (locate i relative) as [[m|path]|x] eqn:El; [done| |by destruct (evidence_caught x)]. destruct (fs path) as [b|] eqn:Ef; [|done]. unfold judge_report.
  destruct (loads b) as [[| | | | | | |report]|x] eqn:Eb; try done; [|by destruct x]. destruct (names (jget_or g "checks" _)) as [checks|] eqn:E1; [|done]. destruct (names (jget_or g "paths" _)) as [paths|] eqn:E2; [|done].
  rewrite bind_Ok. intros (failed & Hf & [= H]). apply app_nil in H as [H1 H]. apply app_nil in H as [H2 H3]. exists g, relative, path, b. split; [done|]. split; [done|by exists i|done|].
  exists report, checks, paths. split_and!; try done; [revert H1; cbn [succeeded]; by repeat case_match|by eapply judged_holds|]. intros i'. by eapply freshness_any.
Qed.

(** What is settled of a capability: it is closed by evidence, or the hardware it needs is left out entirely, for a reason. *)
Definition settled (technologies : list string) (entry : list (string * json)) : Prop :=
  exists gates, as_list (jget_or entry "gates" (JList [])) = Some gates /\ as_list (jget_or entry "missing" (JList [])) = Some [] /\
    (forall gate, gate ∈ gates -> exists g relative path b, gate = JDict g /\ evidenced g relative path b) /\
    (jget entry "status" = JStr "closed" /\ gates <> [] \/
     jget entry "status" = JStr "hardware-excluded" /\ Service.truthy (jget entry "reason") = true /\ exists excluded x,
       as_list (jget_or entry "hardware_excluded" (JList [])) = Some excluded /\ set_of excluded = Ok (x, false) /\ forall t, t ∈ technologies <-> t ∈ x).

Lemma existsb_not_mem (l l' : list string) : existsb (fun t => negb (mem t l')) l = false -> forall t, t ∈ l -> t ∈ l'.
Proof.
  intros H t Ht. destruct (mem t l') eqn:E; [unfold mem in E; by apply bool_decide_eq_true in E|]. rewrite <- not_true_iff_false in H. destruct H. apply existsb_exists. exists t. rewrite E. by rewrite <- list_elem_of_In.
Qed.

Lemma nil_length {A} (l : list A) : bool_decide (length l = 0%nat) = true <-> l = [].
Proof. rewrite bool_decide_eq_true. by destruct l. Qed.

Lemma if_nil (c : bool) (m : string) : (if c then [m] else []) = [] -> c = false.
Proof. by destruct c. Qed.

Lemma classify_clean i technologies entry : classify i technologies entry = Ok ([], false) -> settled technologies entry.
Proof.
  unfold classify, settled. destruct (jget entry "status") as [| | | | |status| |]; try done. destruct (mem status statuses) eqn:Es; [|done]. cbn [negb].
  destruct (as_list (jget_or entry "missing" _)) as [missing|]; [|done]. destruct (as_list (jget_or entry "hardware_excluded" _)) as [excluded|]; [|done].
  rewrite bind_Ok. intros ([m om] & Hm & H). apply bind_Ok in H as ([x ox] & Hx & H). destruct (as_list (jget_or entry "gates" _)) as [gates|]; [|injection H as H; by apply app_nil in H as [_ ?]].
  apply bind_Ok in H as (failed & Hf & H). injection H as H Hp. apply app_nil in H as [_ H]. apply app_nil in H as [Hc H]. apply app_nil in H as [H1%if_nil H]. apply app_nil in H as [H2%if_nil H]. apply app_nil in H as [H3%if_nil H4%if_nil].
  exists gates. split; [done|]. unfold mem, statuses in Es. apply bool_decide_eq_true in Es. rewrite !elem_of_cons in Es. 
  assert (forall gate, gate ∈ gates -> exists g relative path b, gate = JDict g /\ evidenced g relative path b) as Hg.
  { apply mapM_res_Ok in Hf. clear -Hf Hc. induction Hf as [|gate f gs fs_ Hgf _ IH]; [by intros g ?%not_elem_of_nil|]. cbn [concat] in Hc. apply app_nil in Hc as [-> Hc]. intros gate' [->|H]%elem_of_cons; [by eapply validate_gate_clean|by apply IH]. }
  destruct Es as [->|[->|[->|[]%not_elem_of_nil]]]; [|done|].
  - cbn [String.eqb] in *. apply negb_false_iff, nil_length in H1 as ->. split; [done|]. split; [done|]. left. split; [done|]. intros ->. done.
  - apply orb_false_iff in H3 as [H3 Hr%negb_false_iff]. apply orb_false_iff in H3 as [H3 H3d]. apply orb_false_iff in H3 as [H3 H3c]. apply orb_false_iff in H3 as [H3a%negb_false_iff%nil_length ->]. subst missing.
    split; [done|]. split; [done|]. right. split; [done|]. split; [done|]. exists excluded, x. split; [done|]. split; [done|]. intros t. split; [by apply existsb_not_mem|by apply existsb_not_mem].
Qed.

(** Without a failure the index has every entry under the identifier it gives, once. *)
Lemma index_clean entries a indexed : fold_left index_entry entries a = (indexed, []) -> d_ok a.1 ->
  a.2 = [] /\ d_ok indexed /\ (forall i e, (i, e) ∈ indexed <-> (i, e) ∈ a.1 \/ e ∈ entries /\ jget e "id" = JStr i) /\ (forall e, e ∈ entries -> exists i, jget e "id" = JStr i).
Proof.
  revert a. induction entries as [|x entries IH]; intros a H Ha; cbn [fold_left] in H.
  - subst a. split_and!; try done; [|by intros e ?%not_elem_of_nil]. intros i e. split; [by left|]. intros [?|[?%not_elem_of_nil _]]; done.
  - destruct (IH _ H) as (H1 & H2 & H3 & H4); [unfold index_entry; destruct (jget x "id"); try done; destruct (dhas a.1 s) eqn:E; [done|]|].
    { cbn [fst]. rewrite <- (dset_new a.1 s x E). by apply d_ok_dset. }
    unfold index_entry in H1, H3. destruct (jget x "id") as [| | | | |i| |] eqn:Ex; try (by apply app_nil in H1 as [_ ?]). destruct (dhas a.1 i) eqn:E; [by apply app_nil in H1 as [_ ?]|]. cbn [fst snd] in *. split_and!; [done|done| |].
    + intros j e. rewrite H3, elem_of_app, list_elem_of_singleton, elem_of_cons. split.
      * intros [[?|[= -> ->]]|[? ?]]; auto.
      * intros [?|[[->|?] He]]; auto. rewrite Ex in He. injection He as <-. auto.
    + intros e [->|He]%elem_of_cons; [by exists i|by apply H4].
Qed.

Lemma filter_none {A} (p : A -> bool) (l : list A) : bool_decide (length (List.filter p l) = 0%nat) = true -> forall x, x ∈ l -> p x = false.
Proof.
  rewrite nil_length. intros H x Hx. destruct (p x) eqn:E; [|done]. exfalso. assert (In x (List.filter p l)) as Hin by (apply filter_In; split; [by apply list_elem_of_In|done]). by rewrite H in Hin.
Qed.

(** The roadmap and the closure have the same identifiers, the entry of each is settled, and the run as a whole is in order. *)
Definition complete (roadmap : list (string * list string)) (entries : list (list (string * json))) : Prop :=
  (forall i technologies, dget roadmap i = Some technologies -> exists entry, entry ∈ entries /\ jget entry "id" = JStr i /\ settled technologies entry /\
     forall entry', entry' ∈ entries -> jget entry' "id" = JStr i -> entry' = entry) /\
  (forall entry, entry ∈ entries -> exists i technologies, jget entry "id" = JStr i /\ dget roadmap i = Some technologies) /\
  (forall dir r, current = Some (dir, r) -> r_profile r = "full" /\ finished r = true /\ source_unchanged r = true /\ stages r <> [] /\ Forall (fun o => passed o = true) (stages r)).

Lemma if_nil' (c : bool) (m : string) : (if c then [] else [m]) = [] -> c = true.
Proof. by destruct c. Qed.

Lemma run_failures_clean same_source : run_failures same_source = [] -> forall dir r, current = Some (dir, r) ->
  r_profile r = "full" /\ finished r = true /\ source_unchanged r = true /\ stages r <> [] /\ Forall (fun o => passed o = true) (stages r).
Proof.
  unfold run_failures. intros H dir r E. rewrite E in H. apply app_nil in H as [[H1%String.eqb_eq H2]%if_nil'%andb_true_iff H]. apply app_nil in H as [[H3 _]%if_nil'%andb_true_iff [H4%negb_true_iff H5]%if_nil'%andb_true_iff].
  split_and!; try done; [intros Hn; by rewrite Hn in H4|]. apply Forall_forall. intros o Ho. rewrite forallb_forall in H5. by apply H5, list_elem_of_In.
Qed.

Lemma audit_clean version roadmap entries same_source : audit version roadmap entries same_source = Ok ([], false) -> complete roadmap entries.
Proof.
  unfold audit. split_guard. destruct (index entries) as [indexed dup] eqn:Ei. rewrite bind_Ok. intros (judged & Hj & H). injection H as H Ho.
  apply app_nil in H as [Hrun H]. apply app_nil in H as [Hdup H]. apply app_nil in H as [Hmiss%if_nil' H]. apply app_nil in H as [Hextra%if_nil' Hc]. subst dup.
  apply index_clean in Ei as (_ & Hok & Hin & Hids); [|apply d_ok_nil]. pose proof (filter_none _ _ Hmiss) as Hm. pose proof (filter_none _ _ Hextra) as Hx. split_and!.
  - intros i technologies Hi. assert (i ∈ dkeys roadmap) as Hk by (apply dget_is_Some; by exists technologies). pose proof (Hm i Hk) as Hh%negb_false_iff. apply dhas_true, dget_is_Some in Hh as He0. destruct He0 as [entry Hentry].
    pose proof (dget_Some_in _ _ _ Hentry) as Hie. apply Hin in Hie as [[]%not_elem_of_nil|[He Hid]]. exists entry. split; [done|]. split; [done|]. split.
    + apply mapM_res_Ok in Hj. assert (i ∈ sorted_strings (List.filter (dhas indexed) (dkeys roadmap))) as Hs.
      { rewrite sorted_strings_perm. apply list_elem_of_In, filter_In. split; [by apply list_elem_of_In|]. apply dhas_true, dget_is_Some. by exists entry. }
      apply list_elem_of_lookup in Hs as (k & Hk'). destruct (Forall2_lookup_l _ _ _ _ _ Hj Hk') as ([f o] & Hy & Hcl). unfold classify_at in Hcl. rewrite Hi, Hentry in Hcl. apply (classify_clean i). rewrite Hcl. do 2 f_equal.
      * assert (f ∈ map fst judged) as Hf by (apply list_elem_of_fmap; exists (f, o); split; [done|by eapply list_elem_of_lookup_2]). destruct f as [|m f]; [done|]. exfalso. assert (In m (concat (map fst judged))) as Hmm.
        { apply in_concat. exists (m :: f). split; [by apply list_elem_of_In|by left]. } by rewrite Hc in Hmm.
      * destruct o; [|done]. exfalso. rewrite <- not_true_iff_false in Ho. apply Ho, existsb_exists. exists (f, true). split; [|done]. apply list_elem_of_In. by eapply list_elem_of_lookup_2.
    + intros entry' He' Hid'. assert ((i, entry') ∈ indexed) as Hie' by (apply Hin; auto). apply dget_in_ok in Hie'; [congruence|done].
  - intros entry He. destruct (Hids entry He) as [i Hi]. assert ((i, entry) ∈ indexed) as Hie by (apply Hin; auto). assert (i ∈ dkeys indexed) as Hk by (apply list_elem_of_fmap; by exists (i, entry)).
    pose proof (Hx i Hk) as Hh%negb_false_iff%dhas_true. apply dget_is_Some in Hh as [technologies Ht]. by exists i, technologies.
  - by apply run_failures_clean with same_source.
Qed.

Lemma exit_clean r : exit_status true r = 0 -> r = Ok ([], false).
Proof. unfold exit_status. destruct r as [[failures open]|]; [|done]. destruct failures; [|done]. by destruct open. Qed.

(** Evidence of the current run comes from a stage that passed, and the bytes have the hash it recorded. *)
Lemma locate_current i relative path dir r : current = Some (dir, r) -> locate i relative = Ok (inr path) -> exists o a b, o ∈ stages r /\ passed o = true /\ dget (o_reports o) relative = Some a /\
  local_path resolve dir (a_path a) = Ok path /\ fs path = Some b /\ sha256 b = a_sha256 a.
Proof.
  intros Hcur. unfold locate. rewrite Hcur, bind_Ok. intros (p0 & _ & H). destruct (last _) as [o|] eqn:El; [|done].
  apply last_Some_elem_of, list_elem_of_In, filter_In in El as [Ho%list_elem_of_In [Hp _]%andb_true_iff]. apply bind_Ok in H as (a & Ha%or_raise_Ok & H). apply bind_Ok in H as (p & Hpath & H). apply bind_Ok in H as (b & Hb%or_raise_Ok & H).
  assert (path = p /\ sha256 b = a_sha256 a) as [-> Hs]; [|by exists o, a, b]. destruct (String.eqb_spec (sha256 b) (a_sha256 a)) as [Hs|]; [|done]. cbn [negb] in H. split; [|done].
  destruct (dhas _ _); [|by injection H]. destruct (dget (o_artifacts o) relative) as [[|x l]|]; try done. apply bind_Ok in H as (c & _ & H). destruct c; [done|]. by injection H.
Qed.

End Gate.

(** A clean audit is complete: when the audit ends with status 0 under [--require-complete], the roadmap and the closure name the same capabilities, each once; none is open; a closed one misses nothing and has at
    least one gate; a hardware exclusion covers exactly the technologies of the capability and gives a reason; every gate is met by a report that says success, in which each of the named checks is present and holds, and
    which is fresh where that is asked for; and with a current run, it is a finished full run on unchanged sources in which every stage passed. *)
Theorem closure_complete resolve sha256 loads root fs age max_age_hours current version roadmap entries same_source :
  exit_status true (audit resolve sha256 loads root fs age max_age_hours current version roadmap entries same_source) = 0 -> complete resolve sha256 loads root fs age max_age_hours current roadmap entries.
Proof. intros H%exit_clean. by eapply audit_clean. Qed.

(** The audit that [run_suite] starts over its own run directory. *)
Definition suite_audit resolve sha256 loads root run_dir age version roadmap entries same_source (r : run) (a : Suite.archive) : Z :=
  exit_status true (audit resolve sha256 loads root (dget a) age None (Some (run_dir, r)) version roadmap entries same_source).

(** C10.  The chain of evidence of a closed system: when a full run reports the system as closed, every capability of the roadmap is settled, and each gate of its entry is met by bytes that have the hash of the report which a stage of this very run
    wrote: a stage that was selected, whose command ended with exit code 0 and which, after it had started, changed the report file; those bytes are JSON, say success and hold each of the named checks. *)
Theorem evidence_chain resolve sha256 loads str root run_dir executions interrupted profile_ before_ after_ age version roadmap entries same_source l res_ :
  Suite.run_suite resolve sha256 loads str root run_dir executions interrupted profile_ before_ after_ (suite_audit resolve sha256 loads root run_dir age version roadmap entries same_source) l = Ok res_ ->
  Suite.system_closed res_ = true -> forall i technologies, dget roadmap i = Some technologies -> exists entry gates, entry ∈ entries /\ jget entry "id" = JStr i /\ as_list (jget_or entry "gates" (JList [])) = Some gates /\
  (jget entry "status" = JStr "closed" /\ gates <> [] \/ jget entry "status" = JStr "hardware-excluded") /\
  forall gate, gate ∈ gates -> exists g relative s path t data b report checks,
    gate = JDict g /\ jget g "report" = JStr relative /\ s ∈ Suite.selected profile_ l /\ Suite.completed (executions (Suite.id s)) = Suite.Exited 0 /\
    local_path resolve root relative = Ok path /\ Suite.after (executions (Suite.id s)) path = Some t /\ Suite.before (executions (Suite.id s)) path <> Some t /\ Suite.started_ns (executions (Suite.id s)) <= Suite.mtime t /\
    Suite.read_bytes (executions (Suite.id s)) path = Ok data /\ sha256 b = sha256 data /\
    loads b = Ok (JDict report) /\ succeeded (JDict report) = true /\ names (jget_or g "checks" (JList [])) = Some checks /\ Forall (fun c => holds_at (JDict report) ("checks." +:+ c)) checks.
Proof.
  intros Hrun Hclosed i technologies Hi. apply Suite.run_suite_run in Hrun as (Hstages & Haudit & _). cbn zeta in Hstages. specialize (Haudit Hclosed). apply exit_clean, audit_clean in Haudit as (Hroad & _ & _).
  destruct (Hroad i technologies Hi) as (entry & He & Hid & (gates & Hg & _ & Hall & Hst) & _). exists entry, gates. split_and!; try done; [naive_solver|].
  intros gate Hgate. destruct (Hall gate Hgate) as (g & relative & path & b & -> & [E1 (i' & E2) E3 (report & checks & paths & J1 & J2 & J3 & J4 & J5 & _)]).
  destruct (locate_current _ _ _ _ _ _ _ _ _ _ eq_refl E2) as (o & a & b' & Ho & Hp & Ha & _ & Hb & Hs). assert (b' = b) as -> by congruence.
  apply list_elem_of_lookup in Ho as (k & Hk). destruct (Hstages k o Hk) as (s & Hsel & _ & Hpassed & Hrec). destruct (Hpassed Hp) as [Hexit _]. destruct (Hrec relative a Ha) as (rp & data & doc & R1 & (t & T1 & T2 & T3)%Suite.produced_spec & R3 & R4 & -> & _).
  exists g, relative, s, rp, t, data, b, report, checks. split_and!; try done; [by eapply list_elem_of_lookup_2|]. apply Forall_app in J5 as [J5 _]. rewrite Forall_forall in J5 |- *. intros c Hc. by apply J5, (list_elem_of_fmap_2 (fun c => "checks." +:+ c)).
Qed.

(** ** Example: the suite closes a roadmap of two capabilities *)

Definition example_roadmap : list (string * list string) := [("p0-toolchain", ["go"; "make"]); ("p6-terminal", ["antenna"])].

Definition example_gate : json := JDict [("report", JStr "reports/core-quality.json"); ("checks", JList [JStr "go_vet"; JStr "go_unit_tests"])].

Definition example_entries : list (list (string * json)) :=
  [[("id", JStr "p6-terminal"); ("status", JStr "hardware-excluded"); ("hardware_excluded", JList [JStr "antenna"]); ("reason", JStr "no antenna on a single PC")];
   [("id", JStr "p0-toolchain"); ("status", JStr "closed"); ("gates", JList [example_gate])]].

Definition example_audit (r : run) (a : Suite.archive) : Z :=
  suite_audit Suite.example_resolve (fun s => s) Suite.example_loads "/sf" "/sf/reports/runs/1" (fun _ => None) (JInt 1) example_roadmap example_entries true r a.

Definition example_result : Suite.result :=
  match Suite.example_suite 0 example_audit with Ok r => r | Err _ => Suite.example_blocked end.

Lemma evidence_chain_witness : Suite.success example_result = true /\ Suite.system_closed example_result = true /\ exists entry, entry ∈ example_entries /\ jget entry "id" = JStr "p0-toolchain".
Proof.
  split; [vm_compute; reflexivity|]. split; [vm_compute; reflexivity|].
  destruct (evidence_chain Suite.example_resolve (fun s => s) Suite.example_loads exn_str "/sf" "/sf/reports/runs/1" (Suite.example_execution 0) (fun _ => false) "full" "abc" "abc" (fun _ => None) (JInt 1) example_roadmap example_entries true
    Suite.example_stages example_result) with (i := "p0-toolchain") (technologies := ["go"; "make"]) as (entry & gates & H1 & H2 & _).
  - vm_compute. reflexivity.
  - vm_compute. reflexivity.
  - vm_compute. reflexivity.
  - exists entry. split; [exact H1|exact H2].
Defined.

Lemma closure_complete_witness : complete Suite.example_resolve (fun s => s) Suite.example_loads "/sf" (dget (Suite.run_files example_result)) (fun _ => None) None (Some ("/sf/reports/runs/1", Suite.run_of example_result)) example_roadmap example_entries.
Proof. apply (closure_complete Suite.example_resolve (fun s => s) Suite.example_loads "/sf" (dget (Suite.run_files example_result)) (fun _ => None) None (Some ("/sf/reports/runs/1", Suite.run_of example_result)) (JInt 1) example_roadmap example_entries true). vm_compute. reflexivity. Defined.

(** A report that was tampered with after it was archived is not accepted. *)
Lemma example_tampered : example_audit (Suite.run_of example_result) (map (fun f => (f.1, f.2 +:+ " ")) (Suite.run_files example_result)) = 1.
Proof. vm_compute. reflexivity. Qed.

End Closure.
