(* ===== verification/Bridge.v ===== *)
(** * Bridge: from an HTTP request to a command in a router (lab/platform/frr_agent.py, frr_executor.py)

    The bridge authenticates the controller's request, checks it and passes it on to the executor over a private socket, which checks it again and
    runs it; without an executor it uses [docker exec].  A [trace] has the commands that were started and the audit log.  What the commands, [/proc] and the socket
    answer is an argument; so are [json.dumps] and [json.loads]. *)

From S2P Require Import Prelude Effects Text Channel ContactPlan Namespace Service Http.
#[local] Open Scope Z_scope.
#[local] Open Scope list_scope.

Module Bridge.
Import Namespace(field, owned_node, validate, target, Target, t_pid, t_identity, program_name, enter, permitted, execute_request).

Record entry := Entry { e_node : string; e_program : string; e_args : list string; correlation : list (string * string); exit_code : option json }.

Record trace := Trace { started : list (list string); logged : list entry }.

(** The executor's socket: whether it can be reached, and whether its reply arrives in time. *)
Record link := Link { connection : res unit; delivery : res unit }.

Section Bridge.
Context (dumps : json -> string) (loads : string -> res json) (str : exn -> string).
Context (identity : Z -> res string) (run : list string -> res (string * Z)) (timing : json).

(** [subprocess.run] *)
Definition spawn (command : list string) : M trace (string * Z) :=
  modify (fun t => Trace (started t ++ [command]) (logged t));;
  lift (run command).

Definition result (oc : string * Z) : json := JDict [("output", JStr oc.1); ("exit_code", JInt oc.2)].

(** ** The executor *)

Definition execute (nodes : list (string * target)) (request : json) : M trace json :=
  command ← lift (execute_request identity nodes request);
  oc ← spawn command;
  mret (result oc).

(** [except (OSError, ValueError, KeyError, TypeError, subprocess.TimeoutExpired)] *)
Definition caught (x : exn) : bool :=
  match x with OSError _ | ConnectionError _ | TimeoutError | InterruptedError _ | ValueError _ | KeyError | TypeError | TimeoutExpired => true | _ => false end.

Definition set_timing (v : json) : json := match v with JDict d => JDict (dset d "timing" timing) | _ => v end.

(** The reply to what a client sends. *)
Definition handle (nodes : list (string * target)) (sent : string) : M trace json := fun t =>
  match (raw ← lift (bounded_line 524288 sent "invalid request size"); body ← lift (loads raw); execute nodes body) t with
  | (t, Ok v) => (t, Ok (set_timing v))
  | (t, Err x) => (t, if caught x then Ok (set_timing (JDict [("output", JStr (str x)); ("exit_code", JInt 125)])) else Err x)
  end.

Definition with_newline (v : json) : string := dumps v +:+ String line_end "".

(** The client side: a handler that raises closes the connection without a reply. *)
Definition request (l : link) (nodes : list (string * target)) (body : json) : M trace json :=
  lift (connection l);;
  reply ← (fun t => match handle nodes (with_newline body) t with (t, Ok v) => (t, Ok (with_newline v)) | (t, Err _) => (t, Ok "") end);
  lift (delivery l);;
  lift (loads (readline 4194304 reply)).

(** ** The bridge *)

(** The executor's link and frozen processes, where it was started. *)
Record agent := Agent { token : string; nodes : list (string * string); executor : option (link * list (string * target)) }.

Inductive answer := SendError (code : Z) | Reply (v : json).

(** [sent] says whether an answer can be written to the client. *)
Context (a : agent) (sent : answer -> res unit).

Definition correlation_headers : list (string * string) :=
  [("request_id", "X-Request-ID"); ("frame_id", "X-Starfabric-Frame-ID"); ("plan_id", "X-Starfabric-Plan-ID"); ("phase", "X-Starfabric-Phase"); ("attempt", "X-Starfabric-Attempt")].

(** The part of the handler before the record: the body, its container and the record. *)
Definition accept (q : http) : res (json * (string * entry)) :=
  let* length := content_length q in
  raise (ValueError "invalid body length") when (length <=? 0) || (524288 <? length) ;;
  let* body := content q length in
  let* node := field body "node" in
  let* program := field body "program" in
  let* args := field body "args" in
  let* container := owned_node (nodes a) node in
  let* l := validate program args in
  Ok (body, (container, Entry (program_name node) (program_name program) l
    (map (fun kh => (kh.1, String.substring 0 128 (header_or q kh.2 ""))) correlation_headers) None)).

Definition operate (body : json) (container : string) (e : entry) : M trace json :=
  match executor a with
  | Some (l, ts) => request l ts body
  | None => oc ← spawn (["docker"; "exec"; container; e_program e] ++ e_args e); mret (result oc)
  end.

Definition send (r : answer) : M trace answer := lift (sent r);; mret r.

(** [except (ValueError, KeyError, TypeError)] and [except (OSError, subprocess.TimeoutExpired)]; an error of the answer itself leaves the handler. *)
Definition refuse (x : exn) : M trace answer :=
  match x with
  | ValueError _ | KeyError | TypeError => send (SendError 400)
  | OSError _ | ConnectionError _ | TimeoutError | InterruptedError _ | TimeoutExpired => send (SendError 504)
  | _ => lift (Err x)
  end.

(** [finally: owner.log.info(record)] *)
Definition finally_log (e : entry) (m : M trace answer) : M trace answer := fun t => let (t, r) := m t in (Trace (started t) (logged t ++ [e]), r).

(** The reply is written inside the [try]. *)
Definition reply (v : json) : M trace answer := fun t =>
  match send (Reply v) t with
  | (t, Ok r) => (t, Ok r)
  | (t, Err x) => refuse x t
  end.

(** The [try] statement of the handler. *)
Definition serve_request (q : http) : M trace answer :=
  match accept q with
  | Err x => refuse x
  | Ok (body, (container, e)) => fun t =>
      match operate body container e t with
      | (t, Ok v) =>
          match field v "exit_code" with
          | Ok c => finally_log (Entry (e_node e) (e_program e) (e_args e) (correlation e) (Some c)) (reply v) t
          | Err x => finally_log e (refuse x) t
          end
      | (t, Err x) => finally_log e (refuse x) t
      end
  end.

Definition authenticate (q : http) : res bool := compare_digest (header_or q "Authorization" "") ("Bearer " +:+ token a).

Definition authorized (q : http) : M trace answer :=
  same ← lift (authenticate q);
  if same : bool then serve_request q else send (SendError 401).

Definition do_POST (q : http) : M trace answer := if String.eqb (path q) "/v1/execute" then authorized q else send (SendError 404).

(** ** What a request does *)

(** [json] carries a value over the socket on one line. *)
Definition faithful (v : json) : Prop := lacks line_end (dumps v) = true /\ loads (with_newline v) = Ok v.

Definition refusal (x : exn) : json := set_timing (JDict [("output", JStr (str x)); ("exit_code", JInt 125)]).

Lemma execute_run ts body t : execute ts body t = match execute_request identity ts body with
  | Ok c => (Trace (started t ++ [c]) (logged t), match run c with Ok oc => Ok (result oc) | Err x => Err x end) | Err x => (t, Err x) end.
Proof. unfold execute, spawn, mbind, M_bind, lift, modify. destruct (execute_request identity ts body) as [c|]; [|done]. by destruct (run c). Qed.

Lemma handle_run ts body t : faithful body -> handle ts (with_newline body) t =
  if str_len (dumps body) <? 524288 then match execute ts body t with (t, Ok v) => (t, Ok (set_timing v)) | (t, Err x) => (t, if caught x then Ok (refusal x) else Err x) end
  else (t, Ok (refusal (ValueError "invalid request size"))).
Proof.
  intros [Hl Hd]. unfold with_newline in *. unfold handle. rewrite bounded_line_line by done. unfold mbind at 1, M_bind, lift. destruct (str_len (dumps body) <? 524288); [|done].
  unfold mbind. by rewrite Hd.
Qed.

(** What the request to the executor starts and leaves in the log. *)
Lemma request_traces l ts body t t' r : faithful body -> request l ts body t = (t', r) -> logged t' = logged t /\
  (started t' = started t \/ exists c, execute_request identity ts body = Ok c /\ started t' = started t ++ [c]).
Proof.
  intros Hf. unfold request, mbind, M_bind, lift. destruct (connection l) as [[]|x]; [|intros [= <- _]; by auto].
  assert (logged (handle ts (with_newline body) t).1 = logged t /\ (started (handle ts (with_newline body) t).1 = started t \/
    exists c, execute_request identity ts body = Ok c /\ started (handle ts (with_newline body) t).1 = started t ++ [c])) as H.
  { rewrite handle_run by done. destruct (_ <? _); [|by auto]. rewrite execute_run. destruct (execute_request identity ts body) as [c|x]; [|by auto].
    destruct (run c); simpl; split; eauto. }
  destruct (handle ts (with_newline body) t) as [t1 [v|x]]; cbn [fst] in H; (destruct (delivery l) as [[]|y]; intros [= <- _]; exact H).
Qed.

(** What was accepted. *)
Lemma accept_Ok q body container e : accept q = Ok (body, (container, e)) -> exists n node program args l, content_length q = Ok n /\ content q n = Ok body /\ 0 < n <= 524288 /\
  field body "node" = Ok (JStr node) /\ field body "program" = Ok program /\ field body "args" = Ok args /\ dget (nodes a) node = Some container /\ validate program args = Ok l /\
  e_node e = node /\ e_program e = program_name program /\ e_args e = l.
Proof.
  unfold accept. rewrite bind_Ok. intros (n & Hn & H). revert H. split_guard. rewrite bind_Ok. intros (b & Hb & H). apply bind_Ok in H as (node & Hnode & H). apply bind_Ok in H as (program & Hp & H).
  apply bind_Ok in H as (args & Hargs & H). apply bind_Ok in H as (c & Hc & H). apply bind_Ok in H as (l & Hl & [= <- <- <-]). apply orb_false_iff in Heqb as [H1 H2].
  unfold owned_node in Hc. destruct node as [| | | | |s| |]; try done. apply or_raise_Ok in Hc. exists n, s, program, args, l. split_and!; try done; lia.
Qed.

Lemma send_run r t : send r t = (t, let* _ := sent r in Ok r).
Proof. unfold send, mbind, M_bind, lift. by destruct (sent r). Qed.

Lemma refuse_keeps (x : exn) (t : trace) : (refuse x t).1 = t.
Proof. destruct x; unfold refuse; rewrite ?send_run; done. Qed.

Lemma reply_keeps v t : (reply v t).1 = t.
Proof. unfold reply. rewrite send_run. destruct (sent (Reply v)); simpl_res; [done|apply refuse_keeps]. Qed.

Lemma finally_log_keeps e m t : (m t).1 = t -> (finally_log e m t).1 = Trace (started t) (logged t ++ [e]).
Proof. intros H. unfold finally_log. destruct (m t) as [t' r]. simpl in H. by subst t'. Qed.

(** After the record is made it is logged once, however the operation ends. *)
Lemma serve_request_run q t : match accept q with
  | Err x => serve_request q t = refuse x t
  | Ok (body, (container, e)) => exists e', (e_node e', e_program e', e_args e', correlation e') = (e_node e, e_program e, e_args e, correlation e) /\
      let t1 := (operate body container e t).1 in (serve_request q t).1 = Trace (started t1) (logged t1 ++ [e'])
  end.
Proof.
  unfold serve_request. destruct (accept q) as [[body [container e]]|x]; [|done]. destruct (operate body container e t) as [t1 [v|x]]; cbn [fst].
  - destruct (field v "exit_code") as [c|x]; [exists (Entry (e_node e) (e_program e) (e_args e) (correlation e) (Some c)); split; [done|]; apply finally_log_keeps, reply_keeps|].
    exists e. split; [done|]. apply finally_log_keeps, refuse_keeps.
  - exists e. split; [done|]. apply finally_log_keeps, refuse_keeps.
Qed.

(** What [operate] starts for an accepted request. *)
Definition command_of (e : entry) (c : list string) : Prop :=
  match executor a with
  | None => exists container, dget (nodes a) (e_node e) = Some container /\ c = ["docker"; "exec"; container] ++ e_program e :: e_args e
  | Some (_, ts) => exists tg, dget ts (e_node e) = Some tg /\ identity (t_pid tg) = Ok (t_identity tg) /\ c = enter (t_pid tg) ++ e_program e :: e_args e
  end.

Lemma operate_traces q body container e t : accept q = Ok (body, (container, e)) -> faithful body -> let t1 := (operate body container e t).1 in
  logged t1 = logged t /\ (started t1 = started t \/ exists c, command_of e c /\ started t1 = started t ++ [c]).
Proof.
  intros Ha Hf. apply accept_Ok in Ha as (n & node & program & args & l & _ & _ & _ & Hnode & Hp & Hargs & Hc & Hv & E1 & E2 & E3). unfold operate, command_of. destruct (executor a) as [[l' ts]|]; cbn zeta.
  - destruct (request l' ts body t) as [t1 r] eqn:E. apply request_traces in E as (H1 & H2); [|done]. split; [done|]. destruct H2 as [H2|(c & Hx & H2)]; [by left|]. right. exists c. split; [|done].
    apply Namespace.execute_request_Ok in Hx as (n' & tg & p' & ar' & l'' & X1 & X2 & X3 & X4 & X5 & X6 & X7). exists tg. assert (n' = node) by congruence. assert (p' = program) by congruence. assert (ar' = args) by congruence.
    subst n' p' ar'. assert (l'' = l) by congruence. subst l''. rewrite E1, E2, E3. done.
  - unfold spawn, mbind, M_bind, modify, lift. split; [by destruct (run _)|]. right. eexists. split; [by exists container; rewrite E1|]. by destruct (run _).
Qed.

(** What a handled request may have done: at most one command, for one record of an authenticated request. *)
Definition audited (q : http) (t t' : trace) : Prop := exists cs es, started t' = started t ++ cs /\ logged t' = logged t ++ es /\ (length cs <= length es <= 1)%nat /\
  forall e, e ∈ es -> path q = "/v1/execute" /\ header q "Authorization" = Some ("Bearer " +:+ token a) /\ is_Some (dget (nodes a) (e_node e)) /\ permitted (e_program e :: e_args e) /\
    forall c, c ∈ cs -> command_of e c.

Lemma audited_none q t : audited q t t.
Proof. exists [], []. rewrite !app_nil_r. split_and!; try done; [simpl; lia|intros e []%not_elem_of_nil]. Qed.

Lemma authenticate_Ok q : authenticate q = Ok true -> header q "Authorization" = Some ("Bearer " +:+ token a).
Proof.
  unfold authenticate, compare_digest, header_or. destruct (_ && _); [|done]. intros [= E%String.eqb_eq]. revert E. by destruct (header q "Authorization"); [intros ->|].
Qed.

Lemma do_POST_run q t : do_POST q t =
  if String.eqb (path q) "/v1/execute" then match authenticate q with Ok true => serve_request q t | Ok false => (t, let* _ := sent (SendError 401) in Ok (SendError 401)) | Err x => (t, Err x) end
  else (t, let* _ := sent (SendError 404) in Ok (SendError 404)).
Proof. unfold do_POST. destruct (String.eqb _ _); [|apply send_run]. unfold authorized. unfold mbind at 1, M_bind at 1, lift at 1. destruct (authenticate q) as [[]|]; [done|apply send_run|done]. Qed.

Lemma serve_request_audited q t : path q = "/v1/execute" -> authenticate q = Ok true -> (forall n body, content q n = Ok body -> faithful body) -> audited q t (serve_request q t).1.
Proof.
  intros Hp Hau%authenticate_Ok Hf. pose proof (serve_request_run q t) as HS. destruct (accept q) as [[body [container e]]|x] eqn:Ea; [|rewrite HS, refuse_keeps; apply audited_none].
  destruct HS as (e' & Ee & HS). cbn zeta in HS. rewrite HS. pose proof (accept_Ok _ _ _ _ Ea) as (n & node & program & args & l & _ & Hn & _ & _ & _ & _ & Hc & Hv & E1 & E2 & E3).
  destruct (operate_traces q body container e t Ea (Hf _ _ Hn)) as [H1 H2]. injection Ee as F1 F2 F3 F4.
  assert (exists cs, started (operate body container e t).1 = started t ++ cs /\ (length cs <= 1)%nat /\ forall c, c ∈ cs -> command_of e' c) as (cs & Hcs & Hlen & Hall).
  { destruct H2 as [H2|(c & Hcmd & H2)]; [exists []; rewrite app_nil_r; split_and!; [done|simpl; lia|intros c []%not_elem_of_nil]|]. exists [c]. split_and!; [done|simpl; lia|]. intros c' ->%list_elem_of_singleton.
    unfold command_of in *. by rewrite F1, F2, F3. }
  exists cs, [e']. cbn [started logged]. rewrite H1. split_and!; try done. intros y ->%list_elem_of_singleton. rewrite F1, F2, F3. split_and!; try done; [by rewrite E1; eexists|].
  rewrite E2, E3. by eapply Namespace.validate_permitted.
Qed.

(** *** Requests that are served *)

(** The command line the executor starts for an accepted request. *)
Lemma execute_request_accepted q body container e ts tg : accept q = Ok (body, (container, e)) -> dget ts (e_node e) = Some tg ->
  execute_request identity ts body = let* _ := Namespace.same_process identity tg in Ok (enter (t_pid tg) ++ e_program e :: e_args e).
Proof.
  intros Ha Ht. apply accept_Ok in Ha as (n & node & program & args & l & _ & _ & _ & Hnode & Hp & Hargs & Hc & Hv & E1 & E2 & E3). unfold execute_request. rewrite Hnode, Hp, Hargs. simpl_res.
  unfold owned_node. rewrite <- E1, Ht. cbn [or_raise]. simpl_res. rewrite Hv. simpl_res. by rewrite E2, E3.
Qed.

(** The reply of the executor, when it can run the command, and when the process is another one or the command cannot be run. *)
Definition outcome (tg : target) (c : list string) : res (string * Z) := let* _ := Namespace.same_process identity tg in run c.

Definition reply_of (o : res (string * Z)) : json := match o with Ok oc => set_timing (result oc) | Err x => refusal x end.

Definition code_of (o : res (string * Z)) : json := match o with Ok oc => JInt oc.2 | Err _ => JInt 125 end.

Lemma reply_code o : field (reply_of o) "exit_code" = Ok (code_of o).
Proof. by destruct o. Qed.

(** *** Every request is answered *)

(** What the client is told of a failure, if it can be written. *)
Lemma refuse_caught x t : caught x = true -> exists code, refuse x t = (t, let* _ := sent (SendError code) in Ok (SendError code)) /\ (code = 400 \/ code = 504).
Proof. destruct x; intros H; try done; unfold refuse; rewrite send_run; eexists; split; eauto. Qed.

Lemma validate_raises program args x : validate program args = Err x -> caught x = true.
Proof.
  unfold validate, Namespace.argument_list, Namespace.ip_address. rewrite bind_Err. intros [H|(l & _ & H)].
  - destruct args as [| | | | | |l|]; try (injection H as <-; done). revert H. destruct (_ || _); [by intros [= <-]|]. induction l as [|y l IH]; cbn [mapM_res]; [done|].
    rewrite bind_Err. intros [H|(s & _ & H)]; [by destruct (Namespace.short_string y); [|injection H as <-]|]. apply bind_Err in H as [H|(? & _ & ?)]; [by apply IH|done].
  - revert H. repeat case_match; simpl_res; intros Hx; try done; by injection Hx as <-.
Qed.

Lemma field_raises v k x : field v k = Err x -> caught x = true.
Proof. unfold field. destruct v; try (intros [= <-]; done). destruct (dget d k); [done|]. by intros [= <-]. Qed.

Lemma owned_node_raises {A} (l : list (string * A)) v x : owned_node l v = Err x -> caught x = true.
Proof. unfold owned_node. destruct v; try (intros [= <-]; done). destruct (dget l s); [done|]. by intros [= <-]. Qed.

Lemma content_length_raises q x : content_length q = Err x -> caught x = true.
Proof. unfold content_length, py_int. destruct (split_sign _). destruct (digit_run _ _ _ _) as [[]|]; [done|]. by intros [= <-]. Qed.

Lemma accept_raises q x : (forall n x, content q n = Err x -> caught x = true) -> accept q = Err x -> caught x = true.
Proof.
  intros Hc. unfold accept. rewrite bind_Err. intros [H|(n & _ & H)]; [by eapply content_length_raises|]. revert H. destruct (_ || _); [by intros [= <-]|].
  repeat (rewrite bind_Err; intros [?|(? & _ & ?)]; [by eauto using field_raises, owned_node_raises, validate_raises|]; lazymatch goal with H : _ = Err x |- _ => revert H end). done.
Qed.

Lemma operate_raises body container e t x : (forall c x, run c = Err x -> caught x = true) -> (forall s x, loads s = Err x -> caught x = true) ->
  (forall l ts x, executor a = Some (l, ts) -> connection l = Err x \/ delivery l = Err x -> caught x = true) -> (operate body container e t).2 = Err x -> caught x = true.
Proof.
  intros Hr Hl Hx. unfold operate. destruct (executor a) as [[l ts]|] eqn:E.
  - unfold request, mbind, M_bind, lift. destruct (connection l) as [[]|y] eqn:Ec; [|intros [= <-]; by eapply Hx; [reflexivity|left]].
    destruct (handle ts (with_newline body) t) as [t1 [v|y]]; (destruct (delivery l) as [[]|z] eqn:Ed; [apply Hl|intros [= <-]; by eapply Hx; [reflexivity|right]]).
  - unfold spawn, mbind, M_bind, modify, lift. destruct (run _) as [oc|y] eqn:Er; [done|]. intros [= <-]. by eapply Hr.
Qed.

Lemma spawn_logged c : keeps logged (spawn c).
Proof. unfold spawn. auto with keeps. Qed.

Lemma handle_logged ts s : keeps logged (handle ts s).
Proof.
  intros t. unfold handle. set (m := _ ≫= _). assert (keeps logged m) as H.
  { subst m. unfold execute. pose proof spawn_logged. auto 10 with keeps. }
  specialize (H t). destruct (m t) as [t1 [v|x]]; simpl in *; [done|]. by destruct (caught x).
Qed.

Lemma operate_logged body container e : keeps logged (operate body container e).
Proof.
  unfold operate. pose proof spawn_logged. destruct (executor a) as [[l ts]|]; [|auto with keeps]. unfold request. apply keeps_bind; [auto with keeps|intros _]. apply keeps_bind; [|intros s; auto with keeps].
  intros t. pose proof (handle_logged ts (with_newline body) t) as Hh. by destruct (handle ts (with_newline body) t) as [t1 [v|x]].
Qed.

End Bridge.

(** C8.  The bridge is confined and audited: whatever an HTTP client sends, at most one command is started, only for a request to [/v1/execute] that carries the token, and only with a log
    record for it, which names a node of the run and a permitted probe or route operation; and the command is that program with those arguments, in the container of the node or, through the executor, in the
    namespaces of the node's frozen process whose identity has not changed. *)
Theorem bridge_confined dumps loads str identity run timing a sent q t : (forall n body, content q n = Ok body -> faithful dumps loads body) ->
  audited identity a q t (do_POST dumps loads str identity run timing a sent q t).1.
Proof.
  intros Hf. rewrite do_POST_run. destruct (String.eqb_spec (path q) "/v1/execute") as [Hp|_]; [|apply audited_none].
  destruct (authenticate a q) as [[]|] eqn:E; [by apply serve_request_audited|apply audited_none|apply audited_none].
Qed.

(** A valid request is answered with what the executor made of it: the command's output and exit code if the frozen process is still the one of the node, and exit code 125 with the reason if it is not or the command
    could not be run; the log has that exit code, and the command is started exactly once, or not at all where the process has changed. *)
Theorem bridge_serves dumps loads str identity run timing a sent q t body container e l ts tg : path q = "/v1/execute" -> authenticate a q = Ok true -> accept a q = Ok (body, (container, e)) ->
  executor a = Some (l, ts) -> connection l = Ok tt -> delivery l = Ok tt -> dget ts (e_node e) = Some tg -> faithful dumps loads body -> str_len (dumps body) < 524288 ->
  let c := enter (t_pid tg) ++ e_program e :: e_args e in let o := outcome identity run tg c in let v := reply_of str timing o in
  faithful dumps loads v -> str_len (dumps v) < 4194304 -> (forall x, o = Err x -> caught x = true) -> sent (Reply v) = Ok tt ->
  do_POST dumps loads str identity run timing a sent q t =
    (Trace (started t ++ match Namespace.same_process identity tg with Ok _ => [c] | Err _ => [] end) (logged t ++ [Entry (e_node e) (e_program e) (e_args e) (correlation e) (Some (code_of o))]), Ok (Reply v)).
Proof.
  intros Hp Hau Ha Hx Hl1 Hl2 Ht Hf Hlen c o v Hv Hvlen Hcaught Hsent. rewrite do_POST_run, Hp, Hau. rewrite String.eqb_refl. unfold serve_request. rewrite Ha. unfold operate. rewrite Hx.
  assert (request dumps loads str identity run timing l ts body t = (Trace (started t ++ match Namespace.same_process identity tg with Ok _ => [c] | Err _ => [] end) (logged t), Ok v)) as ->.
  { unfold request, mbind, M_bind, lift. rewrite Hl1, handle_run by done. rewrite (proj2 (Z.ltb_lt _ _) Hlen).
    rewrite execute_run, (execute_request_accepted _ _ _ _ _ _ _ _ Ha Ht). subst v o. unfold outcome, faithful, with_newline in *. destruct (Namespace.same_process identity tg) as [[]|x]; simpl_res.
    - fold c in Hcaught, Hv, Hvlen |- *. destruct (run c) as [oc|x]; cbn [reply_of] in *; [|rewrite Hcaught by done]; rewrite Hl2, readline_line by (apply Hv || done); by rewrite (proj2 Hv).
    - cbn [reply_of] in *. rewrite Hcaught by done. rewrite Hl2, readline_line by (apply Hv || done). rewrite app_nil_r. destruct t. by rewrite (proj2 Hv). }
  fold v. assert (field v "exit_code" = Ok (code_of o)) as -> by apply reply_code. unfold finally_log, reply. rewrite send_run, Hsent. done.
Qed.

(** The errors of a connection: what writing an answer may raise. *)
Definition connection_error (x : exn) : bool := match x with OSError _ | ConnectionError _ | TimeoutError => true | _ => false end.

(** What the client gets when a request is refused for [x]. *)
Definition refusal_sent (sent : answer -> res unit) (r : res answer) : Prop := exists code, (code = 400 \/ code = 504) /\ r = (let* _ := sent (SendError code) in Ok (SendError code)).

Lemma reply_ends sent v t t' r : (forall x ans, sent ans = Err x -> connection_error x = true) -> reply sent v t = (t', r) ->
  r = Ok (Reply v) /\ sent (Reply v) = Ok tt \/ refusal_sent sent r.
Proof.
  intros Hs. unfold reply. rewrite send_run. destruct (sent (Reply v)) as [[]|x] eqn:E; simpl_res; [intros [= <- <-]; by left|]. right.
  assert (caught x = true) as Hx by (specialize (Hs x _ E); by destruct x). destruct (refuse_caught sent x t Hx) as (code & Hr & Hc). rewrite Hr in H. injection H as <- <-. by exists code.
Qed.

(** C28.  How every request is answered, as long as what the handler calls raises only operating-system errors, time-outs and [ValueError], [KeyError] or [TypeError], and writing an answer only the errors of a connection.
    Another path is answered 404 and a wrong token 401, both without any effect; otherwise the answer is 400, 504 or a reply whose exit code is in the log, and an answer that counts has been written.
    A request stays without an answer only if the error answer cannot be written, or if its Authorization header (or the token) is not ASCII. *)
Theorem bridge_answers dumps loads str identity run timing a sent q t : (forall n x, content q n = Err x -> caught x = true) -> (forall c x, run c = Err x -> caught x = true) ->
  (forall s x, loads s = Err x -> caught x = true) -> (forall l ts x, executor a = Some (l, ts) -> connection l = Err x \/ delivery l = Err x -> caught x = true) ->
  (forall x ans, sent ans = Err x -> connection_error x = true) ->
  let '(t', r) := do_POST dumps loads str identity run timing a sent q t in
  (path q <> "/v1/execute" -> t' = t /\ r = (let* _ := sent (SendError 404) in Ok (SendError 404))) /\
  (path q = "/v1/execute" -> authenticate a q = Ok false -> t' = t /\ r = (let* _ := sent (SendError 401) in Ok (SendError 401))) /\
  (path q = "/v1/execute" -> authenticate a q = Ok true -> refusal_sent sent r \/
     exists v e c, r = Ok (Reply v) /\ sent (Reply v) = Ok tt /\ logged t' = logged t ++ [e] /\ exit_code e = Some c /\ field v "exit_code" = Ok c) /\
  (forall x, path q = "/v1/execute" -> authenticate a q = Err x -> t' = t /\ r = Err TypeError /\ is_ascii (header_or q "Authorization" "") && is_ascii ("Bearer " +:+ token a) = false).
Proof.
  intros Hc Hr Hl Hx Hs. rewrite do_POST_run. destruct (String.eqb_spec (path q) "/v1/execute") as [Hp|Hp]; [|by split_and!].
  destruct (authenticate a q) as [[]|x] eqn:Ea; [|by split_and!|].
  - assert (forall x t1, caught x = true -> refusal_sent sent (refuse sent x t1).2) as Href.
    { intros x t1 Hcx. destruct (refuse_caught sent x t1 Hcx) as (code & -> & Hcode). by exists code. }
    destruct (serve_request _ _ _ _ _ _ a sent q t) as [t' r] eqn:Eserve. split_and!; try done. intros _ _. revert Eserve. unfold serve_request.
    destruct (accept a q) as [[body [container e]]|x] eqn:Eq.
    + pose proof (operate_logged dumps loads str identity run timing a body container e t) as Hlog. pose proof (operate_raises dumps loads str identity run timing a body container e t) as Hop.
      destruct (operate _ _ _ _ _ _ _ body container e t) as [t1 [v|x]]; cbn [fst snd] in *.
      * destruct (field v "exit_code") as [c|x] eqn:Ef.
        -- unfold finally_log. pose proof (reply_keeps sent v t1) as Hk. destruct (reply sent v t1) as [t2 r2] eqn:Er. cbn [fst] in Hk. subst t2. intros [= <- <-].
           apply reply_ends in Er as [[-> Hsent]|Href']; [right|by left|done]. cbn [logged]. rewrite Hlog. by eexists v, _, c.
        -- unfold finally_log. specialize (Href x t1 (field_raises _ _ _ Ef)). destruct (refuse sent x t1) as [t2 r2]. intros [= <- <-]. by left.
      * unfold finally_log. specialize (Href x t1 (Hop x Hr Hl Hx eq_refl)). destruct (refuse sent x t1) as [t2 r2]. intros [= <- <-]. by left.
    + specialize (Href x t (accept_raises _ _ _ Hc Eq)). intros E. rewrite E in Href. by left.
  - split_and!; try done. intros y _ [= <-]. unfold authenticate, compare_digest in Ea. destruct (_ && _) eqn:E; [done|]. by injection Ea as <-.
Qed.

(** ** Example: the controller withdraws a route *)

Definition example_line : string := "{request}".

Definition example_reply : json := JDict [("output", JStr ""); ("exit_code", JInt 0); ("timing", JNull)].

Definition example_refused : json := JDict [("output", JStr "router process identity changed"); ("exit_code", JInt 125); ("timing", JNull)].

Definition example_dumps (v : json) : string := match v with JDict (("node", _) :: _) => example_line | JDict (("output", JStr "") :: _) => "{reply}" | _ => "{refused}" end.

Definition example_loads (s : string) : res json :=
  if String.eqb s (example_line +:+ String line_end "") then Ok Namespace.example_request else if String.eqb s ("{reply}" +:+ String line_end "") then Ok example_reply
  else if String.eqb s ("{refused}" +:+ String line_end "") then Ok example_refused else Err (ValueError "").

Definition example_post : http :=
  Http "/v1/execute" (fun h => if String.eqb h "Authorization" then Some "Bearer s3cret" else if String.eqb h "Content-Length" then Some "180" else if String.eqb h "X-Request-ID" then Some "r-7" else None)
    (fun n => if n =? 180 then Ok Namespace.example_request else Err (ValueError "")).

Definition example_agent : agent := Agent "s3cret" [("sat-1", "run-sat-1")] (Some (Link (Ok tt) (Ok tt), Namespace.example_nodes)).

Definition example_post_run (identity : Z -> res string) : trace * res answer :=
  do_POST example_dumps example_loads exn_str identity (fun _ => Ok ("", 0)) JNull example_agent (fun _ => Ok tt) example_post (Trace [] []).

Definition example_command : list string :=
  ["nsenter"; "--target"; "4242"; "--mount"; "--net"; "--root=/proc/4242/root"; "--wd=/"; "vtysh"; "-c"; "configure terminal"; "-c"; "no ip route 172.22.0.8/32 10.128.0.5 20"; "-c"; "end"].

Lemma bridge_confined_witness : started (example_post_run Namespace.example_identity).1 = [example_command] /\
  audited Namespace.example_identity example_agent example_post (Trace [] []) (example_post_run Namespace.example_identity).1.
Proof.
  split; [vm_compute; reflexivity|]. apply (bridge_confined example_dumps example_loads exn_str Namespace.example_identity (fun _ => Ok ("", 0)) JNull example_agent (fun _ => Ok tt) example_post (Trace [] [])).
  intros n body. unfold example_post, content. destruct (n =? 180); [|done]. intros [= <-]. split; vm_compute; reflexivity.
Defined.

(** The process has been replaced: nothing is started and the log says so. *)
Lemma bridge_serves_witness : exists e, example_post_run (fun _ => Ok "11111") = (Trace [] [e], Ok (Reply example_refused)) /\ exit_code e = Some (JInt 125).
Proof.
  eexists. split; [|shelve]. apply (bridge_serves example_dumps example_loads exn_str (fun _ => Ok "11111") (fun _ => Ok ("", 0)) JNull example_agent (fun _ => Ok tt) example_post (Trace [] []) Namespace.example_request "run-sat-1"
    (Entry "sat-1" "vtysh" ["-c"; "configure terminal"; "-c"; "no ip route 172.22.0.8/32 10.128.0.5 20"; "-c"; "end"]
      [("request_id", "r-7"); ("frame_id", ""); ("plan_id", ""); ("phase", ""); ("attempt", "")] None) (Link (Ok tt) (Ok tt)) Namespace.example_nodes (Target 4242 "98765"));
  try (vm_compute; reflexivity); try (split; vm_compute; reflexivity). intros x [= <-]. reflexivity.
  Unshelve. reflexivity.
Defined.

Definition is_ok_answer (r : res answer) : bool := match r with Ok _ => true | Err _ => false end.

(** The client that withdraws the route has gone when the answer is written: it gets no answer, and the log has the exit code of the command. *)
Definition example_gone : trace * res answer :=
  do_POST example_dumps example_loads exn_str Namespace.example_identity (fun _ => Ok ("", 0)) JNull example_agent (fun _ => Err (ConnectionError "broken pipe")) example_post (Trace [] []).

Lemma bridge_answers_witness : (exists v e c, (example_post_run Namespace.example_identity).2 = Ok (Reply v) /\ logged (example_post_run Namespace.example_identity).1 = [e] /\ exit_code e = Some c) /\
  example_gone.2 = Err (ConnectionError "broken pipe").
Proof.
  pose proof (fun sent => bridge_answers example_dumps example_loads exn_str Namespace.example_identity (fun _ => Ok ("", 0)) JNull example_agent sent example_post (Trace [] [])) as H.
  assert (forall n x, content example_post n = Err x -> caught x = true) as H1 by (intros n x; unfold example_post, content; destruct (n =? 180); [done|]; by intros [= <-]).
  assert (forall s x, example_loads s = Err x -> caught x = true) as H2 by (intros s x; unfold example_loads; repeat case_match; try done; by intros [= <-]).
  assert (forall l ts x, executor example_agent = Some (l, ts) -> connection l = Err x \/ delivery l = Err x -> caught x = true) as H3 by (intros l ts x [= <- <-] [?|?]; done).
  split.
  - specialize (H (fun _ => Ok tt) H1 ltac:(done) H2 H3 ltac:(done)). fold (example_post_run Namespace.example_identity) in H.
    assert ((example_post_run Namespace.example_identity).2 = Ok (Reply example_reply)) as Er by (vm_compute; reflexivity).
    destruct (example_post_run Namespace.example_identity) as [t' r]. destruct H as (_ & _ & H & _). destruct (H eq_refl eq_refl) as [(code & _ & Hr)|(v & e & c & Hr & _ & Hl & Hc & _)].
    + cbn [snd] in Er. rewrite Er in Hr. discriminate Hr.
    + exists v, e, c. split; [exact Hr|]. split; [exact Hl|exact Hc].
  - specialize (H (fun _ => Err (ConnectionError "broken pipe")) H1 ltac:(done) H2 H3 ltac:(by intros x ans [= <-])). fold example_gone in H.
    assert (is_ok_answer example_gone.2 = false) as Er by (vm_compute; reflexivity). destruct example_gone as [t' r]. destruct H as (_ & _ & H & _). destruct (H eq_refl eq_refl) as [(code & _ & Hr)|(v & e & c & Hr & _)].
    + exact Hr.
    + cbn [snd] in Er. rewrite Hr in Er. discriminate Er.
Defined.

End Bridge.

(** ** The namespace worker and its client (lab/platform/namespace_jobs.py) *)

Module Worker.
Import Namespace(target, evidence, action, dispatch, confined).

Section Worker.
Context (dumps : json -> string) (loads : string -> res json) (str : exn -> string).
Context (identity : Z -> res string) (nodes : list (string * target)) (ev : evidence).
(** Carrying out the checked manifest: what it returns, or the exception. *)
Context (effect : action -> res json).

Definition perform (act : action) : M (list action) json := modify (fun done_ => done_ ++ [act]);; lift (effect act).

Definition execute_manifest (body : json) : M (list action) json :=
  act ← lift (dispatch identity nodes ev body);
  perform act.

(** [except (OSError, ValueError, KeyError, TypeError, RuntimeError, subprocess.TimeoutExpired)] *)
Definition manifest_caught (x : exn) : bool := Bridge.caught x || match x with RuntimeError _ => true | _ => false end.

Definition handle_job (sent : string) : M (list action) json := fun t =>
  match (raw ← lift (bounded_line 65536 sent "invalid request"); body ← lift (loads raw); execute_manifest body) t with
  | (t, Ok v) => (t, Ok (JDict [("ok", JBool true); ("result", v)]))
  | (t, Err x) => (t, if manifest_caught x then Ok (JDict [("ok", JBool false); ("error", JStr (str x))]) else Err x)
  end.

(** The client, as for the executor. *)
Definition request_job (l : Bridge.link) (body : json) : M (list action) json :=
  lift (Bridge.connection l);;
  reply ← (fun t => match handle_job (Bridge.with_newline dumps body) t with (t, Ok v) => (t, Ok (Bridge.with_newline dumps v)) | (t, Err _) => (t, Ok "") end);
  lift (Bridge.delivery l);;
  lift (loads (readline 4194304 reply)).

Definition message (v : json) : string := match v with JStr s => s | _ => "" end.

Definition job (mode filename : string) (workers : Z) : json := JDict [("mode", JStr mode); ("manifest", JStr filename); ("workers", JInt workers)].

(** [NamespaceJobs.run] *)
Definition run_job (l : Bridge.link) (mode filename : string) (workers : Z) : M (list action) json :=
  v ← request_job l (job mode filename workers);
  match v with
  | JDict d => lift (if Service.truthy (jget d "ok") then or_raise KeyError (dget d "result") else Err (RuntimeError (message (jget_or d "error" (JStr "namespace worker failed")))))
  | _ => lift (Err AttributeError)
  end.

Lemma execute_manifest_run body t : execute_manifest body t = match dispatch identity nodes ev body with Ok act => (t ++ [act], effect act) | Err x => (t, Err x) end.
Proof. unfold execute_manifest, perform, mbind, M_bind, lift, modify. by destruct (dispatch identity nodes ev body). Qed.

Lemma handle_job_run body t : Bridge.faithful dumps loads body -> str_len (dumps body) < 65536 -> handle_job (Bridge.with_newline dumps body) t =
  match execute_manifest body t with (t, Ok v) => (t, Ok (JDict [("ok", JBool true); ("result", v)])) | (t, Err x) => (t, if manifest_caught x then Ok (JDict [("ok", JBool false); ("error", JStr (str x))]) else Err x) end.
Proof.
  intros [Hl Hd] Hlen. unfold Bridge.with_newline in *. unfold handle_job. rewrite bounded_line_line by done. rewrite (proj2 (Z.ltb_lt _ _) Hlen). unfold mbind, M_bind, lift. by rewrite Hd.
Qed.

End Worker.

(** C12.  A job that the client of the worker sees done was done: when [run_job] returns a result, exactly one manifest was carried out, it passed the worker's checks, so that it touches unchanged processes of the run with
    permitted commands only, and the result is the one of that manifest; when the worker refuses the manifest, [run_job] raises and nothing is carried out. *)
Theorem job_done dumps loads str identity nodes ev effect l mode filename workers t t' r : let body := job mode filename workers in
  Bridge.faithful dumps loads body -> str_len (dumps body) < 65536 -> loads "" = Err (ValueError "") ->
  (forall v, (handle_job loads str identity nodes ev effect (Bridge.with_newline dumps body) t).2 = Ok v -> Bridge.faithful dumps loads v /\ str_len (dumps v) < 4194304) ->
  run_job dumps loads str identity nodes ev effect l mode filename workers t = (t', r) ->
  (forall v, r = Ok v -> exists act, dispatch identity nodes ev body = Ok act /\ confined identity nodes act /\ effect act = Ok v /\ t' = t ++ [act]) /\
  (forall x, dispatch identity nodes ev body = Err x -> t' = t /\ exists y, r = Err y) /\
  (forall act, act ∈ drop (length t) t' -> confined identity nodes act).
Proof.
  intros body Hf Hlen Hempty Hreply. unfold run_job, request_job, mbind, M_bind, lift. destruct (Bridge.connection l) as [[]|x].
  2: { intros [= <- <-]. split_and!; try done; [by eauto|]. rewrite drop_ge by done. intros act []%not_elem_of_nil. }
  fold body. rewrite handle_job_run in Hreply |- * by done. rewrite execute_manifest_run in Hreply |- *.
  assert (forall v, Bridge.faithful dumps loads v /\ str_len (dumps v) < 4194304 -> loads (readline 4194304 (Bridge.with_newline dumps v)) = Ok v) as Hread.
  { intros v [[H1 H2] H3]. unfold Bridge.with_newline in *. by rewrite readline_line. }
  destruct (dispatch identity nodes ev body) as [act|x] eqn:Ed.
  - assert (confined identity nodes act) as Hok by (by eapply Namespace.dispatched_confined). assert (forall act', act' ∈ drop (length t) (t ++ [act]) -> confined identity nodes act') as Hall.
    { rewrite drop_app_length. by intros act' ->%list_elem_of_singleton. }
    destruct (effect act) as [v|x] eqn:Ee; [|destruct (manifest_caught x)].
    + destruct (Bridge.delivery l) as [[]|x]; [rewrite Hread by (by apply Hreply); simpl|]; intros [= <- <-]; split_and!; try done. intros v' [= <-]. by exists act.
    + destruct (Bridge.delivery l) as [[]|y]; [rewrite Hread by (by apply Hreply); simpl|]; intros [= <- <-]; by split_and!.
    + destruct (Bridge.delivery l) as [[]|y]; [simpl; rewrite Hempty|]; intros [= <- <-]; by split_and!.
  - assert (forall act', act' ∈ drop (length t) t -> confined identity nodes act') as Hall by (rewrite drop_ge by done; intros act []%not_elem_of_nil).
    destruct (manifest_caught x); (destruct (Bridge.delivery l) as [[]|y]; [try rewrite Hread by (by apply Hreply); simpl; try rewrite Hempty|]; intros [= <- <-]; split_and!; try done; intros; split; eauto).
Qed.

(** ** Example: a link is moved into the namespace of a satellite *)

Definition job_example_dumps (v : json) : string := match v with JDict (("mode", _) :: _) => "{job}" | _ => "{reply}" end.

Definition job_example_loads (s : string) : res json :=
  if String.eqb s ("{job}" +:+ String line_end "") then Ok (job "wire" "jobs.json" 8) else if String.eqb s ("{reply}" +:+ String line_end "") then Ok (JDict [("ok", JBool true); ("result", JInt 1)])
  else Err (ValueError "").

Definition job_example_run : list action * res json :=
  run_job job_example_dumps job_example_loads exn_str Namespace.example_identity Namespace.example_nodes Namespace.example_evidence (fun _ => Ok (JInt 1)) (Bridge.Link (Ok tt) (Ok tt)) "wire" "jobs.json" 8 [].

Lemma job_done_witness : job_example_run.2 = Ok (JInt 1) /\ exists act, confined Namespace.example_identity Namespace.example_nodes act /\ job_example_run.1 = [act].
Proof.
  destruct (job_done job_example_dumps job_example_loads exn_str Namespace.example_identity Namespace.example_nodes Namespace.example_evidence (fun _ => Ok (JInt 1)) (Bridge.Link (Ok tt) (Ok tt)) "wire" "jobs.json" 8 []
    job_example_run.1 job_example_run.2) as (H & _ & _).
  - split; vm_compute; reflexivity.
  - vm_compute. reflexivity.
  - reflexivity.
  - intros v Hv. vm_compute in Hv. injection Hv as <-. split; [split|]; vm_compute; reflexivity.
  - reflexivity.
  - split; [vm_compute; reflexivity|]. destruct (H (JInt 1)) as (act & _ & H2 & _ & H4); [vm_compute; reflexivity|]. exists act. split; [exact H2|exact H4].
Defined.

End Worker.
