(* ===== verification/Dashboard.v ===== *)
(** * Dashboard: what a request to the dashboard changes (frontend/server.py)

    [do_POST] with the operations behind it: it checks and starts a session, stops it, or scales the offered rate of its workloads.  The state is the world of the
    session service and the rate files.  The file system is an argument: [resolve] follows symbolic links, [read_json] reads a report; so are the answers of
    the kernel to the new process and to the signal, and what the other processes do while [start] waits for the supervisor. *)

From S2P Require Import Prelude Effects Text Channel Regex Traffic Launch Service Http.
#[local] Open Scope Z_scope.
#[local] Open Scope list_scope.

Module Dashboard.
Import Regex(re, Chr, cats, plus, lit, fullmatch).

Record dashboard := Board { session : Service.world; rates : list (string * json) }.

Record environment := Environment {
  templates : Launch.templates;
  spawn : option (Z * string);
  meanwhile : Service.world -> Service.world;
  kill : res unit;
  resolve : string -> list string;
  read_json : string -> json;
  saved : res unit;
  now : Q
}.

Section Dashboard.
Context (root : string) (str : exn -> string) (env : environment).

(** [path.resolve().is_relative_to(root.resolve())] *)
Definition within (base path : string) : bool := bool_decide (resolve env base `prefix_of` resolve env path).

(** ** [set_workload_rate] *)

Definition alphanumeric (c : ascii) : bool := ((97 <=? code c) && (code c <=? 122)) || is_digit c.

(** [sf-unified-[a-z0-9]+] *)
Definition run_re : re := cats [lit "sf-unified-"; plus (Chr alphanumeric)].

Definition is_number (v : json) : bool := match v with JInt _ | JFloat _ | JNonFinite => true | _ => false end.

(** Whether the scale is refused: [type(scale) not in (int, float) or not math.isfinite(scale) or not .1 <= scale <= 1].  The double nearest to .1 is above it and the
    next one below is not, so comparing with the exact value gives the same answer. *)
Definition bad_scale (v : json) : res bool :=
  if negb (is_number v) then Ok true else
  let* finite := isfinite v in
  Ok (match number v with Some q => negb finite || negb (Qle_bool (1 # 10) q && Qle_bool q 1) | None => true end).

(** [set(body) == set(keys)] *)
Definition keys_are (d : list (string * json)) (keys : list string) : bool := forallb (dhas d) keys && forallb (fun k => mem k keys) (dkeys d).

(** [value.get(..)]: only a dictionary has it. *)
Definition as_dict (v : json) : res (list (string * json)) := match v with JDict d => Ok d | _ => Err AttributeError end.

Definition folder (run : string) : string := root +:+ "/lab/unified/artifacts/" +:+ run +:+ "/workloads".

Definition rate_request (body : json) : res (json * json) :=
  let bad := ValueError "请求必须包含 run_id 和 scale。" in
  match body with
  | JDict d =>
      raise bad when negb (keys_are d ["run_id"; "scale"]) ;;
      let* refused := bad_scale (jget d "scale") in
      raise (ValueError "在线速率比例应为 0.1–1；增加上限需要重新配置业务与容量预留。") when (refused : bool) ;;
      Ok (jget d "run_id", jget d "scale")
  | _ => Err bad
  end.

(** The run that may be scaled: the active one. *)
Definition current_run (status : list (string * json)) (run : json) : res string :=
  match run with
  | JStr r => raise (ValueError "只能调节当前正在运行的会话。") when
      negb (fullmatch run_re r) || negb (Launch.str_in (jget status "run_id") [r]) || negb (Service.truthy (jget status "active")) ;; Ok r
  | _ => Err (ValueError "只能调节当前正在运行的会话。")
  end.

Definition new_rates (status : list (string * json)) (run scale : json) : res (string * json) :=
  let* r := current_run status run in
  raise (ValueError "业务目录不在当前工程中。") when negb (within root (folder r)) ;;
  let* catalog := as_dict (read_json env (folder r +:+ "/catalog.json")) in
  raise (ValueError "当前运行尚未启动并行业务。") when negb (Launch.str_in (jget catalog "run_id") [r]) || negb (Service.truthy (jget catalog "flows")) ;;
  let* token := or_raise KeyError (dget catalog "token") in
  Ok (r, JDict [("run_id", JStr r); ("token", token); ("scale", scale); ("updated_at", JFloat (now env))]).

Definition set_workload_rate (body : json) : M dashboard json :=
  rs ← lift (rate_request body);
  d ← get;
  rv ← lift (new_rates (Service.w_status (session d)) rs.1 rs.2);
  lift (saved env);;
  modify (fun d => Board (session d) (dset (rates d) (folder rv.1 +:+ "/rates.json") rv.2));;
  mret (JDict [("run_id", JStr rv.1); ("scale", rs.2); ("state", JStr "requested")]).

(** ** [do_POST] *)

Definition posts : list string := ["/api/runtime/start"; "/api/runtime/stop"; "/api/runtime/workload-rate"; "/api/runtime/validate"].

(** A page of another origin cannot send JSON here. *)
Definition foreign (q : http) : bool :=
  match header q "Origin" with Some o => negb (String.eqb o "") && negb (String.eqb o ("http://" +:+ header_or q "Host" "")) | None => false end
  || negb (bool_decide (header q "Content-Type" = Some "application/json")).

Definition failure (message : string) : json := JDict [("error", JStr message)].

(** [Service.start] and [Service.stop], with the status they return *)
Definition start (cfg : option json) : M dashboard json := fun d =>
  match Service.start cfg (templates env) (spawn env) (session d) with
  | (w, Ok _) => let w := meanwhile env w in (Board w (rates d), Ok (JDict (Service.w_status w)))
  | (w, Err x) => (Board w (rates d), Err x)
  end.

Definition signal (p : Z) (w : Service.world) : Service.world :=
  Service.World (Service.files w) (Service.lock w) (Service.procs w) (Service.past w) (Service.sups w) (Service.ended w) (p :: Service.term w).

Definition stop : M dashboard json := fun d =>
  match Service.stop (session d) with
  | (v, None) => (d, Ok (JDict v))
  | (v, Some p) => match kill env with Ok _ => (Board (signal p (session d)) (rates d), Ok (JDict v)) | Err x => (d, Err x) end
  end.

(** [except (ValueError, UnicodeError)], [except OSError] *)
Definition is_os_error (x : exn) : bool := match x with OSError _ | ConnectionError _ | TimeoutError | InterruptedError _ => true | _ => false end.

Definition rate_failed (x : exn) : M dashboard (Z * json) :=
  match x with ValueError _ => mret (400, failure (str x)) | _ => if is_os_error x then mret (500, failure "无法保存业务速率，请检查本轮文件权限。") else lift (Err x) end.

Definition action_failed (x : exn) : M dashboard (Z * json) :=
  match x with ValueError _ => mret (400, failure (str x)) | RuntimeError _ => mret (409, failure (str x)) | _ => if is_os_error x then mret (500, failure (str x)) else lift (Err x) end.

(** [try: m  except: handler] *)
Definition catching {A} (m : M dashboard A) (handler : exn -> M dashboard A) : M dashboard A := fun d =>
  match m d with (d, Ok v) => (d, Ok v) | (d, Err x) => handler x d end.

Definition rate_body (q : http) : res json :=
  let* length := content_length q in
  raise (ValueError "请求体大小应为 1–512 字节。") when negb ((1 <=? length) && (length <=? 512)) ;;
  content q length.

Definition action_body (q : http) : res (list (string * json)) :=
  let* length := content_length q in
  raise (ValueError "启动请求不得超过 16 KiB") when negb ((0 <=? length) && (length <=? 16384)) ;;
  let* body := (if length =? 0 then Ok (JDict []) else content q length) in
  match body with
  | JDict d => raise (ValueError "请求仅接受 configuration 字段") when existsb (fun k => negb (String.eqb k "configuration")) (dkeys d) ;; Ok d
  | _ => Err (ValueError "请求仅接受 configuration 字段")
  end.

(** [self.path.rsplit('/',1)[-1]] *)
Definition action (q : http) : string := List.last (split_on slash (path q)) "".

Definition act (q : http) (body : list (string * json)) : M dashboard (Z * json) :=
  if String.eqb (action q) "validate" then v ← lift (Launch.validate (jget body "configuration")); mret (200, JDict [("configuration", JDict v)])
  else if String.eqb (action q) "start" then
    match dget body "configuration" with
    | Some raw => v ← lift (Launch.validate raw); r ← start (Some (JDict v)); mret (202, r)
    | None => r ← start None; mret (202, r)
    end
  else if Service.truthy (JDict body) then lift (Err (ValueError "停止请求不接受启动配置"))
  else r ← stop; mret (202, r).

Definition post_rate (q : http) : M dashboard (Z * json) := body ← lift (rate_body q); r ← set_workload_rate body; mret (202, r).

Definition post_action (q : http) : M dashboard (Z * json) := body ← lift (action_body q); act q body.

Definition do_POST (q : http) : M dashboard (Z * json) :=
  if negb (mem (path q) posts) then mret (405, failure "该接口不接受写入请求。")
  else if foreign q then mret (403, failure "运行操作只接受同源 JSON 请求。")
  else if String.eqb (path q) "/api/runtime/workload-rate" then catching (post_rate q) rate_failed
  else catching (post_action q) action_failed.

(** ** The worker's side of the rate file (lab/live/workload_traffic.py) *)

(** The fields [Worker.reload_rate] looks at. *)
Definition read_rates (v : json) : option Traffic.rate_file :=
  match v with
  | JDict d => match jget d "run_id", jget d "token" with JStr r, JStr t => Some (Traffic.RateFile r t (number (jget d "scale"))) | _, _ => None end
  | _ => None
  end.

(** ** What a request changes *)

Lemma catching_run {A} (m : M dashboard A) h d : (forall x d, (h x d).1 = d) -> (catching m h d).1 = (m d).1.
Proof. intros Hh. unfold catching. by destruct (m d) as [d' [v|x]]; [|rewrite Hh]. Qed.

Lemma rate_failed_keeps x d : (rate_failed x d).1 = d.
Proof. by destruct x. Qed.

Lemma action_failed_keeps x d : (action_failed x d).1 = d.
Proof. by destruct x. Qed.

Lemma post_run q d : (do_POST q d).1 = if negb (mem (path q) posts) || foreign q then d else if String.eqb (path q) "/api/runtime/workload-rate" then (post_rate q d).1 else (post_action q d).1.
Proof.
  unfold do_POST. destruct (negb _); [done|]. destruct (foreign q); [done|]. simpl. destruct (String.eqb _ _); apply catching_run; [apply rate_failed_keeps|apply action_failed_keeps].
Qed.

Lemma rate_session body : keeps session (set_workload_rate body).
Proof. unfold set_workload_rate. auto 10 with keeps. Qed.

Lemma post_rate_session q : keeps session (post_rate q).
Proof. unfold post_rate. pose proof rate_session. auto with keeps. Qed.

Lemma act_rates q body : keeps rates (act q body).
Proof.
  unfold act. assert (forall cfg, keeps rates (start cfg)) as Hs. { intros cfg d. unfold start. by destruct (Service.start _ _ _ _) as [w [|]]. }
  assert (keeps rates stop) as Ht. { intros d. unfold stop. destruct (Service.stop _) as [v [p|]]; [|done]. by destruct (kill env). }
  repeat case_match; auto 10 with keeps.
Qed.

Section Session.
Context (is_runtime : Z -> bool).

(** The kernel gives the supervisor a process id and a start time no process has had, and while [start] waits only processes of the session and others take steps. *)
Definition orderly (d : dashboard) : Prop :=
  (forall p i, spawn env = Some (p, i) -> p <> 0 /\ dget (Service.procs (session d)) p = None /\ (p, i) ∉ Service.past (session d)) /\
  (forall w, Service.reachable is_runtime w -> Service.reachable is_runtime (meanwhile env w)).

Lemma start_reachable cfg d : orderly d -> Service.reachable is_runtime (session d) -> Service.reachable is_runtime (session (start cfg d).1).
Proof.
  intros [Hp Hm] Hr. unfold start. destruct (Service.start cfg (templates env) (spawn env) (session d)) as [w [[]|x]] eqn:E.
  - cbn [fst session]. apply Hm. destruct (spawn env) as [[p i]|].
    + destruct (Hp p i eq_refl) as (H1 & H2 & H3). eapply Service.r_step; [done|]. by eapply Service.st_start.
    + revert E. unfold Service.start. repeat case_match; try done; by intros [= <-].
  - cbn [fst session]. revert E. unfold Service.start. repeat case_match; try done; by intros [= <- _].
Qed.

Lemma stop_reachable d : Service.reachable is_runtime (session d) -> Service.reachable is_runtime (session (stop d).1).
Proof.
  intros Hr. unfold stop. destruct (Service.stop (session d)) as [v [p|]] eqn:E; [|done]. destruct (kill env); [|done]. cbn [fst session]. eapply Service.r_step; [done|]. apply Service.st_stop. by rewrite E.
Qed.

Lemma bind_mret_fst {A B} (m : M dashboard A) (f : A -> B) d : ((m ≫= fun a => mret (f a)) d).1 = (m d).1.
Proof. unfold mbind, M_bind. by destruct (m d) as [d' [a|x]]. Qed.

Lemma act_reachable q body d : orderly d -> Service.reachable is_runtime (session d) -> Service.reachable is_runtime (session (act q body d).1).
Proof.
  intros Ho Hr. unfold act. destruct (String.eqb _ "validate"). { unfold mbind, M_bind, lift. by destruct (Launch.validate _). }
  destruct (String.eqb _ "start").
  - destruct (dget body "configuration") as [raw|].
    + unfold mbind at 1, M_bind at 1, lift. destruct (Launch.validate raw); [|done]. rewrite bind_mret_fst. by apply start_reachable.
    + rewrite bind_mret_fst. by apply start_reachable.
  - destruct (Service.truthy _); [done|]. rewrite bind_mret_fst. by apply stop_reachable.
Qed.

Lemma post_action_reachable q d : orderly d -> Service.reachable is_runtime (session d) -> Service.reachable is_runtime (session (post_action q d).1).
Proof. intros Ho Hr. unfold post_action, mbind, M_bind, lift. destruct (action_body q); [|done]. by apply act_reachable. Qed.

End Session.

Lemma foreign_false q : foreign q = false -> header q "Content-Type" = Some "application/json" /\ forall o, header q "Origin" = Some o -> o = "" \/ o = "http://" +:+ header_or q "Host" "".
Proof.
  unfold foreign. intros [H1 H2%negb_false_iff%bool_decide_eq_true]%orb_false_iff. split; [done|]. intros o E. rewrite E in H1. apply andb_false_iff in H1 as [H1|H1]; apply negb_false_iff, String.eqb_eq in H1; auto.
Qed.

(** A configuration reaches the supervisor only through the checks. *)
Lemma start_accepted q body raw d d' v : action q = "start" -> dget body "configuration" = Some raw -> act q body d = (d', Ok (202, v)) ->
  exists cfg, Launch.validate raw = Ok cfg /\ Launch.launchable cfg /\ Service.lock (session d) = None.
Proof.
  intros Hs Hb. unfold act. rewrite Hs, Hb. change (String.eqb "start" "validate") with false. change (String.eqb "start" "start") with true. cbn iota. unfold mbind, M_bind, lift.
  destruct (Launch.validate raw) as [cfg|x] eqn:Ev; [|done]. apply Launch.validate_Ok in Ev as Hl. destruct Hl as [-> Hl]. unfold start, Service.start. rewrite Ev. simpl_res.
  destruct (Service.lock (session d)) eqn:El; [done|]. intros _. by exists cfg.
Qed.

(** The rate file is written last, so a request that fails leaves it alone. *)
Lemma set_workload_rate_run body d d' r : set_workload_rate body d = (d', r) ->
  match r with
  | Err _ => d' = d
  | Ok v => exists run scale file, rate_request body = Ok (run, scale) /\ new_rates (Service.w_status (session d)) run scale = Ok file /\
      d' = Board (session d) (dset (rates d) (folder file.1 +:+ "/rates.json") file.2) /\ v = JDict [("run_id", JStr file.1); ("scale", scale); ("state", JStr "requested")]
  end.
Proof.
  unfold set_workload_rate, mbind, M_bind, lift, get, modify. destruct (rate_request body) as [[run scale]|x]; [|by intros [= <- <-]].
  cbn [fst snd]. destruct (new_rates _ run scale) as [file|x] eqn:En; [|by intros [= <- <-]]. destruct (saved env) as [[]|x]; [|by intros [= <- <-]]. intros [= <- <-]. by exists run, scale, file.
Qed.

Lemma rate_request_Ok body run scale : rate_request body = Ok (run, scale) -> exists d q, body = JDict d /\ run = jget d "run_id" /\ scale = jget d "scale" /\ number scale = Some q /\ (1 # 10 <= q)%Q /\ (q <= 1)%Q.
Proof.
  unfold rate_request. destruct body as [| | | | | | |d]; try done. split_guard. rewrite bind_Ok. intros (refused & Hr & H). destruct refused; [done|]. injection H as <- <-. exists d. revert Hr. unfold bad_scale.
  destruct (is_number _); [|done]. cbn [negb]. rewrite bind_Ok. intros (fin & _ & [= H]). destruct (number _) as [q|]; [|done]. exists q. apply orb_false_iff in H as [_ H%negb_false_iff].
  apply andb_true_iff in H as [H1%Qle_bool_iff H2%Qle_bool_iff]. by split_and!.
Qed.

Lemma new_rates_Ok st run scale file : new_rates st run scale = Ok file -> exists r token, run = JStr r /\ file = (r, JDict [("run_id", JStr r); ("token", token); ("scale", scale); ("updated_at", JFloat (now env))]) /\
  jget st "run_id" = JStr r /\ Service.truthy (jget st "active") = true /\ fullmatch run_re r = true /\ within root (folder r) = true /\
  exists catalog, read_json env (folder r +:+ "/catalog.json") = JDict catalog /\ dget catalog "token" = Some token.
Proof.
  unfold new_rates, current_run. destruct run as [| | | | |r| |]; try done. rewrite bind_Ok. intros (r' & H & Hrest). revert H. split_guard. intros [= <-]. revert Hrest. split_guard. rewrite bind_Ok.
  intros (cat & Hcat & H). revert H. split_guard. rewrite bind_Ok. intros (token & Htok%or_raise_Ok & [= <-]). exists r, token.
  apply orb_false_iff in Heqb as [[H1%negb_false_iff H2%negb_false_iff]%orb_false_iff H3%negb_false_iff]. apply negb_false_iff in Heqb0. split_and!; try done.
  - apply Service.str_in_true in H2 as (s & Hs & ->%list_elem_of_singleton). done.
  - exists cat. split; [|done]. by destruct (read_json _ _); try done; injection Hcat as ->.
Qed.

End Dashboard.

(** C13.  What a request can change: only one of the four operations, sent as JSON from the page itself (no Origin, or the Origin of the Host), changes anything; checking a configuration changes nothing, scaling
    a rate leaves the session alone, and starting and stopping leave the rates alone.  Whatever the request is, the session stays in a state the service can reach by its own steps, so that everything shown
    of the service holds under any sequence of requests; and a configuration is accepted only if it is launchable and no session holds the lock. *)
Theorem post_guarded is_runtime root str env q d : orderly env is_runtime d -> Service.reachable is_runtime (session d) ->
  let '(d', r) := do_POST root str env q d in
  Service.reachable is_runtime (session d') /\
  (d' <> d -> path q ∈ ["/api/runtime/start"; "/api/runtime/stop"; "/api/runtime/workload-rate"] /\ header q "Content-Type" = Some "application/json" /\
    forall o, header q "Origin" = Some o -> o = "" \/ o = "http://" +:+ header_or q "Host" "") /\
  (path q = "/api/runtime/workload-rate" -> session d' = session d) /\ (path q <> "/api/runtime/workload-rate" -> rates d' = rates d) /\
  (forall body raw v, path q = "/api/runtime/start" -> action_body q = Ok body -> dget body "configuration" = Some raw -> r = Ok (202, v) ->
    exists cfg, Launch.validate raw = Ok cfg /\ Launch.launchable cfg /\ Service.lock (session d) = None).
Proof.
  intros Ho Hr. pose proof (post_run root str env q d) as Hrun. destruct (do_POST root str env q d) as [d' r] eqn:E. cbn [fst] in Hrun. split_and!.
  - rewrite Hrun. destruct (_ || _); [done|]. destruct (String.eqb _ _); [by rewrite post_rate_session|by apply post_action_reachable].
  - intros Hne. destruct (_ || _) eqn:Eg; [done|]. apply orb_false_iff in Eg as [Hm%negb_false_iff Hf%foreign_false]. unfold mem in Hm. apply bool_decide_eq_true in Hm. split; [|done].
    unfold posts in Hm. rewrite !elem_of_cons in Hm. rewrite !elem_of_cons. destruct Hm as [H|[H|[H|[H|[]%not_elem_of_nil]]]]; [by auto..|]. exfalso. apply Hne. rewrite Hrun, H. change (String.eqb "/api/runtime/validate" "/api/runtime/workload-rate") with false. cbn iota.
    unfold post_action, mbind, M_bind, lift. destruct (action_body q) as [body|]; [|done]. unfold act, action. rewrite H. change (String.eqb (List.last (split_on slash "/api/runtime/validate") "") "validate") with true. cbn iota.
    unfold mbind, M_bind, lift. by destruct (Launch.validate _).
  - intros Hp. rewrite Hrun, Hp. clear Hrun. destruct (_ || _); [done|]. rewrite String.eqb_refl. apply post_rate_session.
  - intros Hp%String.eqb_neq. rewrite Hrun, Hp. clear Hrun. destruct (_ || _); [done|]. unfold post_action, mbind, M_bind, lift. destruct (action_body q) as [body|]; [|done]. apply act_rates.
  - intros body raw v Hp Hb Hc ->. revert E. unfold do_POST. rewrite Hp. destruct (foreign q); [done|]. change (String.eqb _ "/api/runtime/workload-rate") with false. change (negb (mem _ posts)) with false. cbn iota. unfold catching, post_action, mbind at 1, M_bind at 1, lift at 1. rewrite Hb.
    destruct (act env q body d) as [d1 [w|x]] eqn:Ea; [|destruct x; done]. intros [= <- ->]. eapply start_accepted; [|done|exact Ea]. unfold action. by rewrite Hp.
Qed.

(** C22.  A new rate reaches exactly the workers it is for: a request is answered 202 exactly if it writes, and then it writes one rate file, of the run that it names and that is active, with the scale that it asks for, between a tenth and one, in a folder of the project; a worker that reads the file
    takes that scale if the run and the token of the catalog are its own, and otherwise keeps the scale it has.  Any other answer means that nothing was written. *)
Theorem rate_reaches_worker root str env q d d' r : do_POST root str env q d = (d', r) -> path q = "/api/runtime/workload-rate" ->
  (forall v, r <> Ok (202, v)) /\ d' = d \/
  exists body run catalog token scale file, rate_body q = Ok (JDict body) /\ jget body "run_id" = JStr run /\ number (jget body "scale") = Some scale /\
    r = Ok (202, JDict [("run_id", JStr run); ("scale", jget body "scale"); ("state", JStr "requested")]) /\ read_json env (folder root run +:+ "/catalog.json") = JDict catalog /\ dget catalog "token" = Some token /\ rates d' = dset (rates d) (folder root run +:+ "/rates.json") file /\ session d' = session d /\
    jget (Service.w_status (session d)) "run_id" = JStr run /\ Service.truthy (jget (Service.w_status (session d)) "active") = true /\ within env root (folder root run) = true /\
    ((1 # 10) <= scale)%Q /\ (scale <= 1)%Q /\
    forall run' token' old, Traffic.reload_rate run' token' (read_rates file) old = if String.eqb run' run && Launch.str_in token [token'] then scale else old.
Proof.
  intros H Hp. revert H. unfold do_POST. rewrite Hp, String.eqb_refl. destruct (negb _); [intros [= <- <-]; left; by split|]. destruct (foreign q); [intros [= <- <-]; left; by split|].
  unfold catching, post_rate, mbind, M_bind, lift. destruct (rate_body q) as [body|x] eqn:Eb; [|destruct x; intros [= <- <-]; left; by split].
  destruct (set_workload_rate root env body d) as [d1 [v|x]] eqn:Es; apply set_workload_rate_run in Es.
  - destruct Es as (run & scale & file & H1 & H2 & -> & ->). intros [= <- <-]. right. apply rate_request_Ok in H1 as (bd & sc & -> & -> & -> & Hsc & Hlo & Hhi). apply new_rates_Ok in H2 as (r' & token & Er & -> & E1 & E2 & _ & E3 & cat & Ec & Et).
    exists bd, r', cat, token, sc, (JDict [("run_id", JStr r'); ("token", token); ("scale", jget bd "scale"); ("updated_at", JFloat (now env))]). split_and!; try done. intros run' token' old. unfold read_rates. change (jget _ "run_id") with (JStr r'). change (jget _ "token") with token. change (jget (_ :: _) "scale") with (jget bd "scale"). rewrite Hsc.
    destruct token as [| | | | |tk| |]; try by rewrite andb_false_r. unfold Traffic.reload_rate, Launch.str_in, mem. rewrite (proj2 (Qle_bool_iff _ _) Hlo), (proj2 (Qle_bool_iff _ _) Hhi), !andb_true_r.
    rewrite (String.eqb_sym r' run'). destruct (String.eqb_spec tk token') as [->|Ht]; [by rewrite bool_decide_true by set_solver|by rewrite bool_decide_false by set_solver].
  - subst d1. destruct x; intros [= <- <-]; left; by split.
Qed.

(** ** Examples *)

Definition example_env : environment :=
  Environment Service.no_templates (Some (101, "6001")) (fun w => w) (Ok tt) (fun s => split_on slash s)
    (fun _ => JDict [("run_id", JStr "sf-unified-1"); ("token", JStr "c0ffee"); ("flows", JList [JNull])]) (Ok tt) 0.

Definition example_headers (h : string) : option string :=
  if String.eqb h "Origin" then Some "http://127.0.0.1:8090" else if String.eqb h "Host" then Some "127.0.0.1:8090" else if String.eqb h "Content-Type" then Some "application/json"
  else if String.eqb h "Content-Length" then Some "40" else None.

Definition example_stop : http := Http "/api/runtime/stop" example_headers (fun _ => Ok (JDict [])).

Definition example_stopped : dashboard * res (Z * json) := do_POST "/opt/sf" exn_str example_env example_stop (Board Service.running []).

(** The page asks to stop: the supervisor is signalled, in a state of the service. *)
Lemma post_guarded_witness : Service.term (session example_stopped.1) = [100] /\ Service.reachable Service.a_runtime (session example_stopped.1) /\ rates example_stopped.1 = [].
Proof.
  pose proof (post_guarded Service.a_runtime "/opt/sf" exn_str example_env example_stop (Board Service.running [])) as H. fold example_stopped in H. split; [vm_compute; reflexivity|].
  destruct example_stopped as [d' r]. destruct H as (H1 & _ & _ & H2 & _).
  - split; [|done]. intros p i [= <- <-]. split_and!; [done|vm_compute; reflexivity|]. change ((101, "6001") ∉ [(100, "5001")]). intros H'%list_elem_of_singleton. done.
  - apply Service.running_reachable.
  - split; [exact H1|]. apply H2. done.
Defined.

(** A page of another origin changes nothing. *)
Example example_foreign : (do_POST "/opt/sf" exn_str example_env (Http "/api/runtime/stop" (fun h => if String.eqb h "Origin" then Some "http://evil.example" else example_headers h) (fun _ => Ok (JDict []))) (Board Service.running [])).1
  = Board Service.running [].
Proof. vm_compute. reflexivity. Qed.

Definition example_world : Service.world :=
  Service.World (Service.Store (Some (Service.Owner (Some 100) (Some "5001") (Some "77") JNull None)) (Some [("session", JStr "77"); ("run_id", JStr "sf-unified-1"); ("phase", JStr "running")]) None None false)
    (Some 100) [(100, "5001")] [(100, "5001")] [] [] [].

Definition example_rate (scale : json) : http :=
  Http "/api/runtime/workload-rate" example_headers (fun _ => Ok (JDict [("run_id", JStr "sf-unified-1"); ("scale", scale)])).

Definition example_rated : dashboard * res (Z * json) := do_POST "/opt/sf" exn_str example_env (example_rate (JFloat (1 # 4))) (Board example_world []).

Lemma rate_reaches_worker_witness : exists file, rates example_rated.1 = [("/opt/sf/lab/unified/artifacts/sf-unified-1/workloads/rates.json", file)] /\ Traffic.reload_rate "sf-unified-1" "c0ffee" (read_rates file) 1 = (1 # 4)%Q.
Proof.
  destruct (rate_reaches_worker "/opt/sf" exn_str example_env (example_rate (JFloat (1 # 4))) (Board example_world []) example_rated.1 example_rated.2) as [[H _]|(body & run & cat & token & scale & file & _ & _ & _ & _ & _ & _ & H & _ & Hrun & _)].
  - reflexivity.
  - reflexivity.
  - exfalso. eapply H. vm_compute. reflexivity.
  - assert (run = "sf-unified-1") as -> by (vm_compute in Hrun; congruence). exists file. split; [rewrite H; reflexivity|]. vm_compute in H. injection H as H. rewrite <- H. vm_compute. reflexivity.
Defined.

(** An integer that no float can hold passes the type check and leaves the handler as an [OverflowError]: the request gets no answer. *)
Lemma huge_scale_unanswered : (do_POST "/opt/sf" exn_str example_env (example_rate (JInt (10 ^ 400))) (Board example_world [])).2 = Err OverflowError.
Proof. vm_compute. reflexivity. Qed.

End Dashboard.
