(* ===== verification/Library.v ===== *)
(** * Library: the files the dashboard shows (frontend/server.py)

    Which reports count as runs, which documents and evidence the page lists, and which file a request may read.  The file system is an argument: [resolve] follows
    symbolic links, [read_json] reads a report and gives an empty dictionary where there is none, [globbed] are the report
    files found below the root.  Fields of the two manifests have the types the code relies on; others raise [TypeError]. *)

From S2P Require Import Prelude Text Channel Regex Launch Service Dashboard.
#[local] Open Scope Z_scope.
#[local] Open Scope list_scope.

Module Library.
Import Regex(fullmatch).
Import Dashboard(run_re, as_dict).

Record site := Site { root : string; resolve : string -> list string; is_file : string -> bool; read_json : string -> json; globbed : list string; index_lines : list string; status : list (string * json) }.

Section Site.
Context (s : site).

(** [root / relative]: an absolute path replaces the root. *)
Definition under (relative : string) : string := if startswith relative "/" then relative else root s +:+ "/" +:+ relative.

Definition within (base path : string) : bool := bool_decide (resolve s base `prefix_of` resolve s path).

(** ** [runs] *)

Record run := Run { run_id : string; run_path : string; run_success : json; physical : bool; generated_at : json }.

(** [v == 120] *)
Definition is_120 (v : json) : bool := match v with JInt z => z =? 120 | JFloat q => Qeq_bool q 120 | _ => false end.

(** [re.fullmatch(r'sf-unified-[a-z0-9]+', v)] *)
Definition is_run_id (v : json) : res bool := match v with JStr i => Ok (fullmatch run_re i) | _ => Err TypeError end.

(** The run a report describes, if it is one of a 120-satellite platform inside the project. *)
Definition run_of (path : string) : res (option run) :=
  let* value := as_dict (read_json s (under path)) in
  if negb (is_120 (jget value "satellites")) then Ok None else
  let* ok := is_run_id (jget_or value "run_id" (JStr "")) in
  if negb ok || negb (within (root s) (under path)) then Ok None else
  Ok (match jget value "run_id" with
      | JStr i => Some (Run i path (jget_or value "success" (JBool false)) (Service.truthy (jget value "physical_model")) (jget_or value "generated_at" (JStr "")))
      | _ => None
      end).

Definition add_run (found : list (string * run)) (path : string) : res (list (string * run)) :=
  let* r := run_of path in
  Ok (match r with Some r => dset found (run_id r) r | None => found end).

Definition runs : res (list run) := let* found := foldM add_run [] (globbed s) in Ok (dvalues found).

(** ** [source_files] *)

Record document := Document { d_path : string; category : string; role : string }.

(** The characters before the first [c], and what follows from it on. *)
Fixpoint span (c : ascii) (t : string) : string * string :=
  match t with "" => ("", "") | String a t' => if Ascii.eqb a c then ("", t) else let '(x, y) := span c t' in (String a x, y) end.

(** The text before the first occurrence of [p]. *)
Fixpoint before_text (p t : string) : option string :=
  if startswith t p then Some "" else match t with "" => None | String a t' => match before_text p t' with Some x => Some (String a x) | None => None end end.

Definition after_text (p t : string) : option string := if startswith t p then Some (drop_str (String.length p) t) else None.

(** The groups of [\| \[([^]]+)\]\(\.\./([^)]+)\) \| (.*?) \|]: a class that excludes the character after it ends at its first occurrence. *)
Definition parse_row (line : string) : option (string * string * string) :=
  match after_text "| [" line with
  | None => None
  | Some t =>
      let '(name, t) := span (ch 93) t in
      match after_text "](../" t with
      | None => None
      | Some t =>
          let '(target, t) := span (ch 41) t in
          match after_text ") | " t with
          | None => None
          | Some t => match before_text " |" t with Some r => if String.eqb name "" || String.eqb target "" then None else Some (name, target, r) | None => None end
          end
      end
  end.

(** [urllib.parse.unquote] *)
Fixpoint unquote (t : string) : string :=
  match t with
  | String p (String a (String b t') as rest) =>
      match (code p =? 37)%Z, hexval a, hexval b with true, Some x, Some y => String (ch (x * 16 + y)) (unquote t') | _, _, _ => String p (unquote rest) end
  | String p t' => String p (unquote t')
  | "" => ""
  end.

Definition read_line (a : string * list document) (line : string) : string * list document :=
  let category_ := if startswith line "## " then drop_str 3 line else a.1 in
  (category_, match parse_row line with Some (_, target, r) => a.2 ++ [Document (unquote target) category_ r] | None => a.2 end).

Definition has_path (l : list document) (p : string) : bool := existsb (fun d => String.eqb (d_path d) p) l.

Definition guides : list string := ["120-satellite-learning-guide.md"; "120-satellite-file-index.md"; "120-satellite-quickstart.md"; "remaining-systems.md"].

Definition live_sources : list string :=
  ["lab/live/README.md"; "lab/live/model.py"; "lab/live/runtime.py"; "lab/live/service.py"; "lab/live/storage.py"; "lab/live/heartbeat.py"; "lab/live/workloads.py"; "lab/live/workload_model.py"; "lab/live/workload_traffic.py";
   "lab/live/workload_capture.py"; "lab/live/workload_snapshot.py"; "lab/live/launch.py"; "lab/live/evpn_speaker.py"; "lab/live/evpn_codec.py"; "lab/live/evpn_l2.py"; "lab/live/l2_probe.py"; "lab/live/check_evpn_srv6.py";
   "lab/live/check_evpn_system.py"; "lab/live/validate_workloads.py"; "scenarios/constellations/live-workloads.json"; "scenarios/constellations/leo-120-global.config.json"].

Definition add_guide (l : list document) (name : string) : list document :=
  let relative := "docs/" +:+ name in if has_path l relative then l else l ++ [Document relative "学习资料" "完整流程、证据和学习指引"].

Definition add_live (l : list document) (relative : string) : list document :=
  if is_file s (under relative) && negb (has_path l relative) then l ++ [Document relative "实时运行主线" "常驻运行、动态轨道与链路、实时状态和生命周期"] else l.

Definition source_files : list document := fold_left add_live live_sources (fold_left add_guide guides (fold_left read_line (index_lines s) ("", [])).2).

(** ** [capability_catalog] *)

Record gate := Gate { g_path : string; present : bool; g_passed : bool; g_checks : list json }.

Definition iterate_list (v : json) : res (list json) := match v with JList l => Ok l | _ => Err TypeError end.

(** [all(bool(checks.get(k)) for k in requested)] of names that are strings *)
Definition supported (checks : json) (requested : list json) : bool :=
  match checks with JDict d => forallb (fun k => match k with JStr n => Service.truthy (jget d n) | _ => false end) requested | _ => false end.

Definition view_gate (g : json) : res gate :=
  let* d := as_dict g in
  let* path := (match jget_or d "report" (JStr "") with JStr p => Ok p | _ => Err TypeError end) in
  let* data := as_dict (if negb (String.eqb path "") && within (root s) (under path) then read_json s (under path) else JDict []) in
  let* requested := iterate_list (jget_or d "checks" (JList [])) in
  Ok (Gate path (Service.truthy (JDict data)) (match jget data "success" with JBool true => supported (jget_or data "checks" (JDict [])) requested | _ => false end) requested).

Record capability := Capability { c_evidence : list json; c_gates : list gate }.

Definition entry_id (e : list (string * json)) : res string := match dget e "id" with Some (JStr i) => Ok i | Some _ => Err TypeError | None => Err KeyError end.

Definition entries_of (v : json) : res (list (list (string * json))) := let* d := as_dict v in let* l := iterate_list (jget_or d "entries" (JList [])) in mapM_res as_dict l.

Definition view_entry (states : list (string * list (string * json))) (e : list (string * json)) : res capability :=
  let* i := entry_id e in
  let declared := default [] (dget states i) in
  let* gates := iterate_list (jget_or declared "gates" (JList [])) in
  let* gates := mapM_res view_gate gates in
  let* evidence := iterate_list (jget_or e "evidence" (JList [])) in
  Ok (Capability evidence gates).

Definition capability_catalog : res (list capability) :=
  let* closure := entries_of (read_json s (under "docs/single-pc-closure.json")) in
  let* states := mapM_res (fun e => let* i := entry_id e in Ok (i, e)) closure in
  let* manifest := entries_of (read_json s (under "docs/coverage-manifest.json")) in
  mapM_res (view_entry (dict_of states)) manifest.

(** ** [allowed_file] *)

Definition artifacts (run_ : string) : string := root s +:+ "/lab/unified/artifacts/" +:+ run_.

Definition listed (docs : list document) (caps : list capability) (rs : list run) (relative : string) : bool :=
  has_path docs relative || existsb (fun c => existsb (fun e => match e with JStr p => String.eqb p relative | _ => false end) (c_evidence c) || existsb (fun g => String.eqb (g_path g) relative) (c_gates c)) caps ||
  existsb (fun r => String.eqb (run_path r) relative) rs.

Definition allowed_file (relative : string) : res string :=
  let path := under relative in
  raise (OSError "文件不存在或不在可查看范围。") when negb (within (root s) path) || negb (is_file s path) ;;
  let* caps := capability_catalog in
  let* rs := runs in
  if existsb (fun r => within (artifacts (run_id r)) path) rs then Ok path else
  let* live := is_run_id (jget_or (status s) "run_id" (JStr "")) in
  if live && match jget (status s) "run_id" with JStr i => within (artifacts i) path | _ => false end then Ok path else
  raise (OSError "文件不在工程学习资料或验收证据中。") when negb (listed source_files caps rs relative) ;;
  Ok path.

(** ** What may be read *)

Lemma add_run_Ok found path found' : add_run found path = Ok found' -> forall i r, dget found' i = Some r -> dget found i = Some r \/
  i = run_id r /\ run_path r = path /\ fullmatch run_re i = true /\ within (root s) (under path) = true.
Proof.
  unfold add_run. rewrite bind_Ok. intros (o & Ho & [= <-]) i r. revert Ho. unfold run_of. rewrite bind_Ok. intros (value & _ & H). destruct (is_120 _); cbn [negb] in H; [|injection H as <-; by left].
  apply bind_Ok in H as (ok & Hok & H). destruct ok; cbn [negb orb] in H; [|injection H as <-; by left]. destruct (within (root s) (under path)) eqn:Ew; cbn [negb] in H; [|injection H as <-; by left]. injection H as <-.
  unfold jget, jget_or in *. destruct (dget value "run_id") as [[| | | | |j| |]|]; try by left. injection Hok as Hok. destruct (decide (i = j)) as [->|Hij]; [rewrite dget_dset_eq; intros [= <-]; right; by split_and!|]. rewrite dget_dset_ne by done. by left.
Qed.

(** The runs are reports found inside the project, with an identifier of the known form. *)
Lemma runs_Ok rs r : runs = Ok rs -> r ∈ rs -> fullmatch run_re (run_id r) = true /\ run_path r ∈ globbed s /\ within (root s) (under (run_path r)) = true.
Proof.
  unfold runs. rewrite bind_Ok. intros (found & Hf & [= <-]) Hr.
  set (P := fun f : list (string * run) => d_ok f /\ forall i r, dget f i = Some r -> i = run_id r /\ fullmatch run_re i = true /\ run_path r ∈ globbed s /\ within (root s) (under (run_path r)) = true).
  assert (P found) as [Hok Hall].
  { eapply foldM_inv; [|shelve|exact Hf]. intros f path f' Hp [Hd Hall] Ha. split.
    - revert Ha. unfold add_run. rewrite bind_Ok. intros (o & _ & [= <-]). destruct o; [by apply d_ok_dset|done].
    - intros i x Hx. destruct (add_run_Ok _ _ _ Ha i x Hx) as [Ho|(-> & E & H1 & H2)]; [by apply Hall|]. rewrite E. by split_and!.
    Unshelve. split; [apply d_ok_nil|done]. }
  apply list_elem_of_In, in_map_iff in Hr as ([i x] & <- & Hin%list_elem_of_In). apply dget_in_ok in Hin; [|done]. destruct (Hall _ _ Hin) as (-> & H1 & H2 & H3). done.
Qed.

Lemma listed_true docs caps rs relative : listed docs caps rs relative = true -> has_path docs relative = true \/
  (exists c, c ∈ caps /\ (JStr relative ∈ c_evidence c \/ exists g, g ∈ c_gates c /\ g_path g = relative)) \/ exists r, r ∈ rs /\ run_path r = relative.
Proof.
  unfold listed. intros [[H|H]%orb_true_iff|H]%orb_true_iff; [by left| |].
  - right. left. apply existsb_exists in H as (c & Hc%list_elem_of_In & [He|He]%orb_true_iff); apply existsb_exists in He as (x & Hx%list_elem_of_In & Hm); exists c; split; try done.
    + left. destruct x; try done. by apply String.eqb_eq in Hm as ->.
    + right. apply String.eqb_eq in Hm. by exists x.
  - right. right. apply existsb_exists in H as (r & Hr%list_elem_of_In & Hm%String.eqb_eq). by exists r.
Qed.

(** Inside the artifacts of a run with an identifier of the known form. *)
Definition artifact (path : string) : Prop := exists i, fullmatch run_re i = true /\ resolve s (artifacts i) `prefix_of` resolve s path.

End Site.

(** C23.  What the dashboard serves is confined: a file that a request may read lies inside the project after every symbolic link is followed, exists, and either belongs to the artifacts of a run or is named literally by the document index, the
    evidence of a capability, a gate, or the report of a run that itself lies inside the project; absolute and climbing paths are no exception. *)
Theorem served_files_confined s relative path : allowed_file s relative = Ok path ->
  path = under s relative /\ resolve s (root s) `prefix_of` resolve s path /\ is_file s path = true /\
  (artifact s path \/ has_path (source_files s) relative = true \/
   (exists caps c, capability_catalog s = Ok caps /\ c ∈ caps /\ (JStr relative ∈ c_evidence c \/ exists g, g ∈ c_gates c /\ g_path g = relative)) \/
   relative ∈ globbed s /\ within s (root s) (under s relative) = true).
Proof.
  unfold allowed_file. destruct (_ || _) eqn:Eg; [done|]. apply orb_false_iff in Eg as [H1%negb_false_iff%bool_decide_eq_true H2%negb_false_iff]. rewrite bind_Ok. intros (caps & Hcaps & H). apply bind_Ok in H as (rs & Hrs & H).
  destruct (existsb _ rs) eqn:Er.
  { injection H as <-. split_and!; try done. left. apply existsb_exists in Er as (r & Hr%list_elem_of_In & Hw%bool_decide_eq_true). exists (run_id r). split; [by eapply runs_Ok|done]. }
  apply bind_Ok in H as (live & Hl & H). destruct (_ && _) eqn:El.
  { injection H as <-. split_and!; try done. left. apply andb_true_iff in El as [-> El]. unfold jget, jget_or in *. destruct (dget (status s) "run_id") as [[| | | | |i| |]|]; try done. injection Hl as Hl. apply bool_decide_eq_true in El. by exists i. }
  destruct (listed _ _ _ _) eqn:Ei; [|done]. injection H as <-. split; [done|]. split; [done|]. split; [done|]. right. apply listed_true in Ei as [Ei|[(c & Hc & Hor)|(r & Hr & <-)]].
  - left. exact Ei.
  - right. left. exists caps, c. split; [exact Hcaps|]. split; [exact Hc|exact Hor].
  - right. right. apply (runs_Ok s rs); [exact Hrs|exact Hr].
Qed.

(** ** Examples *)

Definition example_site : site :=
  Site "/opt/sf" (fun p => split_on slash p) (fun p => mem p ["/opt/sf/docs/a%b.md"; "/etc/passwd"; "/opt/sf/reports/live/owner.json"; "/opt/sf/lab/unified/artifacts/sf-unified-7/ping.log"]) (fun _ => JDict []) []
    ["## Guides"; "| [a](../docs/a%25b.md) | what it is |"; "plain text"] [("run_id", JStr "sf-unified-7")].

Lemma served_files_confined_witness : allowed_file example_site "docs/a%b.md" = Ok "/opt/sf/docs/a%b.md" /\ resolve example_site "/opt/sf" `prefix_of` resolve example_site "/opt/sf/docs/a%b.md".
Proof.
  split; [vm_compute; reflexivity|]. destruct (served_files_confined example_site "docs/a%b.md" "/opt/sf/docs/a%b.md") as (_ & H & _); [vm_compute; reflexivity|exact H].
Defined.

(** An artifact of the live run may be read; a file outside the project, or one that nothing names, may not. *)
Example example_files : allowed_file example_site "lab/unified/artifacts/sf-unified-7/ping.log" = Ok "/opt/sf/lab/unified/artifacts/sf-unified-7/ping.log" /\
  allowed_file example_site "/etc/passwd" = Err (OSError "文件不存在或不在可查看范围。") /\ allowed_file example_site "reports/live/owner.json" = Err (OSError "文件不在工程学习资料或验收证据中。").
Proof. vm_compute. done. Qed.

End Library.
