(* ===== verification/NtnChannel.v ===== *)
(** * NtnChannel: the complex-sample NTN channel (ntn/channel_emulator.py)

    [SampleChannel] numbers the samples of a stream over the messages that carry them; what the channel
    does to one sample ([mix], the numpy arithmetic) is a parameter that may depend on the sample's
    number.  [serve] is the loop of the relay: one record of [input] is one iteration, with the message the
    poller delivered, the clock readings and the stop flag.  Times are exact seconds.  The two rates of the
    configuration are not validated by the code; they are finite here. *)

From S2P Require Import Prelude Bytes Text Channel LiveModel.
From Stdlib Require Import Lqa.
#[local] Open Scope Z_scope.
#[local] Open Scope list_scope.

Module NtnChannel.

(** [None] stands for a float that is not finite. *)
Record ChannelConfig := Config { sample_rate_hz : option Q; delay_us : option Q; doppler_hz : option Q; path_loss_db : option Q; delay_rate_us_per_s : Q; doppler_rate_hz_per_s : Q }.

Definition validate (c : ChannelConfig) : res unit :=
  raise (ValueError "sample_rate_hz must be positive and finite") when match sample_rate_hz c with Some q => Qle_bool q 0 | None => true end ;;
  raise (ValueError "delay_us must be non-negative and finite") when match delay_us c with Some q => Qltb q 0 | None => true end ;;
  raise (ValueError "doppler_hz must be finite") when match doppler_hz c with Some _ => false | None => true end ;;
  raise (ValueError "path_loss_db must be non-negative and finite") when match path_loss_db c with Some q => Qltb q 0 | None => true end ;;
  Ok tt.

(** The samples of a message: eight bytes each. *)
Fixpoint samples (l : list byte) : list (list byte) :=
  match l with
  | b0 :: b1 :: b2 :: b3 :: b4 :: b5 :: b6 :: b7 :: l' => [b0; b1; b2; b3; b4; b5; b6; b7] :: samples l'
  | _ => []
  end.

Section Channel.
Context (mix : ChannelConfig -> Z -> list byte -> list byte) (c : ChannelConfig).

(** The samples from number [cursor] on, through the channel. *)
Fixpoint mixed (cursor : Z) (l : list (list byte)) : list byte :=
  match l with
  | [] => []
  | s :: l' => mix c cursor s ++ mixed (cursor + 1) l'
  end.

(** [transform]: the cursor afterwards and the message to forward. *)
Definition transform (cursor : Z) (payload : list byte) : res (Z * list byte) :=
  raise (ValueError "each channel message must contain complex64 IQ samples") when (len payload =? 0) || negb (len payload mod 8 =? 0) ;;
  let l := samples payload in
  Ok (cursor + len l, mixed cursor l).

Definition delay_seconds (cursor : Z) : Q :=
  let sample_time := (inject_Z cursor / default 1 (sample_rate_hz c))%Q in
  let d := (default 0 (delay_us c) + delay_rate_us_per_s c * sample_time)%Q in
  ((if Qle_bool d 0 then 0 else d) / inject_Z 1000000)%Q.

(** ** The relay *)

(** Due time, sequence number and message; the heap compares them in this order and sequence numbers differ. *)
Definition entry : Type := Q * Z * list byte.

Definition due (x : entry) : Q := x.1.1.
Definition number_of (x : entry) : Z := x.1.2.
Definition message (x : entry) : list byte := x.2.

Definition entry_leb (x y : entry) : bool := Qltb (due x) (due y) || (Qeq_bool (due x) (due y) && (number_of x <=? number_of y)).

(** [sent] has the forwarded messages with the clock reading that released each. *)
Record state := State { sample_cursor : Z; queue : list entry; received : Z; forwarded : Z; sample_count : Z; sequence : Z; receive_done : bool; sent : list (Q * entry) }.

Definition start : state := State 0 [] 0 0 0 0 false [].

(** One iteration: the message the poller reports, if any, the clock when it is queued and when the queue is drained, and the stop flag at the end. *)
Record input := Input { event : option (list byte); queued_at : Q; drained_at : Q; stop_set : bool }.

Definition receive (expected_blocks : Z) (st : state) (payload : list byte) (clock : Q) : res state :=
  let* (cursor, out) := transform (sample_cursor st) payload in
  let n := received st + 1 in
  let x := ((clock + delay_seconds cursor)%Q, sequence st + 1, out) in
  Ok (State cursor (insert_sorted entry_leb x (queue st)) n (forwarded st) (sample_count st + len payload / 8) (sequence st + 1)
    (receive_done st || (negb (expected_blocks =? 0) && (expected_blocks <=? n))) (sent st)).

(** [while queue and queue[0][0] <= now] *)
Fixpoint drain (now : Q) (q : list entry) (n : Z) (out : list (Q * entry)) : list entry * Z * list (Q * entry) :=
  match q with
  | x :: q' => if Qle_bool (due x) now then drain now q' (n + 1) (out ++ [(now, x)]) else (q, n, out)
  | [] => ([], n, out)
  end.

Definition release (now : Q) (st : state) : state :=
  let '(q, n, out) := drain now (queue st) (forwarded st) (sent st) in
  State (sample_cursor st) q (received st) n (sample_count st) (sequence st) (receive_done st) out.

Inductive outcome := Ended | Raised (e : exn) | Polling.

(** The loop; [Polling] when the inputs end before it does. *)
Fixpoint loop (expected_blocks : Z) (st : state) (l : list input) : state * outcome :=
  if receive_done st && bool_decide (queue st = []) then (st, Ended) else
  match l with
  | [] => (st, Polling)
  | i :: l' =>
      match (match event i with Some p => if receive_done st then Ok st else receive expected_blocks st p (queued_at i) | None => Ok st end) with
      | Err e => (st, Raised e)
      | Ok st =>
          let st := release (drained_at i) st in
          if stop_set i && bool_decide (queue st = []) then (st, Ended) else loop expected_blocks st l'
      end
  end.

(** [serve]: the channel is created, and its configuration checked, before the loop. *)
Definition serve (expected_blocks : Z) (l : list input) : state * outcome :=
  match validate c with Err e => (start, Raised e) | Ok _ => loop expected_blocks start l end.

End Channel.

(** ** The sample stream *)

Lemma samples_app l l' : len l mod 8 = 0 -> samples (l ++ l') = samples l ++ samples l'.
Proof.
  intros H. assert (exists k, length l = (8 * k)%nat) as [k Hk].
  { exists (Z.to_nat (len l / 8)). pose proof (Z.div_mod (len l) 8). unfold len in *. lia. }
  clear H. revert l Hk. induction k as [|k IH]; intros l Hk; [by destruct l|].
  do 8 (destruct l as [|? l]; [simpl in Hk; lia|]). cbn [samples app]. f_equal. apply IH. simpl in Hk. lia.
Qed.

Section Relay.
Context (mix : ChannelConfig -> Z -> list byte -> list byte) (c : ChannelConfig).

Lemma mixed_app cursor l l' : mixed mix c cursor (l ++ l') = mixed mix c cursor l ++ mixed mix c (cursor + len l) l'.
Proof.
  revert cursor. induction l as [|s l IH]; intros cursor; simpl; [by rewrite len_nil, Z.add_0_r|]. rewrite IH, <- app_assoc, len_cons. by rewrite Z.add_assoc.
Qed.

(** The messages of a sequence of payloads. *)
Fixpoint outs (cursor : Z) (ps : list (list byte)) : list (list byte) :=
  match ps with
  | [] => []
  | p :: ps' => mixed mix c cursor (samples p) :: outs (cursor + len (samples p)) ps'
  end.

Definition whole (p : list byte) : Prop := len p mod 8 = 0.

Lemma outs_app cursor ps p : Forall whole ps -> outs cursor (ps ++ [p]) = outs cursor ps ++ [mixed mix c (cursor + len (samples (concat ps))) (samples p)].
Proof.
  intros H. revert cursor. induction H as [|q ps Hq _ IH]; intros cursor; simpl; [by rewrite len_nil, Z.add_0_r|]. rewrite IH, samples_app by done. rewrite len_app. by rewrite Z.add_assoc.
Qed.

(** The boundaries of the messages do not matter. *)
Lemma outs_concat cursor ps : Forall whole ps -> concat (outs cursor ps) = mixed mix c cursor (samples (concat ps)).
Proof.
  intros H. revert cursor. induction H as [|p ps Hp _ IH]; intros cursor; simpl; [done|]. by rewrite IH, samples_app, mixed_app.
Qed.

Lemma transform_Ok cursor p cursor' out : transform mix c cursor p = Ok (cursor', out) -> whole p /\ cursor' = cursor + len (samples p) /\ out = mixed mix c cursor (samples p).
Proof. unfold transform. split_guard. intros [= <- <-]. bool_to_prop. by unfold whole. Qed.

(** ** The queue *)

Lemma insert_last {A} (leb : A -> A -> bool) x l : Forall (fun y => leb x y = false) l -> insert_sorted leb x l = l ++ [x].
Proof. induction 1 as [|y l Hy _ IH]; simpl; [done|]. by rewrite Hy, IH. Qed.

Lemma entry_after x y : (due y <= due x)%Q -> number_of y < number_of x -> entry_leb x y = false.
Proof.
  intros Hd Hn. unfold entry_leb. apply orb_false_iff. split; [apply not_true_iff_false; rewrite Clock.Qltb_true; lra|]. apply andb_false_iff. right. by apply Z.leb_gt.
Qed.

Lemma drain_spec now q n out : exists k, drain now q n out = (drop k q, n + Z.of_nat k, out ++ map (pair now) (take k q)) /\ (k <= length q)%nat /\ Forall (fun x => (due x <= now)%Q) (take k q).
Proof.
  revert n out. induction q as [|x q IH]; intros n out; simpl; [exists 0%nat; simpl; rewrite Z.add_0_r, app_nil_r; split; [done|split; [lia|constructor]]|].
  destruct (Qle_bool (due x) now) eqn:E.
  - destruct (IH (n + 1) (out ++ [(now, x)])) as (k & -> & Hk & Hf). exists (S k). simpl. rewrite <- app_assoc. split; [|split; [lia|constructor; [by apply Qle_bool_iff|done]]].
    f_equal. f_equal. lia.
  - exists 0%nat. simpl. rewrite Z.add_0_r, app_nil_r. split; [done|split; [lia|constructor]].
Qed.

(** ** What a relay with any delay keeps *)

Record conserved (st : state) : Prop := {
  co_forwarded : forwarded st = len (sent st);
  co_received : received st = len (sent st) + len (queue st);
  co_due : Forall (fun x => (due x.2 <= x.1)%Q) (sent st) }.

Lemma receive_conserved expected st p clock st' : conserved st -> receive mix c expected st p clock = Ok st' -> conserved st'.
Proof.
  intros [H1 H2 H3]. unfold receive. rewrite bind_Ok. intros ([cur out] & _ & [= <-]). constructor; simpl; [done| |done].
  unfold len in *. rewrite (Permutation_length (insert_sorted_perm entry_leb _ (queue st))). simpl. lia.
Qed.

Lemma release_conserved now st : conserved st -> conserved (release now st).
Proof.
  intros [H1 H2 H3]. unfold release. destruct (drain_spec now (queue st) (forwarded st) (sent st)) as (k & -> & Hk & Hf). constructor; simpl.
  - unfold len in *. rewrite length_app, length_map, length_take. lia.
  - unfold len in *. rewrite length_app, length_map, length_take, length_drop. lia.
  - apply Forall_app_2; [done|]. clear -Hf. induction Hf; constructor; done.
Qed.

(** ** A constant delay *)

(** The clock of the relay does not go back. *)
Fixpoint clock_from (t : Q) (l : list input) : Prop :=
  match l with
  | [] => True
  | i :: l' => (t <= queued_at i)%Q /\ (queued_at i <= drained_at i)%Q /\ clock_from (drained_at i) l'
  end.

Definition fixed_delay : Prop := forall cursor, (delay_seconds c cursor == delay_seconds c 0)%Q.

Lemma rate_zero_fixed : (delay_rate_us_per_s c == 0)%Q -> fixed_delay.
Proof.
  intros H cursor. unfold delay_seconds. set (a := (default 0 (delay_us c) + _)%Q). set (b := (default 0 (delay_us c) + _)%Q).
  assert (a == b)%Q as E by (unfold a, b; rewrite H; ring). rewrite (Qleb_comp a b E 0%Q 0%Q (Qeq_refl 0%Q)). destruct (Qle_bool b 0); [reflexivity|]. by rewrite E.
Qed.

(** The queue is in the order of arrival: [ps] are the payloads taken so far, and no entry is due later than the delay after [t]. *)
Record in_order (st : state) (ps : list (list byte)) (t : Q) : Prop := {
  io_conserved : conserved st;
  io_count : received st = len ps /\ sequence st = len ps;
  io_whole : Forall whole ps;
  io_cursor : sample_cursor st = len (samples (concat ps));
  io_messages : map (fun x => message x.2) (sent st) ++ map message (queue st) = outs 0 ps;
  io_numbers : Forall (fun x => number_of x <= sequence st) (queue st);
  io_due : Forall (fun x => (due x <= t + delay_seconds c 0)%Q) (queue st) }.

Lemma start_in_order t : in_order start [] t.
Proof. constructor; try done. Qed.

Lemma whole_concat ps : Forall whole ps -> len (concat ps) mod 8 = 0.
Proof. induction 1 as [|p ps Hp _ IH]; [done|]. simpl. rewrite len_app. unfold whole in Hp. rewrite Z.add_mod, Hp, IH by lia. done. Qed.

Lemma receive_in_order expected st ps t p clock st' : fixed_delay -> (t <= clock)%Q -> in_order st ps t -> receive mix c expected st p clock = Ok st' -> in_order st' (ps ++ [p]) clock.
Proof.
  intros Hfix Ht [H1 [H2 H2'] H3 H4 H5 H6 H7] Hr. pose proof (receive_conserved _ _ _ _ _ H1 Hr) as Hc. unfold receive in Hr. apply bind_Ok in Hr as ([cur out] & Htr & [= <-]).
  apply transform_Ok in Htr as (Hp & -> & ->). set (x := (_, _, _)).
  assert (insert_sorted entry_leb x (queue st) = queue st ++ [x]) as Hq.
  { apply insert_last. apply Forall_forall. intros y Hy. rewrite Forall_forall in H6, H7. specialize (H6 y Hy). specialize (H7 y Hy). simpl in H6, H7. apply entry_after.
    - unfold x, due at 2. simpl. pose proof (Hfix (sample_cursor st + len (samples p))). lra.
    - unfold x, number_of at 2. simpl. lia. }
  constructor; cbn [sample_cursor queue received forwarded sample_count sequence receive_done sent]; try rewrite Hq.
  - rewrite <- Hq. exact Hc.
  - rewrite len_app, len_cons, len_nil. lia.
  - by apply Forall_app_2; [|constructor].
  - rewrite concat_app, samples_app, len_app by (by apply whole_concat). simpl. rewrite app_nil_r. lia.
  - rewrite map_app, app_assoc, H5, outs_app by done. simpl. unfold x, message. simpl. by rewrite H4.
  - apply Forall_app_2; [eapply Forall_impl; [exact H6|simpl; intros; lia]|]. constructor; [unfold x, number_of; simpl; lia|constructor].
  - apply Forall_app_2; [eapply Forall_impl; [exact H7|simpl; intros; lra]|]. constructor; [|constructor]. unfold x, due. simpl. pose proof (Hfix (sample_cursor st + len (samples p))). lra.
Qed.

Lemma release_in_order now st ps t : (t <= now)%Q -> in_order st ps t -> in_order (release now st) ps now.
Proof.
  intros Ht [H1 H2 H3 H4 H5 H6 H7]. pose proof (release_conserved now st H1) as Hc. unfold release in *. destruct (drain_spec now (queue st) (forwarded st) (sent st)) as (k & E & Hk & Hf). rewrite E in *.
  constructor; cbn [sample_cursor queue received forwarded sample_count sequence receive_done sent]; try done.
  - rewrite <- H5, map_app, map_map, <- app_assoc. f_equal. simpl. rewrite <- (take_drop k (queue st)) at 3. by rewrite map_app.
  - by apply Forall_drop.
  - apply Forall_drop. eapply Forall_impl; [exact H7|]. simpl. intros. lra.
Qed.

Lemma later_in_order st ps t t' : (t <= t')%Q -> in_order st ps t -> in_order st ps t'.
Proof. intros Ht [H1 H2 H3 H4 H5 H6 H7]. constructor; try done. eapply Forall_impl; [exact H7|]. simpl. intros. lra. Qed.

Definition arrived (i : input) : list (list byte) := match event i with Some p => [p] | None => [] end.

(** What one iteration takes from the poller, before the queue is drained. *)
Lemma take_in_order expected st ps t i s1 : fixed_delay -> (t <= queued_at i)%Q -> in_order st ps t ->
  match event i with Some p => if receive_done st then Ok st else receive mix c expected st p (queued_at i) | None => Ok st end = Ok s1 ->
  in_order s1 (ps ++ if receive_done st then [] else arrived i) (queued_at i) /\ (receive_done st = true -> receive_done s1 = true).
Proof.
  intros Hfix Ht Hio. unfold arrived. destruct (event i) as [p|], (receive_done st) eqn:Ed; rewrite ?app_nil_r; intros H; try (injection H as <-; split; [by eapply later_in_order|done]).
  split; [by eapply receive_in_order|done].
Qed.

Lemma release_done now st : receive_done (release now st) = receive_done st.
Proof. unfold release. by destruct (drain now (queue st) (forwarded st) (sent st)) as [[? ?] ?]. Qed.

Definition arrivals (l : list input) : list (list byte) := concat (map arrived l).

Lemma loop_done expected l st st' o : loop mix c expected st l = (st', o) -> receive_done st = true -> receive_done st' = true.
Proof.
  revert st. induction l as [|i l IH]; intros st; cbn [loop]; destruct (receive_done st && _) eqn:E; try (by intros [= <- <-]).
  destruct (match event i with Some p => _ | None => _ end) as [s1|e] eqn:Er; [|by intros [= <- <-]]. intros H Hd. rewrite Hd in Er.
  assert (s1 = st) as -> by (destruct (event i); congruence). destruct (stop_set i && _); [injection H as <- <-; by rewrite release_done|]. eapply IH; [exact H|]. by rewrite release_done.
Qed.

Lemma loop_in_order expected l st ps t st' o : fixed_delay -> clock_from t l -> in_order st ps t -> loop mix c expected st l = (st', o) ->
  exists qs t', qs `prefix_of` arrivals l /\ (receive_done st = true -> qs = []) /\ in_order st' (ps ++ qs) t' /\ (o = Ended -> queue st' = []) /\
    (o = Polling -> receive_done st' = false -> qs = arrivals l).
Proof.
  intros Hfix. revert st ps t. induction l as [|i l IH]; intros st ps t Hcl Hio; cbn [loop].
  - destruct (receive_done st && bool_decide (queue st = [])) eqn:E; intros [= <- <-]; exists [], t; rewrite app_nil_r; split_and!; try done.
    intros _. apply andb_true_iff in E as [_ E]. by apply bool_decide_eq_true in E.
  - destruct (receive_done st && bool_decide (queue st = [])) eqn:E.
    { intros [= <- <-]. exists [], t. rewrite app_nil_r. split_and!; try done; [apply prefix_nil|]. intros _. apply andb_true_iff in E as [_ E]. by apply bool_decide_eq_true in E. }
    destruct Hcl as (Hc1 & Hc2 & Hc3). destruct (match event i with Some p => _ | None => _ end) as [s1|e] eqn:Er;
      [|intros [= <- <-]; exists [], t; rewrite app_nil_r; split_and!; try done; apply prefix_nil].
    destruct (take_in_order _ _ _ _ _ _ Hfix Hc1 Hio Er) as [H1 Hdone]. pose proof (release_in_order _ _ _ _ Hc2 H1) as Hrel.
    change (arrivals (i :: l)) with (arrived i ++ arrivals l). destruct (stop_set i && _) eqn:Es.
    + intros [= <- <-]. eexists _, (drained_at i). split; [|split; [|split; [exact Hrel|split; [|done]]]].
      * destruct (receive_done st); [apply prefix_nil|by apply prefix_app_r].
      * by intros ->.
      * intros _. apply andb_true_iff in Es as [_ Es]. by apply bool_decide_eq_true in Es.
    + intros Hs. destruct (IH _ _ _ Hc3 Hrel Hs) as (qs & t' & Hq1 & Hq2 & Hq3 & Hq4 & Hq5). rewrite release_done in Hq2. exists ((if receive_done st then [] else arrived i) ++ qs), t'. split_and!.
      * destruct (receive_done st); [rewrite Hq2 by auto; apply prefix_nil|by apply prefix_app].
      * intros Hd. rewrite Hd. simpl. auto.
      * by rewrite app_assoc.
      * done.
      * intros Ho Hd. destruct (receive_done st) eqn:Edone; [|by rewrite (Hq5 Ho Hd)]. exfalso. pose proof (loop_done _ _ _ _ _ Hs) as Hm. rewrite release_done in Hm. rewrite Hm in Hd by auto. done.
Qed.

(** C19.  A relay with a constant delay is transparent to the sample stream: whatever the sizes of the messages, the iterations they arrive in and the way the loop
    ends, what was forwarded and what is still queued is, in order, the channel applied once to the concatenation of the messages taken, so that the phase runs on
    over message boundaries; a message is never released before it is due, none that arrived is skipped, and a loop that ends has forwarded everything. *)
Theorem relay_transparent expected t0 l st o : (delay_rate_us_per_s c == 0)%Q -> clock_from t0 l -> serve mix c expected l = (st, o) ->
  exists ps, ps `prefix_of` arrivals l /\ received st = len ps /\ (o = Polling -> receive_done st = false -> ps = arrivals l) /\
    concat (map (fun x => message x.2) (sent st)) ++ concat (map message (queue st)) = mixed mix c 0 (samples (concat ps)) /\
    Forall (fun x => (due x.2 <= x.1)%Q) (sent st) /\ (o = Ended -> queue st = [] /\ forwarded st = received st).
Proof.
  intros Hrate Hcl. unfold serve. destruct (validate c) as [_|e]; [|intros [= <- <-]; exists []; split_and!; try done; apply prefix_nil]. intros Hs.
  destruct (loop_in_order expected l start [] t0 st o (rate_zero_fixed Hrate) Hcl (start_in_order t0) Hs) as (ps & t' & Hp & _ & Hio & He & Hpoll).
  simpl in Hio. destruct Hio as [[Hf Hrc Hdue] [Hr _] Hw _ Hm _ _]. exists ps. split_and!; try done.
  - rewrite <- concat_app, Hm. by apply outs_concat.
  - intros Ho. rewrite (He Ho), len_nil in Hrc. split; [by apply He|lia].
Qed.

End Relay.

(** ** Example: two messages over a delay of two milliseconds *)

Definition example_config : ChannelConfig := Config (Some (inject_Z 1000)) (Some (inject_Z 2000)) (Some 0%Q) (Some 0%Q) 0 0.

(** A channel that marks the first byte of every other sample. *)
Definition example_mix (_ : ChannelConfig) (n : Z) (s : list byte) : list byte := if n mod 2 =? 0 then s else match s with _ :: s' => byte_of 255 :: s' | [] => [] end.

Definition zeros (n : nat) : list byte := replicate n (byte_of 0).

Definition example_inputs : list input :=
  [Input (Some (zeros 8)) 0 0 false; Input (Some (zeros 16)) (1 # 1000) (1 # 1000) false; Input None (2 # 1000) (2 # 1000) false; Input None (3 # 1000) (4 # 1000) false].

Lemma relay_transparent_witness :
  exists ps, ps = [zeros 8; zeros 16] /\ (serve example_mix example_config 2 example_inputs).2 = Ended /\
    concat (map (fun x => message x.2) (sent (serve example_mix example_config 2 example_inputs).1)) = mixed example_mix example_config 0 (samples (concat ps)).
Proof.
  destruct (relay_transparent example_mix example_config 2 0 example_inputs (serve example_mix example_config 2 example_inputs).1 (serve example_mix example_config 2 example_inputs).2)
    as (ps & Hp & Hr & _ & Hm & _ & He).
  - reflexivity.
  - simpl. unfold Qle. simpl. lia.
  - by destruct (serve example_mix example_config 2 example_inputs).
  - assert ((serve example_mix example_config 2 example_inputs).2 = Ended) as Ho by (vm_compute; reflexivity). destruct (He Ho) as [Hq _]. rewrite Hq, app_nil_r in Hm.
    exists ps. split; [|by split]. assert (received (serve example_mix example_config 2 example_inputs).1 = 2) as Hr2 by (vm_compute; reflexivity). rewrite Hr2 in Hr.
    destruct Hp as [rest Hrest]. change (arrivals example_inputs) with [zeros 8; zeros 16] in Hrest. destruct ps as [|p1 [|p2 [|]]]; try done. by injection Hrest as <- <- _.
Defined.

End NtnChannel.
