(* ===== verification/ReplayRun.v ===== *)
(** * ReplayRun: a horizon of physical frames on the packet network (lab/platform/physics_runtime.py)

    [channels] applies one frame and makes its links those of the fabric; [publish] tells the controller; [run] goes through
    the frames on a 1:1 clock.  A [moment] has what the world answers while a frame is handled: the clock when the wait for the
    frame ends, the results of the commands, what the interfaces report, and the answers of the controller. *)

From S2P Require Import Prelude Bytes Text Channel Fabric LiveModel PhysicsJobs Replay.
From Stdlib Require Import QArith.
#[local] Open Scope Z_scope.
#[local] Open Scope list_scope.

Module ReplayRun.
Import Fabric.Fabric(fabric, link, pair_t, link_id, source, target, latency_us, capacity_bps, operational_up, admin_up, acquisition_state,
  interface, active, directed, nodes, links, scen, s_links, set_links, direct, sorted_pair, pid_of).
Import Jobs(words, execute, phase, call).
Import Replay(replay, Replay_, fab, changed_pairs, channel_updates, channel_jobs, snapshot_links, verify_readback, report, queue_words, ask, Ask, asked_up, asked_queue, ask_after).

Record frame := Frame { offset_seconds : Q; f_links : list link }.

Record moment := Moment { clock : Q; outcome : phase -> call -> Jobs.result; reports : list (string * list report);
  accepted : res unit; reprogrammed : res bool; reconciled : res unit }.

(** ** One frame *)

(** [channels]: the commands that ran, the driver afterwards and the result.  The fabric takes over the links only after every command succeeded
    ([set_links] cannot fail on a fabric with a physical model; where it fails the run has ended). *)
Inductive channels (pids : list (string * Z)) (d : replay) (ls : list link) (first readback : bool) (m : moment) : list (Z * words) -> replay -> res unit -> Prop :=
| ch_refused x changed updates : channel_jobs d pids ls first readback = Err x -> channels pids d ls first readback m [] (Replay_ (fab d) changed updates) (Err x)
| ch_failed js changed updates t x : channel_jobs d pids ls first readback = Ok (js, changed, updates) -> execute (outcome m) js t (Err x) ->
    channels pids d ls first readback m t (Replay_ (fab d) changed updates) (Err x)
| ch_links js changed updates t rs x : channel_jobs d pids ls first readback = Ok (js, changed, updates) -> execute (outcome m) js t (Ok rs) ->
    set_links (fab d) ls = Err x -> channels pids d ls first readback m t (Replay_ (fab d) changed updates) (Err x)
| ch_done js changed updates t rs f' : channel_jobs d pids ls first readback = Ok (js, changed, updates) -> execute (outcome m) js t (Ok rs) ->
    set_links (fab d) ls = Ok f' ->
    channels pids d ls first readback m t (Replay_ f' changed updates) (if readback then verify_readback f' (reports m) else Ok tt).

(** ** Telling the controller *)

Record event := Event { event_id : string; subject : string; e_sequence : Z; e_link : link }.

Definition events (identifier : string) (ls : list link) (sequence : Z) : list event :=
  map (fun l => Event (identifier +:+ "-physical-" +:+ pretty sequence +:+ "-" +:+ link_id l) (link_id l) sequence l) ls.

Record record := Record_ { index : nat; r_offset : Q; start_lag : Q; routes_reprogrammed : bool }.

(** The driver with what it has published and recorded. *)
Record driver := Driver { d_replay : replay; last_sequence : Z; published : list (list event); records : list record }.

Definition start (f : fabric) : driver := Driver (Replay_ f [] 0) 99999 [] [].

Definition with_replay (d : driver) (r : replay) : driver := Driver r (last_sequence d) (published d) (records d).

(** [publish]: the sequence number is taken once the controller has accepted the batch. *)
Definition publish (identifier : string) (d : driver) (ls : list link) (sequence : Z) (m : moment) : driver * res unit :=
  let d := Driver (d_replay d) (last_sequence d) (published d ++ [events identifier ls sequence]) (records d) in
  match accepted m with
  | Err x => (d, Err x)
  | Ok _ => (Driver (d_replay d) sequence (published d) (records d), Ok tt)
  end.

(** What follows the publication: the plan is compared with the committed one and reconciled when it differs. *)
Definition settle (m : moment) : res bool :=
  let* changed := reprogrammed m in
  if (changed : bool) then let* _ := reconciled m in Ok true else Ok false.

(** ** The frames of a horizon *)

Section Run.
Context (identifier : string) (pids : list (string * Z)) (step started : Q) (total : nat).

Definition lag (fr : frame) (m : moment) : Q := clock m - (started + offset_seconds fr).

Definition readback_at (i : nat) : bool := (i =? 0)%nat || (i =? total - 1)%nat.

(** The loop over the frames from number [i] on: the commands that ran, the driver afterwards and the result.  The wait ends at a clock reading that is not before
    the frame's time; [text] is the lag as the message prints it. *)
Inductive run : nat -> list (frame * moment) -> driver -> list (Z * words) -> driver -> res unit -> Prop :=
| run_end i d : run i [] d [] d (Ok tt)
| run_late i fr m l d text : (step < lag fr m)%Q -> (0 <= lag fr m)%Q ->
    run i ((fr, m) :: l) d [] d (Err (RuntimeError ("physical replay cannot keep 1:1 time: frame " +:+ pretty (Z.of_nat i) +:+ ", lag " +:+ text +:+ "s")))
| run_unknown i fr m l d x : (0 <= lag fr m <= step)%Q -> snapshot_links (f_links fr) (s_links (scen (fab (d_replay d)))) = Err x -> run i ((fr, m) :: l) d [] d (Err x)
| run_failed i fr m l d ls t d' x : (0 <= lag fr m <= step)%Q -> snapshot_links (f_links fr) (s_links (scen (fab (d_replay d)))) = Ok ls ->
    channels pids (d_replay d) ls (i =? 0)%nat (readback_at i) m t d' (Err x) -> run i ((fr, m) :: l) d t (with_replay d d') (Err x)
| run_unpublished i fr m l d ls t d' d2 x : (0 <= lag fr m <= step)%Q -> snapshot_links (f_links fr) (s_links (scen (fab (d_replay d)))) = Ok ls ->
    channels pids (d_replay d) ls (i =? 0)%nat (readback_at i) m t d' (Ok tt) -> publish identifier (with_replay d d') ls (100000 + Z.of_nat i) m = (d2, Err x) ->
    run i ((fr, m) :: l) d t d2 (Err x)
| run_unsettled i fr m l d ls t d' d2 x : (0 <= lag fr m <= step)%Q -> snapshot_links (f_links fr) (s_links (scen (fab (d_replay d)))) = Ok ls ->
    channels pids (d_replay d) ls (i =? 0)%nat (readback_at i) m t d' (Ok tt) -> publish identifier (with_replay d d') ls (100000 + Z.of_nat i) m = (d2, Ok tt) ->
    settle m = Err x -> run i ((fr, m) :: l) d t d2 (Err x)
| run_frame i fr m l d ls t d' d2 b t2 d3 r : (0 <= lag fr m <= step)%Q -> snapshot_links (f_links fr) (s_links (scen (fab (d_replay d)))) = Ok ls ->
    channels pids (d_replay d) ls (i =? 0)%nat (readback_at i) m t d' (Ok tt) -> publish identifier (with_replay d d') ls (100000 + Z.of_nat i) m = (d2, Ok tt) ->
    settle m = Ok b -> run (S i) l (Driver (d_replay d2) (last_sequence d2) (published d2) (records d2 ++ [Record_ i (offset_seconds fr) (lag fr m) b])) t2 d3 r ->
    run i ((fr, m) :: l) d (t ++ t2) d3 r.

End Run.

(** ** The end of the horizon *)

Definition changed_link (l b : link) : bool :=
  negb (bool_decide (latency_us l = latency_us b)) || negb (bool_decide (capacity_bps l = capacity_bps b)) || negb (bool_decide (operational_up l = operational_up b)).

Definition changed_parameters (final baseline : list link) : Z := len (List.filter (fun lb => changed_link lb.1 lb.2) (zip final baseline)).

Definition conclude (final baseline : list link) : res Z :=
  raise (AssertionError "physical scenario did not change any link parameter") when (changed_parameters final baseline =? 0) ;;
  Ok (changed_parameters final baseline).

(** ** One interface over a horizon *)

(** What [active] makes of a link. *)
Definition carries (l : link) : bool := default true (admin_up l) && default true (operational_up l) && mem (default "locked" (acquisition_state l)) ["locked"; "degraded"; ""].

(** The contact models give an operational link a state that carries traffic. *)
Definition steady (l : link) : Prop := operational_up l = Some (carries l).

Lemma active_carries f a b l : dget (directed f) (a, b) = Some l -> active f a b = Ok (carries l).
Proof. intros H. unfold active. by rewrite H. Qed.

Lemma down_steady l : steady (Live.down l) /\ carries (Live.down l) = false.
Proof. unfold steady, carries. simpl. by rewrite andb_false_r. Qed.

Lemma queue_words_limit f f' l : Fabric.Fabric.queue_limit f = Fabric.Fabric.queue_limit f' -> queue_words f l = queue_words f' l.
Proof. intros H. unfold queue_words. by rewrite H. Qed.

Section Horizon.
Context (ends : string -> pair_t) (a b i : string) (p : Z) (pids : list (string * Z)).

(** The ends of a link are those of its identifier. *)
Definition placed (l : link) : Prop := (source l, target l) = ends (link_id l).

Record tracked (lv : Live.live) (s : ask) (old : link) : Prop := {
  tr_built : Live.live_built lv;
  tr_interface : interface (Live.base lv) a b = Ok i;
  tr_node : a ∈ dkeys (nodes (Live.base lv));
  tr_old : dget (directed (Live.base lv)) (a, b) = Some old;
  tr_ask : s = Ask (carries old) (Some (queue_words (Live.base lv) old));
  tr_links : dget (direct (s_links (scen (Live.base lv)))) (a, b) = Some old;
  tr_placed : Forall placed (s_links (scen (Live.base lv)));
  tr_provisioned : Forall (fun l => dhas (links (Live.base lv)) (sorted_pair (source l) (target l)) = true) (s_links (scen (Live.base lv))) }.

(** A link of the snapshot is the frame's, or the one before, down. *)
Lemma snapshot_spec fr prev ls : Forall placed prev -> Forall placed fr -> snapshot_links fr prev = Ok ls ->
  Forall2 (fun l l' => source l' = source l /\ target l' = target l /\ placed l' /\ (l' ∈ fr \/ l' = Live.down l)) prev ls.
Proof.
  intros Hp Hf. unfold snapshot_links. split_guard. intros [= <-]. set (cur := dict_of _).
  assert (Forall (fun kl : string * link => link_id kl.2 = kl.1 /\ kl.2 ∈ fr) cur) as Hcur.
  { apply Forall_dict_of. apply Forall_fmap, Forall_forall. intros l Hl. done. }
  clear Heqb0. rewrite Forall_forall in Hcur. rewrite Forall_forall in Hf. induction Hp as [|l prev Hl _ IH]; simpl; [constructor|]. constructor; [|done]. destruct (dget cur (link_id l)) as [x|] eqn:E; simpl; [|by split_and!; try done; right].
  apply dget_Some_in in E. destruct (Hcur _ E) as [Hid Hin]. simpl in Hid, Hin. pose proof (Hf _ Hin) as Hx. unfold placed in Hl, Hx. rewrite Hid, <- Hl in Hx. injection Hx as Hs Ht.
  split_and!; try done; [|by left]. unfold placed. by rewrite Hs, Ht, Hid.
Qed.

Lemma direct_ends ls l : dget (direct ls) (a, b) = Some l -> l ∈ ls /\ source l = a /\ target l = b.
Proof.
  intros H%dget_Some_in. assert (Forall (fun kl : pair_t * link => kl.2 ∈ ls /\ kl.1 = (source kl.2, target kl.2)) (direct ls)) as Hall.
  { apply Forall_dict_of. apply Forall_fmap, Forall_forall. intros x Hx. done. }
  rewrite Forall_forall in Hall. destruct (Hall _ H) as [Hin [= -> ->]]. done.
Qed.

Lemma direct_some ls x : x ∈ ls -> source x = a -> target x = b -> exists l, dget (direct ls) (a, b) = Some l.
Proof.
  intros Hx Hs Ht. assert ((a, b) ∈ dkeys (direct ls)) as H.
  { unfold direct. apply elem_of_dkeys_dict_of. rewrite map_map. simpl. apply list_elem_of_In, in_map_iff. exists x. split; [by rewrite Hs, Ht|]. by apply list_elem_of_In. }
  by apply dget_is_Some in H as [l Hl]; exists l.
Qed.

(** What a frame asks of the tracked interface. *)
Lemma snapshot_link lv s old fr ls : tracked lv s old -> Forall placed fr -> Forall steady fr -> snapshot_links fr (s_links (scen (Live.base lv))) = Ok ls ->
  exists l, dget (direct ls) (a, b) = Some l /\ steady l /\ (carries l = true -> l ∈ fr /\ source l = a /\ target l = b) /\ Forall placed ls /\
    Forall (fun l => dhas (links (Live.base lv)) (sorted_pair (source l) (target l)) = true) ls.
Proof.
  intros [T1 T2 T3 T4 T5 T6 T7 T8] Hf Hst Hs. pose proof (snapshot_spec _ _ _ T7 Hf Hs) as H. destruct (direct_ends _ _ T6) as (Hin & Ha & Hb).
  apply list_elem_of_lookup in Hin as [k Hk]. destruct (Forall2_lookup_l _ _ _ _ _ H Hk) as (x & Hx & Hxs & Hxt & _).
  destruct (direct_some ls x) as [l Hl]; [by eapply list_elem_of_lookup_2|congruence..|]. exists l. destruct (direct_ends _ _ Hl) as (Hlin & Hla & Hlb).
  assert (l ∈ fr \/ exists l0, l = Live.down l0) as Hcase.
  { apply list_elem_of_lookup in Hlin as [j Hj]. destruct (Forall2_lookup_r _ _ _ _ _ H Hj) as (l0 & _ & _ & _ & _ & [?| ->]); [by left|right; by eexists]. }
  rewrite Forall_forall in Hst. split_and!; try done.
  - destruct Hcase as [Hfr|[l0 ->]]; [by apply Hst|apply down_steady].
  - intros Hc. destruct Hcase as [Hfr|[l0 ->]]; [done|]. by rewrite (proj2 (down_steady l0)) in Hc.
  - clear -H. induction H as [|? ? ? ? (_ & _ & ? & _) _ IH]; by constructor.
  - clear -H T8. revert T8. generalize (links (Live.base lv)). intros d. induction H as [|x y ? ? (Hs & Ht & _) _ IH]; intros T8; constructor; apply Forall_cons in T8 as [Hx T8]; [by rewrite Hs, Ht|by apply IH].
Qed.

Lemma same_binding (d d' : list (pair_t * Fabric.Fabric.binding)) k v : Forall2 (fun kb kb' => kb'.1 = kb.1 /\ Fabric.Fabric.ifname kb'.2 = Fabric.Fabric.ifname kb.2) d d' ->
  dget d k = Some v -> exists v', dget d' k = Some v' /\ Fabric.Fabric.ifname v' = Fabric.Fabric.ifname v.
Proof.
  induction 1 as [|[k1 v1] [k2 v2] d d' [Hk Hv] _ IH]; simpl in *; [done|]. subst k2. destruct (decide (k = k1)); [|done]. intros [= <-]. by exists v2.
Qed.

(** The links of a frame become those of the fabric; names and wiring stay. *)
Lemma set_links_tracked lv s old ls l f' : tracked lv s old -> dget (direct ls) (a, b) = Some l -> Forall placed ls ->
  Forall (fun l => dhas (links (Live.base lv)) (sorted_pair (source l) (target l)) = true) ls -> set_links (Live.base lv) ls = Ok f' ->
  tracked (Live.Live_ f' (Live.ids lv) (Live.last_present lv)) (Ask (carries l) (Some (queue_words (Live.base lv) l))) l /\
  Fabric.Fabric.queue_limit f' = Fabric.Fabric.queue_limit (Live.base lv).
Proof.
  intros [T1 T2 T3 T4 T5 T6 T7 T8] Hl Hp Hpr Hs. destruct (Fabric.Fabric.set_links_inv _ _ _ Hs) as (Hn & Ha & _ & Hd & Hf). pose proof (Fabric.Fabric.same_keys _ _ Hf) as Hk.
  assert (s_links (scen f') = ls /\ Fabric.Fabric.queue_limit f' = Fabric.Fabric.queue_limit (Live.base lv)) as [Hls Hq].
  { revert Hs. unfold set_links. rewrite bind_Ok. intros (u & _ & [= <-]). done. }
  split; [|done]. constructor; cbn [Live.base]; try done.
  - apply Live.live_links with (ls := ls); try done. intros x Hx. rewrite Forall_forall in Hpr. by apply Hpr.
  - revert T2. unfold interface, Fabric.Fabric.binding_of, Fabric.Fabric.peers_of. rewrite Ha, bind_Ok. intros (v & H & [= <-]). apply bind_Ok in H as (ps & Hps & H). apply bind_Ok in H as (k & Hkk & H%or_raise_Ok).
    destruct (same_binding (links (Live.base lv)) (links f') k v) as (v' & Hv' & <-); [|done|].
    + eapply Forall2_impl; [exact Hf|]. by intros x y (? & _ & ? & _).
    + rewrite Hps. simpl_res. rewrite Hkk. simpl_res. by rewrite Hv'.
  - by rewrite Hn.
  - by rewrite Hd.
  - f_equal. f_equal. by apply queue_words_limit.
  - by rewrite Hls.
  - by rewrite Hls.
  - rewrite Hls. eapply Forall_impl; [exact Hpr|]. simpl. intros x Hx. apply dhas_true. rewrite Hk. by apply dhas_true.
Qed.

Context (Hpids : forall n m p, pid_of pids n = Ok p -> pid_of pids m = Ok p -> n = m) (Hp : pid_of pids a = Ok p).

(** One frame: while the interface is up it has the queue of its old link or of a link of the frame, and a frame that succeeds leaves it as its link says. *)
Lemma channels_tracked lv s old changed updates fr ls first readback m t d' r (K : link -> Prop) :
  tracked lv s old -> Forall placed fr -> Forall steady fr -> (carries old = true -> K old) -> (forall l, l ∈ fr -> source l = a -> target l = b -> K l) ->
  snapshot_links fr (s_links (scen (Live.base lv))) = Ok ls -> channels pids (Replay_ (Live.base lv) changed updates) ls first readback m t d' r ->
  (forall t', t' `prefix_of` t -> asked_up (ask_after p i s t') = true -> exists l, K l /\ carries l = true /\ asked_queue (ask_after p i s t') = Some (queue_words (Live.base lv) l)) /\
  (r = Ok tt -> exists lv' l, Live.base lv' = fab d' /\ tracked lv' (ask_after p i s t) l /\ (carries l = true -> K l) /\ Fabric.Fabric.queue_limit (fab d') = Fabric.Fabric.queue_limit (Live.base lv)).
Proof.
  intros T Hf Hst Hold Hfr Hs Hch. destruct (snapshot_link _ _ _ _ _ T Hf Hst Hs) as (l & Hl & Hsteady & Hin & Hplaced & Hprov).
  assert (carries l = true -> K l) as HK by (intros Hc; destruct (Hin Hc) as (? & ? & ?); by apply Hfr). pose proof T as [T1 T2 T3 T4 T5 T6 T7 T8].
  assert (forall js c u t r, channel_jobs (Replay_ (Live.base lv) changed updates) pids ls first readback = Ok (js, c, u) -> execute (outcome m) js t r ->
    (forall t', t' `prefix_of` t -> asked_up (ask_after p i s t') = true -> exists l, K l /\ carries l = true /\ asked_queue (ask_after p i s t') = Some (queue_words (Live.base lv) l)) /\
    (forall rs, r = Ok rs -> ask_after p i s t = Ask (carries l) (Some (queue_words (Live.base lv) l)))) as Hrun.
  { intros js c u t0 r0 Hj He. edestruct Replay.contact_trace with (s := s) as [H1 H2]; [exact T1|exact Hpids|exact Hj|exact He|exact Hl|exact T2|exact Hp|exact T3|exact T4|exact Hsteady|..].
    - rewrite (active_carries _ _ _ _ T4), T5. done.
    - by rewrite T5.
    - split; [|exact H2]. intros t' Ht' Hup. destruct (H1 t' Ht' Hup) as [[Hc Hq]|[Hc Hq]]; [exists old|exists l]; split_and!; auto; rewrite T5 in Hc; [by apply Hold|done]. }
  destruct Hch as [x c u Hj|js c u t x Hj He|js c u t rs x Hj He Hl'|js c u t rs f' Hj He Hl'].
  - split; [|done]. intros t' ->%prefix_nil_inv. rewrite T5. simpl. intros Hc. exists old. auto.
  - split; [|done]. by eapply Hrun.
  - split; [|done]. by eapply Hrun.
  - destruct (Hrun _ _ _ _ _ Hj He) as [H1 H2]. split; [done|]. intros _. simpl in Hl'. destruct (set_links_tracked _ _ _ _ _ _ T Hl Hplaced Hprov Hl') as [H3 H4].
    eexists _, l. simpl. split; [|split; [|split; [exact HK|exact H4]]]; [|rewrite (H2 _ eq_refl); exact H3]. done.
Qed.

Lemma ask_after_app s t t' : ask_after p i s (t ++ t') = ask_after p i (ask_after p i s t) t'.
Proof. unfold ask_after. by rewrite fold_left_app. Qed.

Lemma publish_replay identifier d ls n m d' r : publish identifier d ls n m = (d', r) -> d_replay d' = d_replay d.
Proof. unfold publish. destruct (accepted m); by intros [= <- <-]. Qed.

Lemma run_tracked identifier step started total k frames d t d' r limit (K : link -> Prop) :
  run identifier pids step started total k frames d t d' r ->
  forall lv s old, Live.base lv = fab (d_replay d) -> Fabric.Fabric.queue_limit (Live.base lv) = limit -> tracked lv s old ->
  Forall (fun fm : frame * moment => Forall placed (f_links fm.1) /\ Forall steady (f_links fm.1) /\ forall l, l ∈ f_links fm.1 -> source l = a -> target l = b -> K l) frames ->
  (carries old = true -> K old) ->
  forall t', t' `prefix_of` t -> asked_up (ask_after p i s t') = true ->
  exists l f, K l /\ carries l = true /\ Fabric.Fabric.queue_limit f = limit /\ asked_queue (ask_after p i s t') = Some (queue_words f l).
Proof.
  assert (forall lv s old, Fabric.Fabric.queue_limit (Live.base lv) = limit -> tracked lv s old -> (carries old = true -> K old) -> asked_up (ask_after p i s []) = true ->
    exists l f, K l /\ carries l = true /\ Fabric.Fabric.queue_limit f = limit /\ asked_queue (ask_after p i s []) = Some (queue_words f l)) as Hnil.
  { intros lv s old Hq T Hold. rewrite (tr_ask _ _ _ T). simpl. intros Hc. exists old, (Live.base lv). auto. }
  induction 1 as [k d|k fr m l d text Hl1 Hl2|k fr m l d x Hl Hs|k fr m l d ls t d' x Hl Hs Hch|k fr m l d ls t d' d2 x Hl Hs Hch Hpub|k fr m l d ls t d' d2 x Hl Hs Hch Hpub Hset
    |k fr m l d ls t d' d2 bb t2 d3 r Hl Hs Hch Hpub Hset Hrun IH]; intros lv s old Hb Hq T Hfr Hold t' Ht';
    try (apply prefix_nil_inv in Ht' as ->; by eapply Hnil); apply Forall_cons in Hfr as [(Hf1 & Hf2 & Hf3) Hfr]; rewrite <- Hb in Hs;
    destruct (d_replay d) as [fb ch up] eqn:Ed; simpl in Hb; subst fb; cbn [fst] in *; destruct (channels_tracked _ _ _ _ _ _ _ _ _ _ _ _ _ K T Hf1 Hf2 Hold Hf3 Hs Hch) as [H1 H2].
  - intros Hup. destruct (H1 t' Ht' Hup) as (x0 & ? & ? & ?). by exists x0, (Live.base lv).
  - intros Hup. destruct (H1 t' Ht' Hup) as (x0 & ? & ? & ?). by exists x0, (Live.base lv).
  - intros Hup. destruct (H1 t' Ht' Hup) as (x0 & ? & ? & ?). by exists x0, (Live.base lv).
  - destruct (Replay.prefix_of_app _ _ _ Ht') as [Hpre|(w & -> & Hw)].
    + intros Hup. destruct (H1 t' Hpre Hup) as (x0 & ? & ? & ?). by exists x0, (Live.base lv).
    + rewrite ask_after_app. destruct (H2 eq_refl) as (lv' & l' & Hb' & T' & HK' & Hq'). apply (IH lv' _ l'); try done.
      * simpl. rewrite (publish_replay _ _ _ _ _ _ _ Hpub). done.
      * rewrite Hb', Hq'. done.
Qed.

End Horizon.

(** *** The clock and the controller *)

Lemma publish_records identifier d ls n m d' r : publish identifier d ls n m = (d', r) -> records d' = records d.
Proof. unfold publish. destruct (accepted m); by intros [= <- <-]. Qed.

(** Frames are recorded in order, each started no earlier than its time and at most one step late, and published under increasing numbers. *)
Lemma run_records identifier pids step started total k frames d t d' r : run identifier pids step started total k frames d t d' r ->
  Forall (fun x => (0 <= start_lag x <= step)%Q) (records d) -> map index (records d) = seq 0 k -> Forall (fun x => (0 <= start_lag x <= step)%Q) (records d') /\
  (r = Ok tt -> map index (records d') = seq 0 (k + length frames)) /\ (exists n, map index (records d') = seq 0 n).
Proof.
  induction 1 as [k d|k fr m l d text Hl1 Hl2|k fr m l d x Hl Hs|k fr m l d ls t d' x Hl Hs Hch|k fr m l d ls t d' d2 x Hl Hs Hch Hpub|k fr m l d ls t d' d2 x Hl Hs Hch Hpub Hset
    |k fr m l d ls t d' d2 bb t2 d3 r Hl Hs Hch Hpub Hset Hrun IH]; intros Hr Hi; try (split_and!; try done; [by rewrite Nat.add_0_r|by exists k]); try (split_and!; try done; by exists k).
  1-3: assert (records d2 = records d) as E by (by apply publish_records in Hpub).
  - rewrite E. split_and!; try done. by exists k.
  - rewrite E. split_and!; try done. by exists k.
  - simpl in IH. rewrite E in IH.
    destruct IH as (H1 & H2 & H3); [apply Forall_app_2; [exact Hr|apply Forall_singleton; exact Hl]|rewrite map_app, Hi; symmetry; apply seq_S|]. split_and!; try done. intros Hok. rewrite (H2 Hok). cbn [length]. by rewrite Nat.add_succ_r.
Qed.

(** C4.  A whole horizon forwards on computed contacts only: over any number of frames, with any interleaving of the commands, and also when some frame fails
    half-way, whenever an interface is up its queue is that of a link that carries traffic, the one before the run or one of a frame; every frame that was
    applied started no earlier than its time and at most one step late, and a run that succeeds has applied all of them in order. *)
Theorem replay_shaped ends identifier pids step started frames lv t d r a b i p old s :
  (forall n m p, pid_of pids n = Ok p -> pid_of pids m = Ok p -> n = m) -> pid_of pids a = Ok p -> tracked ends a b i lv s old ->
  Forall (fun fm : frame * moment => Forall (placed ends) (f_links fm.1) /\ Forall steady (f_links fm.1)) frames ->
  run identifier pids step started (length frames) 0 frames (start (Live.base lv)) t d r ->
  (forall t', t' `prefix_of` t -> asked_up (ask_after p i s t') = true ->
     exists l, (l = old \/ exists fr m, (fr, m) ∈ frames /\ l ∈ f_links fr /\ source l = a /\ target l = b) /\ carries l = true /\
       asked_queue (ask_after p i s t') = Some (queue_words (Live.base lv) l)) /\
  Forall (fun x => (0 <= start_lag x <= step)%Q) (records d) /\ (r = Ok tt -> map index (records d) = seq 0 (length frames)).
Proof.
  intros Hpids Hp T Hfr Hrun. split.
  - intros t' Ht' Hup. set (K := fun l : link => l = old \/ exists fr m, (fr, m) ∈ frames /\ l ∈ f_links fr /\ source l = a /\ target l = b).
    destruct (run_tracked ends a b i p pids Hpids Hp identifier step started (length frames) 0 frames (start (Live.base lv)) t d r _ K Hrun lv s old eq_refl eq_refl T) with (t' := t') as (l & f & HK & Hc & Hq & E).
    + rewrite Forall_forall in Hfr |- *. intros [fr m] Hin. destruct (Hfr _ Hin) as [H1 H2]. split_and!; try done. intros l Hl Hs Ht. right. by exists fr, m.
    + by left.
    + done.
    + done.
    + exists l. split_and!; try done. rewrite E. f_equal. by apply queue_words_limit.
  - destruct (run_records _ _ _ _ _ _ _ _ _ _ _ Hrun) as (H1 & H2 & _); [constructor|done|]. done.
Qed.

(** ** Example: one frame over the gateways *)

Definition answers (_ : phase) (c : call) : Jobs.result := if Jobs.starts ["sysctl"] (Jobs.c_args c) then Jobs.Done (JInt 0) else Jobs.Done (JList [JNull]).

Definition example_moment : moment := Moment 10 answers Replay.example_reports (Ok tt) (Ok true) (Ok tt).

Definition example_frames : list (frame * moment) := [(Frame 9 Replay.example_frame, example_moment)].

Definition example_jobs : list Jobs.job := match channel_jobs (Replay_ (Live.base Live.live1) [] 0) Replay.example_pids Replay.example_frame true true with Ok (js, _, _) => js | Err _ => [] end.

Definition example_trace : list (Z * words) := match Jobs.run_in_order answers example_jobs with Some (t, _) => t | None => [] end.

Definition example_ends (identifier : string) : pair_t :=
  if String.eqb identifier "gw-a-sat" then ("gw-a", "sat") else if String.eqb identifier "sat-gw-a" then ("sat", "gw-a") else if String.eqb identifier "sat-gw-b" then ("sat", "gw-b")
  else if String.eqb identifier "gw-b-sat" then ("gw-b", "sat") else if String.eqb identifier "gw-a-gw-b" then ("gw-a", "gw-b") else ("gw-b", "gw-a").

Definition example_records : list (string * list Jobs.record) := match Jobs.run_in_order answers example_jobs with Some (_, rs) => rs | None => [] end.

Definition example_old : link := Live.down (Fabric.Fabric.example_link "gw-a" "gw-b").

Definition example_ask : ask := Ask false (Some (queue_words (Live.base Live.live1) example_old)).

Definition example_fabric : fabric := Live.or_else (Live.base Live.live1) (set_links (Live.base Live.live1) Replay.example_frame).

Definition example_driver : driver :=
  Driver (Replay_ example_fabric [("gw-a", "gw-b")] 6) 100000 [events "run" Replay.example_frame 100000] [Record_ 0 9 (10 - (0 + 9)) true].

Lemma example_tracked : tracked example_ends "gw-a" "gw-b" "sf1" Live.live1 example_ask example_old.
Proof.
  constructor; try (vm_compute; reflexivity).
  - apply Live.live1_built.
  - apply (bool_decide_unpack _). vm_compute. exact I.
  - repeat (apply Forall_cons; split; [vm_compute; reflexivity|]). apply Forall_nil_2.
  - repeat (apply Forall_cons; split; [vm_compute; reflexivity|]). apply Forall_nil_2.
Qed.

Lemma example_replayed : run "run" Replay.example_pids 5 0 1 0 example_frames (start (Live.base Live.live1)) (example_trace ++ []) example_driver (Ok tt).
Proof.
  assert (channels Replay.example_pids (Replay_ (Live.base Live.live1) [] 0) Replay.example_frame true true example_moment example_trace (Replay_ example_fabric [("gw-a", "gw-b")] 6)
    (if true then Replay.verify_readback example_fabric (reports example_moment) else Ok tt)) as Hch.
  { apply (ch_done Replay.example_pids (Replay_ (Live.base Live.live1) [] 0) Replay.example_frame true true example_moment example_jobs [("gw-a", "gw-b")] 6 example_trace example_records example_fabric); [vm_compute; reflexivity| |vm_compute; reflexivity].
    apply Jobs.run_in_order_execute. vm_compute. reflexivity. }
  assert ((if true then Replay.verify_readback example_fabric (reports example_moment) else Ok tt) = Ok tt) as Hv by (vm_compute; reflexivity). rewrite Hv in Hch.
  eapply run_frame with (ls := Replay.example_frame) (b := true); [|vm_compute; reflexivity|exact Hch|reflexivity|reflexivity|].
  - unfold lag, example_moment. simpl. unfold Qle, Qminus. simpl. lia.
  - apply run_end.
Qed.

Lemma replay_shaped_witness : map index (records example_driver) = [0%nat] /\
  asked_queue (ask_after 101 "sf1" example_ask (example_trace ++ [])) = Some (queue_words (Live.base Live.live1) (Replay.up_link "gw-a" "gw-b" 7000)) /\
  exists l, (l = example_old \/ exists fr m, (fr, m) ∈ example_frames /\ l ∈ f_links fr /\ source l = "gw-a" /\ target l = "gw-b") /\ carries l = true /\
    asked_queue (ask_after 101 "sf1" example_ask (example_trace ++ [])) = Some (queue_words (Live.base Live.live1) l).
Proof.
  destruct (replay_shaped example_ends "run" Replay.example_pids 5 0 example_frames Live.live1 (example_trace ++ []) example_driver (Ok tt) "gw-a" "gw-b" "sf1" 101 example_old example_ask)
    as (H1 & _ & H3).
  - intros n m p. unfold pid_of, Replay.example_pids. simpl. repeat case_decide; simpl; congruence.
  - vm_compute. reflexivity.
  - apply example_tracked.
  - apply Forall_singleton. split; (repeat (apply Forall_cons; split; [vm_compute; reflexivity|]); apply Forall_nil_2).
  - apply example_replayed.
  - split; [exact (H3 eq_refl)|]. split; [vm_compute; reflexivity|]. apply H1; [done|]. vm_compute. reflexivity.
Defined.

End ReplayRun.
