(* ===== verification/Host.v ===== *)
(** * Host: the recorded limits of a run (lab/platform/resources.py)

    [prepare] reserves processors for the two radio containers and raises two kernel limits, each recorded before it is changed; [cleanup] puts
    back what is still as the run left it.  A [machine] is the host with the budget object.  A command may fail before or after
    it took effect: an [answer] says both.  What [docker update] does to a container is the parameter [update]. *)

From S2P Require Import Prelude Effects Text.
#[local] Open Scope Z_scope.
#[local] Open Scope list_scope.

Module HostBudget.

(** ** Data *)

Record container := Container { c_id : string; project : option string; cpu_set : string; cpu_shares : Z }.

Record host := Host { containers : list (string * container); inotify : list (string * Z); affinity : list Z }.

Record radio := Radio { r_name : string; r_id : string; before_cpu_set : string; before_cpu_shares : Z }.

Record change := Change { before : Z; during : Z }.

Inductive mark := AlreadyRemoved | Restored | SkippedExternalChange.

Record budget := Budget { b_affinity : list Z; radio_cpu : string; data_cpu_set : string; radios : list radio; changed : list (string * change); marks : list (string * mark) }.

Record machine := Machine { m_host : host; m_budget : budget }.

Definition init (h : host) : machine := Machine h (Budget [] "" "" [] [] []).

(** A command: whether it took effect, and how it ended. *)
Record answer := Answer { took : bool; ended : res unit }.

(** What the commands and the files answer, by the container or limit they are about. *)
Record world := World { updates : string -> answer; sysctls : string -> answer; saved : string -> res unit; keepalive : res unit }.

Section Budget.
Context (update : string -> Z -> container -> container) (w : world).

Definition on_host (f : host -> host) (m : machine) : machine := Machine (f (m_host m)) (m_budget m).
Definition on_budget (f : budget -> budget) (m : machine) : machine := Machine (m_host m) (f (m_budget m)).

Definition set_container (n : string) (c : container) (h : host) : host := Host (dset (containers h) n c) (inotify h) (affinity h).
Definition set_inotify (n : string) (v : Z) (h : host) : host := Host (containers h) (dset (inotify h) n v) (affinity h).
Definition set_affinity (l : list Z) (h : host) : host := Host (containers h) (inotify h) l.

Definition add_radio (r : radio) (b : budget) : budget := Budget (b_affinity b) (radio_cpu b) (data_cpu_set b) (radios b ++ [r]) (changed b) (marks b).
Definition add_change (n : string) (c : change) (b : budget) : budget := Budget (b_affinity b) (radio_cpu b) (data_cpu_set b) (radios b) (dset (changed b) n c) (marks b).
Definition add_mark (n : string) (k : mark) (b : budget) : budget := Budget (b_affinity b) (radio_cpu b) (data_cpu_set b) (radios b) (changed b) (marks b ++ [(n, k)]).
Definition set_cpus (aff : list Z) (rc dc : string) (b : budget) : budget := Budget aff rc dc (radios b) (changed b) (marks b).

(** [docker update --cpuset-cpus .. --cpu-shares ..] *)
Definition docker_update (n set : string) (shares : Z) : M machine unit :=
  modify (on_host (fun h => match dget (containers h) n with Some c => if took (updates w n) then set_container n (update set shares c) h else h | None => h end));;
  lift (ended (updates w n)).

(** [sysctl -w fs.inotify.name=value] *)
Definition sysctl (n : string) (v : Z) : M machine unit :=
  modify (on_host (fun h => if took (sysctls w n) then set_inotify n v h else h));;
  lift (ended (sysctls w n)).

Definition cpus (l : list Z) : string := join "," (map pretty l).

(** ** [prepare] *)

Definition reserve (n : string) : M machine unit :=
  m ← get;
  c ← lift (or_raise (RuntimeError n) (dget (containers (m_host m)) n));
  p ← lift (or_raise KeyError (project c));
  lift (if String.eqb p "starfabric-5g" then Ok tt else Err (AssertionError ""));;
  modify (on_budget (add_radio (Radio n (c_id c) (cpu_set c) (cpu_shares c))));;
  lift (saved w n);;
  docker_update n (radio_cpu (m_budget m)) 8192.

Definition raise_limit (nr : string * Z) : M machine unit :=
  m ← get;
  old ← lift (or_raise (OSError nr.1) (dget (inotify (m_host m)) nr.1));
  if nr.2 <=? old then mret tt else
  modify (on_budget (add_change nr.1 (Change old nr.2)));;
  lift (saved w nr.1);;
  sysctl nr.1 nr.2.

Definition limits : list (string * Z) := [("max_user_instances", 4096); ("max_user_watches", 524288)].

Definition prepare : M machine unit :=
  m ← get;
  let available := sort_by Z.leb (affinity (m_host m)) in
  modify (on_budget (set_cpus available "" ""));;
  lift (if len available <? 2 then Err (RuntimeError "live constellation and software radio require at least two available CPUs") else Ok tt);;
  let reserved := if 4 <=? len available then 2%nat else 1%nat in
  modify (on_budget (set_cpus available (cpus (take reserved available)) (cpus (drop reserved available))));;
  forM reserve ["nr_gnb"; "nr_ue"];;
  modify (on_host (set_affinity (drop reserved available)));;
  forM raise_limit limits.

(** ** [cleanup] *)

Definition restore_radio (r : radio) : M machine unit :=
  m ← get;
  match dget (containers (m_host m)) (r_name r) with
  | None => modify (on_budget (add_mark (r_name r) AlreadyRemoved))
  | Some c =>
      if String.eqb (c_id c) (r_id r) && String.eqb (cpu_set c) (radio_cpu (m_budget m)) && (cpu_shares c =? 8192)
      then docker_update (r_name r) (before_cpu_set r) (before_cpu_shares r);; modify (on_budget (add_mark (r_name r) Restored))
      else modify (on_budget (add_mark (r_name r) SkippedExternalChange))
  end.

Definition restore_limit (nc : string * change) : M machine unit :=
  m ← get;
  current ← lift (or_raise (OSError nc.1) (dget (inotify (m_host m)) nc.1));
  if current =? during nc.2 then sysctl nc.1 (before nc.2);; modify (on_budget (add_mark nc.1 Restored))
  else modify (on_budget (add_mark nc.1 SkippedExternalChange)).

Definition cleanup : M machine unit :=
  lift (keepalive w);;
  m ← get;
  forM restore_radio (radios (m_budget m));;
  modify (on_host (fun h => if bool_decide (b_affinity (m_budget m) = []) then h else set_affinity (b_affinity (m_budget m)) h));;
  lift (if bool_decide (radios (m_budget m) = []) then Ok tt else saved w "radio-cpu-budget.json");;
  forM restore_limit (changed (m_budget m));;
  lift (saved w "host-budget.json").

(** ** What the loops of [cleanup] do *)

(** The container still is the one that was reserved, with the values it was given. *)
Definition ours (rc : string) (r : radio) (c : container) : bool := String.eqb (c_id c) (r_id r) && String.eqb (cpu_set c) rc && (cpu_shares c =? 8192).

Definition restored_container (rc : string) (r : radio) (o : option container) : option container :=
  match o with Some c => if ours rc r c then Some (update (before_cpu_set r) (before_cpu_shares r) c) else Some c | None => None end.

Definition restored_limit (c : change) (o : option Z) : option Z := match o with Some v => if v =? during c then Some (before c) else Some v | None => None end.

(** A command that reports success took effect. *)
Definition honest : Prop := (forall n, ended (updates w n) = Ok tt -> took (updates w n) = true) /\ (forall n, ended (sysctls w n) = Ok tt -> took (sysctls w n) = true).

(** What is left alone: the record of the run, and the parts of the host that are not [f]'s. *)
Definition record_of (b : budget) := (b_affinity b, radio_cpu b, radios b, changed b).

Lemma docker_update_run n set shares m : let '(m', r) := docker_update n set shares m in m_budget m' = m_budget m /\ inotify (m_host m') = inotify (m_host m) /\ affinity (m_host m') = affinity (m_host m) /\
  (forall k, k <> n -> dget (containers (m_host m')) k = dget (containers (m_host m)) k) /\
  (dget (containers (m_host m')) n = dget (containers (m_host m)) n \/ exists c, dget (containers (m_host m)) n = Some c /\ dget (containers (m_host m')) n = Some (update set shares c)) /\
  (honest -> r = Ok tt -> forall c, dget (containers (m_host m)) n = Some c -> dget (containers (m_host m')) n = Some (update set shares c)).
Proof.
  unfold docker_update, mbind, M_bind, modify, lift, on_host. cbn [m_host m_budget].
  destruct (dget (containers (m_host m)) n) as [c|] eqn:E; cbn beta iota; [|split_and!; auto; congruence].
  destruct (took (updates w n)) eqn:Et.
  - cbn [set_container containers inotify affinity]. split_and!; try done; [intros k Hk; by rewrite dget_dset_ne|right; exists c; by rewrite dget_dset_eq|].
    intros _ _ c' [= <-]. by rewrite dget_dset_eq.
  - split_and!; auto. intros [Hu _] Hr. rewrite (Hu n Hr) in Et. done.
Qed.

Lemma restore_radio_run r m : let '(m', res) := restore_radio r m in record_of (m_budget m') = record_of (m_budget m) /\ inotify (m_host m') = inotify (m_host m) /\ affinity (m_host m') = affinity (m_host m) /\
  (forall k, k <> r_name r -> dget (containers (m_host m')) k = dget (containers (m_host m)) k) /\
  (dget (containers (m_host m')) (r_name r) = dget (containers (m_host m)) (r_name r) \/
   dget (containers (m_host m')) (r_name r) = restored_container (radio_cpu (m_budget m)) r (dget (containers (m_host m)) (r_name r))) /\
  (honest -> res = Ok tt -> dget (containers (m_host m')) (r_name r) = restored_container (radio_cpu (m_budget m)) r (dget (containers (m_host m)) (r_name r))).
Proof.
  unfold restore_radio, mbind at 1, M_bind, get. destruct (dget (containers (m_host m)) (r_name r)) as [c|] eqn:E; [|simpl; rewrite E; auto 10].
  fold (ours (radio_cpu (m_budget m)) r c). cbn [restored_container]. destruct (ours (radio_cpu (m_budget m)) r c) eqn:Eo; [|simpl; rewrite E; auto 10].
  unfold mbind. pose proof (docker_update_run (r_name r) (before_cpu_set r) (before_cpu_shares r) m) as H. destruct (docker_update _ _ _ m) as [m1 [u|x]]; destruct H as (H1 & H2 & H3 & H4 & H5 & H6); cbn [modify on_budget m_host m_budget].
  - rewrite <- H1. split_and!; auto.
    + destruct H5 as [H5|(c' & Hc & H5)]; [left; congruence|right]. rewrite E in Hc. injection Hc as <-. done.
    + intros Hh _. destruct u. by apply H6.
  - rewrite H1. split_and!; try done. destruct H5 as [H5|(c' & Hc & H5)]; [left; congruence|right]. rewrite E in Hc. injection Hc as <-. done.
Qed.

Lemma restore_radios_run l m m' r : NoDup (map r_name l) -> forM restore_radio l m = (m', r) -> record_of (m_budget m') = record_of (m_budget m) /\ inotify (m_host m') = inotify (m_host m) /\
  affinity (m_host m') = affinity (m_host m) /\ (forall k, k ∉ map r_name l -> dget (containers (m_host m')) k = dget (containers (m_host m)) k) /\
  (forall x, x ∈ l -> (dget (containers (m_host m')) (r_name x) = dget (containers (m_host m)) (r_name x) \/
     dget (containers (m_host m')) (r_name x) = restored_container (radio_cpu (m_budget m)) x (dget (containers (m_host m)) (r_name x))) /\
   (honest -> r = Ok tt -> dget (containers (m_host m')) (r_name x) = restored_container (radio_cpu (m_budget m)) x (dget (containers (m_host m)) (r_name x)))).
Proof.
  intros Hnd H. set (I := fun z => record_of (m_budget z) = record_of (m_budget m) /\ inotify (m_host z) = inotify (m_host m) /\ affinity (m_host z) = affinity (m_host m)).
  pose proof (forM_keyed I honest r_name (fun z => dget (containers (m_host z))) (restored_container (radio_cpu (m_budget m))) restore_radio l m) as HK. rewrite H in HK.
  destruct HK as ((K1 & K2 & K3) & K4 & K5); [|done|done|auto 10]. intros x _ z (Z1 & Z2 & Z3). pose proof (restore_radio_run x z) as HR. destruct (restore_radio x z) as [z' rz].
  destruct HR as (R1 & R2 & R3 & R4 & R5 & R6). assert (radio_cpu (m_budget z) = radio_cpu (m_budget m)) as E by (by injection Z1). rewrite E in R5, R6. unfold I. rewrite R1, R2, R3. auto 10.
Qed.

Lemma restore_limit_run nc m : let '(m', res) := restore_limit nc m in record_of (m_budget m') = record_of (m_budget m) /\ containers (m_host m') = containers (m_host m) /\ affinity (m_host m') = affinity (m_host m) /\
  (forall k, k <> nc.1 -> dget (inotify (m_host m')) k = dget (inotify (m_host m)) k) /\
  (dget (inotify (m_host m')) nc.1 = dget (inotify (m_host m)) nc.1 \/ dget (inotify (m_host m')) nc.1 = restored_limit nc.2 (dget (inotify (m_host m)) nc.1)) /\
  (honest -> res = Ok tt -> dget (inotify (m_host m')) nc.1 = restored_limit nc.2 (dget (inotify (m_host m)) nc.1)).
Proof.
  unfold restore_limit, mbind, M_bind, get, lift. destruct (dget (inotify (m_host m)) nc.1) as [v|] eqn:E; cbn [or_raise]; [|rewrite E; auto 10]. cbn [restored_limit].
  destruct (v =? during nc.2) eqn:Ev; [|cbn; rewrite E; auto 10]. unfold sysctl, mbind, M_bind, modify, lift, on_host, on_budget. cbn [m_host m_budget].
  destruct (took (sysctls w nc.1)) eqn:Et; destruct (ended (sysctls w nc.1)) as [[]|x] eqn:Ee; cbn [m_host m_budget set_inotify inotify containers affinity].
  - split_and!; try done; [intros k Hk; by rewrite dget_dset_ne|right; by rewrite dget_dset_eq|intros _ _; by rewrite dget_dset_eq].
  - split_and!; try done; [intros k Hk; by rewrite dget_dset_ne|right; by rewrite dget_dset_eq].
  - rewrite E. split_and!; auto. intros [_ Hu] _. rewrite (Hu _ Ee) in Et. done.
  - rewrite E. split_and!; auto. done.
Qed.

Lemma restore_limits_run l m m' r : NoDup (map fst l) -> forM restore_limit l m = (m', r) -> record_of (m_budget m') = record_of (m_budget m) /\ containers (m_host m') = containers (m_host m) /\
  affinity (m_host m') = affinity (m_host m) /\ (forall k, k ∉ map fst l -> dget (inotify (m_host m')) k = dget (inotify (m_host m)) k) /\
  (forall nc, nc ∈ l -> (dget (inotify (m_host m')) nc.1 = dget (inotify (m_host m)) nc.1 \/ dget (inotify (m_host m')) nc.1 = restored_limit nc.2 (dget (inotify (m_host m)) nc.1)) /\
   (honest -> r = Ok tt -> dget (inotify (m_host m')) nc.1 = restored_limit nc.2 (dget (inotify (m_host m)) nc.1))).
Proof.
  intros Hnd H. set (I := fun z => record_of (m_budget z) = record_of (m_budget m) /\ containers (m_host z) = containers (m_host m) /\ affinity (m_host z) = affinity (m_host m)).
  pose proof (forM_keyed I honest fst (fun z => dget (inotify (m_host z))) (fun nc => restored_limit nc.2) restore_limit l m) as HK. rewrite H in HK.
  destruct HK as ((K1 & K2 & K3) & K4 & K5); [|done|done|auto 10]. intros x _ z (Z1 & Z2 & Z3). pose proof (restore_limit_run x z) as HR. destruct (restore_limit x z) as [z' rz].
  destruct HR as (R1 & R2 & R3 & R4 & R5 & R6). unfold I. rewrite R1, R2, R3. auto 10.
Qed.

(** What [cleanup] aims at for a container and for a limit: the recorded value where the run's own is still in place. *)
Definition aimed_container (b : budget) (k : string) (o : option container) : option container :=
  match dget (map (fun x => (r_name x, x)) (radios b)) k with Some x => restored_container (radio_cpu b) x o | None => o end.

Definition aimed_limit (b : budget) (k : string) (o : option Z) : option Z := match dget (changed b) k with Some c => restored_limit c o | None => o end.

(** The whole of [cleanup]: whatever it finds and however it ends, a value stays or becomes the one that is aimed at, and a cleanup that succeeds reaches all of them. *)
Lemma cleanup_run m m' r : NoDup (map r_name (radios (m_budget m))) -> NoDup (map fst (changed (m_budget m))) -> cleanup m = (m', r) ->
  let b := m_budget m in let h := m_host m in let h' := m_host m' in
  (forall k, (dget (containers h') k = dget (containers h) k \/ dget (containers h') k = aimed_container b k (dget (containers h) k)) /\
     (honest -> r = Ok tt -> dget (containers h') k = aimed_container b k (dget (containers h) k))) /\
  (forall k, (dget (inotify h') k = dget (inotify h) k \/ dget (inotify h') k = aimed_limit b k (dget (inotify h) k)) /\
     (honest -> r = Ok tt -> dget (inotify h') k = aimed_limit b k (dget (inotify h) k))) /\
  (affinity h' = affinity h \/ affinity h' = b_affinity b) /\ (r = Ok tt -> b_affinity b <> [] -> affinity h' = b_affinity b).
Proof.
  intros Hn1 Hn2. unfold cleanup. intros [(u & m0 & [= <- _] & H)|(x & [= <- _] & ->)]%bind_run; [|cbn; split_and!; [intros k; split; [by left|done]|intros k; split; [by left|done]|by left|done]].
  apply bind_run in H as [(z & m0 & [= <- <-] & H)|(x & H & _)]; [|done]. cbn zeta. set (b := m_budget m) in *. set (h := m_host m) in *.
  assert (forall m1 r1, forM restore_radio (radios b) m = (m1, r1) -> record_of (m_budget m1) = record_of b /\ inotify (m_host m1) = inotify h /\ affinity (m_host m1) = affinity h /\
    forall k, (dget (containers (m_host m1)) k = dget (containers h) k \/ dget (containers (m_host m1)) k = aimed_container b k (dget (containers h) k)) /\
     (honest -> r1 = Ok tt -> dget (containers (m_host m1)) k = aimed_container b k (dget (containers h) k))) as HR.
  { intros m1 r1 (R1 & R2 & R3 & R4 & R5)%restore_radios_run; [|done]. split_and!; try done. intros k. unfold aimed_container. destruct (dget (map (fun x => (r_name x, x)) (radios b)) k) as [x|] eqn:E.
    - apply dget_Some_in, list_elem_of_In, in_map_iff in E as (y & [= <- <-] & Hy%list_elem_of_In). by apply R5.
    - rewrite R4; [auto|]. intros Hk. apply dget_None in E. apply E. unfold dkeys. by rewrite map_map. }
  apply bind_run in H as [(u1 & m1 & H1 & H)|(x & H1 & ->)]; destruct (HR _ _ H1) as (R1 & R2 & R3 & R4); [|rewrite R2, R3; split_and!; [intros k; split; [apply R4|done]|intros k; split; [by left|done]|by left|done]].
  apply bind_run in H as [(u2 & m2 & [= <- _] & H)|(x & H & _)]; [|done]. destruct u1.
  assert (let h1 := if bool_decide (b_affinity b = []) then m_host m1 else set_affinity (b_affinity b) (m_host m1) in
    containers h1 = containers (m_host m1) /\ inotify h1 = inotify h /\ (affinity h1 = affinity h \/ affinity h1 = b_affinity b) /\ (b_affinity b <> [] -> affinity h1 = b_affinity b)) as (A1 & A2 & A3 & A4).
  { cbn zeta. destruct (bool_decide_reflect (b_affinity b = [])) as [Ha|Ha]; split_and!; try done; auto. }
  set (m2 := on_host _ m1) in H. change (if bool_decide (b_affinity b = []) then m_host m1 else set_affinity (b_affinity b) (m_host m1)) with (m_host m2) in *. cbn zeta in A1, A2, A3, A4.
  apply bind_run in H as [(u3 & m3 & [= <- _] & H)|(x & [= <- _] & ->)].
  2: { rewrite A1, A2. split_and!; [intros k; split; [apply R4|done]|intros k; split; [by left|done]|done|done]. }
  assert (forall m4 r4, forM restore_limit (changed b) m2 = (m4, r4) -> containers (m_host m4) = containers (m_host m1) /\ affinity (m_host m4) = affinity (m_host m2) /\
    forall k, (dget (inotify (m_host m4)) k = dget (inotify h) k \/ dget (inotify (m_host m4)) k = aimed_limit b k (dget (inotify h) k)) /\
     (honest -> r4 = Ok tt -> dget (inotify (m_host m4)) k = aimed_limit b k (dget (inotify h) k))) as HL.
  { intros m4 r4 (L1 & L2 & L3 & L4 & L5)%restore_limits_run; [|done]. rewrite L2, L3, A1. split_and!; try done. intros k. unfold aimed_limit. rewrite <- A2. destruct (dget (changed b) k) as [x|] eqn:E.
    - apply dget_Some_in in E. exact (L5 _ E).
    - rewrite L4; [auto|]. intros Hk. apply dget_None in E. by apply E. }
  apply bind_run in H as [(u4 & m4 & H4 & H)|(x & H4 & ->)]; destruct (HL _ _ H4) as (L1 & L2 & L3).
  - destruct u4. injection H as <- Hr. rewrite L1, L2. split_and!; [intros k; destruct (R4 k); auto|intros k; destruct (L3 k); auto|done|auto].
  - rewrite L1, L2. split_and!; [intros k; split; [apply R4|done]|intros k; split; [apply L3|done]|done|done].
Qed.

(** ** What [prepare] leaves *)

Definition radio_of (k : string) (c : container) : radio := Radio k (c_id c) (cpu_set c) (cpu_shares c).

(** The host as [prepare] found it, and the machine at any point of it: everything is as it was or was recorded before it was changed. *)
Record prepared (h : host) (m : machine) : Prop := {
  pr_names : NoDup (map r_name (radios (m_budget m)));
  pr_limits : d_ok (changed (m_budget m));
  pr_radios x : x ∈ radios (m_budget m) -> r_name x ∈ ["nr_gnb"; "nr_ue"] /\ radio_cpu (m_budget m) <> "" /\ exists c, dget (containers h) (r_name x) = Some c /\ x = radio_of (r_name x) c;
  pr_changes k ch : dget (changed (m_budget m)) k = Some ch -> (k, during ch) ∈ limits /\ dget (inotify h) k = Some (before ch) /\ before ch < during ch;
  pr_containers k : dget (containers (m_host m)) k = dget (containers h) k \/
    exists c, dget (containers h) k = Some c /\ radio_of k c ∈ radios (m_budget m) /\ dget (containers (m_host m)) k = Some (update (radio_cpu (m_budget m)) 8192 c);
  pr_inotify k : dget (inotify (m_host m)) k = dget (inotify h) k \/
    exists ch, dget (changed (m_budget m)) k = Some ch /\ dget (inotify (m_host m)) k = Some (during ch);
  pr_affinity : b_affinity (m_budget m) = sort_by Z.leb (affinity h) }.

Lemma reserve_prepared h n m : prepared h m -> radio_cpu (m_budget m) <> "" -> n ∈ ["nr_gnb"; "nr_ue"] -> n ∉ map r_name (radios (m_budget m)) ->
  let '(m', r) := reserve n m in prepared h m' /\ radio_cpu (m_budget m') = radio_cpu (m_budget m) /\ forall k, k ∈ map r_name (radios (m_budget m')) -> k = n \/ k ∈ map r_name (radios (m_budget m)).
Proof.
  intros P Hrc Hin Hnew. unfold reserve, mbind at 1, M_bind, get. unfold mbind at 1, lift at 1. destruct (dget (containers (m_host m)) n) as [c|] eqn:E; cbn [or_raise]; [|auto].
  unfold mbind at 1, lift at 1. destruct (project c) as [p|]; cbn [or_raise]; [|auto]. unfold mbind at 1, lift at 1. destruct (String.eqb p "starfabric-5g"); [|auto].
  unfold mbind at 1, modify at 1. set (m1 := on_budget (add_radio _) m).
  assert (dget (containers h) n = Some c) as Hc.
  { destruct (pr_containers _ _ P n) as [H|(c0 & _ & H & _)]; [congruence|]. exfalso. apply Hnew. by apply (list_elem_of_fmap_2 r_name) in H. }
  assert (forall k, k ∈ map r_name (radios (m_budget m1)) -> k = n \/ k ∈ map r_name (radios (m_budget m))) as Hk.
  { intros k. unfold m1. cbn [m_budget on_budget add_radio radios]. rewrite map_app. intros [?|?%list_elem_of_singleton]%elem_of_app; auto. }
  assert (prepared h m1) as P1.
  { destruct P as [P1 P2 P3 P4 P5 P6 P7]. constructor; cbn [m_budget m_host m1 on_budget add_radio radios changed radio_cpu b_affinity]; try done.
    - rewrite map_app. apply NoDup_app. split_and!; [done| |apply NoDup_singleton]. intros x Hx ->%list_elem_of_singleton. done.
    - intros x [Hx| ->%list_elem_of_singleton]%elem_of_app; [by apply P3|]. cbn [r_name]. split_and!; try done. by exists c.
    - intros k. destruct (P5 k) as [H|(c0 & ? & ? & ?)]; [by left|right]. exists c0. split_and!; try done. apply elem_of_app. by left. }
  unfold mbind at 1, lift at 1. destruct (saved w n) as [[]|x]; [|auto]. pose proof (docker_update_run n (radio_cpu (m_budget m)) 8192 m1) as HU. destruct (docker_update n _ 8192 m1) as [m2 r]. destruct HU as (U1 & U2 & U3 & U4 & U5 & _).
  rewrite U1. split_and!; try done. destruct P1 as [P1 P2 P3 P4 P5 P6 P7]. constructor; rewrite ?U1; try done.
  - intros k. destruct (decide (k = n)) as [->|Hne]; [|rewrite U4 by done; apply P5]. destruct U5 as [->|(c' & Hc' & ->)]; [apply P5|]. right. change (m_host m1) with (m_host m) in Hc'. rewrite E in Hc'. injection Hc' as <-.
    exists c. split_and!; try done. unfold m1. cbn [m_budget on_budget add_radio radios]. apply elem_of_app. right. by left.
  - intros k. rewrite U2. apply P6.
Qed.

Lemma raise_limit_prepared h nr m : prepared h m -> nr ∈ limits -> dget (changed (m_budget m)) nr.1 = None ->
  let '(m', r) := raise_limit nr m in prepared h m' /\ forall k, k <> nr.1 -> dget (changed (m_budget m')) k = dget (changed (m_budget m)) k.
Proof.
  intros P Hin Hnew. unfold raise_limit, mbind at 1, M_bind, get. unfold mbind at 1, lift at 1. destruct (dget (inotify (m_host m)) nr.1) as [old|] eqn:E; cbn [or_raise]; [|auto].
  destruct (Z.leb_spec nr.2 old) as [Hle|Hlt]; [cbn; auto|]. unfold mbind at 1, modify at 1. set (m1 := on_budget (add_change _ _) m).
  assert (dget (inotify h) nr.1 = Some old) as Ho. { destruct (pr_inotify _ _ P nr.1) as [H|(ch & H & _)]; congruence. }
  assert (forall k, k <> nr.1 -> dget (changed (m_budget m1)) k = dget (changed (m_budget m)) k) as Hk by (intros k Hk; unfold m1; cbn [m_budget on_budget add_change changed]; by rewrite dget_dset_ne).
  assert (dget (changed (m_budget m1)) nr.1 = Some (Change old nr.2)) as Hown by (unfold m1; cbn [m_budget on_budget add_change changed]; by rewrite dget_dset_eq).
  assert (prepared h m1) as P1.
  { destruct P as [P1 P2 P3 P4 P5 P6 P7]. constructor; try done.
    - unfold m1. cbn [m_budget on_budget add_change changed]. by apply d_ok_dset.
    - intros k ch. destruct (decide (k = nr.1)) as [->|Hne]; [rewrite Hown; intros [= <-]|rewrite Hk by done; apply P4]. cbn [before during]. split_and!; try done. by destruct nr.
    - intros k. change (m_host m1) with (m_host m). destruct (P6 k) as [H|(ch & H1 & H2)]; [by left|right]. exists ch. rewrite Hk; [done|]. intros ->. congruence. }
  unfold mbind at 1, lift at 1. destruct (saved w nr.1) as [[]|x]; [|auto]. unfold sysctl, mbind, M_bind, modify, lift, on_host. destruct (took (sysctls w nr.1)); [|by destruct m1].
  cbn [m_budget]. split; [|done]. destruct P1 as [P1 P2 P3 P4 P5 P6 P7]. constructor; try done. intros k. cbn [m_host m_budget set_inotify inotify].
  destruct (decide (k = nr.1)) as [->|Hne]; [rewrite dget_dset_eq; right; by exists (Change old nr.2)|]. rewrite dget_dset_ne by done. apply P6.
Qed.

Lemma cpus_nonempty x l : cpus (x :: l) <> "".
Proof. unfold cpus. cbn [map join]. pose proof (pretty_nonempty x) as Hx. destruct (pretty x); [done|]. by destruct (map pretty l). Qed.

Lemma prepare_prepared h m r : prepare (init h) = (m, r) -> prepared h m.
Proof.
  unfold prepare. intros [(z & m0 & [= <- <-] & H)|(x & H & _)]%bind_run; [|done]. cbn [m_host init] in H. set (available := sort_by Z.leb (affinity h)) in *. cbn zeta in H.
  apply bind_run in H as [(u & m1 & [= <- _] & H)|(x & H & _)]; [|done].
  assert (forall rc dc, prepared h (on_budget (set_cpus available rc dc) (init h))) as P0.
  { intros rc dc. constructor; cbn; try done; auto; [constructor|apply NoDup_nil_2|by intros x ?%not_elem_of_nil]. }
  apply bind_run in H as [(u1 & m1 & [= <- Hlen] & H)|(x & [= <- _] & _)]; [|apply P0]. set (reserved := if 4 <=? len available then 2%nat else 1%nat) in *.
  apply bind_run in H as [(u2 & m1 & [= <- _] & H)|(x & H & _)]; [|done]. set (m1 := on_budget _ (on_budget _ (init h))) in H.
  assert (prepared h m1) as P1 by apply P0. assert (radio_cpu (m_budget m1) <> "") as Hrc.
  { unfold m1. cbn [m_budget on_budget set_cpus radio_cpu]. destruct available as [|x l]; [done|]. unfold reserved. destruct (4 <=? _); apply cpus_nonempty. }
  assert (let '(m2, r2) := forM reserve ["nr_gnb"; "nr_ue"] m1 in prepared h m2 /\ changed (m_budget m2) = []) as HR.
  { assert (keeps (fun z => changed (m_budget z)) (forM reserve ["nr_gnb"; "nr_ue"])) as Hkeep.
    { apply keeps_forM. intros x _. unfold reserve. apply keeps_bind; [apply keeps_get|intros y]. apply keeps_bind; [apply keeps_lift|intros c]. apply keeps_bind; [apply keeps_lift|intros p]. apply keeps_bind; [apply keeps_lift|intros _].
      apply keeps_bind; [by apply keeps_modify|intros _]. apply keeps_bind; [apply keeps_lift|intros _]. unfold docker_update. apply keeps_bind; [by apply keeps_modify|intros _; apply keeps_lift]. }
    specialize (Hkeep m1). cbn [forM] in *. unfold mbind, M_bind in *. pose proof (reserve_prepared h "nr_gnb" m1 P1 Hrc ltac:(left) ltac:(apply not_elem_of_nil)) as H1. destruct (reserve "nr_gnb" m1) as [m2 [u3|x]]; destruct H1 as (Q1 & Q2 & Q3); [|done].
    pose proof (reserve_prepared h "nr_ue" m2 Q1 ltac:(by rewrite Q2) ltac:(right; left)) as H2. destruct (reserve "nr_ue" m2) as [m3 [u4|x]]; (destruct H2 as (Q4 & _); [intros [[=]|Hn%not_elem_of_nil]%Q3; done|done]). }
  apply bind_run in H as [(u3 & m2 & H2 & H)|(x & H2 & _)]; rewrite H2 in HR; destruct HR as [P2 Hch]; [|done].
  apply bind_run in H as [(u4 & m3 & [= <- _] & H)|(x & H & _)]; [|done]. set (m3 := on_host _ m2) in H. assert (prepared h m3) as P3 by (by destruct P2).
  unfold limits in H. cbn [forM] in H. pose proof (raise_limit_prepared h ("max_user_instances", 4096) m3 P3 ltac:(left) ltac:(by rewrite (Hch : changed (m_budget m3) = []))) as H3.
  apply bind_run in H as [(u5 & m4 & H4 & H)|(x & H4 & _)]; rewrite H4 in H3; destruct H3 as [P4 Hk]; [|done].
  assert (dget (changed (m_budget m4)) "max_user_watches" = None) as Hnone by (rewrite Hk by done; by rewrite (Hch : changed (m_budget m3) = [])).
  pose proof (raise_limit_prepared h ("max_user_watches", 524288) m4 P4 ltac:(right; left) Hnone) as H5.
  apply bind_run in H as [(u6 & m5 & H6 & H)|(x & H6 & _)]; rewrite H6 in H5; destruct H5 as [P5 _]; [by injection H as <-|done].
Qed.

End Budget.

(** ** A radio that is given its recorded values back *)

Section Given.
Context (update : string -> Z -> container -> container).
Hypothesis update_documented : forall set shares c, update set shares c = Container (c_id c) (project c) (if String.eqb set "" then cpu_set c else set) (if shares =? 0 then cpu_shares c else shares).

Lemma update_same c : update (cpu_set c) (cpu_shares c) c = c.
Proof. rewrite update_documented. destruct c as [i p s n]. cbn [cpu_set cpu_shares c_id project]. by destruct (String.eqb s ""), (n =? 0). Qed.

Lemma given_back rc x c : rc <> "" -> r_id x = c_id c -> restored_container update rc x (Some (update rc 8192 c)) =
  Some (Container (c_id c) (project c) (if String.eqb (before_cpu_set x) "" then rc else before_cpu_set x) (if before_cpu_shares x =? 0 then 8192 else before_cpu_shares x)).
Proof.
  intros Hrc%String.eqb_neq Hid. rewrite update_documented, Hrc. unfold restored_container, ours. cbn [c_id project cpu_set cpu_shares Z.eqb]. rewrite Hid, !String.eqb_refl. cbn [andb Z.eqb Pos.eqb].
  by rewrite update_documented.
Qed.
End Given.

(** C31.  What a run gives back: [prepare] may fail at any point, with a command that took effect or did not; when nobody else has touched the limits since, a cleanup that succeeds leaves every kernel limit
    and every container exactly as [prepare] found them and the driver on the processors it had, with one exception, which is stated exactly: a radio container that had no processor set or no shares of its own
    (the defaults, an empty string and 0) may keep the processors or the shares of the run, because the command reads these two values as nothing to change.  [docker update] is the documented one: a flag with
    an empty string or 0 changes nothing.  The driver is assumed to run on at least one processor. *)
Theorem budget_roundtrip update w w' h m r m' :
  (forall set shares c, update set shares c = Container (c_id c) (project c) (if String.eqb set "" then cpu_set c else set) (if shares =? 0 then cpu_shares c else shares)) -> affinity h <> [] ->
  prepare update w (init h) = (m, r) -> honest w' -> cleanup update w' m = (m', Ok tt) ->
  (forall k, dget (containers (m_host m')) k = dget (containers h) k \/
     k ∈ ["nr_gnb"; "nr_ue"] /\ exists c, dget (containers h) k = Some c /\ (cpu_set c = "" \/ cpu_shares c = 0) /\
       dget (containers (m_host m')) k = Some (Container (c_id c) (project c) (if String.eqb (cpu_set c) "" then radio_cpu (m_budget m) else cpu_set c) (if cpu_shares c =? 0 then 8192 else cpu_shares c))) /\
  (forall k, dget (inotify (m_host m')) k = dget (inotify h) k) /\ affinity (m_host m') ≡ₚ affinity h.
Proof.
  intros Hup Hne Hp Hh Hc. apply prepare_prepared in Hp as [P1 P2 P3 P4 P5 P6 P7]. apply cleanup_run in Hc as (C1 & C2 & _ & C4); [|done|done]. split_and!.
  - intros k. rewrite (proj2 (C1 k) Hh eq_refl). unfold aimed_container. destruct (dget (map _ _) k) as [x|] eqn:E.
    + apply dget_Some_in, list_elem_of_In, in_map_iff in E as (y & [= <- <-] & Hy%list_elem_of_In). destruct (P3 _ Hy) as (Hin & Hrc & c & Hc & Hx).
      destruct (P5 (r_name y)) as [->|(c' & Hc' & _ & ->)]; rewrite Hc; [left; unfold restored_container; rewrite Hx; destruct (ours _ _ _); [|done]; cbn [radio_of before_cpu_set before_cpu_shares]; by rewrite (update_same _ Hup)|].
      rewrite Hc in Hc'. injection Hc' as <-. rewrite (given_back _ Hup) by (done || rewrite Hx; done). rewrite Hx. cbn [radio_of before_cpu_set before_cpu_shares].
      destruct (decide (cpu_set c = "" \/ cpu_shares c = 0)) as [Hd|Hd]; [right; split; [by rewrite Hx in Hin|]; by exists c|]. left.
      assert (cpu_set c <> "" /\ cpu_shares c <> 0) as [Hs%String.eqb_neq Hz%Z.eqb_neq] by tauto. rewrite Hs, Hz. by destruct c.
    + left. destruct (P5 k) as [->|(c & _ & Hin & _)]; [done|]. exfalso. apply dget_None in E. apply E. unfold dkeys. rewrite map_map. by apply (list_elem_of_fmap_2 r_name) in Hin.
  - intros k. rewrite (proj2 (C2 k) Hh eq_refl). unfold aimed_limit. destruct (dget (changed (m_budget m)) k) as [ch|] eqn:E.
    + destruct (P4 _ _ E) as (_ & Hb & Hlt). destruct (P6 k) as [->|(ch' & Hch & ->)]; unfold restored_limit.
      * rewrite Hb. destruct (Z.eqb_spec (before ch) (during ch)); [lia|done].
      * rewrite E in Hch. injection Hch as <-. rewrite Z.eqb_refl. done.
    + destruct (P6 k) as [->|(ch & Hch & _)]; [done|congruence].
  - rewrite C4; [rewrite P7; apply sort_by_perm|done|]. rewrite P7. intros H0. apply Hne, Permutation_nil. rewrite <- H0. apply sort_by_perm.
Qed.

(** C40.  Other operators are respected: whatever has happened to the host since [prepare], and however [cleanup] ends, it changes a container only if it is one of the two radios, the same one as before and still with the
    processors and shares of the run, and a kernel limit only if the run raised it and it still has the run's value; and then it writes the recorded value. *)
Theorem operators_respected update w w' h m r h' m' r' : prepare update w (init h) = (m, r) -> cleanup update w' (Machine h' (m_budget m)) = (m', r') ->
  (forall k, dget (containers (m_host m')) k <> dget (containers h') k -> k ∈ ["nr_gnb"; "nr_ue"] /\
     exists c0 c, dget (containers h) k = Some c0 /\ dget (containers h') k = Some c /\ c_id c = c_id c0 /\ cpu_set c = radio_cpu (m_budget m) /\ cpu_shares c = 8192 /\
       dget (containers (m_host m')) k = Some (update (cpu_set c0) (cpu_shares c0) c)) /\
  (forall k, dget (inotify (m_host m')) k <> dget (inotify h') k -> exists old required, (k, required) ∈ limits /\ dget (inotify h) k = Some old /\ old < required /\
     dget (inotify h') k = Some required /\ dget (inotify (m_host m')) k = Some old).
Proof.
  intros Hp Hc. apply prepare_prepared in Hp as [P1 P2 P3 P4 P5 P6 P7]. apply cleanup_run in Hc as (C1 & C2 & _); [|done|done]. cbn [m_host m_budget] in C1, C2. split.
  - intros k Hne. destruct (proj1 (C1 k)) as [H|H]; [done|]. rewrite H in Hne |- *. unfold aimed_container in *. destruct (dget (map _ _) k) as [x|] eqn:E; [|done].
    apply dget_Some_in, list_elem_of_In, in_map_iff in E as (y & [= <- <-] & Hy%list_elem_of_In). destruct (P3 _ Hy) as (Hin & _ & c0 & Hc0 & Hx). split; [done|]. exists c0.
    unfold restored_container in *. destruct (dget (containers h') (r_name y)) as [c|]; [|done]. exists c. destruct (ours _ y c) eqn:Eo; [|done]. unfold ours in Eo.
    apply andb_true_iff in Eo as [[E1%String.eqb_eq E2%String.eqb_eq]%andb_true_iff E3%Z.eqb_eq]. rewrite Hx in E1 |- *. cbn [radio_of r_id before_cpu_set before_cpu_shares r_name] in *. by split_and!.
  - intros k Hne. destruct (proj1 (C2 k)) as [H|H]; [done|]. rewrite H in Hne |- *. unfold aimed_limit in *. destruct (dget (changed (m_budget m)) k) as [ch|] eqn:E; [|done].
    destruct (P4 _ _ E) as (Hin & Hb & Hlt). unfold restored_limit in *. destruct (dget (inotify h') k) as [v|]; [|done]. destruct (v =? during ch) eqn:Ev; [|done]. apply Z.eqb_eq in Ev. exists (before ch), (during ch). split_and!; try done. by rewrite Ev.
Qed.

(** ** Example: the second radio belongs to another project, so [prepare] fails half-way *)

Definition example_update (set : string) (shares : Z) (c : container) : container :=
  Container (c_id c) (project c) (if String.eqb set "" then cpu_set c else set) (if shares =? 0 then cpu_shares c else shares).

Definition example_host : host :=
  Host [("nr_gnb", Container "a1" (Some "starfabric-5g") "0-7" 1024); ("nr_ue", Container "b2" (Some "other") "0-7" 512); ("upf", Container "c3" (Some "starfabric-5g") "" 0)]
    [("max_user_instances", 128); ("max_user_watches", 1048576)] [1; 0; 2; 3].

Definition works : world := World (fun _ => Answer true (Ok tt)) (fun _ => Answer true (Ok tt)) (fun _ => Ok tt) (Ok tt).

Definition example_prepared : machine * res unit := prepare example_update works (init example_host).

Lemma example_reserved : example_prepared.2 = Err (AssertionError "") /\ dget (containers (m_host example_prepared.1)) "nr_gnb" = Some (Container "a1" (Some "starfabric-5g") "0,1" 8192).
Proof. vm_compute. done. Qed.

Lemma works_honest : honest works.
Proof. done. Qed.

Definition example_cleaned : machine * res unit := cleanup example_update works example_prepared.1.

Lemma budget_roundtrip_witness : dget (containers (m_host example_cleaned.1)) "nr_gnb" = Some (Container "a1" (Some "starfabric-5g") "0-7" 1024) /\ affinity (m_host example_cleaned.1) ≡ₚ [1; 0; 2; 3].
Proof.
  destruct (budget_roundtrip example_update works works example_host example_prepared.1 example_prepared.2 example_cleaned.1) as (H1 & _ & H3).
  - done.
  - done.
  - reflexivity.
  - apply works_honest.
  - vm_compute. reflexivity.
  - split; [|exact H3]. destruct (H1 "nr_gnb") as [H|(_ & c & [= <-] & [[=]|[=]] & _)]. exact H.
Defined.

(** An operator has moved the radio to other processors and raised the limit further in the meantime. *)
Definition example_host2 : host :=
  Host [("nr_gnb", Container "a1" (Some "starfabric-5g") "6,7" 8192); ("nr_ue", Container "b2" (Some "starfabric-5g") "0-7" 512)] [("max_user_instances", 8192); ("max_user_watches", 1048576)] [2; 3].

Definition example_late : machine * res unit := cleanup example_update works (Machine example_host2 (m_budget example_prepared.1)).

Lemma operators_respected_witness : dget (containers (m_host example_late.1)) "nr_gnb" = dget (containers example_host2) "nr_gnb" /\ dget (inotify (m_host example_late.1)) "max_user_instances" = Some 8192 /\
  (dget (containers (m_host example_late.1)) "nr_ue" <> dget (containers example_host2) "nr_ue" -> "nr_ue" ∈ ["nr_gnb"; "nr_ue"]).
Proof.
  destruct (operators_respected example_update works works example_host example_prepared.1 example_prepared.2 example_host2 example_late.1 example_late.2) as [H1 _].
  - reflexivity.
  - reflexivity.
  - split; [vm_compute; reflexivity|]. split; [vm_compute; reflexivity|]. intros H. exact (proj1 (H1 "nr_ue" H)).
Defined.

End HostBudget.
