(* ===== verification/Runtime.v ===== *)
(** * Runtime: the live runtime (lab/live/runtime.py)

    [LiveRuntime] is the object that holds the fabric, the controller's plan and the workload manager while a session runs: [tick] applies one orbital
    frame, [loop] schedules the frames, [startup] has the stages of a start and [main] the end of a session.  The operations are computations
    of a state and error monad [M].  What the outside world answers (the privileged worker, the controller, the routers, clocks,
    stop requests) is an argument: a [turn] for a tick, an [iteration] for a turn of the loop.  Texts of exceptions come from [str],
    a parameter.  The event log and the timing fields of the evidence are not part of the state. *)

From S2P Require Import Prelude Effects Bytes Text Channel Fabric LiveModel WorkloadModel Performance Workloads ContactPlan PhysicsJobs Replay Namespace Provision Launch Service.
From Stdlib Require Import QArith.
#[local] Open Scope Z_scope.
#[local] Open Scope list_scope.

Module LiveRuntime.
Import Fabric.Fabric(fabric, link, pair_t, source, target, link_id, operational_up, set_links, directed, links, direct, sorted_pair, pid_of, interface, active, nodes).
Import Live(live, Live_, base, ids, last_present, desired, register, live_built).
Import Jobs(words, execute).
Import Replay(Replay_, channel_jobs, queue_words, ask, Ask, asked_up, asked_queue, ask_after).

(** ** Data *)

(** A plan as the controller's documents carry it; the routes are the texts of their objects. *)
Record plan_doc := PlanDoc { d_plan : Workloads.plan; d_routes : option (list string) }.

Record model_frame := Frame { model_at : string; offset_seconds : Q; f_links : list link; active_pairs : list pair_t }.

Record record := Record_ { index : Z; r_model_at : string; r_offset : Q; forwarding_verified : bool; topology_version : option json; routes_reprogrammed : bool; r_active_pairs : list pair_t }.

(** The services that run next to the 5G session. *)
Record services := Services { s_flows : list Workload.flow; s_step : Q; s_n3_evpn : bool; s_evpn_nodes : list string }.

Record config := Config { pids : list (string * Z); identifier : string; order : list pair_t -> list pair_t; workloads : option services }.

(** What the runtime knows of the controller, and the topology batches it has sent. *)
Record controller := Controller { current_plan : option plan_doc; last_controller_status : option (option plan_doc); route_changes : Z; ground_usable : bool;
  last_sequence : Z; published : list (Z * list link) }.

Record runtime := Runtime { lv : live; ctl : controller; manager : Workloads.manager; kernel : Workloads.kernel; workload_error : option string;
  sequence : Z; phase : string; last_error : option string; applied_at : option string; commands : list (Z * words);
  frames : list model_frame; live_records : list record; live_plans : list (option plan_doc); progress : Progress.progress }.

(** One manifest of channel commands: the commands that ran and the worker's answer. *)
Record attempt := Attempt { a_trace : list (Z * words); a_result : res unit }.

(** The controller's answers to the requests of a tick, in their order.  A document without the key that is read is [None]. *)
Record answers := Answers { accepted : res (option json); status_before : res (option plan_doc); preview : res (option (list string)); reconciled : res (string * plan_doc);
  status_after : res (option plan_doc) }.

Record turn := Turn { wire_result : res unit; configure_result : nat -> res unit; configure_stopped : nat -> bool; first_attempt : attempt; retry_stopped : bool; second_attempt : attempt;
  t_now : string; t_answers : answers; t_inputs : Workloads.inputs; t_writes : Workloads.writes; retire_wire : res unit; retire_configure : res unit; probe_exited : bool }.

(** ** Fields *)

Definition set_lv (l : live) (st : runtime) : runtime :=
  Runtime l (ctl st) (manager st) (kernel st) (workload_error st) (sequence st) (phase st) (last_error st) (applied_at st) (commands st) (frames st) (live_records st) (live_plans st) (progress st).
Definition set_ctl (c : controller) (st : runtime) : runtime :=
  Runtime (lv st) c (manager st) (kernel st) (workload_error st) (sequence st) (phase st) (last_error st) (applied_at st) (commands st) (frames st) (live_records st) (live_plans st) (progress st).
Definition set_work (m : Workloads.manager) (k : Workloads.kernel) (e : option string) (st : runtime) : runtime :=
  Runtime (lv st) (ctl st) m k e (sequence st) (phase st) (last_error st) (applied_at st) (commands st) (frames st) (live_records st) (live_plans st) (progress st).
Definition next_sequence (st : runtime) : runtime :=
  Runtime (lv st) (ctl st) (manager st) (kernel st) (workload_error st) (sequence st + 1) (phase st) (last_error st) (applied_at st) (commands st) (frames st) (live_records st) (live_plans st) (progress st).
Definition set_phase (p : string) (e : option string) (st : runtime) : runtime :=
  Runtime (lv st) (ctl st) (manager st) (kernel st) (workload_error st) (sequence st) p e (applied_at st) (commands st) (frames st) (live_records st) (live_plans st) (progress st).
Definition set_applied (at_ : string) (st : runtime) : runtime :=
  Runtime (lv st) (ctl st) (manager st) (kernel st) (workload_error st) (sequence st) (phase st) (last_error st) (Some at_) (commands st) (frames st) (live_records st) (live_plans st) (progress st).
Definition ran (t : list (Z * words)) (st : runtime) : runtime :=
  Runtime (lv st) (ctl st) (manager st) (kernel st) (workload_error st) (sequence st) (phase st) (last_error st) (applied_at st) (commands st ++ t) (frames st) (live_records st) (live_plans st) (progress st).
Definition set_progress (p : Progress.progress) (st : runtime) : runtime :=
  Runtime (lv st) (ctl st) (manager st) (kernel st) (workload_error st) (sequence st) (phase st) (last_error st) (applied_at st) (commands st) (frames st) (live_records st) (live_plans st) p.

Definition is_Ok {A} (r : res A) : bool := match r with Ok _ => true | Err _ => false end.

Definition truthy (e : option string) : bool := match e with Some s => negb (String.eqb s "") | None => false end.

(** ** One frame *)

Section Runtime.
Context (str : exn -> string) (c : config).

(** New contacts are registered, wired and configured. *)
Definition provision (fr : model_frame) (at_ : Q) (w : turn) : M runtime unit :=
  st ← get;
  r ← lift (Provision.provision (order c) (lv st) (pids c) (f_links fr) at_);
  modify (set_lv r.1);;
  match r.2 with
  | None => mret tt
  | Some _ => lift (wire_result w);; lift (Provision.configure_attempts (configure_result w) (configure_stopped w))
  end.

(** [driver.channels(links, 'live-latest', readback=False)]; the driver's counters, which the live runtime never reads, are left out. *)
Definition channels (ls : list link) (a : attempt) : M runtime unit :=
  st ← get;
  lift (let* _ := channel_jobs (Replay_ (base (lv st)) [] 0) (pids c) ls false false in Ok tt);;
  modify (ran (a_trace a));;
  lift (a_result a);;
  f ← lift (set_links (base (lv st)) ls);
  modify (set_lv (Live_ f (ids (lv st)) (last_present (lv st)))).

(** [except (RuntimeError, subprocess.TimeoutExpired)] *)
Definition channel_caught (x : exn) : bool := match x with RuntimeError _ | TimeoutExpired => true | _ => false end.

Definition apply_channels (ls : list link) (w : turn) : M runtime unit := fun st =>
  match channels ls (first_attempt w) st with
  | (st, Ok _) => (st, Ok tt)
  | (st, Err x) => if channel_caught x then
      if retry_stopped w then (st, Err (InterruptedError "stopped during channel retry")) else channels ls (second_attempt w) st
      else (st, Err x)
  end.

(** The state of the [try] block that tells the controller: what the runtime knows, the topology version and whether the routes were reprogrammed. *)
Record controlled := Controlled { k_ctl : controller; k_version : option json; k_reprogrammed : bool }.

Definition on_ctl (f : controller -> controller) (k : controlled) : controlled := Controlled (f (k_ctl k)) (k_version k) (k_reprogrammed k).

Definition with_plan (p : option plan_doc) (k : controller) : controller :=
  Controller p (last_controller_status k) (route_changes k) (ground_usable k) (last_sequence k) (published k).
Definition with_status (s : option plan_doc) (k : controller) : controller :=
  Controller (current_plan k) (Some s) (route_changes k) (ground_usable k) (last_sequence k) (published k).
Definition with_usable (b : bool) (k : controller) : controller :=
  Controller (current_plan k) (last_controller_status k) (route_changes k) b (last_sequence k) (published k).
Definition with_sequence (n : Z) (k : controller) : controller :=
  Controller (current_plan k) (last_controller_status k) (route_changes k) (ground_usable k) n (published k).
Definition with_batch (n : Z) (ls : list link) (k : controller) : controller :=
  Controller (current_plan k) (last_controller_status k) (route_changes k) (ground_usable k) (last_sequence k) (published k ++ [(n, ls)]).
Definition changed_routes (k : controller) : controller :=
  Controller (current_plan k) (last_controller_status k) (route_changes k + 1) (ground_usable k) (last_sequence k) (published k).

(** [not old or planned['routes'] != old['routes']] *)
Definition routes_differ (old : option plan_doc) (planned : option (list string)) : res bool :=
  match old with
  | None => Ok true
  | Some o => let* p := or_raise KeyError planned in let* q := or_raise KeyError (d_routes o) in Ok (negb (bool_decide (p = q)))
  end.

(** [reconcile] *)
Definition reconcile (a : answers) : res plan_doc :=
  let* (ph, p) := reconciled a in
  raise (AssertionError ph) when negb (String.eqb ph "committed") ;;
  Ok p.

(** [driver.publish]: the number is taken once the controller has accepted the batch. *)
Definition publish (ls : list link) (n : Z) (a : answers) : M controlled (option json) :=
  modify (on_ctl (with_batch n ls));;
  version ← lift (accepted a);
  modify (on_ctl (with_sequence n));;
  mret version.

Definition tell_controller (ls : list link) (n : Z) (a : answers) : M controlled unit :=
  found ← publish ls n a;
  version ← lift (or_raise KeyError found);
  modify (fun k => Controlled (k_ctl k) (Some version) (k_reprogrammed k));;
  old ← lift (status_before a);
  modify (on_ctl (fun k => with_plan old (with_status old k)));;
  planned ← lift (preview a);
  differ ← lift (routes_differ old planned);
  (if differ : bool then
     committed ← lift (reconcile a);
     modify (fun k => Controlled (changed_routes (with_plan (Some committed) (k_ctl k))) (k_version k) true)
   else modify (on_ctl (with_plan old)));;
  status ← lift (status_after a);
  modify (on_ctl (fun k => with_usable true (with_status status k))).

(** [except (RuntimeError, OSError, ValueError, KeyError)] *)
Definition controller_caught (x : exn) : bool :=
  match x with RuntimeError _ | OSError _ | ConnectionError _ | TimeoutError | InterruptedError _ | ValueError _ | KeyError => true | _ => false end.

(** The whole exchange: the topology version, whether the routes were reprogrammed, and the error that degrades the frame. *)
Definition control (ls : list link) (w : turn) : M runtime (option json * bool * option string) := fun st =>
  match tell_controller ls (sequence st) (t_answers w) (Controlled (ctl st) None false) with
  | (k, Ok _) => (set_ctl (k_ctl k) st, Ok (k_version k, k_reprogrammed k, None))
  | (k, Err x) =>
      if controller_caught x then (set_ctl (with_usable false (k_ctl k)) st, Ok (k_version k, k_reprogrammed k, Some (str_tail 1500 (str x))))
      else (set_ctl (k_ctl k) st, Err x)
  end.

(** The environment of the workload manager: the fabric is the runtime's own. *)
Definition env_of (s : services) (f : fabric) : Workloads.env := Workloads.Env f (s_flows s) (pids c) (identifier c) (s_step s) (s_n3_evpn s) (s_evpn_nodes s).

(** [except (RuntimeError, OSError, ValueError, subprocess.TimeoutExpired)] *)
Definition workload_caught (x : exn) : bool :=
  match x with RuntimeError _ | OSError _ | ConnectionError _ | TimeoutError | InterruptedError _ | ValueError _ | TimeoutExpired => true | _ => false end.

Definition update_workloads (w : turn) : M runtime unit := fun st =>
  match workloads c with
  | None => (st, Ok tt)
  | Some s =>
      match Workloads.update (env_of s (base (lv st))) (d_plan <$> current_plan (ctl st)) (t_inputs w) (t_writes w) (manager st) (kernel st) with
      | (m, k, Ok _) => (set_work m k None st, Ok tt)
      | (m, k, Err x) => if workload_caught x then (set_work m k (Some (str_tail 1500 (str x))) st, Ok tt) else (set_work m k (workload_error st) st, Err x)
      end
  end.

(** Contacts that have long been down are removed; they are forgotten once the worker has removed them. *)
Definition retire (at_ : Q) (w : turn) : M runtime unit :=
  st ← get;
  r ← lift (Provision.retire (lv st) (pids c) at_);
  match r.2 with
  | None => mret tt
  | Some _ => lift (retire_wire w);; lift (retire_configure w);; modify (set_lv r.1)
  end.

(** What [workloads_ready] reads. *)
Definition readiness (s : services) (st : runtime) : Schedule.workloads :=
  Schedule.Workloads (map (fun ks => (ks.1, Some (Workloads.status ks.2))) (Workloads.states (manager st))) (len (s_flows s))
    (if s_n3_evpn s then Some (map (fun ks => (ks.1, Some (Workloads.status ks.2))) (Workloads.n3_states (manager st)), len (Fabric.Fabric.service (base (lv st)))) else None).

Definition workloads_ready (st : runtime) : bool := Schedule.workloads_ready ((fun s => readiness s st) <$> workloads c).

(** [publish_snapshot]: the last frames, records and plans. *)
Definition publish_snapshot (fr : model_frame) (r : record) (st : runtime) : runtime :=
  Runtime (lv st) (ctl st) (manager st) (kernel st) (workload_error st) (sequence st) (phase st) (last_error st) (applied_at st) (commands st)
    (last_n 31 (frames st ++ [fr])) (last_n 180 (live_records st ++ [r])) (last_n 31 (live_plans st ++ [current_plan (ctl st)])) (progress st).

Definition tick (fr : model_frame) (at_ : Q) (w : turn) : M runtime record :=
  modify next_sequence;;
  provision fr at_ w;;
  st ← get;
  apply_channels (desired (lv st) (f_links fr)) w;;
  modify (set_applied (t_now w));;
  told ← control (desired (lv st) (f_links fr)) w;
  update_workloads w;;
  retire at_ w;;
  lift (if probe_exited w then Err (RuntimeError "The live UE packet probe exited; business telemetry is unavailable") else Ok tt);;
  modify (set_phase (if truthy told.2 then "degraded" else "running") told.2);;
  st ← get;
  let r := Record_ (sequence st) (model_at fr) (offset_seconds fr) (negb (truthy told.2) && negb (truthy (workload_error st)) && workloads_ready st) told.1.1 told.1.2 (active_pairs fr) in
  modify (publish_snapshot fr r);;
  mret r.

(** ** The schedule *)

(** A frame that was applied: its slot, when it was started and when it was complete. *)
Record applied_frame := Applied { slot : Z; started : Q; completed : Q }.

Record schedule := Schedule_ { current_slot : Z; completed_slots : Z; skipped_slots : Z; history : list applied_frame }.

Record session := Session { rt : runtime; sched : schedule }.

Definition fresh_schedule : schedule := Schedule_ 0 0 0 [].

(** What a turn of the loop sees: the stop flag, the time until the clock is read for the window, the time until it is read for the wait, whether a stop request
    ended the wait, how long after its timeout the wait returned otherwise, the sampled frame, what happens during the tick, whether the logs could be kept, the time from
    the start of the frame until it is complete, and whether its evidence could be written. *)
Record iteration := Iteration { stop_seen : bool; until_check : Q; until_wait : Q; stop_waiting : bool; late : Q; sampled : res model_frame; i_turn : turn;
  kept : res unit; work : Q; written : res unit }.

Definition on_runtime {A} (m : M runtime A) : M session A := fun s => let (st, r) := m (rt s) in (Session st (sched s), r).

(** [max(0, x)] *)
Definition nonneg (x : Q) : Q := if Qle_bool x 0 then 0 else x.

Section Loop.
Context (duration mono_base step : Q).

Definition deadline (s : session) : Q := mono_base + inject_Z (current_slot (sched s)) * step.

Definition complete (started_at completed_at : Q) (s : session) : session :=
  let d := sched s in
  let (following, skipped) := Schedule.next_slot (current_slot d) (completed_at - mono_base) step in
  Session (rt s) (Schedule_ following (completed_slots d + 1) (skipped_slots d + skipped) (history d ++ [Applied (current_slot d) started_at completed_at])).

(** [true] when the loop was left, [false] when it is still running.  [now] is the monotonic clock at the top of the loop; a wait that no stop request ends
    lasts for its timeout and [late]. *)
Fixpoint loop (now : Q) (its : list iteration) : M session bool :=
  match its with
  | [] => mret false
  | it :: its =>
      if stop_seen it then mret true else
      let now := (now + until_check it)%Q in
      if negb (Qeq_bool duration 0) && Qle_bool duration (now - mono_base) then mret true else
      let now := (now + until_wait it)%Q in
      s ← get;
      let timeout := nonneg (deadline s - now) in
      if stop_waiting it then mret true else
      let started_at := (now + timeout + late it)%Q in
      fr ← lift (sampled it);
      _ ← on_runtime (tick fr (started_at - mono_base) (i_turn it));
      lift (kept it);;
      let completed_at := (started_at + work it)%Q in
      modify (complete started_at completed_at);;
      lift (written it);;
      loop completed_at its
  end.

End Loop.

(** ** The start *)

(** A stage: the stop flag when it is entered, the clock, and the flag when its work is over. *)
Record visit := Visit { stop_at_entry : bool; began_at : string; ended_at : string; stop_at_exit : bool }.

Definition on_progress (f : Progress.progress -> Progress.progress * res unit) : M runtime unit := fun st => let (p, r) := f (progress st) in (set_progress p st, r).

(** [try: fn() except Exception as error: ... raise else: ...] *)
Definition attempt_stage (label : string) (v : visit) (fn : M runtime unit) : M runtime unit := fun st =>
  match fn st with
  | (st, Err x) => match on_progress (fun p => Progress.finish p (ended_at v) label (Some (Progress.Raised (str x))) (stop_at_exit v)) st with
                   | (st, Ok _) => (st, Err x)
                   | (st, Err y) => (st, Err y)
                   end
  | (st, Ok _) => on_progress (fun p => Progress.finish p (ended_at v) label None (stop_at_exit v)) st
  end.

Definition stage (label : string) (v : visit) (fn : M runtime unit) : M runtime unit :=
  lift (if stop_at_entry v then Err (InterruptedError "stop requested") else Ok tt);;
  modify (fun st => set_phase label (last_error st) st);;
  on_progress (fun p => Progress.begin p (began_at v) label);;
  attempt_stage label v fn.

(** What the stages call, and the calls between them. *)
Record actions := Actions { record_sources : M runtime unit; prepare_host : M runtime unit; hold_radio : M runtime unit; compile_live : M runtime unit; check_resources : M runtime unit;
  prepare_cloud : M runtime unit; network : M runtime unit; protocols_setup : M runtime unit; workloads_setup : M runtime unit; noc_start : M runtime unit; limit_containers : M runtime unit;
  start_controller : M runtime unit; initial_commit : answers; initial_at : string; route_n3 : M runtime unit; workloads_start : M runtime unit; start_onboard : M runtime unit;
  first_status : res (option plan_doc); first_turn : turn }.

Inductive item := Stage (label : string) (fn : M runtime unit) | Call (fn : M runtime unit).

Definition commit_initial (a : actions) : M runtime unit :=
  p ← lift (reconcile (initial_commit a));
  modify (fun st => set_applied (initial_at a) (set_ctl (with_plan (Some p) (ctl st)) st)).

Definition when_workloads (fn : M runtime unit) : M runtime unit := match workloads c with Some _ => fn | None => mret tt end.

(** [self.workloads.update(self.current_plan)], outside a tick: its errors end the start. *)
Definition first_update (w : turn) : M runtime unit := fun st =>
  match workloads c with
  | None => (st, Ok tt)
  | Some s => let '(m, k, r) := Workloads.update (env_of s (base (lv st))) (d_plan <$> current_plan (ctl st)) (t_inputs w) (t_writes w) (manager st) (kernel st) in
              (set_work m k (workload_error st) st, r)
  end.

Definition startup (a : actions) : list item :=
  [Call (record_sources a); Stage "preparing_host" (prepare_host a); Call (hold_radio a); Stage "computing_initial_orbits" (compile_live a); Stage "checking_resources" (check_resources a);
   Stage "starting_cloud" (prepare_cloud a); Stage "creating_124_routers" (network a); Stage "checking_protocol_neighbors" (protocols_setup a); Call (when_workloads (workloads_setup a));
   Stage "starting_observability" (noc_start a); Call (limit_containers a); Stage "starting_controller" (start_controller a); Stage "committing_initial_routes" (commit_initial a);
   Stage "starting_5g_business" (route_n3 a); Stage "starting_workloads" (when_workloads (workloads_start a)); Stage "starting_120_onboard" (start_onboard a);
   Call (s ← lift (first_status a); modify (fun st => set_phase "running" (last_error st) (set_ctl (with_status s (ctl st)) st)));
   Call (first_update (first_turn a))].

Fixpoint run_items (visits : string -> visit) (l : list item) : M runtime unit :=
  match l with
  | [] => mret tt
  | Stage label fn :: l => stage label (visits label) fn;; run_items visits l
  | Call fn :: l => fn;; run_items visits l
  end.

(** [run_forever]: the held start is published before the first frame. *)
Definition run_forever (a : actions) (visits : string -> visit) (held : model_frame) (topology : json) (duration mono_base step : Q) (its : list iteration) : M session bool :=
  on_runtime (run_items visits (startup a));;
  on_runtime (modify (fun st => publish_snapshot held (Record_ (sequence st) (model_at held) (offset_seconds held) false (Some topology) false (active_pairs held)) st));;
  modify (fun s => Session (rt s) fresh_schedule);;
  loop duration mono_base step mono_base its.

(** ** The end *)



(** [publish_status]: what the status file says of the session. *)
Definition status (st : runtime) : list (string * json) :=
  [("mode", JStr "live"); ("run_id", JStr (identifier c)); ("phase", JStr (phase st)); ("error", match last_error st with Some e => JStr e | None => JNull end);
   ("sequence", JInt (sequence st)); ("route_changes", JInt (route_changes (ctl st)))].





(** [frames_applied] of the session's report. *)
Definition frames_applied (st : runtime) : Z := sequence st - 100000.

(** ** The network *)

Lemma provision_keeps {B} (f : runtime -> B) fr at_ w : (forall l st, f (set_lv l st) = f st) -> keeps f (provision fr at_ w).
Proof. intros H. unfold provision. apply keeps_bind; [auto with keeps|intros st]. apply keeps_bind; [auto with keeps|intros r]. apply keeps_bind; [auto with keeps|intros _]. destruct r.2; auto with keeps. Qed.

Lemma provision_lv fr at_ w st st' : provision fr at_ w st = (st', Ok tt) -> exists l m, Provision.provision (order c) (lv st) (pids c) (f_links fr) at_ = Ok (l, m) /\ st' = set_lv l st.
Proof using c.
  clear str.
  unfold provision. rewrite bind_run_Ok. intros (s & st1 & [= <- <-] & H). apply bind_run_Ok in H as ([l m] & st1 & [= <- Hp] & H). apply bind_run_Ok in H as (u & st2 & [= <- _] & H).
  exists l, m. split; [done|]. cbn [fst snd] in H. destruct m as [m|]; [|by injection H as <-]. apply bind_run_Ok in H as (u2 & st2 & [= <- _] & H). by injection H as <- _.
Qed.

(** The fabric afterwards: it takes over the links only when every command has succeeded. *)
Definition took (ls : list link) (l l' : live) (r : res unit) : Prop :=
  match r with Ok _ => exists f, set_links (base l) ls = Ok f /\ l' = Live_ f (ids l) (last_present l) | Err _ => l' = l end.

Definition computed (ls : list link) (l : live) : Prop := exists jobs, channel_jobs (Replay_ (base l) [] 0) (pids c) ls false false = Ok jobs.

(** One manifest: nothing runs when the commands cannot be computed. *)
Lemma channels_run ls a st st' r : channels ls a st = (st', r) -> exists t l, st' = set_lv l (ran t st) /\ took ls (lv st) l r /\
  ((t = [] /\ is_Ok r = false /\ ~ computed ls (lv st)) \/ (computed ls (lv st) /\ t = a_trace a /\ (is_Ok r = true -> a_result a = Ok tt))).
Proof.
  unfold channels. intros [(s & st1 & [= <- <-] & H)|(x & H & _)]%bind_run; [|done].
  apply bind_run in H as [(u & st1 & [= <- Hj] & H)|(x & [= <- Hj] & ->)].
  2: { exists [], (lv st). split; [destruct st; unfold ran, set_lv; simpl; by rewrite app_nil_r|]. split; [done|]. left. split_and!; try done. intros [jobs Hc]. by rewrite Hc in Hj. }
  apply bind_Ok in Hj as (jobs & Hj & _). apply bind_run in H as [(u2 & st2 & [= <- _] & H)|(x & H & _)]; [|done].
  assert (computed ls (lv st)) as Hc by (by exists jobs). exists (a_trace a).
  apply bind_run in H as [(u3 & st3 & [= <- Ha] & H)|(x & [= <- Hx] & ->)]; [|exists (lv st); split_and!; try done; by right].
  apply bind_run in H as [(f & st4 & [= <- Hf] & H)|(x & [= <- Hx] & ->)]; [|exists (lv st); split_and!; try done; by right].
  injection H as <- <-. exists (Live_ f (ids (lv st)) (last_present (lv st))). destruct u3. split_and!; [done|by exists f|by right].
Qed.

Lemma apply_channels_run ls w st st' r : apply_channels ls w st = (st', r) -> exists t l, st' = set_lv l (ran t st) /\ took ls (lv st) l r /\
  ((t = [] /\ is_Ok r = false) \/ (computed ls (lv st) /\ t = a_trace (first_attempt w) /\ (is_Ok r = true -> a_result (first_attempt w) = Ok tt)) \/
   (computed ls (lv st) /\ t = a_trace (first_attempt w) ++ a_trace (second_attempt w) /\ (is_Ok r = true -> a_result (second_attempt w) = Ok tt))).
Proof using c.
  clear str.
  unfold apply_channels. destruct (channels ls (first_attempt w) st) as [st1 r1] eqn:E. apply channels_run in E as (t & l & -> & Ht & H).
  destruct r1 as [[]|x]; [intros [= <- <-]; exists t, l; split_and!; [done|done|]; destruct H as [(_ & [=] & _)|?]; naive_solver|]. simpl in Ht. subst l.
  assert (forall y, (set_lv (lv st) (ran t st), Err y) = (st', r) -> exists t l, st' = set_lv l (ran t st) /\ took ls (lv st) l r /\
    ((t = [] /\ is_Ok r = false) \/ (computed ls (lv st) /\ t = a_trace (first_attempt w) /\ (is_Ok r = true -> a_result (first_attempt w) = Ok tt)) \/
     (computed ls (lv st) /\ t = a_trace (first_attempt w) ++ a_trace (second_attempt w) /\ (is_Ok r = true -> a_result (second_attempt w) = Ok tt)))) as Hstop.
  { intros y [= <- <-]. exists t, (lv st). split_and!; [done|done|]. naive_solver. }
  destruct (channel_caught x); [|by apply Hstop]. destruct (retry_stopped w); [by apply Hstop|]. intros E2. apply channels_run in E2 as (t2 & l2 & -> & Ht2 & H2). cbn [lv set_lv] in *.
  exists (t ++ t2), l2. split; [destruct st; unfold ran, set_lv; simpl; by rewrite app_assoc|]. split; [done|]. destruct H as [(-> & _ & Hn)|(Hc & -> & _)], H2 as [(-> & Hr & Hn2)|(Hc2 & -> & Hr)]; try done; naive_solver.
Qed.

(** *** The controller and the services *)

(** The batch is sent first, and once. *)
Lemma tell_published ls n a k : published (k_ctl (tell_controller ls n a k).1) = published (k_ctl k) ++ [(n, ls)].
Proof.
  unfold tell_controller, publish. set (k1 := on_ctl (with_batch n ls) k). change (published (k_ctl k) ++ [(n, ls)]) with (published (k_ctl k1)).
  match goal with |- published (k_ctl (?m k).1) = _ => destruct (m k) as [k2 r] eqn:E end. apply bind_run in E as [(v & k3 & Hp & H)|(x & Hp & ->)].
  - apply bind_run in Hp as [(u & k4 & [= <- _] & Hp)|(x & Hp & _)]; [|done]. fold k1 in Hp. apply bind_run in Hp as [(v' & k5 & [= <- _] & Hp)|(x & Hp & [=])]. injection Hp as <- <-.
    cbn [fst]. match type of H with ?m _ = _ => assert (keeps (fun k => published (k_ctl k)) m) as Hk end; [|specialize (Hk (on_ctl (with_sequence n) k1)); by rewrite H in Hk].
    apply keeps_bind; [auto with keeps|intros v]. apply keeps_bind; [auto with keeps|intros _]. apply keeps_bind; [auto with keeps|intros old]. apply keeps_bind; [auto with keeps|intros _].
    apply keeps_bind; [auto with keeps|intros planned]. apply keeps_bind; [auto with keeps|intros differ]. apply keeps_bind; [|intros _; apply keeps_bind; auto with keeps].
    destruct differ; [apply keeps_bind|]; auto with keeps.
  - apply bind_run in Hp as [(u & k4 & [= <- _] & Hp)|(y & Hp & _)]; [|done]. apply bind_run in Hp as [(v' & k5 & [= <- _] & Hp)|(y & [= <- _] & _)]; [done|done].
Qed.

(** An exchange that succeeds has delivered the frame under its number, and the ground is usable again. *)
Lemma tell_ok ls n a k k' : tell_controller ls n a k = (k', Ok tt) -> last_sequence (k_ctl k') = n /\ ground_usable (k_ctl k') = true /\ is_Some (k_version k').
Proof.
  unfold tell_controller, publish. rewrite bind_run_Ok. intros (v & k1 & Hp & H). apply bind_run_Ok in Hp as (u & k2 & [= <- _] & Hp). apply bind_run_Ok in Hp as (v' & k3 & [= <- _] & Hp). injection Hp as <- <-.
  apply bind_run_Ok in H as (version & k4 & [= <- _] & H). apply bind_run_Ok in H as (u1 & k5 & [= <- _] & H). apply bind_run_Ok in H as (old & k6 & [= <- _] & H). apply bind_run_Ok in H as (u2 & k7 & [= <- _] & H).
  apply bind_run_Ok in H as (planned & k8 & [= <- _] & H). apply bind_run_Ok in H as (differ & k9 & [= <- _] & H). apply bind_run_Ok in H as (u3 & k10 & Hd & H). apply bind_run_Ok in H as (s & k11 & [= <- _] & H). injection H as <-. simpl.
  destruct differ; [|by injection Hd as <- _]. apply bind_run_Ok in Hd as (p & k12 & [= <- _] & Hd). by injection Hd as <- _.
Qed.

Lemma control_run ls w st st' r : control ls w st = (st', r) -> exists k, st' = set_ctl k st /\ published k = published (ctl st) ++ [(sequence st, ls)] /\
  (forall told, r = Ok told -> (told.2 = None /\ last_sequence k = sequence st /\ ground_usable k = true /\ is_Some told.1.1) \/
     (exists x, controller_caught x = true /\ told.2 = Some (str_tail 1500 (str x)) /\ ground_usable k = false)).
Proof.
  unfold control. pose proof (tell_published ls (sequence st) (t_answers w) (Controlled (ctl st) None false)) as Hp.
  destruct (tell_controller _ _ _ _) as [k [[]|x]] eqn:E; cbn [fst k_ctl] in Hp.
  - intros [= <- <-]. exists (k_ctl k). split_and!; [done|done|]. intros told [= <-]. left. apply tell_ok in E. naive_solver.
  - destruct (controller_caught x) eqn:Ex; intros [= <- <-].
    + exists (with_usable false (k_ctl k)). split_and!; [done|done|]. intros told [= <-]. right. by exists x.
    + by exists (k_ctl k).
Qed.

Lemma update_workloads_keeps {B} (f : runtime -> B) w : (forall m k e st, f (set_work m k e st) = f st) -> keeps f (update_workloads w).
Proof. intros H st. unfold update_workloads. destruct (workloads c); [|done]. destruct (Workloads.update _ _ _ _ _ _) as [[m k] [u|x]]; [apply H|]. destruct (workload_caught x); apply H. Qed.

Lemma retire_keeps {B} (f : runtime -> B) at_ w : (forall l st, f (set_lv l st) = f st) -> keeps f (retire at_ w).
Proof. intros H. unfold retire. apply keeps_bind; [auto with keeps|intros st]. apply keeps_bind; [auto with keeps|intros r]. destruct r.2; [|auto with keeps]. apply keeps_bind; [auto with keeps|intros _]. apply keeps_bind; auto with keeps. Qed.

(** *** A frame on the interfaces *)

(** What the worker reports of a manifest is what its commands did. *)
Definition real (l : live) (ls : list link) (a : attempt) : Prop :=
  forall js changed updates, channel_jobs (Replay_ (base l) [] 0) (pids c) ls false false = Ok (js, changed, updates) ->
  exists outcome r, execute outcome js (a_trace a) r /\ (a_result a = Ok tt -> exists rs, r = Ok rs).

(** The commands of a tick and the batches it sends, phase by phase. *)
Lemma tick_network fr at_ w st st' r : tick fr at_ w st = (st', r) ->
  (commands st' = commands st /\ published (ctl st') = published (ctl st)) \/
  exists l m st1 rc, Provision.provision (order c) (lv st) (pids c) (f_links fr) at_ = Ok (l, m) /\
    apply_channels (desired l (f_links fr)) w (set_lv l (next_sequence st)) = (st1, rc) /\ commands st' = commands st1 /\
    published (ctl st') = published (ctl st) ++ (if is_Ok rc then [(sequence st + 1, desired l (f_links fr))] else []).
Proof.
  unfold tick. intros [(u & s0 & [= <- _] & H)|(x & H & _)]%bind_run; [|done].
  pose proof (provision_keeps (fun s => (commands s, published (ctl s))) fr at_ w) as Hk. specialize (Hk ltac:(done) (next_sequence st)).
  apply bind_run in H as [([] & s1 & Hp & H)|(x & Hp & ->)]; rewrite Hp in Hk; [|left; by injection Hk as -> ->]. clear Hk. right.
  apply provision_lv in Hp as (l & m & Hp & ->). apply bind_run in H as [(s2 & s3 & [= <- <-] & H)|(x & H & _)]; [|done]. cbn [lv set_lv] in H. exists l, m.
  apply bind_run in H as [([] & s4 & Hc & H)|(x & Hc & ->)].
  2: { exists st', (Err x). split_and!; try done. apply apply_channels_run in Hc as (t & l2 & -> & _). simpl. by rewrite app_nil_r. }
  exists s4, (Ok tt). split; [done|]. split; [done|]. apply bind_run in H as [(u1 & s5 & [= <- _] & H)|(x & H & _)]; [|done].
  assert (sequence s4 = sequence st + 1 /\ published (ctl s4) = published (ctl st)) as [Es Ep] by (apply apply_channels_run in Hc as (t & l2 & -> & _); done).
  apply bind_run in H as [(told & s6 & Ht & H)|(x & Ht & ->)].
  - apply control_run in Ht as (k & -> & Hpub & _). cbn [sequence ctl set_applied] in Hpub. rewrite Es, Ep in Hpub.
    match type of H with ?m _ = _ => assert (keeps (fun s => (commands s, published (ctl s))) m) as Hk end.
    + apply keeps_bind; [by apply update_workloads_keeps|intros _]. apply keeps_bind; [by apply retire_keeps|intros _]. apply keeps_bind; [auto with keeps|intros _]. apply keeps_bind; [auto with keeps|intros _].
      apply keeps_bind; [auto with keeps|intros ?]. apply keeps_bind; auto with keeps.
    + specialize (Hk (set_ctl k (set_applied (t_now w) s4))). rewrite H in Hk. injection Hk as -> ->. split; [done|]. exact Hpub.
  - apply control_run in Ht as (k & -> & Hpub & _). cbn [sequence ctl set_applied] in Hpub. rewrite Es, Ep in Hpub. split; [done|]. exact Hpub.
Qed.

Lemma provision_built l fr at_ l' m : live_built l -> Provision.provision (order c) l (pids c) fr at_ = Ok (l', m) -> live_built l'.
Proof.
  intros L. unfold Provision.provision. rewrite bind_Ok. intros ([l1 pairs] & Hr & H). assert (l1 = l') as ->; [|by eapply Live.live_register].
  destruct pairs; [by injection H|]. apply bind_Ok in H as (gs & _ & H). by apply bind_Ok in H as (cs & _ & [= <- _]).
Qed.

End Runtime.

(** C3.  A frame reaches the packets before the controller hears of it: take any tick of the live runtime, with any interleaving and any failure of the channel
    commands, also when a manifest fails half-way and is applied again.  While an interface is up it has the queue of the contact it had, if that
    carried traffic, or of its contact in the new frame; and the controller is told of the frame only after every interface is up exactly if its contact is,
    with the frame's delay, rate and loss. *)
Theorem applied_before_told str c fr at_ w st st' r l m a b i p old new up s :
  tick str c fr at_ w st = (st', r) -> live_built (lv st) -> (forall n m p, pid_of (pids c) n = Ok p -> pid_of (pids c) m = Ok p -> n = m) ->
  Provision.provision (order c) (lv st) (pids c) (f_links fr) at_ = Ok (l, m) ->
  real c l (desired l (f_links fr)) (first_attempt w) -> real c l (desired l (f_links fr)) (second_attempt w) ->
  interface (base l) a b = Ok i -> pid_of (pids c) a = Ok p -> a ∈ dkeys (nodes (base l)) -> dget (directed (base l)) (a, b) = Some old ->
  dget (direct (desired l (f_links fr))) (a, b) = Some new -> operational_up new = Some up ->
  active (base l) a b = Ok (asked_up s) -> asked_queue s = Some (queue_words (base l) old) ->
  exists t, commands st' = commands st ++ t /\
    (forall t', t' `prefix_of` t -> asked_up (ask_after p i s t') = true ->
       asked_up s = true /\ asked_queue (ask_after p i s t') = Some (queue_words (base l) old) \/
       up = true /\ asked_queue (ask_after p i s t') = Some (queue_words (base l) new)) /\
    (published (ctl st') = published (ctl st) \/
     published (ctl st') = published (ctl st) ++ [(sequence st + 1, desired l (f_links fr))] /\ ask_after p i s t = Ask up (Some (queue_words (base l) new))).
Proof.
  intros Ht L Hpids Hpr R1 R2 Hi Hp Ha Hold Hnew Hup Hw Hs. pose proof (provision_built _ _ _ _ _ _ L Hpr) as L1.
  assert (forall t', t' `prefix_of` [] -> asked_up (ask_after p i s t') = true -> asked_up s = true /\ asked_queue (ask_after p i s t') = Some (queue_words (base l) old) \/
       up = true /\ asked_queue (ask_after p i s t') = Some (queue_words (base l) new)) as Hnil by (intros t' ->%prefix_nil_inv H; by left).
  destruct (tick_network _ _ _ _ _ _ _ _ Ht) as [[Hc Hpub]|(l' & m' & st1 & rc & Hpr' & Hch & Hc & Hpub)]; [exists []; rewrite Hc, app_nil_r; by auto|].
  rewrite Hpr in Hpr'. injection Hpr' as <- <-. rewrite Hc. apply apply_channels_run in Hch as (t & l2 & -> & _ & H). exists t. split; [done|].
  destruct H as [(-> & Hr)|[([[[js ch] u] Hj] & -> & Hr)|([[[js ch] u] Hj] & -> & Hr)]].
  - split; [done|]. left. by rewrite Hpub, Hr, app_nil_r.
  - destruct (R1 _ _ _ Hj) as (o1 & r1 & He & Hok). cbn [lv set_lv] in Hj.
    destruct (Replay.contact_trace l (pids c) [] 0 _ false false js ch u o1 _ r1 a b new i p old up s L1 Hpids Hj He Hnew Hi Hp Ha Hold Hup Hw Hs) as [H1 H2].
    split; [done|]. destruct (is_Ok rc) eqn:Erc; [|left; by rewrite Hpub, app_nil_r]. right. destruct (Hok (Hr eq_refl)) as [rs Hrs]. split; [done|]. by apply (H2 rs).
  - destruct (R1 _ _ _ Hj) as (o1 & r1 & He1 & _), (R2 _ _ _ Hj) as (o2 & r2 & He2 & Hok). cbn [lv set_lv] in Hj.
    destruct (Replay.contact_trace l (pids c) [] 0 _ false false js ch u o1 _ r1 a b new i p old up s L1 Hpids Hj He1 Hnew Hi Hp Ha Hold Hup Hw Hs) as [H1 _].
    destruct (Replay.contact_trace_retry l (pids c) [] 0 _ false false js ch u o1 o2 _ r1 _ r2 a b new i p old up s L1 Hpids Hj He1 He2 Hnew Hi Hp Ha Hold Hup Hw Hs) as [H2 H3].
    split; [|destruct (is_Ok rc) eqn:Erc; [right; destruct (Hok (Hr eq_refl)) as [rs Hrs]; split; [done|by apply (H3 rs)]|left; by rewrite Hpub, app_nil_r]].
    intros t' [Hpre|(t2 & -> & Hpre)]%Replay.prefix_of_app; [by apply H1|by apply H2].
Qed.

(** ** Verified frames *)

Lemma drop_str_length n s : String.length (drop_str n s) = (String.length s - n)%nat.
Proof. revert s. induction n as [|n IH]; intros [|a s]; simpl; [done..|apply IH]. Qed.

Lemma str_tail_nonempty n s : (0 < n)%nat -> s <> "" -> str_tail n s <> "".
Proof.
  intros Hn Hs H%(f_equal String.length). unfold str_tail in H. rewrite drop_str_length in H. destruct s; [done|]. cbn [String.length] in H. lia.
Qed.


Lemma allM_true {A} (p : A -> res bool) l : Workloads.allM p l = Ok true <-> Forall (fun x => p x = Ok true) l.
Proof.
  induction l as [|x l IH]; cbn [Workloads.allM]; [done|]. rewrite Forall_cons, <- IH. destruct (p x) as [[]|]; simpl_res; naive_solver.
Qed.

Section Verified.
Context (str : exn -> string) (c : config) (s : services) (Hs : workloads c = Some s) (Hd : Workloads.distinct (s_flows s)).

(** The session up to a tick: every update of the services ended normally. *)
Inductive reached : runtime -> Prop :=
| reached_start st : manager st = Workloads.initial -> kernel st = [] -> reached st
| reached_update w st st' : reached st -> first_update c w st = (st', Ok tt) -> reached st'
| reached_tick fr at_ w st st' r : reached st -> tick str c fr at_ w st = (st', Ok r) -> workload_error st' = None -> reached st'.

Definition mirrored (m : Workloads.manager) (k : Workloads.kernel) : Prop := forall f, Workloads.mirror (env_of c s f) (Workloads.installed m) k.

(** What an update that ends normally gives for the fabric it was computed on. *)
Definition served (f : fabric) (m : Workloads.manager) (k : Workloads.kernel) : Prop :=
  Workloads.truthful (env_of c s f) m /\ Workloads.honest (env_of c s f) m k /\ Workloads.walkable_states (env_of c s f) m (Workloads.all_directions (s_flows s)).

Lemma update_served f p i w m k m' k' : mirrored m k -> Workloads.update (env_of c s f) p i w m k = (m', k', Ok tt) -> mirrored m' k' /\ served f m' k'.
Proof.
  intros Hm Hu. destruct (Workloads.update_ok (env_of c s f) _ _ _ _ _ _ _ Hd (Hm f) Hu) as [H1 H2]. split; [intros f'; exact H1|]. split; [done|]. split; [by apply Workloads.honest_ok|].
  exact (Workloads.update_walkable (env_of c s f) _ _ _ _ _ _ _ Hd Hu).
Qed.

(** The parts of a tick that ends normally. *)
Lemma tick_done fr at_ w st st' r : tick str c fr at_ w st = (st', Ok r) ->
  exists ls s1 told s2 s3 s4, (manager s1, kernel s1, sequence s1) = (manager st, kernel st, sequence st + 1) /\ control str ls w s1 = (s2, Ok told) /\
    update_workloads str c w s2 = (s3, Ok tt) /\ retire c at_ w s3 = (s4, Ok tt) /\
    r = Record_ (sequence s4) (model_at fr) (offset_seconds fr) (negb (truthy told.2) && negb (truthy (workload_error s4)) && workloads_ready c s4) told.1.1 told.1.2 (active_pairs fr) /\
    st' = publish_snapshot fr r (set_phase (if truthy told.2 then "degraded" else "running") told.2 s4).
Proof.
  unfold tick. rewrite bind_run_Ok. intros (u0 & s0 & [= <- _] & H). apply bind_run_Ok in H as ([] & s1 & (l & m & _ & ->)%provision_lv & H). apply bind_run_Ok in H as (x & x' & [= <- <-] & H).
  apply bind_run_Ok in H as ([] & s2 & (t & l2 & -> & _)%apply_channels_run & H). apply bind_run_Ok in H as (u3 & s3 & [= <- _] & H). apply bind_run_Ok in H as (told & s4 & Hc & H).
  apply bind_run_Ok in H as ([] & s5 & Hu & H). apply bind_run_Ok in H as ([] & s6 & Hr & H). apply bind_run_Ok in H as (u7 & s7 & [= <- _] & H). apply bind_run_Ok in H as (u8 & s8 & [= <- _] & H).
  apply bind_run_Ok in H as (y & y' & [= <- <-] & H). apply bind_run_Ok in H as (u9 & s9 & [= <- _] & H). injection H as <- <-.
  eexists _, _, told, s4, s5, s6. split; [|split; [exact Hc|split; [exact Hu|split; [exact Hr|done]]]]. done.
Qed.

Lemma update_workloads_run w st st' : update_workloads str c w st = (st', Ok tt) -> workload_error st' = None -> mirrored (manager st) (kernel st) ->
  exists m k, st' = set_work m k None st /\ mirrored m k /\ served (base (lv st)) m k.
Proof.
  unfold update_workloads. rewrite Hs. destruct (Workloads.update _ _ _ _ _ _) as [[m k] [[]|x]] eqn:E.
  - intros [= <-] _ Hm. exists m, k. split; [done|]. by eapply update_served.
  - destruct (workload_caught x); [|done]. by intros [= <-].
Qed.

Lemma update_workloads_sets w st st' r : update_workloads str c w st = (st', r) -> exists m k e, st' = set_work m k e st.
Proof using.
  clear. unfold update_workloads. destruct (workloads c) as [sv|]; [|intros [= <- _]; exists (manager st), (kernel st), (workload_error st); by destruct st].
  destruct (Workloads.update _ _ _ _ _ _) as [[m k] [u|x]]; [|destruct (workload_caught x)]; intros [= <- _]; by eexists _, _, _.
Qed.

Lemma retire_run at_ w st st' : retire c at_ w st = (st', Ok tt) -> exists l, st' = set_lv l st /\
  (forall a b, active (base (lv st)) a b = Ok true -> active (base l) a b = Ok true) /\ Fabric.Fabric.service (base l) = Fabric.Fabric.service (base (lv st)).
Proof.
  unfold retire. rewrite bind_run_Ok. intros (x & x' & [= <- <-] & H). apply bind_run_Ok in H as ([l m] & s1 & [= <- Hr] & H). cbn [fst snd] in H.
  assert (forall A, A -> st = set_lv (lv st) st /\ A) as Hsame by (intros A HA; split; [by destruct st|done]).
  destruct m as [m|]; [|injection H as <-; exists (lv st); by apply Hsame]. apply bind_run_Ok in H as (u1 & s1 & [= <- _] & H). apply bind_run_Ok in H as (u2 & s2 & [= <- _] & H). injection H as <-. exists l. split; [done|].
  revert Hr. unfold Provision.retire. rewrite bind_Ok. intros (pairs & Hp & H). apply bind_Ok in H as ([jobs conf] & _ & H). destruct pairs as [|p0 pairs']; [by injection H as <-|].
  apply bind_Ok in H as (l' & Hf & [= <- _]). set (pairs := p0 :: pairs') in *. split.
  - intros a b Hab. assert (forall p, p ∈ pairs -> (a, b) = p \/ (a, b) = Live.flip p -> False) as Hn.
    { intros p Hin Hp'. exact (Live.both_down_inactive _ _ _ _ (Live.expired_down _ _ _ _ _ Hp Hin) Hp' Hab). }
    revert Hab. unfold active. rewrite (Live.forget_keeps _ _ _ _ _ Hf); [done| |].
    + intros Hin. apply (Hn _ Hin). by left.
    + intros Hin. apply (Hn _ Hin). by right.
  - revert Hf. unfold Live.forget. rewrite bind_Ok. intros (l1 & H1 & [= <-]). apply (foldM_inv (fun z => Fabric.Fabric.service (base z) = Fabric.Fabric.service (base (lv st)))) in H1; [done| |done].
    intros z [a b] z' _ <-. unfold Live.forget_pair. rewrite bind_Ok. intros (ls & _ & H). apply bind_Ok in H as (adj & _ & H). apply bind_Ok in H as (adj' & _ & H). apply bind_Ok in H as (dir & _ & H). by apply bind_Ok in H as (dir' & _ & [= <-]).
Qed.

Lemma ready_status st key ws : workloads_ready c st = true -> dget (Workloads.states (manager st)) key = Some ws -> Workloads.status ws = "ready".
Proof.
  unfold workloads_ready. rewrite Hs. cbn [fmap option_fmap option_map Schedule.workloads_ready]. destruct (_ || _) eqn:E; [done|]. intros _ Hk%dget_Some_in.
  apply orb_false_iff in E as [_ E%negb_false_iff]. unfold Schedule.all_ready in E. rewrite forallb_forall in E. specialize (E (key, Some (Workloads.status ws))). 
  assert (bool_decide (Some (Workloads.status ws) = Some "ready") = true) as H%bool_decide_eq_true; [|by injection H]. apply E. cbn [Schedule.states readiness]. apply in_map_iff. exists (key, ws). split; [done|]. by apply list_elem_of_In.
Qed.

Lemma reached_mirrored st : reached st -> mirrored (manager st) (kernel st).
Proof.
  induction 1 as [st Hm Hk|w st st' _ IH H|fr at_ w st st' r _ IH H He].
  - rewrite Hm, Hk. intros f fd pid _ _. done.
  - revert H. unfold first_update. rewrite Hs. destruct (Workloads.update _ _ _ _ _ _) as [[m k] r] eqn:E. intros [= <- ->]. by eapply update_served in E as [? _].
  - apply tick_done in H as (ls & s1 & told & s2 & s3 & s4 & [= Em Ek _] & Hc & Hu & Hr & _ & ->). cbn [manager kernel workload_error publish_snapshot set_phase] in *.
    apply control_run in Hc as (k & -> & _). apply retire_run in Hr as (l & -> & _). cbn [workload_error set_lv manager kernel] in *.
    apply update_workloads_run in Hu as (m & kn & -> & Hm & _); [done|done|]. cbn [manager kernel set_ctl]. by rewrite Em, Ek.
Qed.

End Verified.

(** The [except] clauses of a tick keep the text of what they caught, and the record of the frame tests that text: a failure whose text is empty is not seen by it. *)
Definition unseen (str : exn -> string) (caught : exn -> bool) : Prop := exists x, caught x = true /\ str x = "".

Lemma unseen_text str caught x : caught x = true -> truthy (Some (str_tail 1500 (str x))) = false -> unseen str caught.
Proof.
  intros Hx H%negb_false_iff%String.eqb_eq. exists x. split; [done|]. destruct (decide (str x = "")) as [|Hn]; [done|]. exfalso. by apply (str_tail_nonempty 1500 (str x)); [lia|..].
Qed.

Lemma update_workloads_failed str c s w st st' : workloads c = Some s -> update_workloads str c w st = (st', Ok tt) -> workload_error st' = Some "" -> unseen str workload_caught.
Proof.
  intros Hs. unfold update_workloads. rewrite Hs. destruct (Workloads.update _ _ _ _ _ _) as [[m k] [u|x]]; [by intros [= <-]|]. destruct (workload_caught x) eqn:Ex; [|done].
  intros [= <-] H. cbn [workload_error set_work] in H. apply (unseen_text str workload_caught x Ex). injection H as ->. done.
Qed.

(** C2.  A verified frame is forwarded as published: after any number of frames whose service updates ended normally, take a frame that is recorded as verified.  Either it was accepted by the controller
    under its own number, and the runtime is running and not degraded, or the exchange failed with an exception whose text is empty, which the record does not see.
    And either every direction of every service is ready, the table of a steered direction
    holding exactly its published route and a centrally controlled direction running over contacts that are all active in the fabric the frame left, or
    the update of the services failed with such an exception. *)
Theorem verified_frame_served str c s config gateways fr at_ w st st' r : workloads c = Some s -> Workload.catalog config gateways = Ok (s_flows s) ->
  reached str c st -> tick str c fr at_ w st = (st', Ok r) -> forwarding_verified r = true ->
  phase st' = "running" /\ index r = sequence st + 1 /\
  (last_error st' = None /\ ground_usable (ctl st') = true /\ last_sequence (ctl st') = index r /\ is_Some (topology_version r) \/
   last_error st' = Some "" /\ ground_usable (ctl st') = false /\ unseen str controller_caught) /\
  (workload_error st' = None /\ (forall f d pid, (f, d) ∈ Workloads.all_directions (s_flows s) -> pid_of (pids c) (Workload.d_node d) = Ok pid ->
    exists ws, dget (Workloads.states (manager st')) (Workload.d_id d) = Some ws /\ Workloads.status ws = "ready" /\
      (Workloads.steered f = true -> exists args, Workloads.steering ws = Some args /\ dget (kernel st') (Workloads.slot pid f d) = Some args) /\
      (Workload.control f <> "distributed" -> exists path, Workloads.s_nodes ws = Some path /\ Forall (fun ab => active (base (lv st')) ab.1 ab.2 = Ok true) (Workloads.hops path))) \/
   workload_error st' = Some "" /\ unseen str workload_caught).
Proof.
  intros Hs Hcat Hre Ht Hv. pose proof (Workloads.catalog_distinct _ _ _ Hcat) as Hd.
  pose proof (reached_mirrored str c s Hs Hd st Hre) as Hm. apply tick_done in Ht as (ls & s1 & told & s2 & s3 & s4 & [= Em Ek En] & Hc & Hu & Hr & -> & ->).
  cbn [forwarding_verified] in Hv. apply andb_true_iff in Hv as [[Htold%negb_true_iff Hwe%negb_true_iff]%andb_true_iff Hready].
  apply retire_run in Hr as (l & -> & Hact & _). cbn [workload_error set_lv] in Hwe. apply control_run in Hc as (k & -> & _ & Hk).
  assert (exists m kn e, s3 = set_work m kn e (set_ctl k s1)) as (m0 & k0 & e0 & E3) by (revert Hu; apply update_workloads_sets).
  rewrite Htold. subst s3. cbn [phase last_error ctl publish_snapshot set_phase set_lv set_work set_ctl index topology_version sequence manager kernel lv workload_error] in *.
  split; [done|]. split; [done|]. split.
  - destruct (Hk told eq_refl) as [(Hn & Hseq & Hus & Hver)|(x & Hx & E & Hus)]; [left; split_and!; try done; by rewrite Hseq|right].
    rewrite E in Htold |- *. split; [|split; [done|by eapply unseen_text]]. f_equal. by apply negb_false_iff, String.eqb_eq in Htold.
  - destruct e0 as [text|].
    + right. apply negb_false_iff, String.eqb_eq in Hwe as ->. split; [done|]. by eapply (update_workloads_failed str c s w).
    + left. split; [done|]. apply (update_workloads_run str c s Hs Hd) in Hu as (m & kn & E & _ & Htr & Hon & Hwalk); [|done|cbn [manager kernel set_ctl]; by rewrite Em, Ek].
      injection E as -> ->. intros f d pid Hin Hpid.
      destruct (Htr _ Hin) as (ws & Hws & _). exists ws. split; [done|]. assert (Workloads.status ws = "ready") as Hst by (by eapply (ready_status c s Hs)).
      split_and!; [done| |].
      * intros Hsteer. destruct (Hon f d pid Hin Hsteer Hpid) as (ws' & Hws' & H & _). cbn [snd] in Hws. rewrite Hws in Hws'. injection Hws' as <-. by apply H.
      * intros Hcon. destruct (Hwalk (f, d) ws Hin Hcon Hws) as (path & Hpath & Hall); [by left|]. exists path. split; [done|]. apply allM_true in Hall. eapply Forall_impl; [exact Hall|]. intros ab. apply Hact.
Qed.

(** ** The schedule of a session *)

Section Scheduled.
Context (mono_base step : Q).

(** What a schedule promises: the frames in the order they were applied and the slot that is next.  A frame starts no earlier than its slot; the next one
    is the first slot after the frame is complete, so a slot is passed over only when its time came while a frame was being applied. *)
Inductive scheduled : list applied_frame -> Z -> Prop :=
| scheduled_start : scheduled [] 0
| scheduled_frame h x following : scheduled h (slot x) -> (mono_base + inject_Z (slot x) * step <= started x)%Q -> (started x <= completed x)%Q ->
    slot x < following -> (completed x < mono_base + inject_Z following * step)%Q ->
    (forall k, slot x < k < following -> (mono_base + inject_Z k * step <= completed x)%Q) -> scheduled (h ++ [x]) following.

(** The clock does not run backwards: every reading is no earlier than the one before it, and a wait that is not interrupted does not return before its timeout. *)
Definition monotonic (it : iteration) : Prop := (0 <= until_check it)%Q /\ (0 <= until_wait it)%Q /\ (0 <= late it)%Q /\ (0 <= work it)%Q.

(** A frame starts no earlier than the deadline it waited for. *)
Lemma wait_reaches at_ now x : (0 <= x)%Q -> (at_ <= now + nonneg (at_ - now) + x)%Q.
Proof.
  intros Hx. unfold nonneg. destruct (Qle_bool (at_ - now) 0) eqn:E; [apply Qle_bool_iff in E|]; lra.
Qed.

Record schedule_ok (d : schedule) : Prop := {
  so_frames : scheduled (history d) (current_slot d);
  so_completed : completed_slots d = len (history d);
  so_slots : completed_slots d + skipped_slots d = current_slot d }.

Lemma complete_ok started_at completed_at s : (0 < step)%Q -> schedule_ok (sched s) -> (deadline mono_base step s <= started_at)%Q -> (started_at <= completed_at)%Q ->
  schedule_ok (sched (complete mono_base step started_at completed_at s)) /\
  rt (complete mono_base step started_at completed_at s) = rt s /\ len (history (sched (complete mono_base step started_at completed_at s))) = len (history (sched s)) + 1.
Proof.
  intros Hstep [H1 H2 H3] Hst Hle. unfold complete. pose proof (Schedule.next_slot_first (current_slot (sched s)) (completed_at - mono_base) step Hstep) as Hn.
  destruct (Schedule.next_slot _ _ _) as [following skipped]. destruct Hn as (Hlt & Hafter & -> & Hfirst). cbn [sched fst rt history]. rewrite len_app. split_and!; try done.
  constructor; cbn [history current_slot completed_slots skipped_slots]; [|rewrite len_app, H2; change (len [Applied (current_slot (sched s)) started_at completed_at]) with 1; lia|lia].
  apply (scheduled_frame (history (sched s)) (Applied (current_slot (sched s)) started_at completed_at) following); cbn [slot started completed]; try done.
  - lra.
  - intros k Hk. destruct (Qlt_le_dec (completed_at - mono_base) (inject_Z k * step)) as [Hc|Hc]; [|lra]. specialize (Hfirst k ltac:(lia) Hc). lia.
Qed.

End Scheduled.

Lemma tick_sequence str c fr at_ w st st' r : tick str c fr at_ w st = (st', r) -> sequence st' = sequence st + 1.
Proof.
  unfold tick. intros [(u & s0 & [= <- _] & H)|(x & H & _)]%bind_run; [|done].
  match type of H with ?m _ = _ => assert (keeps sequence m) as Hk end; [|specialize (Hk (next_sequence st)); by rewrite H in Hk].
  apply keeps_bind; [by apply provision_keeps|intros _]. apply keeps_bind; [apply keeps_get|intros s1]. apply keeps_bind; [|intros _].
  { intros s2. destruct (apply_channels c _ w s2) as [s3 rc] eqn:E. by apply apply_channels_run in E as (t & l & -> & _). }
  apply keeps_bind; [by apply keeps_modify|intros _]. apply keeps_bind; [|intros told].
  { intros s2. destruct (control str _ w s2) as [s3 rc] eqn:E. by apply control_run in E as (k & -> & _). }
  apply keeps_bind; [by apply update_workloads_keeps|intros _]. apply keeps_bind; [by apply retire_keeps|intros _]. apply keeps_bind; [apply keeps_lift|intros _]. apply keeps_bind; [by apply keeps_modify|intros _].
  apply keeps_bind; [apply keeps_get|intros s2]. apply keeps_bind; [by apply keeps_modify|intros _]. apply keeps_ret.
Qed.

Lemma loop_schedule str c duration mono_base step now its s s' r : (0 < step)%Q -> schedule_ok mono_base step (sched s) -> Forall monotonic its ->
  loop str c duration mono_base step now its s = (s', r) -> schedule_ok mono_base step (sched s') /\
  exists e, sequence (rt s') - len (history (sched s')) = sequence (rt s) - len (history (sched s)) + e /\ (e = 0 \/ e = 1 /\ is_Ok r = false).
Proof.
  intros Hstep. revert now s. induction its as [|it its IH]; intros now s Hok Hcl; cbn [loop]; [intros [= <- <-]; split; [done|]; exists 0; split; [lia|by left]|].
  apply Forall_cons in Hcl as [(_ & _ & Hlate & Hwork) Hcl]. destruct (stop_seen it); [intros [= <- <-]; split; [done|]; exists 0; split; [lia|by left]|].
  destruct (_ && _); [intros [= <- <-]; split; [done|]; exists 0; split; [lia|by left]|]. set (asked := (now + until_check it + until_wait it)%Q).
  intros [(s0 & s0' & [= <- <-] & H)|(x & H & _)]%bind_run; [|done]. revert H. destruct (stop_waiting it); [intros [= <- <-]; split; [done|]; exists 0; split; [lia|by left]|].
  pose proof (wait_reaches (deadline mono_base step s) asked (late it) Hlate) as C1. set (started_at := (asked + nonneg (deadline mono_base step s - asked) + late it)%Q) in *.
  assert (started_at <= started_at + work it)%Q as C2 by lra. set (completed_at := (started_at + work it)%Q) in *. clearbody completed_at started_at.
  intros [(fr & s1 & [= <- _] & H)|(x & [= <- _] & ->)]%bind_run; [|split; [done|]; exists 0; split; [lia|by left]].
  apply bind_run in H as [(rec & s1 & Ht & H)|(x & Ht & ->)]; unfold on_runtime in Ht; destruct (tick _ _ _ _ _ _) as [st1 rr] eqn:E; apply tick_sequence in E; injection Ht as <- ->.
  - apply bind_run in H as [(u0 & s1 & [= <- _] & H)|(x & [= <- _] & ->)]; [|split; [done|]; exists 1; split; [cbn [rt sched]; lia|by right]].
    apply bind_run in H as [(u & s1 & [= <- _] & H)|(x & H & _)]; [|done].
    destruct (complete_ok mono_base step started_at completed_at (Session st1 (sched s)) Hstep Hok C1 C2) as (K1 & K3 & K4). cbn [rt sched] in K3, K4.
    apply bind_run in H as [(u1 & s1 & [= <- _] & H)|(x & [= <- _] & ->)]; [|split; [done|]; exists 0; split; [rewrite K3, K4; lia|by left]].
    destruct (IH completed_at (complete mono_base step started_at completed_at (Session st1 (sched s))) K1 Hcl H) as (R1 & e & R2 & R3). split; [done|]. exists e. split; [|done]. rewrite K3, K4 in R2. lia.
  - split; [done|]. exists 1. split; [cbn [rt sched]; lia|by right].
Qed.

(** C20.  The live schedule: whatever a session does, its completed frames follow the slots of the monotonic clock.  The loop waits for the deadline of a slot, so no frame starts before its slot, each frame takes
    the first slot that comes after the one before it was complete, a slot is skipped only if its time came while a frame was being applied, and completed and
    skipped slots add up to the next one.  The number of frames the session reports is the number of completed ones, or one more when the session ended with an error. *)
Theorem live_schedule str c duration mono_base step now its st s' r : (0 < step)%Q -> Forall monotonic its -> sequence st = 100000 ->
  loop str c duration mono_base step now its (Session st fresh_schedule) = (s', r) ->
  scheduled mono_base step (history (sched s')) (current_slot (sched s')) /\ completed_slots (sched s') = len (history (sched s')) /\
  completed_slots (sched s') + skipped_slots (sched s') = current_slot (sched s') /\
  (frames_applied (rt s') = completed_slots (sched s') \/ frames_applied (rt s') = completed_slots (sched s') + 1 /\ is_Ok r = false).
Proof.
  intros Hstep Hcl Hseq H. apply loop_schedule in H as ([H1 H2 H3] & e & He & Hcase); [|done|constructor; [constructor|done|done]|done].
  split_and!; [done|done|done|]. unfold frames_applied. cbn [rt sched fresh_schedule history] in He. rewrite H2. change (len []) with 0 in He. destruct Hcase as [->|[-> Hr]]; [left|right]; [lia|split; [lia|done]].
Qed.

(** ** The checkpoints of a start *)

Fixpoint labels (l : list item) : list string :=
  match l with [] => [] | Stage k _ :: l => k :: labels l | Call _ :: l => labels l end.

Definition body (i : item) : M runtime unit := match i with Stage _ fn | Call fn => fn end.

(** The work of a stage may add tasks and context, but it leaves the rows of the stages to [stage]. *)
Definition quiet (fn : M runtime unit) : Prop := keeps (fun st => Progress.stages (progress st)) fn.

Definition row_of (st : runtime) (key : string) : option (string * option string) := Progress.row (progress st) key.

Lemma quiet_rows fn st st' r key : quiet fn -> fn st = (st', r) -> row_of st' key = row_of st key.
Proof. intros Hq H. specialize (Hq st). rewrite H in Hq. unfold row_of, Progress.row. simpl in Hq. by rewrite Hq. Qed.

Section Checkpoints.
Context (str : exn -> string) (visits : string -> visit).

(** A stage changes its own row only: it is left pending when a stop was requested before, and otherwise done, failed or cancelled. *)
Lemma stage_rows label fn st st' r : quiet fn -> row_of st label = Some ("pending", None) -> stage str label (visits label) fn st = (st', r) ->
  (forall k, k <> label -> row_of st' k = row_of st k) /\
  ((stop_at_entry (visits label) = true /\ is_Ok r = false /\ row_of st' label = Some ("pending", None)) \/
   (stop_at_exit (visits label) = true /\ exists e, row_of st' label = Some ("cancelled", e)) \/
   (stop_at_exit (visits label) = false /\ exists x, r = Err x /\ row_of st' label = Some ("failed", Some (Progress.last_characters 2500 (str x)))) \/
   (stop_at_exit (visits label) = false /\ r = Ok tt /\ exists e, row_of st' label = Some ("done", e))).
Proof.
  intros Hq Hp. unfold stage. intros [(u & s1 & [= <- Hst] & H)|(x & [= <- Hst] & ->)]%bind_run.
  2: { split; [done|]. left. by destruct (stop_at_entry (visits label)). }
  apply bind_run in H as [(u1 & s1 & [= <- _] & H)|(x & H & _)]; [|done]. set (s1 := set_phase label (last_error st) st) in *.
  destruct (Progress.begin_row (progress st) (began_at (visits label)) label) as (p1 & e1 & Hb & Hrows); [unfold row_of in Hp; by rewrite Hp|].
  apply bind_run in H as [(u2 & s2 & H1 & H)|(x & H1 & _)]; unfold on_progress in H1; cbn [progress set_phase] in H1; change (progress s1) with (progress st) in H1; rewrite Hb in H1; [|done]. injection H1 as <- _.
  unfold attempt_stage in H. destruct (fn (set_progress p1 s1)) as [s2 rr] eqn:Ef.
  assert (forall k, row_of s2 k = if decide (k = label) then Some ("running", e1) else row_of st k) as H2 by (intros k; rewrite (quiet_rows _ _ _ _ k Hq Ef); apply Hrows).
  assert (is_Some (Progress.row (progress s2) label)) as Hsome by (specialize (H2 label); rewrite decide_True in H2 by done; unfold row_of in H2; by rewrite H2).
  assert (forall err, exists s3 e, on_progress (fun p => Progress.finish p (ended_at (visits label)) label err (stop_at_exit (visits label))) s2 = (s3, Ok tt) /\
    (Progress.is_error err = true -> e = (fun x => Progress.last_characters 2500 (Progress.text_of x)) <$> err) /\
    forall k, row_of s3 k = if decide (k = label) then Some (Progress.outcome err (stop_at_exit (visits label)), e) else row_of st k) as Hfin.
  { intros err. destruct (Progress.finish_row_of (progress s2) (ended_at (visits label)) label err (stop_at_exit (visits label)) Hsome) as (p3 & e & Hf & He & Hr3).
    exists (set_progress p3 s2), e. unfold on_progress. rewrite Hf. split_and!; [done|done|]. intros k. unfold row_of. cbn [progress set_progress]. rewrite Hr3. case_decide as Hk; [done|]. specialize (H2 k). by rewrite decide_False in H2. }
  destruct rr as [[]|x].
  - destruct (Hfin None) as (s3 & e & Hf & _ & H3). rewrite Hf in H. injection H as <- <-. split; [intros k Hk; by rewrite H3, decide_False|]. right. specialize (H3 label). rewrite decide_True in H3 by done.
    unfold Progress.outcome in H3. destruct (stop_at_exit (visits label)); [left|right; right]; eauto.
  - destruct (Hfin (Some (Progress.Raised (str x)))) as (s3 & e & Hf & He & H3). rewrite Hf in H. injection H as <- <-. split; [intros k Hk; by rewrite H3, decide_False|]. right. specialize (H3 label). rewrite decide_True in H3 by done.
    rewrite (He eq_refl) in H3. unfold Progress.outcome in H3. simpl in H3. destruct (stop_at_exit (visits label)); [left|right; left]; eauto.
Qed.

(** A stop request stays: what a stage sees when it ends is seen by the next one. *)
Fixpoint stops_stay (ks : list string) : Prop :=
  match ks with k :: (k' :: _) as ks' => (stop_at_exit (visits k) = true -> stop_at_entry (visits k') = true) /\ stops_stay ks' | _ => True end.

(** Once a stop is requested no further stage begins. *)
Lemma run_items_stopped l st st' r : Forall (fun i => quiet (body i)) l -> Forall (fun k => row_of st k = Some ("pending", None)) (labels l) ->
  match labels l with k :: _ => stop_at_entry (visits k) = true | [] => True end -> run_items str visits l st = (st', r) ->
  (forall k, row_of st' k = row_of st k) /\ (labels l <> [] -> is_Ok r = false).
Proof.
  revert st. induction l as [|[k fn|fn] l IH]; intros st Hq Hp Hs; cbn [run_items labels] in *; apply Forall_cons in Hq || idtac.
  - by intros [= <- <-].
  - intros [(u & s1 & Hst & H)|(x & Hst & ->)]%bind_run; unfold stage in Hst; rewrite Hs in Hst; apply bind_run in Hst as [(u1 & s2 & [=] & _)|(y & [= <- _] & E)]; done.
  - destruct Hq as [Hq1 Hq]. intros [([] & s1 & Hf & H)|(x & Hf & ->)]%bind_run.
    + assert (forall k, row_of s1 k = row_of st k) as E by (intros k; by eapply quiet_rows in Hf). destruct (IH s1) as [H1 H2]; [done| |done|done|].
      * eapply Forall_impl; [exact Hp|]. intros k Hk. by rewrite E.
      * split; [|done]. intros k. by rewrite H1.
    + split; [|done]. intros k. by eapply quiet_rows in Hf.
Qed.

(** The rows of a start that ended with [r]: done up to a stage, which is still pending, failed with the error or cancelled on a stop request; the later ones are pending. *)
Definition checkpointed (ks : list string) (st : runtime) (r : res unit) : Prop := exists past rest, ks = past ++ rest /\
  Forall (fun k => exists e, row_of st k = Some ("done", e)) past /\
  match rest with
  | [] => True
  | k :: later => Forall (fun k => row_of st k = Some ("pending", None)) later /\
      ((is_Ok r = false /\ row_of st k = Some ("pending", None)) \/
       (exists x, r = Err x /\ stop_at_exit (visits k) = false /\ row_of st k = Some ("failed", Some (Progress.last_characters 2500 (str x)))) \/
       (stop_at_exit (visits k) = true /\ (is_Ok r = true -> later = []) /\ exists e, row_of st k = Some ("cancelled", e)))
  end.

Lemma run_items_rows l st st' r : Forall (fun i => quiet (body i)) l -> NoDup (labels l) -> Forall (fun k => row_of st k = Some ("pending", None)) (labels l) -> stops_stay (labels l) ->
  run_items str visits l st = (st', r) -> (forall k, k ∉ labels l -> row_of st' k = row_of st k) /\ checkpointed (labels l) st' r.
Proof.
  revert st. induction l as [|[label fn|fn] l IH]; intros st Hq Hnd Hp Hs; cbn [run_items labels] in *.
  { intros [= <- <-]. split; [done|]. exists [], []. done. }
  - apply Forall_cons in Hq as [Hq1 Hq]. apply NoDup_cons in Hnd as [Hn Hnd]. apply Forall_cons in Hp as [Hp1 Hp]. intros H.
    assert (stops_stay (labels l)) as Hs' by (destruct (labels l); [done|by destruct Hs]).
    assert (forall s, (forall k, k <> label -> row_of s k = row_of st k) -> Forall (fun k => row_of s k = Some ("pending", None)) (labels l)) as Hpend.
    { intros s Hsame. rewrite Forall_forall in Hp |- *. intros k Hk. rewrite Hsame; [by apply Hp|]. by intros ->. }
    apply bind_run in H as [([] & s1 & Hst & H)|(x & Hst & ->)]; destruct (stage_rows _ _ _ _ _ Hq1 Hp1 Hst) as [Hsame Hcase].
    + destruct Hcase as [(_ & [=] & _)|[(Hstop & e & He)|[(_ & x & [=] & _)|(Hstop & _ & e & He)]]].
      * destruct (run_items_stopped l s1 st' r Hq (Hpend s1 Hsame)) as [H1 H2]; [by destruct (labels l); [|destruct Hs as [Hs _]; auto]|done|].
        split; [intros k [Hk _]%not_elem_of_cons; by rewrite H1, Hsame|]. exists [], (label :: labels l). split; [done|]. split; [done|]. split; [apply Hpend; intros k Hk; by rewrite H1, Hsame|].
        right; right. split; [done|]. split; [|exists e; by rewrite H1]. intros Hr. destruct (labels l); [done|]. by rewrite H2 in Hr.
      * destruct (IH s1 Hq Hnd (Hpend s1 Hsame) Hs' H) as [H1 (past & rest & E & Hpast & Hrest)]. split; [intros k [Hk Hk']%not_elem_of_cons; by rewrite H1, Hsame|].
        exists (label :: past), rest. split; [by rewrite E|]. split; [|done]. apply Forall_cons. split; [|done]. exists e. by rewrite H1.
    + split; [intros k [Hk _]%not_elem_of_cons; by apply Hsame|]. exists [], (label :: labels l). split; [done|]. split; [done|]. split; [by apply Hpend|].
      destruct Hcase as [(_ & _ & He)|[(Hstop & He)|[(Hstop & y & [= <-] & He)|(_ & [=] & _)]]]; [by left|by right; right|right; left; by exists x].
  - apply Forall_cons in Hq as [Hq1 Hq]. intros [([] & s1 & Hf & H)|(x & Hf & ->)]%bind_run.
    + assert (forall k, row_of s1 k = row_of st k) as E by (intros k; by eapply quiet_rows in Hf). destruct (IH s1 Hq Hnd) as [H1 H2]; [|done|done|split; [|done]; intros k Hk; by rewrite H1].
      eapply Forall_impl; [exact Hp|]. intros k Hk. by rewrite E.
    + assert (forall k, row_of st' k = row_of st k) as E by (intros k; by eapply quiet_rows in Hf). split; [done|]. exists [], (labels l). split; [done|]. split; [done|].
      destruct (labels l) as [|k ks]; [done|]. apply Forall_cons in Hp as [Hp1 Hp]. split; [eapply Forall_impl; [exact Hp|]; intros k' Hk'; by rewrite E|]. left. by rewrite E.
Qed.

End Checkpoints.

(** The stages of the code, in order: those of [Progress.STAGES] after the one of the launcher. *)
Lemma startup_labels c a : labels (startup c a) = map fst (drop 1 Progress.STAGES).
Proof. done. Qed.

(** The work of every stage leaves the rows to [stage]. *)
Record quiet_actions (a : actions) : Prop := {
  qa_stages : Forall quiet [record_sources a; prepare_host a; hold_radio a; compile_live a; check_resources a; prepare_cloud a; network a; protocols_setup a; workloads_setup a; noc_start a;
    limit_containers a; start_controller a; route_n3 a; workloads_start a; start_onboard a] }.

Lemma startup_quiet c a : quiet_actions a -> Forall (fun i => quiet (body i)) (startup c a).
Proof.
  intros [H]. repeat apply Forall_cons in H as [? H]. assert (forall fn, quiet fn -> quiet (when_workloads c fn)) as Hw by (intros fn Hf; unfold when_workloads; by destruct (workloads c)).
  repeat (apply Forall_cons; split); cbn [body]; try done; auto.
  - apply keeps_bind; [apply keeps_lift|intros p]. by apply keeps_modify.
  - apply keeps_bind; [apply keeps_lift|intros p]. by apply keeps_modify.
  - intros st. unfold first_update. destruct (workloads c); [|done]. by destruct (Workloads.update _ _ _ _ _ _) as [[m k] r].
Qed.

(** The checkpoints of a start are truthful: however it ends (it succeeds, a stage fails, a call between stages raises, a stop is requested), the stages up to some point are done,
    at most one is failed, with the text of the very exception that ended the start, or cancelled, and only on a stop request, and everything after it is still pending;
    a start that succeeds has done every stage, the last of them cancelled at most. *)
Theorem startup_checkpoints str c a visits p at_ st st' r : quiet_actions a -> Progress.ok p ->
  progress st = (Progress.finish p at_ "starting_5g" None false).1 -> (forall k, k ∈ labels (startup c a) -> Progress.row p k = Some ("pending", None)) ->
  stops_stay visits (labels (startup c a)) -> run_items str visits (startup c a) st = (st', r) ->
  (exists e, row_of st' "starting_5g" = Some ("done", e)) /\ checkpointed str visits (map fst (drop 1 Progress.STAGES)) st' r.
Proof.
  intros Hq Hok Hst Hp Hs H. destruct (Progress.finish_row_of p at_ "starting_5g" None false) as (p' & e & Hf & _ & Hrows).
  { unfold Progress.row. destruct (proj1 (Progress.find_row_ids (Progress.stages p) "starting_5g")) as [v ->]; [rewrite (Progress.ok_ids _ Hok); vm_compute; left|by eexists]. }
  rewrite Hf in Hst. cbn [fst] in Hst. rewrite <- (startup_labels c a). destruct (run_items_rows str visits (startup c a) st st' r) as [H1 H2]; try done.
  - by apply startup_quiet.
  - apply (bool_decide_unpack _). vm_compute. exact I.
  - apply Forall_forall. intros k Hk. unfold row_of. rewrite Hst, Hrows. case_decide as Ek; [|by apply Hp]. subst k. exfalso. revert Hk. rewrite startup_labels. apply (bool_decide_unpack _). vm_compute. exact I.
  - split; [|done]. exists e. rewrite H1; [unfold row_of; rewrite Hst, Hrows; by rewrite decide_True|]. rewrite startup_labels. apply (bool_decide_unpack _). vm_compute. exact I.
Qed.

(** ** The verdict of a session *)





(** ** Example: a frame with a new contact, whose first manifest is applied but not acknowledged *)

Definition example_str (x : exn) : string := "error".

Definition example_services : services := Services (Workloads.flows Workloads.example_env) 10 false [].

Definition example_config : config := Config Replay.example_pids "sf-unified-1" id (Some example_services).

Definition example_model_frame : model_frame := Frame "2026-01-01T00:00:10+00:00" 10 Replay.example_frame [("gw-a", "gw-b"); ("gw-a", "sat"); ("gw-b", "sat")].

Definition example_controller : controller := Controller None None 0 false 99999 [].

Definition example_start : runtime := Runtime Live.live0 example_controller Workloads.initial [] None 100000 "running" None None [] [] [] [] (Progress.fresh "77" "t0").

Definition example_live : live := match Provision.provision id Live.live0 Replay.example_pids Replay.example_frame 10 with Ok (l, _) => l | Err _ => Live.empty_live end.

Definition example_manifests : option Provision.manifests := match Provision.provision id Live.live0 Replay.example_pids Replay.example_frame 10 with Ok (_, m) => m | Err _ => None end.

Definition example_jobs : list Jobs.job :=
  match channel_jobs (Replay_ (base example_live) [] 0) Replay.example_pids (desired example_live Replay.example_frame) false false with Ok (js, _, _) => js | Err _ => [] end.

Definition example_trace : list (Z * words) := match Jobs.run_in_order Jobs.accepted example_jobs with Some (t, _) => t | None => [] end.

Definition example_answers : answers :=
  Answers (Ok (Some (JInt 7))) (Ok None) (Ok (Some ["gw-a via sat"])) (Ok ("committed", PlanDoc Workloads.example_plan (Some ["gw-a via sat"]))) (Ok (Some (PlanDoc Workloads.example_plan (Some ["gw-a via sat"])))).

Definition example_turn : turn :=
  Turn (Ok tt) (fun _ => Ok tt) (fun _ => false) (Attempt example_trace (Err (RuntimeError "namespace worker failed"))) false (Attempt example_trace (Ok tt)) "t1" example_answers
    Workloads.example_inputs (Workloads.Writes None None []) (Ok tt) (Ok tt) false.

Definition example_tick : runtime * res record := tick example_str example_config example_model_frame 10 example_turn example_start.

Definition example_end : runtime := example_tick.1.

Definition example_record : record := Record_ 100001 "2026-01-01T00:00:10+00:00" 10 true (Some (JInt 7)) true [("gw-a", "gw-b"); ("gw-a", "sat"); ("gw-b", "sat")].

Lemma example_ticked : tick example_str example_config example_model_frame 10 example_turn example_start = (example_end, Ok example_record).
Proof. vm_compute. reflexivity. Qed.

Definition example_old : link := Live.down (Replay.up_link "gw-a" "gw-b" 7000).

Definition example_ask : ask := Ask false (Some (queue_words (base example_live) example_old)).

Lemma example_real r : real example_config example_live (desired example_live Replay.example_frame) (Attempt example_trace r).
Proof.
  intros js changed updates H. exists Jobs.accepted. assert (js = example_jobs) as -> by (unfold example_jobs; cbn [pids example_config] in H; by rewrite H).
  eexists. split; [apply Jobs.run_in_order_execute; vm_compute; reflexivity|]. intros _. by eexists.
Qed.

Lemma applied_before_told_witness : exists t, commands example_end = commands example_start ++ t /\
    (forall t', t' `prefix_of` t -> asked_up (ask_after 101 "sf1" example_ask t') = true ->
       asked_up example_ask = true /\ asked_queue (ask_after 101 "sf1" example_ask t') = Some (queue_words (base example_live) example_old) \/
       true = true /\ asked_queue (ask_after 101 "sf1" example_ask t') = Some (queue_words (base example_live) (Replay.up_link "gw-a" "gw-b" 7000))) /\
    (published (ctl example_end) = published (ctl example_start) \/
     published (ctl example_end) = published (ctl example_start) ++ [(sequence example_start + 1, desired example_live Replay.example_frame)] /\
     ask_after 101 "sf1" example_ask t = Ask true (Some (queue_words (base example_live) (Replay.up_link "gw-a" "gw-b" 7000)))).
Proof.
  apply (applied_before_told example_str example_config example_model_frame 10 example_turn example_start example_end (Ok example_record) example_live example_manifests "gw-a" "gw-b" "sf1" 101
    example_old (Replay.up_link "gw-a" "gw-b" 7000) true example_ask).
  - apply example_ticked.
  - apply Live.live0_built.
  - intros n m p. unfold pid_of, example_config, Replay.example_pids. simpl. repeat case_decide; simpl; congruence.
  - vm_compute. reflexivity.
  - apply example_real.
  - apply example_real.
  - vm_compute. reflexivity.
  - vm_compute. reflexivity.
  - apply (bool_decide_unpack _). vm_compute. exact I.
  - vm_compute. reflexivity.
  - vm_compute. reflexivity.
  - reflexivity.
  - vm_compute. reflexivity.
  - reflexivity.
Defined.

Lemma verified_frame_served_witness : phase example_end = "running" /\ last_sequence (ctl example_end) = 100001 /\
  dget (kernel example_end) Workloads.example_slot =
    Some ["ip"; "route"; "replace"; "table"; "10001"; "198.18.0.3/32"; "encap"; "seg6"; "mode"; "encap"; "segs"; "fc00:0:3::1,fc00:0:2::d"; "dev"; "sr0"].
Proof.
  destruct (verified_frame_served example_str example_config example_services Workloads.example_config (Fabric.Fabric.gateways Fabric.Fabric.example_fabric) example_model_frame 10 example_turn
    example_start example_end example_record) as (H1 & _ & [(_ & _ & H5 & _)|(Hx & _)] & _).
  - reflexivity.
  - vm_compute. reflexivity.
  - apply reached_start; reflexivity.
  - apply example_ticked.
  - reflexivity.
  - split_and!; [exact H1|exact H5|vm_compute; reflexivity].
  - vm_compute in Hx. discriminate.
Defined.

(** A controller that does not answer the next frame: the exception of the timeout has no text. *)
Definition silent_str (x : exn) : string := match x with TimeoutError => "" | _ => "error" end.

Definition silent_turn : turn :=
  Turn (Ok tt) (fun _ => Ok tt) (fun _ => false) (Attempt [] (Ok tt)) false (Attempt [] (Ok tt)) "t2"
    (Answers (Err TimeoutError) (Ok None) (Ok None) (Ok ("committed", PlanDoc Workloads.example_plan None)) (Ok None)) Workloads.example_inputs (Workloads.Writes None None []) (Ok tt) (Ok tt) false.

Definition silent_tick : runtime * res record := tick silent_str example_config example_model_frame 20 silent_turn example_end.

(** The frame is recorded as verified and the runtime as running, though the controller took no batch after the one of the frame before. *)
Lemma unanswered_frame_verified : forwarding_verified <$> silent_tick.2 = Ok true /\ phase silent_tick.1 = "running" /\ ground_usable (ctl silent_tick.1) = false /\
  sequence silent_tick.1 = 100002 /\ last_sequence (ctl silent_tick.1) = 100001.
Proof. vm_compute. split_and!; reflexivity. Qed.

(** The same frame over and over: the first is complete at 24 seconds, in slot 2, and the second, which waits for slot 3, fails. *)
Definition example_iterations : list iteration :=
  [Iteration false 0 0 false 1 (Ok example_model_frame) example_turn (Ok tt) 23 (Ok tt); Iteration false 1 1 false 1 (Ok example_model_frame)
     (Turn (Ok tt) (fun _ => Ok tt) (fun _ => false) (Attempt [] (Err (RuntimeError "down"))) true (Attempt [] (Ok tt)) "t2" example_answers Workloads.example_inputs (Workloads.Writes None None []) (Ok tt) (Ok tt) false) (Ok tt) 2 (Ok tt)].

Definition example_session : session * res bool := loop example_str example_config 0 0 10 0 example_iterations (Session example_start fresh_schedule).

Lemma live_schedule_witness : current_slot (sched example_session.1) = 3 /\ completed_slots (sched example_session.1) + skipped_slots (sched example_session.1) = 3 /\
  frames_applied (rt example_session.1) = completed_slots (sched example_session.1) + 1 /\ example_session.2 = Err (InterruptedError "stopped during channel retry").
Proof.
  destruct (live_schedule example_str example_config 0 0 10 0 example_iterations example_start example_session.1 example_session.2) as (_ & _ & H & _).
  - reflexivity.
  - repeat constructor; vm_compute; discriminate.
  - reflexivity.
  - unfold example_session. by destruct (loop _ _ _ _ _ _ _ _).
  - split; [vm_compute; reflexivity|]. split; [rewrite H; vm_compute; reflexivity|]. split; vm_compute; reflexivity.
Defined.

(** A start whose seventh stage fails. *)
Definition fine : M runtime unit := mret tt.

Definition example_actions : actions :=
  Actions fine fine fine fine fine fine fine (lift (Err (RuntimeError "no adjacency"))) fine fine fine fine example_answers "t1" fine fine fine (Ok None) example_turn.

Definition example_visits (_ : string) : visit := Visit false "t2" "t3" false.

Definition launched : Progress.progress := Progress.fresh "77" "t0".

Definition example_launched : runtime := set_progress (Progress.finish launched "t1" "starting_5g" None false).1 example_start.

Definition example_startup : runtime * res unit := run_items example_str example_visits (startup example_config example_actions) example_launched.

Lemma startup_checkpoints_witness : (exists e, row_of example_startup.1 "starting_5g" = Some ("done", e)) /\
  checkpointed example_str example_visits (map fst (drop 1 Progress.STAGES)) example_startup.1 example_startup.2 /\
  row_of example_startup.1 "checking_protocol_neighbors" = Some ("failed", Some "error") /\ row_of example_startup.1 "starting_observability" = Some ("pending", None).
Proof.
  destruct (startup_checkpoints example_str example_config example_actions example_visits launched "t1" example_launched example_startup.1 example_startup.2) as [H1 H2].
  - constructor. repeat (apply Forall_cons; split; [done|]). by apply Forall_nil.
  - apply Progress.fresh_ok.
  - reflexivity.
  - intros k. rewrite startup_labels. revert k. apply Forall_forall. repeat (apply Forall_cons; split; [vm_compute; reflexivity|]). by apply Forall_nil.
  - cbn. done.
  - unfold example_startup. by destruct (run_items _ _ _ _).
  - split; [exact H1|]. split; [exact H2|]. split; vm_compute; reflexivity.
Defined.




End LiveRuntime.
